(* ===== verification/_CoqProject ===== *)
-Q . S2P
Prelude.v
Redis.v
Slices.v
Database.v
SeqAllocator.v
LeasedAllocator.v
IngestSeq.v
Proto.v
Tenant.v
RateLimit.v
HookCircuit.v
PluginPlatform.v
Validation.v
OperationPolicy.v
EventHandler.v
Retention.v
Submission.v
Send.v
WalReplay.v
Persistence.v
WriterStore.v
WriterEvents.v
WriterRedelivery.v
ReadReceipt.v
ConversationStore.v
Unread.v
ReceiptService.v
MemberPages.v
ConversationRows.v
Conversation.v
ConversationList.v
ConversationEvents.v
Archive.v
ArchiveOnce.v
GatewayLease.v
Keyspace.v
OnlineStore.v
OnlineAdmission.v
OnlineIndex.v
OnlineService.v
TenantKick.v
GatewaySweep.v
SweepSessions.v
SyncPages.v
StorageReader.v
EventReader.v
SyncOrchestrator.v
SyncCatchUp.v
SyncReader.v
SyncEvents.v
SyncSnapshot.v
SyncListing.v
SyncCursor.v
SyncService.v
PushTypes.v
PushRouter.v
PushRouterFacts.v
PushPings.v
PushWorker.v
PushWorkerFacts.v
PushDelivery.v
GatewaySubscriptions.v
GatewayPush.v
GatewayPushFacts.v
GatewayReach.v
OfflinePush.v
MobilePush.v
OfflinePushFacts.v
NotifyPolicy.v
