(* ===== verification/Prelude.v ===== *)
(** * Flare IM core server: verification development

    The server is an instant-messaging backend of Rust services. A message enters
    through the ingest service (flare-message-ingest), which checks it, gives it a
    number of its conversation, logs it and publishes it to a broker; the storage
    writer (flare-storage/writer) takes it from there, stores it once and
    acknowledges it, and the conversation service (flare-conversation) updates the
    rows of the members: unread counts, read positions, lists. Events about messages
    (recalls, edits, read receipts, plugin state) enter through the orchestrator
    (flare-orchestrator), which authorizes, numbers and publishes them to the same
    two consumers. The online service (flare-signaling/online) keeps the sessions of
    the devices that are connected to an access gateway. Clients catch up through the
    sync orchestrator (flare-sync-orchestrator), which reads messages and events from
    the storage reader (flare-storage/reader) and the list of conversations from the
    conversation service. What is published is also pushed: the push server
    (flare-push/server) turns an event into tasks for the recipients, the push worker
    (flare-push/worker) hands the online tasks to every access gateway
    (flare-signaling/gateway), and a gateway sends them down the connections of the
    members. Hooks are called by the capability service (flare-capability); the crates under crates/ hold what the
    services share.

    ** Files, in dependency order

    Shared:
    - [Prelude]: results and errors as values, the state-and-error monad of the
      service methods, saturating integers, strings as UTF-8 bytes (trim, split,
      decimal printing and parsing).
    - [Redis]: the commands the allocators use, as a class [Redis] with its laws
      [RedisLaws], and [SimRedis], which discharges them.
    - [Slices]: the slice methods of the Rust standard library on lists.
    - [Database]: statements that may fail, before or after they took effect, and
      the notions [keeps] (what every statement respects) and [repeats] (methods that
      may be run again).

    Numbers:
    - [SeqAllocator]: crates/flare-im-seq/src/sequence_allocator.rs. [allocate_seq],
      [allocate_seq_with_floor] with its Lua script over doubles, batches, draining.
    - [LeasedAllocator]: crates/flare-im-seq/src/leased_allocator.rs. The lease
      script, [allocate] in the process, and a step relation of nodes with clock
      offsets, crashes and lost replies.
    - [IngestSeq]: the allocation of the ingest service
      (message_ingest_service.rs, [allocate_conversation_seq],
      [first_touch_floor_alloc]) with the recovery of a lost counter.

    Sends and events:
    - [Proto]: messages, events and request contexts as the services read them.
    - [Tenant]: tenant ids (crates/flare-im-contracts/src/utils, domain/tenant.rs) and
      what the projection of a tenant admits (tenant_runtime.rs).
    - [RateLimit]: send_rate_limiter.rs, the fixed-window counters per tenant,
      sender and conversation.
    - [HookCircuit]: flare-capability hook_circuit.rs, the circuit breakers and the
      interleaving of their callers.
    - [PluginPlatform]: crates/flare-im-service-kit/src/plugin_platform.rs, plugin
      cards and the signed card posts; SHA-256 is an argument.
    - [Validation]: crates/flare-im-message-pipeline/src/validation/mod.rs.
    - [OperationPolicy]: message_operation_policy.rs, who may do what to a message.
    - [EventHandler]: event_handler.rs and event_domain_service.rs, with the
      read-watermark scripts of redis_read_watermark.rs.
    - [Retention]: the retention state machine of crates/flare-im-contracts/src/
      message/model.rs.
    - [Submission]: the pure part of a send: profile, prepared submission, the
      re-check after the hook, idempotency keys and records, recipients.
    - [Send]: message_ingest_handler.rs. [handle_send_message_inner] with its stages
      in the order of the code, the reservation guard and its drop.
    - [WalReplay]: wal_replay_handler.rs and the claims of redis_wal.rs.

    Storage writer:
    - [Persistence]: message_persistence.rs, with the idempotency claims of
      redis_idempotency.rs.
    - [WriterStore]: operation_store.rs, the retention statements of postgres_store.rs
      and event_stream.rs as updates of tables.
    - [WriterEvents]: the event handlers (domain/service/event_handlers), the duplicate
      check, and the routing of failures (operation_consumer.rs).
    - [WriterRedelivery]: theorems about redelivered events.
    - [Archive]: postgres_store.rs, the writes of new messages with the send ledger,
      the batch transaction and its retries; [ArchiveOnce]: its theorems.

    Conversation service:
    - [ReadReceipt]: domain/model/read_receipt.rs, watermarks with binary search.
    - [ConversationStore], [ConversationRows], [MemberPages]: postgres_repository.rs,
      the rows of members, the conversation's own row, the pages of the members.
    - [Unread]: theorems about unread counts and read positions.
    - [ReceiptService]: the receipt queries against an interface of the repository,
      which [ConversationStore] discharges.
    - [Conversation], [ConversationList]: conversation_domain_service.rs.
    - [ConversationEvents]: event_consumer.rs, which tenant an event belongs to, what
      it does, how a delivery is settled.

    Online service:
    - [GatewayLease]: crates/flare-im-service-kit/src/gateway/lease.rs and the members
      of the indexes.
    - [Keyspace]: a Redis keyspace of hashes and sets with deadlines.
    - [OnlineStore]: redis/repository.rs, the Lua scripts and the methods over them.
    - [OnlineAdmission]: theorems about the admission script; [OnlineIndex]: about the
      indexes of the sessions, over a step relation of the whole store.
    - [OnlineService]: online_status_service.rs, command_handler.rs and the kicks of
      user_service.rs; [TenantKick]: theorems about kicking a tenant.
    - [GatewaySweep]: gateway_sweeper.rs and gateway_sweep.rs; [SweepSessions]:
      what a sweep does to the sessions.

    Sync:
    - [SyncPages]: sync_limits.rs and the pure helpers of
      sync_orchestration_handler.rs: pages of numbers without gaps, cursors.
    - [StorageReader]: optimized_postgres_store.rs and the reader's handler, messages
      by number, windows, what a member may see of them; [EventReader]: the event
      stream and what a replay leaves out.
    - [SyncOrchestrator]: the ports as records, the sync of one conversation, of
      several and of windows, with their checks; [SyncCatchUp]: the loops of a client,
      against the class [ReadsConversation], which [SyncReader] discharges from
      [StorageReader].
    - [SyncEvents]: event replay with its gap detection.
    - [SyncSnapshot]: the snapshot, its cache and the conversation list; [SyncListing]:
      theorems about reading the list, against the class [ServesSummaries].
    - [SyncCursor]: positions of devices and their bounded cache; [SyncService]: the
      dispatch of a request.

    Push:
    - [PushTypes]: requests, tasks and their codec, as a class with its round trips.
    - [PushRouter]: push_router_handler.rs, who gets an online task and whose phone
      rings, the fan-out to a conversation, the coalescing of pings;
      [PushRouterFacts], [PushPings]: their theorems.
    - [NotifyPolicy]: notify_policy.rs, who muted a conversation, read through the
      member pages of flare-conversation, against the class [ServesRoster], which the
      pages of [MemberPages] discharge.
    - [PushWorker]: online_consumer.rs, online_gateway_delivery.rs, push_routing.rs and
      the gateway router (crates/flare-im-service-kit/src/gateway/router.rs), over
      gateways that are a state and a function; [PushWorkerFacts]: its theorems.
    - [PushDelivery]: the attested records of push_delivery.rs, and the push server and
      the worker composed.
    - [OfflinePush]: offline_consumer.rs, application_delivery.rs, mobile_fanout.rs,
      fcm_push.rs and device_tokens.rs; [MobilePush]: apns_push.rs, getui_push.rs and
      the executors of mobile_credentials.rs; [OfflinePushFacts]: their theorems,
      against what the executor of a vendor promises ([channel]), which all three keep.
    - [GatewaySubscriptions]: conversation_subscription.rs; [GatewayPush]: the push
      RPCs of a gateway, their checks and handlers, delivery to a conversation, the
      relay of signals;
      [GatewayPushFacts]: what is sent to whom; [GatewayReach]: an event on its way
      through all three services.

    ** How effects are modelled

    A fallible function returns [result]. A service method is a function of the
    stores it touches. In [Persistence] and [Send] every call to another process goes
    through [call], and an arbitrary function of the kind and the number of the call
    says whether it succeeds, fails before it took effect or fails after it did; in
    [Send] the whole send may also be cancelled there. The repositories use
    [Database]: a schedule gives the fate of every statement, script or transaction by
    its number. In [OnlineStore] and [GatewaySweep] an argument [others] changes the
    store between any two round trips, for the other clients of the same Redis; in
    [GatewayPush] it changes the subscriptions and the member cache at every await.
    Theorems quantify over these functions, so they hold for every pattern of faults
    and interference, and say so where a calm run is meant. Clocks, fresh ids, hooks,
    decorators, the broker, SSCAN, SHA-256 and the protobuf and JSON codecs are
    arguments; what is assumed of SSCAN is the class [TenantKick.ScanLaws].

    ** What the theorems show

    - Sends: an acknowledged message is in the log or with the broker
      ([Send.acknowledged_sends_are_recoverable]), however the send ends its
      idempotency placeholder is settled ([every_send_settles_its_placeholder]), a
      resend gets the first answer and does nothing, and nothing gets out past the
      gates. Replay removes an entry only once the broker has it, drains the log in
      a calm round, and never hands one entry to two processes.
    - Storage: an acknowledgement follows durability, the log entry outlives it, a
      claim is kept only for a stored message; a send is archived once however often
      it is delivered, and a batch stores what single writes store; redelivered events
      apply once; reactions refine sets.
    - Numbers: strictly increasing per conversation, for the plain, floor-guarded,
      batch and leased allocators, under concurrency and crashes.
    - Events: what is published passed every gate; a failed event hands its claim
      back; a reader's published positions only go up.
    - Conversations: the unread count of a member is the number of unread messages;
      events stay in their tenant; an ensure keeps the members; counts of readers
      equal a count member by member, and only the sender learns who read; pages list
      everyone once; a created conversation reads back.
    - Online: after a login the device rules hold and no more was evicted than they
      ask for; every session is found through both indexes; a tenant kick that
      reports success leaves no session; accepted logins passed every gate, and a
      tenant is refused only on a verdict; a sweep removes only sessions of gateways
      whose lease was missing all along; members of the indexes read back.
    - Sync: page after page from a position delivers every message a member may see, in
      order and without a gap, and so do a cold start and the pages of history before
      it; a sync or a replay shows nothing below the member's floor; a replay is
      complete or says it is stale; reading the list passes no conversation over while
      conversations change, and holds each once if none does; cached positions never
      go back; refusals do not tell whether a conversation exists; a request leaves
      what is kept for other users alone.
    - Push: an event is handed on for every recipient, and a phone rings only for a user
      who is offline and did not silence the conversation, whatever fails, with the
      settings their row in the conversation service has; no ping
      is lost to coalescing; a batch of tasks keeps tenants apart, and with a network
      that works reaches every gateway; subscriptions are a set; a gateway sends to
      current members only, whatever other tasks do meanwhile, and an event that is
      published reaches every connection of every member ([events_reach_the_members]);
      the member cache is bounded; an offline task is acknowledged only when every
      device is settled, and a device that accepted it is not pushed to again.
    - Authorization: the policy refines a rule-by-rule specification; only the sender
      changes a message; card posts authorize one message.
    - Limits: quotas hold, at most one probe of a broken hook is in flight.
    - Retention: burned content never comes back and never expires early.

    Other theorems show where the code does less than it means to: a batch that fails
    while claiming and a lost claim reply ([Persistence]), interleaved rollbacks of
    read positions ([EventHandler]), node ids with a colon ([LeasedAllocator]), a lost
    counter seen by a second instance ([IngestSeq]), a lost burn event, an edit stored
    twice and an edit after a burn ([WriterRedelivery]), a redelivered message counted
    twice, a retraction that misses its message, the count left by clearing one's own
    history and the unclamped read position ([Unread]), an ensure that strips roles
    ([ConversationEvents]), equal times in the list ([ConversationList]), a reused
    client id ([ArchiveOnce]), a logout that unindexes a new login and a heartbeat that
    revives an evicted session ([OnlineIndex]), a failed removal of the sweeper that is
    never retried ([GatewaySweep]), a message in flight that a sync passes over and
    burned messages it returns ([SyncReader]), a full-size replay that stops early and a
    burned message that is replayed ([SyncEvents]), the position of another tenant that
    is returned ([SyncCursor]), notifications for several users that reach nobody
    ([PushWorkerFacts]), pushes without the identity the gateways require
    ([GatewayReach]), a late ping that drops a newer one ([PushPings]), a
    larger cap that covers fewer members ([NotifyPolicy]).

    ** Bounds

    Integers are [Z] with the ranges of the source as hypotheses or saturating
    operations; Lua numbers are rounded to doubles ([double_of_Z]), so the floor
    script is exact up to [2^53]. Loops are structural over their lists. Fuel appears
    where the source or a client loops on an answer of another process: walks through
    pages, where the theorems prove how many suffice (one more than there are numbers,
    rows or conversations), and the rounds of SSCAN, where running out is
    the value [None] and excluded under the documented guarantee. The attempts of a
    login and of a batch write are the constants of the source.

    ** Not modelled

    Network and storage drivers, metrics and logs; SQL is the update of tables it
    describes; expiry of Redis keys outside the leases and the online store; the order
    of iteration over hash maps, which is an argument. Of the services modelled: the
    loading of the conversation list, search, presence and reports
    (flare-conversation); operator kicks, subscriptions, push targets and link quality
    (flare-signaling/online); the user-sync fanout of persistent events and concurrent
    batch sends; search, exports and the other queries of the storage reader; the push
    proxy, what a notification shows and the leased credential file (flare-push);
    connections, the uplink and the sending side of the relay (flare-signaling/gateway). Whole services left
    out: route, media, admin and API gateways, the hook selector. *)

From stdpp Require Import base gmap strings list sorting.
From Stdlib Require Import Lia ZArith.
From Stdlib Require Import Ascii.
From Stdlib Require DecimalString DecimalN DecimalPos DecimalZ.

(** ** Results and errors

    [result] is Rust's [Result<A, FlareError>]; [?] is the bind of the
    [MBind] instance, written [x ← c; k]. *)

Inductive ErrorCode :=
  | PermissionDenied
  | InvalidParameter
  | BadRequest
  | ServiceUnavailable
  | InternalError
  | DatabaseError
  | ConfigurationError
  | MessageNotFound
  | MessageRateLimitExceeded
  | OperationTimeout
  | OperationNotSupported
  | RedisError
  | HttpConflict
  | HttpNotFound
  | MessageFormatError
  | DeserializationError
  | SerializationError
  | UserNotFound
  | MessageDeliveryFailed
  | UserOffline
  | AuthenticationRequired.

#[export] Instance ErrorCode_eq_dec : EqDecision ErrorCode.
Proof. solve_decision. Defined.

(** What the server's [ErrorBuilder] fills in: the code, the reason, the
    details and the parameters. *)
Record FlareError := mkError {
  err_code : ErrorCode;
  err_reason : string;
  err_details : option string;
  err_params : list (string * string);
}.

#[export] Instance FlareError_eq_dec : EqDecision FlareError.
Proof. solve_decision. Defined.

Definition flare_err (c : ErrorCode) (reason : string) : FlareError :=
  mkError c reason None [].

Definition flare_err_details (c : ErrorCode) (reason details : string) : FlareError :=
  mkError c reason (Some details) [].

Inductive result (A : Type) :=
  | Ok (a : A)
  | Err (e : FlareError).
Arguments Ok {A} a.
Arguments Err {A} e.

#[export] Instance result_ret : MRet result := fun A a => Ok a.
#[export] Instance result_bind : MBind result := fun A B f m =>
  match m with Ok a => f a | Err e => Err e end.

#[export] Instance result_eq_dec `{EqDecision A} : EqDecision (result A).
Proof. solve_decision. Defined.

(** [ok_or_else] *)
Definition ok_or {A} (o : option A) (e : FlareError) : result A :=
  match o with Some a => Ok a | None => Err e end.

Definition is_ok {A} (r : result A) : bool :=
  match r with Ok _ => true | Err _ => false end.

Lemma bind_ok_inv {A B} (m : result A) (f : A -> result B) b :
  (x ← m; f x) = Ok b -> exists a, m = Ok a /\ f a = Ok b.
Proof. destruct m; simpl; [eauto | discriminate]. Qed.

Lemma bind_ok_iff {A B} (m : result A) (f : A -> result B) b :
  (x ← m; f x) = Ok b <-> exists a, m = Ok a /\ f a = Ok b.
Proof. split; [apply bind_ok_inv|]. intros (a & -> & H). exact H. Qed.

(** What a lookup that found [x], or nothing, says about an existential. *)
Lemma exists_some {A} (x : A) (P : A -> Prop) : (exists r, Some x = Some r /\ P r) <-> P x.
Proof. naive_solver. Qed.

Lemma exists_none {A} (P : A -> Prop) : (exists r, None = Some r /\ P r) <-> False.
Proof. naive_solver. Qed.

(** ** Effectful code

    A service method that reads and writes the world [S] and may fail: the
    error leaves what was written before it. *)

Definition stE (S A : Type) : Type := S -> result A * S.

#[export] Instance stE_ret {S} : MRet (stE S) := fun A a s => (Ok a, s).
#[export] Instance stE_bind {S} : MBind (stE S) := fun A B f m s =>
  match m s with
  | (Ok a, s') => f a s'
  | (Err e, s') => (Err e, s')
  end.

Definition lift_r {S A} (r : result A) : stE S A := fun s => (r, s).
Definition get_s {S} : stE S S := fun s => (Ok s, s).
Definition modify_s {S} (f : S -> S) : stE S unit := fun s => (Ok (), f s).
(** [match m { Ok(a) => .., Err(e) => .. }] on a method call *)
Definition on_result {S A B} (m : stE S A) (ok : A -> stE S B) (err : FlareError -> stE S B) : stE S B :=
  fun s => match m s with
           | (Ok a, s') => ok a s'
           | (Err e, s') => err e s'
           end.

Lemma stE_bind_run {S A B} (m : stE S A) (f : A -> stE S B) s :
  (x ← m; f x) s = match m s with (Ok a, s1) => f a s1 | (Err e, s1) => (Err e, s1) end.
Proof. done. Qed.

Lemma on_result_run {S A B} (m : stE S A) (f : A -> stE S B) g s :
  on_result m f g s = match m s with (Ok a, s1) => f a s1 | (Err e, s1) => g e s1 end.
Proof. done. Qed.

Lemma stE_bind_ok {S A B} (m : stE S A) (f : A -> stE S B) s b s' :
  (x ← m; f x) s = (Ok b, s') <-> exists a s1, m s = (Ok a, s1) /\ f a s1 = (Ok b, s').
Proof.
  unfold mbind, stE_bind. destruct (m s) as [[a|e] s1]; [naive_solver|].
  split; [done|]. by intros (? & ? & [=] & _).
Qed.

Lemma stE_lift_bind {S A B} (r : result A) (f : A -> stE S B) s :
  (x ← lift_r r; f x) s = match r with Ok a => f a s | Err e => (Err e, s) end.
Proof. unfold mbind, stE_bind, lift_r. by destruct r. Qed.

(** ** Machine integers: [Z] with the saturating operations of Rust *)

Definition u32_max : Z := 2 ^ 32 - 1.
Definition u64_max : Z := 2 ^ 64 - 1.
Definition i64_max : Z := 2 ^ 63 - 1.
Definition i64_min : Z := - 2 ^ 63.

Definition in_u64 (z : Z) : Prop := (0 <= z <= u64_max)%Z.
Definition in_u32 (z : Z) : Prop := (0 <= z <= u32_max)%Z.

Definition sat_add (m a b : Z) : Z := Z.min (a + b) m.
Definition sat_sub (a b : Z) : Z := Z.max (a - b) 0.
(** [i64::saturating_sub] *)
Definition i64_sat_sub (a b : Z) : Z := Z.max i64_min (Z.min i64_max (a - b)).

Abbreviation u64_add := (sat_add u64_max).
Abbreviation u32_add := (sat_add u32_max).

Lemma sat_add_le m a b : (sat_add m a b <= a + b)%Z.
Proof. unfold sat_add. lia. Qed.

Lemma sat_add_small m a b : (a + b <= m)%Z -> sat_add m a b = (a + b)%Z.
Proof. unfold sat_add. lia. Qed.

(** IEEE double rounding of an integer (round to nearest, ties to even), the
    number type of Lua: the identity up to [2^53]. *)
Definition double_of_Z (z : Z) : Z :=
  if decide (Z.abs z <= 2 ^ 53)%Z then z
  else
    let e := (Z.log2 (Z.abs z) - 52)%Z in
    let u := (2 ^ e)%Z in
    let q := (z / u)%Z in
    let r := (z mod u)%Z in
    if decide (2 * r < u)%Z then (q * u)%Z
    else if decide (u < 2 * r)%Z then ((q + 1) * u)%Z
    else if Z.even q then (q * u)%Z else ((q + 1) * u)%Z.

Lemma double_of_Z_exact z : (Z.abs z <= 2 ^ 53)%Z -> double_of_Z z = z.
Proof. intros H. unfold double_of_Z. by rewrite decide_True. Qed.

(** ** Strings

    A Rust [str] is its UTF-8 bytes; [string] holds one byte per character.
    [str::trim] removes the Unicode [White_Space] characters, each matched by
    its UTF-8 encoding. *)

Module Str.

Definition code (c : ascii) : nat := nat_of_ascii c.

(** U+0009..U+000D and U+0020 *)
Definition ws1 (c : ascii) : bool :=
  bool_decide (9 <= code c <= 13)%nat || bool_decide (code c = 32).
(** U+0085 and U+00A0 *)
Definition ws2 (c d : ascii) : bool :=
  bool_decide (code c = 194) && (bool_decide (code d = 133) || bool_decide (code d = 160)).
(** U+1680, U+2000..U+200A, U+2028, U+2029, U+202F, U+205F and U+3000 *)
Definition ws3 (c d e : ascii) : bool :=
  (bool_decide (code c = 225) && bool_decide (code d = 154) && bool_decide (code e = 128))
  || (bool_decide (code c = 226) && bool_decide (code d = 128)
      && (bool_decide (128 <= code e <= 138)%nat || bool_decide (code e = 168)
          || bool_decide (code e = 169) || bool_decide (code e = 175)))
  || (bool_decide (code c = 226) && bool_decide (code d = 129) && bool_decide (code e = 159))
  || (bool_decide (code c = 227) && bool_decide (code d = 128) && bool_decide (code e = 128)).

Fixpoint trim_start (s : string) : string :=
  match s with
  | EmptyString => EmptyString
  | String c s1 =>
      if ws1 c then trim_start s1
      else match s1 with
           | EmptyString => s
           | String d s2 =>
               if ws2 c d then trim_start s2
               else match s2 with
                    | EmptyString => s
                    | String e s3 => if ws3 c d e then trim_start s3 else s
                    end
           end
  end.

(** The same scan on the reversed bytes. *)
Fixpoint trim_start_rev (s : string) : string :=
  match s with
  | EmptyString => EmptyString
  | String c s1 =>
      if ws1 c then trim_start_rev s1
      else match s1 with
           | EmptyString => s
           | String d s2 =>
               if ws2 d c then trim_start_rev s2
               else match s2 with
                    | EmptyString => s
                    | String e s3 => if ws3 e d c then trim_start_rev s3 else s
                    end
           end
  end.

Definition trim (s : string) : string :=
  String.rev (trim_start_rev (String.rev (trim_start s))).

Definition is_empty (s : string) : bool :=
  match s with EmptyString => true | _ => false end.

(** [s.trim().is_empty()] *)
Definition is_blank (s : string) : bool := is_empty (trim s).

Lemma is_empty_true s : is_empty s = true <-> s = "".
Proof. by destruct s. Qed.

Lemma is_empty_false s : is_empty s = false <-> s <> "".
Proof. by destruct s. Qed.

Definition to_ascii_lowercase_char (c : ascii) : ascii :=
  if decide (65 <= code c <= 90)%nat then ascii_of_nat (code c + 32) else c.

Fixpoint to_ascii_lowercase (s : string) : string :=
  match s with
  | EmptyString => EmptyString
  | String c s => String (to_ascii_lowercase_char c) (to_ascii_lowercase s)
  end.

Definition eq_ignore_ascii_case (s t : string) : bool :=
  bool_decide (to_ascii_lowercase s = to_ascii_lowercase t).

Fixpoint contains_char (c : ascii) (s : string) : bool :=
  match s with
  | EmptyString => false
  | String d s => bool_decide (d = c) || contains_char c s
  end.

(** [bytes().all(p)] *)
Fixpoint all_chars (p : ascii -> bool) (s : string) : bool :=
  match s with
  | EmptyString => true
  | String c s' => p c && all_chars p s'
  end.

(** A character class without the separator keeps it out of every key part. *)
Lemma all_chars_no_sep (p : ascii -> bool) c s :
  p c = false -> all_chars p s = true -> contains_char c s = false.
Proof.
  intros Hc. induction s as [|d s IH]; [done|]. simpl. intros [Hd Hs]%andb_true_iff.
  rewrite IH by done. rewrite bool_decide_eq_false_2; [done|congruence].
Qed.

(** [s.split_once(c)]: the text before and after the first [c]. *)
Fixpoint split_once (c : ascii) (s : string) : option (string * string) :=
  match s with
  | EmptyString => None
  | String d s' =>
      if decide (d = c) then Some (EmptyString, s')
      else match split_once c s' with
           | Some (a, b) => Some (String d a, b)
           | None => None
           end
  end.

Lemma app_cons c s t : String c s +:+ t = String c (s +:+ t).
Proof. done. Qed.

Lemma app_nil t : "" +:+ t = t.
Proof. done. Qed.

Lemma split_once_app c a b :
  contains_char c a = false -> split_once c (a +:+ String c b) = Some (a, b).
Proof.
  induction a as [|d a IH]; intros H.
  - rewrite app_nil. simpl. by rewrite decide_True.
  - simpl in H. apply orb_false_elim in H as [Hd Ha]. apply bool_decide_eq_false in Hd.
    rewrite app_cons. simpl. by rewrite decide_False, IH.
Qed.

(** The part before the first separator never contains it. *)
Lemma split_once_fst c s a b :
  split_once c s = Some (a, b) -> contains_char c a = false /\ s = a +:+ String c b.
Proof.
  revert a b. induction s as [|d s IH]; simpl; intros a b H; [done|].
  case_decide; simplify_eq; [done|].
  destruct (split_once c s) as [[a' b']|] eqn:E; simplify_eq.
  destruct (IH _ _ eq_refl) as [H1 ->]. simpl. rewrite H1.
  rewrite bool_decide_eq_false_2 by done. done.
Qed.

Lemma contains_char_app c a b :
  contains_char c (a +:+ b) = contains_char c a || contains_char c b.
Proof.
  induction a as [|d a IH]; [done|]. rewrite app_cons. simpl.
  by rewrite IH, orb_assoc.
Qed.

(** Decimal printing of an unsigned integer, and its parser. *)
Definition of_Z (z : Z) : string :=
  DecimalString.NilZero.string_of_uint (N.to_uint (Z.to_N z)).

Definition to_Z (s : string) : option Z :=
  match DecimalString.NilZero.uint_of_string s with
  | Some d => Some (Z.of_N (N.of_uint d))
  | None => None
  end.

Lemma N_to_uint_nonnil n : N.to_uint n <> Decimal.Nil.
Proof.
  destruct n; [done|]. simpl. apply DecimalPos.Unsigned.to_uint_nonnil.
Qed.

Lemma to_of_Z z : (0 <= z)%Z -> to_Z (of_Z z) = Some z.
Proof.
  intros Hz. unfold to_Z, of_Z.
  rewrite DecimalString.NilZero.usu by apply N_to_uint_nonnil.
  rewrite DecimalN.Unsigned.of_to. f_equal. lia.
Qed.

Lemma of_Z_inj a b : (0 <= a)%Z -> (0 <= b)%Z -> of_Z a = of_Z b -> a = b.
Proof.
  intros Ha Hb H. apply (f_equal to_Z) in H.
  rewrite !to_of_Z in H by done. by simplify_eq.
Qed.

(** Decimal printing of a signed integer. *)
Definition of_int (z : Z) : string := DecimalString.NilZero.string_of_int (Z.to_int z).

Lemma of_int_inj a b : of_int a = of_int b -> a = b.
Proof.
  assert (Hnn : forall z, Z.to_int z <> Decimal.Pos Decimal.Nil /\ Z.to_int z <> Decimal.Neg Decimal.Nil).
  { intros z. split; destruct z as [|p|p]; simpl; try done;
      intros [= H]; by apply (DecimalPos.Unsigned.to_uint_nonnil p). }
  unfold of_int. intros H. apply (f_equal DecimalString.NilZero.int_of_string) in H.
  rewrite !DecimalString.NilZero.isi in H by apply Hnn.
  injection H as H. apply (f_equal Z.of_int) in H. by rewrite !DecimalZ.of_to in H.
Qed.

Lemma app_assoc a b c : (a +:+ b) +:+ c = a +:+ (b +:+ c).
Proof. induction a as [|x a IH]; [done|]. rewrite !app_cons. by rewrite IH. Qed.

Lemma app_length a b : String.length (a +:+ b) = (String.length a + String.length b)%nat.
Proof. induction a as [|x a IH]; [done|]. rewrite app_cons. simpl. by rewrite IH. Qed.

(** Two concatenations with first parts of one length agree part by part. *)
Lemma app_length_inj a b x y :
  String.length a = String.length b -> a +:+ x = b +:+ y -> a = b /\ x = y.
Proof.
  revert b. induction a as [|c a IH]; intros [|d b] Hl He; try done.
  rewrite !app_cons in He. injection He as -> He. injection Hl as Hl.
  by destruct (IH b Hl He) as [-> ->].
Qed.

(** The separator-joined keys of the source (`{a}:{b}`) are injective in the
    first part as long as it holds no separator. *)
Lemma join_inj c a1 b1 a2 b2 :
  contains_char c a1 = false -> contains_char c a2 = false ->
  a1 +:+ String c b1 = a2 +:+ String c b2 -> a1 = a2 /\ b1 = b2.
Proof.
  intros H1 H2 H. apply (f_equal (split_once c)) in H.
  rewrite !split_once_app in H by done. by simplify_eq.
Qed.

Lemma append_inj_l p a b : p +:+ a = p +:+ b -> a = b.
Proof.
  induction p as [|c p IH]; [done|].
  rewrite !app_cons. intros H. by simplify_eq.
Qed.

(** [s.split(c)]: the parts between the separators, at least one. *)
Fixpoint split (p : ascii -> bool) (s : string) : string * list string :=
  match s with
  | EmptyString => (EmptyString, [])
  | String c s' =>
      let '(part, rest) := split p s' in
      if p c then (EmptyString, part :: rest) else (String c part, rest)
  end.

Definition parts (p : ascii -> bool) (s : string) : list string :=
  let '(part, rest) := split p s in part :: rest.

Definition is_sep (c d : ascii) : bool := bool_decide (d = c).

Lemma parts_nosep c s : contains_char c s = false -> parts (is_sep c) s = [s].
Proof.
  unfold parts, is_sep. induction s as [|d s IH]; [done|]. simpl.
  intros [Hd Hs]%orb_false_iff. specialize (IH Hs). destruct (split _ s) as [part rest].
  rewrite Hd. by simplify_eq.
Qed.

Lemma parts_app c a b :
  contains_char c a = false -> parts (is_sep c) (a +:+ String c b) = a :: parts (is_sep c) b.
Proof.
  intros Ha. unfold parts. induction a as [|d a IH].
  - rewrite app_nil. simpl. unfold is_sep at 2. rewrite bool_decide_eq_true_2 by done.
    by destruct (split _ b).
  - rewrite app_cons. simpl in Ha |- *. apply orb_false_iff in Ha as [Hd Ha]. specialize (IH Ha).
    destruct (split _ (a +:+ String c b)) as [part rest]. destruct (split _ b) as [p2 r2].
    unfold is_sep at 1. rewrite Hd. by simplify_eq.
Qed.

(** [s.starts_with(p)] *)
Definition starts_with (p s : string) : bool := String.prefix p s.

(** [s.strip_prefix(p)] *)
Fixpoint strip_prefix (p s : string) : option string :=
  match p, s with
  | EmptyString, _ => Some s
  | String c p', String d s' => if decide (c = d) then strip_prefix p' s' else None
  | String _ _, EmptyString => None
  end.

Lemma strip_prefix_app p s t : strip_prefix p s = Some t <-> s = p +:+ t.
Proof.
  revert s. induction p as [|c p IH]; intros s; simpl.
  - rewrite app_nil. naive_solver.
  - rewrite app_cons. destruct s as [|d s]; [done|]. case_decide; [rewrite IH; naive_solver|naive_solver].
Qed.

(** A continuation byte of UTF-8, and the second bytes of the restricted heads. *)
Definition in_range (lo hi : nat) (c : ascii) : bool :=
  (lo <=? code c)%nat && (code c <=? hi)%nat.
Definition cont : ascii -> bool := in_range 128 191.

(** [String::from_utf8] accepts: the well-formed byte sequences of UTF-8. *)
Fixpoint utf8_valid (s : string) : bool :=
  match s with
  | EmptyString => true
  | String c s1 =>
      if in_range 0 127 c then utf8_valid s1
      else
        match s1 with
        | EmptyString => false
        | String d s2 =>
            if in_range 194 223 c then cont d && utf8_valid s2
            else
              match s2 with
              | EmptyString => false
              | String e s3 =>
                  if in_range 224 239 c then
                    in_range (if decide (code c = 224) then 160 else 128)
                             (if decide (code c = 237) then 159 else 191) d
                    && cont e && utf8_valid s3
                  else
                    match s3 with
                    | EmptyString => false
                    | String f s4 =>
                        in_range 240 244 c
                        && in_range (if decide (code c = 240) then 144 else 128)
                                    (if decide (code c = 244) then 143 else 191) d
                        && cont e && cont f && utf8_valid s4
                    end
              end
        end
  end.

(** [s.parse::<u64>()]: an optional plus sign and decimal digits, within range. *)
Definition parse_u64 (s : string) : option Z :=
  let digits := match s with String "+" d => d | _ => s end in
  match to_Z digits with
  | Some z => if decide (z <= u64_max)%Z then Some z else None
  | None => None
  end.

Lemma of_Z_digits z : all_chars (in_range 48 57) (of_Z z) = true.
Proof.
  assert (H : forall d, all_chars (in_range 48 57) (DecimalString.NilEmpty.string_of_uint d) = true).
  { induction d; simpl; rewrite ?IHd; done. }
  unfold of_Z, DecimalString.NilZero.string_of_uint. destruct (N.to_uint _); [done|..]; apply H.
Qed.

Lemma of_Z_no_sep c z : in_range 48 57 c = false -> contains_char c (of_Z z) = false.
Proof. intros Hc. eapply all_chars_no_sep; [exact Hc|apply of_Z_digits]. Qed.

Lemma parse_of_Z z : in_u64 z -> parse_u64 (of_Z z) = Some z.
Proof.
  intros [Hz Hm]. unfold parse_u64.
  pose proof (of_Z_digits z) as Hd. pose proof (to_of_Z z Hz) as Ht.
  assert (Hp : (match of_Z z with String "+" d => d | _ => of_Z z end) = of_Z z).
  { destruct (of_Z z) as [|[[] [] [] [] [] [] [] []] s]; done. }
  rewrite Hp, Ht. by rewrite decide_True.
Qed.

End Str.

(** ** Automation *)

Create HintDb str.
#[export] Hint Rewrite Str.app_assoc Str.app_cons Str.app_nil : str.
#[export] Hint Resolve Str.of_Z_no_sep Str.parse_of_Z Str.all_chars_no_sep : str.

(** A successful bind in the hypotheses: both of its parts succeeded. *)
Ltac inv_ok :=
  repeat match goal with
    | Hb : (_ ← _; _) = Ok _ |- _ =>
        let a := fresh "a" in let Ha := fresh "Ha" in
        apply bind_ok_inv in Hb as (a & Ha & Hb)
    | Ho : Ok _ = Ok _ |- _ => injection Ho as Ho; subst
    end.
