(* ===== verification/Redis.v ===== *)
(** * The Redis server as the services see it

    Redis is not part of the repository, so it is an interface: [Redis] lists
    the commands the modelled code sends, [RedisLaws] states the documented
    behaviour the code relies on (INCRBY, GET, SET, SET PX, PEXPIRE, key
    expiry). Everything proved about the allocators is proved against the
    class. [SimRedis] is one implementation of it: it discharges the laws and
    lets every definition be evaluated. *)

From S2P Require Import Prelude.
From stdpp Require Import base gmap strings list.
From Stdlib Require Import Lia ZArith.

Local Open Scope Z_scope.

Class Redis (R : Type) := {
  (** the connection manager reaches the server *)
  reachable : R -> bool;
  (** GET of an integer key *)
  int_get : R -> string -> option Z;
  (** INCRBY; [None] is an error reply (not an integer, overflow) *)
  int_incrby : R -> string -> Z -> option (Z * R);
  (** SET of an integer, no expiry *)
  int_set : R -> string -> Z -> R;
  (** GET of a string key at server time [t] (milliseconds) *)
  str_get : Z -> R -> string -> option string;
  (** SET key value PX ttl, at server time [t] *)
  str_set_px : Z -> R -> string -> string -> Z -> R;
  (** PEXPIRE key ttl, at server time [t] *)
  pexpire : Z -> R -> string -> Z -> R;
}.

(** The value of a counter, an absent key counting as 0 (INCR creates it). *)
Definition high_water `{Redis R} (r : R) (k : string) : Z := default 0 (int_get r k).

Class RedisLaws (R : Type) `{Redis R} := {
  incrby_value r k n v r' :
    int_incrby r k n = Some (v, r') -> v = high_water r k + n /\ int_get r' k = Some v;
  incrby_i64 r k n v r' : int_incrby r k n = Some (v, r') -> v <= i64_max;
  incrby_int_frame r k n v r' k' :
    int_incrby r k n = Some (v, r') -> k' <> k -> int_get r' k' = int_get r k';
  incrby_str_frame r k n v r' k' t :
    int_incrby r k n = Some (v, r') -> k' <> k -> str_get t r' k' = str_get t r k';
  set_value r k v : int_get (int_set r k v) k = Some v;
  set_frame r k v k' : k' <> k -> int_get (int_set r k v) k' = int_get r k';
  str_set_value t r k v ttl t' :
    t <= t' -> str_get t' (str_set_px t r k v ttl) k = if decide (t' < t + ttl) then Some v else None;
  str_set_frame t r k v ttl t' k' :
    k' <> k -> str_get t' (str_set_px t r k v ttl) k' = str_get t' r k';
  str_set_int_frame t r k v ttl k' :
    k' <> k -> int_get (str_set_px t r k v ttl) k' = int_get r k';
  pexpire_value t r k v ttl t' :
    str_get t r k = Some v -> t <= t' ->
    str_get t' (pexpire t r k ttl) k = if decide (t' < t + ttl) then Some v else None;
  pexpire_frame t r k ttl t' k' :
    k' <> k -> str_get t' (pexpire t r k ttl) k' = str_get t' r k';
  pexpire_int_frame t r k ttl k' :
    k' <> k -> int_get (pexpire t r k ttl) k' = int_get r k';
  (** an expired key stays expired until it is set again *)
  str_get_mono t t' r k : t <= t' -> str_get t r k = None -> str_get t' r k = None;
  (** a key present at two times holds the same value *)
  str_get_same t t' r k v v' :
    t <= t' -> str_get t r k = Some v -> str_get t' r k = Some v' -> v = v';
}.

(** ** A simulated server *)

Inductive sim_value :=
  | SInt (z : Z)
  | SStr (s : string) (expire_at : Z).

Record SimRedis := mkSim {
  sim_up : bool;
  sim_keys : gmap string sim_value;
}.

Definition sim_int_get (r : SimRedis) (k : string) : option Z :=
  match sim_keys r !! k with Some (SInt z) => Some z | _ => None end.

Definition sim_str_get (t : Z) (r : SimRedis) (k : string) : option string :=
  match sim_keys r !! k with
  | Some (SStr s e) => if decide (t < e) then Some s else None
  | _ => None
  end.

Definition sim_put (r : SimRedis) (k : string) (v : sim_value) : SimRedis :=
  mkSim (sim_up r) (<[k := v]> (sim_keys r)).

Definition sim_incrby (r : SimRedis) (k : string) (n : Z) : option (Z * SimRedis) :=
  match sim_keys r !! k with
  | Some (SStr _ _) => None
  | o =>
      let cur := match o with Some (SInt z) => z | _ => 0 end in
      if decide (cur + n <= i64_max) then Some (cur + n, sim_put r k (SInt (cur + n)))
      else None
  end.

#[export] Instance SimRedis_redis : Redis SimRedis := {
  reachable := sim_up;
  int_get := sim_int_get;
  int_incrby := sim_incrby;
  int_set r k v := sim_put r k (SInt v);
  str_get := sim_str_get;
  str_set_px t r k v ttl := sim_put r k (SStr v (t + ttl));
  pexpire t r k ttl :=
    match sim_keys r !! k with
    | Some (SStr s e) => if decide (t < e) then sim_put r k (SStr s (t + ttl)) else r
    | _ => r
    end;
}.

Lemma sim_incrby_inv r k n v r' :
  sim_incrby r k n = Some (v, r') ->
  v = default 0 (sim_int_get r k) + n /\ v <= i64_max /\ r' = sim_put r k (SInt v).
Proof.
  unfold sim_incrby, sim_int_get.
  destruct (sim_keys r !! k) as [[z|s e]|]; simpl; [|done|]; case_decide; naive_solver.
Qed.

#[export] Instance SimRedis_laws : RedisLaws SimRedis.
Proof.
  split; simpl; intros.
  1-4: apply sim_incrby_inv in H as (-> & ? & ->); unfold high_water, sim_int_get, sim_str_get; simpl;
    by simplify_map_eq.
  1-5: unfold sim_int_get, sim_str_get; simpl; by simplify_map_eq.
  1-3: unfold sim_str_get, sim_int_get in *; destruct (sim_keys r !! k) as [[z|s e]|] eqn:E; simpl in *;
    repeat case_decide; simplify_map_eq; rewrite ?E; done || (case_decide; naive_solver).
  1-2: unfold sim_str_get in *; destruct (sim_keys r !! k) as [[z|s e]|]; simpl in *;
    repeat case_decide; naive_solver lia.
Qed.

Definition sim_empty : SimRedis := mkSim true ∅.
