(* ===== verification/Slices.v ===== *)
(** * Slices

    The slice methods of the Rust standard library the services use, on lists:
    the stable [sort_by], [dedup_by], [partition_point] as the binary search it is,
    and the lemmas their callers share. *)

From S2P Require Import Prelude.
From stdpp Require Import base list sets strings sorting.
From Stdlib Require Import Lia ZArith.

(** ** [sort_by], stable *)

Section Sort.
Context {A : Type} (le : A -> A -> bool).

(** An element goes before the first one it is not above. *)
Fixpoint insert_by (x : A) (l : list A) : list A :=
  match l with
  | [] => [x]
  | y :: l' => if le x y then x :: l else y :: insert_by x l'
  end.

Fixpoint sort_by (l : list A) : list A :=
  match l with
  | [] => []
  | x :: l' => insert_by x (sort_by l')
  end.

Lemma insert_by_perm x l : insert_by x l ≡ₚ x :: l.
Proof.
  induction l as [|y l IH]; simpl; [done|]. destruct (le x y); [done|].
  rewrite IH. apply Permutation_swap.
Qed.

Lemma sort_by_perm l : sort_by l ≡ₚ l.
Proof. induction l as [|x l IH]; simpl; [done|]. by rewrite insert_by_perm, IH. Qed.

Lemma sort_by_length l : length (sort_by l) = length l.
Proof. apply Permutation_length, sort_by_perm. Qed.

Lemma elem_of_sort_by x l : x ∈ sort_by l <-> x ∈ l.
Proof. by rewrite sort_by_perm. Qed.

Lemma insert_by_head x l : (forall y, y ∈ l -> le x y = true) -> insert_by x l = x :: l.
Proof. destruct l as [|y l]; [done|]. intros H. simpl. by rewrite H by left. Qed.

(** A sorted list is left as it is. *)
Lemma sort_by_sorted_id l : StronglySorted (fun a b => le a b = true) l -> sort_by l = l.
Proof.
  induction 1 as [|x l _ IH Hx]; [done|]. simpl. rewrite IH. apply insert_by_head.
  by apply Forall_forall.
Qed.

Class TotalPreorder := {
  le_total a b : le a b = true \/ le b a = true;
  le_trans a b c : le a b = true -> le b c = true -> le a c = true;
}.

Context `{TotalPreorder}.

Lemma insert_by_sorted x l :
  StronglySorted (fun a b => le a b = true) l ->
  StronglySorted (fun a b => le a b = true) (insert_by x l).
Proof.
  induction 1 as [|y l Hl IH Hy]; simpl; [repeat constructor|].
  destruct (le x y) eqn:E.
  - constructor; [by constructor|]. constructor; [done|].
    eapply Forall_impl; [exact Hy|]. intros z Hz. by eapply le_trans.
  - constructor; [done|]. destruct (le_total x y) as [|Hyx]; [congruence|].
    rewrite insert_by_perm. by constructor.
Qed.

Lemma sort_by_sorted l : StronglySorted (fun a b => le a b = true) (sort_by l).
Proof. induction l as [|x l IH]; simpl; [constructor|by apply insert_by_sorted]. Qed.

(** Elements that tie keep the order they came in. *)
Lemma insert_by_filter (p : A -> bool) x l :
  (forall a b, p a = true -> p b = true -> le a b = true) ->
  filter (fun a => p a = true) (insert_by x l) = filter (fun a => p a = true) (x :: l).
Proof.
  intros Hp. induction l as [|y l IH]; simpl; [done|]. destruct (le x y) eqn:E; [done|].
  rewrite !filter_cons in *. repeat case_decide; rewrite ?IH; try done.
  rewrite Hp in E; done.
Qed.

Lemma sort_by_stable (p : A -> bool) l :
  (forall a b, p a = true -> p b = true -> le a b = true) ->
  filter (fun a => p a = true) (sort_by l) = filter (fun a => p a = true) l.
Proof.
  intros Hp. induction l as [|x l IH]; simpl; [done|].
  rewrite insert_by_filter by done. rewrite !filter_cons. by rewrite IH.
Qed.

(** Lists with the same elements sort to the same list when no two of them tie. *)
Lemma sort_by_unique l k :
  l ≡ₚ k -> (forall a b, a ∈ l -> b ∈ l -> le a b = true -> le b a = true -> a = b) ->
  sort_by l = sort_by k.
Proof.
  intros Hp Ha. apply (StronglySorted_unique_strong (fun a b => le a b = true)).
  - intros a b Hin1 Hin2. apply Ha; [by apply elem_of_sort_by|].
    rewrite Hp. by apply elem_of_sort_by.
  - apply sort_by_sorted.
  - apply sort_by_sorted.
  - by rewrite !sort_by_perm.
Qed.

(** Choosing elements and sorting commute when no two of them tie. *)
Lemma sort_by_filter (P : A -> Prop) `{!forall x, Decision (P x)} l :
  (forall a b, a ∈ l -> b ∈ l -> le a b = true -> le b a = true -> a = b) ->
  sort_by (filter P l) = filter P (sort_by l).
Proof.
  intros Ha. apply (StronglySorted_unique_strong (fun a b => le a b = true)).
  - intros a b [_ H1]%elem_of_sort_by%list_elem_of_filter [_ H2]%list_elem_of_filter.
    apply Ha; [done|by apply elem_of_sort_by].
  - apply sort_by_sorted.
  - induction (sort_by_sorted l) as [|x k Hk IH Hx]; [constructor|]. rewrite filter_cons.
    case_decide; [|done]. constructor; [done|]. rewrite Forall_forall in *.
    intros y [_ Hy]%list_elem_of_filter. by apply Hx.
  - by rewrite !sort_by_perm.
Qed.

(** The first of a sorted list is below all of it. *)
Lemma sort_by_head l x l' :
  sort_by l = x :: l' -> x ∈ l /\ forall y, y ∈ l -> y = x \/ le x y = true.
Proof.
  intros E. pose proof (sort_by_sorted l) as Hs. rewrite E in Hs.
  apply StronglySorted_inv in Hs as [_ Hx]. rewrite Forall_forall in Hx.
  split; [rewrite <- elem_of_sort_by, E; left|].
  intros y Hy. rewrite <- elem_of_sort_by, E in Hy. apply elem_of_cons in Hy as [->|Hy]; eauto.
Qed.

End Sort.

(** Sorting by the converse order reverses, when no two elements tie. *)
Lemma sort_by_converse {A} (le ge : A -> A -> bool) `{!TotalPreorder le, !TotalPreorder ge} l :
  (forall a b, ge a b = le b a) ->
  (forall a b, a ∈ l -> b ∈ l -> le a b = true -> le b a = true -> a = b) ->
  sort_by ge l = reverse (sort_by le l).
Proof.
  intros Hc Ha. apply (StronglySorted_unique_strong (fun a b => ge a b = true)).
  - intros a b H1%elem_of_sort_by H2. rewrite elem_of_reverse, elem_of_sort_by in H2. rewrite !Hc. intros. by apply Ha.
  - by apply sort_by_sorted.
  - induction (sort_by_sorted le l) as [|x k Hk IH Hx]; [constructor|]. rewrite reverse_cons.
    apply StronglySorted_app. split_and!; [|done|repeat constructor].
    intros y z Hy ->%list_elem_of_singleton. rewrite elem_of_reverse in Hy. rewrite Hc.
    by apply (proj1 (Forall_forall _ _) Hx).
  - by rewrite !sort_by_perm, reverse_Permutation, sort_by_perm.
Qed.

(** Sorting by a key and taking the keys commute. *)
Lemma fmap_sort_by {A B} (f : A -> B) (le : B -> B -> bool) l :
  sort_by le (f <$> l) = f <$> sort_by (fun a b => le (f a) (f b)) l.
Proof.
  assert (Hi : forall x l, insert_by le (f x) (f <$> l) = f <$> insert_by (fun a b => le (f a) (f b)) x l).
  { intros x k. induction k as [|y k IH]; [done|]. cbn. destruct (le (f x) (f y)); [done|]. cbn. by rewrite IH. }
  induction l as [|x l IH]; [done|]. cbn. by rewrite IH, Hi.
Qed.

#[export] Instance Zleb_total_preorder : TotalPreorder Z.leb.
Proof. split; intros *; rewrite ?Z.leb_le; lia. Qed.

(** [leb] of strings is the bytewise order of [str]. *)
#[export] Instance string_total_preorder : TotalPreorder String.leb.
Proof.
  split; [apply String.leb_total|]. intros a b c Hab Hbc.
  apply Is_true_true. transitivity b; by apply Is_true_true.
Qed.

(** The order of a key. *)
#[export] Instance key_total_preorder {A B} (f : A -> B) (le : B -> B -> bool) `{!TotalPreorder le} :
  TotalPreorder (fun a b => le (f a) (f b)).
Proof. split; [intros a b; apply (le_total le)|intros a b c; apply (le_trans le)]. Qed.

(** ** [dedup_by]: drops an element that matches the one kept before it *)

Section Dedup.
Context {A : Type} (same : A -> A -> bool).

Fixpoint dedup_from (kept : A) (l : list A) : list A :=
  match l with
  | [] => []
  | x :: l' => if same x kept then dedup_from kept l' else x :: dedup_from x l'
  end.

Definition dedup_by (l : list A) : list A :=
  match l with
  | [] => []
  | x :: l' => x :: dedup_from x l'
  end.

Lemma dedup_from_sublist x l : dedup_from x l `sublist_of` l.
Proof.
  revert x. induction l as [|y l IH]; intros x; simpl; [constructor|].
  destruct (same y x); [by constructor|by constructor].
Qed.

Lemma dedup_by_sublist l : dedup_by l `sublist_of` l.
Proof. destruct l; simpl; constructor. apply dedup_from_sublist. Qed.

(** A list without two elements of one key is left as it is. *)
Lemma dedup_from_id k l :
  (forall x y, x ∈ k :: l -> y ∈ k :: l -> same x y = true -> x = y) ->
  NoDup (k :: l) -> dedup_from k l = l.
Proof.
  revert k. induction l as [|x l IH]; [done|]. intros k Hs Hnd. simpl.
  apply NoDup_cons in Hnd as [Hk Hnd].
  destruct (same x k) eqn:E; [apply Hs in E; set_solver|]. f_equal. apply IH; [set_solver|done].
Qed.

Lemma dedup_by_id l :
  (forall x y, x ∈ l -> y ∈ l -> same x y = true -> x = y) -> NoDup l -> dedup_by l = l.
Proof. destruct l; simpl; intros; [done|]. by rewrite dedup_from_id. Qed.

End Dedup.

(** Of a sorted list, [dedup_by] leaves one element of each class. *)
Lemma dedup_from_strict {A} (le same : A -> A -> bool) k l :
  (forall a b c, le a b = true -> le b c = true -> same c a = true -> same b a = true) ->
  StronglySorted (fun a b => le a b = true) (k :: l) ->
  StronglySorted (fun a b => le a b = true /\ same b a = false) (k :: dedup_from same k l).
Proof.
  intros Hs. revert k. induction l as [|x l IH]; intros k Hk; simpl; [repeat constructor|].
  apply StronglySorted_inv in Hk as [Hx Hk]. pose proof (StronglySorted_inv Hx) as [Hl Hxl].
  apply Forall_cons in Hk as [Hkx Hkl].
  destruct (same x k) eqn:E; [apply IH; by constructor|].
  specialize (IH x Hx). constructor; [done|]. constructor; [done|].
  rewrite Forall_forall in *. intros y Hy.
  assert (Hin : y ∈ l) by (eapply sublist_subseteq; [apply dedup_from_sublist|exact Hy]).
  split; [auto|]. destruct (same y k) eqn:Ey; [|done]. rewrite (Hs k x y) in E; auto.
Qed.

Lemma dedup_by_strict {A} (le same : A -> A -> bool) l :
  (forall a b c, le a b = true -> le b c = true -> same c a = true -> same b a = true) ->
  StronglySorted (fun a b => le a b = true) l ->
  StronglySorted (fun a b => le a b = true /\ same b a = false) (dedup_by same l).
Proof. destruct l; intros; [constructor|by apply dedup_from_strict]. Qed.

Lemma StronglySorted_key {A B} (f : A -> B) (R : relation B) l :
  StronglySorted (fun a b => R (f a) (f b)) l -> StronglySorted R (f <$> l).
Proof.
  induction 1 as [|x l _ IH Hx]; [constructor|]. rewrite fmap_cons. constructor; [done|].
  by apply Forall_fmap.
Qed.

Lemma StronglySorted_sublist {A} (R : relation A) (l k : list A) :
  l `sublist_of` k -> StronglySorted R k -> StronglySorted R l.
Proof.
  induction 1 as [|x l k Hl IH|x l k Hl IH]; intros Hs; [done|..];
    apply StronglySorted_inv in Hs as [Hs Hx]; [|auto].
  constructor; [auto|]. rewrite Forall_forall in *. intros y Hy. apply Hx.
  by eapply sublist_subseteq.
Qed.

Lemma filter_none {A} (P : A -> Prop) `{!forall x, Decision (P x)} (l : list A) :
  (forall x, x ∈ l -> ~ P x) -> filter P l = [].
Proof.
  induction l as [|x l IH]; intros Hl; [done|]. rewrite filter_cons, decide_False by (apply Hl; left).
  apply IH. intros y Hy. apply Hl. by right.
Qed.

Lemma filter_all {A} (P : A -> Prop) `{!forall x, Decision (P x)} (l : list A) :
  (forall x, x ∈ l -> P x) -> filter P l = l.
Proof.
  induction l as [|x l IH]; intros Hl; [done|]. rewrite filter_cons, decide_True by (apply Hl; left).
  f_equal. apply IH. intros y Hy. apply Hl. by right.
Qed.

Lemma filter_fmap_comm {A B} (f : A -> B) (P : B -> Prop) `{!forall x, Decision (P x)} (l : list A) :
  filter P (f <$> l) = f <$> filter (fun x => P (f x)) l.
Proof.
  induction l as [|x l IH]; [done|]. rewrite fmap_cons, !filter_cons. repeat case_decide; try done.
  by rewrite fmap_cons, IH.
Qed.

Lemma filter_ext_in {A} (P Q : A -> Prop) `{!forall x, Decision (P x)} `{!forall x, Decision (Q x)} (l : list A) :
  (forall x, x ∈ l -> P x <-> Q x) -> filter P l = filter Q l.
Proof.
  induction l as [|x l IH]; intros Hl; [done|]. rewrite !filter_cons, IH by (intros; apply Hl; by right).
  assert (Hx : P x <-> Q x) by (apply Hl; by left). repeat case_decide; tauto.
Qed.

Lemma NoDup_omap {A B} (f : A -> option B) (l : list A) :
  NoDup l -> (forall x y b, x ∈ l -> y ∈ l -> f x = Some b -> f y = Some b -> x = y) -> NoDup (omap f l).
Proof.
  induction 1 as [|x l Hx Hl IH]; intros Hf; simpl; [constructor|].
  assert (IH' : NoDup (omap f l)) by (apply IH; intros y z b Hy Hz; apply Hf; by right).
  destruct (f x) as [b|] eqn:E; [|done]. constructor; [|done].
  rewrite list_elem_of_omap. intros (y & Hy & Hb). destruct Hx.
  rewrite (Hf x y b); [done|by left|by right|done|done].
Qed.

Lemma StronglySorted_impl {A} (R R' : relation A) (l : list A) :
  (forall a b, R a b -> R' a b) -> StronglySorted R l -> StronglySorted R' l.
Proof. intros Hi. induction 1; constructor; [done|]. eapply Forall_impl; eauto. Qed.

(** Elements told apart by a key. *)
Lemma NoDup_key_inj {A B} (f : A -> B) (l : list A) a b :
  NoDup (f <$> l) -> a ∈ l -> b ∈ l -> f a = f b -> a = b.
Proof.
  intros Hn [i Hi]%list_elem_of_lookup [j Hj]%list_elem_of_lookup E.
  assert (i = j); [|congruence]. apply (NoDup_lookup _ i j (f a) Hn); rewrite list_lookup_fmap.
  - by rewrite Hi.
  - by rewrite Hj, E.
Qed.

Lemma sorted_key_strictly {A} (f : A -> Z) (l : list A) :
  NoDup (f <$> l) -> StronglySorted (fun a b => f a <= f b)%Z l -> StronglySorted (fun a b => f a < f b)%Z l.
Proof.
  intros Hd Hs. induction Hs as [|x l Hl IH Hx]; [constructor|]. cbn in Hd. apply NoDup_cons in Hd as [Hx' Hd].
  constructor; [by apply IH|]. apply Forall_forall. intros y Hy.
  apply (proj1 (Forall_forall _ _) Hx) in Hy as Hle.
  assert (f x <> f y) by (intros E; apply Hx'; rewrite E; by apply list_elem_of_fmap_2). lia.
Qed.

(** ** [partition_point]: the binary search of the standard library

    [while size > 1]: half of the rest is dropped each time round, so as many rounds
    as there are elements are enough. *)

Section PartitionPoint.
Context {A : Type} (p : A -> bool).

Definition at_ (l : list A) (i : nat) : bool :=
  match l !! i with Some x => p x | None => false end.

Fixpoint bs_loop (fuel : nat) (l : list A) (base size : nat) : nat :=
  match fuel with
  | O => base
  | S fuel =>
      if (size <=? 1)%nat then base
      else
        let half := Nat.div2 size in
        let mid := (base + half)%nat in
        bs_loop fuel l (if at_ l mid then mid else base) (size - half)
  end.

Definition partition_point (l : list A) : nat :=
  match l with
  | [] => 0
  | _ => let base := bs_loop (length l) l 0 (length l) in
         (base + if at_ l base then 1 else 0)%nat
  end.

(** The first [n] elements satisfy [p] and no other does. *)
Definition partitioned (l : list A) (n : nat) : Prop :=
  (n <= length l)%nat /\ forall i, at_ l i = true <-> (i < n)%nat.

Lemma bs_loop_spec fuel l n base size :
  partitioned l n ->
  (size <= fuel)%nat -> (1 <= size)%nat ->
  (base <= n <= base + size)%nat -> (base < n \/ base = 0)%nat ->
  let b := bs_loop fuel l base size in (b <= n <= b + 1)%nat /\ (b < n \/ b = 0)%nat.
Proof.
  intros Hp. revert base size. induction fuel as [|fuel IH]; intros base size Hf Hs Hb H0; simpl; [lia|].
  destruct (Nat.leb_spec size 1); [lia|].
  assert (Hd : (2 * Nat.div2 size <= size <= 2 * Nat.div2 size + 1)%nat).
  { rewrite Nat.div2_div. pose proof (Nat.div_mod_eq size 2). pose proof (Nat.mod_upper_bound size 2). lia. }
  destruct (at_ l (base + Nat.div2 size)) eqn:E.
  - apply (proj1 (proj2 Hp _)) in E. apply IH; lia.
  - assert (~ (base + Nat.div2 size < n)%nat) by (rewrite <- (proj2 Hp); congruence). apply IH; lia.
Qed.

Lemma partition_point_spec l n : partitioned l n -> partition_point l = n.
Proof.
  intros Hp. unfold partition_point. destruct l as [|x l]; [destruct Hp as [Hn _]; simpl in *; lia|].
  set (k := x :: l) in *.
  destruct (bs_loop_spec (length k) k n 0 (length k)) as [Hb H0]; try done; try lia.
  { unfold k. simpl. lia. }
  { split; [lia|]. by destruct Hp. }
  set (b := bs_loop _ _ _ _) in *. destruct (at_ k b) eqn:E.
  - apply (proj2 Hp) in E. lia.
  - assert (~ (b < n)%nat) by (rewrite <- (proj2 Hp); congruence). lia.
Qed.

(** A list whose elements that satisfy [p] come first is partitioned at their number. *)
Lemma partitioned_filter l :
  StronglySorted (fun a b => p b = true -> p a = true) l ->
  partitioned l (length (filter (fun x => p x = true) l)).
Proof.
  induction 1 as [|x l Hl IH Hx].
  - split; [done|]. intros i. unfold at_. rewrite lookup_nil. simpl. split; [done|lia].
  - destruct IH as [Hn Hi]. rewrite filter_cons. case_decide as E; cbn [length].
    + split; [simpl; lia|]. intros [|i]; unfold at_ in *; cbn [lookup list_lookup]; [split; [lia|done]|].
      rewrite Hi. lia.
    + assert (Hz : filter (fun x => p x = true) l = []).
      { destruct (filter (fun x => p x = true) l) as [|y l'] eqn:Ef; [done|].
        assert (Hy : y ∈ filter (fun x => p x = true) l) by (rewrite Ef; left).
        apply list_elem_of_filter in Hy as [Hy Hin]. rewrite Forall_forall in Hx. naive_solver. }
      rewrite Hz in *. split; [simpl; lia|].
      intros [|i]; unfold at_ in *; cbn [lookup list_lookup]; [split; [done|simpl; lia]|].
      rewrite Hi. simpl. lia.
Qed.

Lemma partition_point_filter l :
  StronglySorted (fun a b => p b = true -> p a = true) l ->
  partition_point l = length (filter (fun x => p x = true) l).
Proof. intros. by apply partition_point_spec, partitioned_filter. Qed.

End PartitionPoint.

(** ** Keyset pages

    A list in a strict order, read page after page: a page holds what comes after the last
    element of the one before. *)

Section Keyset.
Context {A : Type} (lt : A -> A -> bool).

Definition beyond (cursor : option A) (l : list A) : list A :=
  match cursor with Some x => filter (fun y => lt x y = true) l | None => l end.

(** The page, and the element to go on from when there is more. *)
Definition keyset_page (l : list A) (cursor : option A) (limit : nat) : list A * option A :=
  let rest := beyond cursor l in
  (take limit rest, if Nat.ltb limit (length rest) then last (take limit rest) else None).

Fixpoint keyset_walk (fuel : nat) (l : list A) (cursor : option A) (limit : nat) : option (list A) :=
  match fuel with
  | O => None
  | S fuel =>
      match keyset_page l cursor limit with
      | (p, Some x) => app p <$> keyset_walk fuel l (Some x) limit
      | (p, None) => Some p
      end
  end.

Lemma beyond_split l1 x l2 :
  (forall a b, lt a b = true -> lt b a = false) ->
  StronglySorted (fun a b => lt a b = true) (l1 ++ x :: l2) -> beyond (Some x) (l1 ++ x :: l2) = l2.
Proof.
  intros Ha Hs. simpl. rewrite filter_app, filter_cons.
  apply StronglySorted_app in Hs as (H12 & H1 & H2). apply StronglySorted_inv in H2 as [_ H2].
  rewrite filter_none; [|intros y Hy; rewrite (Ha y x); [done|apply H12; [done|by left]]].
  rewrite decide_False; [|intros E; pose proof (Ha x x E); congruence]. simpl.
  apply filter_all. by rewrite Forall_forall in H2.
Qed.

Lemma keyset_walk_rest l limit fuel cursor seen :
  (forall a b, lt a b = true -> lt b a = false) ->
  StronglySorted (fun a b => lt a b = true) l -> (0 < limit)%nat ->
  l = seen ++ beyond cursor l -> (length (beyond cursor l) < fuel)%nat ->
  keyset_walk fuel l cursor limit = Some (beyond cursor l).
Proof.
  intros Ha Hs Hl. revert cursor seen. induction fuel as [|fuel IH]; intros cursor seen Hd Hf; [lia|].
  cbn [keyset_walk]. unfold keyset_page. set (r := beyond cursor l) in *.
  destruct (Nat.ltb_spec limit (length r)) as [Hlt|Hge]; [|by rewrite take_ge by lia].
  destruct (take limit r) as [|x p] eqn:Et using rev_ind.
  { apply (f_equal length) in Et. rewrite length_take in Et. simpl in Et. lia. }
  rewrite last_snoc.
  assert (Htd : r = (p ++ [x]) ++ drop limit r) by (rewrite <- Et; by rewrite take_drop).
  assert (Hside : l = (seen ++ p) ++ x :: drop limit r).
  { rewrite Hd, Htd at 1. by rewrite <- !app_assoc. }
  assert (Hr : beyond (Some x) l = drop limit r).
  { rewrite Hside in Hs |- * at 1. by apply beyond_split. }
  rewrite (IH (Some x) (seen ++ p ++ [x])).
  - rewrite Hr. simpl. f_equal. by symmetry.
  - rewrite Hr. rewrite Hside at 1. by rewrite <- !app_assoc.
  - rewrite Hr. rewrite Htd in Hf. rewrite !length_app in Hf. simpl in Hf. lia.
Qed.

Lemma keyset_walk_all l limit :
  (forall a b, lt a b = true -> lt b a = false) ->
  StronglySorted (fun a b => lt a b = true) l -> (0 < limit)%nat ->
  keyset_walk (S (length l)) l None limit = Some l.
Proof. intros. by apply (keyset_walk_rest l limit _ None []); try (simpl; lia). Qed.

End Keyset.
