(* ===== verification/Database.v ===== *)
(** * Statements of a database

    The repositories behind Postgres run one statement (or one transaction) at a
    time, and each may fail. A session is the rows and the number of the statement;
    a schedule says for every statement whether it works, fails before it took
    effect or fails after it did (the reply was lost). Rows of a table are a list
    where the schema has no usable key, a finite map otherwise. *)

From S2P Require Import Prelude.
From stdpp Require Import base gmap list strings.
From Stdlib Require Import Lia ZArith.

Inductive Fault := Works | FailsBefore | FailsAfter.

#[export] Instance Fault_eq_dec : EqDecision Fault.
Proof. solve_decision. Defined.

Definition schedule : Type := nat -> Fault.

(** Nothing fails. *)
Definition calm : schedule := fun _ => Works.

Section Session.
Context {S : Type}.

Definition session : Type := nat * S.
Definition db (A : Type) : Type := stE session A.

(** One statement; [err] is the error of the driver. *)
Definition exec {A} (fault : schedule) (err : FlareError) (eff : S -> result A * S) : db A :=
  fun '(n, s) =>
    match fault n with
    | Works => let '(r, s') := eff s in (r, (Datatypes.S n, s'))
    | FailsBefore => (Err err, (Datatypes.S n, s))
    | FailsAfter => (Err err, (Datatypes.S n, (eff s).2))
    end.

(** A statement that only changes rows. *)
Definition write (fault : schedule) (err : FlareError) (f : S -> S) : db unit :=
  exec fault err (fun s => (Ok (), f s)).

(** A statement that only reads. *)
Definition query {A} (fault : schedule) (err : FlareError) (f : S -> A) : db A :=
  exec fault err (fun s => (Ok (f s), s)).

(** [.map_err(..)] *)
Definition map_err {A} (f : FlareError -> FlareError) (m : db A) : db A :=
  fun s => match m s with (Ok a, s') => (Ok a, s') | (Err e, s') => (Err (f e), s') end.

(** [for x in l { .. }] with [?] in the body. *)
Fixpoint for_each {X} (body : X -> db unit) (l : list X) : db unit :=
  match l with
  | [] => mret ()
  | x :: l' => _ ← body x; for_each body l'
  end.

(** [if let Err(err) = m { log }] *)
Definition log_error {A} (m : db A) : db unit :=
  fun s => (Ok (), (m s).2).

(** ** What every statement respects *)

Definition keeps (R : relation S) {A} (m : db A) : Prop :=
  forall n s, R s (m (n, s)).2.2.

Section Keeps.
Context (R : relation S) `{!PreOrder R}.

Lemma keeps_ret {A} (a : A) : keeps R (mret a).
Proof. intros n s. simpl. reflexivity. Qed.

Lemma keeps_lift {A} (r : result A) : keeps R (lift_r r).
Proof. intros n s. simpl. reflexivity. Qed.

Lemma keeps_bind {A B} (m : db A) (f : A -> db B) :
  keeps R m -> (forall a, keeps R (f a)) -> keeps R (x ← m; f x).
Proof.
  intros Hm Hf n s. unfold mbind, stE_bind. specialize (Hm n s).
  destruct (m (n, s)) as [[a|e] [n1 s1]]; simpl in *; [|done].
  etrans; [exact Hm|apply Hf].
Qed.

Lemma keeps_exec {A} fault err (eff : S -> result A * S) :
  (forall s, R s (eff s).2) -> keeps R (exec fault err eff).
Proof.
  intros He n s. unfold exec. specialize (He s).
  destruct (fault n); [destruct (eff s)|..]; simpl in *; [done|reflexivity|done].
Qed.

Lemma keeps_write fault err (f : S -> S) : (forall s, R s (f s)) -> keeps R (write fault err f).
Proof. intros. by apply keeps_exec. Qed.

Lemma keeps_query {A} fault err (f : S -> A) : keeps R (query fault err f).
Proof. apply keeps_exec. intros s. simpl. reflexivity. Qed.

Lemma keeps_map_err {A} f (m : db A) : keeps R m -> keeps R (map_err f m).
Proof.
  intros Hm n s. unfold map_err. specialize (Hm n s). by destruct (m (n, s)) as [[a|e] [n1 s1]].
Qed.

Lemma keeps_on_result {A B} (m : db A) (f : A -> db B) (g : FlareError -> db B) :
  keeps R m -> (forall a, keeps R (f a)) -> (forall e, keeps R (g e)) -> keeps R (on_result m f g).
Proof.
  intros Hm Hf Hg n s. unfold on_result. specialize (Hm n s).
  destruct (m (n, s)) as [[a|e] [n1 s1]]; simpl in *; (etrans; [exact Hm|]); [apply Hf|apply Hg].
Qed.

Lemma keeps_log_error {A} (m : db A) : keeps R m -> keeps R (log_error m).
Proof. intros Hm n s. apply Hm. Qed.

Lemma keeps_for_each {X} (body : X -> db unit) l :
  (forall x, keeps R (body x)) -> keeps R (for_each body l).
Proof.
  intros Hb. induction l as [|x l IH]; [apply keeps_ret|]. by apply keeps_bind.
Qed.

End Keeps.

(** ** Calm runs *)

Lemma exec_calm {A} err (eff : S -> result A * S) n s :
  exec calm err eff (n, s) = ((eff s).1, (Datatypes.S n, (eff s).2)).
Proof. unfold exec, calm. by destruct (eff s). Qed.

(** ** Methods that may be run again

    A method whose effect is [G] up to the equivalence [E], and which may be cut short
    anywhere: whatever a failed run left behind, the effect of another run from there is
    the effect of one run. *)

Section Repeats.
Context (E : relation S) `{!Equivalence E}.

Record repeats (m : schedule -> db unit) (G : S -> S) : Prop := {
  rep_run fault n s :
    match m fault (n, s) with
    | (Ok _, (_, s')) => E s' (G s)
    | (Err _, (_, s')) => E (G s') (G s)
    end;
  rep_calm n s : exists n' s', m calm (n, s) = (Ok (), (n', s'));
  rep_proper : Proper (E ==> E) G;
  rep_idem s : E (G (G s)) (G s);
}.

Definition commute (F G : S -> S) : Prop := forall s, E (F (G s)) (G (F s)).

Lemma repeats_ret : repeats (fun _ => mret ()) (fun s => s).
Proof. split; [intros; simpl; reflexivity|intros; by eexists _, _|by intros ??|reflexivity]. Qed.

Lemma repeats_write err (f G : S -> S) :
  (forall s, E (f s) (G s)) -> Proper (E ==> E) G -> (forall s, E (G (G s)) (G s)) ->
  repeats (fun fault => write fault err f) G.
Proof.
  intros Hf HG Hi. split; [|by intros; eexists _, _; apply exec_calm|done|done].
  intros fault n s. unfold write, exec. destruct (fault n); simpl; [done|reflexivity|].
  rewrite (HG _ _ (Hf s)). apply Hi.
Qed.

Lemma repeats_map_err g m G : repeats m G -> repeats (fun fault => map_err g (m fault)) G.
Proof.
  intros [Hr Hc Hp Hi]. split; [|..|done|done].
  - intros fault n s. specialize (Hr fault n s). unfold map_err. by destruct (m fault (n, s)) as [[] []].
  - intros n s. destruct (Hc n s) as (n' & s' & H). exists n', s'. unfold map_err. by rewrite H.
Qed.

Lemma repeats_seq m1 m2 G1 G2 :
  repeats m1 G1 -> repeats m2 G2 -> commute G1 G2 ->
  repeats (fun fault => _ ← m1 fault; m2 fault) (fun s => G2 (G1 s)).
Proof.
  intros [Hr1 Hc1 Hp1 Hi1] [Hr2 Hc2 Hp2 Hi2] Hcm. split.
  - intros fault n s. unfold mbind, stE_bind. specialize (Hr1 fault n s).
    destruct (m1 fault (n, s)) as [[[]|e] [n1 s1]].
    + specialize (Hr2 fault n1 s1). destruct (m2 fault (n1, s1)) as [[[]|e] [n2 s2]].
      * by rewrite Hr2, Hr1.
      * rewrite <- (Hcm s2). rewrite Hr2. rewrite (Hp2 _ _ Hr1). rewrite (Hcm (G1 s)).
        by apply Hp2.
    + by apply Hp2.
  - intros n s. destruct (Hc1 n s) as (n1 & s1 & H1). destruct (Hc2 n1 s1) as (n2 & s2 & H2).
    exists n2, s2. unfold mbind, stE_bind. by rewrite H1.
  - intros a b Hab. by apply Hp2, Hp1.
  - intros s. rewrite <- (Hcm (G2 (G1 s))). rewrite (Hp1 _ _ (Hi2 _)). rewrite (Hcm (G1 s)).
    by apply Hp2.
Qed.

Lemma repeats_ext m m' G : (forall fault s, m fault s = m' fault s) -> repeats m G -> repeats m' G.
Proof.
  intros He [Hr Hc Hp Hi]. split; [|..|done|done].
  - intros fault n s. rewrite <- He. apply Hr.
  - intros n s. destruct (Hc n s) as (n' & s' & H). exists n', s'. by rewrite <- He.
Qed.

Lemma repeats_each {X} (body : schedule -> X -> db unit) (G : X -> S -> S) (l : list X) :
  (forall x, repeats (fun fault => body fault x) (G x)) ->
  (forall x y, commute (G x) (G y)) ->
  repeats (fun fault => for_each (body fault) l) (fun s => foldl (fun s x => G x s) s l).
Proof.
  intros Hb Hc. assert (Hp : forall x, Proper (E ==> E) (G x)) by (intros x; apply (rep_proper _ _ (Hb x))).
  induction l as [|x l IH]; [apply repeats_ret|].
  apply (repeats_seq (fun fault => body fault x) (fun fault => for_each (body fault) l) (G x)
           (fun s => foldl (fun s x => G x s) s l)); [apply Hb|done|].
  clear IH. intros s. revert s. induction l as [|y l IH]; intros s; simpl; [reflexivity|].
  rewrite IH.
  assert (Hf : Proper (E ==> E) (fun s => foldl (fun s x => G x s) s l)).
  { clear -Hp. induction l as [|z l IH]; intros a b Hab; simpl; [done|]. by apply IH, Hp. }
  apply Hf, Hc.
Qed.

End Repeats.

End Session.

Arguments session : clear implicits.
Arguments db : clear implicits.

Create HintDb db.
#[export] Hint Resolve keeps_ret keeps_lift keeps_exec keeps_write keeps_query keeps_log_error : db.

(** One step of a proof that a method keeps a relation. *)
Ltac keep_step :=
  match goal with
  | |- keeps _ (mret _) => apply keeps_ret; exact _
  | |- keeps _ (lift_r _) => apply keeps_lift; exact _
  | |- keeps _ (mbind _ _) => apply keeps_bind; [exact _| |intros ?]
  | |- keeps _ (map_err _ _) => apply keeps_map_err; try exact _
  | |- keeps _ (on_result _ _ _) => apply keeps_on_result; [exact _| |intros ?|intros ?]
  | |- keeps _ (log_error _) => apply keeps_log_error; try exact _
  | |- keeps _ (for_each _ _) => apply keeps_for_each; [exact _|intros ?]
  | |- keeps _ (query _ _ _) => apply keeps_query; exact _
  | |- keeps _ (write _ _ _) => apply keeps_write; [exact _|intros ?]
  | |- keeps _ (exec _ _ _) => apply keeps_exec; [exact _|intros ?]
  | |- keeps _ (match ?x with _ => _ end) => destruct x
  end.

(** ** Tables *)

(** [UPDATE .. SET f WHERE p] on a table without a key. *)
Definition update_where {A} (p : A -> bool) (f : A -> A) (l : list A) : list A :=
  (fun r => if p r then f r else r) <$> l.

(** [rows_affected()] *)
Definition affected {A} (p : A -> bool) (l : list A) : nat := length (filter (fun r => p r = true) l).

Lemma update_where_none {A} (p : A -> bool) (f : A -> A) l :
  affected p l = 0%nat -> update_where p f l = l.
Proof.
  unfold affected, update_where. induction l as [|r l IH]; [done|].
  rewrite filter_cons, fmap_cons. case_decide as E; [done|]. intros H.
  rewrite IH by done. apply not_true_is_false in E. by rewrite E.
Qed.

(** An update that does not change what it selects by may be made twice. *)
Lemma update_where_idemp {A} (p : A -> bool) (f : A -> A) l :
  (forall r, p r = true -> f (f r) = f r) ->
  update_where p f (update_where p f l) = update_where p f l.
Proof.
  intros Hf. unfold update_where. rewrite <- list_fmap_compose. apply list_fmap_ext.
  intros i r _. simpl. destruct (p r) eqn:E; [|by rewrite E]. destruct (p (f r)); [auto|done].
Qed.

(** [INSERT .. ON CONFLICT DO NOTHING] *)
Definition insert_new `{Countable K} {A} (k : K) (a : A) (m : gmap K A) : gmap K A :=
  match m !! k with Some _ => m | None => <[k := a]> m end.

Lemma insert_new_idemp `{Countable K} {A} (k : K) (a b : A) (m : gmap K A) :
  insert_new k b (insert_new k a m) = insert_new k a m.
Proof.
  unfold insert_new at 1. unfold insert_new. destruct (m !! k) eqn:E; [by rewrite E|].
  by rewrite lookup_insert_eq.
Qed.

Lemma lookup_insert_new `{Countable K} {A} (k : K) (a : A) (m : gmap K A) j :
  insert_new k a m !! j = if decide (j = k) then Some (default a (m !! k)) else m !! j.
Proof.
  unfold insert_new. destruct (m !! k) eqn:E; case_decide; subst; simpl; try done.
  - by rewrite lookup_insert_eq.
  - by rewrite lookup_insert_ne.
Qed.

Lemma insert_new_subseteq `{Countable K} {A} (k : K) (a : A) (m : gmap K A) : m ⊆ insert_new k a m.
Proof.
  unfold insert_new. destruct (m !! k) eqn:E; [done|]. by apply insert_subseteq.
Qed.

Lemma alter_idemp `{Countable K} {A} (f : A -> A) (k : K) (m : gmap K A) :
  (forall a, f (f a) = f a) -> alter f k (alter f k m) = alter f k m.
Proof.
  intros Hf. apply map_eq. intros i. destruct (decide (k = i)) as [<-|].
  - rewrite !lookup_alter_eq. destruct (m !! k); simpl; [by rewrite Hf|done].
  - by rewrite !lookup_alter_ne.
Qed.

Lemma alter_commute `{Countable K} {A} (f g : A -> A) (k j : K) (m : gmap K A) :
  (forall a, f (g a) = g (f a)) -> alter f k (alter g j m) = alter g j (alter f k m).
Proof.
  intros Hf. apply map_eq. intros i.
  destruct (decide (k = i)) as [->|]; destruct (decide (j = i)) as [->|];
    repeat first [rewrite lookup_alter_eq | rewrite lookup_alter_ne by done]; try done.
  destruct (m !! i); simpl; [by rewrite Hf|done].
Qed.
