(* ===== verification/SeqAllocator.v ===== *)
(** * Conversation sequence numbers (crates/flare-im-seq)

    [SequenceRange] and [SequenceAllocator] of
    crates/flare-im-seq/src/sequence_allocator.rs: one INCR per message, the
    floor-guarded allocation of the Lua script, and the explicit batch. The
    Redis server is the interface of [Redis]; the Lua script's arithmetic is
    done on doubles, as in Lua. *)

From S2P Require Import Prelude Redis.
From stdpp Require Import base gmap strings list sorting.
From Stdlib Require Import Lia ZArith Ascii.

Local Open Scope Z_scope.

(** ** [SequenceRange] *)

Record SequenceRange := mkRange { range_next : Z; range_end : Z }.

Definition range_new (start end_ : Z) : SequenceRange := mkRange start end_.

(** [take_next]: the next number, or none when the segment is used up. *)
Definition take_next (s : SequenceRange) : option Z * SequenceRange :=
  if decide (range_next s > range_end s) then (None, s)
  else (Some (range_next s), mkRange (u64_add (range_next s) 1) (range_end s)).

Definition is_exhausted (s : SequenceRange) : bool := bool_decide (range_next s > range_end s).

Definition remaining (s : SequenceRange) : Z :=
  if is_exhausted s then 0 else range_end s - range_next s + 1.

(** [(range.next..=range.end).collect()] *)
Definition range_collect (s : SequenceRange) : list Z :=
  seqZ (range_next s) (range_end s - range_next s + 1).

(** [take_next] until it answers none, at most [n] times. *)
Fixpoint drain (n : nat) (s : SequenceRange) : list Z :=
  match n with
  | O => []
  | S n =>
      match take_next s with
      | (Some v, s') => v :: drain n s'
      | (None, _) => []
      end
  end.

(** ** [SequenceAllocator] *)

Section Allocator.
Context `{Redis R}.

(** [build_redis_key] *)
Definition build_redis_key (tenant_id conversation_id : string) : string :=
  "seq:" +:+ tenant_id +:+ ":" +:+ conversation_id.

(** [SequenceAllocator::new]: the configured batch size, at least 1. *)
Definition batch_size_of (batch_size : Z) : Z := Z.max batch_size 1.

Definition redis_failure (what : string) : FlareError := flare_err RedisError what.

(** A Redis integer reply read as [u64]. *)
Definition reply_u64 (what : string) (v : Z) : result Z :=
  if decide (0 <= v) then Ok v else Err (redis_failure what).

(** [allocate_single_seq]: the INCR pipeline. *)
Definition allocate_single_seq (r : R) (key : string) : result Z * R :=
  let what := "Failed to allocate sequence in Redis" in
  if reachable r then
    match int_incrby r key 1 with
    | Some (v, r') => (reply_u64 what v, r')
    | None => (Err (redis_failure what), r)
    end
  else (Err (redis_failure what), r).

(** [allocate_seq] *)
Definition allocate_seq (r : R) (conversation_id tenant_id : string) : result Z * R :=
  allocate_single_seq r (build_redis_key tenant_id conversation_id).

(** [seq_after_floor]: the specification the Lua script implements. *)
Definition seq_after_floor (current_high_water floor : Z) : Z :=
  u64_add (Z.max current_high_water floor) 1.

(** [FLOOR_SEQ_LUA]: [tonumber] of the stored counter and of the argument,
    both doubles; the sum is rounded again before it is stored. *)
Definition floor_seq_lua (r : R) (key : string) (floor_arg : Z) : Z * R :=
  let cur := double_of_Z (default 0 (int_get r key)) in
  let floor := double_of_Z floor_arg in
  let cur := if decide (cur < floor) then floor else cur in
  let cur := double_of_Z (cur + 1) in
  (cur, int_set r key cur).

(** [allocate_seq_with_floor] *)
Definition allocate_seq_with_floor (r : R) (conversation_id tenant_id : string) (floor : Z)
    : result Z * R :=
  if decide (floor = 0) then allocate_seq r conversation_id tenant_id
  else
    let key := build_redis_key tenant_id conversation_id in
    let what := "Failed to allocate floor-guarded sequence in Redis" in
    if reachable r then
      let '(cur, r') := floor_seq_lua r key floor in (reply_u64 what cur, r')
    else (Err (redis_failure what), r).

(** [allocate_batch_range] *)
Definition allocate_batch_range (r : R) (key : string) (batch_size : Z)
    : result SequenceRange * R :=
  let what := "Failed to allocate batch sequence in Redis" in
  if reachable r then
    match int_incrby r key batch_size with
    | Some (v, r') =>
        (end_seq ← reply_u64 what v;
         let start_seq := sat_sub end_seq batch_size + 1 in
         Ok (range_new start_seq end_seq), r')
    | None => (Err (redis_failure what), r)
    end
  else (Err (redis_failure what), r).

(** [allocate_batch] *)
Definition allocate_batch (r : R) (batch_size : Z) (conversation_id tenant_id : string)
    : result (list Z) * R :=
  let '(range, r') :=
    allocate_batch_range r (build_redis_key tenant_id conversation_id) batch_size in
  (range ← range; Ok (range_collect range), r').

End Allocator.

(** ** Segment lemmas *)

Lemma take_next_some s v s' :
  take_next s = (Some v, s') ->
  v = range_next s /\ range_next s <= range_end s /\ range_end s' = range_end s
  /\ range_next s' = u64_add (range_next s) 1.
Proof. unfold take_next. case_decide; intros; simplify_eq/=. lia. Qed.

Lemma take_next_none s s' :
  take_next s = (None, s') -> range_end s < range_next s /\ s' = s.
Proof. unfold take_next. case_decide; intros; simplify_eq/=. split; [lia|done]. Qed.

Lemma range_collect_lookup_bounds s v :
  v ∈ range_collect s <-> range_next s <= v <= range_end s.
Proof. unfold range_collect. rewrite elem_of_seqZ. lia. Qed.

Lemma seqZ_ssorted m n : StronglySorted Z.lt (seqZ m n).
Proof.
  destruct (decide (n <= 0)) as [Hn|Hn].
  { rewrite seqZ_nil by lia. constructor. }
  rewrite <- (Z2Nat.id n) by lia. generalize (Z.to_nat n) as k; clear. intros k.
  revert m. induction k as [|k IH]; intros m.
  - rewrite seqZ_nil by lia. constructor.
  - rewrite seqZ_cons by lia. constructor.
    + replace (Z.pred (Z.of_nat (S k))) with (Z.of_nat k) by lia. apply IH.
    + apply Forall_forall. intros x Hx. apply elem_of_seqZ in Hx. lia.
Qed.

(** Draining a segment one number at a time gives exactly the numbers the
    batch interface returns for it. *)
Lemma drain_collect n s :
  range_end s < u64_max -> remaining s <= Z.of_nat n -> drain n s = range_collect s.
Proof.
  revert s. induction n as [|n IH]; intros s Hend Hrem; unfold remaining, is_exhausted in Hrem.
  - simpl. unfold range_collect. rewrite seqZ_nil; [done|].
    case_bool_decide; lia.
  - simpl. unfold take_next. case_decide as Hgt.
    + unfold range_collect. by rewrite seqZ_nil by lia.
    + rewrite bool_decide_eq_false_2 in Hrem by done.
      simpl. rewrite IH; simpl; [|done|].
      * unfold range_collect. simpl.
        rewrite (seqZ_cons (range_next s)) by lia.
        rewrite sat_add_small by lia. repeat f_equal; lia.
      * unfold remaining, is_exhausted. simpl. rewrite sat_add_small by lia.
        case_bool_decide; lia.
Qed.

(** ** Keys *)

Lemma build_redis_key_split t c :
  build_redis_key t c = "seq:" +:+ (t +:+ String ":"%char c).
Proof. done. Qed.

(** ** One call of the allocator and a history of calls *)

Inductive seq_op :=
  | OpSeq
  | OpFloor (floor : Z)
  | OpBatch.

Record seq_call := mkCall { call_tenant : string; call_conv : string; call_op : seq_op }.

Definition call_key (c : seq_call) : string := build_redis_key (call_tenant c) (call_conv c).

Definition call_floor (c : seq_call) : Z :=
  match call_op c with OpFloor f => f | _ => 0 end.

Definition call_cost (bs : Z) (c : seq_call) : Z :=
  match call_op c with OpBatch => bs | _ => 1 end.

Section History.
Context `{RedisLaws R}.

Definition run_call (bs : Z) (r : R) (c : seq_call) : result (list Z) * R :=
  match call_op c with
  | OpSeq => let '(o, r') := allocate_seq r (call_conv c) (call_tenant c) in
             (v ← o; Ok [v], r')
  | OpFloor f => let '(o, r') := allocate_seq_with_floor r (call_conv c) (call_tenant c) f in
                 (v ← o; Ok [v], r')
  | OpBatch => allocate_batch r bs (call_conv c) (call_tenant c)
  end.

(** The numbers a history of calls hands out for one key, in order; a call
    that fails hands out none. *)
Fixpoint handed_out (bs : Z) (r : R) (k : string) (calls : list seq_call) : list Z :=
  match calls with
  | [] => []
  | c :: calls =>
      let '(o, r') := run_call bs r c in
      (if decide (call_key c = k) then match o with Ok l => l | Err _ => [] end else [])
      ++ handed_out bs r' k calls
  end.

Fixpoint run_calls (bs : Z) (r : R) (calls : list seq_call) : R :=
  match calls with
  | [] => r
  | c :: calls => run_calls bs (run_call bs r c).2 calls
  end.

Fixpoint max_floor (k : string) (calls : list seq_call) : Z :=
  match calls with
  | [] => 0
  | c :: calls =>
      Z.max (if decide (call_key c = k) then call_floor c else 0) (max_floor k calls)
  end.

Fixpoint total_cost (bs : Z) (k : string) (calls : list seq_call) : Z :=
  match calls with
  | [] => 0
  | c :: calls =>
      (if decide (call_key c = k) then call_cost bs c else 0) + total_cost bs k calls
  end.

Lemma incrby_high_water r k n v r' :
  int_incrby r k n = Some (v, r') -> v = high_water r k + n /\ high_water r' k = v.
Proof.
  intros [-> Hg]%incrby_value. split; [done|]. unfold high_water. by rewrite Hg.
Qed.

Lemma incrby_high_water_frame r k n v r' k' :
  int_incrby r k n = Some (v, r') -> k' <> k -> high_water r' k' = high_water r k'.
Proof. intros Hi Hne. unfold high_water. by erewrite incrby_int_frame. Qed.

(** What one call promises to the history: the numbers it returns are sorted
    and lie above the old and at most at the new high water, which rises by
    at most the cost of the call; other keys are not touched. *)
Definition call_promise (bs : Z) (r : R) (c : seq_call) (o : result (list Z)) (r' : R) : Prop :=
  let k := call_key c in
  high_water r k <= high_water r' k <= Z.max (high_water r k) (call_floor c) + call_cost bs c
  /\ (forall k', k' <> k -> high_water r' k' = high_water r k')
  /\ match o with
     | Ok l => StronglySorted Z.lt l /\ forall v, v ∈ l -> high_water r k < v <= high_water r' k
     | Err _ => True
     end.

Lemma ssorted_single (v : Z) : StronglySorted Z.lt [v].
Proof. repeat constructor. Qed.

Lemma allocate_single_seq_promise bs r c o r' :
  call_floor c = 0 -> call_cost bs c = 1 -> 0 <= high_water r (call_key c) ->
  allocate_single_seq r (call_key c) = (o, r') ->
  call_promise bs r c (v ← o; Ok [v]) r'.
Proof.
  intros Hf Hc Hpos. unfold allocate_single_seq, reply_u64, call_promise. rewrite Hf, Hc.
  destruct (reachable r); [destruct (int_incrby r _ 1) as [[v r1]|] eqn:E|].
  - pose proof (incrby_high_water _ _ _ _ _ E) as [Hv Hw].
    intros; simplify_eq. rewrite Hw.
    split; [lia|]. split; [eauto using incrby_high_water_frame|].
    case_decide; simpl; [|done]. split; [apply ssorted_single|].
    intros v' ->%list_elem_of_singleton. lia.
  - intros; simplify_eq/=. split; [lia|]. split; [done|done].
  - intros; simplify_eq/=. split; [lia|]. split; [done|done].
Qed.

Lemma floor_seq_lua_exact r k f :
  0 <= high_water r k -> 0 <= f -> Z.max (high_water r k) f + 1 <= 2 ^ 53 ->
  (floor_seq_lua r k f).1 = Z.max (high_water r k) f + 1.
Proof.
  intros Hh Hf Hb. unfold floor_seq_lua. cbn [fst].
  change (default 0 (int_get r k)) with (high_water r k).
  rewrite (double_of_Z_exact (high_water r k)) by lia.
  rewrite (double_of_Z_exact f) by lia.
  case_decide; rewrite double_of_Z_exact; lia.
Qed.

Lemma floor_seq_lua_state r k f :
  (floor_seq_lua r k f).2 = int_set r k (floor_seq_lua r k f).1.
Proof. done. Qed.

Lemma high_water_set r k v : high_water (int_set r k v) k = v.
Proof. unfold high_water. by rewrite set_value. Qed.

Lemma high_water_set_frame r k v k' : k' <> k -> high_water (int_set r k v) k' = high_water r k'.
Proof. intros. unfold high_water. by rewrite set_frame. Qed.

Lemma allocate_seq_with_floor_promise bs r t cv f o r' :
  let c := mkCall t cv (OpFloor f) in
  0 <= high_water r (call_key c) -> 0 <= f ->
  Z.max (high_water r (call_key c)) f + 1 <= 2 ^ 53 ->
  allocate_seq_with_floor r cv t f = (o, r') ->
  call_promise bs r c (v ← o; Ok [v]) r'.
Proof.
  intros c Hpos Hf Hb. unfold allocate_seq_with_floor. fold (call_key c).
  case_decide as Hz.
  { subst c f. intros E. by apply allocate_single_seq_promise. }
  change (build_redis_key t cv) with (call_key c).
  destruct (reachable r); [|intros; simplify_eq/=; unfold call_promise, call_floor, call_cost; simpl; split; [lia|done]].
  pose proof (floor_seq_lua_exact r (call_key c) f Hpos Hf Hb) as Hex.
  pose proof (floor_seq_lua_state r (call_key c) f) as Hst.
  destruct (floor_seq_lua r _ f) as [v r1]. simpl in Hex, Hst. subst r1.
  intros; simplify_eq. unfold call_promise, call_floor, call_cost; simpl.
  rewrite high_water_set. split; [lia|]. split; [eauto using high_water_set_frame|].
  unfold reply_u64. rewrite decide_True by lia. simpl.
  split; [apply ssorted_single|]. intros v' ->%list_elem_of_singleton. lia.
Qed.

Lemma allocate_batch_promise bs r t cv o r' :
  let c := mkCall t cv OpBatch in
  1 <= bs -> 0 <= high_water r (call_key c) ->
  allocate_batch r bs cv t = (o, r') -> call_promise bs r c o r'.
Proof.
  intros c Hbs Hpos. unfold allocate_batch, allocate_batch_range.
  change (build_redis_key t cv) with (call_key c).
  unfold call_promise. change (call_floor c) with 0. change (call_cost bs c) with bs.
  destruct (reachable r); [|intros; simplify_eq/=; split; [lia|done]].
  destruct (int_incrby r _ bs) as [[v r1]|] eqn:E; [|intros; simplify_eq/=; split; [lia|done]].
  pose proof (incrby_high_water _ _ _ _ _ E) as [Hv Hw]. intros; simplify_eq. rewrite Hw.
  split; [lia|]. split; [eauto using incrby_high_water_frame|].
  unfold reply_u64. rewrite decide_True by lia. simpl. split; [apply seqZ_ssorted|].
  intros v' Hv'%range_collect_lookup_bounds. simpl in Hv'. unfold sat_sub in Hv'. lia.
Qed.

Lemma run_call_promise bs r c o r' :
  1 <= bs -> 0 <= high_water r (call_key c) -> 0 <= call_floor c ->
  Z.max (high_water r (call_key c)) (call_floor c) + call_cost bs c <= 2 ^ 53 ->
  run_call bs r c = (o, r') -> call_promise bs r c o r'.
Proof.
  intros Hbs Hpos Hf Hb. unfold run_call.
  destruct c as [t cv [|f|]]; cbn [call_op call_conv call_tenant].
  - destruct (allocate_seq r cv t) as [o1 r1] eqn:E. intros; simplify_eq.
    by eapply allocate_single_seq_promise.
  - destruct (allocate_seq_with_floor r cv t f) as [o1 r1] eqn:E. intros; simplify_eq.
    by eapply allocate_seq_with_floor_promise.
  - by apply allocate_batch_promise.
Qed.

(** A call on another key leaves this one's high water alone, whatever it
    costs. *)
Lemma run_call_frame bs r c k o r' :
  run_call bs r c = (o, r') -> call_key c <> k -> high_water r' k = high_water r k.
Proof.
  intros Hrun Hne. assert (k <> call_key c) as Hk by congruence.
  destruct c as [t cv op]. revert Hrun.
  unfold run_call, allocate_seq, allocate_seq_with_floor, allocate_batch,
    allocate_batch_range, allocate_seq, allocate_single_seq; simpl.
  change (build_redis_key t cv) with (call_key (mkCall t cv op)).
  destruct op as [|f|]; [| case_decide |]; destruct (reachable r); simpl;
    try (destruct (int_incrby r _ _) as [[v r1]|] eqn:E); intros; simplify_eq/=;
    eauto using incrby_high_water_frame, high_water_set_frame.
Qed.

Lemma total_cost_nonneg bs k calls : 1 <= bs -> 0 <= total_cost bs k calls.
Proof.
  intros Hbs. induction calls as [|c calls IH]; simpl; [lia|].
  unfold call_cost. destruct (call_op c); case_decide; lia.
Qed.

Lemma history_sorted bs k calls r :
  1 <= bs -> 0 <= high_water r k -> Forall (fun c => 0 <= call_floor c) calls ->
  Z.max (high_water r k) (max_floor k calls) + total_cost bs k calls <= 2 ^ 53 ->
  StronglySorted Z.lt (handed_out bs r k calls)
  /\ high_water r k <= high_water (run_calls bs r calls) k
  /\ forall v, v ∈ handed_out bs r k calls ->
     high_water r k < v <= high_water (run_calls bs r calls) k.
Proof.
  intros Hbs. revert r. induction calls as [|c calls IH]; intros r Hpos Hf Hb; simpl in *.
  { split; [constructor|]. split; [lia|]. intros v Hv. by apply elem_of_nil in Hv. }
  apply Forall_cons in Hf as [Hf Hfs].
  pose proof (total_cost_nonneg bs k calls Hbs) as Htc.
  assert (1 <= call_cost bs c) as Hcc by (unfold call_cost; destruct (call_op c); lia).
  destruct (run_call bs r c) as [o r1] eqn:E. simpl.
  destruct (decide (call_key c = k)) as [<-|Hne].
  - pose proof (run_call_promise bs r c o r1 Hbs Hpos Hf ltac:(lia) E) as (Hw & _ & Ho).
    destruct (IH r1) as (Hs & Hm & Hv); [lia|done|lia|].
    split; [|split; [lia|]].
    + destruct o as [l|e]; [|done]. destruct Ho as [Hl Hin].
      apply StronglySorted_app_2; [|done|done].
      intros x y Hx%Hin Hy%Hv. lia.
    + intros v [Hv'|Hv']%elem_of_app; [|apply Hv in Hv'; lia].
      destruct o as [l|e]; [|by apply elem_of_nil in Hv'].
      apply Ho in Hv'. lia.
  - pose proof (run_call_frame bs r c k o r1 E Hne) as Hw.
    destruct (IH r1) as (Hs & Hm & Hv); [lia|done|rewrite Hw; lia|]. rewrite Hw in *. done.
Qed.

(** ** Properties *)

(** C33. Strict order of a conversation's sequence numbers: in any history of
    single, floor-guarded and batch allocations on any keys, the numbers handed
    out for one conversation are strictly increasing, all above the high water
    Redis held at the start and at most at the one it holds at the end, so no
    number is handed out twice and none falls back. The history stays below
    [2^53], where the Lua script's doubles are exact. *)
Theorem allocations_strictly_increasing bs r k calls :
  1 <= bs -> 0 <= high_water r k -> Forall (fun c => 0 <= call_floor c) calls ->
  Z.max (high_water r k) (max_floor k calls) + total_cost bs k calls <= 2 ^ 53 ->
  StronglySorted Z.lt (handed_out bs r k calls)
  /\ NoDup (handed_out bs r k calls)
  /\ forall v, v ∈ handed_out bs r k calls ->
     high_water r k < v <= high_water (run_calls bs r calls) k.
Proof.
  intros Hbs Hpos Hf Hb.
  destruct (history_sorted bs k calls r Hbs Hpos Hf Hb) as (Hs & _ & Hv).
  split; [done|]. split; [|done].
  induction Hs as [|v l Hl IH Hall]; constructor.
  - intros Hin. rewrite Forall_forall in Hall. specialize (Hall _ Hin). lia.
  - apply IH. intros v' Hv'. apply Hv. by right.
Qed.

(** The Lua script implements its specification: for a counter and a floor
    below [2^53] the script returns and stores exactly
    [seq_after_floor(high water, floor)], which exceeds both, and changes no
    other key. *)
Theorem floor_lua_refines_seq_after_floor r k f k' :
  0 <= high_water r k -> 0 <= f -> Z.max (high_water r k) f < 2 ^ 53 ->
  (floor_seq_lua r k f).1 = seq_after_floor (high_water r k) f
  /\ high_water (floor_seq_lua r k f).2 k = seq_after_floor (high_water r k) f
  /\ Z.max (high_water r k) f < seq_after_floor (high_water r k) f
  /\ (k' <> k -> high_water (floor_seq_lua r k f).2 k' = high_water r k').
Proof.
  intros Hh Hf Hb. pose proof (floor_seq_lua_exact r k f Hh Hf ltac:(lia)) as Hex.
  assert (seq_after_floor (high_water r k) f = Z.max (high_water r k) f + 1) as Hs.
  { unfold seq_after_floor. apply sat_add_small. unfold u64_max. lia. }
  rewrite Hs, floor_seq_lua_state, high_water_set. repeat split; [lia..|].
  apply high_water_set_frame.
Qed.

(** Failure never hands out a number: when Redis is not reachable every
    allocation of the crate answers an error and the counters are untouched. *)
Theorem unreachable_redis_allocates_nothing bs r c :
  reachable r = false ->
  exists e, run_call bs r c = (Err e, r) /\ err_code e = RedisError.
Proof.
  intros Hr. destruct c as [t cv [|f|]]; unfold run_call; simpl.
  - unfold allocate_seq, allocate_single_seq. rewrite Hr. simpl. eauto.
  - unfold allocate_seq_with_floor, allocate_seq, allocate_single_seq. rewrite Hr.
    case_decide; simpl; eauto.
  - unfold allocate_batch, allocate_batch_range. rewrite Hr. simpl. eauto.
Qed.

End History.

(** Tenant and conversation isolation of the counters: tenant ids without a
    colon give different conversations different Redis keys. *)
Theorem redis_key_injective t1 c1 t2 c2 :
  Str.contains_char ":"%char t1 = false -> Str.contains_char ":"%char t2 = false ->
  build_redis_key t1 c1 = build_redis_key t2 c2 -> t1 = t2 /\ c1 = c2.
Proof.
  intros H1 H2 H. rewrite !build_redis_key_split in H.
  apply Str.append_inj_l in H. by eapply Str.join_inj.
Qed.

(** Without that restriction two conversations can share a counter. *)
Example redis_key_collision :
  build_redis_key "a" "b:c" = build_redis_key "a:b" "c".
Proof. reflexivity. Qed.

(** A batch is the segment drained number by number: [take_next] repeated
    until the segment is used up yields exactly the list [allocate_batch]
    returns, each number once and in order. *)
Theorem drain_is_batch_collect s n :
  range_end s < u64_max -> remaining s <= Z.of_nat n -> drain n s = range_collect s.
Proof. apply drain_collect. Qed.

(** Above [2^53] the floor script no longer keeps its promise: with the
    counter at [2^53 + 1] it returns [2^53], below the high water. *)
Theorem floor_lua_regresses_above_2_53 :
  let r := int_set sim_empty "k" (2 ^ 53 + 1) in
  (floor_seq_lua r "k" 1).1 = 2 ^ 53 /\ (floor_seq_lua r "k" 1).1 < high_water r "k".
Proof. vm_compute. split; reflexivity. Qed.

(** ** Witnesses *)

Definition example_calls : list seq_call :=
  [mkCall "t" "c" OpSeq; mkCall "t" "c" OpBatch; mkCall "t" "d" OpSeq;
   mkCall "t" "c" (OpFloor 76); mkCall "t" "c" OpSeq].

Lemma allocations_strictly_increasing_witness :
  handed_out 3 sim_empty "seq:t:c" example_calls = [1; 2; 3; 4; 77; 78]
  /\ StronglySorted Z.lt (handed_out 3 sim_empty "seq:t:c" example_calls).
Proof.
  split; [reflexivity|].
  refine (proj1 (allocations_strictly_increasing 3 sim_empty "seq:t:c" example_calls _ _ _ _)).
  - lia.
  - vm_compute. discriminate.
  - repeat constructor; vm_compute; discriminate.
  - vm_compute. discriminate.
Defined.

Lemma floor_lua_refines_seq_after_floor_witness :
  let r := int_set sim_empty "k" 5 in
  (floor_seq_lua r "k" 76).1 = seq_after_floor (high_water r "k") 76
  /\ seq_after_floor (high_water r "k") 76 = 77.
Proof.
  split; [|reflexivity].
  refine (proj1 (floor_lua_refines_seq_after_floor (int_set sim_empty "k" 5) "k" 76 "j" _ _ _)).
  - vm_compute. discriminate.
  - lia.
  - vm_compute. reflexivity.
Defined.

Lemma unreachable_redis_allocates_nothing_witness :
  exists e, run_call 3 (mkSim false ∅) (mkCall "t" "c" OpSeq) = (Err e, mkSim false ∅)
            /\ err_code e = RedisError.
Proof. exact (unreachable_redis_allocates_nothing 3 (mkSim false ∅) (mkCall "t" "c" OpSeq) eq_refl). Defined.

Lemma redis_key_injective_witness : "a" = "a" /\ "b:c" = "b:c".
Proof. exact (redis_key_injective "a" "b:c" "a" "b:c" eq_refl eq_refl eq_refl). Defined.

Lemma drain_is_batch_collect_witness : drain 3 (mkRange 10 12) = [10; 11; 12].
Proof.
  refine (drain_is_batch_collect (mkRange 10 12) 3 _ _).
  - vm_compute. reflexivity.
  - vm_compute. discriminate.
Defined.
