(* ===== verification/LeasedAllocator.v ===== *)
(** * Leased sequence segments (crates/flare-im-seq/src/leased_allocator.rs)

    A conversation's owner node hands out numbers from a local segment; a Redis
    lease with a fencing token keeps a second node from doing the same. The
    Lua script, the backend and [allocate] are translated here; the last part
    puts several nodes, their clocks and the Redis server together as a step
    relation and proves that the numbers of a conversation are handed out in
    strictly increasing order across all nodes. *)

From S2P Require Import Prelude Redis SeqAllocator.
From stdpp Require Import base gmap strings list sorting relations.
From Stdlib Require Import Lia ZArith Ascii.

Local Open Scope Z_scope.

Inductive LeaseOutcome :=
  | Granted (fencing_token start end_ : Z)
  | LeaseNotOwner.

Record ConvState := mkConv {
  segment : SequenceRange;
  fencing_token : Z;
  local_valid_until_ms : Z;
}.

Inductive SeqAllocation :=
  | Allocated (seq : Z)
  | NotOwner.

Record LeasedSegmentAllocator := mkLeased {
  node_id : string;
  segment_size : Z;
  lease_ttl_ms : Z;
  local_margin_ms : Z;
}.

(** [LeasedSegmentAllocator::new] *)
Definition leased_new (node : string) (seg lease_ttl local_margin : Z) : LeasedSegmentAllocator :=
  let ttl := Z.max lease_ttl 1 in
  mkLeased node (Z.max seg 1) ttl (Z.min local_margin (sat_sub ttl 1)).

(** [RedisSeqLeaseBackend::keys] *)
Definition lease_key (conv_key : string) : string := "seqlease:" +:+ conv_key.
Definition fence_key (conv_key : string) : string := "seqfence:" +:+ conv_key.
Definition seq_key (conv_key : string) : string := "seq:" +:+ conv_key.

(** The value of a lease key: [node_id .. ':' .. token]. Lua prints an integer
    below [10^14] in decimal; the token counts ownership changes. *)
Definition lease_value (node : string) (token : Z) : string :=
  node +:+ String ":"%char (Str.of_Z token).

Section Backend.
Context `{Redis R}.

(** The last lines of both branches: [INCRBY], then the four-element reply. A
    [nil] token ends the reply array after its first element. [None] is a
    script error; the commands already run keep their effect. *)
Definition refill_reply (r : R) (seqk : string) (seg : Z) (token : option Z)
    : option (list Z) * R :=
  match int_incrby r seqk seg with
  | None => (None, r)
  | Some (v, r') =>
      let endseq := double_of_Z v in
      match token with
      | Some token => (Some [1; token; double_of_Z (endseq - seg + 1); endseq], r')
      | None => (Some [1], r')
      end
  end.

(** [LEASE_REFILL_LUA], run at server time [t] *)
Definition lease_refill_lua (t : Z) (r : R) (conv_key node : string) (ttl_ms seg expected : Z)
    : option (list Z) * R :=
  match str_get t r (lease_key conv_key) with
  | Some lease =>
      match Str.split_once ":"%char lease with
      | None => (None, r)
      | Some (owner, suffix) =>
          let token := Str.to_Z suffix in
          if decide (owner <> node) then (Some [0; 0; 0; 0], r)
          else if decide (expected >= 0 /\ token <> Some expected) then (Some [0; 0; 0; 0], r)
          else refill_reply (pexpire t r (lease_key conv_key) ttl_ms) (seq_key conv_key) seg token
      end
  | None =>
      match int_incrby r (fence_key conv_key) 1 with
      | None => (None, r)
      | Some (token, r1) =>
          let token := double_of_Z token in
          let r2 := str_set_px t r1 (lease_key conv_key) (lease_value node token) ttl_ms in
          refill_reply r2 (seq_key conv_key) seg (Some token)
      end
  end.

(** [u64 as i64] *)
Definition as_i64 (z : Z) : Z := if decide (z <= i64_max) then z else z - 2 ^ 64.

(** [RedisSeqLeaseBackend::acquire_and_refill] *)
Definition acquire_and_refill (t : Z) (r : R) (conv_key node : string) (expected_token : option Z)
    (lease_ttl seg : Z) : result LeaseOutcome * R :=
  let what := flare_err RedisError "seq lease lua invoke failed" in
  if reachable r then
    let expected_arg := match expected_token with Some tok => as_i64 tok | None => -1 end in
    let '(reply, r') := lease_refill_lua t r conv_key node lease_ttl seg expected_arg in
    (match reply with
     | None => Err what
     | Some res =>
         match res with
         | first :: tok :: start :: end_ :: _ =>
             if decide (first = 1)
             then Ok (Granted (Z.max tok 0) (Z.max start 0) (Z.max end_ 0))
             else Ok LeaseNotOwner
         | _ => Ok LeaseNotOwner
         end
     end, r')
  else (Err what, r).

(** [LeasedSegmentAllocator::allocate]: [now] is the node's clock, [t] the
    server time at which the script runs. *)
Definition allocate (cfg : LeasedSegmentAllocator) (now t : Z) (state : gmap string ConvState)
    (r : R) (conv_key : string) : result SeqAllocation * gmap string ConvState * R :=
  let fast :=
    match state !! conv_key with
    | Some cs =>
        if decide (now < local_valid_until_ms cs) then
          match take_next (segment cs) with
          | (Some seq, seg') =>
              Some (seq, mkConv seg' (fencing_token cs) (local_valid_until_ms cs))
          | (None, _) => None
          end
        else None
    | None => None
    end in
  match fast with
  | Some (seq, cs') => (Ok (Allocated seq), <[conv_key := cs']> state, r)
  | None =>
      let expected_token := fencing_token <$> state !! conv_key in
      let '(outcome, r') :=
        acquire_and_refill t r conv_key (node_id cfg) expected_token
          (lease_ttl_ms cfg) (segment_size cfg) in
      match outcome with
      | Err e => (Err e, state, r')
      | Ok (Granted tok start end_) =>
          match take_next (range_new start end_) with
          | (None, _) => (Ok NotOwner, delete conv_key state, r')
          | (Some seq, seg') =>
              let valid := u64_add now (sat_sub (lease_ttl_ms cfg) (local_margin_ms cfg)) in
              (Ok (Allocated seq), <[conv_key := mkConv seg' tok valid]> state, r')
          end
      | Ok LeaseNotOwner => (Ok NotOwner, delete conv_key state, r')
      end
  end.

End Backend.

(** ** Lease values and keys *)

Lemma lease_value_split node tok :
  Str.contains_char ":"%char node = false ->
  Str.split_once ":"%char (lease_value node tok) = Some (node, Str.of_Z tok).
Proof. apply Str.split_once_app. Qed.

Lemma lease_value_inj n1 n2 k1 k2 :
  Str.contains_char ":"%char n1 = false -> Str.contains_char ":"%char n2 = false ->
  lease_value n1 k1 = lease_value n2 k2 -> n1 = n2.
Proof. intros H1 H2 H. by apply (Str.join_inj _ _ _ _ _ H1 H2) in H as [??]. Qed.

Lemma lease_seq_ne a b : lease_key a <> seq_key b.
Proof. done. Qed.
Lemma lease_fence_ne a b : lease_key a <> fence_key b.
Proof. done. Qed.
Lemma seq_fence_ne a b : seq_key a <> fence_key b.
Proof. done. Qed.
Lemma seq_key_ne a b : a <> b -> seq_key a <> seq_key b.
Proof. intros Hne H. by apply Str.append_inj_l in H. Qed.
Lemma lease_key_ne a b : a <> b -> lease_key a <> lease_key b.
Proof. intros Hne H. by apply Str.append_inj_l in H. Qed.

Create HintDb lease.
#[export] Hint Resolve lease_seq_ne lease_fence_ne seq_fence_ne seq_key_ne lease_key_ne : lease.
#[export] Hint Resolve not_eq_sym : lease.

(** ** What one run of the script does to the server *)

Section Effects.
Context `{RedisLaws R}.

Definition owner_of (lease : string) : option string := fst <$> Str.split_once ":"%char lease.

(** The lease of [conv_key] names [n] at every server time from [t] up to [T]. *)
Definition held (t T : Z) (r : R) (conv_key n : string) : Prop :=
  exists v, owner_of v = Some n
    /\ forall t', t <= t' < T -> str_get t' r (lease_key conv_key) = Some v.

Lemma held_owner t T r ck n m :
  t < T -> held t T r ck n -> held t T r ck m -> n = m.
Proof.
  intros Ht (v & Hv & Hgv) (w & Hw & Hgw).
  specialize (Hgv t ltac:(lia)). specialize (Hgw t ltac:(lia)). congruence.
Qed.

Lemma held_later t t' T r ck n : t <= t' -> held t T r ck n -> held t' T r ck n.
Proof. intros Ht (v & Hv & Hg). exists v. split; [done|]. intros u Hu. apply Hg. lia. Qed.

Lemma refill_reply_cases r sk seg tok reply r' :
  refill_reply r sk seg tok = (reply, r') ->
  (reply = None /\ r' = r)
  \/ exists v, int_incrby r sk seg = Some (v, r')
     /\ reply = Some (match tok with
                      | Some k => [1; k; double_of_Z (double_of_Z v - seg + 1); double_of_Z v]
                      | None => [1]
                      end).
Proof.
  unfold refill_reply. destruct (int_incrby r sk seg) as [[v r1]|] eqn:E; [|naive_solver].
  intros Heq. right. exists v. destruct tok; by simplify_eq.
Qed.

Lemma refill_reply_lease r ck seg tok reply r' t' ck' :
  refill_reply r (seq_key ck) seg tok = (reply, r') ->
  str_get t' r' (lease_key ck') = str_get t' r (lease_key ck').
Proof.
  intros [[_ ->]|(v & Hi & _)]%refill_reply_cases; [done|].
  by eapply incrby_str_frame; eauto with lease.
Qed.

Lemma refill_reply_high_water r ck seg tok reply r' :
  0 <= seg -> refill_reply r (seq_key ck) seg tok = (reply, r') ->
  high_water r (seq_key ck) <= high_water r' (seq_key ck).
Proof.
  intros Hseg [[_ ->]|(v & Hi & _)]%refill_reply_cases; [lia|].
  apply incrby_high_water in Hi as [-> ->]. lia.
Qed.

(** The server state in which the script starts its refill: the lease belongs
    to [node] for the next [ttl] milliseconds, the counter is unchanged. *)
Definition refill_state (t : Z) (r : R) (ck node : string) (ttl : Z) (r1 : R) : Prop :=
  high_water r1 (seq_key ck) = high_water r (seq_key ck)
  /\ held t (t + ttl) r1 ck node
  /\ (forall T n, t < T -> T <= t + ttl -> held t T r ck n -> n = node /\ held t T r1 ck n)
  /\ (forall ck', ck' <> ck -> high_water r1 (seq_key ck') = high_water r (seq_key ck')
        /\ forall t', str_get t' r1 (lease_key ck') = str_get t' r (lease_key ck')).

Lemma renew_refill_state t r ck node ttl v suffix :
  0 < ttl ->
  str_get t r (lease_key ck) = Some v -> Str.split_once ":"%char v = Some (node, suffix) ->
  refill_state t r ck node ttl (pexpire t r (lease_key ck) ttl).
Proof.
  intros Httl Hg Hs. assert (owner_of v = Some node) as Ho by (unfold owner_of; by rewrite Hs).
  assert (forall t', t <= t' < t + ttl ->
    str_get t' (pexpire t r (lease_key ck) ttl) (lease_key ck) = Some v) as Hheld.
  { intros t' Ht'. erewrite pexpire_value by (done || lia). by rewrite decide_True by lia. }
  split; [|split; [|split]].
  - unfold high_water. by rewrite pexpire_int_frame by eauto with lease.
  - by exists v.
  - intros T n HT HTt (w & Hw & Hgw). specialize (Hgw t ltac:(lia)).
    assert (w = v) as -> by congruence. assert (n = node) as -> by congruence.
    split; [done|]. exists v. split; [done|]. intros t' Ht'. apply Hheld. lia.
  - intros ck' Hne. split.
    + unfold high_water. by rewrite pexpire_int_frame by eauto with lease.
    + intros t'. apply pexpire_frame. eauto with lease.
Qed.

Lemma acquire_refill_state t r ck node ttl tok token r1 :
  0 < ttl -> Str.contains_char ":"%char node = false ->
  str_get t r (lease_key ck) = None -> int_incrby r (fence_key ck) 1 = Some (token, r1) ->
  refill_state t r ck node ttl (str_set_px t r1 (lease_key ck) (lease_value node tok) ttl).
Proof.
  intros Httl Hcf Hg Hi. split; [|split; [|split]].
  - unfold high_water. rewrite str_set_int_frame by eauto with lease.
    by erewrite incrby_int_frame by eauto with lease.
  - exists (lease_value node tok). split; [unfold owner_of; by rewrite lease_value_split|].
    intros t' Ht'. rewrite str_set_value by lia. by rewrite decide_True by lia.
  - intros T n HT _ (w & _ & Hgw). specialize (Hgw t ltac:(lia)). congruence.
  - intros ck' Hne. split.
    + unfold high_water. rewrite str_set_int_frame by eauto with lease.
      by erewrite incrby_int_frame by eauto with lease.
    + intros t'. rewrite str_set_frame by eauto with lease.
      by erewrite incrby_str_frame by eauto with lease.
Qed.

(** The script either refuses (or fails) without a change, or refills from a
    [refill_state]. *)
Lemma lua_cases t r ck node ttl seg expected reply r' :
  0 < ttl -> Str.contains_char ":"%char node = false ->
  lease_refill_lua t r ck node ttl seg expected = (reply, r') ->
  ((reply = None \/ reply = Some [0; 0; 0; 0])
     /\ (forall ck', high_water r' (seq_key ck') = high_water r (seq_key ck'))
     /\ (forall t' ck', str_get t' r' (lease_key ck') = str_get t' r (lease_key ck')))
  \/ exists r1 tok, refill_state t r ck node ttl r1
     /\ refill_reply r1 (seq_key ck) seg tok = (reply, r').
Proof.
  intros Httl Hcf. unfold lease_refill_lua.
  destruct (str_get t r (lease_key ck)) as [v|] eqn:Hg.
  - destruct (Str.split_once _ v) as [[owner suffix]|] eqn:Hs; [|naive_solver].
    case_decide as Ho; [naive_solver|]. subst owner.
    case_decide; [by intros; left; simplify_eq; eauto|]. intros Hr. right. do 2 eexists.
    split; [by eapply renew_refill_state|done].
  - destruct (int_incrby r (fence_key ck) 1) as [[token r1]|] eqn:Hi; [|naive_solver].
    intros Hr. right. do 2 eexists. split; [by eapply acquire_refill_state|done].
Qed.

(** The effect of one backend call on the conversation it names: the counter
    never falls, a lease that is running is kept, and a granted segment starts
    right above the old counter and is backed by a lease of the caller. *)
Lemma acquire_and_refill_effect t r ck node expected ttl seg o r' :
  0 < ttl -> 1 <= seg -> Str.contains_char ":"%char node = false ->
  acquire_and_refill t r ck node expected ttl seg = (o, r') ->
  high_water r (seq_key ck) <= high_water r' (seq_key ck)
  /\ (forall T n, t < T -> T <= t + ttl -> held t T r ck n -> held t T r' ck n)
  /\ (forall tok start end_, o = Ok (Granted tok start end_) ->
        0 <= high_water r (seq_key ck) -> high_water r' (seq_key ck) <= 2 ^ 53 ->
        start = high_water r (seq_key ck) + 1 /\ end_ = high_water r' (seq_key ck)
        /\ start <= end_
        /\ held t (t + ttl) r' ck node
        /\ forall T n, t < T -> T <= t + ttl -> held t T r ck n -> n = node).
Proof.
  intros Httl Hseg Hcf. unfold acquire_and_refill.
  destruct (reachable r); [|intros; simplify_eq; repeat split; try lia; naive_solver].
  destruct (lease_refill_lua t r ck node ttl seg _) as [reply r1] eqn:E.
  intros Heq; simplify_eq.
  assert (forall T n ra rb, (forall t' ck', str_get t' rb (lease_key ck') = str_get t' ra (lease_key ck')) ->
            held t T ra ck n -> held t T rb ck n) as Htr.
  { intros T n ra rb Hf (v & Hv & Hg). exists v. split; [done|]. intros t' Ht'. rewrite Hf. auto. }
  destruct (lua_cases _ _ _ _ _ _ _ _ _ Httl Hcf E)
    as [(Hrep & Hhw & Hl)|(r1 & tok & (Hw1 & Hh1 & Hk1 & _) & Hr)].
  - split; [rewrite Hhw; lia|]. split; [eauto|].
    intros tok start end_ Ho. destruct Hrep as [-> | ->]; [done|]. done.
  - pose proof (fun t' ck' => refill_reply_lease _ _ _ _ _ _ t' ck' Hr) as Hl.
    pose proof (refill_reply_high_water _ _ seg _ _ _ ltac:(lia) Hr) as Hw2.
    split; [lia|]. split.
    { intros T n HT HTt Hn. eapply Htr, (Hk1 T n HT HTt Hn). done. }
    intros tok' start end_ Ho Hpos Hb.
    apply refill_reply_cases in Hr as [[-> _]|(v & Hi & ->)]; [done|].
    destruct tok as [k|]; [|done]. simpl in Ho. simplify_eq.
    apply incrby_high_water in Hi as [Hv Hv']. rewrite Hv' in *.
    rewrite (double_of_Z_exact v) by lia. rewrite (double_of_Z_exact (v - seg + 1)) by lia.
    split; [lia|]. split; [lia|]. split; [lia|]. split; [by eapply Htr|].
    intros T n HT HTt Hn. by apply (Hk1 T n HT HTt Hn).
Qed.

(** Other conversations are not touched. *)
Lemma acquire_and_refill_frame t r ck node expected ttl seg o r' ck' :
  0 < ttl -> Str.contains_char ":"%char node = false -> ck' <> ck ->
  acquire_and_refill t r ck node expected ttl seg = (o, r') ->
  high_water r' (seq_key ck') = high_water r (seq_key ck')
  /\ forall t', str_get t' r' (lease_key ck') = str_get t' r (lease_key ck').
Proof.
  intros Httl Hcf Hne. unfold acquire_and_refill.
  destruct (reachable r); [|by intros; simplify_eq].
  destruct (lease_refill_lua t r ck node ttl seg _) as [reply r1] eqn:E.
  intros Heq; simplify_eq.
  destruct (lua_cases _ _ _ _ _ _ _ _ _ Httl Hcf E)
    as [(_ & Hhw & Hl)|(r1 & tok & (_ & _ & _ & Hfr) & Hr)]; [by eauto|].
  destruct (Hfr ck' Hne) as [Hw Hl]. split.
  - rewrite <- Hw. apply refill_reply_cases in Hr as [[_ ->]|(v & Hi & _)]; [done|].
    eapply incrby_high_water_frame; eauto with lease.
  - intros t'. rewrite <- Hl. by eapply refill_reply_lease.
Qed.

End Effects.

(** ** Several nodes, one server

    Every node runs [allocate] with its own clock, which differs from the
    server's by a fixed offset. A call reads its clock at some earlier instant
    [tr] and takes effect at most [local_margin_ms] later: this is the
    deployment condition the module states for the margin. Nodes may crash and
    restart with an empty table, and calls may fail. *)

Section System.
Context `{RedisLaws R}.
Context (seg ttl margin : Z) (off : string -> Z).

Definition cfg_of (n : string) : LeasedSegmentAllocator := leased_new n seg ttl margin.
#[local] Arguments cfg_of : simpl never.

Record System := mkSys {
  sys_time : Z;
  sys_redis : R;
  sys_nodes : gmap string (gmap string ConvState);
  sys_log : list (string * Z);
}.

Definition node_state (s : System) (n : string) : gmap string ConvState :=
  default ∅ (sys_nodes s !! n).

Definition log_entry (ck : string) (o : result SeqAllocation) : list (string * Z) :=
  match o with Ok (Allocated v) => [(ck, v)] | _ => [] end.

Inductive step : System -> System -> Prop :=
  | step_tick s d :
      0 <= d ->
      step s (mkSys (sys_time s + d) (sys_redis s) (sys_nodes s) (sys_log s))
  | step_allocate s n ck tr o st' r' :
      Str.contains_char ":"%char n = false ->
      tr <= sys_time s -> sys_time s <= tr + local_margin_ms (cfg_of n) ->
      allocate (cfg_of n) (tr + off n) (sys_time s) (node_state s n) (sys_redis s) ck
        = (o, st', r') ->
      step s (mkSys (sys_time s) r' (<[n := st']> (sys_nodes s)) (sys_log s ++ log_entry ck o))
  | step_crash s n :
      step s (mkSys (sys_time s) (sys_redis s) (delete n (sys_nodes s)) (sys_log s)).

(** The numbers handed out for a conversation by all nodes, in order. *)
Definition issued (ck : string) (log : list (string * Z)) : list Z :=
  snd <$> filter (fun e => e.1 = ck) log.

(** The server time up to which a node may still use a segment. *)
Definition valid_end (n : string) (cs : ConvState) : Z :=
  local_valid_until_ms cs - off n + local_margin_ms (cfg_of n).

Definition counter (s : System) (ck : string) : Z := high_water (sys_redis s) (seq_key ck).

Lemma counter_mk t r nodes log ck : counter (mkSys t r nodes log) ck = high_water r (seq_key ck).
Proof. done. Qed.

Record lease_inv (ck : string) (s : System) : Prop := {
  inv_counter : 0 <= counter s ck;
  inv_sorted : StronglySorted Z.lt (issued ck (sys_log s));
  inv_issued v : v ∈ issued ck (sys_log s) -> v <= counter s ck;
  inv_node n cs :
    node_state s n !! ck = Some cs ->
    range_end (segment cs) <= counter s ck
    /\ valid_end n cs <= sys_time s + lease_ttl_ms (cfg_of n)
    /\ (sys_time s < valid_end n cs ->
        held (sys_time s) (valid_end n cs) (sys_redis s) ck n
        /\ forall v, v ∈ issued ck (sys_log s) -> v < range_next (segment cs));
}.

Lemma cfg_ttl n : 0 < lease_ttl_ms (cfg_of n).
Proof. cbv [cfg_of leased_new lease_ttl_ms]. lia. Qed.
Lemma cfg_seg n : 1 <= segment_size (cfg_of n).
Proof. cbv [cfg_of leased_new segment_size]. lia. Qed.
Lemma cfg_ttl_same n m : lease_ttl_ms (cfg_of n) = lease_ttl_ms (cfg_of m).
Proof. done. Qed.
Lemma cfg_margin_ttl n : local_margin_ms (cfg_of n) < lease_ttl_ms (cfg_of n).
Proof. cbv [cfg_of leased_new local_margin_ms lease_ttl_ms sat_sub]. lia. Qed.

Lemma issued_app ck log ck' o :
  issued ck (log ++ log_entry ck' o) =
  issued ck log ++
    (if decide (ck' = ck) then match o with Ok (Allocated v) => [v] | _ => [] end else []).
Proof.
  unfold issued. rewrite filter_app, fmap_app. f_equal.
  destruct o as [[v|]|e]; simpl; [|by case_decide|by case_decide].
  rewrite filter_cons, filter_nil. simpl. by case_decide.
Qed.

Lemma node_state_insert s n st r log t m :
  node_state (mkSys t r (<[n := st]> (sys_nodes s)) log) m
  = if decide (n = m) then st else node_state s m.
Proof.
  unfold node_state. simpl. case_decide; [subst; by rewrite lookup_insert_eq|].
  by rewrite lookup_insert_ne.
Qed.

(** The three ways a call ends, as the invariant needs them. *)
Inductive alloc_end (n ck : string) (tr t : Z) (st : gmap string ConvState) (r : R)
    (o : result SeqAllocation) (st' : gmap string ConvState) (r' : R) : Prop :=
  | end_fast cs cs' v :
      st !! ck = Some cs -> tr + off n < local_valid_until_ms cs ->
      take_next (segment cs) = (Some v, segment cs') ->
      local_valid_until_ms cs' = local_valid_until_ms cs ->
      o = Ok (Allocated v) -> st' = <[ck := cs']> st -> r' = r ->
      alloc_end n ck tr t st r o st' r'
  | end_granted expected tok start end_ v cs' :
      acquire_and_refill t r ck n expected (lease_ttl_ms (cfg_of n)) (segment_size (cfg_of n))
        = (Ok (Granted tok start end_), r') ->
      take_next (range_new start end_) = (Some v, segment cs') ->
      local_valid_until_ms cs'
        <= tr + off n + (lease_ttl_ms (cfg_of n) - local_margin_ms (cfg_of n)) ->
      o = Ok (Allocated v) -> st' = <[ck := cs']> st ->
      alloc_end n ck tr t st r o st' r'
  | end_none expected a :
      acquire_and_refill t r ck n expected (lease_ttl_ms (cfg_of n)) (segment_size (cfg_of n))
        = (a, r') ->
      (st' = st \/ st' = delete ck st) -> (forall v, o <> Ok (Allocated v)) ->
      alloc_end n ck tr t st r o st' r'.

Lemma allocate_end n ck tr t st r o st' r' :
  allocate (cfg_of n) (tr + off n) t st r ck = (o, st', r') ->
  alloc_end n ck tr t st r o st' r'.
Proof.
  unfold allocate.
  set (fast := match st !! ck with Some _ => _ | None => _ end).
  destruct fast as [[v cs']|] eqn:Ef; unfold fast in Ef; clear fast.
  - intros; simplify_eq.
    destruct (st !! ck) as [cs|] eqn:Hc; [|done]. case_decide; [|done].
    destruct (take_next (segment cs)) as [[v'|] seg'] eqn:Ht; simplify_eq.
    by eapply (end_fast _ _ _ _ _ _ _ _ _ cs
      (mkConv seg' (fencing_token cs) (local_valid_until_ms cs))).
  - clear Ef. destruct (acquire_and_refill _ _ _ _ _ _ _) as [a r1] eqn:Ea.
    destruct a as [[tok start end_|]|e].
    + destruct (take_next (range_new start end_)) as [[v|] seg'] eqn:Ht; intros; simplify_eq.
      * eapply end_granted with (cs' := mkConv seg' tok _);
          [exact Ea|exact Ht| |done|done]. simpl.
        etrans; [apply sat_add_le|]. pose proof (cfg_margin_ttl n). simpl in *.
        unfold sat_sub in *. lia.
      * by eapply end_none; [exact Ea|right|].
    + intros; simplify_eq. by eapply end_none; [exact Ea|right|].
    + intros; simplify_eq. by eapply end_none; [exact Ea|left|].
Qed.

Lemma tick_inv ck s d :
  0 <= d -> lease_inv ck s ->
  lease_inv ck (mkSys (sys_time s + d) (sys_redis s) (sys_nodes s) (sys_log s)).
Proof.
  intros Hd [Hc Hs Hi Hn]. split; [done..|].
  intros n cs Hcs. destruct (Hn n cs Hcs) as (He & Hv & Hl). cbn [sys_time sys_redis sys_log].
  split; [done|]. split; [lia|]. intros Ht. destruct Hl as [Hl Hv']; [lia|].
  split; [|done]. eapply held_later; [|done]. lia.
Qed.

Lemma crash_inv ck s n :
  lease_inv ck s ->
  lease_inv ck (mkSys (sys_time s) (sys_redis s) (delete n (sys_nodes s)) (sys_log s)).
Proof.
  intros [Hc Hs Hi Hn]. split; [done..|].
  intros m cs Hcs. apply Hn. unfold node_state in *. simpl in Hcs.
  destruct (decide (n = m)) as [->|Hne]; [by rewrite lookup_delete_eq in Hcs|].
  by rewrite lookup_delete_ne in Hcs.
Qed.

(** A call for another conversation. *)
Lemma other_conv_inv ck s n ck' tr o st' r' :
  ck' <> ck -> Str.contains_char ":"%char n = false ->
  alloc_end n ck' tr (sys_time s) (node_state s n) (sys_redis s) o st' r' ->
  lease_inv ck s ->
  lease_inv ck (mkSys (sys_time s) r' (<[n := st']> (sys_nodes s)) (sys_log s ++ log_entry ck' o)).
Proof.
  intros Hne Hcf Hend [Hc Hs Hi Hn].
  assert (high_water r' (seq_key ck) = counter s ck
          /\ forall t', str_get t' r' (lease_key ck) = str_get t' (sys_redis s) (lease_key ck)) as [Hw Hl].
  { destruct Hend; subst; [done|..];
      eapply acquire_and_refill_frame; eauto using cfg_ttl. }
  assert (st' !! ck = node_state s n !! ck) as Hst.
  { destruct Hend as [| |? ? ? [-> | ->]]; subst; by simplify_map_eq. }
  split; simpl; unfold counter; simpl; rewrite ?issued_app, ?decide_False, ?app_nil_r, ?Hw by done;
    [done..|].
  intros m cs. rewrite node_state_insert. intros Hcs.
  assert (node_state s m !! ck = Some cs) as Hcs' by (case_decide; subst; congruence).
  destruct (Hn m cs Hcs') as (He & Hv & Hlive). split; [done|]. split; [done|].
  intros Ht. destruct (Hlive Ht) as ((w & Hw' & Hg) & Hnx).
  split; [|done].
  exists w. split; [done|]. intros t' Ht'. rewrite Hl. auto.
Qed.

(** A number from the local segment. *)
Lemma fast_inv ck s n tr cs cs' v :
  tr <= sys_time s -> sys_time s <= tr + local_margin_ms (cfg_of n) ->
  counter s ck <= 2 ^ 53 ->
  node_state s n !! ck = Some cs -> tr + off n < local_valid_until_ms cs ->
  take_next (segment cs) = (Some v, segment cs') ->
  local_valid_until_ms cs' = local_valid_until_ms cs ->
  lease_inv ck s ->
  lease_inv ck (mkSys (sys_time s) (sys_redis s) (<[n := <[ck := cs']> (node_state s n)]> (sys_nodes s))
                  (sys_log s ++ [(ck, v)])).
Proof.
  intros Htr Hlate Hb Hcs Hval Htake Hsame [Hc Hs Hi Hn].
  destruct (Hn n cs Hcs) as (He & Hv & Hlive).
  apply take_next_some in Htake as (-> & Hle & Hend & Hnext).
  assert (sys_time s < valid_end n cs) as Hnow by (unfold valid_end; lia).
  destruct (Hlive Hnow) as [Hheld Hnx].
  assert (u64_add (range_next (segment cs)) 1 = range_next (segment cs) + 1) as Hadd.
  { apply sat_add_small. unfold u64_max. lia. }
  pose proof (issued_app ck (sys_log s) ck (Ok (Allocated (range_next (segment cs))))) as Hiss.
  rewrite decide_True in Hiss by done. simpl in Hiss.
  split; simpl; unfold counter; simpl; rewrite ?Hiss.
  - done.
  - apply StronglySorted_app_2; [|done|apply ssorted_single].
    intros x y Hx ->%list_elem_of_singleton. auto.
  - intros x [Hx| ->%list_elem_of_singleton]%elem_of_app; [auto|]. unfold counter in *. lia.
  - intros m cm. rewrite node_state_insert. case_decide as Hm.
    + subst m. rewrite lookup_insert_eq. intros; simplify_eq.
      unfold valid_end in *. rewrite Hsame, Hend, Hnext, Hadd.
      split; [done|]. split; [done|]. intros _. split; [done|].
      intros x [Hx%Hnx| ->%list_elem_of_singleton]%elem_of_app; lia.
    + intros Hcm. destruct (Hn m cm Hcm) as (Hem & Hvm & Hlm).
      split; [done|]. split; [done|]. intros Hlm'.
      destruct (Hlm Hlm') as [Hheld' _]. exfalso. apply Hm.
      apply (held_owner (sys_time s) (sys_time s + 1) (sys_redis s) ck); [lia|..];
        [destruct Hheld as (w & ? & Hg)|destruct Hheld' as (w & ? & Hg)];
        (exists w; split; [done|]; intros t' Ht'; apply Hg; lia).
Qed.

(** A freshly granted segment. *)
Lemma granted_inv ck s n tr expected tok start end_ v cs' r' :
  tr <= sys_time s -> Str.contains_char ":"%char n = false ->
  high_water r' (seq_key ck) <= 2 ^ 53 ->
  acquire_and_refill (sys_time s) (sys_redis s) ck n expected
    (lease_ttl_ms (cfg_of n)) (segment_size (cfg_of n)) = (Ok (Granted tok start end_), r') ->
  take_next (range_new start end_) = (Some v, segment cs') ->
  local_valid_until_ms cs'
    <= tr + off n + (lease_ttl_ms (cfg_of n) - local_margin_ms (cfg_of n)) ->
  lease_inv ck s ->
  lease_inv ck (mkSys (sys_time s) r' (<[n := <[ck := cs']> (node_state s n)]> (sys_nodes s))
                  (sys_log s ++ [(ck, v)])).
Proof.
  intros Htr Hcf Hb Hacq Htake Hval [Hc Hs Hi Hn].
  pose proof (acquire_and_refill_effect _ _ _ _ _ _ _ _ _ (cfg_ttl n) (cfg_seg n) Hcf Hacq)
    as (Hmono & _ & Hgr).
  destruct (Hgr _ _ _ eq_refl Hc Hb) as (-> & -> & Hle & Hheld & Hothers).
  apply take_next_some in Htake as (-> & _ & Hend & Hnext). simpl in Hend, Hnext.
  fold (counter s ck) in *.
  rewrite sat_add_small in Hnext by (unfold u64_max; lia).
  assert (valid_end n cs' <= sys_time s + lease_ttl_ms (cfg_of n)) as Hve
    by (unfold valid_end; lia).
  pose proof (issued_app ck (sys_log s) ck (Ok (Allocated (counter s ck + 1)))) as Hiss.
  rewrite decide_True in Hiss by done. simpl in Hiss. simpl.
  split; rewrite ?counter_mk; simpl; rewrite ?Hiss.
  - lia.
  - apply StronglySorted_app_2; [|done|apply ssorted_single].
    intros x y Hx%Hi ->%list_elem_of_singleton. lia.
  - intros x [Hx%Hi| ->%list_elem_of_singleton]%elem_of_app; lia.
  - intros m cm. rewrite node_state_insert. case_decide as Hm.
    + subst m. rewrite lookup_insert_eq. intros; simplify_eq. rewrite Hend, Hnext.
      split; [lia|]. split; [done|]. intros _. split.
      * destruct Hheld as (w & Hw & Hg). exists w. split; [done|]. intros t' Ht'. apply Hg. lia.
      * intros x [Hx%Hi| ->%list_elem_of_singleton]%elem_of_app; lia.
    + intros Hcm. destruct (Hn m cm Hcm) as (Hem & Hvm & Hlm).
      split; [lia|]. split; [done|]. intros Hlm'. destruct (Hlm Hlm') as [Hheld' _].
      exfalso. apply Hm. symmetry. by apply (Hothers (valid_end m cm) m).
Qed.

(** A refused or failed call. *)
Lemma none_inv ck s n expected a st' r' :
  Str.contains_char ":"%char n = false ->
  acquire_and_refill (sys_time s) (sys_redis s) ck n expected
    (lease_ttl_ms (cfg_of n)) (segment_size (cfg_of n)) = (a, r') ->
  (st' = node_state s n \/ st' = delete ck (node_state s n)) ->
  lease_inv ck s ->
  lease_inv ck (mkSys (sys_time s) r' (<[n := st']> (sys_nodes s)) (sys_log s)).
Proof.
  intros Hcf Hacq Hst [Hc Hs Hi Hn].
  pose proof (acquire_and_refill_effect _ _ _ _ _ _ _ _ _ (cfg_ttl n) (cfg_seg n) Hcf Hacq)
    as (Hmono & Hkeep & _). fold (counter s ck) in Hmono.
  split; rewrite ?counter_mk; simpl; [lia|done|..].
  - intros v Hv%Hi. lia.
  - intros m cm. rewrite node_state_insert. intros Hcm.
    assert (node_state s m !! ck = Some cm) as Hcm'.
    { case_decide; [subst m|done]. destruct Hst as [-> | ->]; by simplify_map_eq. }
    destruct (Hn m cm Hcm') as (He & Hv & Hl). split; [lia|]. split; [done|].
    intros Hlive. destruct (Hl Hlive) as [Hheld Hnx]. split; [|done].
    by apply Hkeep.
Qed.

Lemma log_entry_none ck (o : result SeqAllocation) :
  (forall v, o <> Ok (Allocated v)) -> log_entry ck o = [].
Proof. intros Hno. destruct o as [[v|]|]; [by destruct (Hno v)|done..]. Qed.

Lemma step_inv ck s s' :
  step s s' -> counter s' ck <= 2 ^ 53 -> lease_inv ck s -> lease_inv ck s'.
Proof.
  intros Hstep. destruct Hstep as [s d Hd|s n ck' tr o st' r' Hcf Htr Hlate Ha|s n].
  - eauto using tick_inv.
  - unfold counter. simpl. intros Hb Hinv. apply allocate_end in Ha.
    destruct (decide (ck' = ck)) as [->|Hne]; [|by eapply other_conv_inv].
    destruct Ha; [subst; simpl..|].
    + by eapply fast_inv.
    + by eapply granted_inv.
    + rewrite log_entry_none, app_nil_r by done. by eapply none_inv.
  - eauto using crash_inv.
Qed.

Lemma step_counter_mono ck s s' : step s s' -> counter s ck <= counter s' ck.
Proof.
  destruct 1 as [s d Hd|s n ck' tr o st' r' Hcf Htr Hlate Ha|s n]; [done| |done].
  unfold counter. simpl. apply allocate_end in Ha.
  destruct (decide (ck' = ck)) as [->|Hne].
  - destruct Ha as [|? ? ? ? ? ? Hacq|? ? Hacq]; subst; [done|..];
      apply acquire_and_refill_effect in Hacq as [Hm _]; auto using cfg_ttl, cfg_seg.
  - destruct Ha as [|? ? ? ? ? ? Hacq|? ? Hacq]; subst; [done|..];
      eapply acquire_and_refill_frame in Hacq as [Hw _]; eauto using cfg_ttl; lia.
Qed.

Lemma steps_inv ck s s' :
  rtc step s s' -> counter s' ck <= 2 ^ 53 -> lease_inv ck s -> lease_inv ck s'.
Proof.
  induction 1 as [|s s1 s2 Hstep Hsteps IH]; [done|].
  intros Hb Hinv. apply IH; [done|]. eapply step_inv; [done| |done].
  clear -Hsteps Hb H0. induction Hsteps as [|a b c Hab Hbc IHc]; [done|].
  pose proof (step_counter_mono ck a b Hab). specialize (IHc Hb). lia.
Qed.

(** A system before the first call: empty tables, nothing handed out. *)
Definition initial (s : System) : Prop :=
  sys_log s = [] /\ (forall n, node_state s n = ∅).

Lemma initial_inv ck s : initial s -> 0 <= counter s ck -> lease_inv ck s.
Proof.
  intros [Hl Hn] Hc. split; [done|..]; rewrite ?Hl.
  - constructor.
  - by intros v Hv%elem_of_nil.
  - intros n cs. by rewrite Hn, lookup_empty.
Qed.

(** One call as a function on systems. *)
Definition sys_allocate (s : System) (n ck : string) (tr : Z) : System :=
  let '(o, st', r') :=
    allocate (cfg_of n) (tr + off n) (sys_time s) (node_state s n) (sys_redis s) ck in
  mkSys (sys_time s) r' (<[n := st']> (sys_nodes s)) (sys_log s ++ log_entry ck o).

Definition sys_tick (s : System) (d : Z) : System :=
  mkSys (sys_time s + d) (sys_redis s) (sys_nodes s) (sys_log s).

Lemma sys_allocate_step s n ck tr :
  Str.contains_char ":"%char n = false ->
  tr <= sys_time s -> sys_time s <= tr + local_margin_ms (cfg_of n) ->
  step s (sys_allocate s n ck tr).
Proof.
  intros. unfold sys_allocate. destruct (allocate _ _ _ _ _ _) as [[o st'] r'] eqn:E.
  by eapply step_allocate.
Qed.

(** One writer at a time: whatever the nodes, their clock offsets, crashes,
    failed calls and lease take-overs, the numbers handed out for a
    conversation by all nodes together are strictly increasing in the order
    they are handed out, and none exceeds the Redis counter. Calls finish
    within the local margin of reading their clock, node ids hold no colon, and
    the counter stays below [2^53]. *)
Theorem leased_numbers_strictly_increase ck s s' :
  initial s -> 0 <= counter s ck -> rtc step s s' -> counter s' ck <= 2 ^ 53 ->
  StronglySorted Z.lt (issued ck (sys_log s'))
  /\ forall v, v ∈ issued ck (sys_log s') -> v <= counter s' ck.
Proof.
  intros Hini Hc Hsteps Hb.
  destruct (steps_inv ck s s' Hsteps Hb (initial_inv ck s Hini Hc)) as [_ Hs Hi _]. done.
Qed.

End System.

(** A lease held by another node refuses the caller: the reply is
    "not owner", the server is untouched and the caller's local segment is
    dropped, so it cannot keep handing out numbers from it. *)
Theorem foreign_lease_refuses `{Redis R} cfg now t st (r : R) ck lease owner suffix :
  reachable r = true -> str_get t r (lease_key ck) = Some lease ->
  Str.split_once ":"%char lease = Some (owner, suffix) -> owner <> node_id cfg ->
  (forall cs, st !! ck = Some cs -> local_valid_until_ms cs <= now) ->
  allocate cfg now t st r ck = (Ok NotOwner, delete ck st, r).
Proof.
  intros Hr Hg Hs Hne Hexp. unfold allocate.
  assert (acquire_and_refill t r ck (node_id cfg) (fencing_token <$> st !! ck)
            (lease_ttl_ms cfg) (segment_size cfg) = (Ok LeaseNotOwner, r)) as Hacq.
  { unfold acquire_and_refill, lease_refill_lua. by rewrite Hr, Hg, Hs, decide_True. }
  destruct (st !! ck) as [cs|] eqn:Hc; [|by rewrite Hacq].
  specialize (Hexp cs eq_refl). by rewrite decide_False, Hacq by lia.
Qed.

(** The owner renews: with its own running lease and its own token (or no
    local state at all) a call past the end of its segment gets the next
    segment, starting right above the counter, under the same token. *)
Theorem owner_renewal_continues `{RedisLaws R} t (r : R) ck node tok expected ttl seg v r' :
  reachable r = true -> Str.contains_char ":"%char node = false -> 0 <= tok <= i64_max ->
  str_get t r (lease_key ck) = Some (lease_value node tok) ->
  (expected = None \/ expected = Some tok) -> 1 <= seg -> 0 <= high_water r (seq_key ck) ->
  int_incrby (pexpire t r (lease_key ck) ttl) (seq_key ck) seg = Some (v, r') -> v <= 2 ^ 53 ->
  acquire_and_refill t r ck node expected ttl seg
  = (Ok (Granted tok (high_water r (seq_key ck) + 1) (high_water r (seq_key ck) + seg)), r').
Proof.
  intros Hr Hcf Htok Hg Hexp Hseg Hpos Hi Hb.
  unfold acquire_and_refill, lease_refill_lua. rewrite Hr, Hg, lease_value_split by done.
  rewrite decide_False by (intros Hne; by apply Hne). rewrite Str.to_of_Z by lia.
  rewrite decide_False; cycle 1.
  { intros [Hge Hne]. apply Hne. destruct Hexp as [-> | ->]; [lia|].
    unfold as_i64. by rewrite decide_True by lia. }
  unfold refill_reply. rewrite Hi. apply incrby_high_water in Hi as [-> _].
  assert (high_water (pexpire t r (lease_key ck) ttl) (seq_key ck) = high_water r (seq_key ck)) as Hw.
  { unfold high_water. by rewrite pexpire_int_frame by eauto with lease. }
  rewrite Hw in *. rewrite decide_True by done.
  rewrite (double_of_Z_exact (_ + seg)) by lia. rewrite double_of_Z_exact by lia.
  do 3 f_equal; lia.
Qed.

(** A node id with a colon loses its lease at the first renewal: the script
    takes the text before the first colon for the owner, so the node that wrote
    the lease is refused for as long as its own lease runs. *)
Theorem colon_node_id_cannot_renew `{Redis R} t (r : R) ck node tok expected ttl seg :
  reachable r = true -> Str.contains_char ":"%char node = true ->
  str_get t r (lease_key ck) = Some (lease_value node tok) ->
  acquire_and_refill t r ck node expected ttl seg = (Ok LeaseNotOwner, r).
Proof.
  intros Hr Hc Hg. unfold acquire_and_refill, lease_refill_lua. rewrite Hr, Hg.
  destruct (Str.split_once ":"%char (lease_value node tok)) as [[owner suffix]|] eqn:Hs.
  - apply Str.split_once_fst in Hs as [Ho _]. rewrite decide_True; [done|]. congruence.
  - exfalso. unfold lease_value in Hs. revert Hs. clear -Hc.
    generalize (Str.of_Z tok) as suffix; intros suffix.
    induction node as [|d node IH]; [done|]. rewrite Str.app_cons. simpl in *.
    case_decide; [done|]. rewrite bool_decide_eq_false_2 in Hc by done. simpl in Hc.
    destruct (Str.split_once _ _) as [[??]|]; [done|]. intros _. by apply IH.
Qed.

(** ** Witnesses *)

Module LeaseExample.
Definition no_off (n : string) : Z := 0.
Definition alloc := sys_allocate 2 1000 200 no_off.
Definition s0 : System := mkSys 0 sim_empty ∅ [].
(** A hands out a segment and renews, its lease expires, B takes over, A is
    refused. *)
Definition s1 : System := alloc (alloc (alloc s0 "A" "t:c" 0) "A" "t:c" 0) "A" "t:c" 0.
Definition s2 : System := alloc (sys_tick s1 1500) "B" "t:c" 1400.
Definition s3 : System := alloc (alloc s2 "A" "t:c" 1450) "B" "t:c" 1500.
End LeaseExample.
Import LeaseExample.

Lemma leased_numbers_strictly_increase_witness :
  issued "t:c" (sys_log s3) = [1; 2; 3; 5; 6]
  /\ StronglySorted Z.lt (issued "t:c" (sys_log s3)).
Proof.
  split; [vm_compute; reflexivity|].
  refine (proj1 (leased_numbers_strictly_increase 2 1000 200 no_off "t:c" s0 s3 _ _ _ _)).
  - split; [reflexivity|]. intros n. reflexivity.
  - vm_compute. discriminate.
  - do 3 (eapply rtc_l; [apply (sys_allocate_step 2 1000 200 no_off _ "A" "t:c" 0);
      [reflexivity| |]; vm_compute; discriminate|]).
    eapply rtc_l; [apply (step_tick _ _ _ _ _ 1500); lia|].
    eapply rtc_l; [apply (sys_allocate_step 2 1000 200 no_off _ "B" "t:c" 1400);
      [reflexivity| |]; vm_compute; discriminate|].
    eapply rtc_l; [apply (sys_allocate_step 2 1000 200 no_off _ "A" "t:c" 1450);
      [reflexivity| |]; vm_compute; discriminate|].
    apply rtc_once. apply sys_allocate_step; [reflexivity| |]; vm_compute; discriminate.
  - vm_compute. discriminate.
Defined.

Lemma foreign_lease_refuses_witness :
  allocate (leased_new "B" 2 1000 200) 0 0 ∅ (sys_redis s1) "t:c" = (Ok NotOwner, ∅, sys_redis s1).
Proof.
  refine (foreign_lease_refuses (leased_new "B" 2 1000 200) 0 0 ∅ (sys_redis s1) "t:c"
    "A:1" "A" "1" _ _ _ _ _); [vm_compute; reflexivity..|discriminate|].
  intros cs Hcs. discriminate Hcs.
Defined.

Lemma owner_renewal_continues_witness :
  (acquire_and_refill 0 (sys_redis s1) "t:c" "A" (Some 1) 1000 2).1 = Ok (Granted 1 5 6).
Proof.
  rewrite (owner_renewal_continues 0 (sys_redis s1) "t:c" "A" 1 (Some 1) 1000 2 6
    (sim_put (sys_redis s1) "seq:t:c" (SInt 6)));
    [reflexivity|reflexivity|reflexivity|split; discriminate|reflexivity|by right|lia|..];
    vm_compute; (reflexivity || discriminate).
Defined.

Lemma colon_node_id_cannot_renew_witness :
  let s := alloc s0 "10.0.0.1:7000" "t:c" 0 in
  issued "t:c" (sys_log s) = [1]
  /\ acquire_and_refill 0 (sys_redis s) "t:c" "10.0.0.1:7000" (Some 1) 1000 2
     = (Ok LeaseNotOwner, sys_redis s).
Proof.
  split; [vm_compute; reflexivity|].
  apply (colon_node_id_cannot_renew 0 _ "t:c" "10.0.0.1:7000" 1); vm_compute; reflexivity.
Defined.
