(* ===== verification/IngestSeq.v ===== *)
(** * Sequence allocation of the ingest service

    [allocate_conversation_seq] and [first_touch_floor_alloc] of
    flare-message-ingest/src/domain/service/message_ingest_service.rs: the first
    message of a conversation in a process asks the storage reader for the
    persisted maximum and allocates above it; later ones use the plain INCR,
    with a check for a lost Redis counter. *)

From S2P Require Import Prelude Redis SeqAllocator.
From stdpp Require Import base gmap strings list.
From Stdlib Require Import Lia ZArith Ascii.

Local Open Scope Z_scope.

Inductive SeqFloorState :=
  | Checked
  | FailedAt (at_ms : Z).

#[export] Instance SeqFloorState_eq_dec : EqDecision SeqFloorState.
Proof. solve_decision. Defined.

(** milliseconds *)
Definition SEQ_FLOOR_FAILURE_BACKOFF : Z := 30 * 1000.

Inductive SeqAllocPlan :=
  | PlainIncr
  | FirstTouchFloor.

(** What the storage reader's [persisted_max_seq], under its RPC timeout,
    answers. *)
Inductive FloorLookup :=
  | LookupOk (floor : Z)
  | LookupErr (e : FlareError)
  | LookupTimeout.

Definition plan_seq_alloc (has_provider already_checked : bool) : SeqAllocPlan :=
  if has_provider && negb already_checked then FirstTouchFloor else PlainIncr.

Definition is_seq_floor_tenant_conflict (signed_tenant : option string) (tenant_id : string)
    (error : FlareError) : bool :=
  bool_decide (err_code error = PermissionDenied)
  && match signed_tenant with Some signed => bool_decide (signed <> tenant_id) | None => false end.

(** The parts of [MessageIngestService] the allocation reads and writes:
    Redis, the floor cache and the tenant-conflict counter. *)
Record IngestSeq (R : Type) := mkIngest {
  ing_redis : R;
  seq_floor_state : gmap string SeqFloorState;
  floor_conflicts : Z;
}.
Arguments mkIngest {R}.
Arguments ing_redis {R}.
Arguments seq_floor_state {R}.
Arguments floor_conflicts {R}.

Section Ingest.
Context `{Redis R}.
(** The configured [SeqFloorProvider], if any, and the tenant of the inbound
    signature. *)
Context (provider : option (string -> string -> FloorLookup)) (signed_tenant : option string).

Definition floor_cache_key (tenant_id conversation_id : string) : string :=
  tenant_id +:+ "::" +:+ conversation_id.

Definition with_redis (s : IngestSeq R) (r : R) : IngestSeq R :=
  mkIngest r (seq_floor_state s) (floor_conflicts s).

Definition mark_floor (s : IngestSeq R) (key : string) (st : SeqFloorState) : IngestSeq R :=
  mkIngest (ing_redis s) (<[key := st]> (seq_floor_state s)) (floor_conflicts s).

Definition plain_alloc (s : IngestSeq R) (tenant_id conversation_id : string)
    : result Z * IngestSeq R :=
  let '(o, r') := allocate_seq (ing_redis s) conversation_id tenant_id in (o, with_redis s r').

(** [first_touch_floor_alloc] *)
Definition first_touch_floor_alloc (s : IngestSeq R) (now : Z) (tenant_id conversation_id key : string)
    : result Z * IngestSeq R :=
  match provider with
  | None => plain_alloc s tenant_id conversation_id
  | Some lookup =>
      match lookup tenant_id conversation_id with
      | LookupErr error =>
          let s1 :=
            if is_seq_floor_tenant_conflict signed_tenant tenant_id error
            then mkIngest (ing_redis s) (seq_floor_state s) (floor_conflicts s + 1)
            else s in
          plain_alloc (mark_floor s1 key (FailedAt now)) tenant_id conversation_id
      | LookupTimeout =>
          plain_alloc (mark_floor s key (FailedAt now)) tenant_id conversation_id
      | LookupOk floor =>
          let '(o, r') := allocate_seq_with_floor (ing_redis s) conversation_id tenant_id floor in
          match o with
          | Ok seq => (Ok seq, mark_floor (with_redis s r') key Checked)
          | Err e => (Err e, with_redis s r')
          end
      end
  end.

Definition already_checked (s : IngestSeq R) (now : Z) (key : string) : bool :=
  match seq_floor_state s !! key with
  | Some Checked => true
  | Some (FailedAt at_ms) => bool_decide (now - at_ms < SEQ_FLOOR_FAILURE_BACKOFF)
  | None => false
  end.

(** [allocate_conversation_seq] *)
Definition allocate_conversation_seq (s : IngestSeq R) (now : Z) (tenant_id conversation_id : string)
    : result Z * IngestSeq R :=
  let key := floor_cache_key tenant_id conversation_id in
  match plan_seq_alloc (bool_decide (is_Some provider)) (already_checked s now key) with
  | PlainIncr =>
      let '(o, s1) := plain_alloc s tenant_id conversation_id in
      match o with
      | Ok seq =>
          if bool_decide (seq = 1) && bool_decide (seq_floor_state s1 !! key = Some Checked)
          then first_touch_floor_alloc s1 now tenant_id conversation_id key
          else (Ok seq, s1)
      | Err e => (Err e, s1)
      end
  | FirstTouchFloor => first_touch_floor_alloc s now tenant_id conversation_id key
  end.

End Ingest.

Section Properties.
Context `{RedisLaws R}.

Definition conv_counter (s : IngestSeq R) (t c : string) : Z :=
  high_water (ing_redis s) (build_redis_key t c).

(** Redis answers INCR on the key with a value. *)
Definition incr_ok (r : R) (k : string) : Prop := exists v r', int_incrby r k 1 = Some (v, r').

Lemma allocate_seq_value r c t o r' :
  allocate_seq r c t = (o, r') -> 0 <= high_water r (build_redis_key t c) ->
  (forall v, o = Ok v -> v = high_water r (build_redis_key t c) + 1
                         /\ high_water r' (build_redis_key t c) = v)
  /\ (reachable r = true -> incr_ok r (build_redis_key t c) ->
      o = Ok (high_water r (build_redis_key t c) + 1)).
Proof.
  unfold allocate_seq, allocate_single_seq, reply_u64, incr_ok. intros Heq Hpos.
  destruct (reachable r); [|by simplify_eq].
  destruct (int_incrby r _ 1) as [[v r1]|] eqn:E; [|split; [by simplify_eq|by intros _ (? & ? & ?)]].
  apply incrby_high_water in E as [-> Hw]. rewrite decide_True in Heq by lia. simplify_eq.
  split; [|done]. intros; by simplify_eq.
Qed.

Lemma allocate_floor_value r c t f o r' :
  allocate_seq_with_floor r c t f = (o, r') -> 0 <= high_water r (build_redis_key t c) -> 0 <= f ->
  Z.max (high_water r (build_redis_key t c)) f < 2 ^ 53 ->
  (forall v, o = Ok v -> v = Z.max (high_water r (build_redis_key t c)) f + 1
                         /\ high_water r' (build_redis_key t c) = v)
  /\ (reachable r = true -> incr_ok r (build_redis_key t c) ->
      o = Ok (Z.max (high_water r (build_redis_key t c)) f + 1)).
Proof.
  unfold allocate_seq_with_floor. intros Heq Hpos Hf Hb. case_decide.
  { subst f. rewrite Z.max_l by lia. by eapply allocate_seq_value. }
  destruct (reachable r); [|by simplify_eq].
  pose proof (floor_seq_lua_exact r (build_redis_key t c) f Hpos Hf ltac:(lia)) as Hex.
  pose proof (floor_seq_lua_state r (build_redis_key t c) f) as Hst.
  destruct (floor_seq_lua r _ f) as [v r1]. simpl in Hex, Hst. subst r1.
  unfold reply_u64 in Heq. rewrite decide_True in Heq by lia. simplify_eq.
  split; [|done]. intros; simplify_eq. by rewrite high_water_set.
Qed.

(** Closing the cases of an allocation by evaluating the two primitives. *)
Lemma plain_alloc_value (s s' : IngestSeq R) t c v :
  plain_alloc s t c = (Ok v, s') -> 0 <= conv_counter s t c ->
  v = conv_counter s t c + 1 /\ conv_counter s' t c = v /\ seq_floor_state s' = seq_floor_state s.
Proof.
  unfold plain_alloc, conv_counter. destruct (allocate_seq _ c t) as [o r1] eqn:E.
  intros Heq Hpos; simplify_eq. by destruct (proj1 (allocate_seq_value _ _ _ _ _ E Hpos) v eq_refl).
Qed.

Lemma first_touch_value provider signed (s s' : IngestSeq R) now t c key v :
  0 <= conv_counter s t c ->
  (forall lookup f, provider = Some lookup -> lookup t c = LookupOk f ->
     0 <= f /\ Z.max (conv_counter s t c) f < 2 ^ 53) ->
  first_touch_floor_alloc provider signed s now t c key = (Ok v, s') ->
  conv_counter s t c < v /\ conv_counter s' t c = v.
Proof.
  intros Hpos Hf. unfold first_touch_floor_alloc.
  destruct provider as [lookup|]; [|intros [??]%plain_alloc_value; [lia|done]].
  specialize (Hf lookup). destruct (lookup t c) as [f|e|].
  - destruct (Hf f eq_refl eq_refl) as [Hf0 Hb].
    destruct (allocate_seq_with_floor _ c t f) as [o r1] eqn:E.
    destruct o as [w|]; [|done]. intros; simplify_eq. unfold conv_counter. simpl.
    destruct (proj1 (allocate_floor_value _ _ _ _ _ _ E Hpos Hf0 Hb) v eq_refl) as [-> ->].
    unfold conv_counter. lia.
  - intros Heq. destruct (is_seq_floor_tenant_conflict _ _ _);
      apply plain_alloc_value in Heq as (Hv & Hc & _); unfold conv_counter in *; simpl in *; lia.
  - intros Heq. apply plain_alloc_value in Heq as (Hv & Hc & _); unfold conv_counter in *; simpl in *; lia.
Qed.

(** Within a process a conversation's numbers only go up: every successful
    allocation, on the plain, the first-touch and the recovery path, whatever
    the storage reader answers, returns a number above the Redis counter and
    leaves the counter there. *)
Theorem ingest_seq_above_counter provider signed (s s' : IngestSeq R) now t c v :
  0 <= conv_counter s t c ->
  (forall lookup f, provider = Some lookup -> lookup t c = LookupOk f ->
     0 <= f /\ Z.max (conv_counter s t c) f + 1 < 2 ^ 53) ->
  allocate_conversation_seq provider signed s now t c = (Ok v, s') ->
  conv_counter s t c < v /\ conv_counter s' t c = v.
Proof.
  intros Hpos Hf. unfold allocate_conversation_seq. destruct (plan_seq_alloc _ _).
  - destruct (plain_alloc s t c) as [[seq|] s1] eqn:E; [|done].
    destruct (plain_alloc_value _ _ _ _ _ E Hpos) as (Hs & Hc & _).
    destruct (_ && _); [|intros; simplify_eq; lia].
    intros Hft. apply first_touch_value in Hft; [lia|lia|].
    intros lookup f Hp Hl. destruct (Hf lookup f Hp Hl). lia.
  - apply first_touch_value; [done|]. intros lookup f Hp Hl. destruct (Hf lookup f Hp Hl). lia.
Qed.

(** The first message of a conversation in a process lands above the
    persisted history: with a floor [f] from the storage reader it gets
    [max(counter, f) + 1], and the conversation is marked checked. *)
Theorem first_touch_lands_above_history lookup signed (s : IngestSeq R) now t c f :
  reachable (ing_redis s) = true -> incr_ok (ing_redis s) (build_redis_key t c) ->
  already_checked s now (floor_cache_key t c) = false ->
  lookup t c = LookupOk f -> 0 <= f -> 0 <= conv_counter s t c ->
  Z.max (conv_counter s t c) f < 2 ^ 53 ->
  exists s', allocate_conversation_seq (Some lookup) signed s now t c
             = (Ok (Z.max (conv_counter s t c) f + 1), s')
             /\ seq_floor_state s' !! floor_cache_key t c = Some Checked.
Proof.
  intros Hr Hi Hch Hl Hf Hpos Hb. unfold allocate_conversation_seq. rewrite Hch. simpl.
  unfold first_touch_floor_alloc. rewrite Hl.
  destruct (allocate_seq_with_floor _ c t f) as [o r1] eqn:E.
  rewrite (proj2 (allocate_floor_value _ _ _ _ _ _ E Hpos Hf Hb) Hr Hi).
  eexists. split; [done|]. simpl. apply lookup_insert_eq.
Qed.

(** A lost Redis counter is noticed and healed: a checked conversation whose
    counter is gone gets [max(1, f) + 1], above the persisted history, instead
    of the 1 the plain INCR returns. *)
Theorem lost_counter_is_healed lookup signed (s : IngestSeq R) now t c f :
  reachable (ing_redis s) = true -> incr_ok (ing_redis s) (build_redis_key t c) ->
  seq_floor_state s !! floor_cache_key t c = Some Checked -> conv_counter s t c = 0 ->
  lookup t c = LookupOk f -> 0 <= f -> f < 2 ^ 53 ->
  (forall r', allocate_seq (ing_redis s) c t = (Ok 1, r') ->
     reachable r' = true /\ incr_ok r' (build_redis_key t c)) ->
  exists s', allocate_conversation_seq (Some lookup) signed s now t c = (Ok (Z.max 1 f + 1), s').
Proof.
  intros Hr Hi Hst Hz Hl Hf Hb Hr'. unfold allocate_conversation_seq, already_checked.
  rewrite Hst. simpl. unfold plain_alloc, conv_counter in *.
  destruct (allocate_seq (ing_redis s) c t) as [o r1] eqn:E.
  destruct (allocate_seq_value _ _ _ _ _ E ltac:(lia)) as [Hval Hok].
  rewrite (Hok Hr Hi) in *. rewrite Hz in *. destruct (Hval _ eq_refl) as [_ Hw]. simpl in Hw.
  destruct (Hr' r1 eq_refl) as [Hr1 Hi1].
  rewrite !bool_decide_eq_true_2 by done. simpl.
  unfold first_touch_floor_alloc. rewrite Hl. simpl.
  destruct (allocate_seq_with_floor r1 c t f) as [o2 r2] eqn:E2.
  pose proof (proj2 (allocate_floor_value _ _ _ _ _ _ E2 ltac:(lia) Hf ltac:(lia)) Hr1 Hi1) as ->.
  rewrite Hw. eauto.
Qed.

(** The storage reader being down never blocks a send: on an error or a
    timeout the allocation is the plain INCR, the conversation backs off, the
    tenant-conflict counter counts exactly the refusals under another signed
    tenant, and until the back-off ends the reader is not asked again. *)
Theorem floor_lookup_failure_backs_off lookup signed (s : IngestSeq R) now now' t c a :
  already_checked s now (floor_cache_key t c) = false ->
  lookup t c = a -> (forall f, a <> LookupOk f) ->
  let '(o, s') := allocate_conversation_seq (Some lookup) signed s now t c in
  o = (plain_alloc s t c).1
  /\ seq_floor_state s' !! floor_cache_key t c = Some (FailedAt now)
  /\ floor_conflicts s' = floor_conflicts s
       + (match a with
          | LookupErr e => if is_seq_floor_tenant_conflict signed t e then 1 else 0
          | _ => 0
          end)
  /\ (now' - now < SEQ_FLOOR_FAILURE_BACKOFF ->
       plan_seq_alloc true (already_checked s' now' (floor_cache_key t c)) = PlainIncr).
Proof.
  intros Hch Hl Hnf. unfold allocate_conversation_seq. rewrite Hch. simpl.
  unfold first_touch_floor_alloc. rewrite Hl.
  destruct a as [f|e|]; [by destruct (Hnf f)|destruct (is_seq_floor_tenant_conflict _ _ _)|];
    unfold plain_alloc, already_checked; simpl;
    destruct (allocate_seq (ing_redis s) c t) as [o r1]; simpl;
    rewrite lookup_insert_eq; repeat split; try lia;
    intros Hback; by rewrite bool_decide_eq_true_2.
Qed.

(** The recovery of a lost counter is per process: once another instance
    has incremented the lost counter, a checked process takes the next number
    as it is, below the persisted history. *)
Theorem lost_counter_missed_by_second_instance lookup signed (s : IngestSeq R) now t c f :
  reachable (ing_redis s) = true -> incr_ok (ing_redis s) (build_redis_key t c) ->
  seq_floor_state s !! floor_cache_key t c = Some Checked -> conv_counter s t c = 1 ->
  lookup t c = LookupOk f -> 2 < f ->
  exists s', allocate_conversation_seq (Some lookup) signed s now t c = (Ok 2, s') /\ 2 < f.
Proof.
  intros Hr Hi Hst Hz Hl Hf. unfold allocate_conversation_seq, already_checked.
  rewrite Hst. simpl. unfold plain_alloc, conv_counter in *.
  destruct (allocate_seq (ing_redis s) c t) as [o r1] eqn:E.
  rewrite (proj2 (allocate_seq_value _ _ _ _ _ E ltac:(lia)) Hr Hi), Hz. simpl. eauto.
Qed.

End Properties.

(** ** Witnesses *)

Module IngestExample.
Definition key : string := floor_cache_key "t" "c".
Definition reader (f : Z) (t c : string) : FloorLookup := LookupOk f.
Definition down (t c : string) : FloorLookup := LookupErr (flare_err PermissionDenied "no").
Definition fresh : IngestSeq SimRedis := mkIngest (int_set sim_empty "seq:t:c" 5) ∅ 0.
Definition flushed : IngestSeq SimRedis := mkIngest sim_empty {[key := Checked]} 0.
Definition flushed_once : IngestSeq SimRedis :=
  mkIngest (int_set sim_empty "seq:t:c" 1) {[key := Checked]} 0.
End IngestExample.
Import IngestExample.

Lemma ingest_seq_above_counter_witness :
  let s' := (allocate_conversation_seq (Some (reader 76)) None fresh 0 "t" "c").2 in
  conv_counter fresh "t" "c" < 77 /\ conv_counter s' "t" "c" = 77.
Proof.
  refine (ingest_seq_above_counter (Some (reader 76)) None fresh _ 0 "t" "c" 77 _ _ _).
  - vm_compute. discriminate.
  - intros lookup f Hp Hl. injection Hp as <-. injection Hl as <-. split; [lia|]. vm_compute. reflexivity.
  - vm_compute. reflexivity.
Defined.

Lemma first_touch_lands_above_history_witness :
  exists s', allocate_conversation_seq (Some (reader 76)) None fresh 0 "t" "c" = (Ok 77, s')
             /\ seq_floor_state s' !! key = Some Checked.
Proof.
  refine (first_touch_lands_above_history (reader 76) None fresh 0 "t" "c" 76 _ _ _ _ _ _ _);
    [reflexivity|vm_compute; eauto|reflexivity|reflexivity|lia|vm_compute; discriminate|vm_compute; reflexivity].
Defined.

Lemma lost_counter_is_healed_witness :
  exists s', allocate_conversation_seq (Some (reader 76)) None flushed 0 "t" "c" = (Ok 77, s').
Proof.
  refine (lost_counter_is_healed (reader 76) None flushed 0 "t" "c" 76 _ _ _ _ _ _ _ _);
    [reflexivity|vm_compute; eauto|reflexivity|reflexivity|reflexivity|lia|lia|].
  intros r' E. vm_compute in E. injection E as <-. split; [reflexivity|vm_compute; eauto].
Defined.

Lemma floor_lookup_failure_backs_off_witness :
  let '(o, s') := allocate_conversation_seq (Some down) (Some "other") fresh 0 "t" "c" in
  o = (plain_alloc fresh "t" "c").1 /\ seq_floor_state s' !! key = Some (FailedAt 0)
  /\ floor_conflicts s' = floor_conflicts fresh + 1
  /\ (1000 - 0 < SEQ_FLOOR_FAILURE_BACKOFF ->
       plan_seq_alloc true (already_checked s' 1000 key) = PlainIncr).
Proof.
  refine (floor_lookup_failure_backs_off down (Some "other") fresh 0 1000 "t" "c" _ _ eq_refl _);
    [reflexivity|discriminate].
Defined.

Lemma lost_counter_missed_by_second_instance_witness :
  exists s', allocate_conversation_seq (Some (reader 76)) None flushed_once 0 "t" "c" = (Ok 2, s') /\ 2 < 76.
Proof.
  refine (lost_counter_missed_by_second_instance (reader 76) None flushed_once 0 "t" "c" 76 _ _ _ _ _ _);
    [reflexivity|vm_compute; eauto|reflexivity|reflexivity|reflexivity|lia].
Defined.
