(* ===== verification/Proto.v ===== *)
(** * Messages and events on the wire

    The protocol messages the modelled services read and write. The protocol
    crate is generated and not part of the repository; the message record is the
    one crates/flare-im-contracts/src/message/convert.rs converts field by field,
    the events those flare-orchestrator/src/domain/builder/event_builder.rs
    builds. An enum-typed field is an [i32] on the wire: a code the enum does not
    define is [None] here. *)

From S2P Require Import Prelude.
From stdpp Require Import base gmap strings list.
From Stdlib Require Import ZArith.

Definition wire (E : Type) : Type := option E.

(** ** Message content *)

Record AppCardContent := mkAppCard {
  app_id : string;
  card_type : string;
  payload_schema : string;
  title : string;
  summary : string;
  payload : string;
  subtitle : string;
  thumbnail_url : string;
  actions : list string;
  card_attributes : gmap string string;
}.

(** A mention: whether it is of everybody ([MentionType::All]), and whom it names. *)
Record Mention := mkMention {
  mention_all : bool;
  mention_user_id : string;
  mention_user_ids : list string;
}.

Record NotificationContent := mkNotice {
  persistent : bool;
  notice_title : string;
  notice_body : string;
  show_in_list : bool;
  show_badge : bool;
  play_sound : bool;
}.

(** [message_content::Content]: the variants the services match on, with the
    fields they read. *)
Inductive Content :=
  | Text (text : string) (mentions : list Mention)
  | RichText
  | Image
  | Video
  | Audio
  | File
  | Location
  | Card
  | Sticker
  | Emoji
  (** [quote.current_content]: a [MessageContent], itself an optional content *)
  | Quote (current_content : option (option Content))
  | LinkCard
  | Forward
  | Thread
  | AppCard (card : AppCardContent)
  | ImageGroup
  | System (event_kind : string)
  | Notification (notice : NotificationContent)
  | Custom (type_ : string)
  | Placeholder.

Definition MessageContent : Type := option Content.

(** ** Retention *)

Inductive RetentionMode := ModeUnspecified | ModeNone | ModeAfterRead.
Inductive RetentionTrigger := TriggerUnspecified | TriggerAfterRead.
Inductive ContentVisibility := VisUnspecified | Available | Hidden | Redacted | VisPurged.
Inductive MessageRetentionLifecycle :=
  LifeUnspecified | LifeNone | Active | Scheduled | Expired | Purged.

Record MessageRetentionPolicy := mkRetentionPolicy {
  mode : wire RetentionMode;
  trigger : wire RetentionTrigger;
  expire_after_seconds : option Z;
  policy_expire_at : option Z;
  visibility_after_expiration : wire ContentVisibility;
  policy_attributes : gmap string string;
}.

Record MessageRetentionState := mkRetentionState {
  lifecycle : wire MessageRetentionLifecycle;
  visibility : wire ContentVisibility;
  first_triggered_at : option Z;
  expire_at : option Z;
  expired_at : option Z;
  purged_at : option Z;
  triggered_by_user_id : option string;
}.

(** ** Messages *)

Inductive MessageStatus :=
  StatusUnspecified | Created | Sent | Persisted | Failed | Recalled | Deleted.
Inductive MessageSource := SrcUnspecified | SrcUser | SrcSystem | SrcBot | SrcAdmin.
(** [MessageType]: the types the services name, and the code of any other. *)
Inductive MessageType :=
  | TypeUnspecified | TypeText | TypeImage | TypeVideo | TypeAudio | TypeFile | TypeLocation
  | TypeCard | TypeCustom | TypeSticker | TypeEmoji | TypeSystem | TypeNotification | TypeForward
  | TypeLinkCard | TypeAppCard | TypeRichText | TypeImageGroup | TypeQuote | TypePlaceholder
  | TypeOther (code : Z).

#[export] Instance MessageStatus_eq_dec : EqDecision MessageStatus.
Proof. solve_decision. Defined.
#[export] Instance MessageSource_eq_dec : EqDecision MessageSource.
Proof. solve_decision. Defined.
#[export] Instance MessageType_eq_dec : EqDecision MessageType.
Proof. solve_decision. Defined.
#[export] Instance ContentVisibility_eq_dec : EqDecision ContentVisibility.
Proof. solve_decision. Defined.
#[export] Instance Lifecycle_eq_dec : EqDecision MessageRetentionLifecycle.
Proof. solve_decision. Defined.

Record Message := mkMessage {
  server_id : string;
  conversation_id : string;
  client_msg_id : string;
  sender_id : string;
  source : wire MessageSource;
  conversation_seq : Z;
  created_at : Z;
  conversation_type : Z;
  message_type : MessageType;
  message_seq : option Z;
  channel_id : string;
  sender_name : string;
  sender_avatar : string;
  thread_id : option string;
  content : option MessageContent;
  status : wire MessageStatus;
  retention_policy : option MessageRetentionPolicy;
  retention_state : option MessageRetentionState;
  offline_push_info : option string;
  attributes : gmap string string;
  extensions : gmap string string;
}.

(** [Message::default()], addressed. *)
Definition plain_message (server_id conversation_id sender_id : string) : Message :=
  mkMessage server_id conversation_id "" sender_id (Some SrcUnspecified) 0 0 0 TypeUnspecified None
    "" "" "" None None (Some StatusUnspecified) None None None ∅ ∅.

(** ** Events *)

Inductive EventType :=
  | EtUnspecified | EventMessage | EventMessageRecall | EventMessageEdit | EventMessageDelete
  | EventReadReceipt | EventConversationUpdate | EventConversationDelete | EventReaction
  | EventPin | EventUnpin | EventMark | EventUnmark | EventMessageRetentionScheduled
  | EventMessageRetentionExpired | EventMessageRetentionPurged | EventCustom
  | EventMessagePluginState.

#[export] Instance EventType_eq_dec : EqDecision EventType.
Proof. solve_decision. Defined.

(** The values of [DeleteType] and [DeleteScope]. *)
Inductive DeleteType := DelUnspecified | Soft | Hard.
Inductive DeleteScope := ScopeUnspecified | UserPrivate | ConversationGlobal.

#[export] Instance DeleteType_eq_dec : EqDecision DeleteType.
Proof. solve_decision. Defined.
#[export] Instance DeleteScope_eq_dec : EqDecision DeleteScope.
Proof. solve_decision. Defined.

Record MessageRecallEvent := mkRecall {
  recall_server_msg_id : string;
  recall_reason : string;
  time_limit_seconds : option Z;
  allow_admin_recall : option bool;
}.

Record MessageEditEvent := mkEdit {
  edit_server_msg_id : string;
  new_content : option MessageContent;
  edit_reason : string;
  show_edited_mark : bool;
}.

Record MessageDeleteEvent := mkDelete {
  delete_server_msg_id : string;
  delete_type : option (wire DeleteType);
  delete_scope : option (wire DeleteScope);
  target_user_id : option string;
}.

Record ReadReceiptEvent := mkRead {
  read_conversation_id : string;
  read_seq : Z;
  read_user_id : string;
  message_ids : list string;
  read_at : option Z;
}.

Record CustomEvent := mkCustom {
  namespace : string;
  name : string;
  custom_attributes : gmap string string;
}.

Record PluginStateEvent := mkPluginState {
  state_server_msg_id : string;
  plugin_id : string;
  entity : string;
  version : Z;
  values_json : string;
}.

(** [event::Payload] *)
Inductive Payload :=
  | PMessage (server_msg_id : string)
  | PRecall (recall : MessageRecallEvent)
  | PEdit (edit : MessageEditEvent)
  | PDelete (delete : MessageDeleteEvent)
  | PRead (read : ReadReceiptEvent)
  | PReaction (server_msg_id user_id emoji : string)
  | PPin (server_msg_id pinned_by : string)
  | PUnpin (server_msg_id unpinned_by : string)
  | PMark (server_msg_id user_id : string)
  | PUnmark (server_msg_id user_id : string)
  | PCustom (custom : CustomEvent)
  | PConversation
  | PConversationDelete
  | PRetentionScheduled
  | PRetentionExpired
  | PRetentionPurged
  | PPluginState (state : PluginStateEvent).

Record Event := mkEvent {
  ev_conversation_id : string;
  ev_conversation_seq : Z;
  ev_type : wire EventType;
  ev_created_at : Z;
  event_id : string;
  ev_request_id : option string;
  ev_payload : option Payload;
}.

Definition with_payload (e : Event) (p : Payload) : Event :=
  mkEvent (ev_conversation_id e) (ev_conversation_seq e) (ev_type e) (ev_created_at e)
    (event_id e) (ev_request_id e) (Some p).

Definition with_seq (e : Event) (seq : Z) : Event :=
  mkEvent (ev_conversation_id e) seq (ev_type e) (ev_created_at e)
    (event_id e) (ev_request_id e) (ev_payload e).

(** ** Request contexts *)

Inductive SignedActorType := ActUser | ActTenantAdmin | ActSystem | ActService | ActStaff | ActGuest.
Inductive ActorType := CtxUser | CtxGuest | CtxService | CtxTenantAdmin | CtxStaff | CtxSystem | CtxUnspecified.

#[export] Instance SignedActorType_eq_dec : EqDecision SignedActorType.
Proof. solve_decision. Defined.

(** The claims of a verified [x-flare-ctx] context the services read. *)
Record SignedContextClaims := mkClaims {
  kid : string;
  actor_type : SignedActorType;
  actor_id : string;
  claims_tenant_id : string;
  roles : list string;
  credential_id : option string;
  request_id : string;
}.

(** [Ctx]: the claims of a signed context, and the legacy metadata. *)
Record Ctx := mkCtx {
  ctx_claims : option SignedContextClaims;
  ctx_user_id : option string;
  ctx_actor : option (ActorType * string);
  ctx_tenant_id : option string;
  ctx_device_id : option string;
}.
