(* ===== verification/Tenant.v ===== *)
(** * Tenant ids

    crates/flare-im-contracts: the canonical form of a tenant id
    (src/utils/mod.rs) and the ids the data plane accepts
    (src/domain/tenant.rs), with the runtime projection of a tenant the gates read
    (crates/flare-im-service-kit/src/tenant_runtime.rs). *)

From S2P Require Import Prelude.
From stdpp Require Import base strings list.
From Stdlib Require Import Lia ZArith Ascii.

Local Open Scope Z_scope.

(** [normalize_tenant_id] *)
Definition normalize_tenant_id (t : string) : string :=
  let t := Str.trim t in
  if bool_decide (t = "") || bool_decide (t = "default") then "0" else t.

(** [normalize_optional_tenant_id] *)
Definition normalize_optional_tenant_id (t : option string) : option string :=
  match t with
  | Some t => let t := Str.trim t in if Str.is_empty t then None else Some (normalize_tenant_id t)
  | None => None
  end.


Definition is_tenant_char (c : ascii) : bool :=
  let n := N_of_ascii c in
  ((48 <=? n)%N && (n <=? 57)%N) || ((65 <=? n)%N && (n <=? 90)%N)
  || ((97 <=? n)%N && (n <=? 122)%N) || (n =? 95)%N || (n =? 45)%N.

(** [is_valid_tenant_id] *)
Definition is_valid_tenant_id (t : string) : bool :=
  negb (Str.is_empty t) && (String.length t <=? 32)%nat && Str.all_chars is_tenant_char t.

Lemma valid_tenant_no_colon t : is_valid_tenant_id t = true -> Str.contains_char ":"%char t = false.
Proof.
  unfold is_valid_tenant_id. intros [_ H]%andb_true_iff.
  by apply (Str.all_chars_no_sep is_tenant_char).
Qed.

(** ** The runtime projection *)

Inductive TenantStatus := TenantActive | TenantSuspended | TenantDeleting.

(** [TenantCoreQuota]; zero is no limit. *)
Record TenantCoreQuota := mkQuota {
  send_qps : Z;
  sync_pull_qps : Z;
  max_online_devices_per_user : Z;
}.

(** Of a tenant's snapshot the fields the gates read. *)
Record TenantRuntimeSnapshot := mkSnapshot { tenant_status : TenantStatus; core : TenantCoreQuota }.

Inductive TenantLookup := Known (s : TenantRuntimeSnapshot) | Unknown | Unavailable.
Inductive TenantAccessPolicy := Lenient | Strict.

(** [TenantLookup::admits_connection] *)
Definition admits_connection (l : TenantLookup) (policy : TenantAccessPolicy) : bool :=
  match l with
  | Known s => match tenant_status s with TenantActive => true | _ => false end
  | Unknown | Unavailable => match policy with Lenient => true | Strict => false end
  end.

(** [TenantLookup::core_quota] *)
Definition core_quota (l : TenantLookup) : TenantCoreQuota :=
  match l with Known s => core s | _ => mkQuota 0 0 0 end.
