(* ===== verification/RateLimit.v ===== *)
(** * Send rate limiting at ingest

    flare-message-ingest/src/application/handlers/send_rate_limiter.rs: a
    fixed-window counter per tenant, per (tenant, sender) and per (tenant,
    conversation), with a bounded table of counters. *)

From S2P Require Import Prelude Proto.
From stdpp Require Import base gmap strings list sorting.
From Stdlib Require Import Lia ZArith Ascii.

Local Open Scope Z_scope.

Definition DEFAULT_WINDOW_MS : Z := 1000.
Definition DEFAULT_MAX_TRACKED_KEYS : nat := 200000.
Definition MIN_MAX_TRACKED_KEYS : nat := 1024.

Record SendRateLimitConfig := mkRate {
  enabled : bool;
  tenant_per_second : Z;
  tenant_sender_per_second : Z;
  tenant_conversation_per_second : Z;
  window_ms : Z;
  max_tracked_keys : nat;
}.

Definition is_effective (c : SendRateLimitConfig) : bool :=
  enabled c
  && (bool_decide (0 < tenant_per_second c)
      || bool_decide (0 < tenant_sender_per_second c)
      || bool_decide (0 < tenant_conversation_per_second c)).

Definition normalized (c : SendRateLimitConfig) : SendRateLimitConfig :=
  let w := if decide (window_ms c = 0) then DEFAULT_WINDOW_MS else window_ms c in
  let m := if decide (max_tracked_keys c = 0%nat) then DEFAULT_MAX_TRACKED_KEYS
           else max_tracked_keys c in
  mkRate (enabled c) (tenant_per_second c) (tenant_sender_per_second c)
    (tenant_conversation_per_second c) w (Nat.max m MIN_MAX_TRACKED_KEYS).

Record WindowCounter := mkCounter { window_start_ms : Z; count : Z }.

Inductive RateLimitScope := ScopeTenant | ScopeTenantSender | ScopeTenantConversation.

Definition scope_label (s : RateLimitScope) : string :=
  match s with
  | ScopeTenant => "tenant"
  | ScopeTenantSender => "tenant_sender"
  | ScopeTenantConversation => "tenant_conversation"
  end.

Record RateLimitCheck := mkCheck {
  check_key : string;
  check_scope : RateLimitScope;
  check_limit : Z;
}.

Definition non_empty_or (value fallback : string) : string :=
  let trimmed := Str.trim value in
  if Str.is_empty trimmed then fallback else trimmed.

Definition rate_limit_error (scope : RateLimitScope) (limit window_ms : Z) : FlareError :=
  mkError MessageRateLimitExceeded "message send rate limit exceeded" None
    [("scope", scope_label scope); ("limit_per_window", Str.of_Z limit);
     ("window_ms", Str.of_Z window_ms)].

(** [build_checks] *)
Definition build_checks (c : SendRateLimitConfig) (tenant_id : string) (tenant_send_qps : Z)
    (message : Message) : list RateLimitCheck :=
  if negb (enabled c) then []
  else
    let tenant := non_empty_or tenant_id "0" in
    let sender := non_empty_or (sender_id message) "_" in
    let conversation := non_empty_or (conversation_id message) "_" in
    let tenant_limit :=
      if decide (0 < tenant_send_qps) then tenant_send_qps else tenant_per_second c in
    (if decide (0 < tenant_limit)
     then [mkCheck ("tenant:" +:+ tenant) ScopeTenant tenant_limit] else [])
    ++ (if decide (0 < tenant_sender_per_second c)
        then [mkCheck ("tenant_sender:" +:+ tenant +:+ ":" +:+ sender) ScopeTenantSender
                (tenant_sender_per_second c)] else [])
    ++ (if decide (0 < tenant_conversation_per_second c)
        then [mkCheck ("tenant_conversation:" +:+ tenant +:+ ":" +:+ conversation)
                ScopeTenantConversation (tenant_conversation_per_second c)] else []).

Section Limiter.
(** The iteration order of the hash map's keys. *)
Context (keys_order : gmap string WindowCounter -> list string).

(** [retain]: the counters of the two last windows *)
Definition retain_live (state : gmap string WindowCounter) (oldest_live_window : Z)
    : gmap string WindowCounter :=
  filter (fun kv => oldest_live_window <= window_start_ms kv.2) state.

(** [trim_state] *)
Definition trim_state (state : gmap string WindowCounter) (now_ms window_ms : Z)
    (max_tracked_keys : nat) : gmap string WindowCounter :=
  if decide (size state <= max_tracked_keys)%nat then state
  else
    let oldest_live_window := sat_sub now_ms (Z.min (window_ms * 2) u64_max) in
    let live := retain_live state oldest_live_window in
    if decide (size live <= max_tracked_keys)%nat then live
    else
      let remove_count := (size live - max_tracked_keys)%nat in
      foldr delete live (take remove_count (keys_order live)).

(** The count of a key in the window that starts at [w]. *)
Definition current_count (state : gmap string WindowCounter) (w : Z) (key : string) : Z :=
  match state !! key with
  | Some counter => if decide (window_start_ms counter = w) then count counter else 0
  | None => 0
  end.

(** The first pass: the first scope at its limit rejects. *)
Fixpoint first_exceeded (state : gmap string WindowCounter) (w : Z) (checks : list RateLimitCheck)
    : option RateLimitCheck :=
  match checks with
  | [] => None
  | c :: checks =>
      if decide (check_limit c <= current_count state w (check_key c)) then Some c
      else first_exceeded state w checks
  end.

(** The second pass: count the request in every scope. *)
Definition bump (w : Z) (state : gmap string WindowCounter) (check : RateLimitCheck)
    : gmap string WindowCounter :=
  let counter := default (mkCounter w 0) (state !! check_key check) in
  let counter := if decide (window_start_ms counter <> w) then mkCounter w 0 else counter in
  <[check_key check := mkCounter (window_start_ms counter) (u32_add (count counter) 1)]> state.

Definition window_start (now_ms window_ms : Z) : Z := now_ms / window_ms * window_ms.

(** [check_at_millis] *)
Definition check_at_millis (c : SendRateLimitConfig) (state : gmap string WindowCounter)
    (now_ms : Z) (tenant_id : string) (tenant_send_qps : Z) (message : Message)
    : result unit * gmap string WindowCounter :=
  let checks := build_checks c tenant_id tenant_send_qps message in
  match checks with
  | [] => (Ok tt, state)
  | _ =>
      let w_ms := Z.max (window_ms c) 1 in
      let w := window_start now_ms w_ms in
      let state := trim_state state now_ms w_ms (max_tracked_keys c) in
      match first_exceeded state w checks with
      | Some check => (Err (rate_limit_error (check_scope check) (check_limit check) w_ms), state)
      | None =>
          let state := foldl (bump w) state checks in
          (Ok tt, trim_state state now_ms w_ms (max_tracked_keys c))
      end
  end.

(** [check] *)
Definition check (c : SendRateLimitConfig) (state : gmap string WindowCounter)
    (now_ms : Z) (tenant_id : string) (tenant_send_qps : Z) (message : Message)
    : result unit * gmap string WindowCounter :=
  if negb (enabled c) then (Ok tt, state)
  else if negb (is_effective c) && bool_decide (tenant_send_qps = 0) then (Ok tt, state)
  else check_at_millis c state now_ms tenant_id tenant_send_qps message.

End Limiter.

(** ** Counters after the second pass *)

Lemma bump_lookup_ne w state c k : k <> check_key c -> bump w state c !! k = state !! k.
Proof. intros Hne. unfold bump. by rewrite lookup_insert_ne. Qed.

Lemma bump_count w state c :
  current_count (bump w state c) w (check_key c)
  = u32_add (current_count state w (check_key c)) 1.
Proof.
  unfold current_count, bump. rewrite lookup_insert_eq. simpl.
  destruct (state !! check_key c) as [[s n]|]; simpl; repeat (case_decide; simpl); done.
Qed.

Lemma bump_window w state c :
  window_start_ms <$> bump w state c !! check_key c = Some w.
Proof.
  unfold bump. rewrite lookup_insert_eq. simpl.
  destruct (state !! check_key c) as [[s n]|]; simpl; repeat (case_decide; simpl); congruence.
Qed.

Lemma foldl_bump_ne w checks state k :
  k ∉ check_key <$> checks -> foldl (bump w) state checks !! k = state !! k.
Proof.
  revert state. induction checks as [|c checks IH]; intros state Hk; [done|].
  simpl in *. apply not_elem_of_cons in Hk as [Hne Hk].
  rewrite IH by done. by apply bump_lookup_ne.
Qed.

Lemma current_count_lookup state state' w k :
  state' !! k = state !! k -> current_count state' w k = current_count state w k.
Proof. unfold current_count. by intros ->. Qed.

(** Every counted key goes up by one, once, in the current window. *)
Lemma foldl_bump_in w checks state k :
  NoDup (check_key <$> checks) -> k ∈ check_key <$> checks ->
  current_count (foldl (bump w) state checks) w k = u32_add (current_count state w k) 1
  /\ window_start_ms <$> foldl (bump w) state checks !! k = Some w.
Proof.
  revert state. induction checks as [|c checks IH]; intros state Hnd Hk; [by apply elem_of_nil in Hk|].
  simpl in *. apply NoDup_cons in Hnd as [Hc Hnd].
  apply elem_of_cons in Hk as [-> |Hk].
  - pose proof (foldl_bump_ne w checks (bump w state c) _ Hc) as Hl.
    rewrite (current_count_lookup _ _ w _ Hl), Hl. split; [apply bump_count|apply bump_window].
  - destruct (IH (bump w state c) Hnd Hk) as [-> ->]. split; [|done].
    f_equal. apply current_count_lookup, bump_lookup_ne. by intros ->.
Qed.

Lemma first_exceeded_none state w checks :
  first_exceeded state w checks = None <->
  Forall (fun c => current_count state w (check_key c) < check_limit c) checks.
Proof.
  induction checks as [|c checks IH]; simpl; [split; [constructor|done]|].
  rewrite Forall_cons. case_decide; [split; [done|lia]|]. rewrite IH. intuition lia.
Qed.

Lemma build_checks_nodup c t q m : NoDup (check_key <$> build_checks c t q m).
Proof.
  unfold build_checks. destruct (negb (enabled c)); [constructor|].
  repeat case_decide; simpl; repeat constructor;
    rewrite ?elem_of_cons, ?elem_of_nil; naive_solver.
Qed.

Lemma foldl_bump_dom w checks state (ks : gset string) :
  dom state ⊆ ks -> (forall k, k ∈ check_key <$> checks -> k ∈ ks) ->
  dom (foldl (bump w) state checks) ⊆ ks.
Proof.
  revert state. induction checks as [|c checks IH]; intros state Hd Hk; [done|].
  simpl in *. apply IH; [|set_solver]. unfold bump. rewrite dom_insert_L. set_solver.
Qed.

(** ** Trimming *)

Section Trim.
Context (keys_order : gmap string WindowCounter -> list string).

Lemma trim_state_small state now w max :
  (size state <= max)%nat -> trim_state keys_order state now w max = state.
Proof. intros Hs. unfold trim_state. by rewrite decide_True. Qed.

Lemma trim_state_subseteq state now w max : trim_state keys_order state now w max ⊆ state.
Proof.
  unfold trim_state. case_decide; [done|].
  set (live := retain_live _ _).
  assert (live ⊆ state) as Hf by apply map_filter_subseteq.
  case_decide; [done|]. etrans; [|exact Hf].
  generalize (take (size live - max) (keys_order live)) as ks.
  intros ks. induction ks as [|k ks IH]; simpl; [done|].
  etrans; [apply delete_subseteq|done].
Qed.

(** What the code relies on of a hash map: its key iterator yields every key
    once. *)
Hypothesis keys_order_perm : forall m, keys_order m ≡ₚ (map_to_list m).*1.

Lemma foldr_delete_size (m : gmap string WindowCounter) ks :
  NoDup ks -> (forall k, k ∈ ks -> k ∈ dom m) ->
  (size (foldr delete m ks) = size m - length ks)%nat.
Proof.
  induction ks as [|k ks IH]; intros Hnd Hin; simpl; [lia|].
  apply NoDup_cons in Hnd as [Hk Hnd].
  assert (is_Some (foldr delete m ks !! k)) as Hs.
  { assert (is_Some (m !! k)) as Hs by (apply elem_of_dom, Hin; by left).
    clear -Hk Hs. induction ks as [|j ks IH]; [done|]. simpl.
    apply not_elem_of_cons in Hk as [Hne Hk].
    rewrite lookup_delete_ne by done. by apply IH. }
  rewrite map_size_delete. destruct Hs as [v ->].
  rewrite IH; [lia|done|]. intros j Hj. apply Hin. by right.
Qed.

Lemma trim_state_size state now w max :
  (size (trim_state keys_order state now w max) <= max)%nat.
Proof.
  unfold trim_state. case_decide; [done|].
  set (live := retain_live _ _). case_decide; [done|].
  pose proof (keys_order_perm live) as Hp.
  assert (length (keys_order live) = size live) as Hlen.
  { rewrite Hp. rewrite length_fmap. apply length_map_to_list. }
  rewrite foldr_delete_size.
  - rewrite length_take. lia.
  - eapply sublist_NoDup; [|apply sublist_take]. rewrite Hp. apply NoDup_fst_map_to_list.
  - intros k Hk. assert (k ∈ keys_order live) as Hk' by (apply list_elem_of_lookup in Hk as [i Hi]; apply lookup_take_Some in Hi as [Hi _]; by eapply list_elem_of_lookup_2).
    rewrite Hp in Hk'. apply list_elem_of_fmap in Hk' as ([k' v] & -> & Hkv).
    apply elem_of_map_to_list in Hkv. apply elem_of_dom. by exists v.
Qed.

End Trim.

(** ** A history of requests *)

Record request := mkRequest {
  req_now : Z;
  req_tenant : string;
  req_qps : Z;
  req_message : Message;
}.

Section History.
Context (keys_order : gmap string WindowCounter -> list string).
Context (c : SendRateLimitConfig).

Definition req_checks (q : request) : list RateLimitCheck :=
  build_checks c (req_tenant q) (req_qps q) (req_message q).

Definition req_window (q : request) : Z := window_start (req_now q) (Z.max (window_ms c) 1).

Definition handle (state : gmap string WindowCounter) (q : request)
    : result unit * gmap string WindowCounter :=
  check_at_millis keys_order c state (req_now q) (req_tenant q) (req_qps q) (req_message q).

(** The accepted requests of window [w] that are counted under [key]. *)
Fixpoint accepted_in (w : Z) (key : string) (state : gmap string WindowCounter)
    (qs : list request) : Z :=
  match qs with
  | [] => 0
  | q :: qs =>
      let '(o, state') := handle state q in
      (if is_ok o && bool_decide (req_window q = w) && bool_decide (key ∈ check_key <$> req_checks q)
       then 1 else 0)
      + accepted_in w key state' qs
  end.

(** At most [max_tracked_keys] keys ever occur, so nothing is evicted. *)
Definition fits (ks : gset string) (state : gmap string WindowCounter) : Prop :=
  dom state ⊆ ks /\ (size ks <= max_tracked_keys c)%nat.

Lemma fits_size ks state : fits ks state -> (size state <= max_tracked_keys c)%nat.
Proof.
  intros [Hd Hs]. rewrite <- (size_dom (D := gset string)). etrans; [by apply subseteq_size|done].
Qed.

(** One request while the table has room: accepted exactly when every scope is
    below its limit, then counted once in each; rejected without a trace. *)
Lemma handle_fits ks state q :
  fits ks state -> (forall k, k ∈ check_key <$> req_checks q -> k ∈ ks) ->
  handle state q =
    match first_exceeded state (req_window q) (req_checks q) with
    | Some ch => (Err (rate_limit_error (check_scope ch) (check_limit ch) (Z.max (window_ms c) 1)), state)
    | None => (Ok tt, foldl (bump (req_window q)) state (req_checks q))
    end.
Proof.
  intros Hfit Hks. unfold handle, check_at_millis. fold (req_checks q).
  destruct (req_checks q) as [|ch chs] eqn:Echs; [done|].
  rewrite trim_state_small by (by eapply fits_size). fold (req_window q).
  destruct (first_exceeded _ _ _); [done|].
  rewrite trim_state_small; [done|]. eapply (fits_size ks).
  destruct Hfit as [Hd Hs]. split; [|done]. by apply foldl_bump_dom.
Qed.

Lemma handle_fits_dom ks state q o state' :
  fits ks state -> (forall k, k ∈ check_key <$> req_checks q -> k ∈ ks) ->
  handle state q = (o, state') -> fits ks state'.
Proof.
  intros Hfit Hks. rewrite (handle_fits ks) by done.
  destruct (first_exceeded _ _ _); intros; simplify_eq; [done|].
  destruct Hfit as [Hd Hs]. split; [|done]. by apply foldl_bump_dom.
Qed.

Definition window_at_most (state : gmap string WindowCounter) (key : string) (w : Z) : Prop :=
  forall counter, state !! key = Some counter -> window_start_ms counter <= w.

Lemma accepted_in_past w key qs state :
  Forall (fun q => w < req_window q) qs -> accepted_in w key state qs = 0.
Proof.
  revert state. induction qs as [|q qs IH]; intros state Hall; [done|].
  apply Forall_cons in Hall as [Hq Hall]. simpl. destruct (handle state q) as [o state'].
  rewrite (bool_decide_eq_false_2 (req_window q = w)) by lia.
  rewrite andb_false_r. simpl. rewrite IH by done. done.
Qed.

(** What one request does to the count of [key] in window [w]. *)
Lemma handle_count ks w key limit state q o state' :
  fits ks state -> (forall k, k ∈ check_key <$> req_checks q -> k ∈ ks) ->
  window_at_most state key (req_window q) -> limit <= u32_max ->
  Forall (fun ch => check_key ch = key -> check_limit ch <= limit) (req_checks q) ->
  handle state q = (o, state') -> req_window q <= w -> current_count state w key <= limit ->
  window_at_most state' key (req_window q)
  /\ current_count state' w key <= limit
  /\ current_count state w key
     + (if is_ok o && bool_decide (req_window q = w) && bool_decide (key ∈ check_key <$> req_checks q)
        then 1 else 0)
     <= current_count state' w key.
Proof.
  intros Hfit Hks Hwin Hlim Hall. rewrite (handle_fits ks) by done.
  destruct (first_exceeded _ _ _) as [ch|] eqn:Ef; intros Heq Hw Hcur; simplify_eq; simpl; [split; [done|lia]|].
  destruct (bool_decide (key ∈ _)) eqn:Hin.
  - apply bool_decide_eq_true in Hin.
    destruct (foldl_bump_in (req_window q) _ state key (build_checks_nodup _ _ _ _) Hin) as [Hc Hws].
    fold (req_checks q) in Hc, Hws.
    split; [intros counter Hcn; rewrite Hcn in Hws; simpl in Hws; simplify_eq; lia|].
    destruct (decide (req_window q = w)) as [<-|Hne].
    + rewrite Hc, bool_decide_eq_true_2 by done. simpl.
      apply first_exceeded_none in Ef. apply list_elem_of_fmap in Hin as (ch & -> & Hch).
      rewrite Forall_forall in Ef, Hall. specialize (Ef _ Hch). specialize (Hall _ Hch eq_refl).
      simpl in Ef. rewrite sat_add_small by lia. lia.
    + rewrite bool_decide_eq_false_2 by done. simpl.
      assert (current_count state w key = 0 /\
              current_count (foldl (bump (req_window q)) state (req_checks q)) w key = 0) as [Hz1 Hz2]; [|lia].
      unfold current_count. split.
      * destruct (state !! key) as [cn|] eqn:Hcn; [|done]. specialize (Hwin cn Hcn).
        rewrite decide_False; [done|lia].
      * destruct (_ !! key) as [cn|]; [|done]. injection Hws as Hws.
        rewrite decide_False; [done|congruence].
  - apply bool_decide_eq_false in Hin. rewrite andb_false_r.
    pose proof (foldl_bump_ne (req_window q) _ state key Hin) as Hl.
    rewrite (current_count_lookup _ _ _ _ Hl). unfold window_at_most. rewrite Hl. split; [done|lia].
Qed.

Lemma accepted_bound ks w key limit qs state :
  fits ks state -> Forall (fun q => forall k, k ∈ check_key <$> req_checks q -> k ∈ ks) qs ->
  Forall (fun q => Forall (fun ch => check_key ch = key -> check_limit ch <= limit) (req_checks q)) qs ->
  limit <= u32_max ->
  StronglySorted (fun p q => req_window p <= req_window q) qs ->
  Forall (fun q => window_at_most state key (req_window q)) qs ->
  current_count state w key <= limit ->
  current_count state w key + accepted_in w key state qs <= limit.
Proof.
  intros Hfit Hks Hlims Hlim Hsort. revert state Hfit.
  induction Hsort as [|q qs Hsort IH Hle]; intros state Hfit Hwin Hcur; simpl; [lia|].
  apply Forall_cons in Hks as [Hk Hks]. apply Forall_cons in Hlims as [Hl Hlims].
  apply Forall_cons in Hwin as [Hw Hwin].
  destruct (decide (w < req_window q)) as [Hgt|Hle'].
  { destruct (handle state q) as [o state'].
    rewrite (bool_decide_eq_false_2 (req_window q = w)) by lia. rewrite andb_false_r. simpl.
    rewrite accepted_in_past; [lia|]. eapply Forall_impl; [exact Hle|]. intros p Hp. simpl in Hp. lia. }
  destruct (handle state q) as [o state'] eqn:E.
  destruct (handle_count ks w key limit state q o state') as (Hw' & Hc' & Hb); [done..|lia|done|].
  specialize (IH Hks Hlims state' ltac:(by eapply handle_fits_dom)).
  specialize (IH ltac:(eapply Forall_impl; [exact Hle|]; intros p Hp cn Hcn; specialize (Hw' cn Hcn); simpl in Hp; lia) Hc').
  lia.
Qed.

(** C36. The quota holds: over any history of requests with a clock that does not
    run back, the requests accepted in one window and counted under one key
    (a tenant, a tenant's sender or a tenant's conversation) never exceed the
    limit of that key, as long as the keys in play fit the table. *)
Theorem accepted_never_exceed_limit (ks : gset string) w key limit qs :
  (size ks <= max_tracked_keys c)%nat ->
  Forall (fun q => forall k, k ∈ check_key <$> req_checks q -> k ∈ ks) qs ->
  Forall (fun q => Forall (fun ch => check_key ch = key -> check_limit ch <= limit) (req_checks q)) qs ->
  0 <= limit <= u32_max ->
  StronglySorted (fun p q => req_window p <= req_window q) qs ->
  accepted_in w key ∅ qs <= limit.
Proof.
  intros Hs Hks Hl Hlim Hsort.
  pose proof (accepted_bound ks w key limit qs ∅) as Hb.
  unfold current_count in Hb. rewrite lookup_empty in Hb. simpl in Hb. apply Hb; [|done|done|lia|done| |lia].
  - split; [|done]. rewrite dom_empty_L. set_solver.
  - apply Forall_true. intros q cn. by rewrite lookup_empty.
Qed.

(** All or nothing: while the table has room a request is accepted exactly
    when every scope is below its limit; it is then counted once in every
    scope. A rejected request names the first exhausted scope and consumes
    nothing of the others. *)
Theorem accepted_iff_every_scope_below_limit ks state q :
  fits ks state -> (forall k, k ∈ check_key <$> req_checks q -> k ∈ ks) ->
  (is_ok (handle state q).1 = true <->
     Forall (fun ch => current_count state (req_window q) (check_key ch) < check_limit ch) (req_checks q))
  /\ (is_ok (handle state q).1 = false -> (handle state q).2 = state)
  /\ (is_ok (handle state q).1 = true -> forall k,
       current_count (handle state q).2 (req_window q) k =
         if decide (k ∈ check_key <$> req_checks q)
         then u32_add (current_count state (req_window q) k) 1
         else current_count state (req_window q) k).
Proof.
  intros Hfit Hks. rewrite <- first_exceeded_none, (handle_fits ks) by done.
  destruct (first_exceeded _ _ _) as [ch|]; simpl; [done|]. split; [done|]. split; [done|].
  intros _ k. case_decide as Hk.
  - apply foldl_bump_in; [apply build_checks_nodup|done].
  - by apply current_count_lookup, foldl_bump_ne.
Qed.

(** The table is bounded: after every request at most [max_tracked_keys]
    counters are kept if that was so before, and no counter is invented. *)
Theorem tracked_keys_bounded state q :
  (forall m, keys_order m ≡ₚ (map_to_list m).*1) ->
  (size state <= max_tracked_keys c)%nat ->
  (size (handle state q).2 <= max_tracked_keys c)%nat
  /\ dom (handle state q).2 ⊆ dom state ∪ list_to_set (check_key <$> req_checks q).
Proof.
  intros Hord Hsize. unfold handle, check_at_millis. fold (req_checks q).
  destruct (req_checks q) as [|ch chs] eqn:E; [simpl; split; [done|set_solver]|].
  fold (req_window q). set (st0 := trim_state keys_order state _ _ _).
  assert (dom st0 ⊆ dom state) as Hd0 by apply subseteq_dom, trim_state_subseteq.
  destruct (first_exceeded _ _ _); cbn [fst snd]; split; try by apply trim_state_size.
  - set_solver.
  - etrans; [apply subseteq_dom, trim_state_subseteq|].
    apply foldl_bump_dom; [set_solver|]. intros k Hk. apply elem_of_union_r. by apply elem_of_list_to_set.
Qed.

End History.

(** Tenants do not share counters: two requests whose trimmed tenant ids hold
    no colon and differ have no key in common. *)
Theorem tenants_never_share_a_key c q1 q2 k :
  let tn q := non_empty_or (req_tenant q) "0" in
  Str.contains_char ":"%char (tn q1) = false -> Str.contains_char ":"%char (tn q2) = false ->
  k ∈ check_key <$> req_checks c q1 -> k ∈ check_key <$> req_checks c q2 -> tn q1 = tn q2.
Proof.
  intros tn Hc1 Hc2. unfold req_checks, build_checks. fold (tn q1). fold (tn q2).
  destruct (negb (enabled c)); [by intros ?%elem_of_nil|].
  repeat case_decide; simpl; rewrite ?elem_of_cons, ?elem_of_nil; intros Hk1 Hk2;
    destruct_or?; subst; simplify_eq; try done;
    match goal with
    | E : tn q1 +:+ _ = tn q2 +:+ _ |- _ => by apply (Str.join_inj _ _ _ _ _ Hc1 Hc2) in E as [??]
    end.
Qed.

(** With a colon in the tenant id they can: tenant [a:b] with sender [c] and
    tenant [a] with sender [b:c] use the same counter, so one exhausts the
    other's quota. *)
Theorem colon_tenants_share_a_counter :
  let c := mkRate true 0 1 0 1000 1024 in
  let msg s := plain_message "" "" s in
  let st := (check_at_millis (fun m => (map_to_list m).*1) c ∅ 0 "a:b" 0 (msg "c")).2 in
  is_ok (check_at_millis (fun m => (map_to_list m).*1) c st 0 "a" 0 (msg "b:c")).1 = false.
Proof. vm_compute. reflexivity. Qed.

(** ** Witnesses *)

Module RateExample.
Definition cfg : SendRateLimitConfig := mkRate true 0 2 0 1000 1024.
Definition order (m : gmap string WindowCounter) : list string := (map_to_list m).*1.
Definition msg : Message := plain_message "" "c1" "u1".
Definition req (now : Z) : request := mkRequest now "tenant-a" 0 msg.
Definition key : string := "tenant_sender:tenant-a:u1".
Definition keys : gset string := {[key]}.
End RateExample.
Import RateExample.

Lemma accepted_never_exceed_limit_witness :
  accepted_in order cfg 0 key ∅ [req 10; req 20; req 30; req 1000] = 2
  /\ accepted_in order cfg 0 key ∅ [req 10; req 20; req 30; req 1000] <= 2.
Proof.
  split; [vm_compute; reflexivity|].
  refine (accepted_never_exceed_limit order cfg keys 0 key 2 _ _ _ _ _ _).
  - vm_compute. lia.
  - repeat constructor; intros k Hk; apply list_elem_of_singleton in Hk as ->; apply elem_of_singleton; reflexivity.
  - repeat constructor; intros _; vm_compute; discriminate.
  - vm_compute. split; discriminate.
  - repeat constructor; vm_compute; discriminate.
Defined.

Lemma accepted_iff_every_scope_below_limit_witness :
  is_ok (handle order cfg ∅ (req 10)).1 = true <->
    Forall (fun ch => current_count ∅ (req_window cfg (req 10)) (check_key ch) < check_limit ch)
      (req_checks cfg (req 10)).
Proof.
  refine (proj1 (accepted_iff_every_scope_below_limit order cfg keys ∅ (req 10) _ _)).
  - split; [rewrite dom_empty_L; set_solver|vm_compute; lia].
  - intros k Hk. apply list_elem_of_singleton in Hk as ->. apply elem_of_singleton. reflexivity.
Defined.

Lemma tracked_keys_bounded_witness :
  (size (handle order cfg ∅ (req 10)).2 <= 1024)%nat.
Proof.
  refine (proj1 (tracked_keys_bounded order cfg ∅ (req 10) _ _)).
  - intros m. reflexivity.
  - vm_compute. lia.
Defined.

Lemma tenants_never_share_a_key_witness :
  non_empty_or "tenant-a" "0" = non_empty_or "tenant-a" "0".
Proof.
  refine (tenants_never_share_a_key cfg (req 0) (req 1) key _ _ _ _); [vm_compute; reflexivity..| |];
    apply list_elem_of_singleton; reflexivity.
Defined.
