(* ===== verification/HookCircuit.v ===== *)
(** * Hook circuit breakers

    flare-capability/src/domain/service/hook_circuit.rs: one breaker per
    (tenant, hook type, hook name). Instants and durations are integers; the
    mutex makes each operation atomic, so concurrent callers are an
    interleaving of [admit_at] and [settle_at] steps. *)

From S2P Require Import Prelude.
From stdpp Require Import base gmap strings list relations.
From Stdlib Require Import Lia ZArith.

Local Open Scope Z_scope.

(** milliseconds *)
Definition PROBE_RETRY_AFTER : Z := 1000.
Definition MAX_TRACKED_CIRCUITS : nat := 100000.

Record HookCircuitPolicy := mkPolicy {
  enabled : bool;
  failure_threshold : Z;
  failure_window : Z;
  open_for : Z;
}.

Definition default_policy : HookCircuitPolicy := mkPolicy true 5 (30 * 1000) (20 * 1000).

Record HookCircuitKey := mkKey { tenant_id : string; hook_type : string; hook_name : string }.

#[export] Instance HookCircuitKey_eq_dec : EqDecision HookCircuitKey.
Proof. solve_decision. Defined.
#[export] Instance HookCircuitKey_countable : Countable HookCircuitKey.
Proof.
  refine (inj_countable' (fun k => (tenant_id k, hook_type k, hook_name k))
            (fun '(t, y, n) => mkKey t y n) _).
  by intros [].
Defined.

Inductive HookCircuitTransition := Opened | Reopened | Closed.

Inductive HookCircuitAdmission :=
  | AdmittedCall (probe : bool)
  | RejectedCall (retry_after : Z).

Inductive HookCircuitResult := Healthy | Unhealthy | Neutral.

Record Circuit := mkCircuit {
  consecutive_failures : Z;
  streak_started : Z;
  open_until : option Z;
  probing : bool;
  failed_probes : Z;
}.

Record HookCircuitBreakers := mkBreakers {
  policy : HookCircuitPolicy;
  circuits : gmap HookCircuitKey Circuit;
  max_tracked : nat;
}.

(** [with_capacity_limit] *)
Definition with_capacity_limit (p : HookCircuitPolicy) (max : nat) : HookCircuitBreakers :=
  mkBreakers (mkPolicy (enabled p) (Z.max (failure_threshold p) 1) (failure_window p) (open_for p))
    ∅ (Nat.max max 1).

(** [new] *)
Definition breakers_new (p : HookCircuitPolicy) : HookCircuitBreakers :=
  with_capacity_limit p MAX_TRACKED_CIRCUITS.

Definition with_circuits (b : HookCircuitBreakers) (m : gmap HookCircuitKey Circuit) : HookCircuitBreakers :=
  mkBreakers (policy b) m (max_tracked b).

Definition set_circuit (b : HookCircuitBreakers) (key : HookCircuitKey) (c : Circuit) : HookCircuitBreakers :=
  with_circuits b (<[key := c]> (circuits b)).

(** [admit_at] *)
Definition admit_at (b : HookCircuitBreakers) (key : HookCircuitKey) (now : Z)
    : HookCircuitAdmission * HookCircuitBreakers :=
  let admitted := AdmittedCall false in
  if negb (enabled (policy b)) then (admitted, b)
  else
    match circuits b !! key with
    | None => (admitted, b)
    | Some circuit =>
        match open_until circuit with
        | None => (admitted, b)
        | Some until =>
            if decide (now < until) then (RejectedCall (until - now), b)
            else if probing circuit then (RejectedCall PROBE_RETRY_AFTER, b)
            else (AdmittedCall true,
                  set_circuit b key
                    (mkCircuit (consecutive_failures circuit) (streak_started circuit)
                       (open_until circuit) true (failed_probes circuit)))
        end
    end.

(** [Instant::saturating_duration_since] *)
Definition since (now start : Z) : Z := Z.max (now - start) 0.

(** The circuits [make_room] keeps: the open ones and those with a fresh
    streak. *)
Definition retain_circuits (b : HookCircuitBreakers) (now : Z) : gmap HookCircuitKey Circuit :=
  filter (fun kc => is_Some (open_until kc.2)
                    \/ since now (streak_started kc.2) <= failure_window (policy b))
    (circuits b).

(** [make_room] *)
Definition make_room (b : HookCircuitBreakers) (now : Z) : bool * HookCircuitBreakers :=
  if decide (size (circuits b) < max_tracked b)%nat then (true, b)
  else
    let b' := with_circuits b (retain_circuits b now) in
    (bool_decide (size (circuits b') < max_tracked b')%nat, b').

(** A key that is not tracked yet needs room in the table. *)
Definition failure_base (b : HookCircuitBreakers) (key : HookCircuitKey) (now : Z)
    : bool * HookCircuitBreakers :=
  match circuits b !! key with Some _ => (true, b) | None => make_room b now end.

(** The [Unhealthy] arm of a call that was not a probe. *)
Definition settle_failure (b : HookCircuitBreakers) (key : HookCircuitKey) (now : Z)
    : option HookCircuitTransition * HookCircuitBreakers :=
  let '(room, b) := failure_base b key now in
  if negb room then (None, b)
  else
    let circuit := default (mkCircuit 0 now None false 0) (circuits b !! key) in
    match open_until circuit with
    | Some _ => (None, set_circuit b key circuit)
    | None =>
        let expired := bool_decide (failure_window (policy b) < since now (streak_started circuit)) in
        let failures := if expired then 0 else consecutive_failures circuit in
        let started := if expired then now else streak_started circuit in
        let failures := u32_add failures 1 in
        if decide (failures < failure_threshold (policy b)) then
          (None, set_circuit b key
                   (mkCircuit failures started None (probing circuit) (failed_probes circuit)))
        else
          (Some Opened, set_circuit b key
                          (mkCircuit 0 started (Some (now + open_for (policy b))) (probing circuit) 0))
    end.

(** [settle_at] *)
Definition settle_at (b : HookCircuitBreakers) (key : HookCircuitKey) (probe : bool)
    (result : HookCircuitResult) (now : Z) : option HookCircuitTransition * HookCircuitBreakers :=
  if negb (enabled (policy b)) then (None, b)
  else
    match result, probe with
    | Neutral, true =>
        match circuits b !! key with
        | Some c => (None, set_circuit b key
                       (mkCircuit (consecutive_failures c) (streak_started c) (open_until c)
                          false (failed_probes c)))
        | None => (None, b)
        end
    | Neutral, false => (None, b)
    | Healthy, _ =>
        match circuits b !! key with
        | None => (None, b)
        | Some circuit =>
            if probe then (Some Closed, with_circuits b (delete key (circuits b)))
            else match open_until circuit with
                 | None => (None, with_circuits b (delete key (circuits b)))
                 | Some _ => (None, b)
                 end
        end
    | Unhealthy, true =>
        match circuits b !! key with
        | None => (None, b)
        | Some c =>
            (Some Reopened, set_circuit b key
               (mkCircuit (consecutive_failures c) (streak_started c)
                  (Some (now + open_for (policy b))) false (u32_add (failed_probes c) 1)))
        end
    | Unhealthy, false => settle_failure b key now
    end.

Definition tracked (b : HookCircuitBreakers) : nat := size (circuits b).

(** One call of the breaker, as a caller or another thread makes it. *)
Inductive breaker_op :=
  | OpAdmit (key : HookCircuitKey) (now : Z)
  | OpSettle (key : HookCircuitKey) (probe : bool) (result : HookCircuitResult) (now : Z).

Definition op_key (o : breaker_op) : HookCircuitKey :=
  match o with OpAdmit k _ => k | OpSettle k _ _ _ => k end.

Definition run_op (b : HookCircuitBreakers) (o : breaker_op) : HookCircuitBreakers :=
  match o with
  | OpAdmit k t => (admit_at b k t).2
  | OpSettle k p r t => (settle_at b k p r t).2
  end.

Definition run_ops : HookCircuitBreakers -> list breaker_op -> HookCircuitBreakers := foldl run_op.

(** Failures of one key, one after the other, with the transitions reported. *)
Fixpoint fail_run (b : HookCircuitBreakers) (key : HookCircuitKey) (ts : list Z)
    : list (option HookCircuitTransition) * HookCircuitBreakers :=
  match ts with
  | [] => ([], b)
  | t :: ts' =>
      let '(tr, b1) := settle_at b key false Unhealthy t in
      let '(trs, b2) := fail_run b1 key ts' in (tr :: trs, b2)
  end.

(** The callers and the breaker together: an admitted call is outstanding until
    it is settled, once, with the [probe] flag it was admitted with. *)
Abbreviation call := (HookCircuitKey * bool)%type.

Inductive sys_step : HookCircuitBreakers * list call -> HookCircuitBreakers * list call -> Prop :=
  | step_admit b out key now probe b' :
      admit_at b key now = (AdmittedCall probe, b') ->
      sys_step (b, out) (b', (key, probe) :: out)
  | step_reject b out key now r b' :
      admit_at b key now = (RejectedCall r, b') -> sys_step (b, out) (b', out)
  | step_settle b out out' key probe res now :
      out ≡ₚ (key, probe) :: out' ->
      sys_step (b, out) ((settle_at b key probe res now).2, out').

Definition outstanding_probes (out : list call) (key : HookCircuitKey) : nat :=
  length (filter (eq (key, true)) out).

(** ** Lookups after an operation *)

Create HintDb circuit.

Lemma retain_lookup b now k :
  retain_circuits b now !! k = circuits b !! k
  \/ (retain_circuits b now !! k = None
      /\ exists c, circuits b !! k = Some c /\ open_until c = None
                   /\ failure_window (policy b) < since now (streak_started c)).
Proof.
  unfold retain_circuits.
  destruct (circuits b !! k) as [c|] eqn:Hc.
  - destruct (decide (is_Some (open_until c)
      \/ since now (streak_started c) <= failure_window (policy b))) as [Hd|Hd].
    + left. by apply map_lookup_filter_Some.
    + right. split; [apply map_lookup_filter_None; right; naive_solver|].
      exists c. split; [done|]. split; [apply eq_None_not_Some; tauto|lia].
  - left. apply map_lookup_filter_None. by left.
Qed.

(** What an operation on some key does to the entry of another key: nothing,
    except that a closed entry with a stale streak may be evicted. *)
Definition same_or_evicted (b b' : HookCircuitBreakers) (k : HookCircuitKey) (now : Z) : Prop :=
  circuits b' !! k = circuits b !! k
  \/ (circuits b' !! k = None
      /\ exists c, circuits b !! k = Some c /\ open_until c = None
                   /\ failure_window (policy b) < since now (streak_started c)).

Lemma make_room_keeps b now k : same_or_evicted b (make_room b now).2 k now.
Proof. unfold make_room, same_or_evicted. case_decide; [by left|apply retain_lookup]. Qed.

Lemma make_room_config b now :
  policy (make_room b now).2 = policy b /\ max_tracked (make_room b now).2 = max_tracked b.
Proof. unfold make_room. by case_decide. Qed.

Lemma make_room_size b now :
  (size (circuits b) <= max_tracked b)%nat ->
  (size (circuits (make_room b now).2) <= max_tracked b)%nat
  /\ ((make_room b now).1 = true -> (size (circuits (make_room b now).2) < max_tracked b)%nat).
Proof.
  intros Hs. unfold make_room. case_decide; simpl; [lia|].
  split; [|by intros ?%bool_decide_eq_true].
  etrans; [|exact Hs]. apply map_subseteq_size, map_filter_subseteq.
Qed.

Lemma failure_base_keeps b key now k : same_or_evicted b (failure_base b key now).2 k now.
Proof. unfold failure_base. destruct (circuits b !! key); [by left|apply make_room_keeps]. Qed.

Lemma failure_base_key b key now :
  circuits (failure_base b key now).2 !! key = circuits b !! key.
Proof.
  unfold failure_base. destruct (circuits b !! key) eqn:E; [done|].
  destruct (make_room_keeps b now key) as [->|[_ (c & Hc & _)]]; congruence.
Qed.

Lemma failure_base_config b key now :
  policy (failure_base b key now).2 = policy b
  /\ max_tracked (failure_base b key now).2 = max_tracked b.
Proof. unfold failure_base. destruct (circuits b !! key); [done|]. apply make_room_config. Qed.

(** The entry a failure of an ordinary call leaves behind. *)
Definition failed_circuit (p : HookCircuitPolicy) (c : Circuit) (now : Z) : Circuit :=
  match open_until c with
  | Some _ => c
  | None =>
      let expired := bool_decide (failure_window p < since now (streak_started c)) in
      let failures := u32_add (if expired then 0 else consecutive_failures c) 1 in
      let started := if expired then now else streak_started c in
      if decide (failures < failure_threshold p)
      then mkCircuit failures started None (probing c) (failed_probes c)
      else mkCircuit 0 started (Some (now + open_for p)) (probing c) 0
  end.

Lemma settle_failure_shape b key now :
  let b1 := (failure_base b key now).2 in
  (settle_failure b key now).2 =
    if (failure_base b key now).1
    then set_circuit b1 key
           (failed_circuit (policy b) (default (mkCircuit 0 now None false 0) (circuits b !! key)) now)
    else b1.
Proof.
  unfold settle_failure. pose proof (failure_base_key b key now) as Hk.
  destruct (failure_base_config b key now) as [Hp _].
  destruct (failure_base b key now) as [room b1]. simpl in *.
  destruct room; [|done]. cbn [negb]. rewrite Hk, <- Hp. unfold failed_circuit.
  generalize (default (mkCircuit 0 now None false 0) (circuits b !! key)). intros d.
  destruct (open_until d); [done|]. by case_decide.
Qed.

Lemma settle_keeps_other b key probe res now k :
  k <> key -> same_or_evicted b (settle_at b key probe res now).2 k now.
Proof.
  intros Hne. unfold settle_at. destruct (negb _); [by left|].
  destruct res, probe; try (destruct (circuits b !! key) as [d|]);
    try (destruct (open_until d)); simpl;
    try (left; simpl; rewrite ?lookup_insert_ne, ?lookup_delete_ne by done; done).
  all: rewrite settle_failure_shape; pose proof (failure_base_keeps b key now k) as Hb;
    destruct (failure_base b key now) as [[] b1]; simpl in *; [|done];
    unfold same_or_evicted in *; simpl; by rewrite lookup_insert_ne.
Qed.

Lemma admit_keeps_other b key now k :
  k <> key -> circuits (admit_at b key now).2 !! k = circuits b !! k.
Proof.
  intros Hne. unfold admit_at. destruct (negb _); [done|].
  destruct (circuits b !! key) as [c|]; [|done].
  destruct (open_until c); [|done]. case_decide; [done|]. destruct (probing c); [done|].
  simpl. by apply lookup_insert_ne.
Qed.

Lemma op_keeps_other b o k :
  k <> op_key o -> exists now, same_or_evicted b (run_op b o) k now.
Proof.
  destruct o as [key t|key p r t]; simpl; intros Hne; exists t.
  - left. by apply admit_keeps_other.
  - by apply settle_keeps_other.
Qed.

Lemma op_config b o : policy (run_op b o) = policy b /\ max_tracked (run_op b o) = max_tracked b.
Proof.
  destruct o as [key t|key p r t]; simpl.
  - unfold admit_at. repeat case_match; done.
  - unfold settle_at. destruct (negb _); [done|].
    destruct r, p; try (destruct (circuits b !! key) as [d|]); try (destruct (open_until d)); try done.
    all: rewrite settle_failure_shape; pose proof (failure_base_config b key t);
      by destruct (failure_base b key t).1.
Qed.

Lemma run_ops_config b ops :
  policy (run_ops b ops) = policy b /\ max_tracked (run_ops b ops) = max_tracked b.
Proof.
  revert b. induction ops as [|o ops IH]; intros b; simpl; [done|].
  destruct (IH (run_op b o)) as [-> ->]. apply op_config.
Qed.

(** ** The invariant of the table *)

Definition circuit_wf (p : HookCircuitPolicy) (c : Circuit) : Prop :=
  open_until c = None -> probing c = false /\ 1 <= consecutive_failures c < failure_threshold p.

Definition breakers_wf (b : HookCircuitBreakers) : Prop :=
  1 <= failure_threshold (policy b)
  /\ (enabled (policy b) = false -> circuits b = ∅)
  /\ (size (circuits b) <= max_tracked b)%nat
  /\ map_Forall (fun _ c => circuit_wf (policy b) c) (circuits b).

Lemma new_wf p : breakers_wf (breakers_new p).
Proof.
  unfold breakers_new. generalize MAX_TRACKED_CIRCUITS. intros n.
  unfold breakers_wf, with_capacity_limit. simpl.
  split; [lia|]. split; [done|]. split; [rewrite map_size_empty; lia|apply map_Forall_empty].
Qed.

Lemma size_insert_le {K A} `{Countable K} (m : gmap K A) k x n :
  (size m <= n)%nat -> (is_Some (m !! k) \/ (size m < n)%nat) -> (size (<[k := x]> m) <= n)%nat.
Proof.
  intros Hs Hk. destruct (m !! k) as [y|] eqn:E.
  - rewrite map_size_insert_Some; [done|by exists y].
  - rewrite map_size_insert_None by done. destruct Hk as [[? ?]|]; [done|lia].
Qed.

Lemma set_circuit_wf b k c :
  enabled (policy b) = true -> breakers_wf b -> circuit_wf (policy b) c ->
  (is_Some (circuits b !! k) \/ (size (circuits b) < max_tracked b)%nat) ->
  breakers_wf (set_circuit b k c).
Proof.
  intros He (H1 & H2 & H3 & H4) Hc Hr. unfold breakers_wf. simpl.
  split; [done|]. split; [congruence|]. split; [by apply size_insert_le|by apply map_Forall_insert_2].
Qed.

Lemma shrink_wf b m :
  breakers_wf b -> m ⊆ circuits b -> breakers_wf (with_circuits b m).
Proof.
  intros (H1 & H2 & H3 & H4) Hm. unfold breakers_wf. simpl. split; [done|].
  split; [intros He; rewrite (H2 He) in Hm; by apply (anti_symm (⊆)), map_empty_subseteq|]. split.
  - etrans; [by apply map_subseteq_size|done].
  - intros k c Hk. apply (H4 k). by eapply lookup_weaken.
Qed.

Lemma failure_base_wf b key now :
  breakers_wf b ->
  breakers_wf (failure_base b key now).2
  /\ ((failure_base b key now).1 = true ->
      is_Some (circuits (failure_base b key now).2 !! key)
      \/ (size (circuits (failure_base b key now).2) < max_tracked b)%nat).
Proof.
  intros Hwf. unfold failure_base. destruct (circuits b !! key) as [c|] eqn:E; simpl.
  { rewrite E. naive_solver. }
  split; [|right; apply make_room_size; [apply Hwf|done]].
  unfold make_room. case_decide; [done|]. apply shrink_wf; [done|apply map_filter_subseteq].
Qed.

Lemma failed_circuit_wf p c now :
  1 <= failure_threshold p -> (open_until c = None -> probing c = false /\ 0 <= consecutive_failures c) ->
  circuit_wf p (failed_circuit p c now).
Proof.
  intros Ht Hc. unfold circuit_wf, failed_circuit. destruct (open_until c) eqn:E; [congruence|].
  destruct (Hc eq_refl) as [Hp Hf]. case_decide as Hd; simpl; [|done].
  intros _. split; [done|]. split; [|done]. unfold sat_add, u32_max. case_bool_decide; lia.
Qed.

Lemma settle_failure_wf b key now :
  enabled (policy b) = true -> breakers_wf b -> breakers_wf (settle_failure b key now).2.
Proof.
  intros He Hwf. rewrite settle_failure_shape.
  destruct (failure_base_wf b key now Hwf) as [Hb Hroom].
  destruct (failure_base_config b key now) as [Hp Hm].
  destruct (failure_base b key now) as [[] b1]; simpl in *; [|done].
  apply set_circuit_wf; [by rewrite Hp|done| |by rewrite Hm; apply Hroom].
  rewrite Hp. apply failed_circuit_wf; [apply Hwf|].
  destruct (circuits b !! key) as [c|] eqn:E; simpl; [|done].
  intros Ho. destruct Hwf as (_ & _ & _ & H4). destruct (H4 key c E Ho). split; [done|lia].
Qed.

Lemma op_wf b o : breakers_wf b -> breakers_wf (run_op b o).
Proof.
  intros Hwf. destruct o as [key t|key p r t]; simpl.
  - unfold admit_at. destruct (enabled (policy b)) eqn:He; [|done]. simpl.
    destruct (circuits b !! key) as [c|] eqn:E; [|done].
    destruct (open_until c) eqn:Ho; [|done]. case_decide; [done|]. destruct (probing c); [done|].
    simpl. apply set_circuit_wf; [done|done|by intros [=]|by left; exists c].
  - unfold settle_at. destruct (enabled (policy b)) eqn:He; [|done]. simpl.
    destruct r, p; try by apply settle_failure_wf.
    all: destruct (circuits b !! key) as [c|] eqn:E; try done.
    + apply shrink_wf; [done|apply delete_subseteq].
    + destruct (open_until c); [done|]. apply shrink_wf; [done|apply delete_subseteq].
    + apply set_circuit_wf; [done|done|by intros [=]|by left; exists c].
    + apply set_circuit_wf; [done|done| |by left; exists c].
      intros Ho. simpl in *. split; [done|]. destruct Hwf as (_ & _ & _ & H4). by apply (H4 key c E Ho).
Qed.

#[export] Hint Resolve new_wf op_wf : circuit.

Lemma breakers_wf_run p ops : breakers_wf (run_ops (breakers_new p) ops).
Proof.
  cut (forall b, breakers_wf b -> breakers_wf (run_ops b ops)); [auto with circuit|].
  induction ops as [|o ops IH]; intros b Hb; simpl; auto with circuit.
Qed.

(** C39. In every state the breaker can reach from [new], by any sequence of
    admissions and settlements of any keys at any times, the table holds at most
    [max_tracked] entries, and an entry whose circuit is not open has no probe
    running and counts between one and [failure_threshold - 1] failures. *)
Theorem breakers_always_well_formed (p : HookCircuitPolicy) (ops : list breaker_op) :
  let b := run_ops (breakers_new p) ops in
  (tracked b <= max_tracked b)%nat
  /\ forall key c, circuits b !! key = Some c -> open_until c = None ->
       probing c = false /\ 1 <= consecutive_failures c < failure_threshold (policy b).
Proof.
  destruct (breakers_wf_run p ops) as (_ & _ & Hs & Hc). split; [done|].
  intros key c Hk. exact (Hc key c Hk).
Qed.

(** ** Probes *)

Definition probes_of (b : HookCircuitBreakers) (key : HookCircuitKey) : nat :=
  match circuits b !! key with Some c => if probing c then 1 else 0 | None => 0 end.

Lemma same_or_evicted_probes b b' k now :
  breakers_wf b -> same_or_evicted b b' k now -> probes_of b' k = probes_of b k.
Proof.
  intros (_ & _ & _ & H4). unfold probes_of. intros [->|[-> (c & Hc & Ho & _)]]; [done|].
  rewrite Hc. by destruct (H4 k c Hc Ho) as [-> _].
Qed.

Lemma admit_probes b key now probe b' k :
  admit_at b key now = (AdmittedCall probe, b') ->
  probes_of b' k = (probes_of b k + if decide ((key, probe) = (k, true)) then 1 else 0)%nat.
Proof.
  intros Ha. destruct (decide (k = key)) as [->|Hne].
  2: { pose proof (admit_keeps_other b key now k Hne) as Hk. rewrite Ha in Hk. simpl in Hk. unfold probes_of.
       rewrite Hk. case_decide; naive_solver. }
  unfold probes_of, admit_at in *. revert Ha.
  destruct (negb _); [|destruct (circuits b !! key) as [c|] eqn:E; [|]].
  - intros [= <- <-]. case_decide; [done|lia].
  - destruct (open_until c) eqn:Ho.
    + case_decide; [done|]. destruct (probing c) eqn:Hp; [done|]. intros [= <- <-]. simpl.
      rewrite lookup_insert_eq. by case_decide.
    + intros [= <- <-]. rewrite E. case_decide; [done|lia].
  - intros [= <- <-]. rewrite E. case_decide; [done|lia].
Qed.

Lemma reject_unchanged b key now r b' : admit_at b key now = (RejectedCall r, b') -> b' = b.
Proof. unfold admit_at. intros H. repeat case_match; congruence. Qed.

Lemma failed_circuit_probing p c now : probing (failed_circuit p c now) = probing c.
Proof. unfold failed_circuit. destruct (open_until c); [done|]. by case_decide. Qed.

Lemma settle_probes b key probe res now k :
  breakers_wf b -> (probe = true -> probes_of b key = 1%nat) ->
  probes_of (settle_at b key probe res now).2 k
  = (probes_of b k - if decide ((key, probe) = (k, true)) then 1 else 0)%nat.
Proof.
  intros Hwf Hpr. destruct (decide (k = key)) as [->|Hne].
  2: { rewrite (same_or_evicted_probes b _ k now) by auto using settle_keeps_other.
       case_decide; [naive_solver|lia]. }
  unfold settle_at. destruct (enabled (policy b)) eqn:Hen; simpl.
  2: { destruct Hwf as (_ & Hem & _). unfold probes_of in *. rewrite (Hem Hen), lookup_empty.
       by case_decide. }
  destruct probe.
  - specialize (Hpr eq_refl). unfold probes_of in *. rewrite decide_True by done.
    destruct (circuits b !! key) as [c|] eqn:E; [|done]. destruct res; simpl.
    all: by rewrite ?lookup_insert_eq, ?lookup_delete_eq, Hpr.
  - rewrite decide_False by naive_solver. rewrite Nat.sub_0_r. unfold probes_of.
    destruct res; [| |done].
    + destruct (circuits b !! key) as [c|] eqn:E; [|simpl; by rewrite E].
      destruct (open_until c) eqn:Ho; simpl; [by rewrite E|]. rewrite lookup_delete_eq.
      destruct Hwf as (_ & _ & _ & H4). by destruct (H4 key c E Ho) as [-> _].
    + rewrite settle_failure_shape. pose proof (failure_base_key b key now) as Hk.
      destruct (failure_base b key now) as [[] b1]; simpl in *; [|by rewrite Hk].
      rewrite lookup_insert_eq, failed_circuit_probing. by destruct (circuits b !! key).
Qed.

Lemma outstanding_cons c out key :
  outstanding_probes (c :: out) key
  = (outstanding_probes out key + if decide (c = (key, true)) then 1 else 0)%nat.
Proof.
  unfold outstanding_probes. rewrite filter_cons.
  destruct (decide (c = (key, true))) as [->|Hc].
  - rewrite decide_True by done. simpl. lia.
  - rewrite decide_False by congruence. simpl. lia.
Qed.

Lemma outstanding_perm out out' key :
  out ≡ₚ out' -> outstanding_probes out key = outstanding_probes out' key.
Proof. intros Hp. unfold outstanding_probes. by rewrite Hp. Qed.

(** A circuit is marked as probing exactly while its probe is outstanding. *)
Definition sys_inv (s : HookCircuitBreakers * list call) : Prop :=
  breakers_wf s.1 /\ forall key, outstanding_probes s.2 key = probes_of s.1 key.

Lemma sys_step_inv s s' : sys_step s s' -> sys_inv s -> sys_inv s'.
Proof.
  intros Hstep [Hwf Hn]. destruct Hstep as [b out key now probe b' Ha|b out key now r b' Ha
    |b out out' key probe res now Hp]; simpl in *.
  - split; simpl.
    + change b' with (AdmittedCall probe, b').2. rewrite <- Ha. by apply (op_wf b (OpAdmit key now)).
    + intros k. by rewrite outstanding_cons, Hn, (admit_probes b key now probe b' k Ha).
  - apply reject_unchanged in Ha. by subst.
  - assert (Hk : forall k, probes_of b k = (outstanding_probes out' k
        + if decide ((key, probe) = (k, true)) then 1 else 0)%nat).
    { intros k. by rewrite <- Hn, (outstanding_perm _ _ k Hp), outstanding_cons. }
    split; simpl; [by apply (op_wf b (OpSettle key probe res now))|].
    intros k. rewrite settle_probes; [rewrite Hk; lia|done|].
    intros ->. specialize (Hk key). rewrite decide_True in Hk by done.
    unfold probes_of in *. repeat case_match; lia.
Qed.

(** However admissions and settlements of concurrent callers interleave, at
    most one probe per hook is ever in flight, and the circuit is marked as
    probing exactly while that probe is in flight: it never lets a second probe
    through and never stays locked without one. *)
Theorem one_probe_in_flight (p : HookCircuitPolicy) (b : HookCircuitBreakers) (out : list call)
    (key : HookCircuitKey) (Hreach : rtc sys_step (breakers_new p, []) (b, out)) :
  (outstanding_probes out key <= 1)%nat
  /\ (outstanding_probes out key = 1%nat
      <-> exists c, circuits b !! key = Some c /\ is_Some (open_until c) /\ probing c = true).
Proof.
  assert (Hinv : sys_inv (b, out)).
  { apply (rtc_ind_r sys_inv (breakers_new p, [])) with (z := (b, out)) in Hreach; [done|..].
    - split; [apply new_wf|]. intros k. done.
    - intros s s' _ Hs. by apply sys_step_inv. }
  destruct Hinv as [(_ & _ & _ & H4) Hn]. specialize (Hn key). simpl in *. rewrite Hn.
  unfold probes_of. destruct (circuits b !! key) as [c|] eqn:E; [|split; [lia|naive_solver]].
  specialize (H4 key c E). unfold circuit_wf in H4. split; [destruct (probing c); lia|].
  destruct (probing c) eqn:Hp; [|split; [done|intros (d & [= <-] & _ & Hd); congruence]].
  split; [|done]. intros _. exists c. split; [done|]. split; [|done].
  destruct (open_until c); [done|]. by destruct (H4 eq_refl).
Qed.

(** A concrete run: two failures open a circuit of threshold two, the window
    passes, one caller probes while another is turned away. *)
Definition demo_policy : HookCircuitPolicy := mkPolicy true 2 100 50.
Definition demo_key : HookCircuitKey := mkKey "t1" "pre_send" "audit".

Lemma one_probe_in_flight_witness :
  exists b out, rtc sys_step (breakers_new demo_policy, []) (b, out)
                /\ outstanding_probes out demo_key = 1%nat
                /\ (outstanding_probes out demo_key <= 1)%nat.
Proof.
  set (b0 := breakers_new demo_policy).
  set (b1 := (settle_at b0 demo_key false Unhealthy 0).2).
  set (b2 := (settle_at b1 demo_key false Unhealthy 1).2).
  set (b3 := (admit_at b2 demo_key 60).2).
  assert (Hr : rtc sys_step (b0, []) (b3, [(demo_key, true)])).
  { eapply rtc_l; [by apply (step_admit b0 [] demo_key 0 false b0)|].
    eapply rtc_l; [by apply (step_admit b0 _ demo_key 0 false b0)|].
    eapply rtc_l; [by apply (step_settle b0 _ [(demo_key, false)] demo_key false Unhealthy 0)|].
    eapply rtc_l; [by apply (step_settle b1 _ [] demo_key false Unhealthy 1)|].
    eapply rtc_l; [|apply rtc_refl]. by apply (step_admit b2 [] demo_key 60 true b3). }
  exists b3, [(demo_key, true)]. split; [exact Hr|]. split; [reflexivity|].
  exact (proj1 (one_probe_in_flight demo_policy b3 [(demo_key, true)] demo_key Hr)).
Defined.

(** ** The open window *)

Definition is_probe_settlement (key : HookCircuitKey) (o : breaker_op) : bool :=
  match o with
  | OpSettle k true _ _ => bool_decide (k = key)
  | _ => false
  end.

Definition opened_until (b : HookCircuitBreakers) (key : HookCircuitKey) : option Z :=
  circuits b !! key ≫= open_until.

Lemma op_keeps_window b o key until :
  is_probe_settlement key o = false -> opened_until b key = Some until ->
  opened_until (run_op b o) key = Some until.
Proof.
  unfold opened_until. intros Hno Ho. destruct (circuits b !! key) as [c|] eqn:E; [simpl in Ho|done].
  destruct (decide (key = op_key o)) as [Hk|Hne].
  2: { destruct (op_keeps_other b o key Hne) as [now [->|[_ (d & Hd & Hn & _)]]]; [by rewrite E|].
       congruence. }
  destruct o as [k t|k [] r t]; simpl in *; subst k.
  - unfold admit_at. destruct (negb _); simpl; rewrite E; simpl; [done|]. rewrite Ho.
    case_decide; simpl; [by rewrite E|].
    destruct (probing c); simpl; [by rewrite E|]. by rewrite lookup_insert_eq.
  - by rewrite bool_decide_eq_true_2 in Hno.
  - unfold settle_at. destruct (negb _); simpl; [by rewrite E|].
    destruct r; simpl; [rewrite E, Ho; simpl; by rewrite E| |by rewrite E].
    rewrite settle_failure_shape. unfold failure_base, failed_circuit. rewrite E. simpl. rewrite Ho.
    by rewrite lookup_insert_eq.
Qed.

Lemma ops_keep_window ops b key until :
  Forall (fun o => is_probe_settlement key o = false) ops -> opened_until b key = Some until ->
  opened_until (run_ops b ops) key = Some until.
Proof.
  intros Hf. revert b. induction Hf as [|o ops Ho _ IH]; intros b Hb; simpl; [done|].
  apply IH. by apply op_keeps_window.
Qed.

(** While a hook's window is open no call to it goes out, whatever else
    happens: after any operations on any keys, late results of calls sent before
    the circuit opened included, as long as no probe of this hook has settled, an
    admission at [now < until] is rejected with exactly the time left, so
    stragglers neither close the window nor extend it. *)
Theorem open_window_rejects (b : HookCircuitBreakers) (key : HookCircuitKey) (until now : Z)
    (ops : list breaker_op)
    (Hen : enabled (policy b) = true)
    (Hopen : opened_until b key = Some until)
    (Hops : Forall (fun o => is_probe_settlement key o = false) ops)
    (Hnow : now < until) :
  admit_at (run_ops b ops) key now = (RejectedCall (until - now), run_ops b ops).
Proof.
  pose proof (ops_keep_window ops b key until Hops Hopen) as Hw.
  destruct (run_ops_config b ops) as [Hp _]. unfold opened_until in Hw. unfold admit_at.
  rewrite Hp, Hen. simpl.
  destruct (circuits (run_ops b ops) !! key) as [c|]; [simpl in Hw|done].
  rewrite Hw. by rewrite decide_True.
Qed.

Lemma open_window_rejects_witness :
  let b := (fail_run (breakers_new demo_policy) demo_key [0; 1]).2 in
  let ops := [OpSettle demo_key false Healthy 5; OpSettle demo_key false Unhealthy 6] in
  opened_until b demo_key = Some 51
  /\ admit_at (run_ops b ops) demo_key 20 = (RejectedCall 31, run_ops b ops).
Proof.
  intros b ops. split; [reflexivity|].
  refine (open_window_rejects b demo_key 51 20 ops _ _ _ _); [reflexivity|reflexivity| |lia].
  repeat constructor.
Defined.

(** ** Opening *)

Lemma fail_below b key now c :
  enabled (policy b) = true -> circuits b !! key = Some c -> open_until c = None ->
  since now (streak_started c) <= failure_window (policy b) ->
  0 <= consecutive_failures c < u32_max ->
  settle_at b key false Unhealthy now =
    if decide (consecutive_failures c + 1 < failure_threshold (policy b))
    then (None, set_circuit b key (mkCircuit (consecutive_failures c + 1) (streak_started c) None
                                     (probing c) (failed_probes c)))
    else (Some Opened, set_circuit b key (mkCircuit 0 (streak_started c)
                         (Some (now + open_for (policy b))) (probing c) 0)).
Proof.
  intros Hen Hc Ho Hw Hf. unfold settle_at. rewrite Hen. simpl.
  unfold settle_failure, failure_base. rewrite Hc. simpl. rewrite Hc. simpl. rewrite Ho.
  rewrite bool_decide_eq_false_2 by lia.
  replace (u32_add (consecutive_failures c) 1) with (consecutive_failures c + 1); [done|].
  rewrite sat_add_small; lia.
Qed.

(** A closed circuit with [n] failures, [k] more failures inside its window. *)
Lemma fail_run_opens ts : forall b key c tn,
  enabled (policy b) = true -> failure_threshold (policy b) <= u32_max ->
  circuits b !! key = Some c -> open_until c = None ->
  0 <= consecutive_failures c ->
  consecutive_failures c + Z.of_nat (length ts) + 1 = failure_threshold (policy b) ->
  Forall (fun t => since t (streak_started c) <= failure_window (policy b)) (ts ++ [tn]) ->
  (fail_run b key (ts ++ [tn])).1 = replicate (length ts) None ++ [Some Opened]
  /\ opened_until (fail_run b key (ts ++ [tn])).2 key = Some (tn + open_for (policy b)).
Proof.
  induction ts as [|t ts IH]; intros b key c tn Hen Hmax Hc Ho H0 Hlen Hw; simpl in *.
  - apply Forall_cons in Hw as [Hw _]. rewrite (fail_below b key tn c) by (done || lia).
    rewrite decide_False by lia. simpl. split; [done|].
    unfold opened_until. simpl. by rewrite lookup_insert_eq.
  - apply Forall_cons in Hw as [Ht Hw]. rewrite (fail_below b key t c) by (done || lia).
    rewrite decide_True by lia.
    set (b1 := set_circuit b key _).
    destruct (IH b1 key (mkCircuit (consecutive_failures c + 1) (streak_started c) None
                           (probing c) (failed_probes c)) tn) as [IH1 IH2]; simpl;
      try done; try lia; [apply lookup_insert_eq|].
    simpl in *. destruct (fail_run b1 key (ts ++ [tn])) as [trs b2]. simpl in *.
    by rewrite IH1.
Qed.

(** A hook that is not tracked, with room in the table, opens exactly at the
    [failure_threshold]-th consecutive failure inside the failure window: the
    earlier ones report no transition, the last one reports [Opened], and the
    circuit then stays open for [open_for] from that failure. *)
Theorem opens_at_the_threshold (b : HookCircuitBreakers) (key : HookCircuitKey) (t1 : Z)
    (ts : list Z) (tn : Z)
    (Hen : enabled (policy b) = true)
    (Hfresh : circuits b !! key = None)
    (Hroom : (size (circuits b) < max_tracked b)%nat)
    (Hthr : Z.of_nat (length ts) + 2 = failure_threshold (policy b))
    (Hmax : failure_threshold (policy b) <= u32_max)
    (Hwin : Forall (fun t => since t t1 <= failure_window (policy b)) (ts ++ [tn]))
    (Hwin0 : 0 <= failure_window (policy b)) :
  (fail_run b key (t1 :: ts ++ [tn])).1 = replicate (S (length ts)) None ++ [Some Opened]
  /\ opened_until (fail_run b key (t1 :: ts ++ [tn])).2 key = Some (tn + open_for (policy b)).
Proof.
  assert (Hfirst : settle_at b key false Unhealthy t1
                   = (None, set_circuit b key (mkCircuit 1 t1 None false 0))).
  { unfold settle_at. rewrite Hen. simpl. unfold settle_failure, failure_base, make_room.
    rewrite Hfresh. rewrite decide_True by done. simpl. rewrite Hfresh. simpl.
    rewrite bool_decide_eq_false_2 by (unfold since; lia).
    rewrite sat_add_small by (unfold u32_max; lia). rewrite decide_True by lia. done. }
  cbn [fail_run]. rewrite Hfirst.
  destruct (fail_run_opens ts (set_circuit b key (mkCircuit 1 t1 None false 0)) key
              (mkCircuit 1 t1 None false 0) tn) as [H1 H2]; simpl; try done; try lia;
    [apply lookup_insert_eq|].
  simpl in *. destruct (fail_run _ key (ts ++ [tn])) as [trs b2]. simpl in *. by rewrite H1.
Qed.

Lemma opens_at_the_threshold_witness :
  (fail_run (with_capacity_limit (mkPolicy true 3 100 50) 4) demo_key [0; 10; 20]).1
  = [None; None; Some Opened].
Proof.
  refine (proj1 (opens_at_the_threshold (with_capacity_limit (mkPolicy true 3 100 50) 4)
            demo_key 0 [10] 20 _ _ _ _ _ _ _)); try reflexivity.
  - vm_compute. lia.
  - vm_compute. congruence.
  - repeat constructor; vm_compute; congruence.
  - vm_compute. congruence.
Defined.

(** ** Isolation *)

Definition admission (b : HookCircuitBreakers) (key : HookCircuitKey) (now : Z) : HookCircuitAdmission :=
  (admit_at b key now).1.

(** Hooks are isolated from one another: no sequence of operations on other
    keys (another tenant's failures, a full table and its evictions) changes what
    an admission of this key answers, at any time. *)
Theorem other_hooks_never_matter (b : HookCircuitBreakers) (key : HookCircuitKey)
    (ops : list breaker_op) (now : Z)
    (Hother : Forall (fun o => op_key o <> key) ops) :
  admission (run_ops b ops) key now = admission b key now.
Proof.
  revert b. induction Hother as [|o ops Hne _ IH]; intros b; simpl; [done|].
  rewrite IH. destruct (op_config b o) as [Hp _].
  destruct (op_keeps_other b o key ltac:(by apply not_eq_sym)) as [t [Hk|[Hk (c & Hc & Hcl & _)]]];
    unfold admission, admit_at; rewrite Hp, Hk; [by repeat case_match|].
  rewrite Hc, Hcl. by destruct (negb _).
Qed.

Lemma other_hooks_never_matter_witness :
  let b := (fail_run (with_capacity_limit demo_policy 1) demo_key [0]).2 in
  let other := mkKey "t2" "pre_send" "audit" in
  let ops := [OpSettle other false Unhealthy 500; OpSettle other false Unhealthy 501] in
  circuits (run_ops b ops) !! demo_key = None
  /\ admission (run_ops b ops) demo_key 502 = admission b demo_key 502.
Proof.
  intros b other ops. split; [reflexivity|].
  refine (other_hooks_never_matter b demo_key ops 502 _).
  repeat constructor; discriminate.
Defined.

(** With the breaker disabled no call is ever turned away and nothing is ever
    tracked, whatever was reported before. *)
Theorem disabled_breaker_is_transparent (p : HookCircuitPolicy) (ops : list breaker_op)
    (key : HookCircuitKey) (now : Z) (Hdis : enabled p = false) :
  tracked (run_ops (breakers_new p) ops) = 0%nat
  /\ admission (run_ops (breakers_new p) ops) key now = AdmittedCall false.
Proof.
  pose proof (breakers_wf_run p ops) as (_ & Hem & _).
  destruct (run_ops_config (breakers_new p) ops) as [Hp _].
  assert (Hd : enabled (policy (run_ops (breakers_new p) ops)) = false) by by rewrite Hp.
  split; [unfold tracked; by rewrite (Hem Hd), map_size_empty|].
  unfold admission, admit_at. by rewrite Hd.
Qed.

Lemma disabled_breaker_is_transparent_witness :
  let p := mkPolicy false 1 100 50 in
  admission (run_ops (breakers_new p) [OpSettle demo_key false Unhealthy 0]) demo_key 1
  = AdmittedCall false.
Proof.
  intros p. refine (proj2 (disabled_breaker_is_transparent p _ demo_key 1 _)). reflexivity.
Defined.
