(* ===== verification/PluginPlatform.v ===== *)
(** * Plugin platform identities

    crates/flare-im-service-kit/src/plugin_platform.rs: who may post a plugin
    card, what counts as one, and the digest that binds Capability's signed
    context to the single message it was signed for. SHA-256 (with its hex
    encoding) is a parameter. *)

From S2P Require Import Prelude Proto.
From stdpp Require Import base gmap strings list.
From Stdlib Require Import Lia ZArith Ascii.

Local Open Scope Z_scope.

Definition PLUGIN_CARD_TYPE : string := "flare.plugin.message.v1".
Definition PLUGIN_CARD_PAYLOAD_SCHEMA : string := "flare.plugin.message/v1".
Definition CARD_POST_ROLE : string := "plugin.card.post".
(** [auth::kid::CAPABILITY] *)
Definition CARD_POST_KID : string := "capability".
Definition CARD_CLIENT_MSG_ID_PREFIX : string := "pcard-".
Definition CARD_POST_REQUEST_PREFIX : string := "pcard2-".
Definition STATE_PUBLISH_ROLE : string := "plugin.state.publish".
Definition STATE_PUBLISHER_ID : string := "flare-capability".

Definition is_code_char (c : ascii) : bool :=
  let n := N_of_ascii c in
  ((65 <=? n)%N && (n <=? 90)%N) || ((48 <=? n)%N && (n <=? 57)%N) || (n =? 95)%N.

(** [is_error_code] *)
Definition is_error_code (code : string) : bool :=
  negb (Str.is_empty code) && (String.length code <=? 64)%nat && Str.all_chars is_code_char code.

(** [top_level_plugin_card] *)
Definition top_level_plugin_card (m : Message) : option AppCardContent :=
  match content m with
  | Some (Some (AppCard card)) => if decide (card_type card = PLUGIN_CARD_TYPE) then Some card else None
  | _ => None
  end.

(** [is_plugin_card_type] *)
Definition is_plugin_card_type (value : string) : bool :=
  Str.eq_ignore_ascii_case (Str.trim value) PLUGIN_CARD_TYPE.

(** [claims_plugin_card] *)
Definition claims_plugin_card (c : option MessageContent) : bool :=
  match c with
  | Some (Some (AppCard card)) => is_plugin_card_type (card_type card)
  | Some (Some (Custom type_)) => is_plugin_card_type type_
  | _ => false
  end.

(** [is_reserved_client_msg_id] *)
Definition is_reserved_client_msg_id (client_msg_id : string) : bool :=
  let t := Str.trim client_msg_id in
  let n := String.length CARD_CLIENT_MSG_ID_PREFIX in
  (n <=? String.length t)%nat
  && Str.eq_ignore_ascii_case (String.substring 0 n t) CARD_CLIENT_MSG_ID_PREFIX.

(** [message_claims_plugin_card] *)
Definition message_claims_plugin_card (m : Message) : bool := claims_plugin_card (content m).

(** [is_plugin_state_publisher] *)
Definition is_plugin_state_publisher (c : SignedContextClaims) : bool :=
  bool_decide (kid c = CARD_POST_KID)
  && bool_decide (actor_type c = ActSystem)
  && bool_decide (actor_id c = STATE_PUBLISHER_ID)
  && bool_decide (roles c = [STATE_PUBLISH_ROLE])
  && bool_decide (credential_id c = None).

(** [is_card_post_context] *)
Definition is_card_post_context (c : SignedContextClaims) : bool :=
  bool_decide (kid c = CARD_POST_KID).

(** [u64::to_be_bytes] for [k = 8] *)
Fixpoint be_bytes (k : nat) (n : Z) : string :=
  match k with
  | O => ""
  | S k' => be_bytes k' (n / 256) +:+ String (ascii_of_N (Z.to_N (n mod 256))) EmptyString
  end.

(** [field]: a value prefixed with its length, as bytes fed to the hasher *)
Definition field (value : string) : string :=
  be_bytes 8 (Z.of_nat (String.length value)) +:+ value.

(** The bytes [card_post_request_id] hashes, value by value. *)
Definition card_post_values (tenant : string) (m : Message) (card : AppCardContent) : list string :=
  [ tenant; sender_id m; conversation_id m; client_msg_id m; Str.of_int (conversation_type m);
    channel_id m; app_id card; card_type card; payload_schema card; title card; summary card;
    payload card ].

Definition hash_input (values : list string) : string :=
  foldr (fun v acc => field v +:+ acc) "" values.

Section CardPost.
(** Hex of the SHA-256 digest of a byte string. *)
Context (sha256_hex : string -> string).

(** [card_post_request_id] *)
Definition card_post_request_id (tenant : string) (m : Message) : option string :=
  card ← top_level_plugin_card m;
  Some (CARD_POST_REQUEST_PREFIX +:+ sha256_hex (hash_input (card_post_values tenant m card))).

(** The first refusal of [verify_card_post]: the identity. *)
Definition not_card_post_identity (c : SignedContextClaims) : bool :=
  bool_decide (kid c <> CARD_POST_KID)
  || bool_decide (actor_type c <> ActUser)
  || bool_decide (roles c <> [CARD_POST_ROLE])
  || bool_decide (credential_id c <> None).

(** The second one: the shape of the card. *)
Definition wrong_card_shape (c : SignedContextClaims) (m : Message) (card : AppCardContent) : bool :=
  bool_decide (sender_id m <> actor_id c)
  || bool_decide (source m <> Some SrcUser)
  || bool_decide (message_type m <> TypeAppCard)
  || bool_decide (attributes m <> ∅)
  || negb (String.prefix CARD_CLIENT_MSG_ID_PREFIX (client_msg_id m))
  || Str.is_empty (conversation_id m)
  || Str.is_empty (app_id card)
  || bool_decide (payload_schema card <> PLUGIN_CARD_PAYLOAD_SCHEMA)
  || negb (Str.is_empty (subtitle card))
  || negb (Str.is_empty (thumbnail_url card))
  || bool_decide (actions card <> [])
  || bool_decide (card_attributes card <> ∅).

Definition opt_set {A} (o : option A) : bool := match o with Some _ => true | None => false end.

(** The third one: fields the platform never sets. *)
Definition sets_foreign_field (m : Message) : bool :=
  negb (Str.is_empty (server_id m))
  || bool_decide (conversation_seq m <> 0)
  || opt_set (message_seq m)
  || bool_decide (created_at m <> 0)
  || bool_decide (status m <> Some StatusUnspecified)
  || negb (Str.is_empty (sender_name m))
  || negb (Str.is_empty (sender_avatar m))
  || opt_set (thread_id m)
  || opt_set (retention_policy m)
  || opt_set (retention_state m)
  || opt_set (offline_push_info m)
  || bool_decide (extensions m <> ∅).

(** [verify_card_post] *)
Definition verify_card_post (c : SignedContextClaims) (m : Message) : unit + string :=
  if not_card_post_identity c then inr "not a platform card post identity"
  else
    match top_level_plugin_card m with
    | None => inr "a card post carries a plugin card only"
    | Some card =>
        if wrong_card_shape c m card then inr "card post does not match the platform card shape"
        else if sets_foreign_field m then inr "card post sets a field the platform never sets"
        else if decide (card_post_request_id (claims_tenant_id c) m = Some (request_id c))
        then inl ()
        else inr "card post is not the one the context was signed for"
    end.
End CardPost.

(** ** The digest input determines the values *)

Lemma be_bytes_length k n : String.length (be_bytes k n) = k.
Proof.
  revert n. induction k as [|k IH]; intros n; simpl; [done|].
  rewrite Str.app_length, IH. simpl. lia.
Qed.

Lemma ascii_of_byte_inj (a b : Z) :
  0 <= a < 256 -> 0 <= b < 256 -> ascii_of_N (Z.to_N a) = ascii_of_N (Z.to_N b) -> a = b.
Proof.
  intros Ha Hb He. apply (f_equal N_of_ascii) in He.
  rewrite !N_ascii_embedding in He by lia. lia.
Qed.

Lemma be_bytes_inj k : forall n m,
  0 <= n < 256 ^ Z.of_nat k -> 0 <= m < 256 ^ Z.of_nat k -> be_bytes k n = be_bytes k m -> n = m.
Proof.
  induction k as [|k IH]; intros n m Hn Hm He; [change (256 ^ Z.of_nat 0) with 1 in *; lia|].
  rewrite Nat2Z.inj_succ, Z.pow_succ_r in Hn, Hm by lia. cbn [be_bytes] in He.
  apply Str.app_length_inj in He as [He1 He2]; [|by rewrite !be_bytes_length].
  injection He2 as He2. apply ascii_of_byte_inj in He2; [|apply Z.mod_pos_bound; lia..].
  apply IH in He1; [|split; [apply Z.div_pos; lia|apply Z.div_lt_upper_bound; lia]..].
  rewrite (Z.div_mod n 256), (Z.div_mod m 256) by lia. congruence.
Qed.

(** Rust strings are shorter than [2^64] bytes. *)
Definition fits (s : string) : Prop := Z.of_nat (String.length s) < 2 ^ 64.

Lemma field_inj a b x y :
  fits a -> fits b -> field a +:+ x = field b +:+ y -> a = b /\ x = y.
Proof.
  unfold fits, field. intros Ha Hb He. rewrite !Str.app_assoc in He.
  apply Str.app_length_inj in He as [Hl He]; [|by rewrite !be_bytes_length].
  apply be_bytes_inj in Hl; [|change (256 ^ Z.of_nat 8) with (2 ^ 64); lia..].
  apply Str.app_length_inj in He; [done|lia].
Qed.

Lemma hash_input_inj vs ws :
  length vs = length ws -> Forall fits vs -> Forall fits ws -> hash_input vs = hash_input ws -> vs = ws.
Proof.
  revert ws. induction vs as [|v vs IH]; intros [|w ws] Hl Hv Hw He; try done.
  apply Forall_cons in Hv as [? ?], Hw as [? ?]. simpl in He.
  apply field_inj in He as [-> He]; [|done..]. f_equal. apply IH; [|done..]. by injection Hl.
Qed.

(** ** What an accepted card post looks like *)

Lemma bool_decide_neq_false (P : Prop) `{Decision P} `{Decision (~ P)} : bool_decide (~ P) = false -> P.
Proof. intros Hb%bool_decide_eq_false. by apply dec_stable. Qed.

Lemma opt_set_false {A} (o : option A) : opt_set o = false -> o = None.
Proof. by destruct o. Qed.

Lemma nonempty_false s : negb (Str.is_empty s) = false -> s = "".
Proof. intros H%negb_false_iff. by apply Str.is_empty_true. Qed.

Create HintDb card.
#[export] Hint Resolve opt_set_false nonempty_false : card.

(** Splits a guard of the source, a disjunction that did not hold, into the
    facts it leaves. *)
Ltac split_guard H :=
  repeat match type of H with
  | (_ || _) = false => let H' := fresh H in apply orb_false_iff in H as [H H']
  end.

(** The one message a context signed for [card] can post. *)
Definition posted_message (c : SignedContextClaims) (m : Message) (card : AppCardContent) : Message :=
  mkMessage "" (conversation_id m) (client_msg_id m) (actor_id c) (Some SrcUser) 0 0
    (conversation_type m) TypeAppCard None (channel_id m) "" "" None (Some (Some (AppCard card)))
    (Some StatusUnspecified) None None None ∅ ∅.

Definition posted_card (card : AppCardContent) : AppCardContent :=
  mkAppCard (app_id card) PLUGIN_CARD_TYPE PLUGIN_CARD_PAYLOAD_SCHEMA (title card) (summary card)
    (payload card) "" "" [] ∅.

Section Accepted.
Context (sha256_hex : string -> string).

Lemma verify_card_post_shape c m :
  verify_card_post sha256_hex c m = inl () ->
  exists card,
    m = posted_message c m card /\ card = posted_card card
    /\ String.prefix CARD_CLIENT_MSG_ID_PREFIX (client_msg_id m) = true
    /\ request_id c = CARD_POST_REQUEST_PREFIX
         +:+ sha256_hex (hash_input (card_post_values (claims_tenant_id c) m card)).
Proof.
  unfold verify_card_post. destruct (not_card_post_identity c); [done|].
  destruct (top_level_plugin_card m) as [card|] eqn:Hcard; [|done].
  destruct (wrong_card_shape c m card) eqn:Hs; [done|].
  destruct (sets_foreign_field m) eqn:Hf; [done|].
  case_decide as Hr; [|done]. intros _. exists card.
  unfold card_post_request_id in Hr. rewrite Hcard in Hr. simpl in Hr.
  unfold top_level_plugin_card in Hcard.
  destruct (content m) as [[[]|]|] eqn:Hct; try done. case_decide as Hty; [|done].
  injection Hcard as ->. unfold wrong_card_shape in Hs. split_guard Hs.
  unfold sets_foreign_field in Hf. split_guard Hf.
  apply negb_false_iff in Hs7.
  repeat match goal with
  | H : bool_decide (?P -> False) = false |- _ => apply (bool_decide_neq_false P) in H
  | H : bool_decide (~ ?P) = false |- _ => apply (bool_decide_neq_false P) in H
  | H : opt_set _ = false |- _ => apply opt_set_false in H
  | H : negb (Str.is_empty _) = false |- _ => apply nonempty_false in H
  end.
  destruct m, card; simpl in *; unfold posted_message, posted_card; simpl.
  split; [by simplify_eq; f_equal|]. split; [f_equal; done|]. split; [done|congruence].
Qed.

Definition card_of (m : Message) : AppCardContent :=
  default (mkAppCard "" "" "" "" "" "" "" "" [] ∅) (top_level_plugin_card m).

Lemma posted_card_of c m card : m = posted_message c m card -> card = posted_card card -> card_of m = card.
Proof.
  intros -> Hc. unfold card_of, top_level_plugin_card. simpl. rewrite decide_True; [done|].
  by rewrite Hc.
Qed.

(** A context signed for a card post authorizes one message and nothing else:
    two messages accepted under the same claims are equal in every field, unless
    they exhibit a collision of the hash function. (Field lengths are those of
    Rust strings, below [2^64].) *)
Theorem card_post_authorizes_one_message (c : SignedContextClaims) (m1 m2 : Message)
    (H1 : verify_card_post sha256_hex c m1 = inl ())
    (H2 : verify_card_post sha256_hex c m2 = inl ())
    (F1 : Forall fits (card_post_values (claims_tenant_id c) m1 (card_of m1)))
    (F2 : Forall fits (card_post_values (claims_tenant_id c) m2 (card_of m2))) :
  m1 = m2 \/ exists x y, x <> y /\ sha256_hex x = sha256_hex y.
Proof.
  apply verify_card_post_shape in H1 as (c1 & E1 & K1 & _ & R1), H2 as (c2 & E2 & K2 & _ & R2).
  rewrite (posted_card_of c m1 c1), (posted_card_of c m2 c2) in * by done.
  rewrite R1 in R2. apply Str.append_inj_l in R2.
  destruct (decide (card_post_values (claims_tenant_id c) m1 c1
                    = card_post_values (claims_tenant_id c) m2 c2)) as [Hv|Hne].
  - left. unfold card_post_values in Hv. injection Hv as _ Hcv Hcm Hct Hch Ha _ _ Ht Hsu Hp.
    apply Str.of_int_inj in Hct. rewrite E1, E2, K1, K2. unfold posted_message, posted_card. congruence.
  - right. do 2 eexists. split; [|exact R2]. intros He. apply Hne. by apply hash_input_inj in He.
Qed.
End Accepted.

(** A concrete post, with the identity in place of the hash. *)
Definition demo_card : AppCardContent :=
  mkAppCard "example.poll" PLUGIN_CARD_TYPE PLUGIN_CARD_PAYLOAD_SCHEMA "" "" "{}" "" "" [] ∅.
Definition demo_post : Message :=
  mkMessage "" "2-group" "pcard-1" "alice" (Some SrcUser) 0 0 2 TypeAppCard None "g" "" "" None
    (Some (Some (AppCard demo_card))) (Some StatusUnspecified) None None None ∅ ∅.
Definition demo_claims : SignedContextClaims :=
  mkClaims CARD_POST_KID ActUser "alice" "app-a" [CARD_POST_ROLE] None
    (default "" (card_post_request_id id "app-a" demo_post)).

Lemma demo_post_accepted : verify_card_post id demo_claims demo_post = inl ().
Proof. vm_compute. reflexivity. Qed.

Lemma demo_post_fits :
  Forall fits (card_post_values (claims_tenant_id demo_claims) demo_post (card_of demo_post)).
Proof. repeat (apply List.Forall_cons; [by vm_compute|]). apply List.Forall_nil. Qed.

Lemma card_post_authorizes_one_message_witness :
  verify_card_post id demo_claims demo_post = inl ()
  /\ (demo_post = demo_post \/ exists x y : string, x <> y /\ id x = id y).
Proof.
  split; [exact demo_post_accepted|].
  exact (card_post_authorizes_one_message id demo_claims demo_post demo_post
           demo_post_accepted demo_post_accepted demo_post_fits demo_post_fits).
Defined.

(** ** Look-alikes *)

(** Whatever the platform would accept as a card is a card for the refusals
    too, so no exact plugin card slips past the check other senders are held to:
    an accepted post claims to be a plugin card and lies in the reserved
    client-message-id namespace, which ordinary senders may not use. *)
Theorem accepted_post_is_claimed_and_reserved (sha256_hex : string -> string)
    (c : SignedContextClaims) (m : Message)
    (Hok : verify_card_post sha256_hex c m = inl ()) :
  message_claims_plugin_card m = true
  /\ String.prefix CARD_CLIENT_MSG_ID_PREFIX (client_msg_id m) = true
  /\ sender_id m = actor_id c
  /\ is_plugin_state_publisher c = false.
Proof.
  pose proof Hok as Hid. unfold verify_card_post in Hid.
  destruct (not_card_post_identity c) eqn:Hi; [done|]. clear Hid.
  apply verify_card_post_shape in Hok as (card & E & K & P & _).
  rewrite E at 1. unfold message_claims_plugin_card, claims_plugin_card. simpl. rewrite K. simpl.
  split; [vm_compute; reflexivity|]. split; [done|]. split; [by rewrite E|].
  unfold not_card_post_identity in Hi. split_guard Hi.
  apply (bool_decide_neq_false (actor_type c = ActUser)) in Hi2.
  unfold is_plugin_state_publisher. rewrite Hi2, (bool_decide_eq_false_2 (ActUser = ActSystem)) by done.
  by rewrite !andb_false_r.
Qed.

Lemma accepted_post_is_claimed_and_reserved_witness :
  message_claims_plugin_card demo_post = true /\ is_plugin_state_publisher demo_claims = false.
Proof.
  destruct (accepted_post_is_claimed_and_reserved id demo_claims demo_post) as (H1 & _ & _ & H4);
    [vm_compute; reflexivity|]. by split.
Defined.
