(* ===== verification/Validation.v ===== *)
(** * Message and event validation

    crates/flare-im-message-pipeline/src/validation/mod.rs: validation results
    and their merge, the built-in strategies and the short-circuiting composite
    that runs them. The encoded size of a message (prost) is a parameter. *)

From S2P Require Import Prelude Proto PluginPlatform.
From stdpp Require Import base gmap strings list.
From Stdlib Require Import Lia ZArith Ascii.

Local Open Scope Z_scope.

Record ValidationResult := mkValidation {
  is_valid : bool;
  errors : list string;
  warnings : list string;
}.

Definition valid : ValidationResult := mkValidation true [] [].
Definition invalid (error : string) : ValidationResult := mkValidation false [error] [].
Definition with_warning (r : ValidationResult) (w : string) : ValidationResult :=
  mkValidation (is_valid r) (errors r) (warnings r ++ [w]).
Definition merge (r other : ValidationResult) : ValidationResult :=
  mkValidation (is_valid r && is_valid other) (errors r ++ errors other)
    (warnings r ++ warnings other).

(** A strategy: [EventValidationStrategy] and [MessageValidationStrategy]. *)
Definition Strategy (A : Type) : Type := Ctx -> A -> result ValidationResult.

(** [validate] of the composite strategies: run in order, stop at the first
    invalid result. *)
Fixpoint composite_from {A} (acc : ValidationResult) (ss : list (Strategy A)) (ctx : Ctx) (x : A)
    : result ValidationResult :=
  match ss with
  | [] => Ok acc
  | s :: ss' =>
      r ← s ctx x;
      let acc := merge acc r in
      if negb (is_valid acc) then Ok acc else composite_from acc ss' ctx x
  end.

Definition composite {A} : list (Strategy A) -> Strategy A := composite_from valid.

(** ** Messages *)

Definition DEFAULT_MAX_MESSAGE_SIZE : Z := 10 * 1024 * 1024.
Definition CONVERSATION_TYPE_SINGLE : Z := 1.

Section Messages.
Context (encoded_len : Message -> Z).

(** [MessageSizeValidationStrategy] *)
Definition MessageSizeValidationStrategy (max_message_size : Z) : Strategy Message :=
  fun _ m =>
    if decide (max_message_size < encoded_len m)
    then Ok (invalid ("Message size " +:+ Str.of_Z (encoded_len m)
                      +:+ " bytes exceeds maximum allowed size " +:+ Str.of_Z max_message_size
                      +:+ " bytes"))
    else Ok valid.

(** [MessageRequiredFieldsValidationStrategy] *)
Definition MessageRequiredFieldsValidationStrategy : Strategy Message :=
  fun _ m =>
    let r := valid in
    let r := if Str.is_empty (conversation_id m)
             then merge r (invalid "conversation_id is required") else r in
    let r := if Str.is_empty (sender_id m)
             then merge r (invalid "sender_id is required") else r in
    let r := if bool_decide (conversation_type m = CONVERSATION_TYPE_SINGLE)
                && Str.is_empty (channel_id m)
             then merge r (invalid "channel_id (receiver_id) is required for single chat") else r in
    Ok r.

Definition default_message_composite : Strategy Message :=
  composite [MessageSizeValidationStrategy DEFAULT_MAX_MESSAGE_SIZE;
             MessageRequiredFieldsValidationStrategy].
End Messages.

(** ** Events *)

(** The name of an event type and the code of an unknown one only appear in
    error texts. *)
Definition EventTypeValidationStrategy (allowed_types : list EventType) : Strategy Event :=
  fun _ e =>
    match ev_type e with
    | Some et => if bool_decide (et ∈ allowed_types) then Ok valid
                 else Ok (invalid "Event type is not allowed")
    | None => Ok (invalid "Invalid event type")
    end.

(** [all_supported] *)
Definition all_supported : list EventType :=
  [ EventMessage; EventMessageRecall; EventMessageEdit; EventMessageDelete; EventReadReceipt;
    EventConversationUpdate; EventConversationDelete; EventReaction; EventPin; EventUnpin;
    EventMark; EventUnmark; EventMessageRetentionScheduled; EventMessageRetentionExpired;
    EventMessageRetentionPurged; EventCustom; EventMessagePluginState ].

(** [EventRequiredFieldsValidationStrategy] *)
Definition EventRequiredFieldsValidationStrategy : Strategy Event :=
  fun _ e =>
    let r := valid in
    let r := if Str.is_empty (ev_conversation_id e)
             then merge r (invalid "conversation_id is required for event") else r in
    let r := if Str.is_empty (event_id e)
             then merge r (invalid "event_id is required for event") else r in
    Ok r.

Definition MAX_PLUGIN_STATE_VALUES_BYTES : Z := 8 * 1024.

Definition is_entity_char (c : ascii) : bool :=
  let n := N_of_ascii c in
  ((48 <=? n)%N && (n <=? 57)%N) || ((65 <=? n)%N && (n <=? 90)%N)
  || ((97 <=? n)%N && (n <=? 122)%N)
  || (n =? 46)%N || (n =? 95)%N || (n =? 45)%N || (n =? 58)%N.

Definition str_len (s : string) : Z := Z.of_nat (String.length s).

Definition entity_ok (s : PluginStateEvent) : bool :=
  negb (Str.is_empty (entity s)) && bool_decide (str_len (entity s) <= 128)
  && Str.all_chars is_entity_char (entity s).

Definition bad_plugin_state (s : PluginStateEvent) : bool :=
  Str.is_empty (state_server_msg_id s)
  || Str.is_empty (plugin_id s)
  || bool_decide (128 < str_len (plugin_id s))
  || negb (entity_ok s)
  || bool_decide (version s = 0)
  || bool_decide (i64_max < version s)
  || bool_decide (MAX_PLUGIN_STATE_VALUES_BYTES < str_len (values_json s)).

(** The context was signed by Capability's state publisher. *)
Definition from_state_publisher (ctx : Ctx) : bool :=
  match ctx_claims ctx with Some c => is_plugin_state_publisher c | None => false end.

(** [PluginStateEventValidationStrategy] *)
Definition PluginStateEventValidationStrategy : Strategy Event :=
  fun ctx e =>
    let is_plugin_state := bool_decide (ev_type e = Some EventMessagePluginState) in
    let from_system := from_state_publisher ctx in
    Ok match ev_payload e, is_plugin_state with
       | Some (PPluginState state), true =>
           if negb from_system then invalid "plugin state is published by the system only"
           else if bad_plugin_state state then invalid "invalid plugin state event"
           else valid
       | Some (PPluginState _), false => invalid "plugin state type and payload disagree"
       | _, true => invalid "plugin state type and payload disagree"
       | _, false => valid
       end.

(** [CompositeEventValidationStrategy::default_composite] *)
Definition default_event_composite : Strategy Event :=
  composite [EventTypeValidationStrategy all_supported;
             EventRequiredFieldsValidationStrategy;
             PluginStateEventValidationStrategy].

(** ** Lemmas *)

Lemma composite_valid_inv {A} (ss : list (Strategy A)) ctx x : forall acc r,
  composite_from acc ss ctx x = Ok r -> is_valid r = true ->
  is_valid acc = true \/ ss = [] ->
  Forall (fun s => exists r', s ctx x = Ok r' /\ is_valid r' = true) ss.
Proof.
  induction ss as [|s ss IH]; intros acc r Hc Hv Hacc; [constructor|].
  cbn [composite_from] in Hc. apply bind_ok_inv in Hc as (r' & Hr' & Hc). cbv zeta in Hc.
  destruct (is_valid (merge acc r')) eqn:Hm; cbn [negb] in Hc; [|injection Hc as <-; congruence].
  assert (Hr'v : is_valid r' = true) by (simpl in Hm; by apply andb_true_iff in Hm as [_ ?]).
  constructor; [by exists r'|]. eapply IH; [exact Hc|done|by left].
Qed.

Lemma composite_valid {A} (ss : list (Strategy A)) ctx x r :
  composite ss ctx x = Ok r -> is_valid r = true ->
  Forall (fun s => exists r', s ctx x = Ok r' /\ is_valid r' = true) ss.
Proof. intros Hc Hv. eapply composite_valid_inv; [exact Hc|done|by left]. Qed.

Lemma composite_complete {A} (ss : list (Strategy A)) ctx x : forall acc,
  is_valid acc = true ->
  Forall (fun s => exists r', s ctx x = Ok r' /\ is_valid r' = true) ss ->
  exists r, composite_from acc ss ctx x = Ok r /\ is_valid r = true.
Proof.
  induction ss as [|s ss IH]; intros acc Ha Hf; [by exists acc|].
  apply Forall_cons in Hf as [(r' & Hr' & Hv') Hf]. simpl. rewrite Hr'. simpl.
  rewrite Ha, Hv'. simpl. apply IH; [|done]. simpl. by rewrite Ha, Hv'.
Qed.

(** The shape the default event validation guarantees. *)
Definition event_shape_ok (ctx : Ctx) (e : Event) : Prop :=
  (exists t, ev_type e = Some t /\ t ∈ all_supported)
  /\ (ev_conversation_id e <> "" /\ event_id e <> "")
  /\ match ev_payload e with
     | Some (PPluginState state) =>
         ev_type e = Some EventMessagePluginState
         /\ from_state_publisher ctx = true /\ bad_plugin_state state = false
     | _ => ev_type e <> Some EventMessagePluginState
     end.

Lemma required_fields_valid ctx e :
  (exists r', EventRequiredFieldsValidationStrategy ctx e = Ok r' /\ is_valid r' = true)
  <-> ev_conversation_id e <> "" /\ event_id e <> "".
Proof.
  unfold EventRequiredFieldsValidationStrategy.
  rewrite <- !Str.is_empty_false.
  destruct (Str.is_empty (ev_conversation_id e)), (Str.is_empty (event_id e)); naive_solver.
Qed.

Lemma plugin_state_valid ctx e :
  (exists r', PluginStateEventValidationStrategy ctx e = Ok r' /\ is_valid r' = true)
  <-> match ev_payload e with
      | Some (PPluginState state) =>
          ev_type e = Some EventMessagePluginState
          /\ from_state_publisher ctx = true /\ bad_plugin_state state = false
      | _ => ev_type e <> Some EventMessagePluginState
      end.
Proof.
  unfold PluginStateEventValidationStrategy.
  destruct (decide (ev_type e = Some EventMessagePluginState)) as [Ht|Ht].
  - rewrite (bool_decide_eq_true_2 _ Ht).
    destruct (ev_payload e) as [[]|]; try (split; [naive_solver|done]).
    destruct (from_state_publisher ctx); simpl; [|split; [naive_solver|naive_solver]].
    destruct (bad_plugin_state state); naive_solver.
  - rewrite (bool_decide_eq_false_2 _ Ht). destruct (ev_payload e) as [[]|]; naive_solver.
Qed.

Lemma default_event_validation_shape (ctx : Ctx) (e : Event) :
  (exists r, default_event_composite ctx e = Ok r /\ is_valid r = true) <-> event_shape_ok ctx e.
Proof.
  assert (Hty : (exists r', EventTypeValidationStrategy all_supported ctx e = Ok r' /\ is_valid r' = true)
                <-> exists t, ev_type e = Some t /\ t ∈ all_supported).
  { unfold EventTypeValidationStrategy. destruct (ev_type e) as [t|]; [|naive_solver].
    case_bool_decide; naive_solver. }
  unfold event_shape_ok. rewrite <- Hty, <- required_fields_valid, <- plugin_state_valid.
  split.
  - intros (r & Hc & Hv). apply composite_valid in Hc; [|done].
    rewrite !Forall_cons in Hc. naive_solver.
  - intros (H1 & H2 & H3). apply composite_complete; [done|]. repeat constructor; assumption.
Qed.

(** The default event validation accepts exactly the well-shaped events: a
    supported type, a conversation and an event id, and plugin state only as a
    plugin-state event, with a well-formed payload, from Capability's signed
    publisher. *)
Theorem default_event_validation_spec (ctx : Ctx) (e : Event) :
  (exists r, default_event_composite ctx e = Ok r /\ is_valid r = true) <-> event_shape_ok ctx e.
Proof. apply default_event_validation_shape. Qed.
