(* ===== verification/OperationPolicy.v ===== *)
(** * Authorization of message operations

    flare-orchestrator/src/domain/service/message_operation_policy.rs: who may
    recall, edit, delete, react to, pin, mark or read which message. The stored
    messages and the conversation membership are the repositories the policy is
    built from, records of their operations here; an authorization reads them at
    one point in time. *)

From S2P Require Import Prelude Proto PluginPlatform Validation.
From stdpp Require Import base gmap strings list sorting.
From Stdlib Require Import Lia ZArith.

Local Open Scope Z_scope.

Definition RECALL_WINDOW_MS : Z := 24 * 3600 * 1000.
Definition EDIT_WINDOW_MS : Z := 24 * 3600 * 1000.
Definition TRUSTED_OPERATION_SERVICES : list string := ["flare-social-bridge"].
Definition MAX_RECEIPT_MESSAGE_IDS : nat := 50.

Module reason.
Definition NOT_SENDER : string := "MESSAGE_OPERATION_NOT_SENDER".
Definition CONVERSATION_MISMATCH : string := "MESSAGE_OPERATION_CONVERSATION_MISMATCH".
Definition WINDOW_EXPIRED : string := "MESSAGE_OPERATION_WINDOW_EXPIRED".
Definition NOT_EDITABLE : string := "MESSAGE_NOT_EDITABLE".
Definition PLUGIN_CARD_NOT_EDITABLE : string := "PLUGIN_CARD_NOT_EDITABLE".
Definition IDENTITY_MISMATCH : string := "MESSAGE_OPERATION_IDENTITY_MISMATCH".
Definition FORBIDDEN : string := "MESSAGE_OPERATION_FORBIDDEN".
Definition REASON_REQUIRED : string := "MESSAGE_OPERATION_REASON_REQUIRED".
Definition NOT_MEMBER : string := "MESSAGE_OPERATION_NOT_MEMBER".
End reason.

(** ** The operator *)

Inductive Operator :=
  | OpUser (user : string)
  | OpTrusted (service : string)
  | OpStatePublisher
  | OpNone.

#[export] Instance Operator_eq_dec : EqDecision Operator.
Proof. solve_decision. Defined.

(** [Option::filter] for a text that is not blank *)
Definition not_blank (o : option string) : option string :=
  match o with
  | Some s => if Str.is_blank s then None else Some s
  | None => None
  end.

(** [Operator::of] *)
Definition operator_of (ctx : Ctx) : Operator :=
  match ctx_claims ctx with
  | Some claims =>
      if is_card_post_context claims then
        if is_plugin_state_publisher claims then OpStatePublisher else OpNone
      else
        match actor_type claims with
        | ActUser | ActTenantAdmin =>
            if negb (Str.is_empty (actor_id claims)) then OpUser (actor_id claims) else OpNone
        | ActSystem =>
            if negb (Str.is_empty (actor_id claims)) then OpTrusted (actor_id claims) else OpNone
        | ActService =>
            if bool_decide (actor_id claims ∈ TRUSTED_OPERATION_SERVICES)
            then OpTrusted (actor_id claims) else OpNone
        | _ => OpNone
        end
  | None =>
      let user :=
        match not_blank (ctx_user_id ctx) with
        | Some user => Some user
        | None =>
            match ctx_actor ctx with
            | Some (CtxUser, id) => not_blank (Some id)
            | _ => None
            end
        end in
      match user with Some user => OpUser user | None => OpNone end
  end.

Definition denied (code details : string) : FlareError := flare_err_details PermissionDenied code details.
Definition invalid_operation (details : string) : FlareError :=
  flare_err_details InvalidParameter "MESSAGE_OPERATION_INVALID" details.

(** [editable] *)
Definition editable (c : option MessageContent) : bool :=
  match c with
  | Some (Some (Text _ _)) | Some (Some RichText) => true
  | Some (Some (Quote (Some (Some (Text _ _))))) | Some (Some (Quote (Some (Some RichText)))) => true
  | _ => false
  end.

Inductive MembershipRead := Recent | Current.

(** [membership_read] *)
Definition membership_read (p : option Payload) : MembershipRead :=
  match p with
  | Some (PRead _) | Some (PReaction _ _ _) => Recent
  | _ => Current
  end.

(** [bind_user]: the field it leaves *)
Definition bind_user (field : string) (op : Operator) : result string :=
  match op with
  | OpUser user =>
      if Str.is_empty field then Ok user
      else if decide (field = user) then Ok field
      else Err (denied reason.IDENTITY_MISMATCH "the event names another user than its operator")
  | OpTrusted _ =>
      if negb (Str.is_empty field) then Ok field
      else Err (invalid_operation "a trusted operation must name its user")
  | OpStatePublisher | OpNone =>
      Err (denied reason.FORBIDDEN "this identity may not operate on messages")
  end.

(** ** Repositories and the policy *)

(** [MessageTargetRepository] *)
Record MessageTargetRepository := mkTargets {
  target_message : Ctx -> string -> string -> result (option Message);
  conversations_of : Ctx -> string -> list string -> result (gmap string string);
}.

(** [ConversationMembershipRepository] *)
Record ConversationMembershipRepository := mkMembers {
  is_member : Ctx -> string -> string -> string -> MembershipRead -> result bool;
}.

Record MessageOperationPolicy := mkOpPolicy {
  targets : option MessageTargetRepository;
  members : option ConversationMembershipRepository;
  now_ms : Z;
}.

(** [Vec::dedup] *)
Fixpoint dedup (l : list string) : list string :=
  match l with
  | x :: ((y :: _) as l') => if decide (x = y) then dedup l' else x :: dedup l'
  | _ => l
  end.

Definition string_le (s t : string) : Prop := String.leb s t = true.
#[export] Instance string_le_dec : RelDecision string_le.
Proof. intros s t. unfold string_le. apply _. Defined.

(** The distinct ids of a receipt: [sort_unstable] and [dedup]. *)
Definition distinct_ids (ids : list string) : list string := dedup (merge_sort string_le ids).

Section Policy.
Context (self : MessageOperationPolicy) (ctx : Ctx) (tenant : string).

(** [target] *)
Definition target (conversation server_msg_id : string) : result Message :=
  if Str.is_blank server_msg_id then Err (invalid_operation "the event names no message")
  else
    repo ← ok_or (targets self)
             (flare_err ServiceUnavailable "message operation authorization unavailable");
    found ← target_message repo ctx tenant server_msg_id;
    m ← ok_or found (flare_err_details ServiceUnavailable "message not stored yet"
                       "retry the operation shortly");
    if decide (server_id m <> server_msg_id) then
      Err (denied reason.CONVERSATION_MISMATCH "the event names no message of this conversation")
    else if decide (conversation_id m <> conversation) then
      Err (denied reason.CONVERSATION_MISMATCH "the message belongs to another conversation")
    else Ok m.

(** [require_member] *)
Definition require_member (conversation user : string) (read : MembershipRead) : result unit :=
  repo ← ok_or (members self)
           (flare_err ServiceUnavailable "conversation membership unavailable");
  ok ← is_member repo ctx tenant conversation user read;
  if (ok : bool) then Ok ()
  else Err (denied reason.NOT_MEMBER "the operator is not a member of this conversation").

(** [receipt_targets] *)
Definition receipt_targets (conversation : string) (ids : list string) : result unit :=
  if decide (MAX_RECEIPT_MESSAGE_IDS < length ids)%nat then
    Err (invalid_operation "a read receipt names at most 50 messages")
  else
    let distinct := distinct_ids ids in
    match distinct with
    | [] => Ok ()
    | _ =>
        if existsb Str.is_blank distinct then
          Err (invalid_operation "a read receipt names an empty message id")
        else
          repo ← ok_or (targets self)
                   (flare_err ServiceUnavailable "message operation authorization unavailable");
          located ← conversations_of repo ctx tenant distinct;
          let conversations := (fun id => (located : gmap string string) !! id) <$> distinct in
          if existsb (fun found => match found with
                                   | Some c => bool_decide (c <> conversation)
                                   | None => false
                                   end) conversations
          then Err (denied reason.CONVERSATION_MISMATCH
                      "the receipt names a message of another conversation")
          else if bool_decide (None ∈ conversations)
          then Err (flare_err_details ServiceUnavailable "message not stored yet"
                      "retry the receipt shortly")
          else Ok ()
    end.

(** [sender_within] *)
Definition sender_within (op : Operator) (m : Message) (window_ms : Z) : result unit :=
  match op with
  | OpTrusted _ => Ok ()
  | OpUser user =>
      if decide (user = sender_id m) then
        let age := i64_sat_sub (now_ms self) (created_at m) in
        if bool_decide (created_at m <= 0) || bool_decide (window_ms < age)
        then Err (denied reason.WINDOW_EXPIRED "the operation window of this message has passed")
        else Ok ()
      else Err (denied reason.NOT_SENDER "only the sender may do this to a message")
  | OpStatePublisher | OpNone =>
      Err (denied reason.FORBIDDEN "this identity may not operate on messages")
  end.

Definition is_trusted (op : Operator) : bool := match op with OpTrusted _ => true | _ => false end.

(** The payloads no user may send: refused without a membership lookup. *)
Definition refused_without_lookup (p : option Payload) : bool :=
  match p with
  | None | Some (PMessage _) | Some PConversation | Some PConversationDelete
  | Some PRetentionScheduled | Some PRetentionExpired | Some PRetentionPurged
  | Some (PPluginState _) => true
  | _ => false
  end.

Definition CUSTOM_USER_KEYS : list string :=
  ["user_id"; "userId"; "operator_id"; "operatorId"; "x-user-id"].

(** A custom event of [user] names someone else under a user key. *)
Definition names_another (custom : CustomEvent) (user : string) : bool :=
  existsb (fun key => match custom_attributes custom !! key with
                      | Some named => bool_decide (named <> user)
                      | None => false
                      end) CUSTOM_USER_KEYS.

(** The [Recall] arm of [authorize]. *)
Definition authorize_recall (op : Operator) (conversation : string) (recall : MessageRecallEvent)
    : result Payload :=
  m ← target conversation (recall_server_msg_id recall);
  _ ← sender_within op m RECALL_WINDOW_MS;
  if is_trusted op && Str.is_blank (recall_reason recall) then
    Err (denied reason.REASON_REQUIRED "a service recalling a message must say why")
  else Ok (PRecall (mkRecall (recall_server_msg_id recall) (recall_reason recall) None None)).

(** The [Edit] arm. *)
Definition authorize_edit (op : Operator) (conversation : string) (edit : MessageEditEvent)
    : result Payload :=
  if claims_plugin_card (new_content edit) then
    Err (denied reason.PLUGIN_CARD_NOT_EDITABLE "an edit may not produce a plugin card")
  else if negb (editable (new_content edit)) then
    Err (denied reason.NOT_EDITABLE "only text and rich text can be the content of an edit")
  else
    m ← target conversation (edit_server_msg_id edit);
    if message_claims_plugin_card m then
      Err (denied reason.PLUGIN_CARD_NOT_EDITABLE "a plugin card is never edited")
    else if negb (editable (content m))
            || bool_decide (status m = Some Recalled) || bool_decide (status m = Some Deleted) then
      Err (denied reason.NOT_EDITABLE "only text and rich text messages can be edited")
    else
      _ ← sender_within op m EDIT_WINDOW_MS;
      Ok (PEdit edit).

Definition delete_is_hard (d : MessageDeleteEvent) : bool :=
  bool_decide (delete_type d = Some (Some Hard)).
Definition delete_is_global (d : MessageDeleteEvent) : bool :=
  match delete_scope d with
  | Some scope => bool_decide (scope = Some ConversationGlobal)
  | None => delete_is_hard d
  end.

(** The [Delete] arm. *)
Definition authorize_delete (op : Operator) (conversation : string) (d : MessageDeleteEvent)
    : result Payload :=
  if delete_is_hard d && negb (is_trusted op) then
    Err (denied reason.FORBIDDEN "a hard delete is a trusted service operation")
  else
    m ← target conversation (delete_server_msg_id d);
    if delete_is_global d then
      _ ← sender_within op m RECALL_WINDOW_MS; Ok (PDelete d)
    else
      u ← bind_user (default "" (target_user_id d)) op;
      Ok (PDelete (mkDelete (delete_server_msg_id d) (delete_type d) (delete_scope d) (Some u))).

(** The [Read] arm. *)
Definition authorize_read (op : Operator) (conversation : string) (r : ReadReceiptEvent)
    : result Payload :=
  u ← bind_user (read_user_id r) op;
  if negb (Str.is_empty (read_conversation_id r))
     && bool_decide (read_conversation_id r <> conversation) then
    Err (denied reason.CONVERSATION_MISMATCH "the receipt names another conversation")
  else
    _ ← receipt_targets conversation (message_ids r);
    Ok (PRead (mkRead (read_conversation_id r) (read_seq r) u (message_ids r) (read_at r))).

(** The arms that bind a user and check the target: reaction, pin and mark. *)
Definition authorize_bound (op : Operator) (conversation msg user : string)
    (rebuild : string -> Payload) : result Payload :=
  u ← bind_user user op;
  _ ← target conversation msg;
  Ok (rebuild u).

(** The match on the payload. *)
Definition authorize_payload (op : Operator) (conversation : string) (p : option Payload)
    : result Payload :=
  match p with
  | Some (PRecall r) => authorize_recall op conversation r
  | Some (PEdit e) => authorize_edit op conversation e
  | Some (PDelete d) => authorize_delete op conversation d
  | Some (PReaction m u x) => authorize_bound op conversation m u (fun u => PReaction m u x)
  | Some (PPin m u) => authorize_bound op conversation m u (PPin m)
  | Some (PUnpin m u) => authorize_bound op conversation m u (PUnpin m)
  | Some (PMark m u) => authorize_bound op conversation m u (PMark m)
  | Some (PUnmark m u) => authorize_bound op conversation m u (PUnmark m)
  | Some (PRead r) => authorize_read op conversation r
  | Some (PCustom c) =>
      match op with
      | OpUser user =>
          if names_another c user then
            Err (denied reason.IDENTITY_MISMATCH "the event names another user than its operator")
          else Ok (PCustom c)
      | _ => Ok (PCustom c)
      end
  | Some ((PMessage _ | PConversation | PConversationDelete | PRetentionScheduled
          | PRetentionExpired | PRetentionPurged) as q) =>
      if negb (is_trusted op) then
        Err (denied reason.FORBIDDEN "only a trusted service sends this event")
      else Ok q
  | Some q => Ok q
  | None => Err (invalid_operation "the event carries no payload")
  end.

(** [authorize] *)
Definition authorize (e : Event) : result Event :=
  let op := operator_of ctx in
  if bool_decide (ev_type e = Some EventMessagePluginState) then Ok e
  else
    match op with
    | OpStatePublisher | OpNone =>
        Err (denied reason.FORBIDDEN "this identity may not send message events")
    | _ =>
        _ ← match op with
            | OpUser user =>
                if refused_without_lookup (ev_payload e) then Ok ()
                else require_member (ev_conversation_id e) user (membership_read (ev_payload e))
            | _ => Ok ()
            end;
        p ← authorize_payload op (ev_conversation_id e) (ev_payload e);
        Ok (with_payload e p)
    end.
End Policy.

(** ** What the policy promises *)

(** The user field [field] stands for [u] when [op] sends it. *)
Definition bound_to (op : Operator) (field u : string) : Prop :=
  match op with
  | OpUser x => (field = "" \/ field = x) /\ u = x
  | OpTrusted _ => field <> "" /\ u = field
  | _ => False
  end.

Lemma bind_user_ok op field u : bind_user field op = Ok u <-> bound_to op field u.
Proof.
  unfold bind_user, bound_to. destruct op; [| |naive_solver..].
  - destruct (Str.is_empty field) eqn:E.
    + apply Str.is_empty_true in E. naive_solver.
    + apply Str.is_empty_false in E. case_decide; naive_solver.
  - destruct (Str.is_empty field) eqn:E; simpl.
    + apply Str.is_empty_true in E. naive_solver.
    + apply Str.is_empty_false in E. naive_solver.
Qed.

Lemma elem_of_dedup x l : x ∈ dedup l <-> x ∈ l.
Proof.
  induction l as [|a [|b l] IH]; [done..|]. cbn [dedup].
  case_decide as Hab; [subst; rewrite IH|rewrite !elem_of_cons, IH]; set_solver.
Qed.

Lemma elem_of_distinct x ids : x ∈ distinct_ids ids <-> x ∈ ids.
Proof. unfold distinct_ids. rewrite elem_of_dedup. by rewrite merge_sort_Permutation. Qed.

(** The scan over the located conversations of the distinct ids. *)
Lemma located_scan (located : gmap string string) conv (ds : list string) :
  existsb (fun found : option string => match found with
                     | Some c => bool_decide (c <> conv) | None => false end)
    ((fun id => located !! id) <$> ds) = false ->
  bool_decide (None ∈ ((fun id => located !! id) <$> ds)) = false ->
  forall id, id ∈ ds -> located !! id = Some conv.
Proof.
  intros Hx Hn%bool_decide_eq_false id Hid.
  destruct (located !! id) as [c|] eqn:E.
  - destruct (decide (c = conv)) as [->|Hc]; [done|]. exfalso.
    assert (Ht : existsb (fun found : option string => match found with
        | Some c => bool_decide (c <> conv) | None => false end)
        ((fun id => located !! id) <$> ds) = true); [|congruence].
    apply existsb_exists. exists (Some c). split.
    + apply list_elem_of_In, list_elem_of_fmap. by exists id.
    + by apply bool_decide_eq_true.
  - exfalso. apply Hn, list_elem_of_fmap. by exists id.
Qed.

Lemma located_scan_none (located : gmap string string) conv (ds : list string) :
  (forall id, id ∈ ds -> located !! id = Some conv) ->
  (fun id => located !! id) <$> ds = (fun _ => Some conv) <$> ds.
Proof. intros H. apply list_fmap_ext. intros i x Hx. apply H. by eapply list_elem_of_lookup_2. Qed.

Lemma custom_ok op c :
  match op with OpUser u => names_another c u = false | _ => True end
  <-> forall u key named, op = OpUser u -> key ∈ CUSTOM_USER_KEYS ->
        custom_attributes c !! key = Some named -> named = u.
Proof.
  destruct op as [u| | |]; try naive_solver. unfold names_another. split.
  - intros Hx ? key named [= <-] Hk Hn. apply dec_stable. intros Hne.
    assert (existsb (fun key => match custom_attributes c !! key with
        | Some named => bool_decide (named <> u) | None => false end) CUSTOM_USER_KEYS = true);
      [|congruence].
    apply existsb_exists. exists key. split; [by apply list_elem_of_In|]. rewrite Hn.
    by apply bool_decide_eq_true.
  - intros Hall. destruct (existsb _ _) eqn:Hx; [|done].
    apply existsb_exists in Hx as (key & Hk%list_elem_of_In & Hx).
    destruct (custom_attributes c !! key) as [named|] eqn:E; [|done].
    apply bool_decide_eq_true in Hx. destruct Hx. by eapply Hall.
Qed.
Section Spec.
Context (self : MessageOperationPolicy) (ctx : Ctx) (tenant : string).

(** [id] names the stored message [m] of the conversation. *)
Definition stored (conversation id : string) (m : Message) : Prop :=
  Str.is_blank id = false
  /\ exists repo, targets self = Some repo
                  /\ target_message repo ctx tenant id = Ok (Some m)
                  /\ server_id m = id /\ conversation_id m = conversation.

(** The operator may act as the sender of [m] within [window]. *)
Definition acts_as_sender (op : Operator) (m : Message) (window : Z) : Prop :=
  match op with
  | OpTrusted _ => True
  | OpUser u => sender_id m = u /\ 0 < created_at m /\ i64_sat_sub (now_ms self) (created_at m) <= window
  | _ => False
  end.

(** Every message a receipt names is stored in the conversation. *)
Definition receipt_stored (conversation : string) (ids : list string) : Prop :=
  (length ids <= MAX_RECEIPT_MESSAGE_IDS)%nat
  /\ (ids = []
      \/ exists repo located,
           targets self = Some repo
           /\ conversations_of repo ctx tenant (distinct_ids ids) = Ok located
           /\ forall id, id ∈ ids -> Str.is_blank id = false /\ located !! id = Some conversation).

(** What an operator may do to a conversation, rule by rule: [permitted p p'] lets
    payload [p] through as [p']. *)
Inductive permitted (op : Operator) (conv : string) : Payload -> Payload -> Prop :=
  | may_recall r m :
      stored conv (recall_server_msg_id r) m -> acts_as_sender op m RECALL_WINDOW_MS ->
      (is_trusted op = true -> Str.is_blank (recall_reason r) = false) ->
      permitted op conv (PRecall r)
        (PRecall (mkRecall (recall_server_msg_id r) (recall_reason r) None None))
  | may_edit e m :
      claims_plugin_card (new_content e) = false -> editable (new_content e) = true ->
      stored conv (edit_server_msg_id e) m ->
      message_claims_plugin_card m = false -> editable (content m) = true ->
      status m <> Some Recalled -> status m <> Some Deleted ->
      acts_as_sender op m EDIT_WINDOW_MS ->
      permitted op conv (PEdit e) (PEdit e)
  | may_delete_for_all d m :
      (delete_is_hard d = true -> is_trusted op = true) ->
      stored conv (delete_server_msg_id d) m -> delete_is_global d = true ->
      acts_as_sender op m RECALL_WINDOW_MS ->
      permitted op conv (PDelete d) (PDelete d)
  | may_delete_for_one d m u :
      (delete_is_hard d = true -> is_trusted op = true) ->
      stored conv (delete_server_msg_id d) m -> delete_is_global d = false ->
      bound_to op (default "" (target_user_id d)) u ->
      permitted op conv (PDelete d)
        (PDelete (mkDelete (delete_server_msg_id d) (delete_type d) (delete_scope d) (Some u)))
  | may_react id x emoji m u :
      bound_to op x u -> stored conv id m -> permitted op conv (PReaction id x emoji) (PReaction id u emoji)
  | may_pin id x m u :
      bound_to op x u -> stored conv id m -> permitted op conv (PPin id x) (PPin id u)
  | may_unpin id x m u :
      bound_to op x u -> stored conv id m -> permitted op conv (PUnpin id x) (PUnpin id u)
  | may_mark id x m u :
      bound_to op x u -> stored conv id m -> permitted op conv (PMark id x) (PMark id u)
  | may_unmark id x m u :
      bound_to op x u -> stored conv id m -> permitted op conv (PUnmark id x) (PUnmark id u)
  | may_read r u :
      bound_to op (read_user_id r) u ->
      (read_conversation_id r = "" \/ read_conversation_id r = conv) ->
      receipt_stored conv (message_ids r) ->
      permitted op conv (PRead r)
        (PRead (mkRead (read_conversation_id r) (read_seq r) u (message_ids r) (read_at r)))
  | may_custom c :
      (forall u key named, op = OpUser u -> key ∈ CUSTOM_USER_KEYS ->
         custom_attributes c !! key = Some named -> named = u) ->
      permitted op conv (PCustom c) (PCustom c)
  | may_service p :
      is_trusted op = true ->
      refused_without_lookup (Some p) = true -> permitted op conv p p
  | may_state s : permitted op conv (PPluginState s) (PPluginState s).

(** A user sends events only as a member; no lookup is made for the payloads no
    user may send at all, nor for a payload of plugin state, which is checked only when the
    event type says plugin state. *)
Definition may_send (op : Operator) (conv : string) (p : Payload) : Prop :=
  match op with
  | OpTrusted _ => True
  | OpUser u =>
      refused_without_lookup (Some p) = true
      \/ exists repo, members self = Some repo
                      /\ is_member repo ctx tenant conv u (membership_read (Some p)) = Ok true
  | _ => False
  end.

(** ** The operations meet it *)

Lemma target_ok conv id m : target self ctx tenant conv id = Ok m <-> stored conv id m.
Proof.
  unfold target, stored. destruct (Str.is_blank id); [by split; [|intros []]|].
  destruct (targets self) as [repo|]; simpl; [rewrite exists_some|rewrite exists_none; naive_solver].
  destruct (target_message repo ctx tenant id) as [[m'|]|]; simpl;
    [|split; [done|by intros (_ & [=] & _)]..].
  repeat case_decide; naive_solver.
Qed.

Lemma sender_within_ok op m w r : sender_within self op m w = Ok r <-> acts_as_sender op m w.
Proof.
  unfold sender_within, acts_as_sender. destruct r, op; try naive_solver.
  case_decide; [|naive_solver].
  destruct (bool_decide (created_at m <= 0)) eqn:E1; simpl.
  { apply bool_decide_eq_true in E1. split; [done|lia]. }
  apply bool_decide_eq_false in E1. case_bool_decide; [split; [done|lia]|].
  split; [|done]. intros _. split; [done|lia].
Qed.

Lemma require_member_ok conv u read r :
  require_member self ctx tenant conv u read = Ok r
  <-> exists repo, members self = Some repo /\ is_member repo ctx tenant conv u read = Ok true.
Proof.
  unfold require_member. destruct r, (members self) as [repo|]; simpl;
    [rewrite exists_some|by rewrite exists_none].
  destruct (is_member repo ctx tenant conv u read) as [[]|]; simpl; naive_solver.
Qed.

Lemma receipt_targets_ok conv ids r :
  receipt_targets self ctx tenant conv ids = Ok r <-> receipt_stored conv ids.
Proof.
  destruct r. unfold receipt_targets, receipt_stored. case_decide as Hl; [split; [done|lia]|].
  pose proof (fun x => elem_of_distinct x ids) as Hin.
  destruct (distinct_ids ids) as [|d ds] eqn:E.
  { assert (ids = []) as -> by (apply elem_of_nil_inv; intros x Hx; apply Hin in Hx; set_solver).
    split; [|done]. intros _. split; [simpl; lia|by left]. }
  assert (Hne : ids <> []) by (intros ->; specialize (Hin d); set_solver).
  rewrite <- E in *. clear E d ds.
  destruct (existsb Str.is_blank (distinct_ids ids)) eqn:Hb.
  { apply existsb_exists in Hb as (x & Hx%list_elem_of_In & Hbl). split; [done|].
    intros (_ & [?|(repo & loc & _ & _ & Hall)]); [done|].
    destruct (Hall x) as [? _]; [by apply Hin|congruence]. }
  assert (Hnb : forall id, id ∈ ids -> Str.is_blank id = false).
  { intros id Hid. destruct (Str.is_blank id) eqn:Hbl; [|done]. rewrite <- Hb. symmetry.
    apply existsb_exists. exists id. split; [|done]. by apply list_elem_of_In, Hin. }
  assert (Hsplit : forall P, (length ids <= MAX_RECEIPT_MESSAGE_IDS)%nat /\ (ids = [] \/ P) <-> P).
  { intros P. split; [naive_solver|]. intros. split; [lia|by right]. }
  rewrite Hsplit. clear Hsplit.
  destruct (distinct_ids ids) as [|d ds] eqn:E; [exfalso; apply Hne, elem_of_nil_inv; set_solver|].
  rewrite <- E in *. clear E d ds.
  destruct (targets self) as [repo|]; simpl; [|split; [done|by intros (? & ? & ? & _)]].
  destruct (conversations_of repo ctx tenant (distinct_ids ids)) as [located|] eqn:Hc; simpl;
    [|split; [done|intros (? & ? & [= <-] & He & _); congruence]].
  clear Hb. split.
  - destruct (existsb _ _) eqn:Hx; [done|]. destruct (bool_decide (None ∈ _)) eqn:Hn; [done|]. intros _.
    exists repo, located. do 2 (split; [done|]). intros id Hid. split; [by apply Hnb|].
    eapply located_scan; [done..|]. by apply Hin.
  - intros (? & loc & [= <-] & He & Hall). rewrite Hc in He. injection He as <-.
    rewrite (located_scan_none located conv) by (intros id Hid; by apply Hall, Hin).
    rewrite bool_decide_eq_false_2 by (intros (? & [=] & _)%list_elem_of_fmap).
    destruct (existsb _ _) eqn:Hx; [|done].
    apply existsb_exists in Hx as (c & Hx%list_elem_of_In & Hcc).
    apply list_elem_of_fmap in Hx as (? & -> & _). by apply bool_decide_eq_true in Hcc.
Qed.

End Spec.

Create HintDb operation.
#[export] Hint Constructors permitted : operation.

Section Refinement.
Context (self : MessageOperationPolicy) (ctx : Ctx) (tenant : string).

Lemma authorize_recall_ok op conv r p' :
  authorize_recall self ctx tenant op conv r = Ok p' <-> permitted self ctx tenant op conv (PRecall r) p'.
Proof.
  unfold authorize_recall. split.
  - intros (m & Hm%target_ok & H)%bind_ok_inv. apply bind_ok_inv in H as (? & Hs%sender_within_ok & H).
    destruct (is_trusted op && Str.is_blank (recall_reason r)) eqn:E; [done|]. injection H as <-.
    apply andb_false_iff in E. eapply may_recall; [done..|]. intros Ht. destruct E; congruence.
  - inversion 1 as [? m Hm Hs Ht| | | | | | | | | | |q Htr Href|]; subst; [|done].
    apply target_ok in Hm as ->. simpl. apply (sender_within_ok self op m _ ()) in Hs as ->. simpl.
    destruct (is_trusted op); [|done]. by rewrite Ht.
Qed.

Lemma authorize_edit_ok op conv e p' :
  authorize_edit self ctx tenant op conv e = Ok p' <-> permitted self ctx tenant op conv (PEdit e) p'.
Proof.
  unfold authorize_edit. split.
  - destruct (claims_plugin_card _) eqn:Hc; [done|]. destruct (editable _) eqn:He; [|done]. simpl.
    intros (m & Hm%target_ok & H)%bind_ok_inv.
    destruct (message_claims_plugin_card m) eqn:Hcm; [done|].
    destruct (editable (content m)) eqn:Hem; [simpl in H|done].
    destruct (bool_decide (status m = Some Recalled)) eqn:H1; [done|].
    destruct (bool_decide (status m = Some Deleted)) eqn:H2; [done|]. simpl in H.
    apply bool_decide_eq_false in H1, H2.
    apply bind_ok_inv in H as (? & Hs%sender_within_ok & [= <-]). by eapply may_edit.
  - inversion 1 as [|? m Hc He Hm Hcm Hem H1 H2 Hs| | | | | | | | | |q Htr Href|]; subst; [|done].
    rewrite Hc, He. simpl. apply target_ok in Hm as ->. simpl. rewrite Hcm, Hem. simpl.
    rewrite !bool_decide_eq_false_2 by done. simpl.
    by apply (sender_within_ok self op m _ ()) in Hs as ->.
Qed.

Lemma authorize_delete_ok op conv d p' :
  authorize_delete self ctx tenant op conv d = Ok p' <-> permitted self ctx tenant op conv (PDelete d) p'.
Proof.
  assert (Hard : delete_is_hard d && negb (is_trusted op) = false
                 <-> (delete_is_hard d = true -> is_trusted op = true))
    by (destruct (delete_is_hard d), (is_trusted op); naive_solver).
  unfold authorize_delete. split.
  - intros H. destruct (delete_is_hard d && negb (is_trusted op)) eqn:E in H; [done|].
    pose proof (proj1 Hard E) as Hh. revert H. intros (m & Hm%target_ok & H)%bind_ok_inv. destruct (delete_is_global d) eqn:Hg.
    + apply bind_ok_inv in H as (? & Hs%sender_within_ok & [= <-]). by eapply may_delete_for_all.
    + apply bind_ok_inv in H as (u & Hu%bind_user_ok & [= <-]). by eapply may_delete_for_one.
  - inversion 1 as [| |? m Hh Hm Hg Hs|? m u Hh Hm Hg Hu| | | | | | | |q Htr Href|]; subst; [| |done].
    + rewrite (proj2 Hard Hh). apply target_ok in Hm as ->. simpl. rewrite Hg.
      by apply (sender_within_ok self op m _ ()) in Hs as ->.
    + rewrite (proj2 Hard Hh). apply target_ok in Hm as ->. simpl. rewrite Hg.
      by apply bind_user_ok in Hu as ->.
Qed.

Lemma authorize_read_ok op conv r p' :
  authorize_read self ctx tenant op conv r = Ok p' <-> permitted self ctx tenant op conv (PRead r) p'.
Proof.
  assert (Hconv : negb (Str.is_empty (read_conversation_id r))
                  && bool_decide (read_conversation_id r <> conv) = false
                  <-> read_conversation_id r = "" \/ read_conversation_id r = conv).
  { rewrite andb_false_iff, negb_false_iff, Str.is_empty_true, bool_decide_eq_false.
    destruct (decide (read_conversation_id r = conv)); naive_solver. }
  unfold authorize_read. split.
  - intros (u & Hu%bind_user_ok & H)%bind_ok_inv.
    destruct (negb _ && _) eqn:E in H; [done|]. apply Hconv in E.
    apply bind_ok_inv in H as (? & Hs%receipt_targets_ok & [= <-]). by eapply may_read.
  - inversion 1 as [| | | | | | | | |? u Hu Hc Hs| |q Htr Href|]; subst; [|done].
    apply bind_user_ok in Hu as ->. simpl. rewrite (proj2 Hconv Hc).
    by apply (receipt_targets_ok self ctx tenant conv _ ()) in Hs as ->.
Qed.

Lemma authorize_bound_ok op conv id x f p' :
  authorize_bound self ctx tenant op conv id x f = Ok p'
  <-> exists u m, bound_to op x u /\ stored self ctx tenant conv id m /\ p' = f u.
Proof.
  unfold authorize_bound. rewrite bind_ok_iff. setoid_rewrite bind_user_ok.
  setoid_rewrite bind_ok_iff. setoid_rewrite target_ok. naive_solver.
Qed.

Lemma authorize_payload_ok op conv p p' :
  authorize_payload self ctx tenant op conv (Some p) = Ok p'
  <-> permitted self ctx tenant op conv p p'.
Proof.
  destruct p; cbn [authorize_payload];
    rewrite ?authorize_recall_ok, ?authorize_edit_ok, ?authorize_delete_ok, ?authorize_read_ok,
      ?authorize_bound_ok; try done.
  all: try (split; [intros (u & m & Hu & Hm & ->); by econstructor
                   |inversion 1; subst; try done; by eauto 10]).
  all: try (split; [destruct (is_trusted op) eqn:Ht; simpl; [|done]; intros [= <-]; by apply may_service
                   |inversion 1 as [| | | | | | | | | | |? Htr Href|]; subst; by rewrite Htr]).
  - split.
    + destruct (match op with OpUser u => names_another custom u | _ => false end) eqn:Hn.
      { destruct op; by try rewrite Hn. }
      intros Hok. assert (p' = PCustom custom) as -> by (destruct op; repeat case_match; congruence).
      apply may_custom, custom_ok. by destruct op.
    + inversion 1 as [| | | | | | | | | |c Hc|? Htr Href|]; subst; [|done].
      apply custom_ok in Hc. destruct op; try done. by rewrite Hc.
  - split; [intros [= <-]; by constructor|inversion 1; by subst].
Qed.

Lemma payload_step op conv p e e' :
  (q ← authorize_payload self ctx tenant op conv (Some p); Ok (with_payload e q)) = Ok e'
  <-> exists p', e' = with_payload e p' /\ permitted self ctx tenant op conv p p'.
Proof.
  rewrite bind_ok_iff. setoid_rewrite authorize_payload_ok. split.
  - intros (q & Hq & [= <-]). by exists q.
  - intros (q & -> & Hq). by exists q.
Qed.

Lemma member_step u conv p :
  (exists r, (if refused_without_lookup (Some p) then Ok ()
              else require_member self ctx tenant conv u (membership_read (Some p))) = Ok r)
  <-> may_send self ctx tenant (OpUser u) conv p.
Proof.
  unfold may_send. destruct (refused_without_lookup (Some p)) eqn:E.
  - split; [by left|]. intros _. by exists ().
  - setoid_rewrite require_member_ok. split; [intros [_ H]; by right|].
    intros [?|H]; [done|]. by exists ().
Qed.

Lemma authorize_iff (e e' : Event) :
  ev_type e <> Some EventMessagePluginState ->
  authorize self ctx tenant e = Ok e'
  <-> exists p p', ev_payload e = Some p /\ e' = with_payload e p'
        /\ may_send self ctx tenant (operator_of ctx) (ev_conversation_id e) p
        /\ permitted self ctx tenant (operator_of ctx) (ev_conversation_id e) p p'.
Proof.
  intros Htype. unfold authorize. rewrite bool_decide_eq_false_2 by done.
  destruct (ev_payload e) as [p|]; [|split; [by destruct (operator_of ctx)|by intros (? & ? & ? & _)]].
  destruct (operator_of ctx) as [u|svc| |];
    [| |by split; [|intros (? & ? & _ & _ & [] & _)]..].
  - rewrite bind_ok_iff. setoid_rewrite payload_step.
    pose proof (member_step u (ev_conversation_id e) p) as Hm. split.
    + intros (r & Hr & p' & -> & Hp). exists p, p'. do 2 (split; [done|]). split; [|done].
      apply Hm. by exists r.
    + intros (? & p' & [= <-] & -> & Hs & Hp). apply Hm in Hs as [r Hr]. exists r. eauto.
  - rewrite bind_ok_iff. setoid_rewrite payload_step. split.
    + intros (_ & _ & p' & -> & Hp). by exists p, p'.
    + intros (? & p' & [= <-] & -> & _ & Hp). exists (). eauto.
Qed.

(** C6. The policy refines its rule-by-rule specification: an event whose type is not that
    of plugin state is let through, and as what, exactly when the operator of the
    context may send it and one of the [permitted] rules allows it; otherwise it is refused. A
    trusted service may send; so may a user the members repository confirms as a member of
    the conversation; and any user may send what no lookup is made for, of which the rules allow
    one thing: a payload of plugin state, which under another event type passes unchecked,
    also from users who are no members. *)
Theorem authorize_refines_permitted (e e' : Event)
    (Htype : ev_type e <> Some EventMessagePluginState) :
  authorize self ctx tenant e = Ok e'
  <-> exists p p', ev_payload e = Some p /\ e' = with_payload e p'
        /\ may_send self ctx tenant (operator_of ctx) (ev_conversation_id e) p
        /\ permitted self ctx tenant (operator_of ctx) (ev_conversation_id e) p p'.
Proof. by apply authorize_iff. Qed.

(** Payloads that change or withdraw a message for everyone, with the message
    they name and the window they are held to. *)
Definition acts_for_all (p : Payload) : option (string * Z) :=
  match p with
  | PRecall r => Some (recall_server_msg_id r, RECALL_WINDOW_MS)
  | PEdit e => Some (edit_server_msg_id e, EDIT_WINDOW_MS)
  | PDelete d => if delete_is_global d then Some (delete_server_msg_id d, RECALL_WINDOW_MS) else None
  | _ => None
  end.

(** Nobody edits, recalls or deletes for everyone another member's message:
    when a user's event doing so is let through, the message is stored in the
    event's conversation, the user sent it, no longer than the window ago, and
    the conversation service confirmed the membership now, not from a cache. *)
Theorem only_the_sender_changes_a_message (e e' : Event) (p : Payload) (u id : string) (window : Z)
    (Htype : ev_type e <> Some EventMessagePluginState)
    (Hp : ev_payload e = Some p)
    (Hact : acts_for_all p = Some (id, window))
    (Hop : operator_of ctx = OpUser u)
    (Hok : authorize self ctx tenant e = Ok e') :
  (exists m, stored self ctx tenant (ev_conversation_id e) id m
             /\ sender_id m = u /\ 0 < created_at m
             /\ i64_sat_sub (now_ms self) (created_at m) <= window)
  /\ exists repo, members self = Some repo
                  /\ is_member repo ctx tenant (ev_conversation_id e) u Current = Ok true.
Proof.
  apply authorize_iff in Hok as (q & p' & Hq & _ & Hs & Hperm); [|done].
  rewrite Hp in Hq. injection Hq as <-. rewrite Hop in *. split.
  - destruct Hperm; simpl in Hact; simplify_eq; try done;
      repeat match goal with H : delete_is_global _ = _ |- _ => rewrite H in Hact; simplify_eq end;
      unfold acts_as_sender in *; try naive_solver.
  - destruct Hs as [Hr|Hm]; destruct p; simpl in *; done.
Qed.

(** Plugin cards are immutable, whoever asks: no operator, trusted services
    included, gets an edit through whose target is a plugin card or whose new
    content presents itself as one; what is edited is and stays text. *)
Theorem plugin_cards_are_never_edited (e e' : Event) (ed : MessageEditEvent)
    (Htype : ev_type e <> Some EventMessagePluginState)
    (Hp : ev_payload e = Some (PEdit ed))
    (Hok : authorize self ctx tenant e = Ok e') :
  claims_plugin_card (new_content ed) = false /\ editable (new_content ed) = true
  /\ exists m, stored self ctx tenant (ev_conversation_id e) (edit_server_msg_id ed) m
               /\ message_claims_plugin_card m = false /\ editable (content m) = true
               /\ status m <> Some Recalled.
Proof.
  apply authorize_iff in Hok as (q & p' & Hq & _ & _ & Hperm); [|done].
  rewrite Hp in Hq. injection Hq as <-. inversion Hperm; subst; [|done]. eauto 10.
Qed.

(** The user a payload acts for. *)
Definition named_user (p : Payload) : option string :=
  match p with
  | PReaction _ u _ | PPin _ u | PUnpin _ u | PMark _ u | PUnmark _ u => Some u
  | PRead r => Some (read_user_id r)
  | PDelete d => if delete_is_global d then None else Some (default "" (target_user_id d))
  | _ => None
  end.

(** A user acts for themselves only: whoever the client's event named, the
    event let through names the operator, and a recall carries none of the
    permissions the client claimed. *)
Theorem authorized_events_name_their_operator (e e' : Event) (u : string)
    (Htype : ev_type e <> Some EventMessagePluginState)
    (Hop : operator_of ctx = OpUser u)
    (Hok : authorize self ctx tenant e = Ok e') :
  exists p', ev_payload e' = Some p'
    /\ (forall v, named_user p' = Some v -> v = u)
    /\ match p' with
       | PRecall r => time_limit_seconds r = None /\ allow_admin_recall r = None
       | _ => True
       end.
Proof.
  apply authorize_iff in Hok as (q & p' & Hq & -> & _ & Hperm); [|done].
  exists p'. split; [done|]. rewrite Hop in Hperm.
  destruct Hperm as [| |? ? ? ? Hg|? ? ? ? ? Hg Hb|? ? ? ? ? Hb|? ? ? ? Hb|? ? ? ? Hb|? ? ? ? Hb
                    |? ? ? ? Hb|? ? Hb| | |]; try done; simpl in *;
    (split; [intros v Hv|done]); try done; try (injection Hv as <-; by apply Hb).
  - by rewrite Hg in Hv.
  - change (delete_is_global _) with (delete_is_global d) in Hv. rewrite Hg in Hv.
    injection Hv as <-. by apply Hb.
Qed.
End Refinement.

(** ** Who is trusted *)

(** Only a signed context is trusted with other people's messages: a [System]
    actor with a name or the Social bridge's service identity, never one signed
    with Capability's key and never unsigned metadata, whatever actor type it
    claims. *)
Theorem trusted_operators_are_signed_services (ctx : Ctx) :
  is_trusted (operator_of ctx) = true
  <-> exists c, ctx_claims ctx = Some c /\ kid c <> CARD_POST_KID
        /\ ((actor_type c = ActSystem /\ actor_id c <> "")
            \/ (actor_type c = ActService /\ actor_id c = "flare-social-bridge")).
Proof.
  unfold operator_of. destruct (ctx_claims ctx) as [c|].
  - rewrite exists_some. unfold is_card_post_context. case_bool_decide as Hk.
    { destruct (is_plugin_state_publisher c); split; naive_solver. }
    destruct (actor_type c) eqn:Ha.
    1, 2, 3: destruct (Str.is_empty (actor_id c)) eqn:E; simpl;
      [apply Str.is_empty_true in E|apply Str.is_empty_false in E]; split; naive_solver.
    + unfold TRUSTED_OPERATION_SERVICES. case_bool_decide as Hin; simpl.
      * apply list_elem_of_singleton in Hin. split; [|done]. intros _. by split; [|right].
      * split; [done|]. intros (_ & [[? _]|[_ Hid]]); [done|].
        exfalso. apply Hin. by apply list_elem_of_singleton.
    + split; naive_solver.
    + split; naive_solver.
  - split; [|by intros (? & ? & _)].
    destruct (match not_blank (ctx_user_id ctx) with Some _ => _ | None => _ end); done.
Qed.

(** ** Retries and missing dependencies *)

Lemma permitted_idemp self ctx tenant op conv p p' :
  permitted self ctx tenant op conv p p' -> permitted self ctx tenant op conv p' p'.
Proof.
  assert (Hb : forall x u, bound_to op x u -> bound_to op u u) by (destruct op; naive_solver).
  destruct 1 as [r m| | |d m u| | | | | |r u| |p Ht Hr|]; try (econstructor; eauto; fail).
  - by eapply (may_recall self ctx tenant op conv (mkRecall _ _ None None)).
  - eapply (may_delete_for_one self ctx tenant op conv (mkDelete _ _ _ (Some u))); simpl; eauto.
  - eapply (may_read self ctx tenant op conv (mkRead _ _ u _ _)); simpl; eauto.
Qed.

Lemma permitted_same_kind self ctx tenant op conv p p' :
  permitted self ctx tenant op conv p p' ->
  refused_without_lookup (Some p') = refused_without_lookup (Some p)
  /\ membership_read (Some p') = membership_read (Some p).
Proof. by destruct 1. Qed.

(** Authorization is idempotent: an event that was let through is let through
    unchanged when it is sent again. *)
Theorem authorize_idempotent (self : MessageOperationPolicy) (ctx : Ctx) (tenant : string)
    (e e' : Event) (Hok : authorize self ctx tenant e = Ok e') :
  authorize self ctx tenant e' = Ok e'.
Proof.
  destruct (decide (ev_type e = Some EventMessagePluginState)) as [Ht|Ht].
  { unfold authorize in *. rewrite bool_decide_eq_true_2 in Hok by done. injection Hok as <-.
    by rewrite bool_decide_eq_true_2. }
  apply authorize_iff in Hok as (p & p' & Hp & -> & Hs & Hperm); [|done].
  apply authorize_iff; [done|]. exists p', p'. split; [done|]. split; [done|]. simpl.
  split; [|by eapply permitted_idemp].
  destruct (permitted_same_kind _ _ _ _ _ _ _ Hperm) as [H1 H2].
  unfold may_send in *. by rewrite H1, H2.
Qed.

(** The policy fails closed: with no membership repository wired, every
    event a user could otherwise send is refused, as retryable. *)
Theorem unwired_policy_refuses (self : MessageOperationPolicy) (ctx : Ctx) (tenant u : string)
    (e : Event)
    (Htype : ev_type e <> Some EventMessagePluginState)
    (Hop : operator_of ctx = OpUser u)
    (Hmem : members self = None)
    (Hpay : refused_without_lookup (ev_payload e) = false) :
  authorize self ctx tenant e = Err (flare_err ServiceUnavailable "conversation membership unavailable").
Proof.
  unfold authorize. rewrite bool_decide_eq_false_2 by done. rewrite Hop, Hpay. simpl.
  unfold require_member. by rewrite Hmem.
Qed.

(** ** Examples *)

Module PolicyExample.
Definition hello : Message :=
  mkMessage "m1" "2G" "" "alice" (Some SrcUser) 7 1000 2 TypeText None "" "" "" None
    (Some (Some (Text "hello" []))) (Some Sent) None None None ∅ ∅.
Definition store : MessageTargetRepository :=
  mkTargets (fun _ _ id => if decide (id = "m1") then Ok (Some hello) else Ok None)
    (fun _ _ _ => Ok {["m1" := "2G"]}).
Definition roster : ConversationMembershipRepository :=
  mkMembers (fun _ _ _ u _ => Ok (bool_decide (u ∈ ["alice"; "bob"]))).
Definition policy : MessageOperationPolicy := mkOpPolicy (Some store) (Some roster) 5000.
Definition as_user (u : string) : Ctx := mkCtx None (Some u) None (Some "t1") None.
Definition event (t : EventType) (p : Payload) : Event := mkEvent "2G" 0 (Some t) 0 "e1" None (Some p).
Definition edit : MessageEditEvent := mkEdit "m1" (Some (Some (Text "hi" []))) "" true.
Definition edit_event : Event := event EventMessageEdit (PEdit edit).

(** Bob may not recall Alice's message, and may react to it in his own name only. *)
Example bob_recalls :
  is_ok (authorize policy (as_user "bob") "t1"
           (event EventMessageRecall (PRecall (mkRecall "m1" "" (Some 99) (Some true))))) = false.
Proof. vm_compute. reflexivity. Qed.
Example bob_reacts :
  authorize policy (as_user "bob") "t1" (event EventReaction (PReaction "m1" "" "+1"))
  = Ok (event EventReaction (PReaction "m1" "bob" "+1")).
Proof. vm_compute. reflexivity. Qed.
End PolicyExample.

Lemma authorize_refines_permitted_witness :
  exists p p', ev_payload PolicyExample.edit_event = Some p
    /\ PolicyExample.edit_event = with_payload PolicyExample.edit_event p'
    /\ may_send PolicyExample.policy (PolicyExample.as_user "alice") "t1" (OpUser "alice") "2G" p
    /\ permitted PolicyExample.policy (PolicyExample.as_user "alice") "t1" (OpUser "alice") "2G" p p'.
Proof.
  refine (proj1 (authorize_refines_permitted PolicyExample.policy (PolicyExample.as_user "alice") "t1"
            PolicyExample.edit_event PolicyExample.edit_event _) _); [discriminate|].
  vm_compute. reflexivity.
Defined.

Lemma only_the_sender_changes_a_message_witness :
  exists m, stored PolicyExample.policy (PolicyExample.as_user "alice") "t1" "2G" "m1" m
            /\ sender_id m = "alice".
Proof.
  destruct (only_the_sender_changes_a_message PolicyExample.policy (PolicyExample.as_user "alice") "t1"
    PolicyExample.edit_event PolicyExample.edit_event (PEdit PolicyExample.edit) "alice" "m1"
    EDIT_WINDOW_MS) as [(m & Hm & Hs & _) _];
    [discriminate|reflexivity|reflexivity|reflexivity|vm_compute; reflexivity|].
  exists m. by split.
Defined.

Lemma plugin_cards_are_never_edited_witness :
  claims_plugin_card (new_content PolicyExample.edit) = false.
Proof.
  refine (proj1 (plugin_cards_are_never_edited PolicyExample.policy (PolicyExample.as_user "alice") "t1"
    PolicyExample.edit_event PolicyExample.edit_event PolicyExample.edit _ _ _));
    [discriminate|reflexivity|vm_compute; reflexivity].
Defined.

Lemma authorized_events_name_their_operator_witness :
  exists p', Some (PReaction "m1" "bob" "+1") = Some p' /\ forall v, named_user p' = Some v -> v = "bob".
Proof.
  destruct (authorized_events_name_their_operator PolicyExample.policy (PolicyExample.as_user "bob") "t1"
    (PolicyExample.event EventReaction (PReaction "m1" "" "+1"))
    (PolicyExample.event EventReaction (PReaction "m1" "bob" "+1")) "bob") as (p' & Hp & Hn & _);
    [discriminate|reflexivity|exact PolicyExample.bob_reacts|].
  exists p'. by split.
Defined.

Lemma authorize_idempotent_witness :
  authorize PolicyExample.policy (PolicyExample.as_user "bob") "t1"
    (PolicyExample.event EventReaction (PReaction "m1" "bob" "+1"))
  = Ok (PolicyExample.event EventReaction (PReaction "m1" "bob" "+1")).
Proof.
  refine (authorize_idempotent PolicyExample.policy (PolicyExample.as_user "bob") "t1" _ _ _).
  exact PolicyExample.bob_reacts.
Defined.

Lemma unwired_policy_refuses_witness :
  is_ok (authorize (mkOpPolicy None None 0) (PolicyExample.as_user "bob") "t1" PolicyExample.edit_event)
  = false.
Proof.
  by rewrite (unwired_policy_refuses (mkOpPolicy None None 0) (PolicyExample.as_user "bob") "t1" "bob"
    PolicyExample.edit_event ltac:(discriminate) eq_refl eq_refl eq_refl).
Defined.

(** The trusted-only events are recognised by their payload alone: an event
    whose type says the conversation was deleted passes the default validation
    and the authorization when a member sends it with a reaction as payload, and
    keeps that type. *)
Theorem trusted_event_type_passes_with_user_payload :
  let ctx := PolicyExample.as_user "bob" in
  let e := PolicyExample.event EventConversationDelete (PReaction "m1" "bob" "+1") in
  option_map is_valid (match default_event_composite ctx e with Ok r => Some r | Err _ => None end)
    = Some true
  /\ authorize PolicyExample.policy ctx "t1" e = Ok e
  /\ is_trusted (operator_of ctx) = false.
Proof. vm_compute. done. Qed.

(** A payload of plugin state under the type of a reaction passes the authorization from a user
    who is not a member, whatever it says. *)
Theorem state_payload_needs_no_membership s :
  let e := PolicyExample.event EventReaction (PPluginState s) in
  authorize PolicyExample.policy (PolicyExample.as_user "carol") "t1" e = Ok e
  /\ is_member PolicyExample.roster (PolicyExample.as_user "carol") "t1" "2G" "carol" (membership_read (ev_payload e)) = Ok false.
Proof. done. Qed.
