(* ===== verification/EventHandler.v ===== *)
(** * The event path of the orchestrator

    flare-orchestrator: [EventHandler::handle_event] (event_handler.rs), the
    domain service it drives (event_domain_service.rs) and the Redis read
    watermark (redis_read_watermark.rs). An event is validated, authorized,
    admitted, given a conversation seq and published. The message queue, the
    member lookup and the repositories of the policy are parameters; the world
    holds the sequence store, the watermarks and what was published. *)

From S2P Require Import Prelude Redis SeqAllocator Proto Tenant PluginPlatform Validation OperationPolicy.
From stdpp Require Import base gmap strings list sorting.
From Stdlib Require Import Lia ZArith Ascii.

Local Open Scope Z_scope.

(** ** Read watermarks *)

(** [ReadWatermarkAdvance] *)
Inductive ReadWatermarkAdvance :=
  | Advanced (previous : Z)
  | NotAdvanced (current : Z).

(** [watermark_key] *)
Definition watermark_key (tenant conv user : string) : string :=
  "read:watermark:" +:+ tenant +:+ ":" +:+ conv +:+ ":" +:+ user.

(** [ADVANCE_READ_WATERMARK_SCRIPT] on the stored value: the reply and the value
    after it. Lua compares numbers as doubles; SET stores the argument itself. *)
Definition advance_script (stored : option Z) (next : Z) : (bool * Z) * option Z :=
  let current := double_of_Z (default 0 stored) in
  if decide (double_of_Z next <= current) then ((false, current), stored)
  else ((true, current), Some next).

(** [ROLLBACK_READ_WATERMARK_SCRIPT] *)
Definition rollback_script (stored : option Z) (advanced_to previous : Z) : option Z :=
  if decide (stored <> Some advanced_to) then stored
  else if decide (double_of_Z previous <= 0) then None
  else Some previous.

Record WmStore := mkWm { wm_up : bool; wm_keys : gmap string Z }.

Definition wm_put (w : WmStore) (key : string) (v : option Z) : WmStore :=
  mkWm (wm_up w) (match v with Some z => <[key := z]> (wm_keys w) | None => delete key (wm_keys w) end).

(** [advance] *)
Definition advance (w : WmStore) (tenant conv user : string) (read_seq : Z)
    : result ReadWatermarkAdvance * WmStore :=
  if wm_up w then
    let key := watermark_key tenant conv user in
    let '((advanced, previous), v) := advance_script (wm_keys w !! key) read_seq in
    (Ok (if (advanced : bool) then Advanced previous else NotAdvanced previous), wm_put w key v)
  else (Err (flare_err InternalError "Redis read watermark advance"), w).

(** [rollback] *)
Definition rollback (w : WmStore) (tenant conv user : string) (advanced_to previous : Z)
    : result unit * WmStore :=
  if wm_up w then
    let key := watermark_key tenant conv user in
    (Ok (), wm_put w key (rollback_script (wm_keys w !! key) advanced_to previous))
  else (Err (flare_err InternalError "Redis read watermark rollback"), w).

(** ** Events *)

(** [ReadWatermarkClaim] *)
Record ReadWatermarkClaim := mkClaim {
  claim_conversation_id : string;
  claim_user_id : string;
  claim_read_seq : Z;
  claim_previous : Z;
}.

(** [EventAdmission] *)
Inductive EventAdmission :=
  | Admit (read_claim : option ReadWatermarkClaim)
  | StaleReadReceipt (read_seq watermark : Z).

(** [cursor_read_receipt] *)
Definition cursor_read_receipt (e : Event) : option (string * Z) :=
  if decide (ev_type e <> Some EventReadReceipt) then None
  else
    match ev_payload e with
    | Some (PRead read) =>
        let user_id := Str.trim (read_user_id read) in
        if Str.is_empty user_id || bool_decide (read_seq read = 0)
           || bool_decide (message_ids read <> []) then None
        else Some (user_id, read_seq read)
    | _ => None
    end.

(** [is_member_based_conversation] *)
Definition is_member_based_conversation (conversation_id : string) : bool :=
  match Str.trim conversation_id with
  | String c _ => bool_decide (c ∈ ["2"%char; "3"%char; "4"%char; "5"%char; "7"%char; "8"%char])
  | EmptyString => false
  end.

(** [PersistenceMode::should_push_only] *)
Inductive PersistenceMode := Auto | ForcePersistence | ForcePushOnly.
Definition should_push_only (m : PersistenceMode) (is_temporary : bool) : bool :=
  match m with Auto => is_temporary | ForcePersistence => false | ForcePushOnly => true end.

(** [is_temporary_event] *)
Definition is_temporary_event (t : EventType) : bool := false.

(** [event_tenant] *)
Definition event_tenant (ctx : Ctx) : result string :=
  ok_or (normalize_optional_tenant_id (ctx_tenant_id ctx))
    (flare_err InvalidParameter "tenant required to handle a message event").

(** What reached the message queue: the context supplies the headers. *)
Record Publication := mkPub {
  push_only : bool;
  pub_ctx : Ctx;
  pub_event : Event;
  pub_recipients : list string;
}.

Record World (R : Type) := mkWorld {
  seqs : R;
  watermarks : option WmStore;
  published : list Publication;
}.
Arguments mkWorld {R} seqs watermarks published.
Arguments seqs {R} w.
Arguments watermarks {R} w.
Arguments published {R} w.

Section Handler.
Context `{Redis R}.
Context (policy : MessageOperationPolicy) (validation : Strategy Event).
(** [RecipientRepository::get_conversation_members] *)
Context (get_conversation_members : Ctx -> string -> result (list string)).
(** The queue's answer to a publication. *)
Context (mq : Publication -> result unit).

Abbreviation M := (stE (World R)).

Definition with_seqs (w : World R) (r : R) : World R := mkWorld r (watermarks w) (published w).
Definition with_watermarks (w : World R) (s : WmStore) : World R := mkWorld (seqs w) (Some s) (published w).

(** [validate_event] *)
Definition validate_event (ctx : Ctx) (e : Event) : result unit :=
  match validation ctx e with
  | Err _ => Err (flare_err InvalidParameter "Event validation failed")
  | Ok r => if is_valid r then Ok () else Err (flare_err InvalidParameter "Event validation failed")
  end.

(** [admit_event] *)
Definition admit_event (tenant : string) (e : Event) : M EventAdmission :=
  fun w =>
    match watermarks w, cursor_read_receipt e with
    | Some s, Some (user_id, seq) =>
        let '(r, s') := advance s tenant (ev_conversation_id e) user_id seq in
        let w' := with_watermarks w s' in
        match r with
        | Ok (Advanced previous) =>
            (Ok (Admit (Some (mkClaim (ev_conversation_id e) user_id seq previous))), w')
        | Ok (NotAdvanced current) => (Ok (StaleReadReceipt seq current), w')
        | Err _ => (Ok (Admit None), w')
        end
    | _, _ => (Ok (Admit None), w)
    end.

(** [release_read_claim] *)
Definition release_read_claim (tenant : string) (c : ReadWatermarkClaim) : M unit :=
  fun w =>
    match watermarks w with
    | None => (Ok (), w)
    | Some s =>
        let '(_, s') := rollback s tenant (claim_conversation_id c) (claim_user_id c)
                          (claim_read_seq c) (claim_previous c) in
        (Ok (), with_watermarks w s')
    end.

(** [EventDomainService::allocate_seq] *)
Definition allocate_event_seq (tenant : string) (e : Event) : M Event :=
  fun w =>
    let '(o, r') := SeqAllocator.allocate_seq (seqs w) (ev_conversation_id e) tenant in
    match o with
    | Ok seq => (Ok (with_seq e seq), with_seqs w r')
    | Err _ => (Err (flare_err InternalError "allocate seq failed"), with_seqs w r')
    end.

(** [get_recipient_user_ids] *)
Definition get_recipient_user_ids (ctx : Ctx) (e : Event) : result (list string) :=
  if is_member_based_conversation (ev_conversation_id e) then Ok []
  else
    match get_conversation_members ctx (ev_conversation_id e) with
    | Err _ => Err (flare_err InternalError "Failed to get conversation members for event")
    | Ok members =>
        match ev_type e, ev_payload e with
        | Some EventReadReceipt, Some (PRead r) =>
            Ok (filter (fun uid => uid <> read_user_id r) members)
        | _, _ => Ok members
        end
    end.

Definition publish (p : Publication) : M unit :=
  fun w => match mq p with
           | Ok _ => (Ok (), mkWorld (seqs w) (watermarks w) (published w ++ [p]))
           | Err e => (Err e, w)
           end.

(** [push_event], with [push_only] and [publish_event] *)
Definition push_event (ctx : Ctx) (e : Event) (m : PersistenceMode) : M unit :=
  let is_temporary := is_temporary_event (default EtUnspecified (ev_type e)) in
  recipients ← lift_r (get_recipient_user_ids ctx e);
  publish (mkPub (should_push_only m is_temporary) ctx e recipients).

(** [allocate_and_push] *)
Definition allocate_and_push (ctx : Ctx) (tenant : string) (e : Event) : M Event :=
  e' ← allocate_event_seq tenant e;
  _ ← push_event ctx e' Auto;
  mret e'.

(** [handle_general_event] *)
Definition handle_general_event (ctx : Ctx) (tenant : string) (e : Event) (auth : bool) : M unit :=
  _ ← lift_r (validate_event ctx e);
  e ← lift_r (if auth then authorize policy ctx tenant e else Ok e);
  admission ← admit_event tenant e;
  match admission with
  | StaleReadReceipt _ _ => mret ()
  | Admit read_claim =>
      on_result (allocate_and_push ctx tenant e)
        (fun _ => mret ())
        (fun err =>
           _ ← match read_claim with
               | Some claim => release_read_claim tenant claim
               | None => mret ()
               end;
           lift_r (Err err))
  end.

(** [handle_event] *)
Definition handle_event (ctx : Ctx) (e : Event) : M unit :=
  tenant ← lift_r (event_tenant ctx);
  handle_general_event ctx tenant e true.

(** [handle_system_event] *)
Definition handle_system_event (ctx : Ctx) (e : Event) : M unit :=
  tenant ← lift_r (event_tenant ctx);
  handle_general_event ctx tenant e false.
End Handler.

(** ** What one event does *)

Section OneEvent.
Context `{RedisLaws R}.
Context (policy : MessageOperationPolicy) (validation : Strategy Event).
Context (get_conversation_members : Ctx -> string -> result (list string)).
Context (mq : Publication -> result unit).

Abbreviation handle := (handle_event policy validation get_conversation_members mq).
Abbreviation handle_general := (handle_general_event policy validation get_conversation_members mq).

(** The publication of an event whose seq is [seq]. *)
Definition publication (ctx : Ctx) (e : Event) (seq : Z) (recipients : list string) : Publication :=
  mkPub false ctx (with_seq e seq) recipients.

(** Allocation and fanout: either the event went out with the next seq, or
    nothing was published. *)
Lemma allocate_and_push_cases ctx tenant e (w : World R) r w' :
  allocate_and_push get_conversation_members mq ctx tenant e w = (r, w') ->
  watermarks w' = watermarks w
  /\ ((is_ok r = false /\ published w' = published w)
      \/ exists recipients,
           let seq := high_water (seqs w) (build_redis_key tenant (ev_conversation_id e)) + 1 in
           r = Ok (with_seq e seq)
           /\ get_recipient_user_ids get_conversation_members ctx (with_seq e seq) = Ok recipients
           /\ mq (publication ctx e seq recipients) = Ok ()
           /\ published w' = published w ++ [publication ctx e seq recipients]).
Proof.
  unfold allocate_and_push, allocate_event_seq, mbind, stE_bind.
  destruct (SeqAllocator.allocate_seq (seqs w) (ev_conversation_id e) tenant) as [o r'] eqn:Ha.
  destruct o as [seq|err]; [|by intros [= <- <-]; split; [|left]].
  assert (Hseq : seq = high_water (seqs w) (build_redis_key tenant (ev_conversation_id e)) + 1).
  { unfold SeqAllocator.allocate_seq, allocate_single_seq in Ha.
    destruct (reachable (seqs w)); [|done].
    destruct (int_incrby (seqs w) _ 1) as [[v r1]|] eqn:Hi; [|done].
    apply incrby_value in Hi as [-> _]. unfold reply_u64 in Ha. case_decide; congruence. }
  unfold push_event, mbind, stE_bind, lift_r, publish.
  destruct (get_recipient_user_ids _ ctx (with_seq e seq)) as [recipients|err] eqn:Hr;
    [|by intros [= <- <-]; split; [|left]].
  simpl. destruct (mq _) as [[]|err] eqn:Hq; intros [= <- <-]; (split; [done|]); [right|by left].
  exists recipients. subst seq. by rewrite Hr.
Qed.

(** The watermarks after a claim was handed back. *)
Definition released (tenant : string) (claim : option ReadWatermarkClaim) (o : option WmStore)
    : option WmStore :=
  match claim, o with
  | Some c, Some s =>
      Some (rollback s tenant (claim_conversation_id c) (claim_user_id c) (claim_read_seq c)
              (claim_previous c)).2
  | _, _ => o
  end.

Lemma admit_event_frame tenant e (w : World R) r w' :
  admit_event tenant e w = (r, w') -> seqs w' = seqs w /\ published w' = published w /\ is_ok r = true.
Proof.
  unfold admit_event. destruct (watermarks w) as [s|]; [|by intros [= <- <-]].
  destruct (cursor_read_receipt e) as [[u q]|]; [|by intros [= <- <-]].
  destruct (advance s tenant (ev_conversation_id e) u q) as [[[]|] s']; by intros [= <- <-].
Qed.

(** The outcomes of one admitted event: dropped as stale, published, or failed
    with its claim handed back. *)
Inductive outcome (ctx : Ctx) (tenant : string) (e1 : Event) (w w' : World R) : result unit -> Prop :=
  | out_stale a b :
      admit_event tenant e1 w = (Ok (StaleReadReceipt a b), w') ->
      outcome ctx tenant e1 w w' (Ok ())
  | out_published claim wa recipients seq :
      admit_event tenant e1 w = (Ok (Admit claim), wa) ->
      seq = high_water (seqs w) (build_redis_key tenant (ev_conversation_id e1)) + 1 ->
      get_recipient_user_ids get_conversation_members ctx (with_seq e1 seq) = Ok recipients ->
      published w' = published w ++ [publication ctx e1 seq recipients] ->
      watermarks w' = watermarks wa ->
      outcome ctx tenant e1 w w' (Ok ())
  | out_failed claim wa err :
      admit_event tenant e1 w = (Ok (Admit claim), wa) ->
      published w' = published w ->
      watermarks w' = released tenant claim (watermarks wa) ->
      outcome ctx tenant e1 w w' (Err err).

Lemma handle_general_outcome ctx tenant e auth (w : World R) r w' :
  handle_general ctx tenant e auth w = (r, w') ->
  (w' = w /\ is_ok r = false
   /\ (is_ok (validate_event validation ctx e) = false \/ is_ok (authorize policy ctx tenant e) = false))
  \/ exists e1, validate_event validation ctx e = Ok ()
        /\ (if auth then authorize policy ctx tenant e else Ok e) = Ok e1
        /\ outcome ctx tenant e1 w w' r.
Proof.
  unfold handle_general_event. rewrite stE_lift_bind.
  destruct (validate_event validation ctx e) as [[]|err] eqn:Hv; [|intros [= <- <-]; by left; auto].
  rewrite stE_lift_bind.
  destruct (if auth then authorize policy ctx tenant e else Ok e) as [e1|err] eqn:Hauth.
  2: { intros [= <- <-]. left. destruct auth; [|done]. rewrite Hauth. auto. }
  intros Hrun. right. exists e1. do 2 (split; [done|]). revert Hrun.
  unfold mbind at 1, stE_bind at 1.
  destruct (admit_event tenant e1 w) as [[adm|err] wa] eqn:Had;
    [|by destruct (admit_event_frame _ _ _ _ _ Had) as (_ & _ & ?)].
  destruct (admit_event_frame _ _ _ _ _ Had) as (Hsq & Hpb & _).
  destruct adm as [claim|a b]; [|intros [= <- <-]; by eapply out_stale].
  unfold on_result.
  destruct (allocate_and_push get_conversation_members mq ctx tenant e1 wa) as [o wb] eqn:Hap.
  apply allocate_and_push_cases in Hap as [Hwm Hcase]. rewrite Hsq, Hpb in Hcase.
  destruct o as [e2|err].
  - intros [= <- <-]. destruct Hcase as [[? _]|(rec & He & Hr & _ & Hp)]; [done|].
    eapply out_published; eauto.
  - destruct Hcase as [[_ Hp]|(rec & ? & _)]; [|done].
    unfold mbind, stE_bind, lift_r. destruct claim as [c|]; unfold release_read_claim; simpl.
    + destruct (watermarks wb) as [s|] eqn:Hwb; simpl.
      * destruct (rollback s tenant _ _ _ _) as [o s'] eqn:Hrb. intros [= <- <-].
        eapply out_failed; [done|done|]. simpl. rewrite <- Hwm. simpl. by rewrite Hrb.
      * intros [= <- <-]. eapply out_failed; [done|done|]. simpl. by rewrite <- Hwm, Hwb.
    + intros [= <- <-]. eapply out_failed; [done|done|]. done.
Qed.

Lemma handle_outcome ctx e (w : World R) r w' :
  handle ctx e w = (r, w') ->
  (w' = w /\ is_ok r = false
   /\ (is_ok (event_tenant ctx) = false \/ is_ok (validate_event validation ctx e) = false
       \/ exists t, event_tenant ctx = Ok t /\ is_ok (authorize policy ctx t e) = false))
  \/ exists t e1, event_tenant ctx = Ok t /\ validate_event validation ctx e = Ok ()
        /\ authorize policy ctx t e = Ok e1 /\ outcome ctx t e1 w w' r.
Proof.
  unfold handle_event. rewrite stE_lift_bind.
  destruct (event_tenant ctx) as [t|err]; [|intros [= <- <-]; left; eauto].
  intros [(-> & Hr & [Hv|Ha])|(e1 & Hv & Ha & Ho)]%handle_general_outcome.
  - left. eauto.
  - left. split; [done|]. split; [done|]. right. right. by exists t.
  - right. by exists t, e1.
Qed.
End OneEvent.

(** ** The path as a whole *)

Section Path.
Context `{RedisLaws R}.
Context (policy : MessageOperationPolicy).
Context (get_conversation_members : Ctx -> string -> result (list string)).
Context (mq : Publication -> result unit).

(** The handler with the validation it is built with. *)
Abbreviation handle := (handle_event policy default_event_composite get_conversation_members mq).

Lemma validate_default ctx e :
  validate_event default_event_composite ctx e = Ok () <-> event_shape_ok ctx e.
Proof.
  rewrite <- default_event_validation_shape. unfold validate_event.
  destruct (default_event_composite ctx e) as [v|err]; [|split; [done|by intros (? & ? & _)]].
  destruct (is_valid v) eqn:E; [split; [by exists v|done]|].
  split; [done|]. intros (v' & [= <-] & Hv). congruence.
Qed.

(** Nothing is published past the gates: whatever an event does to the queue,
    it first had a tenant, the shape the validation asks for and the policy's
    permission, and it goes out once, as the policy normalized it, with the
    conversation seq right after the highest one allocated so far. *)
Theorem published_events_passed_every_gate (ctx : Ctx) (e : Event) (w w' : World R) (r : result unit)
    (Hrun : handle ctx e w = (r, w')) :
  published w' = published w
  \/ exists t e1 recipients,
       event_tenant ctx = Ok t /\ event_shape_ok ctx e /\ authorize policy ctx t e = Ok e1 /\ r = Ok ()
       /\ published w' = published w
            ++ [publication ctx e1 (high_water (seqs w) (build_redis_key t (ev_conversation_id e1)) + 1)
                  recipients].
Proof.
  apply handle_outcome in Hrun as [(-> & _)|(t & e1 & Ht & Hv & Ha & Ho)]; [by left|].
  destruct Ho as [a b Had|claim wa rec seq Had -> Hr Hp _|claim wa err Had Hp _].
  - left. by apply admit_event_frame in Had as (_ & ? & _).
  - right. exists t, e1, rec. apply validate_default in Hv. auto.
  - by left.
Qed.

(** A refused event leaves no trace: when the tenant is missing, or the
    validation or the policy refuses, no seq is spent, no watermark moves and
    nothing is published. *)
Theorem refused_events_leave_no_trace (ctx : Ctx) (e : Event) (w w' : World R) (r : result unit) (t : string)
    (Ht : event_tenant ctx = Ok t)
    (Hrefused : is_ok (authorize policy ctx t e) = false \/ ~ event_shape_ok ctx e)
    (Hrun : handle ctx e w = (r, w')) :
  w' = w /\ is_ok r = false.
Proof.
  apply handle_outcome in Hrun as [(-> & Hr & _)|(t' & e1 & Ht' & Hv & Ha & _)]; [done|].
  exfalso. rewrite Ht in Ht'. injection Ht' as <-. apply validate_default in Hv.
  destruct Hrefused as [Hn|Hn]; [by rewrite Ha in Hn|done].
Qed.

(** Plugin shared state reaches members only from Capability: an event with a
    plugin-state type or payload is published only for a context signed by the
    state publisher, which in turn can publish nothing else. *)
Theorem plugin_state_only_from_its_publisher (ctx : Ctx) (e : Event) (w w' : World R) (r : result unit)
    (Hrun : handle ctx e w = (r, w'))
    (Hpub : published w' <> published w) :
  from_state_publisher ctx = true
  <-> ev_type e = Some EventMessagePluginState /\ exists s, ev_payload e = Some (PPluginState s).
Proof.
  apply handle_outcome in Hrun as [(-> & _)|(t & e1 & _ & Hv & Ha & _)]; [done|].
  apply validate_default in Hv as (_ & _ & Hshape).
  destruct (decide (ev_type e = Some EventMessagePluginState)) as [Ht|Ht].
  - destruct (ev_payload e) as [[]|]; try done. destruct Hshape as (_ & Hp & _). split; [|done]. eauto.
  - split; [|by intros [? _]]. intros Hsp. exfalso.
    assert (Hop : operator_of ctx = OpStatePublisher).
    { unfold from_state_publisher in Hsp. unfold operator_of.
      destruct (ctx_claims ctx) as [c|]; [|done].
      pose proof Hsp as Hk. unfold is_plugin_state_publisher in Hk. rewrite !andb_true_iff in Hk.
      destruct Hk as [[[[Hk _] _] _] _]. unfold is_card_post_context. by rewrite Hk, Hsp. }
    unfold authorize in Ha. rewrite bool_decide_eq_false_2, Hop in Ha by done. done.
Qed.
End Path.

(** ** Read watermarks *)

(** A store in the exact range of Lua's numbers. *)
Definition store_ok (s : WmStore) : Prop :=
  wm_up s = true /\ map_Forall (fun _ v => 0 < v <= 2 ^ 53) (wm_keys s).

Definition level (s : WmStore) (key : string) : Z := default 0 (wm_keys s !! key).

Lemma level_bounds s key : store_ok s -> 0 <= level s key <= 2 ^ 53.
Proof.
  intros [_ Hs]. unfold level. destruct (wm_keys s !! key) as [v|] eqn:E; simpl; [|lia].
  apply Hs in E. lia.
Qed.

Lemma wm_put_id s key : wm_put s key (wm_keys s !! key) = s.
Proof.
  destruct s as [up m]. unfold wm_put. simpl. destruct (m !! key) eqn:E; f_equal.
  - by apply insert_id.
  - by apply delete_id.
Qed.

Lemma wm_put_level s key v : level (wm_put s key v) key = default 0 v.
Proof. unfold level, wm_put. destruct v; simpl; by rewrite ?lookup_insert_eq, ?lookup_delete_eq. Qed.

Lemma wm_put_level_ne s key v k : k <> key -> level (wm_put s key v) k = level s k.
Proof. intros. unfold level, wm_put. destruct v; simpl; by rewrite ?lookup_insert_ne, ?lookup_delete_ne. Qed.

Lemma wm_put_ok s key q : store_ok s -> 0 < q <= 2 ^ 53 -> store_ok (wm_put s key (Some q)).
Proof. intros [? ?] ?. split; [done|]. by apply map_Forall_insert_2. Qed.

Lemma advance_spec s t c u q :
  store_ok s -> 0 < q <= 2 ^ 53 ->
  let key := watermark_key t c u in
  advance s t c u q =
    if decide (q <= level s key) then (Ok (NotAdvanced (level s key)), s)
    else (Ok (Advanced (level s key)), wm_put s key (Some q)).
Proof.
  intros Hs Hq key. pose proof (level_bounds s key Hs) as Hl. destruct Hs as [Hup _].
  unfold advance, advance_script. rewrite Hup. fold key. fold (level s key).
  rewrite !double_of_Z_exact by lia. case_decide; [|done]. by rewrite wm_put_id.
Qed.

Lemma rollback_undoes_advance s t c u q :
  store_ok s -> 0 < q <= 2 ^ 53 ->
  let key := watermark_key t c u in
  rollback (wm_put s key (Some q)) t c u q (level s key) = (Ok (), s).
Proof.
  intros Hs Hq key. pose proof (level_bounds s key Hs) as Hl. destruct Hs as [Hup Hall].
  unfold rollback, rollback_script. simpl. rewrite Hup. fold key. rewrite lookup_insert_eq.
  rewrite decide_False by (intros Hn; by apply Hn). rewrite double_of_Z_exact by lia.
  f_equal. destruct s as [up m]. unfold wm_put, level in *. simpl in *.
  destruct (m !! key) as [v|] eqn:E; simpl in *.
  - apply Hall in E as Hv. rewrite decide_False by lia. by rewrite insert_insert_eq, insert_id.
  - by rewrite delete_insert_id.
Qed.

Section Watermarks.
Context `{RedisLaws R}.
Context (policy : MessageOperationPolicy) (validation : Strategy Event).
Context (get_conversation_members : Ctx -> string -> result (list string)).
Context (mq : Publication -> result unit).

Abbreviation handle := (handle_event policy validation get_conversation_members mq).

(** A receipt whose position is a conversation seq Lua represents exactly. *)
Definition position_ok (e : Event) : Prop :=
  match ev_payload e with Some (PRead rd) => 0 <= read_seq rd <= 2 ^ 53 | _ => True end.

Lemma authorize_position t ctx e e1 :
  authorize policy ctx t e = Ok e1 -> position_ok e -> position_ok e1.
Proof.
  destruct (decide (ev_type e = Some EventMessagePluginState)) as [Ht|Ht].
  { unfold authorize. rewrite bool_decide_eq_true_2 by done. by intros [= <-]. }
  intros (p & p' & Hp & -> & _ & Hperm)%authorize_iff; [|done].
  unfold position_ok. rewrite Hp. simpl. by destruct Hperm.
Qed.

Lemma cursor_position e u q : position_ok e -> cursor_read_receipt e = Some (u, q) -> 0 < q <= 2 ^ 53.
Proof.
  unfold position_ok, cursor_read_receipt. case_decide; [done|].
  destruct (ev_payload e) as [[]|]; try done. intros Hb.
  destruct (Str.is_empty _); [done|]. case_bool_decide; [done|]. case_bool_decide; [done|].
  intros [= <- <-]. lia.
Qed.

(** Admission of an event, in a store in range. *)
Lemma admit_spec t e (w : World R) s :
  watermarks w = Some s -> store_ok s -> position_ok e ->
  admit_event t e w =
    match cursor_read_receipt e with
    | None => (Ok (Admit None), w)
    | Some (u, q) =>
        let key := watermark_key t (ev_conversation_id e) u in
        if decide (q <= level s key) then (Ok (StaleReadReceipt q (level s key)), w)
        else (Ok (Admit (Some (mkClaim (ev_conversation_id e) u q (level s key)))),
              with_watermarks w (wm_put s key (Some q)))
    end.
Proof.
  intros Hw Hs Hp. unfold admit_event. rewrite Hw.
  destruct (cursor_read_receipt e) as [[u q]|] eqn:Hc; [|done].
  rewrite advance_spec by eauto using cursor_position. case_decide; [|done].
  unfold with_watermarks. rewrite <- Hw. by destruct w.
Qed.

(** A read receipt that reports nothing new costs nothing: when the reader's
    watermark is at or above its position, handling it succeeds and leaves the
    world exactly as it was, no seq spent and no fanout. *)
Theorem repeated_read_receipt_is_free (ctx : Ctx) (e e1 : Event) (t u : string) (q : Z)
    (w : World R) (s : WmStore)
    (Ht : event_tenant ctx = Ok t)
    (Hv : validate_event validation ctx e = Ok ())
    (Ha : authorize policy ctx t e = Ok e1)
    (Hc : cursor_read_receipt e1 = Some (u, q))
    (Hw : watermarks w = Some s) (Hs : store_ok s) (Hp : position_ok e)
    (Hlow : q <= level s (watermark_key t (ev_conversation_id e1) u)) :
  handle ctx e w = (Ok (), w).
Proof.
  unfold handle_event. rewrite stE_lift_bind, Ht. unfold handle_general_event.
  rewrite stE_lift_bind, Hv, stE_lift_bind, Ha. unfold mbind, stE_bind.
  rewrite (admit_spec t e1 w s) by eauto using authorize_position.
  rewrite Hc. by rewrite decide_True.
Qed.

(** A failed event hands its claim back: when allocation or fanout fails, the
    watermarks are exactly what they were, so the client's retry of the same
    position is admitted, and nothing was published. *)
Theorem failed_event_hands_back_its_claim (ctx : Ctx) (e : Event) (w w' : World R) (s : WmStore)
    (err : FlareError)
    (Hw : watermarks w = Some s) (Hs : store_ok s) (Hp : position_ok e)
    (Hrun : handle ctx e w = (Err err, w')) :
  watermarks w' = Some s /\ published w' = published w.
Proof.
  apply handle_outcome in Hrun as [(-> & _)|(t & e1 & _ & _ & Ha & Ho)]; [done|].
  inversion Ho as [| |claim wa ? Had Hpub Hrel]; subst. split; [|done].
  rewrite Hrel. rewrite (admit_spec t e1 w s) in Had by eauto using authorize_position.
  destruct (cursor_read_receipt e1) as [[u q]|] eqn:Hc; [|by injection Had as <- <-].
  cbv zeta in Had. case_decide; [done|]. injection Had as <- <-. simpl.
  by rewrite rollback_undoes_advance by eauto using cursor_position, authorize_position.
Qed.

(** ** Whole histories *)

(** The events of a list of callers, handled one after the other. *)
Definition run_events (w : World R) (calls : list (Ctx * Event)) : World R :=
  foldl (fun w c => (handle c.1 c.2 w).2) w calls.

(** The position a publication reports under a watermark key. *)
Definition pub_position (key : string) (p : Publication) : option Z :=
  match event_tenant (pub_ctx p), cursor_read_receipt (pub_event p) with
  | Ok t, Some (u, q) =>
      if decide (watermark_key t (ev_conversation_id (pub_event p)) u = key) then Some q else None
  | _, _ => None
  end.

Definition positions (key : string) (ps : list Publication) : list Z := omap (pub_position key) ps.

Lemma positions_snoc key ps p :
  positions key (ps ++ [p]) = positions key ps ++ match pub_position key p with Some q => [q] | None => [] end.
Proof.
  unfold positions. rewrite omap_app. simpl. by destruct (pub_position key p).
Qed.

Definition history_ok (w : World R) : Prop :=
  exists s, watermarks w = Some s /\ store_ok s
    /\ forall key, StronglySorted Z.lt (positions key (published w))
                   /\ Forall (fun q => q <= level s key) (positions key (published w)).

Lemma sorted_snoc l q : StronglySorted Z.lt l -> Forall (fun x => x < q) l -> StronglySorted Z.lt (l ++ [q]).
Proof.
  intros Hs Hf. apply StronglySorted_app_2; [|done|by repeat constructor].
  intros x y Hx Hy. apply list_elem_of_singleton in Hy as ->. rewrite Forall_forall in Hf. auto.
Qed.

Lemma handle_history_ok ctx e w :
  position_ok e -> history_ok w -> history_ok (handle ctx e w).2.
Proof.
  intros Hp (s & Hw & Hs & Hh). destruct (handle ctx e w) as [r w'] eqn:Hrun. simpl.
  apply handle_outcome in Hrun as [(-> & _)|(t & e1 & Ht & _ & Ha & Ho)]; [by exists s|].
  pose proof (authorize_position t ctx e e1 Ha Hp) as Hp1.
  pose proof (admit_spec t e1 w s Hw Hs Hp1) as Hadm.
  destruct Ho as [a b Had|claim wa rec seq Had Hseq _ Hpub Hwm|claim wa err Had Hpub Hrel];
    rewrite Hadm in Had.
  - destruct (cursor_read_receipt e1) as [[u q]|]; [|done]. cbv zeta in Had.
    case_decide; [|done]. injection Had as <- <- <-. by exists s.
  - assert (Hpos : forall key, pub_position key (publication ctx e1 seq rec)
        = match cursor_read_receipt e1 with
          | Some (u, q) => if decide (watermark_key t (ev_conversation_id e1) u = key) then Some q else None
          | None => None
          end).
    { intros key. unfold pub_position. simpl. rewrite Ht. by destruct e1. }
    destruct (cursor_read_receipt e1) as [[u q]|] eqn:Hc; cbv zeta in Had.
    + case_decide as Hl; [done|]. injection Had as <- <-. simpl in Hwm.
      eexists. split; [exact Hwm|].
      split; [by apply wm_put_ok; eauto using cursor_position|].
      intros key. destruct (Hh key) as [Hsort Hle]. rewrite Hpub, positions_snoc, Hpos.
      case_decide as Hk; [subst key; rewrite wm_put_level|].
      * split; [|apply Forall_app; split; [|by repeat constructor]].
        -- apply sorted_snoc; [done|]. eapply Forall_impl; [exact Hle|]. simpl. intros. lia.
        -- eapply Forall_impl; [exact Hle|]. simpl. intros. lia.
      * rewrite app_nil_r, wm_put_level_ne by congruence. done.
    + injection Had as <- <-. exists s. rewrite Hwm. do 2 (split; [done|]). intros key.
      rewrite Hpub, positions_snoc, Hpos, app_nil_r. apply Hh.
  - assert (Hback : watermarks w' = Some s).
    { rewrite Hrel. destruct (cursor_read_receipt e1) as [[u q]|] eqn:Hc; cbv zeta in Had;
        [|by injection Had as <- <-].
      case_decide; [done|]. injection Had as <- <-. simpl.
      by rewrite rollback_undoes_advance by eauto using cursor_position. }
    exists s. rewrite Hback, Hpub. done.
Qed.

(** Read positions only move forward: over any sequence of events, refused,
    failed and repeated ones included, the read-cursor positions published for
    one reader of one conversation are strictly increasing, so a position costs
    at most one seq and one fanout. *)
Theorem published_positions_strictly_increase (w : World R) (s : WmStore)
    (calls : list (Ctx * Event)) (key : string)
    (Hw : watermarks w = Some s) (Hs : store_ok s) (Hempty : published w = [])
    (Hcalls : Forall (fun c => position_ok c.2) calls) :
  StronglySorted Z.lt (positions key (published (run_events w calls))).
Proof.
  assert (Hok : history_ok w).
  { exists s. rewrite Hempty. do 2 (split; [done|]). intros k. split; constructor. }
  clear Hw Hs Hempty. revert w Hok.
  induction Hcalls as [|c calls Hc _ IH]; intros w Hok; simpl.
  - destruct Hok as (s' & _ & _ & Hh). by apply Hh.
  - apply IH. by apply handle_history_ok.
Qed.
End Watermarks.

(** ** Interleaved failures *)

(** Two receipts of one reader in flight, both failing, lose the lower one:
    5 then 7 are claimed, the fanout of 5 fails while 7 holds the watermark, then
    the fanout of 7 fails and puts back 5, a position that never went out. The
    retry of 5 is then answered as already reported. *)
Theorem interleaved_rollbacks_lose_a_position (tenant conv user : string) :
  let s0 := mkWm true ∅ in
  let s1 := (advance s0 tenant conv user 5).2 in
  let s2 := (advance s1 tenant conv user 7).2 in
  let s3 := (rollback s2 tenant conv user 5 0).2 in
  let s4 := (rollback s3 tenant conv user 7 5).2 in
  (advance s0 tenant conv user 5).1 = Ok (Advanced 0)
  /\ (advance s1 tenant conv user 7).1 = Ok (Advanced 5)
  /\ (advance s4 tenant conv user 5).1 = Ok (NotAdvanced 5).
Proof.
  intros s0 s1 s2 s3 s4. set (key := watermark_key tenant conv user).
  assert (E1 : advance s0 tenant conv user 5 = (Ok (Advanced 0), mkWm true {[key := 5]}))
    by reflexivity.
  assert (E2 : advance s1 tenant conv user 7 = (Ok (Advanced 5), mkWm true {[key := 7]})).
  { subst s1. rewrite E1. unfold advance, wm_put. simpl. fold key.
    rewrite lookup_singleton_eq. simpl. by rewrite insert_singleton_eq. }
  assert (E3 : s3 = mkWm true {[key := 7]}).
  { subst s3 s2. rewrite E2. unfold rollback, wm_put. simpl. fold key.
    rewrite lookup_singleton_eq. simpl. by rewrite insert_singleton_eq. }
  assert (E4 : s4 = mkWm true {[key := 5]}).
  { subst s4. rewrite E3. unfold rollback, wm_put. simpl. fold key.
    rewrite lookup_singleton_eq. simpl. by rewrite insert_singleton_eq. }
  split; [by rewrite E1|]. split; [by rewrite E2|].
  rewrite E4. unfold advance. simpl. fold key. by rewrite lookup_singleton_eq.
Qed.

(** ** Examples *)

Module EventExample.
Import PolicyExample.
Definition bob_reads (q : Z) : Event :=
  event EventReadReceipt (PRead (mkRead "2G" q "" [] None)).
Definition bob_read (q : Z) : Event :=
  event EventReadReceipt (PRead (mkRead "2G" q "bob" [] None)).
Definition bob : Ctx := as_user "bob".
Definition members (_ : Ctx) (_ : string) : result (list string) := Ok ["alice"; "bob"].
Definition queue (p : Publication) : result unit :=
  if decide (ev_conversation_seq (pub_event p) = 2) then Err (flare_err ServiceUnavailable "mq") else Ok ().
Definition world : World SimRedis := mkWorld sim_empty (Some (mkWm true ∅)) [].
Definition run (e : Event) : stE (World SimRedis) unit :=
  handle_event policy default_event_composite members queue bob e.
(** The queue refuses the second event. *)
Definition after (q : Z) : World SimRedis := (run (bob_reads q) world).2.
Definition calls : list (Ctx * Event) :=
  [(bob, bob_reads 4); (bob, bob_reads 6); (bob, bob_reads 6); (bob, bob_reads 3); (bob, bob_reads 9)].
End EventExample.
Import EventExample.

Lemma store_empty_ok : store_ok (mkWm true ∅).
Proof. split; [done|apply map_Forall_empty]. Qed.

Example published_run :
  map (fun p => (ev_conversation_seq (pub_event p), pub_position "read:watermark:t1:2G:bob" p))
    (published (run_events PolicyExample.policy default_event_composite members queue world calls))
  = [(1, Some 4); (3, Some 6); (4, Some 9)].
Proof. vm_compute. reflexivity. Qed.

Lemma published_events_passed_every_gate_witness :
  published (after 4) <> published world
  /\ (published (after 4) = published world
      \/ exists t e1 recipients,
         event_tenant bob = Ok t /\ event_shape_ok bob (bob_reads 4)
         /\ authorize PolicyExample.policy bob t (bob_reads 4) = Ok e1
         /\ (run (bob_reads 4) world).1 = Ok ()
         /\ published (after 4) = published world
              ++ [publication bob e1 (high_water (seqs world)
                    (build_redis_key t (ev_conversation_id e1)) + 1) recipients]).
Proof.
  split; [vm_compute; discriminate|].
  refine (published_events_passed_every_gate PolicyExample.policy members queue bob (bob_reads 4)
            world (after 4) (run (bob_reads 4) world).1 _).
  unfold after, run. by destruct (handle_event _ _ _ _ _ _ _).
Defined.

Lemma refused_events_leave_no_trace_witness :
  (handle_event PolicyExample.policy default_event_composite members queue
     (PolicyExample.as_user "eve") (bob_reads 4) world).2 = world.
Proof.
  destruct (handle_event PolicyExample.policy default_event_composite members queue
     (PolicyExample.as_user "eve") (bob_reads 4) world) as [r w'] eqn:Hrun.
  refine (proj1 (refused_events_leave_no_trace PolicyExample.policy members queue
     (PolicyExample.as_user "eve") (bob_reads 4) world w' r "t1" _ _ Hrun)); [reflexivity|].
  left. vm_compute. reflexivity.
Defined.

Lemma plugin_state_only_from_its_publisher_witness :
  from_state_publisher bob = false.
Proof.
  destruct (run (bob_reads 4) world) as [r w'] eqn:Hrun.
  assert (Hp : published w' <> published world).
  { replace w' with (run (bob_reads 4) world).2 by by rewrite Hrun. vm_compute. discriminate. }
  pose proof (plugin_state_only_from_its_publisher PolicyExample.policy members queue bob (bob_reads 4)
                world w' r Hrun Hp) as Hiff.
  destruct (from_state_publisher bob); [|reflexivity].
  destruct (proj1 Hiff eq_refl) as [Habs _]. discriminate Habs.
Defined.

Lemma repeated_read_receipt_is_free_witness :
  run (bob_reads 4) (after 4) = (Ok (), after 4).
Proof.
  assert (Hs : store_ok (mkWm true {["read:watermark:t1:2G:bob" := 4]})).
  { split; [reflexivity|]. by apply map_Forall_singleton. }
  refine (repeated_read_receipt_is_free PolicyExample.policy default_event_composite members queue
    bob (bob_reads 4) (bob_read 4) "t1" "bob" 4 (after 4)
    (mkWm true {["read:watermark:t1:2G:bob" := 4]}) _ _ _ _ _ Hs _ _);
    try (vm_compute; reflexivity); vm_compute; repeat split; discriminate.
Defined.

Lemma failed_event_hands_back_its_claim_witness :
  let w := mkWorld (sim_put sim_empty "seq:t1:2G" (SInt 1)) (Some (mkWm true ∅)) [] in
  watermarks (run (bob_reads 4) w).2 = watermarks w.
Proof.
  intros w. destruct (run (bob_reads 4) w) as [r w'] eqn:Hrun.
  destruct r as [[]|err]; [vm_compute in Hrun; discriminate Hrun|].
  refine (proj1 (failed_event_hands_back_its_claim PolicyExample.policy default_event_composite members
    queue bob (bob_reads 4) w w' (mkWm true ∅) err _ store_empty_ok _ Hrun)); [reflexivity|].
  vm_compute. split; discriminate.
Defined.

Lemma published_positions_strictly_increase_witness :
  StronglySorted Z.lt
    (positions "read:watermark:t1:2G:bob"
       (published (run_events PolicyExample.policy default_event_composite members queue world calls))).
Proof.
  refine (published_positions_strictly_increase PolicyExample.policy default_event_composite members
    queue world (mkWm true ∅) calls _ _ store_empty_ok _ _); [reflexivity|reflexivity|].
  unfold calls. repeat (apply List.Forall_cons; [vm_compute; split; discriminate|]).
  apply List.Forall_nil.
Defined.
