(* ===== verification/Retention.v ===== *)
(** * Message retention

    crates/flare-im-contracts/src/message/model.rs: burn-after-read and the other
    retention policies as a lifecycle of the message itself. A method that
    mutates and then fails keeps the mutation, so each returns its outcome and
    the message. *)

From S2P Require Import Prelude Proto.
From stdpp Require Import base gmap strings list.
From Stdlib Require Import Lia ZArith.

Local Open Scope Z_scope.

(** [RetentionTransitionError] *)
Inductive RetentionTransitionError :=
  | InvalidExpireAfterSeconds
  | RetentionDisabled
  | AlreadyTerminal (l : MessageRetentionLifecycle)
  | RetentionNotDue (expire_at now : Z).

(** [Result<A, RetentionTransitionError>] of a mutating method *)
Definition transition (A : Type) : Type := (A + RetentionTransitionError) * Message.

(** [i64::saturating_add] *)
Definition i64_sat_add (a b : Z) : Z := Z.max i64_min (Z.min i64_max (a + b)).

Definition with_retention (m : Message) (p : option MessageRetentionPolicy)
    (s : option MessageRetentionState) : Message :=
  mkMessage (server_id m) (conversation_id m) (client_msg_id m) (sender_id m) (source m)
    (conversation_seq m) (created_at m) (conversation_type m) (message_type m) (message_seq m)
    (channel_id m) (sender_name m) (sender_avatar m) (thread_id m) (content m) (status m) p s
    (offline_push_info m) (attributes m) (extensions m).

Definition with_state (m : Message) (s : MessageRetentionState) : Message :=
  with_retention m (retention_policy m) (Some s).

Definition with_content (m : Message) (c : option MessageContent) (ext : gmap string string) : Message :=
  mkMessage (server_id m) (conversation_id m) (client_msg_id m) (sender_id m) (source m)
    (conversation_seq m) (created_at m) (conversation_type m) (message_type m) (message_seq m)
    (channel_id m) (sender_name m) (sender_avatar m) (thread_id m) c (status m)
    (retention_policy m) (retention_state m) (offline_push_info m) (attributes m) ext.

(** [is_terminal] *)
Definition is_terminal (l : MessageRetentionLifecycle) : bool :=
  match l with Expired | Purged => true | _ => false end.

(** [retention_lifecycle] *)
Definition retention_lifecycle (m : Message) : MessageRetentionLifecycle :=
  default LifeNone (s ← retention_state m; lifecycle s).

(** [content_visibility] *)
Definition content_visibility (m : Message) : ContentVisibility :=
  default Available (s ← retention_state m; visibility s).

(** [retention_enabled] *)
Definition retention_enabled (m : Message) : bool :=
  match p ← retention_policy m; mode p with
  | Some ModeNone => false
  | Some _ => true
  | None => false
  end.

Definition fresh_state (l : MessageRetentionLifecycle) : MessageRetentionState :=
  mkRetentionState (Some l) (Some Available) None None None None None.

(** [ensure_retention_state]: the state it leaves *)
Definition ensure_retention_state (m : Message) : MessageRetentionState :=
  default (fresh_state LifeNone) (retention_state m).

Definition set_lifecycle (s : MessageRetentionState) (l : MessageRetentionLifecycle) : MessageRetentionState :=
  mkRetentionState (Some l) (visibility s) (first_triggered_at s) (expire_at s) (expired_at s)
    (purged_at s) (triggered_by_user_id s).

(** [enable_retention_after_read] *)
Definition enable_retention_after_read (m : Message) (seconds : Z) (vis : ContentVisibility)
    : transition unit :=
  if decide (seconds <= 0) then (inr InvalidExpireAfterSeconds, m)
  else if is_terminal (retention_lifecycle m) then (inr (AlreadyTerminal (retention_lifecycle m)), m)
  else (inl (), with_retention m
          (Some (mkRetentionPolicy (Some ModeAfterRead) (Some TriggerAfterRead) (Some seconds) None
                   (Some vis) ∅))
          (Some (fresh_state Active))).

(** [schedule_retention_expiration] *)
Definition schedule_retention_expiration (m : Message) (now : Z) : transition bool :=
  match retention_policy m with
  | None => (inr RetentionDisabled, m)
  | Some policy =>
      match expire_after_seconds policy with
      | None => (inr InvalidExpireAfterSeconds, m)
      | Some after =>
          if decide (after <= 0) then (inr InvalidExpireAfterSeconds, m)
          else if is_terminal (retention_lifecycle m) then (inl false, m)
          else
            let s := ensure_retention_state m in
            match s0 ← retention_state m; expire_at s0 with
            | Some _ => (inl false, with_state m (set_lifecycle s Scheduled))
            | None =>
                (inl true, with_state m
                   (mkRetentionState (Some Scheduled) (visibility s) (first_triggered_at s)
                      (Some (i64_sat_add now after)) (expired_at s) (purged_at s)
                      (triggered_by_user_id s)))
            end
      end
  end.

(** [mark_read_for_retention] *)
Definition mark_read_for_retention (m : Message) (reader_id : string) (now : Z) : transition bool :=
  if negb (retention_enabled m) then (inl false, m)
  else
    match retention_lifecycle m with
    | Scheduled | Expired | Purged => (inl false, m)
    | l =>
        let m := match l with
                 | LifeNone => with_state m (set_lifecycle (ensure_retention_state m) Active)
                 | _ => m
                 end in
        let s := ensure_retention_state m in
        schedule_retention_expiration
          (with_state m (mkRetentionState (lifecycle s) (visibility s) (Some now) (expire_at s)
             (expired_at s) (purged_at s) (Some reader_id))) now
    end.

Definition unreadable (v : ContentVisibility) : bool :=
  match v with Hidden | Redacted | VisPurged => true | _ => false end.

(** [expire_retained_content] *)
Definition expire_retained_content (m : Message) (now : Z) : transition bool :=
  if negb (retention_enabled m) then (inr RetentionDisabled, m)
  else
    match retention_lifecycle m with
    | Expired | Purged => (inl false, m)
    | Scheduled =>
        let due := match s ← retention_state m; expire_at s with
                   | Some at_ => if decide (now < at_) then Some at_ else None
                   | None => None
                   end in
        match due with
        | Some at_ => (inr (RetentionNotDue at_ now), m)
        | None =>
            let vis := default Redacted (p ← retention_policy m; visibility_after_expiration p) in
            let s := ensure_retention_state m in
            let m := with_state m
                       (mkRetentionState (Some Expired) (Some vis) (first_triggered_at s) (expire_at s)
                          (Some now) (purged_at s) (triggered_by_user_id s)) in
            (inl true, if unreadable vis then with_content m None (extensions m) else m)
        end
    | l => (inr (AlreadyTerminal l), m)
    end.

(** [purge_retained_content] *)
Definition purge_retained_content (m : Message) (now : Z) : transition bool :=
  if negb (retention_enabled m) then (inr RetentionDisabled, m)
  else if decide (retention_lifecycle m = Purged) then (inl false, m)
  else
    let s := ensure_retention_state m in
    let m := with_state m
               (mkRetentionState (Some Purged) (Some VisPurged) (first_triggered_at s) (expire_at s)
                  (expired_at s) (Some now) (triggered_by_user_id s)) in
    (inl true, with_content m None ∅).

(** [can_read], [can_edit], [can_forward], [can_quote] *)
Definition can_read (m : Message) : bool := negb (unreadable (content_visibility m)).
Definition can_edit (m : Message) : bool := negb (is_terminal (retention_lifecycle m)).
Definition can_forward (m : Message) : bool := can_read m.
Definition can_quote (m : Message) : bool := can_read m.

(** ** Histories *)

Inductive retention_op :=
  | OpEnable (seconds : Z) (vis : ContentVisibility)
  | OpReadBy (reader : string) (now : Z)
  | OpSchedule (now : Z)
  | OpExpire (now : Z)
  | OpPurge (now : Z).

Definition apply_op (m : Message) (o : retention_op) : Message :=
  match o with
  | OpEnable secs vis => (enable_retention_after_read m secs vis).2
  | OpReadBy r now => (mark_read_for_retention m r now).2
  | OpSchedule now => (schedule_retention_expiration m now).2
  | OpExpire now => (expire_retained_content m now).2
  | OpPurge now => (purge_retained_content m now).2
  end.

Definition apply_ops : Message -> list retention_op -> Message := foldl apply_op.

(** ** Lemmas *)

Create HintDb retention.

(** Terminal messages only move from expired to purged. *)
Lemma terminal_step m o :
  is_terminal (retention_lifecycle m) = true ->
  apply_op m o = m \/ exists now, apply_op m o = (purge_retained_content m now).2.
Proof.
  intros Ht. destruct o as [secs vis|r now|now|now|now]; simpl.
  - left. unfold enable_retention_after_read. case_decide; [done|]. by rewrite Ht.
  - left. unfold mark_read_for_retention. destruct (negb _); [done|].
    destruct (retention_lifecycle m); done.
  - left. unfold schedule_retention_expiration.
    destruct (retention_policy m) as [p|]; [|done]. destruct (expire_after_seconds p); [|done].
    case_decide; [done|]. by rewrite Ht.
  - left. unfold expire_retained_content. destruct (negb _); [done|].
    destruct (retention_lifecycle m); done.
  - right. by exists now.
Qed.

Lemma purge_result m now :
  (purge_retained_content m now).2 = m
  \/ (retention_lifecycle (purge_retained_content m now).2 = Purged
      /\ content (purge_retained_content m now).2 = None
      /\ content_visibility (purge_retained_content m now).2 = VisPurged).
Proof.
  unfold purge_retained_content. destruct (negb _); [by left|]. case_decide; [by left|]. by right.
Qed.

(** What a message that cannot be read looks like: a terminal lifecycle and no
    content. *)
Definition burned (m : Message) : Prop :=
  is_terminal (retention_lifecycle m) = true /\ content m = None /\ can_read m = false.

Lemma burned_stays m o : burned m -> burned (apply_op m o).
Proof.
  intros (Ht & Hc & Hr). destruct (terminal_step m o Ht) as [->|[now ->]]; [done|].
  destruct (purge_result m now) as [->|(Hl & Hc' & Hv)]; [done|].
  unfold burned, can_read. rewrite Hl, Hc', Hv. done.
Qed.

(** C37. Burned content never comes back: once a message cannot be read because
    its retention ended, no sequence of retention operations restores its
    content or its visibility. *)
Theorem burned_content_never_returns (m : Message) (ops : list retention_op) (Hb : burned m) :
  content (apply_ops m ops) = None /\ can_read (apply_ops m ops) = false
  /\ can_edit (apply_ops m ops) = false.
Proof.
  assert (H : burned (apply_ops m ops)).
  { revert m Hb. induction ops as [|o ops IH]; intros m Hb; simpl; [done|].
    apply IH. by apply burned_stays. }
  destruct H as (Ht & Hc & Hr). unfold can_edit. by rewrite Ht.
Qed.

(** The states a message without retention state can reach. *)
Definition retention_inv (m : Message) : Prop :=
  (can_read m = false -> burned m)
  /\ (retention_lifecycle m = Scheduled -> exists t, (s ← retention_state m; expire_at s) = Some t).

Lemma can_read_state m s : retention_state m = Some s ->
  can_read m = negb (unreadable (default Available (visibility s))).
Proof. intros Hs. unfold can_read, content_visibility. by rewrite Hs. Qed.

Lemma ensure_visibility m :
  default Available (visibility (ensure_retention_state m)) = content_visibility m.
Proof. unfold ensure_retention_state, content_visibility. by destruct (retention_state m). Qed.

Lemma ensure_expire_at m :
  expire_at (ensure_retention_state m) = s ← retention_state m; expire_at s.
Proof. unfold ensure_retention_state. by destruct (retention_state m). Qed.

(** A message that is still running and was given a state with the same
    visibility can be read. *)
Lemma running_can_read m :
  retention_inv m -> is_terminal (retention_lifecycle m) = false -> can_read m = true.
Proof. intros [Hr _] Ht. destruct (can_read m) eqn:E; [done|]. destruct (Hr eq_refl) as [? _]. congruence. Qed.

Lemma schedule_inv m now :
  retention_inv m -> retention_inv (schedule_retention_expiration m now).2.
Proof.
  intros Hi. unfold schedule_retention_expiration.
  destruct (retention_policy m) as [p|]; [|done]. destruct (expire_after_seconds p) as [after|]; [|done].
  case_decide; [done|]. destruct (is_terminal (retention_lifecycle m)) eqn:Ht; [done|].
  pose proof (running_can_read m Hi Ht) as Hrd.
  assert (Hvis : unreadable (default Available (visibility (ensure_retention_state m))) = false).
  { rewrite ensure_visibility. unfold can_read in Hrd. by apply negb_true_iff in Hrd. }
  destruct (s0 ← retention_state m; expire_at s0) as [t|] eqn:He; simpl.
  - split.
    + erewrite can_read_state by reflexivity. simpl. by rewrite Hvis.
    + intros _. simpl. rewrite ensure_expire_at. eauto.
  - split.
    + erewrite can_read_state by reflexivity. simpl. by rewrite Hvis.
    + intros _. simpl. eauto.
Qed.

Lemma apply_op_inv m o : retention_inv m -> retention_inv (apply_op m o).
Proof.
  intros Hi. destruct (is_terminal (retention_lifecycle m)) eqn:Ht.
  { destruct (terminal_step m o Ht) as [->|[now ->]]; [done|].
    destruct (purge_result m now) as [->|(Hl & Hc & Hv)]; [done|].
    unfold retention_inv, burned, can_read. rewrite Hl, Hc, Hv. done. }
  pose proof (running_can_read m Hi Ht) as Hrd.
  destruct o as [secs vis|r now|now|now|now]; simpl.
  - unfold enable_retention_after_read. case_decide; [done|]. rewrite Ht. simpl.
    split; [done|by intros [=]].
  - unfold mark_read_for_retention. destruct (negb _); [done|].
    destruct (retention_lifecycle m) eqn:Hl; try done; apply schedule_inv.
    all: split; [erewrite can_read_state by reflexivity; simpl;
                 rewrite ?ensure_visibility; unfold can_read in Hrd; simpl; by rewrite Hrd|].
    all: intros Hs; exfalso; unfold retention_lifecycle, ensure_retention_state in *;
      destruct (retention_state m) as [s|]; simpl in *; congruence || done.
  - by apply schedule_inv.
  - unfold expire_retained_content. destruct (negb _); [done|].
    destruct (retention_lifecycle m) eqn:Hl; try done.
    destruct (match s ← retention_state m; expire_at s with Some _ => _ | None => _ end); [done|].
    simpl. set (vis := default Redacted _). destruct (unreadable vis) eqn:Hu; simpl.
    + split; [done|by intros [=]].
    + split; [erewrite can_read_state by reflexivity; simpl; by rewrite Hu|by intros [=]].
  - destruct (purge_result m now) as [->|(Hlf & Hc & Hv)]; [done|].
    unfold retention_inv, burned, can_read. rewrite Hlf, Hc, Hv. done.
Qed.

Lemma plain_inv m : retention_state m = None -> retention_inv m.
Proof.
  intros Hs. unfold retention_inv, burned, can_read, content_visibility, retention_lifecycle.
  rewrite Hs. by split.
Qed.

Lemma apply_ops_inv m ops : retention_inv m -> retention_inv (apply_ops m ops).
Proof. revert m. induction ops as [|o ops IH]; intros m Hi; simpl; auto using apply_op_inv. Qed.

#[export] Hint Resolve plain_inv apply_ops_inv apply_op_inv : retention.

(** A message is unreadable only when it is burned: whatever retention
    operations a fresh message goes through, if it can no longer be read (or
    forwarded, or quoted) then its lifecycle has ended and its content is gone. *)
Theorem unreadable_messages_are_burned (m : Message) (ops : list retention_op)
    (Hfresh : retention_state m = None)
    (Hun : can_read (apply_ops m ops) = false) :
  is_terminal (retention_lifecycle (apply_ops m ops)) = true /\ content (apply_ops m ops) = None.
Proof.
  destruct (apply_ops_inv m ops (plain_inv m Hfresh)) as [Hr _]. by destruct (Hr Hun) as (? & ? & _).
Qed.

(** Content never expires early: in any reachable state, an expiration that
    takes effect found a deadline, and it had passed. *)
Theorem expiration_is_never_early (m : Message) (ops : list retention_op) (now : Z) (m' : Message)
    (Hfresh : retention_state m = None)
    (Hexp : expire_retained_content (apply_ops m ops) now = (inl true, m')) :
  exists t, (s ← retention_state (apply_ops m ops); expire_at s) = Some t /\ t <= now.
Proof.
  destruct (apply_ops_inv m ops (plain_inv m Hfresh)) as [_ Hs].
  unfold expire_retained_content in Hexp. destruct (negb _); [done|].
  destruct (retention_lifecycle (apply_ops m ops)) eqn:Hl; try done.
  destruct (Hs eq_refl) as [t Ht]. rewrite Ht in Hexp. simpl in Hexp.
  exists t. split; [done|]. case_decide; [done|lia].
Qed.

(** Operations that neither purge nor replace the policy, expirations before [t]. *)
Definition quiet_until (t : Z) (o : retention_op) : Prop :=
  match o with
  | OpReadBy _ _ | OpSchedule _ => True
  | OpExpire now => now < t
  | OpEnable _ _ | OpPurge _ => False
  end.

Lemma scheduled_step m t o s :
  retention_enabled m = true -> retention_state m = Some s ->
  lifecycle s = Some Scheduled -> expire_at s = Some t -> quiet_until t o -> apply_op m o = m.
Proof.
  intros Hen Hs Hl Ht Hq.
  assert (Hlm : retention_lifecycle m = Scheduled) by (unfold retention_lifecycle; by rewrite Hs; simpl; rewrite Hl).
  destruct o as [| r now|now|now|]; simpl in *; try done.
  - unfold mark_read_for_retention. by rewrite Hen, Hlm.
  - unfold schedule_retention_expiration.
    destruct (retention_policy m) as [p|]; [|done]. destruct (expire_after_seconds p) as [after|]; [|done].
    case_decide; [done|]. rewrite Hlm. simpl. rewrite Hs. simpl. rewrite Ht. simpl.
    unfold with_state, ensure_retention_state. rewrite Hs. simpl.
    destruct m, s; simpl in *. unfold with_retention, set_lifecycle. simpl. congruence.
  - unfold expire_retained_content. rewrite Hen, Hlm. simpl. rewrite Hs. simpl. rewrite Ht.
    by rewrite decide_True.
Qed.

Lemma schedule_sets_deadline m now p after m1 :
  retention_policy m = Some p -> expire_after_seconds p = Some after ->
  schedule_retention_expiration m now = (inl true, m1) ->
  exists s, with_state m s = m1 /\ lifecycle s = Some Scheduled /\ expire_at s = Some (i64_sat_add now after).
Proof.
  intros Hp Ha. unfold schedule_retention_expiration. rewrite Hp, Ha. case_decide; [done|].
  destruct (is_terminal _); [done|]. destruct (s0 ← retention_state m; expire_at s0); [done|].
  intros [= <-]. by eexists.
Qed.

(** The first read fixes the deadline: once it scheduled the expiration, later
    reads by anyone, repeated scheduling and expirations tried before the
    deadline change nothing at all, so the message stays readable, content
    included, for the full retention time after the first read. *)
Theorem first_read_fixes_the_deadline (m m1 : Message) (reader : string) (now after : Z)
    (p : MessageRetentionPolicy) (ops : list retention_op)
    (Hp : retention_policy m = Some p) (Ha : expire_after_seconds p = Some after)
    (Hread : mark_read_for_retention m reader now = (inl true, m1))
    (Hops : Forall (quiet_until (i64_sat_add now after)) ops) :
  apply_ops m1 ops = m1 /\ content m1 = content m
  /\ (s ← retention_state m1; expire_at s) = Some (i64_sat_add now after).
Proof.
  unfold mark_read_for_retention in Hread.
  destruct (retention_enabled m) eqn:Hen; [simpl in Hread|done].
  assert (Hm1 : exists m0 s, with_state m0 s = m1 /\ content m0 = content m /\ retention_policy m0 = Some p
            /\ lifecycle s = Some Scheduled /\ expire_at s = Some (i64_sat_add now after)).
  { destruct (retention_lifecycle m); try done;
      apply (schedule_sets_deadline _ _ p after) in Hread as (s & <- & Hl & He); try done;
      do 2 eexists; (split; [reflexivity|]); by simpl. }
  destruct Hm1 as (m0 & s & <- & Hc & Hp0 & Hl & He). split; [|by simpl].
  assert (Hen1 : retention_enabled (with_state m0 s) = true).
  { unfold retention_enabled in *. simpl. by rewrite Hp0; rewrite Hp in Hen. }
  induction Hops as [|o ops Ho _ IH]; [done|]. simpl.
  by rewrite (scheduled_step (with_state m0 s) (i64_sat_add now after) o s).
Qed.

(** Expiring a message whose retention is running but not yet scheduled is
    refused as already terminal, naming the lifecycle [Active], which is not
    terminal. *)
Theorem active_retention_is_reported_terminal (m : Message) (now : Z)
    (Hen : retention_enabled m = true) (Hl : retention_lifecycle m = Active) :
  expire_retained_content m now = (inr (AlreadyTerminal Active), m) /\ is_terminal Active = false.
Proof. unfold expire_retained_content. by rewrite Hen, Hl. Qed.

(** ** Examples *)

Module RetentionExample.
Definition note : Message := with_content (plain_message "m1" "1A" "alice") (Some (Some (Text "hi" []))) ∅.
Definition armed : Message := apply_op note (OpEnable 10 Redacted).
Definition seen : Message := apply_op armed (OpReadBy "bob" 100).
Definition gone : Message := apply_op seen (OpExpire 110).
End RetentionExample.
Import RetentionExample.

Lemma burned_content_never_returns_witness :
  content (apply_ops gone [OpEnable 5 Available; OpReadBy "eve" 200; OpPurge 300]) = None.
Proof.
  refine (proj1 (burned_content_never_returns gone _ _)). by vm_compute.
Defined.

Lemma unreadable_messages_are_burned_witness :
  content (apply_ops note [OpEnable 10 Redacted; OpReadBy "bob" 100; OpExpire 110]) = None.
Proof.
  refine (proj2 (unreadable_messages_are_burned note _ _ _)); reflexivity.
Defined.

Lemma expiration_is_never_early_witness :
  exists t, (s ← retention_state (apply_ops note [OpEnable 10 Redacted; OpReadBy "bob" 100]); expire_at s)
            = Some t /\ t <= 110.
Proof.
  refine (expiration_is_never_early note [OpEnable 10 Redacted; OpReadBy "bob" 100] 110 gone _ _);
    reflexivity.
Defined.

Lemma first_read_fixes_the_deadline_witness :
  apply_ops seen [OpReadBy "carol" 105; OpExpire 109; OpSchedule 108] = seen.
Proof.
  refine (proj1 (first_read_fixes_the_deadline armed seen "bob" 100 10
    (mkRetentionPolicy (Some ModeAfterRead) (Some TriggerAfterRead) (Some 10) None (Some Redacted) ∅)
    _ _ _ _ _)); try reflexivity.
  repeat constructor; vm_compute; reflexivity.
Defined.

Lemma active_retention_is_reported_terminal_witness :
  (expire_retained_content armed 50).1 = inr (AlreadyTerminal Active).
Proof.
  by rewrite (proj1 (active_retention_is_reported_terminal armed 50 eq_refl eq_refl)).
Defined.
