(* ===== verification/Submission.v ===== *)
(** * What a send makes of a message

    flare-message-ingest/src/domain/model (message_kind.rs, message_submission.rs,
    ledger_lookback.rs), domain/enums/message_category.rs, the conversation types
    of crates/flare-im-message-pipeline/src/model/mod.rs and the pure functions of
    application/handlers/message_ingest_handler.rs and
    infrastructure/persistence/redis_idempotency.rs: the profile of a message, the
    prepared submission, the rules a pre-send hook's draft must still obey, the
    idempotency keys and the records kept under them. *)

From S2P Require Import Prelude Proto Tenant PluginPlatform OperationPolicy.
From stdpp Require Import base gmap strings list sorting.
From Stdlib Require Import ZArith Lia Ascii.

Open Scope Z_scope.

(** ** Conversation types *)

Inductive ConversationType :=
  | ConvUnspecified | ConvSingle | ConvGroup | ConvAi | ConvSystem | ConvCustomer | ConvTemp
  | ConvChannel | ConvBroadcast.

#[export] Instance ConversationType_eq_dec : EqDecision ConversationType.
Proof. solve_decision. Defined.

(** [ConversationType::from_proto] *)
Definition conv_from_proto (value : Z) : ConversationType :=
  match value with
  | 1 => ConvSingle | 2 => ConvGroup | 3 => ConvAi | 4 => ConvSystem | 5 => ConvCustomer
  | 6 => ConvTemp | 7 => ConvChannel | 8 => ConvBroadcast | _ => ConvUnspecified
  end.

(** [ConversationType::as_int] *)
Definition conv_as_int (t : ConversationType) : Z :=
  match t with
  | ConvUnspecified => 0 | ConvSingle => 1 | ConvGroup => 2 | ConvAi => 3 | ConvSystem => 4
  | ConvCustomer => 5 | ConvTemp => 6 | ConvChannel => 7 | ConvBroadcast => 8
  end.

(** [needs_member_lookup] *)
Definition needs_member_lookup (t : ConversationType) : bool :=
  match t with
  | ConvGroup | ConvAi | ConvCustomer | ConvSystem | ConvChannel | ConvBroadcast => true
  | _ => false
  end.

(** ** Message profiles *)

(** [MessageCategory] *)
Inductive MessageCategory := Temporary | NotificationCategory | Operation | Normal.

#[export] Instance MessageCategory_eq_dec : EqDecision MessageCategory.
Proof. solve_decision. Defined.

Record MessageProfile := mkProfile {
  profile_type : MessageType;
  message_type_label : string;
  category : MessageCategory;
}.

Definition is_temporary (p : MessageProfile) : bool := bool_decide (category p = Temporary).
Definition is_operation (p : MessageProfile) : bool := bool_decide (category p = Operation).
Definition is_notification (p : MessageProfile) : bool :=
  bool_decide (category p = NotificationCategory).

(** [extension_string] *)
Definition extension_string (m : Message) (key : string) : option string :=
  match extensions m !! key with
  | Some bytes => if Str.utf8_valid bytes && negb (Str.is_empty bytes) then Some bytes else None
  | None => None
  end.

(** [notification_persistent] *)
Definition notification_persistent (m : Message) : option bool :=
  match content m with
  | Some (Some (Notification notice)) => Some (persistent notice)
  | _ => None
  end.

(** The label of a content, in [ensure]. *)
Definition content_label (m : Message) : option string :=
  match content m with
  | Some (Some c) =>
      Some match c with
           | Text _ _ => "text"
           | Image => "image"
           | Video => "video"
           | Audio => "audio"
           | File => "file"
           | Location => "location"
           | Card => "card"
           | Notification _ => "notification"
           | Custom type_ => if Str.is_empty type_ then "custom" else type_
           | Forward => "forward"
           | Thread => "thread"
           | LinkCard => "link_card"
           | AppCard _ => "app_card"
           | RichText => "rich_text"
           | ImageGroup => "image_group"
           | Sticker => "sticker"
           | Emoji => "emoji"
           | Quote _ => "quote"
           | Placeholder => "placeholder"
           | System _ => "custom"
           end
  | _ => None
  end.

(** The type of a label, in [ensure]. *)
Definition label_type (label : string) : MessageType :=
  if bool_decide (label ∈ ["text"; "text/plain"; "plain_text"]) then TypeText
  else if bool_decide (label = "image") then TypeImage
  else if bool_decide (label = "video") then TypeVideo
  else if bool_decide (label = "audio") then TypeAudio
  else if bool_decide (label = "file") then TypeFile
  else if bool_decide (label = "location") then TypeLocation
  else if bool_decide (label = "card") then TypeCard
  else if bool_decide (label ∈ ["custom"; "json"; "command"; "event"]) then TypeCustom
  else if bool_decide (label = "sticker") then TypeSticker
  else if bool_decide (label = "emoji") then TypeEmoji
  else if bool_decide (label = "system") then TypeSystem
  else if bool_decide (label = "notification") then TypeNotification
  else if bool_decide (label ∈ ["typing"; "system_event"]) then TypeUnspecified
  else if bool_decide (label ∈ ["recall"; "operation"; "read"]) then TypeUnspecified
  else if bool_decide (label = "forward") then TypeForward
  else if bool_decide (label ∈ ["link_card"; "linkcard"]) then TypeLinkCard
  else if bool_decide (label ∈ ["merge_forward"; "mergeforward"]) then TypeForward
  else if bool_decide (label ∈ ["app_card"; "appcard"]) then TypeAppCard
  else if bool_decide (label ∈ ["rich_text"; "richtext"]) then TypeRichText
  else if bool_decide (label ∈ ["image_group"; "imagegroup"]) then TypeImageGroup
  else if bool_decide (label = "quote") then TypeQuote
  else if bool_decide (label = "placeholder") then TypePlaceholder
  else TypeUnspecified.

(** [determine_category] *)
Definition determine_category (t : MessageType) (label : string) (notification_type : option string)
    : MessageCategory :=
  if bool_decide (label ∈ ["typing"; "system_event"]) then Temporary
  else if bool_decide (label ∈ ["operation"; "recall"; "read"]) then Operation
  else match t with
       | TypeNotification =>
           if bool_decide (notification_type = Some "message_operation") then Operation
           else NotificationCategory
       | _ => if bool_decide (label = "notification") then NotificationCategory else Normal
       end.

Definition with_type (m : Message) (t : MessageType) : Message :=
  mkMessage (server_id m) (conversation_id m) (client_msg_id m) (sender_id m) (source m)
    (conversation_seq m) (created_at m) (conversation_type m) t (message_seq m) (channel_id m)
    (sender_name m) (sender_avatar m) (thread_id m) (content m) (status m) (retention_policy m)
    (retention_state m) (offline_push_info m) (attributes m) (extensions m).

(** [MessageProfile::ensure]: the profile, and the message with its type set. *)
Definition ensure_profile (m : Message) : MessageProfile * Message :=
  let label := default "custom" (match extension_string m "message_type" with
                                 | Some l => Some l
                                 | None => content_label m
                                 end) in
  let t := label_type label in
  let m' := with_type m t in
  (mkProfile t label (determine_category t label (extension_string m' "notification_type")), m').

(** ** Submissions *)

(** [SERVER_OWNED_ATTRIBUTES] *)
Definition SERVER_OWNED_ATTRIBUTES : list string :=
  ["pluginSharedStateJson"; "pluginSharedStateVersion"; "pluginSharedEntity"; "pluginCardUnbound"].

(** [MessageDefaults]: the defaults [prepare] uses. *)
Record MessageDefaults := mkDefaults {
  default_conversation_type : ConversationType;
  default_sender_type : string;
}.

(** [MessageSubmission]: the timeline keeps the client's time and the server's. *)
Record MessageSubmission := mkSubmission {
  sub_message : Message;
  sub_message_id : string;
  sub_emit_ts : option Z;
  sub_ingestion_ts : Z;
}.

Definition remove_all (keys : list string) (m : gmap string string) : gmap string string :=
  foldr delete m keys.

Definition default_source (sender_type : string) : MessageSource :=
  if bool_decide (sender_type = "user") then SrcUser
  else if bool_decide (sender_type = "system") then SrcSystem
  else if bool_decide (sender_type = "bot") then SrcBot
  else if bool_decide (sender_type = "admin") then SrcAdmin
  else SrcUser.

(** [MessageSubmission::prepare], with the fresh id and the time it reads. *)
Definition prepare (uuid : string) (now : Z) (d : MessageDefaults) (m : Message)
    : result MessageSubmission :=
  if Str.is_empty (conversation_id m) then Err (flare_err BadRequest "conversation_id is required")
  else if Str.is_empty (sender_id m) then Err (flare_err BadRequest "sender_id is required")
  else
    let ext := if Str.is_empty (server_id m) then extensions m
               else <["original_server_id" := server_id m]> (extensions m) in
    let client := if Str.is_empty (client_msg_id m) then uuid else client_msg_id m in
    let src := if bool_decide (source m = Some SrcUnspecified)
               then Some (default_source (default_sender_type d)) else source m in
    let conv := if bool_decide (conversation_type m = 0)
                then conv_as_int (default_conversation_type d) else conversation_type m in
    let st := if bool_decide (status m = Some StatusUnspecified) then Some Created else status m in
    let request :=
      mkMessage uuid (conversation_id m) client (sender_id m) src 0 (created_at m) conv
        (message_type m) None (channel_id m) (sender_name m) (sender_avatar m) (thread_id m)
        (content m) st (retention_policy m) (retention_state m) (offline_push_info m)
        (remove_all SERVER_OWNED_ATTRIBUTES (attributes m))
        (remove_all SERVER_OWNED_ATTRIBUTES ext) in
    let request := (ensure_profile request).2 in
    let emit_ts := if decide (0 < created_at request) then Some (created_at request) else None in
    let request :=
      mkMessage (server_id request) (conversation_id request) (client_msg_id request)
        (sender_id request) (source request) (conversation_seq request) now
        (conversation_type request) (message_type request) (message_seq request)
        (channel_id request) (sender_name request) (sender_avatar request) (thread_id request)
        (content request) (status request) (retention_policy request) (retention_state request)
        (offline_push_info request) (attributes request) (extensions request) in
    Ok (mkSubmission request (server_id request) emit_ts now).

(** ** The rules a pre-send hook's draft must still obey *)

(** [MESSAGE_TENANT_ATTRIBUTES] *)
Definition SEND_TENANT_ATTRIBUTES : list string := ["tenant_id"; "x-tenant-id"].

(** [ensure_tenant_attributes_match] *)
Definition declares_another (m : Message) (tenant key : string) : bool :=
  match attributes m !! key with
  | Some declared => bool_decide (declared <> tenant)
  | None => false
  end.

Definition ensure_tenant_attributes_match (m : Message) (tenant : string) : result unit :=
  match List.find (declares_another m tenant) SEND_TENANT_ATTRIBUTES with
  | Some key => Err (mkError PermissionDenied "message attributes declare another tenant" None
                       [("attribute", key)])
  | None => Ok ()
  end.

Definition PLUGIN_CARD_PLATFORM_ONLY : string := "PLUGIN_CARD_PLATFORM_ONLY".

(** [after_pre_send] *)
Definition after_pre_send (hooked : Message) (card_post : option Message) (conversation : string)
    : result Message :=
  match card_post with
  | Some signed => Ok signed
  | None =>
      if bool_decide (conversation_id hooked <> conversation) then
        Err (flare_err PermissionDenied
               "a pre-send hook may not move a message to another conversation")
      else if message_claims_plugin_card hooked then
        Err (flare_err_details PermissionDenied PLUGIN_CARD_PLATFORM_ONLY
               "a pre-send hook may not turn a message into a plugin card")
      else Ok hooked
  end.

(** ** Idempotency keys and records *)

(** [card_post_fingerprint] *)
Definition card_post_fingerprint (ctx : Ctx) : option string :=
  match ctx_claims ctx with
  | Some claims => if is_card_post_context claims then Some (request_id claims) else None
  | None => None
  end.

(** [card_post_idempotency_key] *)
Definition card_post_idempotency_key (tenant : string) (m : Message) : option string :=
  let client := Str.trim (client_msg_id m) in
  if Str.is_empty client then None
  else Some ("idem-pcard:" +:+ tenant +:+ ":" +:+ Str.trim (sender_id m) +:+ ":"
             +:+ Str.trim (conversation_id m) +:+ ":" +:+ client).

(** [idempotency_key] *)
Definition idempotency_key (tenant : string) (device : option string) (m : Message) : option string :=
  let client := Str.trim (client_msg_id m) in
  if Str.is_empty client then None
  else
    let conversation := Str.trim (conversation_id m) in
    let sender := Str.trim (sender_id m) in
    let device := match device with
                  | Some d => if Str.is_blank d then None else Some (Str.trim d)
                  | None => None
                  end in
    match device with
    | Some d => Some ("idem:" +:+ tenant +:+ ":" +:+ sender +:+ ":device:" +:+ d +:+ ":"
                      +:+ conversation +:+ ":" +:+ client)
    | None => Some ("idem:" +:+ tenant +:+ ":" +:+ sender +:+ ":" +:+ conversation +:+ ":" +:+ client)
    end.

Inductive SendAckDurability :=
  DurUnspecified | WalAccepted | BrokerAccepted | DurPersisted | TransientAccepted.

#[export] Instance SendAckDurability_eq_dec : EqDecision SendAckDurability.
Proof. solve_decision. Defined.

Record SendMessageOutcome := mkOutcome {
  out_message_id : string;
  out_seq : Z;
  out_durability : SendAckDurability;
}.

Record IdempotentRecord := mkRecord {
  rec_server_id : string;
  rec_seq : Z;
  rec_durability : SendAckDurability;
  rec_fingerprint : string;
}.

(** [record_of] *)
Definition record_of (o : SendMessageOutcome) (fingerprint : string) : IdempotentRecord :=
  mkRecord (out_message_id o) (out_seq o) (out_durability o) fingerprint.

Definition outcome_of (r : IdempotentRecord) : SendMessageOutcome :=
  mkOutcome (rec_server_id r) (rec_seq r) (rec_durability r).

Inductive IdempotencyBegin := FreshKey | Replay (r : IdempotentRecord) | InFlight.

Definition PENDING_MARKER : string := "PENDING".

(** The codes the protocol gives the durabilities: those of a generated enum,
    which [try_from] reads back. *)
Class DurabilityCodes := {
  code_of : SendAckDurability -> Z;
  of_code : Z -> option SendAckDurability;
  code_range d : 0 <= code_of d < 2 ^ 31;
  of_code_of d : of_code (code_of d) = Some d;
}.

(** [raw.parse::<i32>()] *)
Definition parse_i32 (s : string) : option Z :=
  match s with
  | String "-" d => match Str.to_Z d with
                    | Some z => if decide (z <= 2 ^ 31) then Some (- z) else None
                    | None => None
                    end
  | _ => match Str.parse_u64 s with
         | Some z => if decide (z < 2 ^ 31) then Some z else None
         | None => None
         end
  end.

Section Records.
Context `{DurabilityCodes}.

(** [RedisIngestIdempotencyStore::encode] *)
Definition encode_record (r : IdempotentRecord) : string :=
  let encoded := rec_server_id r +:+ "|" +:+ Str.of_Z (rec_seq r) +:+ "|"
                 +:+ Str.of_int (code_of (rec_durability r)) in
  if Str.is_empty (rec_fingerprint r) then encoded else encoded +:+ "|" +:+ rec_fingerprint r.

(** [RedisIngestIdempotencyStore::decode] *)
Definition decode_record (value : string) : option IdempotentRecord :=
  match Str.parts (Str.is_sep "|") value with
  | id :: seq :: rest =>
      if Str.is_empty id then None
      else
        match Str.parse_u64 seq with
        | None => None
        | Some seq =>
            let durability :=
              default DurPersisted
                (match rest with
                 | raw :: _ => match parse_i32 raw with Some c => of_code c | None => None end
                 | [] => None
                 end) in
            let fingerprint := match rest with _ :: fp :: _ => fp | _ => "" end in
            match rest with
            | _ :: _ :: _ :: _ => None
            | _ => Some (mkRecord id seq durability fingerprint)
            end
        end
  | _ => None
  end.

(** [begin]: SET NX of the placeholder, else the value that is there. A key that
    expired between the two commands is set again. The lifetimes of the placeholder and of
    the result (EX) are left out: records stay until they are rolled back. *)
Definition begin (slots : gmap string string) (key : string) : IdempotencyBegin * gmap string string :=
  match slots !! key with
  | None => (FreshKey, <[key := PENDING_MARKER]> slots)
  | Some value =>
      (if bool_decide (value = PENDING_MARKER) then InFlight
       else match decode_record value with Some r => Replay r | None => InFlight end, slots)
  end.

(** [commit] and [rollback] *)
Definition commit (slots : gmap string string) (key : string) (r : IdempotentRecord) : gmap string string :=
  <[key := encode_record r]> slots.
Definition rollback_slot (slots : gmap string string) (key : string) : gmap string string :=
  delete key slots.
End Records.

(** ** The ledger of stored sends *)

Definition CLIENT_CLOCK_MARGIN : Z := 5 * 60 * 1000.

(** [LedgerLookbackPolicy::reason], for a result TTL in milliseconds: whether
    the ledger is read. *)
Definition lookback_reason (redis_result_ttl client_created_at now : Z) : bool :=
  if decide (client_created_at <= 0) then false
  else
    let window := Z.min (sat_sub redis_result_ttl CLIENT_CLOCK_MARGIN) i64_max in
    bool_decide (client_created_at < i64_sat_sub now window).

Record LedgerRecord := mkLedgerRecord {
  led_conversation_id : string;
  led_server_id : string;
  led_seq : Z;
  led_durability : SendAckDurability;
}.

(** ** Durability *)

Inductive PersistenceMode := Auto | ForcePersistence | ForcePushOnly.

(** [PersistenceMode::should_push_only] *)
Definition should_push_only (mode : PersistenceMode) (temporary : bool) : bool :=
  match mode with
  | Auto => temporary
  | ForcePersistence => false
  | ForcePushOnly => true
  end.

(** The mode [ingest_send_inner] computes. *)
Definition persistence_mode_of (p : MessageProfile) (m : Message) : PersistenceMode :=
  if is_temporary p then ForcePushOnly
  else if is_notification p then
    match notification_persistent m with
    | Some false => ForcePushOnly
    | _ => Auto
    end
  else Auto.

(** [send_ack_durability] *)
Definition send_ack_durability (p : MessageProfile) (mode : PersistenceMode) : SendAckDurability :=
  if should_push_only mode (is_temporary p) then TransientAccepted else DurPersisted.

(** [usage_category] *)
Definition usage_category (p : MessageProfile) : string :=
  if is_temporary p then "temporary"
  else if is_notification p then "notification"
  else if is_operation p then "operation"
  else "normal".

(** [recoverable_publish_failure_outcome] *)
Definition recoverable_publish_failure_outcome (s : MessageSubmission) (d : SendAckDurability)
    : option SendMessageOutcome :=
  if bool_decide (d = TransientAccepted) then None
  else Some (mkOutcome (sub_message_id s) (conversation_seq (sub_message s)) WalAccepted).

(** ** Recipients *)

Definition SYNC_INBOX_CONVERSATION_PREFIX : string := "sync:".

(** [is_sync_inbox_conversation_id] and [sync_inbox_recipient] *)
Definition is_sync_inbox_conversation_id (id : string) : bool :=
  Str.starts_with SYNC_INBOX_CONVERSATION_PREFIX id.

Definition sync_inbox_recipient (id : string) : option string :=
  match Str.strip_prefix SYNC_INBOX_CONVERSATION_PREFIX id with
  | Some rest => if Str.is_blank rest then None else Some (Str.trim rest)
  | None => None
  end.

(** [explicit_single_chat_recipient] *)
Definition explicit_single_chat_recipient (channel : option string) (sender : string) : option string :=
  match channel with
  | Some c =>
      if Str.is_blank c then None
      else if decide (Str.trim c <> sender) then Some (Str.trim c) else None
  | None => None
  end.

Definition is_hint_sep (c : ascii) : bool :=
  bool_decide (c ∈ [","; ";"; " "; "010"; "009"]%char).

(** [recipient_hints_from_message_attributes] *)
Definition recipient_hints_from_message_attributes (m : Message) : list string :=
  match attributes m !! "group_member_ids" with
  | None => []
  | Some raw =>
      distinct_ids (filter (fun id => id <> "" /\ id <> sender_id m)
                      (Str.trim <$> Str.parts is_hint_sep raw))
  end.

Section Recipients.
(** [get_conversation_members], answered by the conversation service. *)
Context (members : string -> result (list string)).

(** [RecipientRepositoryImpl::get_message_recipients] *)
Definition get_message_recipients (conversation : string) (t : ConversationType)
    (channel : option string) (sender : string) : result (list string) :=
  match sync_inbox_recipient conversation with
  | Some recipient => Ok [recipient]
  | None =>
      match t with
      | ConvSingle =>
          match explicit_single_chat_recipient channel sender with
          | Some recipient => Ok [recipient]
          | None =>
              ms ← members conversation;
              Ok (distinct_ids (filter (fun u => u <> "" /\ u <> sender) (Str.trim <$> ms)))
          end
      | _ => ms ← members conversation; Ok (filter (fun u => u <> sender) ms)
      end
  end.

(** [get_recipient_user_ids] of the ingest service *)
Definition message_recipients (m : Message) : result (list string) :=
  let t := conv_from_proto (conversation_type m) in
  match get_message_recipients (conversation_id m) t
          (if Str.is_empty (channel_id m) then None else Some (channel_id m)) (sender_id m) with
  | Err e => Err (flare_err InternalError "Failed to get message recipients")
  | Ok [] => Ok (if decide (t <> ConvSingle) then recipient_hints_from_message_attributes m else [])
  | Ok rs => Ok rs
  end.

(** [resolve_persistent_message_recipients] *)
Definition resolve_persistent_message_recipients (m : Message) : result (list string * bool) :=
  if needs_member_lookup (conv_from_proto (conversation_type m)) then Ok ([], true)
  else rs ← message_recipients m; Ok (rs, false).
End Recipients.

Definition with_channel (m : Message) (channel : string) : Message :=
  mkMessage (server_id m) (conversation_id m) (client_msg_id m) (sender_id m) (source m)
    (conversation_seq m) (created_at m) (conversation_type m) (message_type m) (message_seq m)
    channel (sender_name m) (sender_avatar m) (thread_id m) (content m) (status m)
    (retention_policy m) (retention_state m) (offline_push_info m) (attributes m) (extensions m).

(** [normalize_single_chat_routing] *)
Definition normalize_single_chat_routing (m : Message) (recipients : list string) : Message :=
  if decide (conv_from_proto (conversation_type m) <> ConvSingle) then m
  else
    let sender := Str.trim (sender_id m) in
    match List.find (fun id => negb (Str.is_empty id) && bool_decide (id <> sender))
            (Str.trim <$> recipients) with
    | None => m
    | Some peer => if decide (Str.trim (channel_id m) <> peer) then with_channel m peer else m
    end.

(** ** Properties *)

Section RecordProperties.
Context `{DurabilityCodes}.

Definition no_bar (s : string) : Prop := Str.contains_char "|"%char s = false.

(** A record whose parts hold no separator. *)
Definition record_ok (r : IdempotentRecord) : Prop :=
  rec_server_id r <> "" /\ no_bar (rec_server_id r) /\ no_bar (rec_fingerprint r) /\ in_u64 (rec_seq r).

Lemma of_int_of_Z z : 0 <= z -> Str.of_int z = Str.of_Z z.
Proof.
  intros Hz. unfold Str.of_int, Str.of_Z. by destruct z as [|p|p].
Qed.

Lemma parse_i32_code d : parse_i32 (Str.of_int (code_of d)) = Some (code_of d).
Proof.
  pose proof (code_range d) as Hr. rewrite of_int_of_Z by lia.
  pose proof (Str.of_Z_digits (code_of d)) as Hd.
  pose proof (Str.parse_of_Z (code_of d)) as Hp. unfold in_u64, u64_max in Hp.
  specialize (Hp ltac:(lia)). unfold parse_i32.
  destruct (Str.of_Z (code_of d)) as [|c s]; [done|].
  assert (Hc : c <> "-"%char) by (intros ->; done).
  destruct c as [[] [] [] [] [] [] [] []]; try done; rewrite Hp; by rewrite decide_True by lia.
Qed.

Lemma code_no_bar d : no_bar (Str.of_int (code_of d)).
Proof. unfold no_bar. rewrite of_int_of_Z by (pose proof (code_range d); lia). by apply Str.of_Z_no_sep. Qed.

Lemma encode_parts r :
  record_ok r ->
  Str.parts (Str.is_sep "|") (encode_record r)
  = [rec_server_id r; Str.of_Z (rec_seq r); Str.of_int (code_of (rec_durability r))]
    ++ (if Str.is_empty (rec_fingerprint r) then [] else [rec_fingerprint r]).
Proof.
  intros (_ & Hid & Hfp & _). unfold encode_record.
  destruct (Str.is_empty (rec_fingerprint r)); autorewrite with str;
    rewrite Str.parts_app by exact Hid; rewrite Str.parts_app by auto with str.
  - by rewrite Str.parts_nosep by apply code_no_bar.
  - rewrite Str.parts_app by apply code_no_bar. by rewrite Str.parts_nosep.
Qed.

Lemma record_decodes r : record_ok r -> decode_record (encode_record r) = Some r /\ encode_record r <> PENDING_MARKER.
Proof.
  intros Hok. pose proof Hok as (Hne & Hid & Hfp & Hseq).
  assert (Hdec : decode_record (encode_record r) = Some r).
  { unfold decode_record. rewrite encode_parts by done.
    destruct r as [id seq dur fp]. cbn [app rec_server_id rec_seq rec_durability rec_fingerprint] in *.
    destruct (Str.is_empty id) eqn:E; [by apply Str.is_empty_true in E|].
    rewrite Str.parse_of_Z by done.
    destruct (Str.is_empty fp) eqn:F; rewrite parse_i32_code, of_code_of; [|done].
    by apply Str.is_empty_true in F as ->. }
  split; [done|]. intros Hp. rewrite Hp in Hdec. by vm_compute in Hdec.
Qed.

(** A committed record is read back as it was: for a server id and a fingerprint
    without the separator, decoding an encoded record gives the record, durability
    and fingerprint included, and the placeholder of a send in progress is never
    taken for a record. *)
Theorem idempotent_record_roundtrip (r : IdempotentRecord) :
  record_ok r -> decode_record (encode_record r) = Some r /\ encode_record r <> PENDING_MARKER /\ decode_record PENDING_MARKER = None.
Proof. intros [Hd Hp]%record_decodes. split; [done|]. split; [done|by vm_compute]. Qed.
End RecordProperties.

(** Card posts have keys of their own: no tenant, sender, device, conversation or
    client id chosen by a user gives the idempotency key of a platform card post. *)
Theorem card_post_keys_are_apart (t : string) (m : Message) (k : string) :
  card_post_idempotency_key t m = Some k ->
  forall t' device m', idempotency_key t' device m' <> Some k.
Proof.
  unfold card_post_idempotency_key, idempotency_key. intros Hk t' device m'.
  destruct (Str.is_empty (Str.trim (client_msg_id m))); [done|]. injection Hk as <-.
  destruct (Str.is_empty (Str.trim (client_msg_id m'))); [done|].
  intros Heq. destruct device as [d|]; [destruct (Str.is_blank d)|]; discriminate Heq.
Qed.

(** *** Submissions *)

Lemma remove_all_in keys m k : k ∈ keys -> remove_all keys m !! k = None.
Proof.
  induction keys as [|x keys IH]; [by intros ?%elem_of_nil|]. cbn [remove_all foldr].
  intros [-> |Hk]%elem_of_cons; [by apply lookup_delete_eq|].
  destruct (decide (x = k)) as [-> |]; [by apply lookup_delete_eq|].
  rewrite lookup_delete_ne by done. by apply IH.
Qed.

Lemma remove_all_notin keys m k : k ∉ keys -> remove_all keys m !! k = m !! k.
Proof.
  induction keys as [|x keys IH]; [done|]. cbn [remove_all foldr].
  intros [? Hk]%not_elem_of_cons. rewrite lookup_delete_ne by done. by apply IH.
Qed.

Lemma ensure_profile_stable m : (ensure_profile (ensure_profile m).2).1 = (ensure_profile m).1.
Proof. done. Qed.

(** What [prepare] fixes and what it keeps. *)
Record server_owned (uuid : string) (now : Z) (m : Message) (s : MessageSubmission) : Prop := {
  so_id : server_id (sub_message s) = uuid /\ sub_message_id s = uuid;
  so_seq : conversation_seq (sub_message s) = 0 /\ message_seq (sub_message s) = None;
  so_time : created_at (sub_message s) = now
            /\ sub_emit_ts s = (if decide (0 < created_at m) then Some (created_at m) else None);
  so_removed k : k ∈ SERVER_OWNED_ATTRIBUTES ->
    attributes (sub_message s) !! k = None /\ extensions (sub_message s) !! k = None;
  so_kept k : k ∉ SERVER_OWNED_ATTRIBUTES ->
    attributes (sub_message s) !! k = attributes m !! k;
  so_addressed : conversation_id (sub_message s) = conversation_id m
    /\ sender_id (sub_message s) = sender_id m /\ channel_id (sub_message s) = channel_id m;
  so_content : content (sub_message s) = content m
    /\ retention_policy (sub_message s) = retention_policy m;
}.

Lemma prepare_server_owned uuid now d m s : prepare uuid now d m = Ok s -> server_owned uuid now m s.
Proof.
  unfold prepare. destruct (Str.is_empty (conversation_id m)); [done|].
  destruct (Str.is_empty (sender_id m)); [done|]. intros [= <-].
  split; try done.
  - intros k Hk. split; by apply (remove_all_in SERVER_OWNED_ATTRIBUTES).
  - intros k Hk. by apply (remove_all_notin SERVER_OWNED_ATTRIBUTES).
Qed.

(** Sequence, identity and time of a message are the server's: a prepared
    submission has the fresh server id, no sequence number, the server's time with
    the client's kept aside, and none of the attributes only Core writes, whatever
    the sender put there; its conversation, sender, content and other attributes
    are the sender's. *)
Theorem submissions_are_server_owned (uuid : string) (now : Z) (d : MessageDefaults) (m : Message) :
  conversation_id m <> "" -> sender_id m <> "" ->
  exists s, prepare uuid now d m = Ok s /\ server_owned uuid now m s.
Proof.
  intros Hc Hs. destruct (prepare uuid now d m) as [s|e] eqn:E.
  - exists s. split; [done|]. by eapply prepare_server_owned.
  - unfold prepare in E. by rewrite (proj2 (Str.is_empty_false _) Hc), (proj2 (Str.is_empty_false _) Hs) in E.
Qed.

(** *** Recipients *)

(** A message is never delivered back to its sender: outside a sync inbox the
    resolved recipients do not include the sender, whether they come from the
    channel of a single chat or from the members of the conversation. *)
Theorem recipients_exclude_the_sender (members : string -> result (list string))
    (conversation : string) (t : ConversationType) (channel : option string) (sender : string)
    (rs : list string) :
  sync_inbox_recipient conversation = None ->
  get_message_recipients members conversation t channel sender = Ok rs -> sender ∉ rs.
Proof.
  intros Hs. unfold get_message_recipients. rewrite Hs.
  assert (Hothers : forall ms, sender ∉ filter (fun u => u <> sender) ms)
    by (intros ms [? _]%list_elem_of_filter; done).
  assert (Hmembers : forall ms, sender ∉ distinct_ids (filter (fun u => u <> "" /\ u <> sender) (Str.trim <$> ms)))
    by (intros ms [[_ ?] _]%elem_of_distinct%list_elem_of_filter; done).
  unfold explicit_single_chat_recipient.
  destruct t; intros Hr; try (inv_ok; apply Hothers).
  destruct channel as [c|]; [|inv_ok; apply Hmembers].
  destruct (Str.is_blank c); [inv_ok; apply Hmembers|].
  case_decide; inv_ok; [|apply Hmembers]. apply not_elem_of_cons. split; [done|apply not_elem_of_nil].
Qed.

(** ** Witnesses *)

Module SubmissionExample.
(** Codes as the generated enum may give them. *)
#[export] Instance codes : DurabilityCodes.
Proof.
  refine {| code_of d := match d with
                         | DurUnspecified => 0 | TransientAccepted => 1 | WalAccepted => 2
                         | BrokerAccepted => 3 | DurPersisted => 4 end;
            of_code z := match z with
                         | 0 => Some DurUnspecified | 1 => Some TransientAccepted | 2 => Some WalAccepted
                         | 3 => Some BrokerAccepted | 4 => Some DurPersisted | _ => None end |}.
  - by intros [].
  - by intros [].
Defined.

Definition card : IdempotentRecord := mkRecord "srv-9" 3 DurPersisted "pcard2-abc".

Definition note : Message :=
  mkMessage "mine" "2-group" "c1" "alice" (Some SrcUnspecified) 99 50 0 TypeUnspecified (Some 88)
    "" "" "" None (Some (Some (Text "hi" []))) (Some StatusUnspecified) None None None
    {["pluginSharedEntity" := "poll-1"; "kept" := "yes"]} ∅.
End SubmissionExample.
Import SubmissionExample.

Lemma idempotent_record_roundtrip_witness :
  decode_record (encode_record SubmissionExample.card) = Some SubmissionExample.card
  /\ encode_record SubmissionExample.card = "srv-9|3|4|pcard2-abc".
Proof.
  split; [|reflexivity].
  apply (idempotent_record_roundtrip SubmissionExample.card). repeat split; done.
Defined.

Lemma card_post_keys_are_apart_witness :
  idempotency_key "t1" (Some "d1") SubmissionExample.note <> Some "idem-pcard:t1:alice:2-group:c1".
Proof. apply (card_post_keys_are_apart "t1" SubmissionExample.note). reflexivity. Defined.

Lemma submissions_are_server_owned_witness :
  exists s, prepare "u-1" 1000 (mkDefaults ConvGroup "user") SubmissionExample.note = Ok s
            /\ server_owned "u-1" 1000 SubmissionExample.note s.
Proof.
  apply (submissions_are_server_owned "u-1" 1000 (mkDefaults ConvGroup "user") SubmissionExample.note);
    discriminate.
Defined.

Lemma recipients_exclude_the_sender_witness : "alice" ∉ ["bob"; "carol"].
Proof.
  apply (recipients_exclude_the_sender (fun _ => Ok ["carol"; "alice"; " bob "]) "1-chat" ConvSingle
           (Some "alice") "alice" ["bob"; "carol"]); reflexivity.
Defined.
