(* ===== verification/Send.v ===== *)
(** * The send path

    flare-message-ingest/src/application/handlers/message_ingest_handler.rs with the
    operations of domain/service/message_ingest_service.rs it composes: tenant gate,
    idempotency placeholder, ledger lookback, rate limit, validation, pre-send hook,
    submission, conversation, decoration, sequence number, write-ahead log,
    publication and the settlement of the placeholder.

    Every call to another process is an await point, at which the call may fail
    before or after it took effect and at which the whole send may be cancelled
    (the caller went away, the service stops). What a cancelled send leaves behind
    is decided by the guard of its placeholder, whose [Drop] runs on every exit. *)

From S2P Require Import Prelude Redis SeqAllocator IngestSeq Proto Tenant RateLimit.
From S2P Require Import PluginPlatform Validation OperationPolicy Submission.
From stdpp Require Import base gmap strings list.
From Stdlib Require Import ZArith Lia.

Open Scope Z_scope.

(** ** Data *)

(** [TenantLookup::core_quota], the send quota *)
Definition core_send_qps (l : TenantLookup) : Z := send_qps (core_quota l).

(** [tenant_gate] *)
Definition tenant_gate (l : TenantLookup) (policy : TenantAccessPolicy) : result unit :=
  if admits_connection l policy then Ok ()
  else match l with
       | Unavailable => Err (flare_err ServiceUnavailable "tenant runtime projection unavailable")
       | _ => Err (flare_err PermissionDenied "TENANT_UNAVAILABLE")
       end.

(** [SendMessageCommand] *)
Record SendMessageCommand := mkSend {
  send_message : Message;
  send_conversation_id : string;
  burn_enabled : bool;
  burn_after_read_seconds : option Z;
}.

Inductive Topic := TopicMessageMain | TopicPushMessages.

Record SendPublication := mkSendPub {
  pub_topic : Topic;
  pub_message : Message;
  pub_recipients : list string;
  pub_large : bool;
}.

(** [WalEntrySnapshot], with its score in the pending index: the hash entry and the
    index entry are written and removed in one transaction. *)
Record WalEntry := mkWal {
  wal_proof : option string;
  wal_tenant : string;
  wal_message : Message;
  wal_score : Z;
}.

(** [ReservationState] *)
Inductive ReservationState := Reserved | Accepted (r : IdempotentRecord) | Settled.

(** The stores a send touches, the reservation of its guard and the number of the
    next await point. *)
Record World (R : Type) := mkWorld {
  tick : nat;
  ingest : IngestSeq R;
  limiter : gmap string WindowCounter;
  slots : gmap string string;
  wal : gmap string WalEntry;
  outbox : list SendPublication;
  usage : list (string * string);
  guard : ReservationState;
}.
Arguments mkWorld {R}.
Arguments tick {R}.
Arguments ingest {R}.
Arguments limiter {R}.
Arguments slots {R}.
Arguments wal {R}.
Arguments outbox {R}.
Arguments usage {R}.
Arguments guard {R}.

(** What kind of call is awaited, and how the await goes. *)
Inductive Kind :=
  KTenant | KBegin | KSettle | KLedger | KPreSend | KEnsure | KDecorate | KSeq | KWal | KMembers
  | KPublish | KWalRemove | KPostSend | KClaim.

Inductive Weather :=
  | Calm
  | FailBefore (e : FlareError)
  | FailAfter (e : FlareError)
  | CancelBefore
  | CancelAfter.

(** How a send ends: it answers, or it is dropped at an await point. *)
Inductive exit (A : Type) := Returned (r : result A) | Cancelled.
Arguments Returned {A} r.
Arguments Cancelled {A}.

(** What the handler is built with: its configuration and collaborators. *)
Record Deps := mkDeps {
  tenant_lookup : string -> TenantLookup;
  tenant_policy : TenantAccessPolicy;
  has_idempotency : bool;
  (** the Redis result TTL and the ledger's [find] *)
  idempotency_ledger : option (Z * (string -> string -> string -> result (option LedgerRecord)));
  send_rate_limiter : option SendRateLimitConfig;
  validation_strategy : Strategy Message;
  execute_pre_send : Ctx -> Message -> bool -> result Message;
  execute_post_send : Ctx -> MessageSubmission -> result unit;
  ensure_conversation : Ctx -> string -> Message -> result unit;
  decorate : Message -> result Message;
  seq_floor : option (string -> string -> FloorLookup);
  conversation_members : string -> result (list string);
  prepare_write_proof : Ctx -> Message -> result (option string);
  wal_configured : bool;
  message_defaults : MessageDefaults;
  platform_api_kid : string;
  wal_cleanup_permit : nat -> bool;
  limiter_order : gmap string WindowCounter -> list string;
  new_uuid : nat -> string;
  clock : nat -> Z;
}.

Section Send.
Context `{Redis R} `{DurabilityCodes}.
Context (env : Kind -> nat -> Weather) (deps : Deps).

Abbreviation W := (World R).
Definition act (A : Type) : Type := W -> exit A * W.

#[export] Instance act_ret : MRet act := fun A a w => (Returned (Ok a), w).
#[export] Instance act_bind : MBind act := fun A B f m w =>
  match m w with
  | (Returned (Ok a), w') => f a w'
  | (Returned (Err e), w') => (Returned (Err e), w')
  | (Cancelled, w') => (Cancelled, w')
  end.

Definition lift {A} (r : result A) : act A := fun w => (Returned r, w).
(** The [Result] of a call as a value; cancellation is no value. *)
Definition attempt {A} (m : act A) : act (result A) := fun w =>
  match m w with
  | (Returned r, w') => (Returned (Ok r), w')
  | (Cancelled, w') => (Cancelled, w')
  end.

Definition set_tick (w : W) (n : nat) : W :=
  mkWorld n (ingest w) (limiter w) (slots w) (wal w) (outbox w) (usage w) (guard w).
Definition set_ingest (w : W) (i : IngestSeq R) : W :=
  mkWorld (tick w) i (limiter w) (slots w) (wal w) (outbox w) (usage w) (guard w).
Definition set_limiter (w : W) (l : gmap string WindowCounter) : W :=
  mkWorld (tick w) (ingest w) l (slots w) (wal w) (outbox w) (usage w) (guard w).
Definition set_slots (w : W) (s : gmap string string) : W :=
  mkWorld (tick w) (ingest w) (limiter w) s (wal w) (outbox w) (usage w) (guard w).
Definition set_wal (w : W) (l : gmap string WalEntry) : W :=
  mkWorld (tick w) (ingest w) (limiter w) (slots w) l (outbox w) (usage w) (guard w).
Definition set_outbox (w : W) (o : list SendPublication) : W :=
  mkWorld (tick w) (ingest w) (limiter w) (slots w) (wal w) o (usage w) (guard w).
Definition set_usage (w : W) (u : list (string * string)) : W :=
  mkWorld (tick w) (ingest w) (limiter w) (slots w) (wal w) (outbox w) u (guard w).
Definition set_guard (w : W) (g : ReservationState) : W :=
  mkWorld (tick w) (ingest w) (limiter w) (slots w) (wal w) (outbox w) (usage w) g.
Definition next (w : W) : W := set_tick w (S (tick w)).

Definition modify (f : W -> W) : act unit := fun w => (Returned (Ok ()), f w).

(** An awaited call. *)
Definition call {A} (k : Kind) (eff : W -> result A * W) : act A := fun w =>
  let w1 := next w in
  match env k (tick w) with
  | Calm => let '(r, w2) := eff w1 in (Returned r, w2)
  | FailBefore e => (Returned (Err e), w1)
  | FailAfter e => (Returned (Err e), (eff w1).2)
  | CancelBefore => (Cancelled, w1)
  | CancelAfter => (Cancelled, (eff w1).2)
  end.

(** A call of a collaborator that changes none of the stores. *)
Definition ask {A} (k : Kind) (r : result A) : act A := call k (fun w => (r, w)).

(** A call in a task of its own: nobody waits for it. *)
Definition detached (k : Kind) (eff : W -> W) (w : W) : W :=
  let w1 := next w in
  match env k (tick w) with
  | Calm | FailAfter _ | CancelAfter => eff w1
  | FailBefore _ | CancelBefore => w1
  end.

(** ** The reservation guard *)

Definition mark_accepted (fingerprint : string) (o : SendMessageOutcome) : act unit :=
  modify (fun w => set_guard w (Accepted (record_of o fingerprint))).

Definition commit_slot (key : string) (r : IdempotentRecord) (w : W) : W :=
  set_slots w (commit (slots w) key r).
Definition release_slot (key : string) (w : W) : W :=
  set_slots w (rollback_slot (slots w) key).

(** [IdempotencyReservation::settle] *)
Definition settle (key fingerprint : string) (r : result SendMessageOutcome) : act unit :=
  _ ← match r with
      | Ok o =>
          let rec := record_of o fingerprint in
          _ ← modify (fun w => set_guard w (Accepted rec));
          _ ← attempt (call KSettle (fun w => (Ok (), commit_slot key rec w)));
          mret ()
      | Err _ =>
          _ ← modify (fun w => set_guard w Reserved);
          _ ← attempt (call KSettle (fun w => (Ok (), release_slot key w)));
          mret ()
      end;
  modify (fun w => set_guard w Settled).

(** [IdempotencyReservation::drop] *)
Definition drop_guard (key : string) (w : W) : W :=
  let w0 := set_guard w Settled in
  match guard w with
  | Settled => w0
  | Accepted r => detached KSettle (commit_slot key r) w0
  | Reserved => detached KSettle (release_slot key) w0
  end.

(** The scope of a guard: whatever way it is left, the guard is dropped. *)
Definition with_guard {A} (key : string) (body : act A) : act A := fun w =>
  let '(x, w') := body (set_guard w Reserved) in (x, drop_guard key w').

(** ** Stages *)

Definition map_err {A} (e : FlareError) (m : act A) : act A :=
  r ← attempt m; lift (match r with Ok a => Ok a | Err _ => Err e end).

(** [validate_message] *)
Definition validate_message (ctx : Ctx) (m : Message) : result unit :=
  match validation_strategy deps ctx m with
  | Err _ => Err (flare_err InvalidParameter "Message validation failed")
  | Ok r => if is_valid r then Ok () else Err (flare_err InvalidParameter "Message validation failed")
  end.

(** [is_platform_system_sender] *)
Definition is_base32_char (c : Ascii.ascii) : bool :=
  let n := Ascii.N_of_ascii c in
  ((65 <=? n)%N && (n <=? 90)%N) || ((50 <=? n)%N && (n <=? 55)%N).

Definition is_platform_system_sender (c : SignedContextClaims) : bool :=
  bool_decide (actor_type c = ActService)
  && bool_decide (kid c = platform_api_kid deps)
  && bool_decide (roles c = ["platform.messages.send"])
  && match credential_id c with
     | Some id => bool_decide (String.length id = 12%nat) && Str.all_chars is_base32_char id
     | None => false
     end.

(** Whether the user's pre-send hook runs, in [ingest_send_inner]. *)
Definition execute_user_pre_send (ctx : Ctx) : bool :=
  negb match ctx_claims ctx with
       | Some c => bool_decide (actor_type c = ActService)
                   && (bool_decide (actor_id c = "flare-social-bridge") || is_platform_system_sender c)
       | None => false
       end.

Definition with_retention (m : Message) (p : MessageRetentionPolicy) : Message :=
  mkMessage (server_id m) (conversation_id m) (client_msg_id m) (sender_id m) (source m)
    (conversation_seq m) (created_at m) (conversation_type m) (message_type m) (message_seq m)
    (channel_id m) (sender_name m) (sender_avatar m) (thread_id m) (content m) (status m)
    (Some p) None (offline_push_info m) (attributes m) (extensions m).

(** The burn settings of the command, in [ingest_send_inner]. *)
Definition apply_burn (cmd : SendMessageCommand) : result Message :=
  let m := send_message cmd in
  let enabled := burn_enabled cmd || bool_decide (is_Some (retention_policy m)) in
  let seconds := match burn_after_read_seconds cmd with
                 | Some s => Some s
                 | None => match retention_policy m with
                           | Some p => expire_after_seconds p
                           | None => None
                           end
                 end in
  if negb enabled then Ok m
  else
    match seconds with
    | Some s =>
        if decide (0 < s) then
          Ok (with_retention m (mkRetentionPolicy (Some ModeAfterRead) (Some TriggerAfterRead) (Some s)
                                  None (Some Redacted) ∅))
        else Err (flare_err InvalidParameter
                    "burn_after_read_seconds must be positive when burn is enabled")
    | None => Err (flare_err InvalidParameter
                     "burn_after_read_seconds must be positive when burn is enabled")
    end.

Definition with_message_seq (m : Message) (seq : Z) : Message :=
  mkMessage (server_id m) (conversation_id m) (client_msg_id m) (sender_id m) (source m)
    seq (created_at m) (conversation_type m) (message_type m) (message_seq m)
    (channel_id m) (sender_name m) (sender_avatar m) (thread_id m) (content m) (status m)
    (retention_policy m) (retention_state m) (offline_push_info m) (attributes m) (extensions m).

Definition with_sub_message (s : MessageSubmission) (m : Message) : MessageSubmission :=
  mkSubmission m (sub_message_id s) (sub_emit_ts s) (sub_ingestion_ts s).

(** [prepare_submission] *)
Definition prepare_submission (m : Message) : act MessageSubmission := fun w =>
  (Returned (match prepare (new_uuid deps (tick w)) (clock deps (tick w)) (message_defaults deps) m with
             | Ok s => Ok s
             | Err _ => Err (flare_err InvalidParameter "Failed to prepare message")
             end), w).

(** [decorate_message] *)
Definition decorate_message (m : Message) : act Message :=
  map_err (flare_err InternalError "Message decorator failed") (ask KDecorate (decorate deps m)).

(** [allocate_seq_for_submission] *)
Definition allocate_seq_for_submission (ctx : Ctx) (tenant : string) (s : MessageSubmission)
    : act (MessageSubmission * MessageProfile) :=
  seq ← map_err (flare_err InternalError "allocate seq failed")
          (call KSeq (fun w =>
             let '(r, i) := allocate_conversation_seq (seq_floor deps)
                              (claims_tenant_id <$> ctx_claims ctx) (ingest w) (clock deps (tick w))
                              tenant (conversation_id (sub_message s)) in
             (r, set_ingest w i)));
  let m := with_message_seq (sub_message s) seq in
  mret (with_sub_message s m, (ensure_profile m).1).

(** [should_write_wal] *)
Definition should_write_wal (p : MessageProfile) (mode : PersistenceMode) : bool :=
  negb (should_push_only mode (is_temporary p)).

(** [requires_proof] *)
Definition requires_proof (m : Message) : bool :=
  match content m with
  | Some (Some (System event_kind)) => Str.starts_with "platform." event_kind
  | _ => false
  end.

(** [RedisWalRepository::append]: HSET and ZADD in one transaction. The optional EXPIRE of
    the two keys ([wal_ttl_seconds]) is left out: entries stay until the replay removes them. *)
Definition wal_append (s : MessageSubmission) (tenant : string) (proof : option string) (w : W)
    : result unit * W :=
  if negb (wal_configured deps)
  then (Err (flare_err InternalError "Redis WAL hash key is required for durable message append"), w)
  else (Ok (), set_wal w (<[server_id (sub_message s) := mkWal proof tenant (sub_message s) (clock deps (tick w))]> (wal w))).

(** [write_wal_if_needed] *)
Definition write_wal_if_needed (ctx : Ctx) (s : MessageSubmission) (p : MessageProfile)
    (mode : PersistenceMode) (tenant : string) : act unit :=
  if should_write_wal p mode then
    proof ← lift (prepare_write_proof deps ctx (sub_message s));
    if requires_proof (sub_message s) && bool_decide (proof = None) then
      lift (Err (flare_err ConfigurationError "machine WAL provenance unavailable"))
    else
      map_err (flare_err InternalError "Failed to append WAL entry") (call KWal (wal_append s tenant proof))
  else mret ().

(** Publication to a topic of the broker. *)
Definition publish (p : SendPublication) : act unit :=
  call KPublish (fun w => (Ok (), set_outbox w (outbox w ++ [p]))).

(** [push_only_with_recipients] and [push_only] *)
Definition push_only_with_recipients (m : Message) (recipients : list string) : act unit :=
  publish (mkSendPub TopicPushMessages (normalize_single_chat_routing m recipients) recipients false).

Definition push_only (m : Message) : act unit :=
  recipients ← ask KMembers (message_recipients (conversation_members deps) m);
  push_only_with_recipients (normalize_single_chat_routing m recipients) recipients.

(** [push_message] *)
Definition push_message (s : MessageSubmission) (p : MessageProfile) (mode : PersistenceMode) : act unit :=
  if should_push_only mode (is_temporary p) then push_only (sub_message s)
  else
    resolved ← ask KMembers (resolve_persistent_message_recipients (conversation_members deps) (sub_message s));
    let '(recipients, large) := (resolved : list string * bool) in
    let m := if large then sub_message s
             else normalize_single_chat_routing (sub_message s) recipients in
    publish (mkSendPub TopicMessageMain m recipients large).

Definition wal_remove (id : string) (w : W) : W := set_wal w (delete id (wal w)).

(** [cleanup_wal_after_broker_accept]: in the background while there are permits. *)
Definition cleanup_wal_after_broker_accept (s : MessageSubmission) : act unit := fun w =>
  if wal_cleanup_permit deps (tick w)
  then (Returned (Ok ()), detached KWalRemove (wal_remove (sub_message_id s)) w)
  else (_ ← attempt (call KWalRemove (fun w => (Ok (), wal_remove (sub_message_id s) w))); mret ()) w.

(** [ingest_send_inner], with the fingerprint of the reservation it marks. *)
Definition mark (reservation : option string) (o : SendMessageOutcome) : act unit :=
  match reservation with
  | Some fingerprint => mark_accepted fingerprint o
  | None => mret ()
  end.

(** Stages 9 to 11: publish, count, clean up, post-send hook. *)
Definition publish_and_finish (ctx : Ctx) (tenant : string) (reservation : option string)
    (s : MessageSubmission) (p : MessageProfile) (mode : PersistenceMode) : act SendMessageOutcome :=
  let durability := send_ack_durability p mode in
  published ← attempt (push_message s p mode);
  match published with
  | Err error =>
      match recoverable_publish_failure_outcome s durability with
      | Some outcome => mret outcome
      | None => lift (Err error)
      end
  | Ok _ =>
      let outcome := mkOutcome (sub_message_id s) (conversation_seq (sub_message s)) durability in
      _ ← mark reservation outcome;
      _ ← modify (fun w => set_usage w (usage w ++ [(tenant, usage_category p)]));
      _ ← (if bool_decide (durability <> TransientAccepted)
           then cleanup_wal_after_broker_accept s else mret ());
      _ ← attempt (ask KPostSend (execute_post_send deps ctx s));
      mret outcome
  end.

(** Stages 6 to 8: number, mode, log. *)
Definition number_and_log (ctx : Ctx) (tenant : string) (reservation : option string)
    (s : MessageSubmission) : act SendMessageOutcome :=
  numbered ← allocate_seq_for_submission ctx tenant s;
  let '(s, p) := (numbered : MessageSubmission * MessageProfile) in
  let mode := persistence_mode_of p (sub_message s) in
  _ ← write_wal_if_needed ctx s p mode tenant;
  _ ← match recoverable_publish_failure_outcome s (send_ack_durability p mode) with
      | Some outcome => mark reservation outcome
      | None => mret ()
      end;
  publish_and_finish ctx tenant reservation s p mode.

(** Stages 1 to 5: validate, hook, prepare, conversation, decorate. *)
Definition ingest_send_inner (ctx : Ctx) (cmd : SendMessageCommand) (tenant : string)
    (reservation : option string) : act SendMessageOutcome :=
  m ← lift (apply_burn cmd);
  _ ← lift (validate_message ctx m);
  let card_post := match card_post_fingerprint ctx with Some _ => Some m | None => None end in
  hooked ← ask KPreSend (execute_pre_send deps ctx m (execute_user_pre_send ctx));
  m' ← lift (after_pre_send hooked card_post (conversation_id m));
  _ ← lift (ensure_tenant_attributes_match m' tenant);
  s ← prepare_submission m';
  _ ← (if is_sync_inbox_conversation_id (conversation_id (sub_message s)) then mret ()
       else ask KEnsure (ensure_conversation deps ctx tenant (sub_message s)));
  d ← decorate_message (sub_message s);
  number_and_log ctx tenant reservation (with_sub_message s d).

(** ** The handler *)

(** [replay_from_ledger] *)
Definition replay_from_ledger (tenant : string) (m : Message) : act (option SendMessageOutcome) := fun w =>
  match idempotency_ledger deps with
  | None => (Returned (Ok None), w)
  | Some (ttl, find) =>
      if negb (lookback_reason ttl (created_at m) (clock deps (tick w))) then (Returned (Ok None), w)
      else
        (found ← attempt (ask KLedger (find (normalize_tenant_id tenant) (sender_id m) (client_msg_id m)));
         lift match found with
              | Ok (Some r) =>
                  if bool_decide (led_conversation_id r = conversation_id m)
                  then Ok (Some (mkOutcome (led_server_id r) (led_seq r) (led_durability r)))
                  else Ok None
              | Ok None => Ok None
              | Err _ => Err (flare_err ServiceUnavailable "idempotency ledger unavailable; retry shortly")
              end) w
  end.

Definition rate_limit (tenant : string) (qps : Z) (m : Message) : act unit := fun w =>
  match send_rate_limiter deps with
  | None => (Returned (Ok ()), w)
  | Some c =>
      let '(r, l) := check (limiter_order deps) c (limiter w) (clock deps (tick w)) tenant qps m in
      (Returned r, set_limiter w l)
  end.

(** The idempotency key and the fingerprint of a send. *)
Definition send_key (ctx : Ctx) (tenant : string) (m : Message) : option string :=
  if negb (has_idempotency deps) then None
  else
    match card_post_fingerprint ctx with
    | Some _ => card_post_idempotency_key tenant m
    | None => idempotency_key tenant
                (match ctx_device_id ctx with
                 | Some d => if Str.is_empty d then None else Some d
                 | None => None
                 end) m
    end.

Definition send_fingerprint (ctx : Ctx) : string := default "" (card_post_fingerprint ctx).

Definition send_tenant (ctx : Ctx) : result string :=
  match ctx_tenant_id ctx with
  | Some t => if Str.is_blank t then Err (flare_err InvalidParameter "tenant required to send a message")
              else Ok t
  | None => Err (flare_err InvalidParameter "tenant required to send a message")
  end.

(** The ledger is not asked about card posts. *)
Definition lookback (ctx : Ctx) (tenant : string) (m : Message) : act (option SendMessageOutcome) :=
  if Str.is_empty (send_fingerprint ctx) then replay_from_ledger tenant m else mret None.

(** The send under its placeholder: what follows [IdempotencyBegin::Fresh]. *)
Definition guarded_send (ctx : Ctx) (cmd : SendMessageCommand) (tenant key : string) (qps : Z)
    : act SendMessageOutcome :=
  let fingerprint := send_fingerprint ctx in
  with_guard key
    (replay ← attempt (lookback ctx tenant (send_message cmd));
     match replay with
     | Ok (Some outcome) => _ ← settle key fingerprint (Ok outcome); mret outcome
     | Err error => _ ← settle key fingerprint (Err error); lift (Err error)
     | Ok None =>
         _ ← rate_limit tenant qps (send_message cmd);
         r ← attempt (ingest_send_inner ctx cmd tenant (Some fingerprint));
         _ ← settle key fingerprint r;
         lift r
     end).

(** [handle_send_message_inner] *)
Definition handle_send_message_inner (ctx : Ctx) (cmd : SendMessageCommand) : act SendMessageOutcome :=
  tenant ← lift (send_tenant ctx);
  lookup ← attempt (ask KTenant (Ok (tenant_lookup deps tenant)));
  let lookup := match lookup with Ok l => l | Err _ => Unavailable end in
  _ ← lift (tenant_gate lookup (tenant_policy deps));
  let qps := core_send_qps lookup in
  match send_key ctx tenant (send_message cmd) with
  | None =>
      _ ← rate_limit tenant qps (send_message cmd);
      ingest_send_inner ctx cmd tenant None
  | Some key =>
      begun ← call KBegin (fun w => let '(b, sl) := begin (slots w) key in (Ok b, set_slots w sl));
      match begun with
      | Replay r =>
          if bool_decide (rec_fingerprint r <> send_fingerprint ctx) then
            lift (Err (flare_err PermissionDenied "client message id already used by another send"))
          else mret (outcome_of r)
      | InFlight => lift (Err (flare_err ServiceUnavailable "duplicate send in progress; retry shortly"))
      | FreshKey => guarded_send ctx cmd tenant key qps
      end
  end.
End Send.

(** ** Reasoning about a send

    [wp m Q w]: however the send [m] ends from [w], [Q] holds of its end and the
    world it leaves. *)

Section Logic.
Context `{Redis R} `{DurabilityCodes}.
Context (env : Kind -> nat -> Weather) (deps : Deps).
Abbreviation W := (World R).

Definition wp {A} (m : act A) (Q : exit A -> W -> Prop) (w : W) : Prop := Q (m w).1 (m w).2.

(** The postcondition of [m] in [m; f]. *)
Definition andthen {A B} (f : A -> act B) (Q : exit B -> W -> Prop) (x : exit A) (w : W) : Prop :=
  match x with
  | Returned (Ok a) => wp (f a) Q w
  | Returned (Err e) => Q (Returned (Err e)) w
  | Cancelled => Q Cancelled w
  end.

Lemma wp_bind {A B} (m : act A) (f : A -> act B) Q w : wp m (andthen f Q) w -> wp (x ← m; f x) Q w.
Proof.
  unfold wp, andthen, mbind, act_bind. destruct (m w) as [[[a|e]|] w']; done.
Qed.

Lemma wp_ret {A} (a : A) Q w : Q (Returned (Ok a)) w -> wp (mret a) Q w.
Proof. done. Qed.

Lemma wp_lift {A} (r : result A) Q w : Q (Returned r) w -> wp (lift r) Q w.
Proof. done. Qed.

Lemma wp_modify (f : W -> W) Q w : Q (Returned (Ok ())) (f w) -> wp (modify f) Q w.
Proof. done. Qed.

Lemma wp_attempt {A} (m : act A) Q w :
  wp m (fun x w' => match x with
                    | Returned r => Q (Returned (Ok r)) w'
                    | Cancelled => Q Cancelled w'
                    end) w -> wp (attempt m) Q w.
Proof. unfold wp, attempt. destruct (m w) as [[r|] w']; done. Qed.

Lemma wp_mono {A} (m : act A) (P Q : exit A -> W -> Prop) w :
  wp m P w -> (forall x w', P x w' -> Q x w') -> wp m Q w.
Proof. unfold wp. auto. Qed.

Lemma wp_call {A} k (eff : W -> result A * W) Q w :
  Q (Returned (eff (next w)).1) (eff (next w)).2 ->
  (forall e, Q (Returned (Err e)) (next w)) -> (forall e, Q (Returned (Err e)) (eff (next w)).2) ->
  Q Cancelled (next w) -> Q Cancelled (eff (next w)).2 ->
  wp (call env k eff) Q w.
Proof.
  intros. unfold wp, call. destruct (env k (tick w)); simpl; [by destruct (eff (next w))|auto..].
Qed.

Lemma wp_call_calm {A} k (eff : W -> result A * W) Q w :
  (forall n, env k n = Calm) ->
  Q (Returned (eff (next w)).1) (eff (next w)).2 -> wp (call env k eff) Q w.
Proof. intros Hc. unfold wp, call. rewrite Hc. by destruct (eff (next w)). Qed.

Lemma wp_ask {A} k (r : result A) Q w :
  Q (Returned r) (next w) -> (forall e, Q (Returned (Err e)) (next w)) -> Q Cancelled (next w) ->
  wp (ask env k r) Q w.
Proof. intros. by apply wp_call. Qed.

Lemma wp_map_err {A} e (m : act A) Q w :
  wp m (fun x w' => match x with
                    | Returned (Ok a) => Q (Returned (Ok a)) w'
                    | Returned (Err _) => Q (Returned (Err e)) w'
                    | Cancelled => Q Cancelled w'
                    end) w -> wp (map_err e m) Q w.
Proof.
  intros Hm. apply wp_bind, wp_attempt. eapply wp_mono; [exact Hm|]. by intros [[]|] w'.
Qed.

(** A step that leaves a relation of the world: [keeps P m]. *)
Definition keeps {A} (P : W -> W -> Prop) (m : act A) : Prop := forall w, wp m (fun _ w' => P w w') w.
End Logic.

Create HintDb send.
#[export] Hint Resolve wp_ret wp_lift wp_modify : send.

(** One step through a send. *)
Ltac wp_step :=
  lazymatch goal with
  | |- wp (mbind _ _) _ _ => apply wp_bind
  | |- wp (mret _) _ _ => apply wp_ret
  | |- wp (lift _) _ _ => apply wp_lift
  | |- wp (modify _) _ _ => apply wp_modify
  | |- wp (attempt _) _ _ => apply wp_attempt
  | |- wp (map_err _ _) _ _ => apply wp_map_err
  | |- wp (ask _ _ _) _ _ => apply wp_ask
  | |- andthen _ _ (Returned (Ok _)) _ => cbn [andthen]
  | |- andthen _ _ (Returned (Err _)) _ => cbn [andthen]
  | |- andthen _ _ Cancelled _ => cbn [andthen]
  | |- andthen _ _ (Returned ?r) _ => let E := fresh "E" in destruct r eqn:E; cbn [andthen]
  | |- forall _ : FlareError, _ => intros ?
  end.

(** ** What an accepted send left behind *)

Section Properties.
Context `{Redis R} `{DurabilityCodes}.
Context (env : Kind -> nat -> Weather) (deps : Deps).
Abbreviation W := (World R).

Definition names (m : Message) (o : SendMessageOutcome) : Prop :=
  server_id m = out_message_id o /\ conversation_seq m = out_seq o.

(** The message an outcome speaks of is where its durability says. *)
Definition recoverable (w : W) (o : SendMessageOutcome) : Prop :=
  match out_durability o with
  | WalAccepted => exists e, wal w !! out_message_id o = Some e /\ names (wal_message e) o
  | DurPersisted => exists p, p ∈ outbox w /\ pub_topic p = TopicMessageMain /\ names (pub_message p) o
  | TransientAccepted => exists p, p ∈ outbox w /\ pub_topic p = TopicPushMessages /\ names (pub_message p) o
  | _ => False
  end.

Lemma recoverable_next w o : recoverable (next w) o <-> recoverable w o.
Proof. done. Qed.

Lemma recoverable_outbox w ps o : recoverable w o -> recoverable (set_outbox w (outbox w ++ ps)) o.
Proof.
  unfold recoverable. destruct (out_durability o); try done;
    intros (p & Hp & ?); exists p; (split; [|done]); apply elem_of_app; by left.
Qed.

Lemma recoverable_wal w l o :
  out_durability o <> WalAccepted -> recoverable w o -> recoverable (set_wal w l) o.
Proof. unfold recoverable. by destruct (out_durability o). Qed.

Lemma normalize_names m rs o : names m o -> names (normalize_single_chat_routing m rs) o.
Proof.
  unfold normalize_single_chat_routing. case_decide; [done|].
  destruct (List.find _ _); [|done]. by case_decide.
Qed.

(** What the guard of a send in progress may say. *)
Definition guard_ok (reservation : option string) (w : W) : Prop :=
  match reservation with
  | None => True
  | Some fingerprint =>
      match guard w with
      | Settled => False
      | Reserved => True
      | Accepted r => rec_fingerprint r = fingerprint /\ recoverable w (outcome_of r)
      end
  end.

Lemma guard_ok_outbox resv w ps : guard_ok resv w -> guard_ok resv (set_outbox w (outbox w ++ ps)).
Proof.
  unfold guard_ok. destruct resv; [|done]. simpl. destruct (guard w); try done.
  intros [? ?]. split; [done|]. by apply recoverable_outbox.
Qed.

(** How a send that got past its placeholder ends. *)
Definition ends_well (reservation : option string) (w : W) (x : exit SendMessageOutcome) (w' : W) : Prop :=
  slots w' = slots w
  /\ match x with
     | Returned (Ok o) => recoverable w' o
     | Returned (Err _) => True
     | Cancelled => guard_ok reservation w'
     end.

Lemma push_message_spec resv s p mode w :
  server_id (sub_message s) = sub_message_id s -> guard_ok resv w ->
  wp (push_message env deps s p mode)
    (fun x w' =>
       slots w' = slots w /\ wal w' = wal w /\ guard_ok resv w'
       /\ (x = Returned (Ok ()) ->
           recoverable w' (mkOutcome (sub_message_id s) (conversation_seq (sub_message s))
                             (send_ack_durability p mode)))) w.
Proof.
  intros Hid Hg. unfold push_message, push_only, push_only_with_recipients, send_ack_durability.
  set (o := mkOutcome _ _). assert (Hn : forall d, names (sub_message s) (o d)) by done.
  destruct (should_push_only mode (is_temporary p)).
  - repeat wp_step; try done. unfold publish.
    apply wp_call; try intros ?; repeat split; try done; try (by apply (guard_ok_outbox resv (next (next w)))).
    intros _. eexists. split; [apply elem_of_app; right; by apply list_elem_of_singleton|].
    split; [done|]. by apply normalize_names, normalize_names.
  - repeat wp_step; try done. destruct a as [rs large]. unfold publish.
    apply wp_call; try intros ?; repeat split; try done; try (by apply (guard_ok_outbox resv (next (next w)))).
    intros _. eexists. split; [apply elem_of_app; right; by apply list_elem_of_singleton|].
    split; [done|]. simpl. destruct large; [done|]. by apply normalize_names.
Qed.

(** Bookkeeping after acceptance keeps what was accepted. *)
Definition accepted (resv : option string) (o : SendMessageOutcome) (w0 : W)
    (x : exit unit) (w : W) : Prop :=
  slots w = slots w0 /\ guard_ok resv w /\ recoverable w o /\ forall e, x <> Returned (Err e).

Lemma cleanup_spec resv s w o :
  guard_ok resv w -> recoverable w o -> out_durability o <> WalAccepted ->
  (resv <> None -> exists r, guard w = Accepted r /\ rec_durability r <> WalAccepted) ->
  wp (cleanup_wal_after_broker_accept env deps s) (accepted resv o w) w.
Proof.
  intros Hg Ho Hd Hacc. set (id := sub_message_id s).
  assert (Hrm : guard_ok resv (wal_remove id (next w)) /\ recoverable (wal_remove id (next w)) o).
  { split; [|by apply recoverable_wal]. unfold guard_ok in *. destruct resv as [fp|]; [|done].
    destruct Hacc as (r & Hr & Hnw); [done|]. simpl in *. rewrite Hr in *. destruct Hg.
    split; [done|]. by apply recoverable_wal. }
  destruct Hrm as [Hg1 Ho1]. unfold cleanup_wal_after_broker_accept, wp.
  destruct (wal_cleanup_permit deps (tick w)).
  - unfold detached. destruct (env KWalRemove (tick w)); done.
  - match goal with |- accepted _ _ _ (?m w).1 (?m w).2 => change (wp m (accepted resv o w) w) end.
    repeat wp_step. apply wp_call; intros; repeat wp_step; done.
Qed.

Lemma finish_spec ctx tenant resv s p mode w :
  let o d := mkOutcome (sub_message_id s) (conversation_seq (sub_message s)) d in
  server_id (sub_message s) = sub_message_id s -> guard_ok resv w ->
  (send_ack_durability p mode <> TransientAccepted -> recoverable w (o WalAccepted)) ->
  wp (publish_and_finish env deps ctx tenant resv s p mode) (ends_well resv w) w.
Proof.
  intros o Hid Hg Hwal. unfold publish_and_finish.
  repeat wp_step. eapply wp_mono; [by apply (push_message_spec resv)|].
  intros [[[]|e]|] w1 (Hs & Hw & Hg1 & Hrec); [|..|by split]; wp_step.
  2: { unfold recoverable_publish_failure_outcome. case_bool_decide as Ht; wp_step; (split; [done|]); [done|].
       specialize (Hwal Ht). unfold recoverable in *. simpl in *. by rewrite Hw. }
  specialize (Hrec eq_refl). fold (o (send_ack_durability p mode)) in Hrec |- *.
  set (out := o (send_ack_durability p mode)) in *.
  assert (Hout : out_durability out <> WalAccepted)
    by (subst out; simpl; unfold send_ack_durability; by destruct (should_push_only _ _)).
  apply wp_bind. unfold mark.
  set (w2 := match resv with Some fp => set_guard w1 (Accepted (record_of out fp)) | None => w1 end).
  assert (Hmark : wp (match resv with Some fp => mark_accepted fp out | None => mret () end)
                    (fun x w' => x = Returned (Ok ()) /\ w' = w2) w1) by (subst w2; by destruct resv).
  eapply wp_mono; [exact Hmark|]. intros x w' [-> ->]. repeat wp_step. clear Hmark.
  set (w3 := set_usage w2 _).
  assert (H3 : slots w3 = slots w /\ guard_ok resv w3 /\ recoverable w3 out) by (subst w3 w2; by destruct resv).
  assert (Hacc : resv <> None -> exists r, guard w3 = Accepted r /\ rec_durability r <> WalAccepted)
    by (intros; subst w3 w2; destruct resv; [by eexists|done]).
  destruct H3 as (Hs3 & Hg3 & Ho3). clearbody w3.
  assert (Hclean : wp (if bool_decide (send_ack_durability p mode <> TransientAccepted)
                       then cleanup_wal_after_broker_accept env deps s else mret ())
                     (accepted resv out w3) w3).
  { case_bool_decide; [by apply cleanup_spec|by apply wp_ret]. }
  eapply wp_mono; [exact Hclean|]. intros [[[]|e]|] w4 (Hs4 & Hg4 & Ho4 & Hne).
  - repeat wp_step; (split; [simpl; congruence|done]).
  - by destruct (Hne e).
  - split; [congruence|done].
Qed.

(** A step that leaves placeholders and the guard alone. *)
Definition aside (w w' : W) : Prop := slots w' = slots w /\ guard w' = guard w.

Lemma allocate_spec ctx tenant s w :
  wp (allocate_seq_for_submission env deps ctx tenant s)
    (fun x w' => aside w w' /\ wal w' = wal w /\ outbox w' = outbox w /\ usage w' = usage w
       /\ forall s' p, x = Returned (Ok (s', p)) ->
          exists seq, s' = with_sub_message s (with_message_seq (sub_message s) seq)) w.
Proof.
  unfold allocate_seq_for_submission. repeat wp_step.
  set (eff := fun w1 : W => _). assert (He : forall w1, aside w1 (eff w1).2 /\ wal (eff w1).2 = wal w1
    /\ outbox (eff w1).2 = outbox w1 /\ usage (eff w1).2 = usage w1).
  { intros w1. unfold eff. by destruct (allocate_conversation_seq _ _ _ _ _ _). }
  destruct (He (next w)) as ((Hs & Hg) & Hw & Ho & Hu). clearbody eff. simpl in Hs, Hg, Hw, Ho, Hu.
  apply wp_call; intros; repeat wp_step; try done.
  - destruct (eff (next w)).1; repeat wp_step; (split; [done|]); repeat split; try done.
    intros s' p' [= <- <-]. by eexists.
Qed.

Lemma write_wal_spec ctx s p mode tenant w :
  wp (write_wal_if_needed env deps ctx s p mode tenant)
    (fun x w' => aside w w' /\ outbox w' = outbox w /\ usage w' = usage w /\ ingest w' = ingest w
       /\ (forall id e, wal w' !! id = Some e ->
             wal w !! id = Some e \/ (wal_message e = sub_message s /\ wal_tenant e = tenant))
       /\ (x = Returned (Ok ()) -> send_ack_durability p mode <> TransientAccepted ->
           exists e, wal w' !! server_id (sub_message s) = Some e /\ wal_message e = sub_message s)) w.
Proof.
  unfold write_wal_if_needed, should_write_wal, send_ack_durability.
  destruct (should_push_only mode (is_temporary p)); simpl;
    [by repeat wp_step; repeat split; auto|].
  repeat wp_step; [|by repeat split; auto].
  destruct (requires_proof _ && _); repeat wp_step; [by repeat split; auto|].
  unfold wal_append. destruct (wal_configured deps); simpl.
  - assert (Hin : forall w1 : W, wal w1 = wal w -> forall id e,
      <[server_id (sub_message s):=mkWal a tenant (sub_message s) (clock deps (tick w1))]> (wal w1) !! id = Some e ->
      wal w !! id = Some e \/ (wal_message e = sub_message s /\ wal_tenant e = tenant)).
    { intros w1 Hw id e. rewrite Hw. intros [[_ <-]|[_ ?]]%lookup_insert_Some; [by right|by left]. }
    apply wp_call; simpl; intros; repeat split; try done; try (by apply (Hin (next w)));
      try (by left). intros _ _. rewrite lookup_insert_eq. by eexists.
  - apply wp_call; simpl; intros; repeat split; try done; by left.
Qed.

Lemma number_spec ctx tenant resv s w :
  server_id (sub_message s) = sub_message_id s -> (resv <> None -> guard w = Reserved) ->
  wp (number_and_log env deps ctx tenant resv s) (ends_well resv w) w.
Proof.
  intros Hid Hg. unfold number_and_log. wp_step. eapply wp_mono; [apply allocate_spec|].
  intros x w1 ((Hs1 & Hg1) & _ & _ & _ & Hx).
  assert (Hres : guard_ok resv w1) by (destruct resv; [simpl; by rewrite Hg1, Hg by done|done]).
  destruct x as [[[s' p]|e]|]; [|by split|by split]. cbn [andthen].
  destruct (Hx s' p eq_refl) as (seq & ->). clear Hx.
  set (s1 := with_sub_message _ _). set (mode := persistence_mode_of p (sub_message s1)).
  wp_step. eapply wp_mono; [apply write_wal_spec|].
  intros x w2 ((Hs2 & Hg2) & _ & _ & _ & _ & Hw).
  assert (Hres2 : guard_ok resv w2) by (destruct resv; [simpl; by rewrite Hg2, Hg1, Hg by done|done]).
  destruct x as [[[]|e]|]; cbn [andthen]; [|split; [congruence|done]..].
  specialize (Hw eq_refl).
  set (wacc := mkOutcome (sub_message_id s1) (conversation_seq (sub_message s1)) WalAccepted).
  assert (Hrec : send_ack_durability p mode <> TransientAccepted -> recoverable w2 wacc).
  { intros Ht. destruct (Hw Ht) as (e & He & Hm). exists e.
    change (server_id (sub_message s1)) with (server_id (sub_message s)) in He. rewrite Hid in He.
    split; [done|]. rewrite Hm. split; [exact Hid|done]. }
  wp_step. unfold recoverable_publish_failure_outcome.
  assert (Hends : forall w3, slots w3 = slots w2 -> guard_ok resv w3 ->
    (send_ack_durability p mode <> TransientAccepted -> recoverable w3 wacc) ->
    wp (publish_and_finish env deps ctx tenant resv s1 p mode) (ends_well resv w) w3).
  { intros w3 Hs3 Hg3 Hr3. eapply wp_mono; [by apply finish_spec|].
    intros x w4 [Hs4 Hx4]. split; [congruence|done]. }
  case_bool_decide; cbn [andthen]; [by repeat wp_step; apply Hends|].
  unfold mark. destruct resv as [fp|]; [|by repeat wp_step; apply Hends; [|..|intros; apply Hrec]].
  unfold mark_accepted. repeat wp_step. apply Hends; [done| |done].
  split; [done|]. by apply Hrec.
Qed.

Section Decorated.
(** Decorators fill in display fields; the identity of a message is not theirs. *)
Context (decorate_keeps_id : forall m d, decorate deps m = Ok d -> server_id d = server_id m).

Lemma ingest_spec ctx cmd tenant resv w :
  (resv <> None -> guard w = Reserved) ->
  wp (ingest_send_inner env deps ctx cmd tenant resv) (ends_well resv w) w.
Proof.
  intros Hg.
  assert (Hres : forall w' : W, guard w' = guard w -> guard_ok resv w')
    by (intros w' Hw'; destruct resv; [simpl; by rewrite Hw', Hg by done|done]).
  assert (Hstop : forall (x : exit SendMessageOutcome) (w' : W), slots w' = slots w -> guard w' = guard w ->
    (forall o, x <> Returned (Ok o)) -> ends_well resv w x w').
  { intros x w' Hs Hg' Hx. split; [done|]. destruct x as [[o|]|]; [by destruct (Hx o)|done|by apply Hres]. }
  unfold ingest_send_inner. repeat (wp_step; try (by apply Hstop)).
  unfold prepare_submission, wp at 1. simpl.
  destruct (prepare _ _ _ _) as [s|e] eqn:Hp; cbn [andthen]; [|by apply Hstop].
  apply prepare_server_owned in Hp as [[Hid1 Hid2] _ _ _ _ _ _].
  wp_step. set (w1 := next w).
  assert (Hrest : forall w2, aside w w2 ->
    wp (d ← decorate_message env deps (sub_message s);
        number_and_log env deps ctx tenant resv (with_sub_message s d)) (ends_well resv w) w2).
  { intros w2 [Hs2 Hg2]. unfold decorate_message. repeat (wp_step; try (by apply Hstop)).
    destruct (decorate deps (sub_message s)) as [d|] eqn:Hd; repeat wp_step; [|by apply Hstop].
    eapply wp_mono; [apply number_spec; [|intros Hr; rewrite <- (Hg Hr); exact Hg2]|].
    - simpl. rewrite (decorate_keeps_id _ _ Hd). congruence.
    - intros x w3 [Hs3 Hx]. split; [|done]. rewrite Hs3. exact Hs2. }
  destruct (is_sync_inbox_conversation_id _); [wp_step; cbn [andthen]; by apply Hrest|].
  wp_step; [|intros e; by apply Hstop|by apply Hstop].
  wp_step; [by apply Hrest|by apply Hstop].
Qed.

Section Settling.
(** The calls that settle a placeholder go through. *)
Context (settle_calm : forall n, env KSettle n = Calm).

(** Nothing but the placeholder, the guard and the clock differs. *)
Definition same_stores (w w' : W) : Prop :=
  ingest w' = ingest w /\ limiter w' = limiter w /\ wal w' = wal w /\ outbox w' = outbox w
  /\ usage w' = usage w.

Lemma same_stores_recoverable w w' o : same_stores w w' -> recoverable w o -> recoverable w' o.
Proof. intros (_ & _ & Hw & Ho & _). unfold recoverable. by rewrite Hw, Ho. Qed.

Lemma wp_with_guard {A} key (body : act A) (Q : exit A -> W -> Prop) w :
  wp body (fun x w' => Q x (drop_guard env key w')) (set_guard w Reserved) -> wp (with_guard env key body) Q w.
Proof. unfold wp, with_guard. by destruct (body _). Qed.

Definition settled_slots (key fp : string) (r : result SendMessageOutcome) (w : W) : gmap string string :=
  match r with
  | Ok o => commit (slots w) key (record_of o fp)
  | Err _ => rollback_slot (slots w) key
  end.

Lemma settle_spec key fp r w :
  wp (settle env key fp r)
    (fun x w' => x = Returned (Ok ()) /\ guard w' = Settled /\ same_stores w w'
                 /\ slots w' = settled_slots key fp r w) w.
Proof.
  unfold settle. wp_step. destruct r as [o|e]; repeat wp_step;
    (apply wp_call_calm; [done|]); repeat wp_step; by repeat split.
Qed.

(** A dropped guard that was not settled settles now. *)
Lemma drop_spec key w :
  same_stores w (drop_guard env key w)
  /\ slots (drop_guard env key w)
     = match guard w with
       | Settled => slots w
       | Accepted r => commit (slots w) key r
       | Reserved => rollback_slot (slots w) key
       end.
Proof.
  unfold drop_guard, detached. destruct (guard w); rewrite ?settle_calm; by repeat split.
Qed.

(** The outcome comes from the ledger of stored sends. *)
Definition from_ledger (tenant : string) (m : Message) (o : SendMessageOutcome) : Prop :=
  exists ttl find r, idempotency_ledger deps = Some (ttl, find)
    /\ find (normalize_tenant_id tenant) (sender_id m) (client_msg_id m) = Ok (Some r)
    /\ led_conversation_id r = conversation_id m
    /\ o = mkOutcome (led_server_id r) (led_seq r) (led_durability r).

Lemma ledger_spec tenant m w :
  wp (replay_from_ledger env deps tenant m)
    (fun x w' => aside w w' /\ same_stores w w'
                 /\ forall o, x = Returned (Ok (Some o)) -> from_ledger tenant m o) w.
Proof.
  unfold replay_from_ledger, wp. destruct (idempotency_ledger deps) as [[ttl find]|] eqn:El; [|by repeat split].
  destruct (negb (lookback_reason _ _ _)); [by repeat split|].
  match goal with |- _ /\ _ /\ (forall o, (?body w).1 = _ -> _) =>
    change (wp body (fun x w' => aside w w' /\ same_stores w w'
                 /\ forall o, x = Returned (Ok (Some o)) -> from_ledger tenant m o) w) end.
  repeat wp_step; repeat split; try done.
  intros o. destruct (find _ _ _) as [[r|]|] eqn:Ef; try done. case_bool_decide; [|done].
  intros [= <-]. by exists ttl, find, r.
Qed.

Lemma lookback_spec ctx tenant m w :
  wp (lookback env deps ctx tenant m)
    (fun x w' => aside w w' /\ same_stores w w'
                 /\ forall o, x = Returned (Ok (Some o)) -> from_ledger tenant m o) w.
Proof. unfold lookback. destruct (Str.is_empty _); [apply ledger_spec|by apply wp_ret]. Qed.

(** What a send leaves under its key. *)
Definition slot_after (ctx : Ctx) (tenant key : string) (m : Message) (w : W)
    (x : exit SendMessageOutcome) (w' : W) : Prop :=
  (forall k, k <> key -> slots w' !! k = slots w !! k)
  /\ match x with
     | Returned (Ok o) =>
         slots w' !! key = Some (encode_record (record_of o (send_fingerprint ctx)))
         /\ (recoverable w' o \/ from_ledger tenant m o)
     | Returned (Err _) => slots w' !! key = None
     | Cancelled =>
         slots w' !! key = None
         \/ exists r, slots w' !! key = Some (encode_record r) /\ rec_fingerprint r = send_fingerprint ctx
                      /\ recoverable w' (outcome_of r)
     end.

Lemma slot_after_commit key r (s s' : gmap string string) :
  s' = commit s key r -> s' !! key = Some (encode_record r) /\ forall k, k <> key -> s' !! k = s !! k.
Proof.
  intros ->. unfold commit. split; [by rewrite lookup_insert_eq|].
  intros k Hk. by rewrite lookup_insert_ne.
Qed.

Lemma slot_after_rollback key (s s' : gmap string string) :
  s' = rollback_slot s key -> s' !! key = None /\ forall k, k <> key -> s' !! k = s !! k.
Proof.
  intros ->. unfold rollback_slot. split; [by rewrite lookup_delete_eq|].
  intros k Hk. by rewrite lookup_delete_ne.
Qed.

(** Leaving the guard's scope with the placeholder settled, or not. *)
Lemma leave_settled ctx tenant key m w w' r :
  guard w' = Settled -> slots w' = settled_slots key (send_fingerprint ctx) r w ->
  (forall o, r = Ok o -> recoverable w' o \/ from_ledger tenant m o) ->
  slot_after ctx tenant key m w (Returned r) (drop_guard env key w').
Proof.
  intros Hg Hs Hr. destruct (drop_spec key w') as [Hst Hsl]. rewrite Hg, Hs in Hsl.
  destruct r as [o|e]; simpl in Hsl.
  - apply slot_after_commit in Hsl as [Hk Hother]. split; [done|]. split; [done|].
    destruct (Hr o eq_refl); [left; by eapply same_stores_recoverable|by right].
  - by apply slot_after_rollback in Hsl as [Hk Hother].
Qed.

Lemma leave_open ctx tenant key m w w' (x : exit SendMessageOutcome) :
  slots w' = slots w -> (forall o, x <> Returned (Ok o)) ->
  (guard w' = Reserved \/ x = Cancelled /\ guard_ok (Some (send_fingerprint ctx)) w') ->
  slot_after ctx tenant key m w x (drop_guard env key w').
Proof.
  intros Hs Hx Hg. destruct (drop_spec key w') as [Hst Hsl]. rewrite Hs in Hsl.
  destruct Hg as [Hg|[-> Hg]].
  - rewrite Hg in Hsl. apply slot_after_rollback in Hsl as [Hk Hother]. split; [done|].
    destruct x as [[o|e]|]; [by destruct (Hx o)|done|by left].
  - simpl in Hg. destruct (guard w') as [|r|]; [| |done].
    + apply slot_after_rollback in Hsl as [Hk Hother]. split; [done|by left].
    + apply slot_after_commit in Hsl as [Hk Hother]. split; [done|]. right. exists r.
      destruct Hg as [Hf Hr]. repeat split; [done|done|]. by eapply same_stores_recoverable.
Qed.

Lemma rate_limit_spec tenant qps m w :
  wp (rate_limit deps tenant qps m) (fun x w' => aside w w' /\ x <> Cancelled) w.
Proof.
  unfold rate_limit, wp. destruct (send_rate_limiter deps); [|done].
  by destruct (check _ _ _ _ _ _ _).
Qed.

Lemma guarded_spec ctx cmd tenant key qps w :
  wp (guarded_send env deps ctx cmd tenant key qps)
    (slot_after ctx tenant key (send_message cmd) w) w.
Proof.
  unfold guarded_send. apply wp_with_guard. do 2 wp_step. set (w0 := set_guard w Reserved).
  eapply wp_mono; [apply lookback_spec|]. intros x w1 ([Hs1 Hg1] & _ & Hled).
  simpl in Hs1, Hg1.
  assert (Hsettle : forall r w2, slots w2 = slots w ->
    (forall o, r = Ok o -> recoverable w2 o \/ from_ledger tenant (send_message cmd) o) ->
    wp (_ ← settle env key (send_fingerprint ctx) r; lift r)
      (fun x w' => slot_after ctx tenant key (send_message cmd) w x (drop_guard env key w')) w2).
  { intros r w2 Hs2 Hr. wp_step. eapply wp_mono; [apply settle_spec|].
    intros x' w3 (-> & Hg3 & Hst & Hs3). cbn [andthen]. wp_step.
    apply leave_settled; [done|by destruct r; simpl in *; rewrite Hs3, Hs2|].
    intros o Ho. destruct (Hr o Ho); [left; by eapply same_stores_recoverable|by right]. }
  destruct x as [[[o|]|e]|]; cbn [andthen].
  - apply (Hsettle (Ok o)); [done|]. intros o' [= <-]. right. by apply Hled.
  - wp_step. eapply wp_mono; [apply rate_limit_spec|]. intros x w2 [[Hs2 Hg2] Hnc].
    destruct x as [[[]|e]|]; cbn [andthen]; [| |done].
    2: { apply leave_open; [congruence|done|left; congruence]. }
    do 2 wp_step. eapply wp_mono; [apply (ingest_spec _ _ _ (Some (send_fingerprint ctx))); intros _; congruence|].
    intros x w3 [Hs3 Hx]. destruct x as [r|]; cbn [andthen].
    + apply Hsettle; [congruence|]. intros o ->. by left.
    + apply leave_open; [congruence|done|by right].
  - apply (Hsettle (Err e)); [done|]. done.
  - apply leave_open; [done|done|by left].
Qed.
End Settling.
End Decorated.
End Properties.

(** ** The handler *)

Section Handler.
Context `{Redis R} `{DurabilityCodes}.
Context (env : Kind -> nat -> Weather) (deps : Deps).
Abbreviation W := (World R).

(** The handler up to the placeholder. *)
Lemma handle_enters ctx cmd (w : W) (Q : exit SendMessageOutcome -> W -> Prop) :
  (forall x, (forall o, x <> Returned (Ok o)) -> Q x w /\ Q x (next w)) ->
  (forall tenant lookup,
     send_tenant ctx = Ok tenant -> (lookup = tenant_lookup deps tenant \/ lookup = Unavailable) ->
     tenant_gate lookup (tenant_policy deps) = Ok () ->
     wp (match send_key deps ctx tenant (send_message cmd) with
         | None =>
             _ ← rate_limit deps tenant (core_send_qps lookup) (send_message cmd);
             ingest_send_inner env deps ctx cmd tenant None
         | Some key =>
             begun ← call env KBegin (fun w => let '(b, sl) := begin (slots w) key in (Ok b, set_slots w sl));
             match begun with
             | Replay r =>
                 if bool_decide (rec_fingerprint r <> send_fingerprint ctx) then
                   lift (Err (flare_err PermissionDenied "client message id already used by another send"))
                 else mret (outcome_of r)
             | InFlight => lift (Err (flare_err ServiceUnavailable "duplicate send in progress; retry shortly"))
             | FreshKey => guarded_send env deps ctx cmd tenant key (core_send_qps lookup)
             end
         end) Q (next w)) ->
  wp (handle_send_message_inner env deps ctx cmd) Q w.
Proof.
  intros Hstop Hgo. unfold handle_send_message_inner.
  assert (Hs0 : forall x, (forall o, x <> Returned (Ok o)) -> Q x w) by (intros; by apply Hstop).
  assert (Hs1 : forall x, (forall o, x <> Returned (Ok o)) -> Q x (next w)) by (intros; by apply Hstop).
  wp_step. wp_step. destruct (send_tenant ctx) as [tenant|] eqn:Et; cbn [andthen]; [|by apply Hs0].
  do 3 wp_step; cbn [andthen]; [|intros e; cbn [andthen]|by apply Hs1];
    wp_step; wp_step;
    (destruct (tenant_gate _ _) as [[]|] eqn:Eg; cbn [andthen]; [by apply Hgo; auto|by apply Hs1]).
Qed.

Lemma begin_slots (slots : gmap string string) key b s' :
  begin slots key = (b, s') ->
  (b = FreshKey /\ slots !! key = None /\ s' = <[key := PENDING_MARKER]> slots)
  \/ (b <> FreshKey /\ is_Some (slots !! key) /\ s' = slots).
Proof.
  unfold begin. destruct (slots !! key) as [v|]; intros [= <- <-]; [right|by left].
  split; [|done]. case_bool_decide; [done|]. by destruct (decode_record v).
Qed.

Lemma settled_key (ctx : Ctx) (cmd : SendMessageCommand) (tenant key : string) (w : W) :
  (forall m d, decorate deps m = Ok d -> server_id d = server_id m) ->
  (forall n, env KBegin n = Calm) -> (forall n, env KSettle n = Calm) ->
  send_tenant ctx = Ok tenant -> send_key deps ctx tenant (send_message cmd) = Some key ->
  slots w !! key = None ->
  wp (handle_send_message_inner env deps ctx cmd) (slot_after deps ctx tenant key (send_message cmd) w) w.
Proof.
  intros Hdec Hbegin Hsettle Ht Hk Hfree.
  assert (Hstop : forall x (w' : W), slots w' = slots w -> (forall o, x <> Returned (Ok o)) ->
                  slot_after deps ctx tenant key (send_message cmd) w x w').
  { intros x w' Hs Hx. split; [by rewrite Hs|]. rewrite Hs.
    destruct x as [[o|e]|]; [by destruct (Hx o)|done|by left]. }
  apply handle_enters; [intros x Hx; split; by apply Hstop|].
  intros tenant' lookup Ht' _ _. rewrite Ht in Ht'. injection Ht' as <-. rewrite Hk.
  wp_step. apply wp_call_calm; [done|]. cbn [slots next set_tick].
  destruct (begin (slots w) key) as [b s'] eqn:Eb. cbn [fst snd andthen].
  apply begin_slots in Eb as [(-> & _ & ->)|(_ & [v Hv] & _)]; [|congruence].
  eapply wp_mono; [by apply guarded_spec|]. intros x w' [Hother Hx]. split; [|done].
  intros k Hne. rewrite Hother by done. simpl. by rewrite lookup_insert_ne.
Qed.

(** C2. Every send settles its placeholder, however it ends: when the calls that take
    and settle placeholders go through, a send that found its key free leaves the
    record of its outcome there if it succeeded, nothing if it failed, and if it was
    cancelled at any await point either nothing or the record of a message that is
    in the log or with the broker. No other key changes. *)
Theorem every_send_settles_its_placeholder (ctx : Ctx) (cmd : SendMessageCommand) (tenant key : string) (w : W) :
  (forall m d, decorate deps m = Ok d -> server_id d = server_id m) ->
  (forall n, env KBegin n = Calm) -> (forall n, env KSettle n = Calm) ->
  send_tenant ctx = Ok tenant -> send_key deps ctx tenant (send_message cmd) = Some key ->
  slots w !! key = None ->
  wp (handle_send_message_inner env deps ctx cmd) (slot_after deps ctx tenant key (send_message cmd) w) w.
Proof. apply settled_key. Qed.

(** *** Whatever the weather *)

Lemma settle_any key fp r (w : W) :
  wp (settle env key fp r) (fun x w' => same_stores w w' /\ forall e, x <> Returned (Err e)) w.
Proof.
  unfold settle. wp_step. destruct r as [o|e]; repeat wp_step; apply wp_call; intros;
    repeat wp_step; repeat split; done.
Qed.

Lemma drop_any key (w : W) : same_stores w (drop_guard env key w).
Proof. unfold drop_guard, detached. destruct (guard w); cbn [tick set_guard]; try destruct (env KSettle (tick w)); by repeat split. Qed.

Lemma rate_limit_aside tenant qps m (w : W) :
  wp (rate_limit deps tenant qps m) (fun x w' => aside w w' /\ same_stores (set_limiter w (limiter w')) w') w.
Proof.
  unfold rate_limit, wp. destruct (send_rate_limiter deps); [|by destruct w].
  by destruct (check _ _ _ _ _ _ _).
Qed.

Lemma guarded_any ctx cmd tenant key qps (w : W) :
  (forall m d, decorate deps m = Ok d -> server_id d = server_id m) ->
  wp (guarded_send env deps ctx cmd tenant key qps)
    (fun x w' => forall o, x = Returned (Ok o) ->
       recoverable w' o \/ from_ledger deps tenant (send_message cmd) o) w.
Proof.
  intros Hdec. unfold guarded_send. apply wp_with_guard. do 2 wp_step. set (w0 := set_guard w Reserved).
  eapply wp_mono; [apply lookback_spec|]. intros x w1 ([_ Hg1] & _ & Hled). simpl in Hg1.
  assert (Hsettle : forall r (w2 : W), (forall o, r = Ok o -> recoverable w2 o \/ from_ledger deps tenant (send_message cmd) o) ->
    wp (_ ← settle env key (send_fingerprint ctx) r; lift r)
      (fun x (w' : W) => forall o, x = Returned (Ok o) ->
         recoverable (drop_guard env key w') o \/ from_ledger deps tenant (send_message cmd) o) w2).
  { intros r w2 Hr. wp_step. eapply wp_mono; [apply settle_any|]. intros x' w3 [Hst Hne].
    destruct x' as [[[]|e]|]; cbn [andthen]; [wp_step|by destruct (Hne e)|done].
    intros o [= ->]. destruct (Hr o eq_refl); [left|by right].
    eapply same_stores_recoverable; [apply drop_any|]. by eapply same_stores_recoverable. }
  destruct x as [[[o|]|e]|]; cbn [andthen]; [|..|done].
  - apply (Hsettle (Ok o)). intros o' [= <-]. right. by apply Hled.
  - wp_step. eapply wp_mono; [apply rate_limit_spec|]. intros x w2 [[_ Hg2] _].
    destruct x as [[[]|e]|]; cbn [andthen]; [|done..].
    do 2 wp_step. eapply wp_mono; [apply (ingest_spec _ _ Hdec _ _ _ (Some (send_fingerprint ctx))); intros _; congruence|].
    intros x w3 [_ Hx]. destruct x as [r|]; cbn [andthen]; [|done].
    apply Hsettle. intros o ->. by left.
  - by apply (Hsettle (Err e)).
Qed.

(** Where a successful outcome comes from. *)
Definition accounted_for (ctx : Ctx) (cmd : SendMessageCommand) (w w' : W) (o : SendMessageOutcome) : Prop :=
  recoverable w' o
  \/ (exists tenant, send_tenant ctx = Ok tenant /\ from_ledger deps tenant (send_message cmd) o)
  \/ (exists tenant key v r,
        send_tenant ctx = Ok tenant /\ send_key deps ctx tenant (send_message cmd) = Some key
        /\ slots w !! key = Some v /\ decode_record v = Some r
        /\ rec_fingerprint r = send_fingerprint ctx /\ o = outcome_of r).

(** C1. An acknowledged send is recoverable, whatever fails on the way: a successful
    outcome either repeats the record found under the send's key, or the one the
    ledger of stored sends holds for it, or names a message that is where its
    durability says: in the log ([WalAccepted]), in the main topic ([Persisted]) or
    in the push topic ([TransientAccepted]), under that id and number. *)
Theorem acknowledged_sends_are_recoverable (ctx : Ctx) (cmd : SendMessageCommand) (w w' : W)
    (o : SendMessageOutcome) :
  (forall m d, decorate deps m = Ok d -> server_id d = server_id m) ->
  handle_send_message_inner env deps ctx cmd w = (Returned (Ok o), w') ->
  accounted_for ctx cmd w w' o.
Proof.
  intros Hdec Hrun.
  assert (Hwp : wp (handle_send_message_inner env deps ctx cmd)
                  (fun x w' => forall o, x = Returned (Ok o) -> accounted_for ctx cmd w w' o) w).
  2: { unfold wp in Hwp. rewrite Hrun in Hwp. by apply Hwp. }
  clear o w' Hrun.
  apply handle_enters; [intros x Hx; split; intros o ->; by destruct (Hx o)|].
  intros tenant lookup Ht _ _. destruct (send_key _ _ _ _) as [key|] eqn:Hk.
  - wp_step. apply wp_call; try done; [|done..]. cbn [slots next set_tick].
    destruct (begin (slots w) key) as [b s'] eqn:Eb. cbn [fst snd andthen]. destruct b as [|r|].
    + eapply wp_mono; [by apply guarded_any|]. intros x w1 Hx o Ho.
      destruct (Hx o Ho); [by left|right; left; eauto].
    + case_bool_decide as Hf; wp_step; [done|]. intros o [= <-]. right; right.
      unfold begin in Eb. destruct (slots w !! key) as [v|] eqn:Hv; [|done].
      case_bool_decide; [done|]. destruct (decode_record v) as [r'|] eqn:Hd; [|done].
      injection Eb as -> <-. exists tenant, key, v, r. by repeat split.
    + by wp_step.
  - wp_step. eapply wp_mono; [apply rate_limit_spec|]. intros x w1 [[_ Hg] _].
    destruct x as [[[]|e]|]; cbn [andthen]; [|done..].
    eapply wp_mono; [by apply (ingest_spec _ _ Hdec _ _ _ None)|]. intros x w2 [_ Hx] o ->. by left.
Qed.

(** *** Resends *)

Section Resend.
Context (tenant_calm : forall n, env KTenant n = Calm) (begin_calm : forall n, env KBegin n = Calm).

(** A send whose key is taken, by the value found there. *)
Definition answer_of (ctx : Ctx) (value : string) : result SendMessageOutcome :=
  if bool_decide (value = PENDING_MARKER)
  then Err (flare_err ServiceUnavailable "duplicate send in progress; retry shortly")
  else match decode_record value with
       | None => Err (flare_err ServiceUnavailable "duplicate send in progress; retry shortly")
       | Some r =>
           if bool_decide (rec_fingerprint r <> send_fingerprint ctx)
           then Err (flare_err PermissionDenied "client message id already used by another send")
           else Ok (outcome_of r)
       end.

Lemma taken_key_run ctx cmd tenant key value (w : W) :
  send_tenant ctx = Ok tenant -> tenant_gate (tenant_lookup deps tenant) (tenant_policy deps) = Ok () ->
  send_key deps ctx tenant (send_message cmd) = Some key -> slots w !! key = Some value ->
  exists w', handle_send_message_inner env deps ctx cmd w = (Returned (answer_of ctx value), w')
             /\ same_stores w w' /\ slots w' = slots w.
Proof.
  intros Ht Hg Hk Hv. unfold handle_send_message_inner, mbind, act_bind, attempt, ask, call, lift.
  rewrite Ht, tenant_calm. cbn -[begin]. rewrite Hg. cbn -[begin]. rewrite Hk, begin_calm. cbn -[begin].
  unfold begin. rewrite Hv. unfold answer_of.
  case_bool_decide; [by eexists|]. destruct (decode_record value) as [r|]; [|by eexists].
  case_bool_decide; by eexists.
Qed.

(** A successful send passed the tenant gate. *)
Lemma sent_gate ctx cmd tenant (w w' : W) o :
  send_tenant ctx = Ok tenant ->
  handle_send_message_inner env deps ctx cmd w = (Returned (Ok o), w') ->
  tenant_gate (tenant_lookup deps tenant) (tenant_policy deps) = Ok ().
Proof.
  intros Ht. unfold handle_send_message_inner at 1, mbind, act_bind at 1, attempt, ask, call, lift.
  rewrite Ht. unfold act_bind at 1. rewrite tenant_calm. cbn -[begin tenant_gate].
  by destruct (tenant_gate _ _) as [[]|].
Qed.
End Resend.

(** C22. A resend gets the first answer and does nothing: after a send with a client
    message id succeeded, sending it again returns the same server id, number and
    durability; no number is drawn, nothing is logged, published or counted. This holds when
    the key of the send was free before, the calls that look up the tenant, begin and settle
    the key go through in both sends (a commit that fails weakens the check), the record of the
    first send has not expired and its parts hold no separator, and the decorating hook keeps the
    server id. What else fails does not matter. *)
Theorem resend_returns_the_first_outcome (ctx : Ctx) (cmd : SendMessageCommand) (tenant key : string)
    (w w1 : W) (o : SendMessageOutcome) :
  (forall m d, decorate deps m = Ok d -> server_id d = server_id m) ->
  (forall n, env KTenant n = Calm) -> (forall n, env KBegin n = Calm) -> (forall n, env KSettle n = Calm) ->
  send_tenant ctx = Ok tenant -> send_key deps ctx tenant (send_message cmd) = Some key ->
  slots w !! key = None -> record_ok (record_of o (send_fingerprint ctx)) ->
  handle_send_message_inner env deps ctx cmd w = (Returned (Ok o), w1) ->
  exists w2, handle_send_message_inner env deps ctx cmd w1 = (Returned (Ok o), w2)
             /\ same_stores w1 w2 /\ slots w2 = slots w1.
Proof.
  intros Hdec Htc Hbc Hsc Ht Hk Hfree Hrec Hrun.
  pose proof (settled_key _ _ _ _ _ Hdec Hbc Hsc Ht Hk Hfree) as Hslot. unfold wp in Hslot.
  rewrite Hrun in Hslot. destruct Hslot as (_ & Hv & _).
  destruct (taken_key_run Htc Hbc ctx cmd tenant key _ w1 Ht (sent_gate Htc _ _ _ _ _ _ Ht Hrun) Hk Hv)
    as (w2 & Hrun2 & Hsame).
  exists w2. split; [|done]. rewrite Hrun2. unfold answer_of.
  destruct (record_decodes _ Hrec) as [Hdecode Hne].
  rewrite bool_decide_eq_false_2, Hdecode by done. rewrite bool_decide_eq_false_2 by (intros Hc; by apply Hc).
  by destruct o.
Qed.

(** *** Gates *)

Definition quiet (w w' : W) : Prop :=
  ingest w' = ingest w /\ wal w' = wal w /\ outbox w' = outbox w /\ usage w' = usage w.

(** [m'] is [m] with a number, and the channel the routing gave it. *)
Definition version_of (m m' : Message) : Prop :=
  exists seq channel, m' = with_channel (with_message_seq m seq) channel.

(** The message [m'] the hooks let through and the submission made of it. *)
Definition passed (ctx : Ctx) (cmd : SendMessageCommand) (tenant : string) (m' : Message)
    (s : MessageSubmission) : Prop :=
  (exists m hooked,
     apply_burn cmd = Ok m /\ validate_message deps ctx m = Ok ()
     /\ execute_pre_send deps ctx m (execute_user_pre_send deps ctx) = Ok hooked
     /\ after_pre_send hooked (match card_post_fingerprint ctx with Some _ => Some m | None => None end)
          (conversation_id m) = Ok m')
  /\ ensure_tenant_attributes_match m' tenant = Ok ()
  /\ (exists n s0 d,
        prepare (new_uuid deps n) (clock deps n) (message_defaults deps) m' = Ok s0
        /\ (is_sync_inbox_conversation_id (conversation_id (sub_message s0)) = true
            \/ ensure_conversation deps ctx tenant (sub_message s0) = Ok ())
        /\ decorate deps (sub_message s0) = Ok d /\ s = with_sub_message s0 d).

(** What a numbered submission may leave in the log and with the broker. *)
Definition left_by (tenant : string) (s : MessageSubmission) (w w' : W) : Prop :=
  (exists ps, outbox w' = outbox w ++ ps /\ Forall (fun p => version_of (sub_message s) (pub_message p)) ps)
  /\ forall id e, wal w' !! id = Some e ->
       wal w !! id = Some e \/ (version_of (sub_message s) (wal_message e) /\ wal_tenant e = tenant).

Definition gated (ctx : Ctx) (cmd : SendMessageCommand) (tenant : string) (w w' : W) : Prop :=
  quiet w w' \/ exists m' s, passed ctx cmd tenant m' s /\ left_by tenant s w w'.

Lemma gated_stores ctx cmd tenant w w1 w2 :
  gated ctx cmd tenant w w1 -> same_stores w1 w2 -> gated ctx cmd tenant w w2.
Proof.
  intros Hg (Hi & _ & Hw & Ho & Hu). unfold gated, quiet, left_by in *. by rewrite Hi, Hw, Ho, Hu.
Qed.

Lemma gated_after ctx cmd tenant w w1 w2 :
  quiet w w1 -> gated ctx cmd tenant w1 w2 -> gated ctx cmd tenant w w2.
Proof.
  intros (Hi & Hw & Ho & Hu) Hg. unfold gated, quiet, left_by in *. by rewrite Hi, Hw, Ho, Hu in Hg.
Qed.

Lemma version_normalize m m' rs : version_of m m' -> version_of m (normalize_single_chat_routing m' rs).
Proof.
  intros (seq & channel & ->). unfold normalize_single_chat_routing.
  case_decide; [by exists seq, channel|]. destruct (List.find _ _) as [peer|]; [|by exists seq, channel].
  case_decide; [by exists seq, peer|by exists seq, channel].
Qed.

Lemma version_numbered m seq : version_of m (with_message_seq m seq).
Proof. by exists seq, (channel_id m). Qed.

(** [left_by] through the stages that follow the number. *)
Definition extends (m : Message) (w w' : W) : Prop :=
  exists ps, outbox w' = outbox w ++ ps /\ Forall (fun p => version_of m (pub_message p)) ps.

Lemma extends_same m w w' : outbox w' = outbox w -> extends m w w'.
Proof. intros Ho. exists []. by rewrite Ho, app_nil_r. Qed.

Lemma extends_one m w p : version_of m (pub_message p) -> extends m w (set_outbox w (outbox w ++ [p])).
Proof. intros Hp. exists [p]. split; [done|]. by apply Forall_singleton. Qed.

Lemma push_left m s p mode (w : W) :
  version_of m (sub_message s) ->
  wp (push_message env deps s p mode) (fun x w' => wal w' = wal w /\ extends m w w') w.
Proof.
  intros Hv. unfold push_message, push_only, push_only_with_recipients.
  destruct (should_push_only mode (is_temporary p)); (repeat wp_step; [|by split; [|apply extends_same]..]);
    unfold publish.
  - apply wp_call; intros; (split; [done|]); try (by apply extends_same);
      (apply (extends_one m (next (next w))); by apply version_normalize, version_normalize).
  - destruct a as [rs large]. apply wp_call; intros; (split; [done|]); try (by apply extends_same);
      (apply (extends_one m (next (next w))); cbn [pub_message]; destruct large; [done|by apply version_normalize]).
Qed.

(** The log only loses entries. *)
Lemma cleanup_left s (w : W) :
  wp (cleanup_wal_after_broker_accept env deps s)
    (fun _ w' => outbox w' = outbox w /\ wal w' ⊆ wal w) w.
Proof.
  assert (Hsub : delete (sub_message_id s) (wal w) ⊆ wal w) by apply delete_subseteq.
  unfold cleanup_wal_after_broker_accept, wp. destruct (wal_cleanup_permit deps (tick w)).
  - unfold detached. destruct (env KWalRemove (tick w)); done.
  - match goal with |- outbox (?m w).2 = _ /\ _ => change (wp m (fun _ w' => outbox w' = outbox w /\ wal w' ⊆ wal w) w) end.
    repeat wp_step. apply wp_call; intros; repeat wp_step; done.
Qed.

Lemma finish_left m ctx tenant resv s p mode (w : W) :
  version_of m (sub_message s) ->
  wp (publish_and_finish env deps ctx tenant resv s p mode)
    (fun _ w' => extends m w w' /\ wal w' ⊆ wal w) w.
Proof.
  intros Hv. unfold publish_and_finish. repeat wp_step. eapply wp_mono; [by apply (push_left m)|].
  intros [[[]|e]|] w1 [Hw He]; wp_step; [| |by rewrite Hw].
  2: { destruct (recoverable_publish_failure_outcome s _); wp_step; by rewrite Hw. }
  apply wp_bind. unfold mark, mark_accepted.
  assert (Hrest : forall w2 : W, outbox w2 = outbox w1 -> wal w2 = wal w1 ->
    wp (_ ← modify (fun w0 => set_usage w0 (usage w0 ++ [(tenant, usage_category p)]));
        _ ← (if bool_decide (send_ack_durability p mode <> TransientAccepted)
             then cleanup_wal_after_broker_accept env deps s else mret ());
        _ ← attempt (ask env KPostSend (execute_post_send deps ctx s));
        mret (mkOutcome (sub_message_id s) (conversation_seq (sub_message s)) (send_ack_durability p mode)))
      (fun _ w' => extends m w w' /\ wal w' ⊆ wal w) w2).
  { intros w2 Ho2 Hw2. repeat wp_step.
    assert (Hc : wp (if bool_decide (send_ack_durability p mode <> TransientAccepted)
             then cleanup_wal_after_broker_accept env deps s else mret ())
             (fun _ w' => outbox w' = outbox w1 /\ wal w' ⊆ wal w1)
             (set_usage w2 (usage w2 ++ [(tenant, usage_category p)]))).
    { case_bool_decide; [|by wp_step; simpl; rewrite Ho2, Hw2].
      eapply wp_mono; [apply cleanup_left|]. simpl. by rewrite Ho2, Hw2. }
    eapply wp_mono; [exact Hc|]. intros x w3 [Ho3 Hw3].
    assert (Hfin : extends m w w3 /\ wal w3 ⊆ wal w) by (unfold extends in *; rewrite Ho3, <- Hw; done).
    destruct x as [[[]|e]|]; cbn [andthen]; [|done..]. by repeat wp_step. }
  destruct resv; wp_step; by apply Hrest.
Qed.

Lemma number_left ctx tenant resv s (w : W) :
  wp (number_and_log env deps ctx tenant resv s) (fun _ w' => left_by tenant s w w') w.
Proof.
  unfold number_and_log. wp_step. eapply wp_mono; [apply allocate_spec|].
  intros x w1 (_ & Hw1 & Ho1 & _ & Hx).
  assert (Hsame : left_by tenant s w w1)
    by (split; [by apply extends_same|by rewrite Hw1; left]).
  destruct x as [[[s' p]|e]|]; cbn [andthen]; [|done..].
  destruct (Hx s' p eq_refl) as (seq & ->). clear Hx Hsame.
  set (s1 := with_sub_message _ _). set (mode := persistence_mode_of p (sub_message s1)).
  assert (Hv : version_of (sub_message s) (sub_message s1)) by apply version_numbered.
  wp_step. eapply wp_mono; [apply write_wal_spec|]. intros x w2 (_ & Ho2 & _ & _ & Hin & _).
  assert (Hin' : forall id e, wal w2 !! id = Some e ->
    wal w !! id = Some e \/ (version_of (sub_message s) (wal_message e) /\ wal_tenant e = tenant)).
  { intros id e He. apply Hin in He as [He|[-> ?]]; [left; congruence|by right]. }
  assert (Ho : outbox w2 = outbox w) by congruence. clear Hin Ho1 Ho2 Hw1.
  assert (Hsame : left_by tenant s w w2) by (split; [by apply extends_same|done]).
  destruct x as [[[]|e]|]; cbn [andthen]; [|done..].
  assert (Hrest : forall w3 : W, outbox w3 = outbox w2 -> wal w3 = wal w2 ->
    wp (publish_and_finish env deps ctx tenant resv s1 p mode) (fun _ w' => left_by tenant s w w') w3).
  { intros w3 Ho3 Hw3. eapply wp_mono; [by apply (finish_left (sub_message s))|].
    intros x w4 [He Hsub]. split; [unfold extends in He; by rewrite Ho3, Ho in He|].
    intros id e Hl. apply Hin'. rewrite <- Hw3. by eapply lookup_weaken. }
  wp_step. destruct (recoverable_publish_failure_outcome s1 _); [|by wp_step; apply Hrest].
  unfold mark, mark_accepted. destruct resv; wp_step; by apply Hrest.
Qed.

Lemma ingest_gated ctx cmd tenant resv (w : W) :
  wp (ingest_send_inner env deps ctx cmd tenant resv) (fun _ w' => gated ctx cmd tenant w w') w.
Proof.
  unfold ingest_send_inner. repeat (wp_step; try (by left)).
  unfold prepare_submission, wp at 1. simpl.
  destruct (prepare _ _ _ _) as [s|e] eqn:Hp; cbn [andthen]; [|by left].
  destruct a0, a3. wp_step.
  assert (Hrest : forall w2, quiet w w2 ->
    (is_sync_inbox_conversation_id (conversation_id (sub_message s)) = true
     \/ ensure_conversation deps ctx tenant (sub_message s) = Ok ()) ->
    wp (d ← decorate_message env deps (sub_message s);
        number_and_log env deps ctx tenant resv (with_sub_message s d))
      (fun _ w' => gated ctx cmd tenant w w') w2).
  { intros w2 Hq He. unfold decorate_message. repeat (wp_step; try (by left)).
    destruct (decorate deps (sub_message s)) as [d|] eqn:Hd; repeat wp_step; [|by left].
    eapply wp_mono; [apply number_left|]. intros x w3 Hl. apply (gated_after _ _ _ _ (next w2)); [done|].
    right. exists a2, (with_sub_message s d). split; [|done]. split; [by eexists _, _|]. split; [done|].
    by eexists _, s, d. }
  destruct (is_sync_inbox_conversation_id _); [wp_step; cbn [andthen]; apply Hrest; [done|by left]|].
  wp_step; [|intros e; by left|by left]. wp_step; [|by left]. destruct a0. apply Hrest; [done|by right].
Qed.

Lemma guarded_gated ctx cmd tenant key qps (w : W) :
  wp (guarded_send env deps ctx cmd tenant key qps) (fun _ w' => gated ctx cmd tenant w w') w.
Proof.
  unfold guarded_send. apply wp_with_guard.
  eapply wp_mono; [|intros x w' Hg; eapply gated_stores; [exact Hg|apply drop_any]].
  do 2 wp_step.
  eapply wp_mono; [apply lookback_spec|]. intros x w1 (_ & (Hi1 & _ & Hw1 & Ho1 & Hu1) & _).
  assert (Hq : quiet w w1) by by repeat split.
  assert (Hsettle : forall r w2, gated ctx cmd tenant w w2 ->
    wp (_ ← settle env key (send_fingerprint ctx) r; lift r) (fun _ w' => gated ctx cmd tenant w w') w2).
  { intros r w2 Hg. wp_step. eapply wp_mono; [apply settle_any|]. intros x' w3 [Hst _].
    destruct x' as [[[]|e]|]; cbn [andthen]; try wp_step; by eapply gated_stores. }
  destruct x as [[[o|]|e]|]; cbn [andthen]; [apply (Hsettle (Ok o)); by left| |apply (Hsettle (Err e)); by left|by left].
  wp_step. eapply wp_mono; [apply rate_limit_aside|]. intros x w2 [_ (Hi & _ & Hw & Ho & Hu)].
  assert (Hq2 : quiet w w2) by (destruct Hq as (? & ? & ? & ?); repeat split; etrans; done).
  destruct x as [[[]|e]|]; cbn [andthen]; [|by left..].
  do 2 wp_step. eapply wp_mono; [apply ingest_gated|]. intros x w3 Hg.
  apply (gated_after _ _ _ _ _ _ Hq2) in Hg. destruct x as [r|]; cbn [andthen]; [by apply Hsettle|done].
Qed.

(** What the gates say about the message that got through. *)
Lemma passed_message ctx cmd tenant m' s :
  passed ctx cmd tenant m' s ->
  conversation_id m' = conversation_id (send_message cmd)
  /\ (forall k, k ∈ SEND_TENANT_ATTRIBUTES -> attributes m' !! k = None \/ attributes m' !! k = Some tenant)
  /\ (card_post_fingerprint ctx = None -> message_claims_plugin_card m' = false)
  /\ (is_Some (card_post_fingerprint ctx) -> apply_burn cmd = Ok m').
Proof.
  intros ((m & hooked & Hb & _ & _ & Ha) & Ht & _).
  assert (Hconv : conversation_id m = conversation_id (send_message cmd)).
  { unfold apply_burn in Hb. destruct (negb _); [by injection Hb as <-|].
    destruct (match burn_after_read_seconds cmd with Some _ => _ | None => _ end); [|done].
    case_decide; [by injection Hb as <-|done]. }
  assert (Htenant : forall k, k ∈ SEND_TENANT_ATTRIBUTES -> attributes m' !! k = None \/ attributes m' !! k = Some tenant).
  { unfold ensure_tenant_attributes_match in Ht. destruct (List.find _ _) eqn:Ef; [done|].
    intros k Hk%list_elem_of_In. pose proof (List.find_none _ _ Ef k Hk) as Hn. unfold declares_another in Hn.
    destruct (attributes m' !! k) as [v|]; [|by left]. right. apply bool_decide_eq_false in Hn.
    destruct (decide (v = tenant)); [by f_equal|done]. }
  unfold after_pre_send in Ha. destruct (card_post_fingerprint ctx).
  - injection Ha as <-. split; [done|]. split; [done|]. by split.
  - destruct (decide (conversation_id hooked = conversation_id m)) as [Hc|Hc];
      [|by rewrite bool_decide_eq_true_2 in Ha].
    rewrite bool_decide_eq_false_2 in Ha by (intros Hn; by apply Hn).
    destruct (message_claims_plugin_card hooked) eqn:Hp; [done|]. injection Ha as <-.
    split; [congruence|]. split; [done|]. split; [done|]. by intros [].
Qed.

(** C21. No message gets out past the gates, whatever fails or is cancelled: either the
    send drew no number and logged, published and counted nothing, or its tenant was
    admitted and its message is valid, was let through by the pre-send hook in its own
    conversation, declares no other tenant and, unless it is a card post with its
    signed content, is no plugin card; and what was logged and published is that
    message with a number and its routing. *)
Theorem sent_messages_passed_every_gate (ctx : Ctx) (cmd : SendMessageCommand) (w w' : W)
    (x : exit SendMessageOutcome) :
  handle_send_message_inner env deps ctx cmd w = (x, w') ->
  quiet w w'
  \/ exists tenant lookup m' s,
       send_tenant ctx = Ok tenant
       /\ (lookup = tenant_lookup deps tenant \/ lookup = Unavailable)
       /\ tenant_gate lookup (tenant_policy deps) = Ok ()
       /\ passed ctx cmd tenant m' s /\ left_by tenant s w w'
       /\ conversation_id m' = conversation_id (send_message cmd)
       /\ (forall k, k ∈ SEND_TENANT_ATTRIBUTES -> attributes m' !! k = None \/ attributes m' !! k = Some tenant)
       /\ (card_post_fingerprint ctx = None -> message_claims_plugin_card m' = false)
       /\ (is_Some (card_post_fingerprint ctx) -> apply_burn cmd = Ok m').
Proof.
  intros Hrun. set (G := fun tenant lookup => send_tenant ctx = Ok tenant
    /\ (lookup = tenant_lookup deps tenant \/ lookup = Unavailable)
    /\ tenant_gate lookup (tenant_policy deps) = Ok ()).
  assert (Hwp : wp (handle_send_message_inner env deps ctx cmd)
    (fun _ w' => quiet w w' \/ exists tenant lookup, G tenant lookup /\ gated ctx cmd tenant w w') w).
  { apply handle_enters; [intros; split; by left|]. intros tenant lookup Ht Hl Hgate.
    assert (HG : G tenant lookup) by done.
    destruct (send_key _ _ _ _) as [key|].
    - wp_step. apply wp_call; cbn [slots next set_tick];
        destruct (begin (slots w) key) as [b s']; cbn [fst snd andthen]; intros; try (by left).
      destruct b; [|case_bool_decide; wp_step; by left|wp_step; by left].
      eapply wp_mono; [apply guarded_gated|]. intros y w1 Hg. right. by exists tenant, lookup.
    - wp_step. eapply wp_mono; [apply rate_limit_aside|]. intros y w1 [_ (Hi & _ & Hw & Ho & Hu)].
      destruct y as [[[]|e]|]; cbn [andthen]; [|by left..].
      eapply wp_mono; [apply ingest_gated|]. intros y w2 Hg. right. exists tenant, lookup. split; [done|].
      by eapply gated_after. }
  unfold wp in Hwp. rewrite Hrun in Hwp. simpl in Hwp.
  destruct Hwp as [Hq|(tenant & lookup & (Ht & Hl & Hgate) & [Hq|(m' & s & Hp & Hleft)])]; [by left|by left|].
  right. exists tenant, lookup, m', s. pose proof (passed_message _ _ _ _ _ Hp) as (? & ? & ? & ?).
  do 8 (split; [done|]). done.
Qed.
End Handler.

(** ** Witnesses *)

Module SendExample.
Export SubmissionExample.

Definition deps : Deps :=
  mkDeps (fun _ => Known (mkSnapshot TenantActive (mkQuota 0 0 0))) Strict true None None (fun _ _ => Ok valid)
    (fun _ m _ => Ok m) (fun _ _ => Ok ()) (fun _ _ _ => Ok ()) (fun m => Ok m) None
    (fun _ => Ok ["bob"]) (fun _ _ => Ok None) true (mkDefaults ConvGroup "user") "api"
    (fun _ => true) (fun _ => []) (fun n => "u" +:+ Str.of_Z (Z.of_nat n)) (fun _ => 1000).

Definition calm (k : Kind) (n : nat) : Weather := Calm.
Definition broker_down (k : Kind) (n : nat) : Weather :=
  match k with KPublish => FailBefore (flare_err ServiceUnavailable "nats") | _ => Calm end.
(** The caller goes away while the broker answers. *)
Definition caller_leaves (k : Kind) (n : nat) : Weather :=
  match k with KPublish => CancelAfter | _ => Calm end.

Definition alice : Ctx := mkCtx None (Some "alice") None (Some "t1") (Some "phone").
Definition hello : SendMessageCommand := mkSend note "2-group" false None.
Definition start : World SimRedis := mkWorld 0 (mkIngest sim_empty ∅ 0) ∅ ∅ ∅ [] [] Settled.
Definition hello_key : string := "idem:t1:alice:device:phone:2-group:c1".
Definition sent : World SimRedis := (handle_send_message_inner calm deps alice hello start).2.
Definition first_answer : SendMessageOutcome := mkOutcome "u3" 1 DurPersisted.
End SendExample.
Import SendExample.

(** A send cancelled after its message was logged keeps its answer for the resend. *)
Lemma every_send_settles_its_placeholder_witness :
  (handle_send_message_inner caller_leaves deps alice hello start).1 = Cancelled
  /\ slots (handle_send_message_inner caller_leaves deps alice hello start).2 !! hello_key = Some "u3|1|2"
  /\ wp (handle_send_message_inner caller_leaves deps alice hello)
       (slot_after deps alice "t1" hello_key note start) start.
Proof.
  split; [vm_compute; reflexivity|]. split; [vm_compute; reflexivity|].
  apply (every_send_settles_its_placeholder caller_leaves deps alice hello "t1" hello_key start);
    try reflexivity. intros m d Hd. injection Hd as <-. reflexivity.
Defined.

(** With the broker down the outcome names the entry of the log. *)
Lemma acknowledged_sends_are_recoverable_witness :
  accounted_for deps alice hello start
    (handle_send_message_inner broker_down deps alice hello start).2 (mkOutcome "u3" 1 WalAccepted).
Proof.
  apply (acknowledged_sends_are_recoverable broker_down deps alice hello start).
  - intros m d Hd. injection Hd as <-. reflexivity.
  - vm_compute. reflexivity.
Defined.

Lemma resend_returns_the_first_outcome_witness :
  exists w2, handle_send_message_inner calm deps alice hello sent = (Returned (Ok first_answer), w2)
             /\ same_stores sent w2 /\ slots w2 = slots sent.
Proof.
  apply (resend_returns_the_first_outcome calm deps alice hello "t1" hello_key start);
    [|reflexivity|reflexivity|reflexivity|reflexivity|vm_compute; reflexivity|reflexivity| |].
  - intros m d Hd. injection Hd as <-. reflexivity.
  - repeat split; try discriminate; reflexivity.
  - vm_compute. reflexivity.
Defined.

Lemma sent_messages_passed_every_gate_witness :
  exists tenant lookup m' s,
    send_tenant alice = Ok tenant
    /\ (lookup = tenant_lookup deps tenant \/ lookup = Unavailable)
    /\ tenant_gate lookup (tenant_policy deps) = Ok ()
    /\ passed deps alice hello tenant m' s /\ left_by tenant s start sent
    /\ conversation_id m' = "2-group"
    /\ (forall k, k ∈ SEND_TENANT_ATTRIBUTES -> attributes m' !! k = None \/ attributes m' !! k = Some tenant)
    /\ (card_post_fingerprint alice = None -> message_claims_plugin_card m' = false)
    /\ (is_Some (card_post_fingerprint alice) -> apply_burn hello = Ok m').
Proof.
  destruct (sent_messages_passed_every_gate calm deps alice hello start sent
              (Returned (Ok first_answer))) as [Hq|Hp].
  - vm_compute. reflexivity.
  - exfalso. destruct Hq as (_ & _ & Ho & _). vm_compute in Ho. discriminate.
  - exact Hp.
Defined.
