(* ===== verification/WalReplay.v ===== *)
(** * Replay of the write-ahead log

    flare-message-ingest/src/application/handlers/wal_replay_handler.rs over the log
    of infrastructure/persistence/redis_wal.rs: what was acknowledged from the log
    alone is claimed, published as the send would have published it, and removed
    once the broker has it. *)

From S2P Require Import Prelude Redis IngestSeq Proto Tenant Submission Send.
From stdpp Require Import base gmap strings list sorting.
From Stdlib Require Import ZArith Lia.

Open Scope Z_scope.

(** ** Claims *)

Definition with_score (e : WalEntry) (score : Z) : WalEntry :=
  mkWal (wal_proof e) (wal_tenant e) (wal_message e) score.

(** The order of the pending index: by score, then by id. *)
Definition index_le (x y : string * WalEntry) : Prop :=
  wal_score x.2 < wal_score y.2 \/ (wal_score x.2 = wal_score y.2 /\ String.leb x.1 y.1 = true).
#[export] Instance index_le_dec : RelDecision index_le.
Proof. intros x y. unfold index_le. apply _. Defined.

Definition due (now : Z) (x : string * WalEntry) : Prop := wal_score x.2 <= now.
#[export] Instance due_dec now x : Decision (due now x).
Proof. unfold due. apply _. Defined.

(** ZRANGEBYSCORE -inf now LIMIT 0 limit *)
Definition candidates (now : Z) (limit : nat) (log : gmap string WalEntry) : list (string * WalEntry) :=
  take limit (merge_sort index_le (filter (due now) (map_to_list log))).

Definition lease_all (until : Z) (log : gmap string WalEntry) (xs : list (string * WalEntry))
    : gmap string WalEntry :=
  foldl (fun l x => <[x.1 := with_score x.2 until]> l) log xs.

(** [CLAIM_PENDING_SCRIPT] as [claim_pending_ids] runs it: the due entries, leased
    for at least a second. *)
Definition claim_pending (now lease_ms : Z) (limit : nat) (log : gmap string WalEntry)
    : list (string * WalEntry) * gmap string WalEntry :=
  let claimed := candidates now limit log in
  (claimed, lease_all (now + Z.max lease_ms 1000) log claimed).

(** ** The handler *)

Record WalReplayReport := mkReport {
  scanned : nat;
  replayed : nat;
  failed : nat;
  skipped : nat;
  quarantined : nat;
}.

Inductive Verdict := VReplayed | VFailed | VSkipped | VQuarantined.

Definition tally (r : WalReplayReport) (v : Verdict) : WalReplayReport :=
  match v with
  | VReplayed => mkReport (scanned r) (S (replayed r)) (failed r) (skipped r) (quarantined r)
  | VFailed => mkReport (scanned r) (replayed r) (S (failed r)) (skipped r) (quarantined r)
  | VSkipped => mkReport (scanned r) (replayed r) (failed r) (S (skipped r)) (quarantined r)
  | VQuarantined => mkReport (scanned r) (replayed r) (failed r) (skipped r) (S (quarantined r))
  end.

(** [replay_persistence_mode] *)
Definition replay_persistence_mode (p : MessageProfile) (m : Message) : PersistenceMode :=
  if is_temporary p then ForcePushOnly
  else if is_notification p then
    match notification_persistent m with
    | Some false => ForcePushOnly
    | _ => Auto
    end
  else Auto.

Definition with_server_id (m : Message) (id : string) : Message :=
  mkMessage id (conversation_id m) (client_msg_id m) (sender_id m) (source m)
    (conversation_seq m) (created_at m) (conversation_type m) (message_type m) (message_seq m)
    (channel_id m) (sender_name m) (sender_avatar m) (thread_id m) (content m) (status m)
    (retention_policy m) (retention_state m) (offline_push_info m) (attributes m) (extensions m).

(** The message of an entry and its profile, as [replay_once] makes them. *)
Definition replay_message (id : string) (e : WalEntry) : MessageProfile * Message :=
  let m := wal_message e in
  ensure_profile (if Str.is_blank (server_id m) then with_server_id m id else m).

(** An entry that was never to be kept: it is dropped from the log. *)
Definition push_only_entry (id : string) (e : WalEntry) : bool :=
  let '(p, m) := replay_message id e in
  should_push_only (replay_persistence_mode p m) (is_temporary p).

Section Replay.
Context `{Redis R} `{DurabilityCodes}.
Context (env : Kind -> nat -> Weather) (deps : Deps).
(** [default_tenant_id], the lease time, and the verifier of write proofs if one is
    configured. *)
Context (default_tenant : option string) (lease_ms : Z)
  (write_verifier : option (string -> string -> Message -> bool)).
Abbreviation W := (World R).

Definition replay_tenant (e : WalEntry) : option string :=
  match normalize_optional_tenant_id (Some (wal_tenant e)) with
  | Some t => Some t
  | None => normalize_optional_tenant_id default_tenant
  end.

(** The proof of a machine message is recovered, or none is needed. *)
Definition proof_ok (tenant : string) (e : WalEntry) (m : Message) : bool :=
  if requires_proof m || bool_decide (is_Some (wal_proof e)) then
    match write_verifier, wal_proof e with
    | Some verify, Some proof => verify proof tenant m
    | _, _ => false
    end
  else true.

(** [WalRepository::remove] *)
Definition remove_entry (id : string) : act unit :=
  call env KWalRemove (fun w : W => (Ok (), wal_remove id w)).

(** The body of the loop of [replay_once]. *)
Definition replay_entry (id : string) (e : WalEntry) : act Verdict :=
  let '(p, m) := replay_message id e in
  let mode := replay_persistence_mode p m in
  if should_push_only mode (is_temporary p) then
    _ ← remove_entry id; mret VSkipped
  else
    match replay_tenant e with
    | None => mret VQuarantined
    | Some tenant =>
        if negb (proof_ok tenant e m) then mret VFailed
        else
          r ← attempt (push_message env deps (mkSubmission m id None 0) p mode);
          match r with
          | Ok _ => _ ← remove_entry id; mret VReplayed
          | Err _ => mret VFailed
          end
    end.

Fixpoint replay_all (xs : list (string * WalEntry)) (r : WalReplayReport) : act WalReplayReport :=
  match xs with
  | [] => mret r
  | (id, e) :: xs => v ← replay_entry id e; replay_all xs (tally r v)
  end.

(** [list_pending]. [append] writes every entry with [persisted] false and no code sets it,
    so the branch that drops a persisted entry is never taken and has no counterpart here;
    entries are values of [WalEntry], so none fails to decode. *)
Definition list_pending (limit : nat) : act (list (string * WalEntry)) :=
  if decide (limit = O) then mret []
  else if negb (wal_configured deps) then mret []
  else call env KClaim (fun w : W =>
         let '(xs, log) := claim_pending (clock deps (tick w)) lease_ms limit (wal w) in
         (Ok xs, set_wal w log)).

(** [replay_once] *)
Definition replay_once (limit : nat) : act WalReplayReport :=
  xs ← list_pending limit;
  replay_all xs (mkReport (length xs) 0 0 0 0).
End Replay.

(** ** Claims are exclusive and lose nothing *)

Lemma candidates_in now limit log x :
  x ∈ candidates now limit log -> log !! x.1 = Some x.2 /\ wal_score x.2 <= now.
Proof.
  unfold candidates. intros Hx.
  assert (Hin : x ∈ merge_sort index_le (filter (due now) (map_to_list log))).
  { rewrite <- (take_drop limit (merge_sort _ _)). apply elem_of_app. by left. }
  rewrite merge_sort_Permutation in Hin. apply list_elem_of_filter in Hin as [Hd Hin].
  destruct x as [id e]. by apply elem_of_map_to_list in Hin.
Qed.

Lemma candidates_nodup now limit log : NoDup (candidates now limit log).*1.
Proof.
  apply NoDup_fmap_fst.
  - intros id e1 e2 [H1 _]%candidates_in [H2 _]%candidates_in. simpl in *. congruence.
  - unfold candidates. eapply sublist_NoDup; [|apply sublist_take].
    rewrite merge_sort_Permutation. apply NoDup_filter, NoDup_map_to_list.
Qed.

Lemma lease_all_lookup until log xs id :
  NoDup xs.*1 -> (forall x, x ∈ xs -> log !! x.1 = Some x.2) ->
  lease_all until log xs !! id
  = (if decide (id ∈ xs.*1) then (fun e => with_score e until) <$> log !! id else log !! id).
Proof.
  unfold lease_all. revert log. induction xs as [|[k e] xs IH]; intros log Hnd Hin.
  { by rewrite decide_False by (by intros ?%elem_of_nil). }
  cbn [foldl fst snd]. apply NoDup_cons in Hnd as [Hk Hnd].
  rewrite IH; [|done|].
  - destruct (decide (id = k)) as [->|Hne].
    + rewrite decide_False by done. rewrite lookup_insert_eq, decide_True by left.
      by rewrite (Hin (k, e) ltac:(left) : log !! k = Some e).
    + rewrite lookup_insert_ne by done. destruct (decide (id ∈ xs.*1)).
      * by rewrite decide_True by (by right).
      * rewrite decide_False; [done|]. by intros [|]%elem_of_cons.
  - intros [k' e'] Hx. apply (list_elem_of_fmap_2 fst) in Hx as Hk'. simpl in *.
    rewrite lookup_insert_ne by (intros ->; done). by apply (Hin (k', e')); right.
Qed.

(** What a claim does to the log: the scores of the claimed entries. *)
Lemma claim_lookup now lease limit log xs log' id :
  claim_pending now lease limit log = (xs, log') ->
  log' !! id = (if decide (id ∈ xs.*1) then (fun e => with_score e (now + Z.max lease 1000)) <$> log !! id
                else log !! id)
  /\ (forall x, x ∈ xs -> log !! x.1 = Some x.2).
Proof.
  intros [= <- <-].
  assert (Hin : forall x, x ∈ candidates now limit log -> log !! x.1 = Some x.2)
    by (intros x Hx; by apply candidates_in in Hx as [? _]).
  split; [|done]. apply lease_all_lookup; [apply candidates_nodup|done].
Qed.

(** One replayer per entry: what one process claimed is not handed to a process
    that claims before the lease, of at least a second, is over. *)
Theorem claimed_entries_are_exclusive (now now2 lease : Z) (limit limit2 : nat)
    (log log1 log2 : gmap string WalEntry) (xs ys : list (string * WalEntry)) (id : string) :
  claim_pending now lease limit log = (xs, log1) ->
  claim_pending now2 lease limit2 log1 = (ys, log2) ->
  now2 < now + Z.max lease 1000 -> id ∈ xs.*1 -> id ∉ ys.*1.
Proof.
  intros Hc1 Hc2 Hnow Hx Hy.
  apply list_elem_of_fmap in Hy as ([id' e] & -> & Hy). cbn [fst] in Hx.
  destruct (claim_lookup _ _ _ _ _ _ id' Hc1) as [Hl _]. rewrite decide_True in Hl by done.
  injection Hc2 as <- _. apply candidates_in in Hy as [Hlog Hs]. cbn [fst snd] in *.
  rewrite Hlog in Hl. destruct (log !! id'); [|done]. simplify_eq/=. lia.
Qed.

(** ** An entry leaves the log for the broker *)

Section ReplayProperties.
Context `{Redis R} `{DurabilityCodes}.
Context (env : Kind -> nat -> Weather) (deps : Deps).
Context (default_tenant : option string) (lease_ms : Z)
  (write_verifier : option (string -> string -> Message -> bool)).
Abbreviation W := (World R).
Abbreviation once := (replay_once env deps default_tenant lease_ms write_verifier).
Abbreviation entry := (replay_entry env deps default_tenant write_verifier).

(** The main topic carries the message of the entry. *)
Definition carries (p : SendPublication) (m : Message) : Prop :=
  pub_topic p = TopicMessageMain /\ server_id (pub_message p) = server_id m
  /\ conversation_seq (pub_message p) = conversation_seq m /\ content (pub_message p) = content m.

Definition delivered (w : W) (id : string) (e : WalEntry) : Prop :=
  exists p, p ∈ outbox w /\ carries p (replay_message id e).2.

Definition kept (w : W) (id : string) (e : WalEntry) : Prop :=
  exists score, wal w !! id = Some (with_score e score).

(** Nothing of the log is lost between [w] and [w']. *)
Definition carried (w w' : W) : Prop :=
  outbox w `prefix_of` outbox w'
  /\ forall id e, wal w !! id = Some e ->
       kept w' id e \/ push_only_entry id e = true \/ delivered w' id e.

Lemma with_score_self e : with_score e (wal_score e) = e.
Proof. by destruct e. Qed.

Lemma delivered_mono w w' id e : outbox w `prefix_of` outbox w' -> delivered w id e -> delivered w' id e.
Proof. intros [ps Ho] (p & Hp & Hc). exists p. split; [|done]. rewrite Ho. apply elem_of_app. by left. Qed.

Lemma carried_sub w w' :
  outbox w `prefix_of` outbox w' -> wal w' = wal w -> carried w w'.
Proof.
  intros Ho Hw. split; [done|]. intros id e He. left. exists (wal_score e).
  by rewrite Hw, with_score_self.
Qed.

Lemma carried_trans w1 w2 w3 : carried w1 w2 -> carried w2 w3 -> carried w1 w3.
Proof.
  intros [Ho1 H1] [Ho2 H2]. split; [by etrans|]. intros id e He.
  destruct (H1 id e He) as [[s Hk]|[Hp|Hd]]; [|by right; left|right; right; by eapply delivered_mono].
  destruct (H2 id _ Hk) as [[s' Hk']|[Hp|Hd]]; [left; by exists s'|by right; left|by right; right].
Qed.

Lemma carried_remove w id e :
  (forall e', wal w !! id = Some e' -> exists score, e' = with_score e score) ->
  (push_only_entry id e = true \/ delivered w id e) -> carried w (wal_remove id w).
Proof.
  intros Hid Hout. split; [done|]. intros k e' He'. destruct (decide (k = id)) as [->|Hne].
  - destruct (Hid e' He') as [score ->]. right. exact Hout.
  - left. exists (wal_score e'). rewrite with_score_self. simpl. by rewrite lookup_delete_ne.
Qed.

Lemma normalize_carries m rs rs' large :
  carries (mkSendPub TopicMessageMain (normalize_single_chat_routing m rs) rs' large) m.
Proof.
  unfold carries, normalize_single_chat_routing. cbn [pub_topic pub_message].
  case_decide; [done|]. destruct (List.find _ _); [|done]. by case_decide.
Qed.

(** Publishing a message that is kept. *)
Lemma push_main_spec s p mode (w : W) :
  should_push_only mode (is_temporary p) = false ->
  wp (push_message env deps s p mode)
    (fun x w' => wal w' = wal w /\ outbox w `prefix_of` outbox w'
       /\ (x = Returned (Ok ()) -> exists q, q ∈ outbox w' /\ carries q (sub_message s))) w.
Proof.
  intros Hm. unfold push_message. rewrite Hm. repeat wp_step; try done.
  destruct a as [rs large]. unfold publish.
  apply wp_call; intros; (split; [done|]); (split; [by simpl; try apply prefix_app_r|]); try done.
  intros _. eexists. split; [apply elem_of_app; right; by apply list_elem_of_singleton|].
  destruct large; [done|]. apply normalize_carries.
Qed.

(** An entry of the log as it was claimed, up to its score. *)
Definition claimed_as (w : W) (id : string) (e : WalEntry) : Prop :=
  forall e', wal w !! id = Some e' -> exists score, e' = with_score e score.

Lemma claimed_as_sub w w' id e : wal w' ⊆ wal w -> claimed_as w id e -> claimed_as w' id e.
Proof. intros Hsub Hc e' He'. apply Hc. by eapply lookup_weaken. Qed.

Lemma remove_spec id e (w : W) :
  claimed_as w id e -> (push_only_entry id e = true \/ delivered w id e) ->
  wp (remove_entry env id) (fun _ w' => carried w w' /\ wal w' ⊆ wal w) w.
Proof.
  intros Hc Hout.
  assert (Hrm : carried w (wal_remove id (next w)) /\ wal (wal_remove id (next w)) ⊆ wal w).
  { split; [|apply delete_subseteq]. by apply (carried_remove (next w) id e). }
  assert (Hsame : carried w (next w) /\ wal (next w) ⊆ wal w) by (split; [by apply carried_sub|done]).
  unfold remove_entry. by apply wp_call.
Qed.

Lemma entry_spec id e (w : W) :
  claimed_as w id e -> wp (entry id e) (fun _ w' => carried w w' /\ wal w' ⊆ wal w) w.
Proof.
  intros Hc. unfold replay_entry.
  assert (Hpo : push_only_entry id e = let '(p, m) := replay_message id e in
    should_push_only (replay_persistence_mode p m) (is_temporary p)) by done.
  assert (Hsame : carried w w /\ wal w ⊆ wal w) by (split; [by apply carried_sub|done]).
  destruct (replay_message id e) as [p m] eqn:Em.
  destruct (should_push_only _ _) eqn:Es.
  - wp_step. eapply wp_mono; [apply (remove_spec id e); [done|by left]|].
    intros [[[]|]|] w1 Hw1; cbn [andthen]; by try wp_step.
  - destruct (replay_tenant _ _) as [t|]; [|by wp_step].
    destruct (negb _); [by wp_step|].
    do 2 wp_step. eapply wp_mono; [by apply push_main_spec|].
    intros x w1 (Hw & Ho & Hx).
    assert (H1 : carried w w1 /\ wal w1 ⊆ wal w) by (rewrite Hw; split; [by apply carried_sub|done]).
    destruct x as [[[]|err]|]; cbn [andthen]; [|by try wp_step..].
    wp_step. eapply wp_mono; [apply (remove_spec id e)|].
    + by eapply claimed_as_sub; [|exact Hc]; rewrite Hw.
    + right. destruct (Hx eq_refl) as (q & Hq & Hcar). exists q. split; [done|]. by rewrite Em.
    + intros y w2 [Hc2 Hs2].
      assert (H2 : carried w w2 /\ wal w2 ⊆ wal w)
        by (split; [by eapply carried_trans; [apply H1|]|rewrite <- Hw; done]).
      destruct y as [[[]|]|]; cbn [andthen]; by try wp_step.
Qed.

Lemma all_spec xs r (w : W) :
  (forall id e, (id, e) ∈ xs -> claimed_as w id e) ->
  wp (replay_all env deps default_tenant write_verifier xs r) (fun _ w' => carried w w') w.
Proof.
  revert r w. induction xs as [|[id e] xs IH]; intros r w Hc; [by apply carried_sub|].
  cbn [replay_all]. wp_step. eapply wp_mono; [apply entry_spec, Hc; by left|].
  intros x w1 [H1 Hsub]. destruct x as [[v|]|]; cbn [andthen]; [|done..].
  eapply wp_mono; [apply IH|].
  - intros id' e' Hin. eapply claimed_as_sub; [exact Hsub|]. apply Hc. by right.
  - intros y w2 H2. by eapply carried_trans.
Qed.

Lemma claim_carried now lease limit (w : W) xs log :
  claim_pending now lease limit (wal w) = (xs, log) ->
  carried w (set_wal w log)
  /\ forall id e, (id, e) ∈ xs -> claimed_as (set_wal w log) id e.
Proof.
  intros Hc. split.
  - split; [done|]. intros id e He. left. destruct (claim_lookup _ _ _ _ _ _ id Hc) as [Hl _].
    unfold kept. simpl. rewrite Hl, He. destruct (decide _); [by eexists|].
    exists (wal_score e). by rewrite with_score_self.
  - intros id e Hin e' He'. destruct (claim_lookup _ _ _ _ _ _ id Hc) as [Hl Hxs].
    specialize (Hxs (id, e) Hin). simpl in Hxs, He'.
    rewrite Hl, Hxs, decide_True in He' by (by apply (list_elem_of_fmap_2 fst) in Hin).
    injection He' as <-. by eexists.
Qed.

Lemma carried_once (limit : nat) (w w' : W) (x : exit WalReplayReport) : once limit w = (x, w') -> carried w w'.
Proof.
  intros Hrun. assert (Hwp : wp (once limit) (fun _ w' => carried w w') w).
  2: { unfold wp in Hwp. by rewrite Hrun in Hwp. }
  assert (Hrefl : carried w w) by by apply carried_sub.
  unfold replay_once, list_pending. wp_step. destruct (decide (limit = O)); [by repeat wp_step|].
  destruct (negb (wal_configured deps)); [by repeat wp_step|].
  destruct (claim_pending (clock deps (tick (next w))) lease_ms limit (wal w)) as [xs log] eqn:Ec.
  pose proof (claim_carried _ _ _ (next w) _ _ Ec) as [Hclaim Hxs].
  assert (Hc : carried w (set_wal (next w) log)) by (by eapply carried_trans; [by apply carried_sub|]).
  apply wp_call; cbn [wal next set_tick] in *; rewrite ?Ec; intros; cbn [fst snd andthen]; try done.
  eapply wp_mono; [by apply all_spec|]. intros y w2 H2. by eapply carried_trans.
Qed.

(** C31. Replay loses nothing, whatever fails: an entry that leaves the log was either
    never to be kept (a push-only message) or its message is in the main topic under
    its own id and number; every other entry is still there with its message, its
    tenant and its proof. *)
Theorem replay_removes_only_what_the_broker_has (limit : nat) (w w' : W) (x : exit WalReplayReport) :
  once limit w = (x, w') ->
  forall id e, wal w !! id = Some e ->
    kept w' id e \/ push_only_entry id e = true \/ delivered w' id e.
Proof. by intros [_ Hall]%carried_once. Qed.

(** *** A calm round empties the log *)

Section Calm.
Context (calm : forall k n, env k n = Calm).

(** Nothing about the entry itself stands in the way of its replay. *)
Definition ready (id : string) (e : WalEntry) : Prop :=
  push_only_entry id e = true
  \/ exists t, replay_tenant default_tenant e = Some t
              /\ proof_ok write_verifier t e (replay_message id e).2 = true
              /\ is_ok (resolve_persistent_message_recipients (conversation_members deps)
                         (replay_message id e).2) = true.

Definition settles (id : string) (w : W) (x : exit Verdict) (w' : W) : Prop :=
  (x = Returned (Ok VReplayed) \/ x = Returned (Ok VSkipped)) /\ wal w' = delete id (wal w).

Lemma entry_calm id e (w : W) : ready id e -> wp (entry id e) (settles id w) w.
Proof.
  unfold ready, replay_entry, push_only_entry. destruct (replay_message id e) as [p m].
  destruct (should_push_only _ _) eqn:Es.
  - intros _. wp_step. apply wp_call_calm; [done|]. cbn [fst snd andthen]. wp_step. split; [by right|done].
  - intros [|(t & Ht & Hp & Hr)]; [done|]. cbn [snd] in *. rewrite Ht, Hp. cbn [negb].
    do 2 wp_step. unfold push_message. rewrite Es. wp_step. apply wp_call_calm; [done|]. cbn [fst snd sub_message].
    destruct (resolve_persistent_message_recipients _ m) as [[rs large]|]; [|done]. cbn [andthen].
    unfold publish. apply wp_call_calm; [done|]. cbn [fst snd andthen].
    wp_step. apply wp_call_calm; [done|]. cbn [fst snd andthen]. wp_step. split; [by left|done].
Qed.

Lemma all_calm xs r (w : W) :
  (forall id e, (id, e) ∈ xs -> ready id e) ->
  wp (replay_all env deps default_tenant write_verifier xs r)
    (fun x w' => (exists r', x = Returned (Ok r') /\ failed r' = failed r /\ quarantined r' = quarantined r)
       /\ wal w' = foldl (fun l id => delete id l) (wal w) xs.*1) w.
Proof.
  revert r w. induction xs as [|[id e] xs IH]; intros r w Hr; [by split; [eexists|]|].
  cbn [replay_all]. wp_step. eapply wp_mono; [apply entry_calm, Hr; by left|].
  intros x w1 [Hx Hw]. assert (Hgo : exists v, x = Returned (Ok v) /\ failed (tally r v) = failed r
    /\ quarantined (tally r v) = quarantined r) by (destruct Hx as [-> | ->]; by eexists).
  destruct Hgo as (v & -> & Hf & Hq). cbn [andthen].
  eapply wp_mono; [apply IH; intros; by apply Hr; right|].
  intros y w2 [(r' & -> & Hf' & Hq') Hw2]. split; [exists r'; by rewrite Hf', Hq'|].
  rewrite Hw2, Hw. done.
Qed.
End Calm.

Lemma foldl_delete_lookup (l : gmap string WalEntry) ids id :
  foldl (fun l id => delete id l) l ids !! id = (if decide (id ∈ ids) then None else l !! id).
Proof.
  revert l. induction ids as [|k ids IH]; intros l; [by rewrite decide_False by (by intros ?%elem_of_nil)|].
  cbn [foldl]. rewrite IH. destruct (decide (id ∈ ids)); [by rewrite decide_True by (by right)|].
  destruct (decide (id = k)) as [->|Hne]; [by rewrite lookup_delete_eq, decide_True by left|].
  rewrite lookup_delete_ne by done. rewrite decide_False; [done|]. by intros [|]%elem_of_cons.
Qed.

Lemma candidates_all now limit log :
  (forall id e, log !! id = Some e -> wal_score e <= now) -> (size log <= limit)%nat ->
  forall id e, log !! id = Some e -> (id, e) ∈ candidates now limit log.
Proof.
  intros Hdue Hsize id e He. unfold candidates.
  rewrite take_ge.
  - rewrite merge_sort_Permutation. apply list_elem_of_filter. split; [by eapply Hdue|].
    by apply elem_of_map_to_list.
  - rewrite (Permutation_length (merge_sort_Permutation index_le _)).
    etrans; [apply length_filter|]. by rewrite length_map_to_list.
Qed.

(** C32. What the log holds gets out: in a round in which every call succeeds, with room
    for all entries, all of them due and none in need of a tenant, a proof or
    recipients it cannot have, the replay answers without a failure, the log is
    empty afterwards and every entry that was to be kept is in the main topic. *)
Theorem calm_replay_drains_the_log (limit : nat) (w : W) :
  (forall k n, env k n = Calm) -> wal_configured deps = true ->
  (forall id e, wal w !! id = Some e -> ready id e /\ wal_score e <= clock deps (S (tick w))) ->
  (size (wal w) <= limit)%nat -> limit <> O ->
  exists r w', once limit w = (Returned (Ok r), w') /\ failed r = O /\ quarantined r = O /\ wal w' = ∅
    /\ forall id e, wal w !! id = Some e -> push_only_entry id e = true \/ delivered w' id e.
Proof.
  intros Hcalm Hconf Hready Hsize Hlimit.
  assert (Hwp : wp (once limit) (fun x w' =>
    (exists r, x = Returned (Ok r) /\ failed r = O /\ quarantined r = O) /\ wal w' = ∅) w).
  { unfold replay_once, list_pending. wp_step. rewrite decide_False, Hconf by done. cbn [negb].
    apply wp_call_calm; [by intros|]. cbn [wal next set_tick tick].
    destruct (claim_pending (clock deps (S (tick w))) lease_ms limit (wal w)) as [xs log] eqn:Ec.
    cbn [fst snd andthen]. injection Ec as Hxs Hlog.
    assert (Hin : forall id e, wal w !! id = Some e -> (id, e) ∈ xs).
    { rewrite <- Hxs. apply candidates_all; [|done]. intros id e He. by apply Hready in He as [_ ?]. }
    eapply wp_mono; [apply all_calm; [done|]|].
    { intros id e Hx. rewrite <- Hxs in Hx. apply candidates_in in Hx as [Hx _]. by apply Hready in Hx as [? _]. }
    intros x w' [(r & -> & Hf & Hq) Hw]. split; [by exists r|].
    apply map_empty. intros id. rewrite Hw, foldl_delete_lookup. destruct (decide (id ∈ xs.*1)); [done|].
    simpl. destruct (claim_lookup (clock deps (S (tick w))) lease_ms limit (wal w) xs log id) as [Hl _];
      [by rewrite <- Hxs, <- Hlog|].
    rewrite Hl, decide_False by done. destruct (wal w !! id) as [e|] eqn:He; [|done].
    exfalso. apply n. apply (list_elem_of_fmap_2 fst _ (id, e)). by apply Hin. }
  unfold wp in Hwp. destruct (once limit w) as [x w'] eqn:Hrun. simpl in Hwp.
  destruct Hwp as [(r & -> & Hf & Hq) Hw].
  exists r, w'. repeat split; try done. intros id e He.
  destruct (carried_once limit w w' _ Hrun) as [_ Hall].
  destruct (Hall id e He) as [[s Hk]|Hout]; [|done]. by rewrite Hw in Hk.
Qed.
End ReplayProperties.

(** ** Witnesses *)

Module ReplayExample.
Export SendExample.
(** The log after a send whose publication failed. *)
Definition logged : World SimRedis := (handle_send_message_inner broker_down deps alice hello start).2.
Definition pending_entry : WalEntry := default (mkWal None "" note 0) (wal logged !! "u3").
Definition claimed := claim_pending 2000 5000 10 (wal logged).
End ReplayExample.
Import ReplayExample.

Lemma claimed_entries_are_exclusive_witness : "u3" ∉ (claim_pending 6000 5000 10 claimed.2).1.*1.
Proof.
  apply (claimed_entries_are_exclusive 2000 6000 5000 10 10 (wal logged) claimed.2
           (claim_pending 6000 5000 10 claimed.2).2 claimed.1).
  - vm_compute. reflexivity.
  - vm_compute. reflexivity.
  - reflexivity.
  - apply (bool_decide_unpack _). vm_compute. exact I.
Defined.

Lemma replay_removes_only_what_the_broker_has_witness :
  let w' := (replay_once broker_down deps None 5000 None 10 logged).2 in
  kept w' "u3" pending_entry \/ push_only_entry "u3" pending_entry = true \/ delivered w' "u3" pending_entry.
Proof.
  apply (replay_removes_only_what_the_broker_has broker_down deps None 5000 None 10 logged _
           (replay_once broker_down deps None 5000 None 10 logged).1).
  - apply surjective_pairing.
  - vm_compute. reflexivity.
Defined.

Lemma calm_replay_drains_the_log_witness :
  exists r w', replay_once calm deps None 5000 None 10 logged = (Returned (Ok r), w')
    /\ failed r = O /\ quarantined r = O /\ wal w' = ∅
    /\ forall id e, wal logged !! id = Some e -> push_only_entry id e = true \/ delivered w' id e.
Proof.
  assert (Hlog : wal logged = {["u3" := pending_entry]}) by (vm_compute; reflexivity).
  apply (calm_replay_drains_the_log calm deps None 5000 None 10 logged).
  - reflexivity.
  - reflexivity.
  - intros id e He. rewrite Hlog in He. apply lookup_singleton_Some in He as [<- <-].
    split; [right; exists "t1"; vm_compute; repeat split|vm_compute; discriminate].
  - rewrite Hlog, map_size_singleton. lia.
  - discriminate.
Defined.
