(* ===== verification/Persistence.v ===== *)
(** * The storage writer

    flare-storage/writer: message_persistence.rs (prepare, claim, archive,
    acknowledge, clean the WAL), the idempotency keys of
    message_idempotency_repository.rs and redis_idempotency.rs. The stores behind
    the repositories are the fields of [Store]. Every call to one of them goes
    through [call], and a fault schedule decides for each call whether it works,
    fails before it takes effect, or takes effect and then reports an error (a
    lost reply). The ledger verdict of the archive is a parameter. *)

From S2P Require Import Prelude Proto Tenant OperationPolicy.
From stdpp Require Import base gmap strings list sorting.
From Stdlib Require Import Lia ZArith.

Local Open Scope Z_scope.

(** ** Data *)

(** [TimelineMetadata], the two stamps the writer uses. *)
Record Timeline := mkTimeline { ingestion_ts : Z; persisted_ts : option Z }.

Record PreparedMessage := mkPrepared {
  prep_conversation_id : string;
  message_id : string;
  message : Message;
  timeline : Timeline;
  sync : bool;
}.

Record PersistenceResult := mkResult {
  res_conversation_id : string;
  res_message_id : string;
  res_timeline : Timeline;
  deduplicated : bool;
}.

Record ProcessStoreMessageCommand := mkCommand {
  cmd_conversation_id : string;
  cmd_message : option Message;
  cmd_sync : bool;
  cmd_tenant : option string;
  cmd_metadata : gmap string string;
}.

(** [MessageWriteStage] *)
Inductive MessageWriteStage :=
  ArchivePersisted | StoragePersisted | WalCleaned | WalCleanupFailed | AckPublished | AckPublishFailed.

(** [AckEvent] *)
Record Ack := mkAck { ack_id : string; ack_conversation : string; ack_deduplicated : bool }.

(** The stream event of a stored message. *)
Record StreamEvent := mkStream {
  st_tenant : string; st_conversation : string; st_seq : Z; st_message : Message }.

(** The stores the writer's repositories stand for. *)
Record Store := mkStore {
  tick : nat;
  claims : gset string;
  archive : gmap string Message;
  bindings : list string;
  stream : list StreamEvent;
  hot : list string;
  wal : gset string;
  acks : list Ack;
  stages : list (string * string * MessageWriteStage);
  usage : gmap string Z;
}.

(** What kind of call is made. *)
Inductive Kind := KReserve | KRelease | KArchive | KBind | KStream | KHot | KAck | KWal | KLedger.

Inductive Fault :=
  | FaultNone
  | FaultBefore
  | FaultAfter.

(** Which repositories the service is built with. *)
Record Config := mkConfig {
  has_idempotency : bool;
  has_archive : bool;
  has_bindings : bool;
  has_stream : bool;
  has_hot : bool;
  has_wal : bool;
  has_ack : bool;
  has_ledger : bool;
}.

(** ** Keys *)

(** [scoped_client_idempotency_key] *)
Definition scoped_client_idempotency_key (ctx : Ctx) (client_msg_id : string)
    (sender conversation : option string) : result string :=
  tenant ← ok_or (normalize_optional_tenant_id (ctx_tenant_id ctx))
             (flare_err InvalidParameter "tenant required for client message idempotency key");
  let sender := default "0" (not_blank sender) in
  let conversation := default "0" (not_blank conversation) in
  Ok ("client:" +:+ tenant +:+ ":" +:+ sender +:+ ":" +:+ conversation +:+ ":" +:+ client_msg_id).

(** [RedisIdempotencyRepository::message_key] *)
Definition message_key (ctx : Ctx) (id : string) : result string :=
  tenant ← ok_or (ctx_tenant_id ctx) (flare_err InternalError "tenant required for idempotency key");
  if negb (is_valid_tenant_id tenant) || bool_decide (normalize_tenant_id tenant <> tenant)
  then Err (flare_err InternalError "canonical tenant required for idempotency key")
  else Ok ("storage:idempotency:" +:+ tenant +:+ ":" +:+ id).

(** ** Preparing *)

Definition MESSAGE_TENANT_ATTRIBUTES : list string := ["tenant_id"; "x-tenant-id"].

(** [pin_message_tenant] *)
Definition pin_attributes (attrs : gmap string string) (tenant : string) : gmap string string :=
  foldl (fun attrs key =>
           if bool_decide (key = "tenant_id") || bool_decide (is_Some (attrs !! key))
           then <[key := tenant]> attrs else attrs) attrs MESSAGE_TENANT_ATTRIBUTES.

(** [prepared_tenant_id] *)
Definition prepared_tenant_id (m : Message) : result string :=
  ok_or (normalize_optional_tenant_id (attributes m !! "tenant_id"))
    (flare_err InvalidParameter "prepared message has no tenant").

(** The fields [prepare_message] overwrites. *)
Definition with_prepared (m : Message) (conversation : string) (attrs : gmap string string)
    (st : wire MessageStatus) : Message :=
  mkMessage (server_id m) conversation (client_msg_id m) (sender_id m) (source m)
    (conversation_seq m) (created_at m) (conversation_type m) (message_type m) (message_seq m)
    (channel_id m) (sender_name m) (sender_avatar m) (thread_id m) (content m) st
    (retention_policy m) (retention_state m) (offline_push_info m) attrs (extensions m).

(** A retention policy that is enabled with a time that is not positive. *)
Definition bad_retention (m : Message) : bool :=
  match retention_policy m with
  | Some p =>
      match mode p with
      | Some ModeNone => false
      | _ => match expire_after_seconds p with Some s => bool_decide (s <= 0) | None => false end
      end
  | None => false
  end.

Section Prepare.
(** [extract_timeline_from_extra] and the clock. *)
Context (extract_timeline : gmap string string -> Z -> Timeline) (now : Z).

(** [prepare_message] *)
Definition prepare_message (c : ProcessStoreMessageCommand) : result PreparedMessage :=
  let conversation :=
    if Str.is_empty (cmd_conversation_id c)
    then match cmd_message c with Some m => conversation_id m | None => "" end
    else cmd_conversation_id c in
  m ← ok_or (cmd_message c) (flare_err InvalidParameter "missing message payload");
  tenant ← ok_or (normalize_optional_tenant_id (cmd_tenant c))
             (flare_err InvalidParameter "stored message has no tenant from its envelope headers");
  let conv := if Str.is_empty (conversation_id m) then conversation else conversation_id m in
  let attrs := pin_attributes (attributes m) tenant in
  if Str.is_empty (server_id m)
  then Err (flare_err InvalidParameter "Message server_id cannot be empty")
  else
    let st := if bool_decide (status m = Some Created) || bool_decide (status m = Some StatusUnspecified)
              then Some Sent else status m in
    if bad_retention m
    then Err (flare_err InvalidParameter
                "expire_after_seconds must be positive when retention is enabled")
    else
      let t := extract_timeline (cmd_metadata c) now in
      Ok (mkPrepared conversation (server_id m) (with_prepared m conv attrs st)
            (mkTimeline (ingestion_ts t) (Some now)) (cmd_sync c)).
End Prepare.

(** ** The service *)

Section Writer.
Context (fault : Kind -> nat -> Fault) (cfg : Config).
(** The archive's ledger: the stored message a message is a second send of. *)
Context (original_of : gmap string Message -> Message -> option string).

Abbreviation M := (stE Store).

Definition infra (what : string) : FlareError := flare_err DatabaseError what.

Definition tick_store (s : Store) : Store :=
  mkStore (S (tick s)) (claims s) (archive s) (bindings s) (stream s) (hot s) (wal s) (acks s)
    (stages s) (usage s).

(** A call to a repository. *)
Definition call {A} (k : Kind) (what : string) (eff : Store -> A * Store) : M A :=
  fun s =>
    let s1 := tick_store s in
    match fault k (tick s) with
    | FaultNone => let '(a, s2) := eff s1 in (Ok a, s2)
    | FaultBefore => (Err (infra what), s1)
    | FaultAfter => (Err (infra what), (eff s1).2)
    end.

Definition ignore_error {A} (m : M A) : M unit := fun s => (Ok (), (m s).2).

Definition with_claims (s : Store) (c : gset string) : Store :=
  mkStore (tick s) c (archive s) (bindings s) (stream s) (hot s) (wal s) (acks s) (stages s) (usage s).
Definition with_archive (s : Store) (a : gmap string Message) : Store :=
  mkStore (tick s) (claims s) a (bindings s) (stream s) (hot s) (wal s) (acks s) (stages s) (usage s).
Definition with_bindings (s : Store) (b : list string) : Store :=
  mkStore (tick s) (claims s) (archive s) b (stream s) (hot s) (wal s) (acks s) (stages s) (usage s).
Definition with_stream (s : Store) (st : list StreamEvent) : Store :=
  mkStore (tick s) (claims s) (archive s) (bindings s) st (hot s) (wal s) (acks s) (stages s) (usage s).
Definition with_hot (s : Store) (h : list string) : Store :=
  mkStore (tick s) (claims s) (archive s) (bindings s) (stream s) h (wal s) (acks s) (stages s) (usage s).
Definition with_wal (s : Store) (w : gset string) : Store :=
  mkStore (tick s) (claims s) (archive s) (bindings s) (stream s) (hot s) w (acks s) (stages s) (usage s).
Definition with_acks (s : Store) (a : list Ack) : Store :=
  mkStore (tick s) (claims s) (archive s) (bindings s) (stream s) (hot s) (wal s) a (stages s) (usage s).
Definition with_stages (s : Store) (g : list (string * string * MessageWriteStage)) : Store :=
  mkStore (tick s) (claims s) (archive s) (bindings s) (stream s) (hot s) (wal s) (acks s) g (usage s).
Definition with_usage (s : Store) (u : gmap string Z) : Store :=
  mkStore (tick s) (claims s) (archive s) (bindings s) (stream s) (hot s) (wal s) (acks s) (stages s) u.

(** *** Claims *)

(** [is_new]: SET NX of the key *)
Definition is_new (ctx : Ctx) (id : string) : M bool :=
  key ← lift_r (message_key ctx id);
  call KReserve "Failed to check idempotency"
    (fun s => (bool_decide (key ∉ claims s), with_claims s ({[key]} ∪ claims s))).

(** [release] *)
Definition release (ctx : Ctx) (id : string) : M unit :=
  if Str.is_empty id then mret ()
  else
    key ← lift_r (message_key ctx id);
    call KRelease "release" (fun s => ((), with_claims s (claims s ∖ {[key]}))).

(** [is_new_by_client_msg_id] *)
Definition is_new_by_client_msg_id (ctx : Ctx) (client : string) (sender conv : option string) : M bool :=
  if Str.is_empty client then mret true
  else
    key ← lift_r (scoped_client_idempotency_key ctx client sender conv);
    is_new ctx key.

(** [release_by_client_msg_id] *)
Definition release_by_client_msg_id (ctx : Ctx) (client : string) (sender conv : option string) : M unit :=
  if Str.is_empty client then mret ()
  else
    key ← lift_r (scoped_client_idempotency_key ctx client sender conv);
    release ctx key.

(** [IdempotencyReservation] and [IdempotencyDecision] *)
Inductive IdempotencyReservation :=
  | ResNone
  | ServerMessageId (id : string)
  | ClientMessageId (client : string) (sender conv : option string).

Record IdempotencyDecision := mkDecision { decision_new : bool; reservation : IdempotencyReservation }.

Definition non_empty (s : string) : option string := if Str.is_empty s then None else Some s.

(** The claim on the server id. *)
Definition reserve_server_id (ctx : Ctx) (p : PreparedMessage) : M IdempotencyDecision :=
  on_result (is_new ctx (message_id p))
    (fun fresh => mret (if (fresh : bool) then mkDecision true (ServerMessageId (message_id p))
                        else mkDecision false ResNone))
    (fun _ => lift_r (Err (infra "Failed to check idempotency"))).

(** [reserve_idempotency] *)
Definition reserve_idempotency (ctx : Ctx) (p : PreparedMessage) : M IdempotencyDecision :=
  if negb (has_idempotency cfg) then mret (mkDecision true ResNone)
  else if negb (Str.is_empty (client_msg_id (message p))) then
    on_result (is_new_by_client_msg_id ctx (client_msg_id (message p))
                 (Some (sender_id (message p))) (Some (prep_conversation_id p)))
      (fun fresh => mret (if (fresh : bool)
          then mkDecision true (ClientMessageId (client_msg_id (message p))
                 (non_empty (sender_id (message p))) (non_empty (prep_conversation_id p)))
          else mkDecision false ResNone))
      (fun _ => reserve_server_id ctx p)
  else reserve_server_id ctx p.

(** [release_idempotency_reservation] *)
Definition release_idempotency_reservation (ctx : Ctx) (r : IdempotencyReservation) : M unit :=
  if negb (has_idempotency cfg) then mret ()
  else
    ignore_error
      match r with
      | ResNone => mret ()
      | ServerMessageId id => release ctx id
      | ClientMessageId client sender conv => release_by_client_msg_id ctx client sender conv
      end.

(** *** Durable writes *)

(** [ArchiveOutcome]: the server ids judged to be second sends *)
Definition ArchiveOutcome : Type := list string.
Definition is_duplicate (o : ArchiveOutcome) (id : string) : bool := bool_decide (id ∈ o).

(** [archive_messages]: one transaction, message by message *)
Fixpoint archive_all (a : gmap string Message) (ms : list Message) : ArchiveOutcome * gmap string Message :=
  match ms with
  | [] => ([], a)
  | m :: ms' =>
      match original_of a m with
      | Some _ => let '(dups, a') := archive_all a ms' in (server_id m :: dups, a')
      | None => archive_all (<[server_id m := m]> a) ms'
      end
  end.

Definition archive_messages (ms : list Message) : M ArchiveOutcome :=
  call KArchive "Failed to store archive"
    (fun s => let '(dups, a) := archive_all (archive s) ms in (dups, with_archive s a)).

(** [register_plugin_entity_bindings]: one call per tenant, in tenant order *)
Definition register_plugin_entity_bindings (ms : list Message) : M unit :=
  if negb (has_bindings cfg) then mret ()
  else
    let tenants := distinct_ids (omap (fun m => match prepared_tenant_id m with
                                                 | Ok t => Some t | Err _ => None end) ms) in
    foldr (fun t rest =>
             _ ← ignore_error (call KBind "register" (fun s =>
                   ((), with_bindings s (bindings s ++ (server_id <$>
                          filter (fun m => prepared_tenant_id m = Ok t) ms)))));
             rest) (mret ()) tenants.

(** [build_event_message] *)
Definition build_event_message (m : Message) : result StreamEvent :=
  tenant ← prepared_tenant_id m;
  Ok (mkStream tenant (conversation_id m) (conversation_seq m) m).

(** [collect] of fallible items *)
Fixpoint collect {A} (l : list (result A)) : result (list A) :=
  match l with
  | [] => Ok []
  | r :: l' => a ← r; rest ← collect l'; Ok (a :: rest)
  end.

Definition append_events_to_stream (events : list StreamEvent) : M unit :=
  call KStream "Failed to append message events to durable event stream"
    (fun s => ((), with_stream s (stream s ++ events))).

Definition store_hot (ms : list Message) : M unit :=
  if negb (has_hot cfg) then mret ()
  else ignore_error (call KHot "hot" (fun s => ((), with_hot s (hot s ++ (server_id <$> ms))))).

(** [persist_batch]; [persist_message] is the batch of one. *)
Definition persist_batch (ps : list PreparedMessage) : M ArchiveOutcome :=
  match ps with
  | [] => mret []
  | _ =>
      let messages := message <$> ps in
      outcome ← (if has_archive cfg then archive_messages messages else mret []);
      let messages := if has_archive cfg
                      then filter (fun m => is_duplicate outcome (server_id m) = false) messages
                      else messages in
      match messages with
      | [] => mret outcome
      | _ =>
          _ ← (if has_archive cfg then register_plugin_entity_bindings messages else mret ());
          if negb (has_stream cfg)
          then lift_r (Err (flare_err InternalError "Event stream repository not configured"))
          else
            events ← lift_r (collect (build_event_message <$> messages));
            _ ← append_events_to_stream events;
            _ ← store_hot messages;
            mret outcome
      end
  end.

(** [persist_message] *)
Definition persist_message (p : PreparedMessage) : M ArchiveOutcome :=
  outcome ← (if has_archive cfg then archive_messages [message p] else mret []);
  if has_archive cfg && is_duplicate outcome (message_id p) then mret outcome
  else
    _ ← (if has_archive cfg then register_plugin_entity_bindings [message p] else mret ());
    if negb (has_stream cfg)
    then lift_r (Err (flare_err InternalError "Event stream repository not configured"))
    else
      event ← lift_r (build_event_message (message p));
      _ ← append_events_to_stream [event];
      _ ← store_hot [message p];
      mret outcome.

(** [cleanup_wal] *)
Definition cleanup_wal (id : string) : M (option bool) :=
  if negb (has_wal cfg) then mret None
  else on_result (call KWal "WAL cleanup failed" (fun s => ((), with_wal s (wal s ∖ {[id]}))))
         (fun _ => mret (Some true)) (fun _ => mret (Some false)).

(** [record_write_stage] *)
Definition record_write_stage (tenant id : string) (st : MessageWriteStage) : M unit :=
  if negb (has_ledger cfg) then mret ()
  else ignore_error (call KLedger "ledger" (fun s => ((), with_stages s (stages s ++ [(tenant, id, st)])))).

(** [publish_ack] *)
Definition publish_ack (r : PersistenceResult) : M unit :=
  if negb (has_ack cfg) then lift_r (Err (flare_err InternalError "ACK publisher not configured"))
  else
    call KAck "Failed to publish ACK"
      (fun s => ((), with_acks s (acks s ++ [mkAck (res_message_id r) (res_conversation_id r)
                                                (deduplicated r)]))).

(** [publish_ack_and_record] *)
Definition publish_ack_and_record (tenant : string) (r : PersistenceResult) : M unit :=
  on_result (publish_ack r)
    (fun _ => mret ())
    (fun err => _ ← record_write_stage tenant (res_message_id r) AckPublishFailed; lift_r (Err err)).

Definition count_usage (tenant : string) : M unit :=
  modify_s (fun s => with_usage s (<[tenant := default 0 (usage s !! tenant) + 1]> (usage s))).

Definition result_of (p : PreparedMessage) (dup : bool) : PersistenceResult :=
  mkResult (prep_conversation_id p) (message_id p) (timeline p) dup.

Definition finish_wal (tenant id : string) : M unit :=
  cleaned ← cleanup_wal id;
  match cleaned with
  | Some false => record_write_stage tenant id WalCleanupFailed
  | _ => mret ()
  end.

(** [ensure_consistency] *)
Definition ensure_consistency (ctx : Ctx) (p : PreparedMessage) : M PersistenceResult :=
  tenant ← lift_r (prepared_tenant_id (message p));
  decision ← reserve_idempotency ctx p;
  if negb (decision_new decision) then
    let r := result_of p true in
    _ ← publish_ack_and_record tenant r;
    mret r
  else
    outcome ← on_result (persist_message p) mret
                (fun err => _ ← release_idempotency_reservation ctx (reservation decision);
                            lift_r (Err err));
    let dup := is_duplicate outcome (message_id p) in
    _ ← (if dup then mret () else count_usage tenant);
    let r := result_of p dup in
    _ ← publish_ack_and_record tenant r;
    _ ← finish_wal tenant (message_id p);
    mret r.

(** *** Batches *)

Definition Claimed : Type := PreparedMessage * IdempotencyReservation * string.

(** The first loop of [ensure_batch_consistency]: claim every message, answer the
    ones already claimed. *)
Fixpoint reserve_all (ctx : Ctx) (ps : list PreparedMessage) : M (list Claimed * list PersistenceResult) :=
  match ps with
  | [] => mret ([], [])
  | p :: ps' =>
      tenant ← lift_r (prepared_tenant_id (message p));
      decision ← reserve_idempotency ctx p;
      if decision_new decision then
        rest ← reserve_all ctx ps';
        mret ((p, reservation decision, tenant) :: rest.1, rest.2)
      else
        let r := result_of p true in
        _ ← publish_ack_and_record tenant r;
        rest ← reserve_all ctx ps';
        mret (rest.1, r :: rest.2)
  end.

Fixpoint each {A} (f : A -> M unit) (l : list A) : M unit :=
  match l with
  | [] => mret ()
  | x :: l' => _ ← f x; each f l'
  end.

(** [ensure_batch_consistency] *)
Definition ensure_batch_consistency (ctx : Ctx) (ps : list PreparedMessage) : M (list PersistenceResult) :=
  match ps with
  | [] => mret []
  | _ =>
      claimed ← reserve_all ctx ps;
      let news := claimed.1 in
      match news with
      | [] => mret claimed.2
      | _ =>
          outcome ← on_result (persist_batch (map (fun c => c.1.1) news)) mret
                      (fun err => _ ← each (fun c => release_idempotency_reservation ctx c.1.2) news;
                                  lift_r (Err err));
          _ ← each (fun c => if is_duplicate outcome (message_id c.1.1) then mret ()
                             else count_usage c.2) news;
          let res c := result_of c.1.1 (is_duplicate outcome (message_id c.1.1)) in
          _ ← each (fun c => publish_ack_and_record c.2 (res c)) news;
          _ ← each (fun c => finish_wal c.2 (message_id c.1.1)) news;
          mret (claimed.2 ++ map res news)
      end
  end.
End Writer.

(** ** Relations every call respects

    [preserves R m]: whatever [m] answers, it relates the store before to the
    store after. *)

Definition preserves {A} (R : Store -> Store -> Prop) (m : stE Store A) : Prop :=
  forall s, R s (m s).2.

(** A relation the bookkeeping of calls does not disturb. *)
Class StoreRel (R : Store -> Store -> Prop) := {
  store_rel_refl s : R s s;
  store_rel_trans s1 s2 s3 : R s1 s2 -> R s2 s3 -> R s1 s3;
  store_rel_tick s : R s (tick_store s);
}.

Section Preserves.
Context (R : Store -> Store -> Prop) `{!StoreRel R}.

Lemma preserves_ret {A} (a : A) : preserves R (mret a : stE Store A).
Proof. intros s. apply store_rel_refl. Qed.

Lemma preserves_lift {A} (r : result A) : preserves R (lift_r r : stE Store A).
Proof. intros s. apply store_rel_refl. Qed.

Lemma preserves_bind {A B} (m : stE Store A) (f : A -> stE Store B) :
  preserves R m -> (forall a, preserves R (f a)) -> preserves R (x ← m; f x).
Proof.
  intros Hm Hf s. unfold mbind, stE_bind. specialize (Hm s).
  destruct (m s) as [[a|e] s1]; simpl in *; [|done]. eapply store_rel_trans; [exact Hm|apply Hf].
Qed.

Lemma preserves_on_result {A B} (m : stE Store A) (f : A -> stE Store B) g :
  preserves R m -> (forall a, preserves R (f a)) -> (forall e, preserves R (g e)) ->
  preserves R (on_result m f g).
Proof.
  intros Hm Hf Hg s. unfold on_result. specialize (Hm s).
  destruct (m s) as [[a|e] s1]; simpl in *; (eapply store_rel_trans; [exact Hm|]); auto.
  - apply Hf.
  - apply Hg.
Qed.

Lemma preserves_ignore {A} (m : stE Store A) : preserves R m -> preserves R (ignore_error m).
Proof. intros Hm s. apply Hm. Qed.

Lemma preserves_call {A} fault k what (eff : Store -> A * Store) :
  (forall s, R s (eff s).2) -> preserves R (call fault k what eff).
Proof.
  intros He s. unfold call. pose proof (store_rel_tick s) as Ht. specialize (He (tick_store s)).
  destruct (fault k (tick s)); simpl.
  - destruct (eff (tick_store s)) as [a s2]. simpl in *. by eapply store_rel_trans.
  - done.
  - by eapply store_rel_trans.
Qed.

Lemma preserves_each {A} (f : A -> stE Store unit) l :
  (forall x, preserves R (f x)) -> preserves R (each f l).
Proof.
  intros Hf. induction l as [|x l IH]; [apply preserves_ret|]. simpl.
  apply preserves_bind; [apply Hf|]. intros _. exact IH.
Qed.
End Preserves.

Create HintDb preserve.
#[export] Hint Resolve preserves_ret preserves_lift preserves_ignore preserves_call preserves_each : preserve.

(** Walks through a method of the writer, down to its calls. *)
Ltac walk_step :=
  lazymatch goal with
  | |- forall _, _ => intros
  | |- StoreRel _ => exact _
  | |- preserves _ (mret _) => apply preserves_ret
  | |- preserves _ (lift_r _) => apply preserves_lift
  | |- preserves _ (mbind _ _) => apply preserves_bind
  | |- preserves _ (on_result _ _ _) => apply preserves_on_result
  | |- preserves _ (each _ _) => apply preserves_each
  | |- preserves _ (ignore_error _) => apply preserves_ignore
  | |- preserves _ (call _ _ _ _) => apply preserves_call
  | |- preserves _ (match ?x with _ => _ end) => destruct x eqn:?
  end.
Ltac walk := repeat walk_step.

(** Nothing stored is ever dropped. *)
Definition durable (s s' : Store) : Prop :=
  (forall id, is_Some (archive s !! id) -> is_Some (archive s' !! id))
  /\ stream s `prefix_of` stream s'.

#[export] Instance durable_rel : StoreRel durable.
Proof.
  split.
  - done.
  - intros s1 s2 s3 [A1 B1] [A2 B2]. split; [auto|by etrans].
  - done.
Qed.

Definition same_acks (s s' : Store) : Prop := acks s' = acks s.
#[export] Instance same_acks_rel : StoreRel same_acks.
Proof. split; unfold same_acks; [done|congruence|done]. Qed.

Definition same_wal (s s' : Store) : Prop := wal s' = wal s.
#[export] Instance same_wal_rel : StoreRel same_wal.
Proof. split; unfold same_wal; [done|congruence|done]. Qed.

Definition same_claims (s s' : Store) : Prop := claims s' = claims s.
#[export] Instance same_claims_rel : StoreRel same_claims.
Proof. split; unfold same_claims; [done|congruence|done]. Qed.

(** Archive, stream and usage stand still. *)
Definition same_data (s s' : Store) : Prop :=
  archive s' = archive s /\ stream s' = stream s /\ usage s' = usage s.
#[export] Instance same_data_rel : StoreRel same_data.
Proof. split; unfold same_data; [done|intros ??? (?&?&?) (?&?&?); repeat split; congruence|done]. Qed.

Section Frames.
Context (fault : Kind -> nat -> Fault) (cfg : Config).
Context (original_of : gmap string Message -> Message -> option string).

Lemma archive_all_grows a ms id :
  is_Some (a !! id) -> is_Some ((archive_all original_of a ms).2 !! id).
Proof.
  revert a. induction ms as [|m ms IH]; intros a Ha; simpl; [done|].
  destruct (original_of a m).
  - destruct (archive_all original_of a ms) as [d a'] eqn:E. simpl. specialize (IH a Ha). by rewrite E in IH.
  - apply IH. destruct (decide (id = server_id m)) as [->|Hne];
      [by rewrite lookup_insert_eq|by rewrite lookup_insert_ne].
Qed.

Lemma reserve_frame ctx p :
  preserves same_acks (reserve_idempotency fault cfg ctx p)
  /\ preserves same_wal (reserve_idempotency fault cfg ctx p)
  /\ preserves same_data (reserve_idempotency fault cfg ctx p).
Proof.
  unfold reserve_idempotency, reserve_server_id, is_new_by_client_msg_id, is_new.
  split; [|split]; walk; done.
Qed.

Lemma release_frame ctx r :
  preserves same_acks (release_idempotency_reservation fault cfg ctx r)
  /\ preserves same_wal (release_idempotency_reservation fault cfg ctx r)
  /\ preserves same_data (release_idempotency_reservation fault cfg ctx r).
Proof.
  unfold release_idempotency_reservation, release_by_client_msg_id, release.
  split; [|split]; walk; done.
Qed.

Lemma bindings_frame R `{!StoreRel R} ms :
  (forall s b, R s (with_bindings s b)) -> preserves R (register_plugin_entity_bindings fault cfg ms).
Proof.
  intros Hb. unfold register_plugin_entity_bindings. destruct (negb _); [walk|].
  generalize (distinct_ids (omap (fun m => match prepared_tenant_id m with
                                            | Ok t => Some t | Err _ => None end) ms)).
  intros ts. induction ts as [|t ts IH]; cbn [foldr]; walk; [apply Hb|exact IH].
Qed.

Lemma archive_frame R `{!StoreRel R} ms :
  (forall s, R s (with_archive s (archive_all original_of (archive s) ms).2)) ->
  preserves R (archive_messages fault original_of ms).
Proof.
  intros Ha. unfold archive_messages. walk. specialize (Ha s).
  by destruct (archive_all original_of (archive s) ms).
Qed.

Lemma durable_archive s ms : durable s (with_archive s (archive_all original_of (archive s) ms).2).
Proof. split; [intros id; apply archive_all_grows|done]. Qed.

Lemma durable_stream s es : durable s (with_stream s (stream s ++ es)).
Proof. split; [done|]. by apply prefix_app_r. Qed.

Lemma persist_frame p :
  preserves same_acks (persist_message fault cfg original_of p)
  /\ preserves same_wal (persist_message fault cfg original_of p)
  /\ preserves same_claims (persist_message fault cfg original_of p)
  /\ preserves durable (persist_message fault cfg original_of p).
Proof.
  unfold persist_message, append_events_to_stream, store_hot.
  split; [|split; [|split]]; walk;
    try (apply archive_frame; [exact _|intros; first [done|apply durable_archive]]);
    try (apply bindings_frame; [exact _|done]); try done.
  apply durable_stream.
Qed.

Lemma ack_frame tenant r :
  preserves same_wal (publish_ack_and_record fault cfg tenant r)
  /\ preserves same_claims (publish_ack_and_record fault cfg tenant r)
  /\ preserves same_data (publish_ack_and_record fault cfg tenant r).
Proof.
  unfold publish_ack_and_record, publish_ack, record_write_stage.
  split; [|split]; walk; done.
Qed.

Lemma finish_frame tenant id :
  preserves same_acks (finish_wal fault cfg tenant id)
  /\ preserves same_claims (finish_wal fault cfg tenant id)
  /\ preserves same_data (finish_wal fault cfg tenant id).
Proof. unfold finish_wal, cleanup_wal, record_write_stage. split; [|split]; walk; done. Qed.

(** Acknowledging appends at most one acknowledgement, one when it succeeds. *)
Lemma ack_effect tenant r s o s' :
  publish_ack_and_record fault cfg tenant r s = (o, s') ->
  (acks s' = acks s /\ is_ok o = false)
  \/ acks s' = acks s ++ [mkAck (res_message_id r) (res_conversation_id r) (deduplicated r)].
Proof.
  unfold publish_ack_and_record, on_result. intros Hrun.
  assert (Hrec : preserves same_acks (record_write_stage fault cfg tenant (res_message_id r) AckPublishFailed))
    by (unfold record_write_stage; walk; done).
  unfold publish_ack in Hrun. destruct (negb (has_ack cfg)).
  - left. unfold lift_r at 1 in Hrun. unfold mbind, stE_bind, lift_r in Hrun. specialize (Hrec s).
    destruct (record_write_stage _ _ _ _ _ s) as [[[]|] s2]; injection Hrun as <- <-; done.
  - unfold call in Hrun. destruct (fault KAck (tick s)).
    + right. by injection Hrun as <- <-.
    + left. unfold mbind, stE_bind, lift_r in Hrun. specialize (Hrec (tick_store s)).
      destruct (record_write_stage _ _ _ _ _ (tick_store s)) as [[[]|] s2]; injection Hrun as <- <-; done.
    + right. unfold mbind, stE_bind, lift_r in Hrun. simpl in Hrun.
      match type of Hrun with context [record_write_stage _ _ _ _ _ ?x] =>
        specialize (Hrec x); destruct (record_write_stage _ _ _ _ _ x) as [[[]|] s2] end;
      injection Hrun as <- <-; done.
Qed.

(** A successful write that was no second send is in the archive and the stream. *)
Lemma persist_ok_stored p s outcome s' :
  has_archive cfg = true -> message_id p = server_id (message p) ->
  persist_message fault cfg original_of p s = (Ok outcome, s') ->
  (is_duplicate outcome (message_id p) = true
   /\ is_Some (original_of (archive s) (message p)) /\ archive s' = archive s)
  \/ (is_duplicate outcome (message_id p) = false
      /\ is_Some (archive s' !! message_id p)
      /\ exists ev, ev ∈ stream s' /\ st_message ev = message p).
Proof.
  intros Har Hid Hrun. unfold persist_message in Hrun. rewrite Har in Hrun.
  apply stE_bind_ok in Hrun as (out & s1 & Ha & Hrun).
  assert (Hout : archive s1 = (archive_all original_of (archive s) [message p]).2
                 /\ out = (archive_all original_of (archive s) [message p]).1).
  { unfold archive_messages, call in Ha. destruct (fault KArchive (tick s)); [|done..].
    simpl in *. destruct (original_of (archive s) (message p)); by injection Ha as <- <-. }
  simpl in Hout. rewrite Hid in *.
  destruct (original_of (archive s) (message p)) as [o|] eqn:Ho; simpl in Hout; destruct Hout as [Ha1 ->].
  - left. unfold is_duplicate in *. simpl in Hrun. rewrite bool_decide_eq_true_2 in Hrun by set_solver.
    simpl in Hrun. injection Hrun as <- <-. rewrite bool_decide_eq_true_2 by set_solver. eauto.
  - right. simpl in Hrun. apply stE_bind_ok in Hrun as ([] & s2 & Hb & Hrun).
    assert (Hd2 : durable s1 s2).
    { change s2 with (Ok (A := unit) (), s2).2. rewrite <- Hb. apply bindings_frame; [exact _|done]. }
    destruct (negb (has_stream cfg)); [done|]. rewrite stE_lift_bind in Hrun.
    unfold build_event_message in Hrun. destruct (prepared_tenant_id (message p)) as [t|]; [simpl in Hrun|done].
    apply stE_bind_ok in Hrun as ([] & s3 & Hs & Hrun).
    apply stE_bind_ok in Hrun as ([] & s4 & Hh & Hrun). injection Hrun as <- <-.
    assert (Hs3 : s3 = with_stream (tick_store s2) (stream s2 ++
        [mkStream t (conversation_id (message p)) (conversation_seq (message p)) (message p)])).
    { unfold append_events_to_stream, call in Hs. destruct (fault KStream (tick s2)); [|done..].
      by injection Hs as <-. }
    assert (Hd4 : durable s3 s4).
    { change s4 with (Ok (A := unit) (), s4).2. rewrite <- Hh. unfold store_hot.
      destruct (negb _); [apply store_rel_refl|]. apply preserves_ignore, preserves_call; [exact _|done]. }
    split; [done|]. split.
    + destruct Hd4 as [Hd4 _], Hd2 as [Hd2 _]. apply Hd4. rewrite Hs3. simpl. apply Hd2.
      rewrite Ha1. by rewrite lookup_insert_eq.
    + destruct Hd4 as [_ [l Hl]]. rewrite Hl, Hs3. simpl. eexists. split; [|].
      * apply elem_of_app. left. apply elem_of_app. right. by apply list_elem_of_singleton.
      * done.
Qed.
End Frames.

(** ** One message *)

Section Single.
Context (fault : Kind -> nat -> Fault) (cfg : Config).
Context (original_of : gmap string Message -> Message -> option string).

Abbreviation ensure := (ensure_consistency fault cfg original_of).
Abbreviation reserve := (reserve_idempotency fault cfg).
Abbreviation persist := (persist_message fault cfg original_of).
Abbreviation ack := (publish_ack_and_record fault cfg).

Definition counted (s : Store) (tenant : string) (dup : bool) : Store :=
  if dup then s else with_usage s (<[tenant := default 0 (usage s !! tenant) + 1]> (usage s)).

(** The runs of [ensure_consistency]. *)
Inductive ensure_run (ctx : Ctx) (p : PreparedMessage) (s : Store)
    : result PersistenceResult -> Store -> Prop :=
  | run_unprepared e : ensure_run ctx p s (Err e) s
  | run_unclaimed e s1 : reserve ctx p s = (Err e, s1) -> ensure_run ctx p s (Err e) s1
  | run_repeated t d s1 o s2 r :
      reserve ctx p s = (Ok d, s1) -> decision_new d = false ->
      ack t (result_of p true) s1 = (o, s2) ->
      r = match o with Ok _ => Ok (result_of p true) | Err e => Err e end ->
      ensure_run ctx p s r s2
  | run_failed d s1 e s2 s3 :
      reserve ctx p s = (Ok d, s1) -> decision_new d = true -> persist p s1 = (Err e, s2) ->
      s3 = (release_idempotency_reservation fault cfg ctx (reservation d) s2).2 ->
      ensure_run ctx p s (Err e) s3
  | run_unacked t d s1 outcome s2 e s4 :
      reserve ctx p s = (Ok d, s1) -> decision_new d = true -> persist p s1 = (Ok outcome, s2) ->
      ack t (result_of p (is_duplicate outcome (message_id p)))
        (counted s2 t (is_duplicate outcome (message_id p))) = (Err e, s4) ->
      ensure_run ctx p s (Err e) s4
  | run_done t d s1 outcome s2 s4 s5 :
      prepared_tenant_id (message p) = Ok t ->
      reserve ctx p s = (Ok d, s1) -> decision_new d = true -> persist p s1 = (Ok outcome, s2) ->
      ack t (result_of p (is_duplicate outcome (message_id p)))
        (counted s2 t (is_duplicate outcome (message_id p))) = (Ok (), s4) ->
      s5 = (finish_wal fault cfg t (message_id p) s4).2 ->
      ensure_run ctx p s (Ok (result_of p (is_duplicate outcome (message_id p)))) s5.

Lemma finish_ok t id s : exists s', finish_wal fault cfg t id s = (Ok (), s').
Proof.
  unfold finish_wal, cleanup_wal, mbind, stE_bind, on_result.
  destruct (negb (has_wal cfg)); [by eexists|].
  destruct (call fault KWal _ _ s) as [[[]|e] s1]; [by eexists|].
  unfold mret, stE_ret, record_write_stage. destruct (negb (has_ledger cfg)); by eexists.
Qed.

Lemma release_ok ctx r s : exists s', release_idempotency_reservation fault cfg ctx r s = (Ok (), s').
Proof. unfold release_idempotency_reservation. destruct (negb _); by eexists. Qed.

Lemma count_run t s outcome id :
  (if is_duplicate outcome id then mret () else count_usage t : stE Store unit) s
  = (Ok (), counted s t (is_duplicate outcome id)).
Proof. by destruct (is_duplicate outcome id). Qed.

Lemma ensure_runs ctx p s r s' : ensure ctx p s = (r, s') -> ensure_run ctx p s r s'.
Proof.
  unfold ensure_consistency. rewrite stE_lift_bind.
  destruct (prepared_tenant_id (message p)) as [t|e] eqn:Ht; [|intros [= <- <-]; by constructor].
  rewrite stE_bind_run.
  destruct (reserve ctx p s) as [[d|e] s1] eqn:Hr; [|intros [= <- <-]; by eapply run_unclaimed].
  destruct (decision_new d) eqn:Hn; cbn [negb].
  - rewrite stE_bind_run, on_result_run. destruct (persist p s1) as [[outcome|e] s2] eqn:Hp.
    + change ((mret outcome : stE Store ArchiveOutcome) s2) with (Ok (A := ArchiveOutcome) outcome, s2).
      cbv beta iota zeta. rewrite stE_bind_run, count_run, stE_bind_run.
      destruct (ack t _ _) as [[[]|e] s4] eqn:Ha; [|intros [= <- <-]; by eapply run_unacked].
      rewrite stE_bind_run. destruct (finish_ok t (message_id p) s4) as [s5 Hf].
      rewrite Hf. intros [= <- <-]. eapply run_done; eauto. by rewrite Hf.
    + rewrite stE_bind_run. destruct (release_ok ctx (reservation d) s2) as [s3 Hrel].
      rewrite Hrel. intros [= <- <-]. eapply run_failed; eauto. by rewrite Hrel.
  - cbv zeta. rewrite stE_bind_run.
    destruct (ack t (result_of p true) s1) as [[[]|e] s2] eqn:Ha; intros [= <- <-];
      by eapply run_repeated.
Qed.

(** After a successful write the data is there when the acknowledgement goes out. *)
Lemma durable_after_ack t p outcome s1 s2 o s4 :
  has_archive cfg = true -> message_id p = server_id (message p) ->
  persist p s1 = (Ok outcome, s2) ->
  ack t (result_of p (is_duplicate outcome (message_id p)))
    (counted s2 t (is_duplicate outcome (message_id p))) = (o, s4) ->
  is_duplicate outcome (message_id p) = false ->
  is_Some (archive s4 !! message_id p) /\ exists ev, ev ∈ stream s4 /\ st_message ev = message p.
Proof.
  intros Har Hid Hp Ha Hd.
  destruct (ack_frame fault cfg t (result_of p (is_duplicate outcome (message_id p)))) as (_ & _ & Hf).
  specialize (Hf (counted s2 t (is_duplicate outcome (message_id p)))). rewrite Ha in Hf.
  simpl in Hf. destruct Hf as (-> & -> & _). rewrite Hd. simpl.
  apply persist_ok_stored in Hp as [(Hd' & _)|(_ & H1 & H2)]; [congruence|done|done|done].
Qed.

(** C3. An acknowledgement is never early: whatever faults occur, a write
    acknowledges a message at most once, and when it is acknowledged as
    persisted (not as a duplicate), the message is in the archive and its event
    in the stream that readers synchronize from. *)
Theorem acknowledged_means_durable (ctx : Ctx) (p : PreparedMessage) (s s' : Store)
    (r : result PersistenceResult)
    (Har : has_archive cfg = true) (Hid : message_id p = server_id (message p))
    (Hrun : ensure ctx p s = (r, s')) :
  acks s' = acks s
  \/ exists dup, acks s' = acks s ++ [mkAck (message_id p) (prep_conversation_id p) dup]
       /\ (dup = false -> is_Some (archive s' !! message_id p)
                          /\ exists ev, ev ∈ stream s' /\ st_message ev = message p).
Proof.
  apply ensure_runs in Hrun.
  destruct (reserve_frame fault cfg ctx p) as (Hra & _ & _). specialize (Hra s).
  destruct (persist_frame fault cfg original_of p) as (Hpa & _ & _ & _).
  destruct Hrun as [e|e s1 Hr|t d s1 o s2 r Hr Hn Ha _|d s1 e s2 s3 Hr Hn Hp ->
    |t d s1 outcome s2 e s4 Hr Hn Hp Ha|t d s1 outcome s2 s4 s5 Ht Hr Hn Hp Ha ->].
  - by left.
  - rewrite Hr in Hra. by left.
  - rewrite Hr in Hra. simpl in Hra. unfold same_acks in Hra. rewrite <- Hra.
    apply ack_effect in Ha as [[-> _]| ->]; [by left|]. right. by exists true.
  - left. rewrite Hr in Hra. specialize (Hpa s1). rewrite Hp in Hpa. simpl in *. unfold same_acks in *.
    rewrite (proj1 (release_frame fault cfg ctx (reservation d)) s2), Hpa. done.
  - rewrite Hr in Hra. specialize (Hpa s1). rewrite Hp in Hpa. simpl in *. unfold same_acks in *.
    assert (Hc : acks (counted s2 t (is_duplicate outcome (message_id p))) = acks s)
      by (rewrite <- Hra, <- Hpa; by destruct (is_duplicate _ _)).
    pose proof (durable_after_ack t p outcome s1 s2 (Err e) s4 Har Hid Hp Ha) as Hd.
    apply ack_effect in Ha as [[-> _]| ->]; rewrite Hc; [by left|]. right. eexists. split; [done|]. done.
  - rewrite Hr in Hra. specialize (Hpa s1). rewrite Hp in Hpa. simpl in *. unfold same_acks in *.
    assert (Hc : acks (counted s2 t (is_duplicate outcome (message_id p))) = acks s)
      by (rewrite <- Hra, <- Hpa; by destruct (is_duplicate _ _)).
    pose proof (durable_after_ack t p outcome s1 s2 (Ok ()) s4 Har Hid Hp Ha) as Hd.
    destruct (finish_frame fault cfg t (message_id p)) as (Hfa & _ & Hfd).
    specialize (Hfa s4). specialize (Hfd s4). unfold same_acks, same_data in *.
    destruct Hfd as (-> & -> & _). rewrite Hfa.
    apply ack_effect in Ha as [[_ ?]| ->]; [done|]. rewrite Hc. right. eexists. split; [done|]. done.
Qed.

(** The sender's log entry outlives the acknowledgement: a write removes a WAL
    entry only after it acknowledged the message, and the message is by then
    stored or a second send of a stored one. *)
Theorem wal_is_cleaned_after_the_acknowledgement (ctx : Ctx) (p : PreparedMessage) (s s' : Store)
    (r : result PersistenceResult)
    (Har : has_archive cfg = true) (Hid : message_id p = server_id (message p))
    (Hrun : ensure ctx p s = (r, s')) (Hwal : wal s' <> wal s) :
  is_ok r = true
  /\ exists dup, mkAck (message_id p) (prep_conversation_id p) dup ∈ acks s'
       /\ (is_Some (archive s' !! message_id p) \/ is_Some (original_of (archive s') (message p))).
Proof.
  apply ensure_runs in Hrun.
  destruct (reserve_frame fault cfg ctx p) as (_ & Hrw & _). specialize (Hrw s).
  destruct (persist_frame fault cfg original_of p) as (_ & Hpw & _ & _).
  destruct Hrun as [e|e s1 Hr|t d s1 o s2 r Hr Hn Ha _|d s1 e s2 s3 Hr Hn Hp ->
    |t d s1 outcome s2 e s4 Hr Hn Hp Ha|t d s1 outcome s2 s4 s5 Ht Hr Hn Hp Ha ->].
  - done.
  - by rewrite Hr in Hrw.
  - rewrite Hr in Hrw. destruct (ack_frame fault cfg t (result_of p true)) as (Haw & _).
    specialize (Haw s1). rewrite Ha in Haw. simpl in *. unfold same_wal in *. congruence.
  - rewrite Hr in Hrw. specialize (Hpw s1). rewrite Hp in Hpw. simpl in *. unfold same_wal in *.
    pose proof (proj1 (proj2 (release_frame fault cfg ctx (reservation d))) s2) as Hrel.
    unfold same_wal in Hrel. congruence.
  - exfalso. apply Hwal. rewrite Hr in Hrw. specialize (Hpw s1). rewrite Hp in Hpw.
    destruct (ack_frame fault cfg t (result_of p (is_duplicate outcome (message_id p)))) as (Haw & _).
    specialize (Haw (counted s2 t (is_duplicate outcome (message_id p)))). rewrite Ha in Haw.
    simpl in *. unfold same_wal in *. rewrite Haw.
    replace (wal (counted _ _ _)) with (wal s2) by (by destruct (is_duplicate _ _)). congruence.
  - split; [done|]. exists (is_duplicate outcome (message_id p)).
    destruct (finish_frame fault cfg t (message_id p)) as (Hfa & _ & Hfd).
    specialize (Hfa s4). specialize (Hfd s4). destruct Hfd as (-> & _ & _).
    destruct (ack_frame fault cfg t (result_of p (is_duplicate outcome (message_id p)))) as (_ & _ & Had).
    specialize (Had (counted s2 t (is_duplicate outcome (message_id p)))). rewrite Ha in Had.
    destruct Had as (Had & _ & _). simpl in Had.
    apply ack_effect in Ha as [[_ ?]|Hacks]; [done|]. unfold same_acks in Hfa. split.
    + rewrite Hfa, Hacks. apply elem_of_app. right. by apply list_elem_of_singleton.
    + rewrite Had. replace (archive (counted _ _ _)) with (archive s2) by (by destruct (is_duplicate _ _)).
      apply persist_ok_stored in Hp as [(_ & Ho & Hs)|(_ & Hs & _)]; [|by left|done|done].
      right. by rewrite Hs.
Qed.

(** Acknowledging a successful write keeps its claim and its message. *)
Lemma ack_keeps_claims t p outcome s1 s2 o s4 :
  has_archive cfg = true -> message_id p = server_id (message p) ->
  persist p s1 = (Ok outcome, s2) ->
  ack t (result_of p (is_duplicate outcome (message_id p)))
    (counted s2 t (is_duplicate outcome (message_id p))) = (o, s4) ->
  claims s4 = claims s1
  /\ (is_Some (archive s4 !! message_id p) \/ is_Some (original_of (archive s4) (message p))).
Proof.
  intros Har Hid Hp Ha.
  destruct (persist_frame fault cfg original_of p) as (_ & _ & Hpc & _).
  destruct (ack_frame fault cfg t (result_of p (is_duplicate outcome (message_id p)))) as (_ & Hac & Had).
  specialize (Hac (counted s2 t (is_duplicate outcome (message_id p)))).
  specialize (Had (counted s2 t (is_duplicate outcome (message_id p)))). rewrite Ha in Hac, Had.
  destruct Had as (Had & _ & _). specialize (Hpc s1). rewrite Hp in Hpc.
  simpl in *. unfold same_claims in *. rewrite Hac, Had.
  replace (claims (counted _ _ _)) with (claims s2) by (by destruct (is_duplicate _ _)).
  replace (archive (counted _ _ _)) with (archive s2) by (by destruct (is_duplicate _ _)).
  split; [done|].
  apply persist_ok_stored in Hp as [(_ & Ho & Hs)|(_ & Hs & _)]; [|by left|done|done].
  right. by rewrite Hs.
Qed.

(** *** Claims *)

Lemma is_new_effect ctx id s r s1 :
  (forall n, fault KReserve n <> FaultAfter) -> is_new fault ctx id s = (r, s1) ->
  (is_ok r = false /\ claims s1 = claims s)
  \/ exists key, message_key ctx id = Ok key
       /\ ((r = Ok true /\ key ∉ claims s /\ claims s1 = {[key]} ∪ claims s)
           \/ (r = Ok false /\ key ∈ claims s /\ claims s1 = claims s)).
Proof.
  intros Hf. unfold is_new. rewrite stE_lift_bind.
  destruct (message_key ctx id) as [key|e]; [|intros [= <- <-]; by left].
  unfold call. specialize (Hf (tick s)). destruct (fault KReserve (tick s)); [|intros [= <- <-]; by left|done].
  intros [= <- <-]. right. exists key. split; [done|]. simpl.
  destruct (decide (key ∈ claims s)) as [Hin|Hin].
  - right. rewrite bool_decide_eq_false_2 by tauto. split; [done|]. split; [done|set_solver].
  - left. by rewrite bool_decide_eq_true_2.
Qed.

Lemma release_effect ctx id key s :
  (forall n, fault KRelease n <> FaultBefore) -> id <> "" -> message_key ctx id = Ok key ->
  claims (release fault ctx id s).2 = claims s ∖ {[key]}.
Proof.
  intros Hf Hid Hk. unfold release. apply Str.is_empty_false in Hid. rewrite Hid, stE_lift_bind, Hk.
  unfold call. specialize (Hf (tick s)). by destruct (fault KRelease (tick s)).
Qed.

Lemma scoped_key_blank ctx client sender conv :
  scoped_client_idempotency_key ctx client (Some sender) (Some conv)
  = scoped_client_idempotency_key ctx client (non_empty sender) (non_empty conv).
Proof.
  assert (H : forall x, not_blank (Some x) = not_blank (non_empty x)).
  { intros x. unfold non_empty. destruct (Str.is_empty x) eqn:E; [|done].
    apply Str.is_empty_true in E. by subst. }
  unfold scoped_client_idempotency_key. by rewrite !H.
Qed.

Lemma scoped_key_nonempty ctx client sender conv key :
  scoped_client_idempotency_key ctx client sender conv = Ok key -> key <> "".
Proof.
  unfold scoped_client_idempotency_key.
  destruct (normalize_optional_tenant_id (ctx_tenant_id ctx)); simpl; [|done]. by intros [= <-].
Qed.

(** A fresh claim adds one key, which releasing it takes away again. *)
Definition fresh_claim (ctx : Ctx) (d : IdempotencyDecision) (s s1 : Store) : Prop :=
  exists key, key ∉ claims s /\ claims s1 = {[key]} ∪ claims s
    /\ forall s2, claims s2 = claims s1 ->
         claims (release_idempotency_reservation fault cfg ctx (reservation d) s2).2 = claims s.

Section Clean.
Context (Hres : forall n, fault KReserve n <> FaultAfter).
Context (Hrel : forall n, fault KRelease n <> FaultBefore).

Lemma reserve_server_effect ctx p s r s1 :
  has_idempotency cfg = true -> message_id p <> "" ->
  reserve_server_id fault ctx p s = (r, s1) ->
  (claims s1 = claims s /\ forall d, r = Ok d -> decision_new d = false)
  \/ exists d, r = Ok d /\ decision_new d = true /\ fresh_claim ctx d s s1.
Proof.
  intros Hcfg Hid. unfold reserve_server_id. rewrite on_result_run.
  destruct (is_new fault ctx (message_id p) s) as [o s1'] eqn:Hn.
  apply is_new_effect in Hn as [[He Hc]|(key & Hk & [(-> & Hin & Hc)|(-> & _ & Hc)])]; [| | |done].
  - destruct o as [|e]; [done|]. intros [= <- <-]. by left.
  - intros [= <- <-]. right. eexists. split; [done|]. split; [done|]. exists key.
    split; [done|]. split; [done|]. intros s2 Hs2. unfold release_idempotency_reservation.
    rewrite Hcfg. simpl. rewrite (release_effect ctx _ key s2) by done. rewrite Hs2, Hc. set_solver.
  - intros [= <- <-]. left. split; [done|]. by intros d [= <-].
Qed.

Lemma reserve_effect ctx p s r s1 :
  has_idempotency cfg = true -> message_id p <> "" -> reserve ctx p s = (r, s1) ->
  (claims s1 = claims s /\ forall d, r = Ok d -> decision_new d = false)
  \/ exists d, r = Ok d /\ decision_new d = true /\ fresh_claim ctx d s s1.
Proof.
  intros Hcfg Hid. unfold reserve_idempotency. rewrite Hcfg. simpl.
  destruct (Str.is_empty (client_msg_id (message p))) eqn:Hcl; simpl; [by apply reserve_server_effect|].
  rewrite on_result_run. unfold is_new_by_client_msg_id. rewrite Hcl, stE_lift_bind.
  destruct (scoped_client_idempotency_key ctx (client_msg_id (message p)) (Some (sender_id (message p)))
              (Some (prep_conversation_id p))) as [sk|e] eqn:Hsk; [|by apply reserve_server_effect].
  destruct (is_new fault ctx sk s) as [o s1'] eqn:Hn.
  apply is_new_effect in Hn as [[He Hc]|(key & Hk & [(-> & Hin & Hc)|(-> & _ & Hc)])]; [| | |done].
  - destruct o as [|e]; [done|]. intros Hsrv. apply reserve_server_effect in Hsrv; [|done..].
    destruct Hsrv as [[Hc1 Hd]|(d & -> & Hd & key & Hin & Hc1 & Hback)].
    + left. split; [congruence|done].
    + right. exists d. do 2 (split; [done|]). exists key. rewrite <- Hc. done.
  - intros [= <- <-]. right. eexists. split; [done|]. split; [done|]. exists key.
    split; [done|]. split; [done|]. intros s2 Hs2. unfold release_idempotency_reservation.
    rewrite Hcfg. simpl. unfold release_by_client_msg_id.
    rewrite Hcl, stE_lift_bind, <- scoped_key_blank, Hsk.
    rewrite (release_effect ctx sk key s2) by eauto using scoped_key_nonempty.
    rewrite Hs2, Hc. set_solver.
  - intros [= <- <-]. left. split; [done|]. by intros d [= <-].
Qed.

(** C4. A claim is never held for a message that was not stored: as long as claims
    are taken and given back reliably, a write either leaves the claims as they
    were, so a redelivery is written again, or it keeps one new claim and the
    message is stored (or is a second send of a stored one), whatever else
    fails. *)
Theorem claims_are_kept_only_for_stored_messages (ctx : Ctx) (p : PreparedMessage) (s s' : Store)
    (r : result PersistenceResult)
    (Hcfg : has_idempotency cfg = true) (Har : has_archive cfg = true)
    (Hid : message_id p = server_id (message p)) (Hne : message_id p <> "")
    (Hrun : ensure ctx p s = (r, s')) :
  claims s' = claims s
  \/ exists key, claims s' = {[key]} ∪ claims s
       /\ (is_Some (archive s' !! message_id p) \/ is_Some (original_of (archive s') (message p))).
Proof.
  apply ensure_runs in Hrun.
  destruct (persist_frame fault cfg original_of p) as (_ & _ & Hpc & _).
  destruct Hrun as [e|e s1 Hr|t d s1 o s2 r Hr Hn Ha _|d s1 e s2 s3 Hr Hn Hp ->
    |t d s1 outcome s2 e s4 Hr Hn Hp Ha|t d s1 outcome s2 s4 s5 Ht Hr Hn Hp Ha ->];
    [by left|apply reserve_effect in Hr; [|done..]..].
  - destruct Hr as [[? _]|(? & ? & _)]; [by left|done].
  - destruct Hr as [[Hc _]|(d' & [= <-] & Hd & _)]; [|congruence]. left.
    destruct (ack_frame fault cfg t (result_of p true)) as (_ & Hac & _). specialize (Hac s1).
    rewrite Ha in Hac. simpl in Hac. unfold same_claims in Hac. congruence.
  - destruct Hr as [[_ Hc]|(d' & [= <-] & Hd & key & Hin & Hc & Hback)].
    { by rewrite (Hc d eq_refl) in Hn. }
    left. apply Hback. specialize (Hpc s1). by rewrite Hp in Hpc.
  - destruct Hr as [[_ Hc]|(d' & [= <-] & Hd & key & Hin & Hc & Hback)].
    { by rewrite (Hc d eq_refl) in Hn. }
    right. exists key. destruct (ack_keeps_claims _ _ _ _ _ _ _ Har Hid Hp Ha) as [-> Hst]. done.
  - destruct Hr as [[_ Hc]|(d' & [= <-] & Hd & key & Hin & Hc & Hback)].
    { by rewrite (Hc d eq_refl) in Hn. }
    right. exists key. destruct (ack_keeps_claims _ _ _ _ _ _ _ Har Hid Hp Ha) as [Hcl Hst].
    destruct (finish_frame fault cfg t (message_id p)) as (_ & Hfc & Hfd).
    specialize (Hfc s4). specialize (Hfd s4). destruct Hfd as (-> & _ & _).
    unfold same_claims in Hfc. rewrite Hfc, Hcl. done.
Qed.
End Clean.

(** *** Redelivery *)

(** The key a message is claimed under. *)
Definition claim_key_of (ctx : Ctx) (p : PreparedMessage) : result string :=
  if Str.is_empty (client_msg_id (message p)) then message_key ctx (message_id p)
  else
    match sk ← scoped_client_idempotency_key ctx (client_msg_id (message p))
                 (Some (sender_id (message p))) (Some (prep_conversation_id p));
          message_key ctx sk with
    | Ok key => Ok key
    | Err _ => message_key ctx (message_id p)
    end.

Lemma reserve_server_clean ctx p s :
  (forall n, fault KReserve n = FaultNone) ->
  match message_key ctx (message_id p) with
  | Err _ => exists e, reserve_server_id fault ctx p s = (Err e, s)
  | Ok key => exists d s1, reserve_server_id fault ctx p s = (Ok d, s1)
        /\ claims s1 = {[key]} ∪ claims s /\ (key ∈ claims s -> decision_new d = false)
  end.
Proof.
  intros Hf. unfold reserve_server_id. rewrite on_result_run. unfold is_new. rewrite stE_lift_bind.
  destruct (message_key ctx (message_id p)) as [key|e]; [|by eexists].
  unfold call. rewrite Hf. do 2 eexists. split; [done|]. split; [done|].
  intros Hin. simpl. by rewrite bool_decide_eq_false_2 by tauto.
Qed.

Lemma reserve_clean ctx p s :
  (forall n, fault KReserve n = FaultNone) -> has_idempotency cfg = true ->
  match claim_key_of ctx p with
  | Err _ => exists e, reserve ctx p s = (Err e, s)
  | Ok key => exists d s1, reserve ctx p s = (Ok d, s1)
        /\ claims s1 = {[key]} ∪ claims s /\ (key ∈ claims s -> decision_new d = false)
  end.
Proof.
  intros Hf Hcfg. unfold reserve_idempotency, claim_key_of. rewrite Hcfg. simpl.
  destruct (Str.is_empty (client_msg_id (message p))) eqn:Hcl; simpl; [by apply reserve_server_clean|].
  rewrite on_result_run. unfold is_new_by_client_msg_id. rewrite Hcl, stE_lift_bind.
  destruct (scoped_client_idempotency_key _ _ _ _) as [sk|e]; simpl; [|by apply reserve_server_clean].
  unfold is_new. rewrite stE_lift_bind.
  destruct (message_key ctx sk) as [key|e]; [|by apply reserve_server_clean].
  unfold call. rewrite Hf. do 2 eexists. split; [done|]. split; [done|].
  intros Hin. simpl. by rewrite bool_decide_eq_false_2 by tauto.
Qed.

(** A successful write ends with the claims its reservation left. *)
Lemma ensure_ok_claims ctx p s d s1 r s' :
  reserve ctx p s = (Ok d, s1) -> ensure ctx p s = (Ok r, s') -> claims s' = claims s1.
Proof.
  intros Hr1 Hrun. apply ensure_runs in Hrun.
  destruct (persist_frame fault cfg original_of p) as (_ & _ & Hpc & _).
  inversion Hrun as [| |t x s0 o s0' r' Hr Hn Ha Hres| | |t x s0 outcome s0' s4 s5 Ht Hr Hn Hp Ha Hs];
    subst; rewrite Hr1 in Hr; injection Hr as <- <-.
  - destruct (ack_frame fault cfg t (result_of p true)) as (_ & Hac & _). specialize (Hac s1).
    by rewrite Ha in Hac.
  - destruct (finish_frame fault cfg t (message_id p)) as (_ & Hfc & _). specialize (Hfc s4).
    destruct (ack_frame fault cfg t (result_of p (is_duplicate outcome (message_id p)))) as (_ & Hac & _).
    specialize (Hac (counted s0' t (is_duplicate outcome (message_id p)))). rewrite Ha in Hac.
    specialize (Hpc s1). rewrite Hp in Hpc. simpl in *. unfold same_claims in *.
    rewrite Hfc, Hac, <- Hpc. by destruct (is_duplicate _ _).
Qed.

(** A message is written once: after a write of it succeeded, every later
    delivery of the same message, as long as its claim is kept, changes neither
    the archive nor the stream nor the usage count, and what it acknowledges it
    acknowledges as a duplicate. *)
Theorem redelivery_writes_nothing (ctx : Ctx) (p : PreparedMessage) (s s' s2 s3 : Store)
    (r1 : PersistenceResult) (r2 : result PersistenceResult)
    (Hf : forall n, fault KReserve n = FaultNone)
    (Hcfg : has_idempotency cfg = true)
    (Hfirst : ensure ctx p s = (Ok r1, s'))
    (Hkept : claims s' ⊆ claims s2)
    (Hagain : ensure ctx p s2 = (r2, s3)) :
  archive s3 = archive s2 /\ stream s3 = stream s2 /\ usage s3 = usage s2
  /\ match r2 with Ok r => deduplicated r = true | Err _ => True end.
Proof.
  pose proof (reserve_clean ctx p s Hf Hcfg) as H1.
  destruct (claim_key_of ctx p) as [key|e] eqn:Hk.
  2: { destruct H1 as [e' He]. apply ensure_runs in Hfirst. inversion Hfirst; congruence. }
  destruct H1 as (d & s1 & Hr1 & Hc1 & _).
  assert (Hin : key ∈ claims s').
  { rewrite (ensure_ok_claims ctx p s d s1 r1 s' Hr1 Hfirst), Hc1. set_solver. }
  pose proof (reserve_clean ctx p s2 Hf Hcfg) as H2. rewrite Hk in H2.
  destruct H2 as (d2 & s21 & Hr2 & _ & Hdup).
  assert (Hold : decision_new d2 = false) by (apply Hdup; set_solver).
  destruct (reserve_frame fault cfg ctx p) as (_ & _ & Hrd). specialize (Hrd s2). rewrite Hr2 in Hrd.
  destruct Hrd as (Hra & Hrs & Hru). simpl in *.
  apply ensure_runs in Hagain.
  destruct Hagain as [e|e s0 Hr|t x s0 o s0' r Hr Hn Ha ->|x s0 e s0' s0'' Hr Hn _ _
    |t x s0 outcome s0' e s4 Hr Hn _ _|t x s0 outcome s0' s4 s5 _ Hr Hn _ _ _];
    [done|congruence|rewrite Hr2 in Hr; injection Hr as <- <-; try congruence..].
  destruct (ack_frame fault cfg t (result_of p true)) as (_ & _ & Had). specialize (Had s21).
  rewrite Ha in Had. destruct Had as (Ha1 & Ha2 & Ha3). simpl in *.
  split; [congruence|]. split; [congruence|]. split; [congruence|]. by destruct o.
Qed.
End Single.

(** ** Preparing and batching *)

(** The envelope decides the tenant: whatever tenant attributes the sender put
    into the message body, the prepared message declares the envelope's tenant
    and no other, it has a server id, a status past [Created] and no broken
    retention policy. *)
Theorem prepared_message_is_pinned (extract_timeline : gmap string string -> Z -> Timeline) (now : Z)
    (c : ProcessStoreMessageCommand) (p : PreparedMessage)
    (Hok : prepare_message extract_timeline now c = Ok p) :
  exists t, normalize_optional_tenant_id (cmd_tenant c) = Some t
    /\ attributes (message p) !! "tenant_id" = Some t
    /\ (forall v, attributes (message p) !! "x-tenant-id" = Some v -> v = t)
    /\ message_id p = server_id (message p) /\ message_id p <> ""
    /\ status (message p) <> Some Created /\ status (message p) <> Some StatusUnspecified
    /\ bad_retention (message p) = false.
Proof.
  unfold prepare_message in Hok.
  destruct (cmd_message c) as [m|]; [simpl in Hok|by destruct (Str.is_empty _)].
  destruct (normalize_optional_tenant_id (cmd_tenant c)) as [t|]; [simpl in Hok|done].
  exists t. split; [done|].
  destruct (Str.is_empty (server_id m)) eqn:Hs; [done|]. apply Str.is_empty_false in Hs.
  destruct (bad_retention m) eqn:Hb; [done|]. injection Hok as <-. simpl.
  assert (H1 : pin_attributes (attributes m) t !! "tenant_id" = Some t).
  { unfold pin_attributes. simpl. case_bool_decide; [by rewrite lookup_insert_ne, lookup_insert_eq|].
    by rewrite lookup_insert_eq. }
  split; [exact H1|]. split.
  { intros v. unfold pin_attributes. simpl. case_bool_decide as Hx.
    - rewrite lookup_insert_eq. by intros [= <-].
    - rewrite lookup_insert_ne by done. intros Hv. destruct Hx.
      rewrite lookup_insert_ne by done. by exists v. }
  split; [done|]. split; [done|].
  destruct (bool_decide (status m = Some Created)) eqn:Hc; [done|].
  destruct (bool_decide (status m = Some StatusUnspecified)) eqn:Hu; [done|].
  apply bool_decide_eq_false in Hc, Hu. done.
Qed.

Section Batch.
Context (fault : Kind -> nat -> Fault) (cfg : Config).
Context (original_of : gmap string Message -> Message -> option string).

Lemma persist_batch_one p s :
  message_id p = server_id (message p) ->
  persist_batch fault cfg original_of [p] s = persist_message fault cfg original_of p s.
Proof.
  intros Hid. unfold persist_batch, persist_message. rewrite Hid.
  unfold mbind, stE_bind, mret, stE_ret, lift_r. destruct (has_archive cfg) eqn:Ha; simpl.
  - destruct (archive_messages fault original_of [message p] s) as [[out|e] s1]; [|done].
    rewrite filter_cons, filter_nil. case_decide as Hd.
    + rewrite Hd. simpl.
      destruct (register_plugin_entity_bindings fault cfg [message p] s1) as [[[]|e] s2]; [|done].
      destruct (negb (has_stream cfg)); [done|]. by destruct (build_event_message (message p)).
    + apply not_false_iff_true in Hd. by rewrite Hd.
  - destruct (negb (has_stream cfg)); [done|]. by destruct (build_event_message (message p)).
Qed.

#[local] Arguments persist_batch : simpl never.
#[local] Arguments persist_message : simpl never.
#[local] Arguments publish_ack_and_record : simpl never.
#[local] Arguments finish_wal : simpl never.
#[local] Arguments release_idempotency_reservation : simpl never.

(** A batch of one behaves like a single write: same answer, same stores, under
    every fault schedule. *)
Theorem batch_of_one_is_a_single_write (ctx : Ctx) (p : PreparedMessage) (s : Store)
    (Hid : message_id p = server_id (message p)) :
  ensure_batch_consistency fault cfg original_of ctx [p] s
  = match ensure_consistency fault cfg original_of ctx p s with
    | (Ok r, s') => (Ok [r], s')
    | (Err e, s') => (Err e, s')
    end.
Proof.
  unfold ensure_batch_consistency, ensure_consistency, reserve_all, on_result.
  unfold mbind, stE_bind, mret, stE_ret, lift_r.
  destruct (prepared_tenant_id (message p)) as [t|e]; [|done].
  destruct (reserve_idempotency fault cfg ctx p s) as [[d|e] s1]; [|done].
  destruct (decision_new d); simpl.
  - rewrite persist_batch_one by done.
    destruct (persist_message fault cfg original_of p s1) as [[out|e] s2]; simpl.
    + unfold mbind, stE_bind, mret, stE_ret.
      destruct (is_duplicate out (message_id p)); simpl.
      * destruct (publish_ack_and_record fault cfg t (result_of p true) s2) as [[[]|e] s3]; simpl; [|done].
        by destruct (finish_wal fault cfg t (message_id p) s3) as [[[]|e] s4].
      * match goal with |- context [publish_ack_and_record fault cfg t (result_of p false) ?x] =>
          destruct (publish_ack_and_record fault cfg t (result_of p false) x) as [[[]|e] s3] end;
          simpl; [|done].
        by destruct (finish_wal fault cfg t (message_id p) s3) as [[[]|e] s4].
    + unfold mbind, stE_bind, mret, stE_ret.
      by destruct (release_idempotency_reservation fault cfg ctx (reservation d) s2) as [[[]|e'] s3].
  - by destruct (publish_ack_and_record fault cfg t (result_of p true) s1) as [[[]|e] s2].
Qed.
End Batch.

(** ** Examples *)

Module WriterExample.
Definition all_on : Config := mkConfig true true true true true true true true.
Definition no_ledger (_ : gmap string Message) (_ : Message) : option string := None.
Definition ctx : Ctx := mkCtx None None None (Some "t1") None.
Definition no_faults (_ : Kind) (_ : nat) : Fault := FaultNone.
Definition stamp (_ : gmap string string) (now : Z) : Timeline := mkTimeline now None.
Definition command (id : string) : ProcessStoreMessageCommand :=
  mkCommand "1A" (Some (plain_message id "1A" "alice")) false (Some "t1") ∅.
Definition prepared (id : string) : PreparedMessage :=
  match prepare_message stamp 7 (command id) with
  | Ok p => p
  | Err _ => mkPrepared "" "" (plain_message "" "" "") (mkTimeline 0 None) false
  end.
Definition empty : Store := mkStore 0 ∅ ∅ [] [] [] {["m1"; "m2"]} [] [] ∅.
(** The archive is down. *)
Definition archive_down (k : Kind) (_ : nat) : Fault :=
  match k with KArchive => FaultBefore | _ => FaultNone end.
(** The second call, a claim, fails before it takes effect. *)
Definition second_claim_fails (k : Kind) (n : nat) : Fault :=
  match k, n with KReserve, 1%nat => FaultBefore | _, _ => FaultNone end.
(** The reply to the first claim is lost. *)
Definition claim_reply_lost (k : Kind) (n : nat) : Fault :=
  match k, n with KReserve, O => FaultAfter | _, _ => FaultNone end.
Definition after_one : Store :=
  (ensure_consistency no_faults all_on no_ledger ctx (prepared "m1") empty).2.
End WriterExample.
Import WriterExample.

Example one_write :
  map ack_id (acks after_one) = ["m1"] /\ map (fun e => server_id (st_message e)) (stream after_one) = ["m1"]
  /\ elements (wal after_one) = ["m2"] /\ usage after_one !! "t1" = Some 1.
Proof. vm_compute. done. Qed.

(** A batch that fails while it claims its messages keeps the claims it already
    took: the first message of the batch was claimed and never written, the
    error leaves its claim in place, and when the batch is delivered again the
    message is acknowledged as a duplicate without ever being stored. *)
Theorem failed_batch_keeps_its_claims :
  let batch := [prepared "m1"; prepared "m2"] in
  let run1 := ensure_batch_consistency second_claim_fails all_on no_ledger ctx batch empty in
  let run2 := ensure_batch_consistency no_faults all_on no_ledger ctx batch run1.2 in
  is_ok run1.1 = false
  /\ option_map (map deduplicated) (match run2.1 with Ok rs => Some rs | Err _ => None end)
     = Some [true; false]
  /\ archive run2.2 !! "m1" = None
  /\ map (fun a => (ack_id a, ack_deduplicated a)) (acks run2.2) = [("m1", true); ("m2", false)].
Proof. vm_compute. done. Qed.

(** A claim whose reply is lost loses the message: SET NX took effect but the
    call reported an error (the EXPIRE after it failed), so the write is refused
    without giving the claim back, and the redelivery is acknowledged as a
    duplicate of a message that was never stored. *)
Theorem lost_claim_reply_loses_the_message :
  let run1 := ensure_consistency claim_reply_lost all_on no_ledger ctx (prepared "m1") empty in
  let run2 := ensure_consistency no_faults all_on no_ledger ctx (prepared "m1") run1.2 in
  is_ok run1.1 = false /\ option_map deduplicated (match run2.1 with Ok r => Some r | Err _ => None end)
                          = Some true
  /\ archive run2.2 !! "m1" = None /\ stream run2.2 = [].
Proof. vm_compute. done. Qed.

Lemma prepared_id id : id <> "" -> message_id (prepared id) = server_id (message (prepared id)).
Proof. by destruct id. Qed.

Lemma after_one_run :
  ensure_consistency no_faults all_on no_ledger ctx (prepared "m1") empty
  = (Ok (result_of (prepared "m1") false), after_one).
Proof. vm_compute. reflexivity. Qed.

Lemma acknowledged_means_durable_witness :
  acks after_one <> acks empty
  /\ (acks after_one = acks empty
      \/ exists dup, acks after_one = acks empty ++ [mkAck "m1" "1A" dup]
           /\ (dup = false -> is_Some (archive after_one !! "m1")
                 /\ exists ev, ev ∈ stream after_one /\ st_message ev = message (prepared "m1"))).
Proof.
  split; [vm_compute; discriminate|].
  exact (acknowledged_means_durable no_faults all_on no_ledger ctx (prepared "m1") empty after_one _
           eq_refl eq_refl after_one_run).
Defined.

Lemma wal_is_cleaned_after_the_acknowledgement_witness :
  exists dup, mkAck "m1" "1A" dup ∈ acks after_one.
Proof.
  destruct (wal_is_cleaned_after_the_acknowledgement no_faults all_on no_ledger ctx (prepared "m1") empty
              after_one _ eq_refl eq_refl after_one_run) as [_ (dup & Hd & _)];
    [vm_compute; discriminate|]. by exists dup.
Defined.

Lemma claims_are_kept_only_for_stored_messages_witness :
  let s' := (ensure_consistency archive_down all_on no_ledger ctx (prepared "m1") empty).2 in
  claims s' = claims empty
  \/ exists key, claims s' = {[key]} ∪ claims empty
       /\ (is_Some (archive s' !! "m1") \/ is_Some (no_ledger (archive s') (message (prepared "m1")))).
Proof.
  intros s'.
  destruct (ensure_consistency archive_down all_on no_ledger ctx (prepared "m1") empty) as [r w] eqn:Hrun.
  refine (claims_are_kept_only_for_stored_messages archive_down all_on no_ledger _ _ ctx (prepared "m1")
            empty w r eq_refl eq_refl eq_refl _ Hrun); discriminate.
Defined.

Lemma redelivery_writes_nothing_witness :
  let again := ensure_consistency no_faults all_on no_ledger ctx (prepared "m1") after_one in
  archive again.2 = archive after_one /\ usage again.2 = usage after_one.
Proof.
  intros again.
  destruct (ensure_consistency no_faults all_on no_ledger ctx (prepared "m1") after_one) as [r2 s3] eqn:H2.
  destruct (redelivery_writes_nothing no_faults all_on no_ledger ctx (prepared "m1") empty after_one
              after_one s3 _ r2 (fun _ => eq_refl) eq_refl after_one_run (reflexivity _) H2)
    as (Ha & _ & Hu & _). by split.
Defined.

Lemma prepared_message_is_pinned_witness :
  exists t, normalize_optional_tenant_id (Some "t1") = Some t
            /\ attributes (message (prepared "m1")) !! "tenant_id" = Some t.
Proof.
  destruct (prepared_message_is_pinned stamp 7 (command "m1") (prepared "m1")) as (t & H1 & H2 & _);
    [reflexivity|]. by exists t.
Defined.

Lemma batch_of_one_is_a_single_write_witness :
  ensure_batch_consistency archive_down all_on no_ledger ctx [prepared "m1"] empty
  = match ensure_consistency archive_down all_on no_ledger ctx (prepared "m1") empty with
    | (Ok r, s') => (Ok [r], s')
    | (Err e, s') => (Err e, s')
    end.
Proof. exact (batch_of_one_is_a_single_write archive_down all_on no_ledger ctx (prepared "m1") empty eq_refl). Defined.
