(* ===== verification/WriterStore.v ===== *)
(** * The operation store and the event stream of the storage writer

    flare-storage/writer/src/infrastructure/persistence/repository: operation_store.rs
    (the side tables of message operations), the retention statements of
    postgres_store.rs and event_stream.rs (the durable event stream with its
    comparison of redelivered events). A statement is a change of [Tables]; a method
    that runs several of them goes through [Database.exec] for each. Audit timestamps
    (changed_at, read_at, pinned_at, updated_at and the like) are left out. *)

From S2P Require Import Prelude.
From S2P Require Import Database.
From stdpp Require Import base gmap strings list.
From Stdlib Require Import ZArith Lia.

Open Scope Z_scope.

(** ** Events as the writer holds them (domain/model/event.rs) *)

Inductive EventType :=
  | Unspecified | EtMessage | MessageRecall | MessageEdit | MessageDelete | ReadReceipt | Typing
  | ConversationUpdate | ConversationDelete | Presence | EtReaction | EtPin | EtUnpin | EtMark
  | EtUnmark | MessageBurnScheduled | MessageBurned | MessageHardDeleted | EtPluginState | EtCustom.

#[export] Instance EventType_eq_dec : EqDecision EventType.
Proof. solve_decision. Defined.

(** The discriminants of the enum, which older writers stored as the type number. *)
Definition discriminant (t : EventType) : Z :=
  match t with
  | Unspecified => 0 | EtMessage => 1 | MessageRecall => 2 | MessageEdit => 3 | MessageDelete => 4
  | ReadReceipt => 5 | Typing => 6 | ConversationUpdate => 7 | ConversationDelete => 8 | Presence => 9
  | EtReaction => 11 | EtPin => 12 | EtUnpin => 13 | EtMark => 14 | EtUnmark => 15
  | MessageBurnScheduled => 16 | MessageBurned => 17 | MessageHardDeleted => 18 | EtPluginState => 19
  | EtCustom => 99
  end.

(** [prost_types::Timestamp] *)
Record Timestamp := mkTimestamp { seconds : Z; nanos : Z }.

#[export] Instance Timestamp_eq_dec : EqDecision Timestamp.
Proof. solve_decision. Defined.

(** [timestamp_to_millis]; the division of [i64] truncates *)
Definition timestamp_to_millis (ts : Timestamp) : option Z :=
  if bool_decide (seconds ts = 0) && bool_decide (nanos ts = 0) then None
  else Some (seconds ts * 1000 + Z.quot (nanos ts) 1000000).

Record RecallPayload := mkRecall {
  recall_server_msg_id : string;
  recall_reason : string;
  time_limit_seconds : option Z;
  allow_admin_recall : option bool;
}.
Record EditPayload := mkEdit {
  edit_server_msg_id : string;
  new_content : string;
  edit_reason : string;
  show_edited_mark : bool;
}.
Record DeletePayload := mkDelete {
  delete_server_msg_id : string;
  delete_type : option Z;
  delete_scope : option Z;
  target_user_id : option string;
  delete_reason : option string;
  notify_others : option bool;
}.
Record ReadPayload := mkRead {
  read_conversation_id : string;
  read_seq : Z;
  read_user_id : string;
  message_ids : list string;
  read_at : option Timestamp;
  burn_after_read : option bool;
}.
Record ReactionPayload := mkReaction {
  reaction_server_msg_id : string;
  reaction_user_id : string;
  emoji : string;
  action : Z;
}.
Record PinPayload := mkPin {
  pin_server_msg_id : string;
  pinned_by : string;
  pin_reason : option string;
  pin_expire_at : option Timestamp;
  pin_scope : Z;
}.
Record UnpinPayload := mkUnpin {
  unpin_server_msg_id : string;
  unpinned_by : string;
  unpin_scope : Z;
}.
Record MarkPayload := mkMark {
  mark_server_msg_id : string;
  mark_user_id : string;
  mark_type : Z;
  color : string;
}.
Record UnmarkPayload := mkUnmark {
  unmark_server_msg_id : string;
  unmark_user_id : string;
  unmark_type : Z;
}.
Record BurnScheduledPayload := mkBurnScheduled {
  sched_tenant_id : string;
  sched_conversation_id : string;
  sched_message_id : string;
  sched_server_id : string;
  sched_seq : option Z;
  sched_reader_id : option string;
  sched_burn_at : Z;
  sched_event_time : Z;
}.
Record BurnedPayload := mkBurned {
  burned_tenant_id : string;
  burned_conversation_id : string;
  burned_message_id : string;
  burned_server_id : string;
  burned_seq : option Z;
  burned_reader_id : option string;
  burned_burn_at : Z;
  burned_burned_at : Z;
  burned_event_time : Z;
}.
Record HardDeletedPayload := mkHardDeleted {
  hard_tenant_id : string;
  hard_conversation_id : string;
  hard_message_id : string;
  hard_server_id : string;
  hard_seq : option Z;
  hard_reader_id : option string;
  hard_burn_at : option Z;
  hard_burned_at : option Z;
  hard_event_time : Z;
}.
Record PluginStatePayload := mkPluginState {
  state_server_msg_id : string;
  state_plugin_id : string;
  state_entity : string;
  state_version : Z;
  values_json : string;
}.

Record CustomPayload := mkCustom {
  custom_namespace : string;
  custom_name : string;
  custom_version : string;
  custom_payload : string;
  custom_metadata : gmap string string;
}.

(** [Message] carries the message of a message event, of which the comparison of
    redeliveries reads what [WireMessage] below holds. *)
Inductive EventPayload :=
  | Recall (p : RecallPayload)
  | Edit (p : EditPayload)
  | Delete (p : DeletePayload)
  | Read (p : ReadPayload)
  | Reaction (p : ReactionPayload)
  | Pin (p : PinPayload)
  | Unpin (p : UnpinPayload)
  | Mark (p : MarkPayload)
  | Unmark (p : UnmarkPayload)
  | BurnScheduled (p : BurnScheduledPayload)
  | Burned (p : BurnedPayload)
  | HardDeleted (p : HardDeletedPayload)
  | PluginState (p : PluginStatePayload)
  | Message (server_id : string)
  | Custom (p : CustomPayload)
  | Other.

Record Event := mkEvent {
  tenant_id : string;
  conversation_id : string;
  seq : Z;
  type_ : EventType;
  created_at : option Timestamp;
  operator_id : string;
  event_seq : option Z;
  request_id : option string;
  payload : option EventPayload;
}.

(** ** Tables *)

Record MessageRow := mkMessageRow {
  server_id : string;
  client_msg_id : option string;
  content : string;
  status : Z;
  burn_enabled : bool;
  burn_after_read_seconds : option Z;
  burn_status : Z;
  first_read_at : option Z;
  burn_at : option Z;
  burned_at : option Z;
  offline_push_info : option string;
  (** [None]: the column holds no JSON object *)
  extra : option (gmap string string);
  extensions : gmap string string;
}.

Record Binding := mkBinding {
  binding_conversation_id : string;
  contribution_id : string;
  recalled : bool;
}.

Record StateRow := mkStateRow {
  row_conversation_id : string;
  row_plugin_id : string;
  row_entity : string;
  row_version : Z;
  row_values_json : string;
}.

(** A row of [events] ([EventStreamInsertRow]); [row_created_at] is [None] when the row got the
    time of its writing. *)
Record StreamRow := mkStreamRow {
  event_type : Z;
  row_payload : string;
  row_created_at : option Z;
  row_operator_id : string;
  row_event_seq : option Z;
  row_request_id : option string;
}.

Record Tables := mkTables {
  messages : gmap string (list MessageRow);
  edit_history : gmap (string * string * Z) (string * string * option string);
  visibility : gmap (string * string * string * Z) Z;
  read_records : gmap (string * string * string) (option Z);
  reactions : gmap (string * string * string) (list string * Z);
  bindings : gmap (string * string * string * string) Binding;
  lifecycle_outbox : gmap (string * string * string * string) (string * string);
  plugin_states : gmap (string * string) StateRow;
  pins : gmap (string * string * string * Z * string) (string * option Z * option string);
  marks : gmap (string * string * string * Z) (string * option string);
  history : gmap (string * string * Z * string) (Z * string);
  (** history rows of events without a conversation *)
  loose_history : list (string * string * Z * string);
  stream : gmap (string * string * Z) StreamRow;
}.

Definition set_messages (t : Tables) m := mkTables m (edit_history t) (visibility t) (read_records t)
  (reactions t) (bindings t) (lifecycle_outbox t) (plugin_states t) (pins t) (marks t) (history t)
  (loose_history t) (stream t).
Definition set_edit_history (t : Tables) x := mkTables (messages t) x (visibility t) (read_records t)
  (reactions t) (bindings t) (lifecycle_outbox t) (plugin_states t) (pins t) (marks t) (history t)
  (loose_history t) (stream t).
Definition set_visibility (t : Tables) x := mkTables (messages t) (edit_history t) x (read_records t)
  (reactions t) (bindings t) (lifecycle_outbox t) (plugin_states t) (pins t) (marks t) (history t)
  (loose_history t) (stream t).
Definition set_read_records (t : Tables) x := mkTables (messages t) (edit_history t) (visibility t) x
  (reactions t) (bindings t) (lifecycle_outbox t) (plugin_states t) (pins t) (marks t) (history t)
  (loose_history t) (stream t).
Definition set_reactions (t : Tables) x := mkTables (messages t) (edit_history t) (visibility t)
  (read_records t) x (bindings t) (lifecycle_outbox t) (plugin_states t) (pins t) (marks t) (history t)
  (loose_history t) (stream t).
Definition set_bindings (t : Tables) b o := mkTables (messages t) (edit_history t) (visibility t)
  (read_records t) (reactions t) b o (plugin_states t) (pins t) (marks t) (history t)
  (loose_history t) (stream t).
Definition set_plugin_states (t : Tables) x := mkTables (messages t) (edit_history t) (visibility t)
  (read_records t) (reactions t) (bindings t) (lifecycle_outbox t) x (pins t) (marks t) (history t)
  (loose_history t) (stream t).
Definition set_pins (t : Tables) x := mkTables (messages t) (edit_history t) (visibility t)
  (read_records t) (reactions t) (bindings t) (lifecycle_outbox t) (plugin_states t) x (marks t)
  (history t) (loose_history t) (stream t).
Definition set_marks (t : Tables) x := mkTables (messages t) (edit_history t) (visibility t)
  (read_records t) (reactions t) (bindings t) (lifecycle_outbox t) (plugin_states t) (pins t) x
  (history t) (loose_history t) (stream t).
Definition set_history (t : Tables) h l := mkTables (messages t) (edit_history t) (visibility t)
  (read_records t) (reactions t) (bindings t) (lifecycle_outbox t) (plugin_states t) (pins t) (marks t)
  h l (stream t).
Definition set_stream (t : Tables) x := mkTables (messages t) (edit_history t) (visibility t)
  (read_records t) (reactions t) (bindings t) (lifecycle_outbox t) (plugin_states t) (pins t) (marks t)
  (history t) (loose_history t) x.

Definition no_tables : Tables := mkTables ∅ ∅ ∅ ∅ ∅ ∅ ∅ ∅ ∅ ∅ ∅ [] ∅.

Definition tenant_rows (t : Tables) (tenant : string) : list MessageRow :=
  default [] (messages t !! tenant).

Definition update_messages (tenant : string) (p : MessageRow -> bool) (f : MessageRow -> MessageRow)
    (t : Tables) : Tables :=
  set_messages t (alter (update_where p f) tenant (messages t)).

(** ** Codes *)

(** [MessageStatus] *)
Definition StatusCreated : Z := 1.
Definition StatusSent : Z := 2.
Definition StatusFailed : Z := 4.
Definition StatusRecalled : Z := 5.
Definition StatusDeleted : Z := 6.

Definition to_ascii_uppercase_char (c : Ascii.ascii) : Ascii.ascii :=
  if decide (97 <= Str.code c <= 122)%nat then Ascii.ascii_of_nat (Str.code c - 32) else c.
Fixpoint to_ascii_uppercase (s : string) : string :=
  match s with
  | EmptyString => EmptyString
  | String c s => String (to_ascii_uppercase_char c) (to_ascii_uppercase s)
  end.

(** The callers pass the ASCII literals below, on which [to_uppercase] is the ASCII one. *)
Definition fsm_state_to_status_int (fsm_state : string) : Z :=
  let s := to_ascii_uppercase fsm_state in
  if bool_decide (s ∈ ["CREATED"; "INIT"]) then StatusCreated
  else if bool_decide (s ∈ ["SENT"; "EDITED"; "DELIVERED"; "READ"]) then StatusSent
  else if bool_decide (s = "FAILED") then StatusFailed
  else if bool_decide (s = "RECALLED") then StatusRecalled
  else if bool_decide (s ∈ ["DELETED_HARD"; "DELETED_SOFT"]) then StatusDeleted
  else StatusSent.

Definition visibility_status_to_int (s : string) : Z :=
  let s := to_ascii_uppercase s in
  if bool_decide (s = "HIDDEN") then 1 else if bool_decide (s = "DELETED") then 2 else 0.

Definition mark_type_to_int (s : string) : Z :=
  let s := to_ascii_uppercase s in
  if bool_decide (s = "IMPORTANT") then 1
  else if bool_decide (s = "TODO") then 2
  else if bool_decide (s = "DONE") then 3
  else if bool_decide (s = "CUSTOM") then 4
  else 1.

Definition BURN_INIT : Z := 1.
Definition BURN_READ : Z := 2.
Definition BURN_PENDING : Z := 3.
Definition BURN_BURNED : Z := 4.
Definition BURN_HARD_DELETED : Z := 5.
Definition MESSAGE_PIN_SCOPE_SELF : Z := 1.

(** ** The operation store *)

Section Operations.
Context (fault : schedule).

Abbreviation M := (db Tables).

(** The error of the driver. *)
Definition sql_error : FlareError := flare_err DatabaseError "database error".

Definition by_server_id (id : string) (r : MessageRow) : bool := bool_decide (server_id r = id).
(** [client_msg_id = $3 AND client_msg_id <> ''] *)
Definition by_client_msg_id (id : string) (r : MessageRow) : bool :=
  bool_decide (client_msg_id r = Some id) && negb (Str.is_empty id).

Definition set_status (st : Z) (r : MessageRow) : MessageRow :=
  mkMessageRow (server_id r) (client_msg_id r) (content r) st (burn_enabled r)
    (burn_after_read_seconds r) (burn_status r) (first_read_at r) (burn_at r) (burned_at r)
    (offline_push_info r) (extra r) (extensions r).

(** The statement that marks the bindings of a recalled card and writes the
    notifications of those it marked. *)
Definition recall_hits (tenant id : string) (k : string * string * string * string) (b : Binding) :
    bool :=
  let '(tn, _, _, m) := k in
  bool_decide (tn = tenant) && bool_decide (m = id) && negb (recalled b).

Definition mark_recalled (tenant id : string) (k : string * string * string * string) (b : Binding) :
    option Binding :=
  Some (if recall_hits tenant id k b
        then mkBinding (binding_conversation_id b) (contribution_id b) true else b).

Definition notify_recalled (tenant id : string) (k : string * string * string * string) (b : Binding)
    (o : gmap (string * string * string * string) (string * string)) :
    gmap (string * string * string * string) (string * string) :=
  if recall_hits tenant id k b then
    let '(tn, plugin, entity, m) := k in
    insert_new (tn, plugin, entity, "recalled") (contribution_id b, m) o
  else o.

Definition recall_bindings (tenant id : string) (t : Tables) : Tables :=
  set_bindings t (map_imap (mark_recalled tenant id) (bindings t))
    (map_fold (notify_recalled tenant id) (lifecycle_outbox t) (bindings t)).

Definition update_message_fsm_state (tenant id fsm_state : string) : M unit :=
  let st := fsm_state_to_status_int fsm_state in
  if Str.is_blank id then mret ()
  else
    n ← exec fault sql_error (fun t =>
          (Ok (affected (by_server_id id) (tenant_rows t tenant)),
           update_messages tenant (by_server_id id) (set_status st) t));
    _ ← (if bool_decide (n = 0%nat)
         then write fault sql_error (update_messages tenant (by_client_msg_id id) (set_status st))
         else mret ());
    if bool_decide (st = StatusRecalled)
    then write fault sql_error (recall_bindings tenant id)
    else mret ().

(** [SELECT COALESCE(MAX(edit_version), 0)] *)
Definition max_edit_version (h : gmap (string * string * Z) (string * string * option string))
    (tenant id : string) : Z :=
  map_fold (fun k _ acc => let '(tn, m, v) := k in
    if bool_decide (tn = tenant) && bool_decide (m = id) then Z.max v acc else acc) 0 h.

Definition set_content (bytes : string) (ex : gmap string string) (r : MessageRow) : MessageRow :=
  mkMessageRow (server_id r) (client_msg_id r) bytes (status r) (burn_enabled r)
    (burn_after_read_seconds r) (burn_status r) (first_read_at r) (burn_at r) (burned_at r)
    (offline_push_info r) (Some ex) (extensions r).

(** [server_id = $1 OR client_msg_id = $1] *)
Definition by_either_id (id : string) (r : MessageRow) : bool :=
  bool_decide (server_id r = id) || bool_decide (client_msg_id r = Some id).

(** One transaction; [fetch_optional] takes the first row. *)
Definition update_message_content (tenant id bytes editor : string) (reason : option string)
    (content_text : option string) : M unit :=
  exec fault sql_error (fun t =>
    match list_find (fun r => by_either_id id r = true) (tenant_rows t tenant) with
    | None => (Err (flare_err InternalError "Message not found"), t)
    | Some (_, r) =>
        let real := server_id r in
        let version := Z.max (max_edit_version (edit_history t) tenant real + 1) 1 in
        let ex := default ∅ (extra r) in
        let ex := match content_text with Some text => <["contentText" := text]> ex | None => ex end in
        let ex := <["currentEditVersion" := Str.of_int version]>
                    (<["messageFsmState" := "EDITED"]> ex) in
        let t := update_messages tenant (by_server_id real) (set_content bytes ex) t in
        (Ok (), set_edit_history t (insert_new (tenant, real, version) (bytes, editor, reason)
                                      (edit_history t)))
    end).

Definition update_message_visibility (tenant id user : string) (scope : Z) (st : string) : M unit :=
  write fault sql_error (fun t =>
    set_visibility t (<[(tenant, id, user, scope) := visibility_status_to_int st]> (visibility t))).

(** The row is created, or its [read_at] is moved. *)
Definition record_message_read (tenant id user : string) : M unit :=
  write fault sql_error (fun t =>
    set_read_records t (insert_new (tenant, id, user) None (read_records t))).

(** *** Reactions *)

Inductive ReactionChange :=
  | Unchanged
  | Update (user_ids : list string) (count : Z)
  | DeleteRow.

Definition i32_max : Z := 2 ^ 31 - 1.

(** [i32::try_from(len).unwrap_or(i32::MAX)]; a list of a row is far shorter *)
Definition len_i32 {A} (l : list A) : Z := Z.min (Z.of_nat (length l)) i32_max.

Definition apply_reaction_change (user_ids : list string) (count : Z) (user : string) (add : bool) :
    ReactionChange :=
  let reacted := bool_decide (user ∈ user_ids) in
  if add then
    if reacted then Unchanged else Update (user_ids ++ [user]) (Z.max count 0 + 1)
  else if negb reacted then Unchanged
  else
    let user_ids := filter (fun id => id <> user) user_ids in
    let count := Z.max (Z.max count 0 - 1) (len_i32 user_ids) in
    if bool_decide (0 < count) then Update user_ids count else DeleteRow.

(** One transaction, the row locked. *)
Definition reaction_step (key : string * string * string) (user : string) (add : bool)
    (rs : gmap (string * string * string) (list string * Z)) :
    gmap (string * string * string) (list string * Z) :=
  match rs !! key with
  | Some (user_ids, count) =>
      match apply_reaction_change user_ids count user add with
      | Unchanged => rs
      | Update user_ids count => <[key := (user_ids, count)]> rs
      | DeleteRow => delete key rs
      end
  | None => if add then <[key := ([user], 1)]> rs else rs
  end.

Definition upsert_message_reaction (tenant id emoji user : string) (add : bool) : M unit :=
  write fault sql_error (fun t =>
    set_reactions t (reaction_step (tenant, id, emoji) user add (reactions t))).

(** *** Plugin states *)

Inductive PluginStateWrite := Applied | KeptState | Unbound.

(** [EXISTS (SELECT 1 FROM plugin_entity_bindings ..)] *)
Definition bound (t : Tables) (tenant conversation : string) (st : PluginStatePayload) : bool :=
  match bindings t !! (tenant, state_plugin_id st, state_entity st, state_server_msg_id st) with
  | Some b => bool_decide (binding_conversation_id b = conversation) && negb (recalled b)
  | None => false
  end.

Definition newer (old : option StateRow) (st : PluginStatePayload) : bool :=
  match old with
  | None => true
  | Some r => bool_decide (row_version r < state_version st)
              && bool_decide (row_plugin_id r = state_plugin_id st)
              && bool_decide (row_entity r = state_entity st)
  end.

(** The upsert: an existing row keeps its conversation. *)
Definition state_row (old : option StateRow) (conversation : string) (st : PluginStatePayload) :
    StateRow :=
  mkStateRow (match old with Some r => row_conversation_id r | None => conversation end)
    (state_plugin_id st) (state_entity st) (state_version st) (values_json st).

Definition upsert_message_plugin_state (tenant conversation : string) (st : PluginStatePayload) :
    M PluginStateWrite :=
  if negb (bool_decide (0 < state_version st <= i64_max)) then
    lift_r (Err (flare_err InternalError "plugin state version out of range"))
  else
    applied ← exec fault sql_error (fun t =>
      let key := (tenant, state_server_msg_id st) in
      let old := plugin_states t !! key in
      if bound t tenant conversation st && newer old st
      then (Ok true, set_plugin_states t (<[key := state_row old conversation st]> (plugin_states t)))
      else (Ok false, t));
    if (applied : bool) then mret Applied
    else
      b ← query fault sql_error (fun t => bound t tenant conversation st);
      mret (if (b : bool) then KeptState else Unbound).

(** *** Pins and marks *)

Definition pin_message (tenant id conversation user : string) (scope : Z) (pin : bool)
    (expire_at : option Z) (reason : option string) : M unit :=
  let owner := if bool_decide (scope = MESSAGE_PIN_SCOPE_SELF) then user else "" in
  let key := (tenant, conversation, id, scope, owner) in
  write fault sql_error (fun t =>
    set_pins t (if pin then <[key := (user, expire_at, reason)]> (pins t) else delete key (pins t))).

(** A mark that exists keeps its conversation. *)
Definition mark_message (tenant id conversation user mark_type : string) (color : option string)
    (add : bool) : M unit :=
  let key := (tenant, id, user, mark_type_to_int mark_type) in
  write fault sql_error (fun t =>
    set_marks t
      (if add
       then <[key := (match marks t !! key with Some (c, _) => c | None => conversation end, color)]>
              (marks t)
       else delete key (marks t))).

End Operations.

(** ** Retention of messages (postgres_store.rs) *)

Section Retention.
Context (fault : schedule).

Abbreviation M := (db Tables).

Definition set_burn (r : MessageRow) (st : Z) (first at_ burned : option Z) : MessageRow :=
  mkMessageRow (server_id r) (client_msg_id r) (content r) (status r) (burn_enabled r)
    (burn_after_read_seconds r) st first at_ burned (offline_push_info r) (extra r) (extensions r).

(** [content = '', offline_push_info = NULL, extensions = '{}'] *)
Definition wipe (r : MessageRow) (st : Z) (burned : option Z) : MessageRow :=
  mkMessageRow (server_id r) (client_msg_id r) "" (status r) (burn_enabled r)
    (burn_after_read_seconds r) st (first_read_at r) (burn_at r) burned None (extra r) ∅.

Definition coalesce {A} (o : option A) (a : A) : option A :=
  match o with Some _ => o | None => Some a end.

Definition schedulable (id : string) (r : MessageRow) : bool :=
  bool_decide (server_id r = id) && burn_enabled r
  && (bool_decide (burn_status r = BURN_INIT) || bool_decide (burn_status r = BURN_READ))
  && bool_decide (burned_at r = None).

(** The derived read record; its failure is logged only. *)
Definition derived_read (tenant id : string) (reader : option string) : M unit :=
  match reader with
  | Some reader => log_error (write fault sql_error (fun t =>
                     set_read_records t (insert_new (tenant, id, reader) None (read_records t))))
  | None => mret ()
  end.

Definition schedule_message_burn (tenant id : string) (reader : option string)
    (first_read burn : Z) : M bool :=
  n ← exec fault sql_error (fun t =>
        (Ok (affected (schedulable id) (tenant_rows t tenant)),
         update_messages tenant (schedulable id)
           (fun r => set_burn r BURN_PENDING (coalesce (first_read_at r) first_read)
                       (coalesce (burn_at r) burn) (burned_at r)) t));
  if bool_decide (n = 0%nat) then mret false
  else _ ← derived_read tenant id reader; mret true.

Definition burns_after_read (r : MessageRow) : bool :=
  match burn_after_read_seconds r with Some s => bool_decide (0 < s) | None => false end.

Definition schedule_message_burn_after_read (tenant id : string) (reader : option string)
    (first_read : Z) : M (option Z) :=
  let p := fun r => schedulable id r && burns_after_read r in
  let f := fun r => set_burn r BURN_PENDING (coalesce (first_read_at r) first_read)
             (coalesce (burn_at r) (first_read + Z.max (default 0 (burn_after_read_seconds r)) 1))
             (burned_at r) in
  row ← exec fault sql_error (fun t =>
          (Ok (match list_find (fun r => p r = true) (tenant_rows t tenant) with
               | Some (_, r) => Some (default first_read (burn_at (f r)))
               | None => None
               end),
           update_messages tenant p f t));
  match row with
  | None => mret None
  | Some at_ => _ ← derived_read tenant id reader; mret (Some at_)
  end.

Definition pending (id : string) (r : MessageRow) : bool :=
  bool_decide (server_id r = id) && burn_enabled r && bool_decide (burn_status r = BURN_PENDING).

Definition mark_message_burned (tenant id : string) (at_ : Z) : M bool :=
  n ← exec fault sql_error (fun t =>
        (Ok (affected (pending id) (tenant_rows t tenant)),
         update_messages tenant (pending id)
           (fun r => wipe r BURN_BURNED (coalesce (burned_at r) at_)) t));
  if bool_decide (n = 0%nat) then mret false
  else
    _ ← log_error (write fault sql_error (fun t =>
          set_read_records t (map_imap (fun k b => let '(tn, m, _) := k in
            Some (if bool_decide (tn = tenant) && bool_decide (m = id) then coalesce b at_ else b))
            (read_records t))));
    mret true.

Definition purgeable (id : string) (r : MessageRow) : bool :=
  bool_decide (server_id r = id) && burn_enabled r
  && (bool_decide (burn_status r = BURN_BURNED) || bool_decide (burn_status r = BURN_PENDING)).

Definition mark_message_hard_deleted (tenant id : string) : M bool :=
  n ← exec fault sql_error (fun t =>
        (Ok (affected (purgeable id) (tenant_rows t tenant)),
         update_messages tenant (purgeable id)
           (fun r => wipe r BURN_HARD_DELETED (burned_at r)) t));
  mret (negb (bool_decide (n = 0%nat))).

End Retention.

(** ** History and stream *)

(** The protocol crate is generated: its encoding of a payload (in which the order of a
    map's entries may differ from run to run, hence the number), its decoder by type number,
    the type number of plugin states, and the message of a message payload. *)

Record WireMessage := mkWireMessage {
  w_server_id : string;
  w_client_msg_id : string;
  w_sender_id : string;
  w_conversation_id : string;
  w_conversation_seq : Z;
  w_message_type : Z;
  w_content : string;
}.

#[export] Instance WireMessage_eq_dec : EqDecision WireMessage.
Proof. solve_decision. Defined.

Class Codec := {
  Wire : Type;
  wire_eq_dec : EqDecision Wire;
  to_wire : EventPayload -> option Wire;
  encode_payload_bytes : nat -> Wire -> string;
  decode_event_payload : Z -> string -> option Wire;
  message_of : Wire -> option WireMessage;
  plugin_state_tag : Z;
  (** the encoded event of an operation history row *)
  event_bytes : nat -> Event -> string;
}.
#[export] Existing Instance wire_eq_dec.

Section Stream.
Context `{Codec} (fault : schedule).

Abbreviation M := (db Tables).

(** [event_type_to_proto_i32] *)
Definition event_type_to_proto_i32 (t : EventType) : Z :=
  match t with
  | EtMessage => 1 | MessageRecall => 2 | MessageEdit => 3 | MessageDelete => 4 | ReadReceipt => 5
  | ConversationUpdate => 6 | ConversationDelete => 7 | EtReaction => 8 | EtPin => 9 | EtUnpin => 10
  | EtMark => 11 | EtUnmark => 12 | MessageBurnScheduled => 13 | MessageBurned => 14
  | MessageHardDeleted => 15 | EtCustom => 16 | EtPluginState => plugin_state_tag
  | Typing | Presence | Unspecified => 0
  end.

(** [operation_history_identity]: an event without a conversation has none. The row is
    (operation type, encoded event). *)
Definition append_event (order : nat) (tenant id : string) (e : Event) : M unit :=
  if Str.is_empty tenant then
    lift_r (Err (flare_err InternalError "tenant_id is required"))
  else
    write fault sql_error (fun t =>
      let ty := event_type_to_proto_i32 (type_ e) in
      if Str.is_empty (conversation_id e)
      then set_history t (history t)
             (loose_history t ++ [(tenant, id, ty, event_bytes order e)])
      else set_history t (insert_new (tenant, conversation_id e, seq e, id)
                            (ty, event_bytes order e) (history t)) (loose_history t)).

(** [EventStreamInsertRow] with its key apart. *)
Record InsertRow := mkInsertRow {
  key : string * string * Z;
  legacy_event_type : Z;
  row : StreamRow;
}.

(** The payload of the [oneof]; none for what the stream does not carry. *)
Definition payload_bytes (order : nat) (e : Event) : string :=
  match payload e ≫= to_wire with Some w => encode_payload_bytes order w | None => "" end.

Definition positive (o : option Z) : option Z :=
  match o with Some z => if bool_decide (0 < z) then Some z else None | None => None end.

(** [event_to_insert_row] *)
Definition event_to_insert_row (order : nat) (e : Event) : option InsertRow :=
  if Str.is_empty (conversation_id e) then None
  else Some (mkInsertRow (tenant_id e, conversation_id e, seq e) (discriminant (type_ e))
    (mkStreamRow (event_type_to_proto_i32 (type_ e)) (payload_bytes order e)
       (positive (created_at e ≫= timestamp_to_millis)) (operator_id e) (event_seq e)
       (request_id e))).

Inductive ExistingEvent := Identical | SameContent | LegacyTypeTag | SameMessage | EvConflict.

#[export] Instance ExistingEvent_eq_dec : EqDecision ExistingEvent.
Proof. solve_decision. Defined.

Definition same_message (existing new : WireMessage) : bool :=
  negb (Str.is_empty (w_server_id new)) && bool_decide (existing = new).

Definition same_message_payload (a b : Wire) : bool :=
  match message_of a, message_of b with
  | Some a, Some b => same_message a b
  | _, _ => false
  end.

Definition match_existing_event (existing_type : Z) (existing : string) (r : InsertRow)
    (accept_legacy : bool) : ExistingEvent :=
  let ty := event_type (row r) in
  let bytes := row_payload (row r) in
  if bool_decide (existing_type = ty) && bool_decide (existing = bytes) then Identical
  else
    let legacy := accept_legacy && negb (Str.is_empty bytes)
                  && negb (bool_decide (existing_type = ty))
                  && bool_decide (existing_type = legacy_event_type r) in
    if negb (bool_decide (existing_type = ty)) && negb legacy then EvConflict
    else if bool_decide (existing = bytes) then LegacyTypeTag
    else
      match decode_event_payload ty existing, decode_event_payload ty bytes with
      | Some a, Some b =>
          if bool_decide (a = b) then (if legacy then LegacyTypeTag else SameContent)
          else if negb legacy && same_message_payload a b then SameMessage
          else EvConflict
      | _, _ => EvConflict
      end.

Inductive StoredEventMatch := Absent | Duplicate | Conflict (existing_event_type : Z).

Definition classify (r : InsertRow) (old : StreamRow) : StoredEventMatch :=
  if decide (match_existing_event (event_type old) (row_payload old) r true = EvConflict)
  then Conflict (event_type old) else Duplicate.

Definition event_stream_conflict : FlareError := flare_err HttpConflict "event stream conflict".

(** The insert is one statement; the row found in its place is read by another. *)
Definition append_event_to_stream (order : nat) (e : Event) : M unit :=
  match event_to_insert_row order e with
  | None => mret ()
  | Some r =>
      inserted ← exec fault sql_error (fun t =>
        match stream t !! key r with
        | Some _ => (Ok false, t)
        | None => (Ok true, set_stream t (<[key r := row r]> (stream t)))
        end);
      if (inserted : bool) then mret ()
      else
        old ← query fault sql_error (fun t => stream t !! key r);
        match old with
        | Some old =>
            match classify r old with
            | Conflict _ => lift_r (Err event_stream_conflict)
            | _ => mret ()
            end
        | None => mret ()
        end
  end.

Definition match_stored_event (order : nat) (e : Event) : M StoredEventMatch :=
  match event_to_insert_row order e with
  | None => mret Absent
  | Some r =>
      old ← query fault sql_error (fun t => stream t !! key r);
      mret (match old with Some old => classify r old | None => Absent end)
  end.

End Stream.
