(* ===== verification/WriterEvents.v ===== *)
(** * Applying events in the storage writer

    flare-storage/writer: domain/service/message_operation.rs (the check against the
    event stream), domain/service/event_handlers (one handler per payload),
    application/handlers/operation_handler.rs and the failure routing of
    interface/messaging/operation_consumer.rs. A handler writes its side table first,
    the operation history next and the event stream last: the stream row says that the
    event was applied. Any statement may fail, and the broker delivers again. *)

From stdpp Require Import base gmap sets strings list.
From Stdlib Require Import ZArith Lia.
From S2P Require Import Prelude.
From S2P Require Import Tenant.
From S2P Require Import Database.
From S2P Require Import WriterStore.

Open Scope Z_scope.

(** ** Handlers *)

Section Handlers.
Context `{Codec}.
(** [SharedState::from_parts(..).is_ok()] of the plugin crate, [content_bytes_to_text] and
    the clock in seconds. *)
Context (shared_state_ok : string -> Z -> string -> bool).
Context (content_bytes_to_text : string -> option string).
Context (fault : schedule) (order : nat) (now : Z).

Abbreviation M := (db Tables).

(** [map_infra_error(e, ErrorCode::DatabaseError, "Database operation failed")] *)
Definition database_failed (_ : FlareError) : FlareError :=
  flare_err DatabaseError "Database operation failed".

Definition op {A} (m : M A) : M A := map_err database_failed m.

(** [stream_append_failure] *)
Definition stream_append_failure (e : FlareError) : FlareError :=
  if bool_decide (err_code e = HttpConflict) then e
  else flare_err DatabaseError "Failed to append operation event to durable event stream".

Definition append_event_and_stream (e : Event) (id : string) : M unit :=
  _ ← op (append_event fault order (tenant_id e) id e);
  map_err stream_append_failure (append_event_to_stream fault order e).

Definition non_empty (s : string) : option string := if Str.is_empty s then None else Some s.

(** recall.rs *)
Definition apply_recall (e : Event) (p : RecallPayload) : M unit :=
  let id := recall_server_msg_id p in
  if Str.is_blank id then mret ()
  else
    _ ← op (update_message_fsm_state fault (tenant_id e) id "RECALLED");
    append_event_and_stream e id.

(** edit.rs *)
Definition apply_edit (e : Event) (p : EditPayload) : M unit :=
  let id := edit_server_msg_id p in
  _ ← op (update_message_content fault (tenant_id e) id (new_content p) (operator_id e)
            (non_empty (edit_reason p)) (content_bytes_to_text (new_content p)));
  append_event_and_stream e id.

Definition DELETE_TYPE_HARD : Z := 2.
Definition DELETE_SCOPE_USER_PRIVATE : Z := 1.
Definition DELETE_SCOPE_CONVERSATION_GLOBAL : Z := 2.

(** delete.rs *)
Definition apply_delete (e : Event) (p : DeletePayload) : M unit :=
  let id := delete_server_msg_id p in
  if Str.is_blank id then mret ()
  else
    _ ← (if bool_decide (default 0 (delete_type p) = DELETE_TYPE_HARD)
         then op (update_message_fsm_state fault (tenant_id e) id "DELETED_HARD")
         else
           let scope := default DELETE_SCOPE_USER_PRIVATE (delete_scope p) in
           let user :=
             if bool_decide (scope = DELETE_SCOPE_CONVERSATION_GLOBAL) then ""
             else default (operator_id e) (target_user_id p ≫= non_empty) in
           op (update_message_visibility fault (tenant_id e) id user scope "HIDDEN"));
    append_event_and_stream e id.

(** read.rs: one event, many messages *)
Definition apply_read (e : Event) (p : ReadPayload) : M unit :=
  let first_read := match seconds <$> read_at p with
                    | Some s => s
                    | None => default now (seconds <$> created_at e)
                    end in
  _ ← for_each (fun id =>
        _ ← op (record_message_read fault (tenant_id e) id (read_user_id p));
        _ ← (if default false (burn_after_read p)
             then _ ← op (schedule_message_burn_after_read fault (tenant_id e) id
                            (Some (read_user_id p)) first_read); mret ()
             else mret ());
        op (append_event fault order (tenant_id e) id e)) (message_ids p);
  map_err stream_append_failure (append_event_to_stream fault order e).

Definition REACTION_ACTION_ADD : Z := 1.

(** reaction.rs *)
Definition apply_reaction (e : Event) (p : ReactionPayload) : M unit :=
  let id := reaction_server_msg_id p in
  _ ← op (upsert_message_reaction fault (tenant_id e) id (emoji p) (reaction_user_id p)
            (bool_decide (action p = REACTION_ACTION_ADD)));
  append_event_and_stream e id.

(** pin.rs and unpin.rs *)
Definition apply_pin (e : Event) (p : PinPayload) : M unit :=
  let id := pin_server_msg_id p in
  _ ← op (pin_message fault (tenant_id e) id (conversation_id e) (pinned_by p) (pin_scope p) true
            (pin_expire_at p ≫= timestamp_to_millis) (pin_reason p ≫= non_empty));
  append_event_and_stream e id.

Definition apply_unpin (e : Event) (p : UnpinPayload) : M unit :=
  let id := unpin_server_msg_id p in
  _ ← op (pin_message fault (tenant_id e) id (conversation_id e) (unpinned_by p) (unpin_scope p)
            false None None);
  append_event_and_stream e id.

(** The names of the mark types. *)
Definition mark_type_name (t : Z) : option string :=
  if bool_decide (t = 1) then Some "IMPORTANT"
  else if bool_decide (t = 2) then Some "TODO"
  else if bool_decide (t = 3) then Some "DONE"
  else if bool_decide (t = 4) then Some "CUSTOM"
  else None.

(** mark.rs *)
Definition apply_mark (e : Event) (p : MarkPayload) : M unit :=
  let id := mark_server_msg_id p in
  match mark_type_name (mark_type p) with
  | None => lift_r (Err (flare_err InvalidParameter "Invalid mark_type"))
  | Some mt =>
      _ ← op (mark_message fault (tenant_id e) id (conversation_id e) (mark_user_id p) mt
                (non_empty (color p)) true);
      append_event_and_stream e id
  end.

(** unmark.rs: without a type, every type, and a failure of one is only logged *)
Definition apply_unmark (e : Event) (p : UnmarkPayload) : M unit :=
  let id := unmark_server_msg_id p in
  let clear := fun mt => mark_message fault (tenant_id e) id (conversation_id e) (unmark_user_id p)
                           mt None false in
  _ ← match mark_type_name (unmark_type p) with
      | Some mt => op (clear mt)
      | None => for_each (fun mt => log_error (clear mt)) ["IMPORTANT"; "TODO"; "DONE"; "CUSTOM"]
      end;
  append_event_and_stream e id.

(** burn.rs *)
Definition apply_burn_scheduled (e : Event) (p : BurnScheduledPayload) : M unit :=
  let id := sched_message_id p in
  changed ← op (schedule_message_burn fault (tenant_id e) id (sched_reader_id p)
                  (sched_event_time p) (sched_burn_at p));
  if (changed : bool) then append_event_and_stream e id else mret ().

Definition apply_burned (e : Event) (p : BurnedPayload) : M unit :=
  let id := burned_message_id p in
  changed ← op (mark_message_burned fault (tenant_id e) id (burned_burned_at p));
  if (changed : bool) then append_event_and_stream e id else mret ().

Definition apply_hard_deleted (e : Event) (p : HardDeletedPayload) : M unit :=
  let id := hard_message_id p in
  changed ← op (mark_message_hard_deleted fault (tenant_id e) id);
  if (changed : bool) then append_event_and_stream e id else mret ().

(** plugin_state.rs *)
Definition apply_plugin_state (e : Event) (p : PluginStatePayload) : M unit :=
  if Str.is_empty (state_server_msg_id p) || Str.is_empty (state_plugin_id p)
     || negb (shared_state_ok (state_entity p) (state_version p) (values_json p))
  then lift_r (Err (flare_err InvalidParameter "invalid plugin state event"))
  else
    _ ← op (upsert_message_plugin_state fault (tenant_id e) (conversation_id e) p);
    append_event_and_stream e (state_server_msg_id p).

(** [event_handlers::dispatch] *)
Definition dispatch (e : Event) : M unit :=
  match payload e with
  | Some (Recall p) => apply_recall e p
  | Some (Edit p) => apply_edit e p
  | Some (Delete p) => apply_delete e p
  | Some (Read p) => apply_read e p
  | Some (Reaction p) => apply_reaction e p
  | Some (Pin p) => apply_pin e p
  | Some (Unpin p) => apply_unpin e p
  | Some (Mark p) => apply_mark e p
  | Some (Unmark p) => apply_unmark e p
  | Some (BurnScheduled p) => apply_burn_scheduled e p
  | Some (Burned p) => apply_burned e p
  | Some (HardDeleted p) => apply_hard_deleted e p
  | Some (PluginState p) => apply_plugin_state e p
  | Some (Message _) | Some (Custom _) | Some Other | None => mret ()
  end.

(** [process_event], both repositories configured *)
Definition process_event (e : Event) : M unit :=
  if Str.is_empty (tenant_id e) then
    lift_r (Err (flare_err InvalidParameter "Event.tenant_id is required"))
  else
    found ← map_err (fun _ => flare_err DatabaseError "Failed to check stored event")
              (match_stored_event fault order e);
    match found with
    | Absent => dispatch e
    | Duplicate => mret ()
    | Conflict _ => lift_r (Err (flare_err HttpConflict "operation event conflict"))
    end.

(** [is_operation_conflict] *)
Definition is_operation_conflict (e : FlareError) : bool := bool_decide (err_code e = HttpConflict).

(** [MessageOperationCommandHandler::handle] *)
Definition handle (e : Event) : M unit :=
  map_err (fun err => if is_operation_conflict err then err else database_failed err)
    (process_event e).

End Handlers.

(** ** The consumer *)

Inductive Delivery := Ack | Retry | DeadLetter.

(** [operation_failure] and the acknowledgement of a handled event. *)
Definition settle_delivery (r : result unit) : Delivery :=
  match r with
  | Ok _ => Ack
  | Err err => if is_operation_conflict err then DeadLetter else Retry
  end.

(** [enrich_operation_event_from_ctx]: the tenant and the operator of the message headers. *)
Definition enrich_operation_event_from_ctx (ctx_tenant ctx_user : option string) (e : Event) :
    option Event :=
  match (if Str.is_blank (tenant_id e) then normalize_optional_tenant_id ctx_tenant
         else Some (tenant_id e)) with
  | None => None
  | Some t =>
      let operator :=
        if Str.is_empty (operator_id e)
        then default "" ((Str.trim <$> ctx_user) ≫= non_empty)
        else operator_id e in
      Some (mkEvent t (conversation_id e) (seq e) (type_ e) (created_at e) operator (event_seq e)
              (request_id e) (payload e))
  end.
