(* ===== verification/WriterRedelivery.v ===== *)
(** * Redelivered events of the storage writer

    What the handlers of [WriterEvents] leave behind when any of their statements may fail
    and the broker delivers the event again. Methods that may be cut short anywhere
    ([Database.repeats]) are composed into handlers whose effect is that of one undisturbed run;
    then reactions as sets, the versions of shared states, and the handlers for which
    redelivery is not harmless. *)

From stdpp Require Import base gmap sets strings list.
From Stdlib Require Import ZArith Lia.
From S2P Require Import Prelude.
From S2P Require Import Database.
From S2P Require Import WriterStore.
From S2P Require Import WriterEvents.

Open Scope Z_scope.

(** ** Redelivery

    Tables up to the bytes of encoded events, which differ from run to run. *)

Definition erase (t : Tables) : Tables :=
  set_stream
    (set_history t ((fun '(ty, _) => (ty, "")) <$> history t)
       ((fun '(tn, id, ty, _) => (tn, id, ty, "")) <$> loose_history t))
    ((fun r => mkStreamRow (event_type r) "" (row_created_at r) (row_operator_id r)
                 (row_event_seq r) (row_request_id r)) <$> stream t).

Definition sim (t t' : Tables) : Prop := erase t = erase t'.

#[export] Instance sim_equivalence : Equivalence sim.
Proof. unfold sim. split; [done|by intros ?? ->|by intros ??? -> ->]. Qed.

Lemma fmap_insert_new `{Countable K} {A B} (f : A -> B) (k : K) a (m : gmap K A) :
  f <$> insert_new k a m = insert_new k (f a) (f <$> m).
Proof.
  unfold insert_new. rewrite lookup_fmap. destruct (m !! k); simpl; [done|]. apply fmap_insert.
Qed.

Lemma insert_new_commute `{Countable K} {A} (k j : K) (a b : A) (m : gmap K A) :
  (k = j -> a = b) -> insert_new k a (insert_new j b m) = insert_new j b (insert_new k a m).
Proof.
  intros Hab. apply map_eq. intros i. rewrite !lookup_insert_new.
  repeat case_decide; subst; rewrite ?decide_True, ?decide_False by congruence; try done.
  all: try (rewrite Hab by done; by destruct (m !! _)).
Qed.

(** An effect that does not touch history or stream. *)
Definition side (g : Tables -> Tables) : Prop :=
  (forall t h l, g (set_history t h l) = set_history (g t) h l)
  /\ (forall t s, g (set_stream t s) = set_stream (g t) s)
  /\ (forall t, history (g t) = history t /\ loose_history (g t) = loose_history t
                /\ stream (g t) = stream t).

Lemma side_erase g t : side g -> erase (g t) = g (erase t).
Proof.
  intros (H1 & H2 & H3). unfold erase. rewrite H2, H1. destruct (H3 t) as (-> & -> & ->). done.
Qed.

Lemma side_proper g : side g -> Proper (sim ==> sim) g.
Proof. intros Hg t t' Ht. unfold sim in *. rewrite !side_erase by done. by rewrite Ht. Qed.

Lemma side_compose f g : side f -> side g -> side (fun t => g (f t)).
Proof.
  intros (F1 & F2 & F3) (G1 & G2 & G3). split_and!; intros t; intros.
  - by rewrite F1, G1.
  - by rewrite F2, G2.
  - destruct (G3 (f t)) as (-> & -> & ->). apply F3.
Qed.

Lemma side_id : side (fun t => t).
Proof. by split_and!. Qed.

Lemma repeats_side err g :
  side g -> (forall t, g (g t) = g t) -> repeats sim (fun fault => write fault err g) g.
Proof.
  intros Hg Hi. apply repeats_write; [exact _|done|by apply side_proper|].
  intros t. unfold sim. by rewrite Hi.
Qed.

(** *** Statements *)

Lemma side_messages tenant p f : side (update_messages tenant p f).
Proof. by split_and!. Qed.

Lemma update_messages_idemp tenant p f t :
  (forall r, p r = true -> f (f r) = f r) ->
  update_messages tenant p f (update_messages tenant p f t) = update_messages tenant p f t.
Proof.
  intros Hf. unfold update_messages, set_messages. simpl. f_equal.
  apply alter_idemp. intros l. by apply update_where_idemp.
Qed.

Lemma side_visibility k v : side (fun t => set_visibility t (<[k := v]> (visibility t))).
Proof. by split_and!. Qed.
Lemma side_read_records k v : side (fun t => set_read_records t (insert_new k v (read_records t))).
Proof. by split_and!. Qed.
Lemma side_reactions f : side (fun t => set_reactions t (f (reactions t))).
Proof. by split_and!. Qed.
Lemma side_pins f : side (fun t => set_pins t (f (pins t))).
Proof. by split_and!. Qed.
Lemma side_marks f : side (fun t => set_marks t (f (marks t))).
Proof. by split_and!. Qed.
Lemma side_recall_bindings tenant id : side (recall_bindings tenant id).
Proof. by split_and!. Qed.

(** A user's reaction, added or removed twice, is added or removed once. *)
Lemma reaction_step_idemp k u add rs :
  reaction_step k u add (reaction_step k u add rs) = reaction_step k u add rs.
Proof.
  unfold reaction_step at 2 3. destruct (rs !! k) as [[us c]|] eqn:E.
  - unfold apply_reaction_change. destruct add.
    + case_bool_decide as Hin; simpl.
      * unfold reaction_step. rewrite E. unfold apply_reaction_change. by rewrite bool_decide_eq_true_2.
      * unfold reaction_step. rewrite lookup_insert_eq. unfold apply_reaction_change.
        by rewrite bool_decide_eq_true_2 by set_solver.
    + case_bool_decide as Hin; simpl.
      * case_bool_decide; unfold reaction_step.
        -- rewrite lookup_insert_eq. unfold apply_reaction_change.
           rewrite bool_decide_eq_false_2; [done|]. rewrite list_elem_of_filter. naive_solver.
        -- by rewrite lookup_delete_eq.
      * unfold reaction_step. rewrite E. unfold apply_reaction_change. by rewrite bool_decide_eq_false_2.
  - destruct add; unfold reaction_step; [|by rewrite E].
    rewrite lookup_insert_eq. unfold apply_reaction_change.
    by rewrite bool_decide_eq_true_2 by set_solver.
Qed.

(** A binding that was marked is not hit again. *)
Lemma mark_recalled_spares (tenant id : string) bs k b :
  map_imap (mark_recalled tenant id) bs !! k = Some b -> recall_hits tenant id k b = false.
Proof.
  rewrite map_lookup_imap. destruct (bs !! k) as [b0|]; simpl; [|done]. intros [= <-].
  destruct (recall_hits tenant id k b0) eqn:E; [|done].
  destruct k as [[[tn pl] en] m]. simpl. by rewrite andb_false_r.
Qed.

Lemma notify_none (tenant id : string) (bs : gmap (string * string * string * string) Binding) o :
  (forall k b, bs !! k = Some b -> recall_hits tenant id k b = false) ->
  map_fold (notify_recalled tenant id) o bs = o.
Proof.
  induction bs as [|k b m Hk Hfirst IH] using map_first_key_ind; intros Hb; [done|].
  rewrite map_fold_insert_first_key by done. unfold notify_recalled at 1.
  rewrite Hb by apply lookup_insert_eq. apply IH. intros k' b' Hk'. apply Hb.
  rewrite lookup_insert_ne; [done|congruence].
Qed.

Lemma recall_bindings_idemp (tenant id : string) t :
  recall_bindings tenant id (recall_bindings tenant id t) = recall_bindings tenant id t.
Proof.
  unfold recall_bindings at 1. rewrite notify_none by apply mark_recalled_spares.
  unfold recall_bindings, set_bindings. simpl. f_equal.
  apply map_eq. intros k. rewrite map_lookup_imap.
  destruct (map_imap (mark_recalled tenant id) (bindings t) !! k) as [b|] eqn:E; [|done]. simpl.
  unfold mark_recalled. by rewrite (mark_recalled_spares _ _ _ _ _ E).
Qed.

(** *** The status of a message: at most three statements *)

Section Status.
Context (tenant mid : string) (st : Z).

Definition by_server (t : Tables) : Tables :=
  update_messages tenant (by_server_id mid) (set_status st) t.
Definition hit_count (t : Tables) : nat := affected (by_server_id mid) (tenant_rows t tenant).
Definition by_client (t : Tables) : Tables :=
  if bool_decide (hit_count t = 0%nat)
  then update_messages tenant (by_client_msg_id mid) (set_status st) t else t.
Definition unbind (t : Tables) : Tables :=
  if bool_decide (st = StatusRecalled) then recall_bindings tenant mid t else t.

Definition status_effect (t : Tables) : Tables := unbind (by_client (by_server t)).

Lemma tenant_rows_update p f t :
  tenant_rows (update_messages tenant p f t) tenant = update_where p f (tenant_rows t tenant).
Proof.
  unfold tenant_rows, update_messages. simpl. rewrite lookup_alter_eq. by destruct (messages t !! tenant).
Qed.

Lemma hit_count_update p t : hit_count (update_messages tenant p (set_status st) t) = hit_count t.
Proof.
  unfold hit_count. rewrite tenant_rows_update. unfold affected, update_where.
  induction (tenant_rows t tenant) as [|r l IH]; [done|]. rewrite fmap_cons, !filter_cons.
  assert (Hs : by_server_id mid (if p r then set_status st r else r) = by_server_id mid r) by by destruct (p r).
  rewrite Hs. case_decide; cbn [length]; by rewrite IH.
Qed.

Lemma update_messages_none p f t :
  affected p (tenant_rows t tenant) = 0%nat -> update_messages tenant p f t = t.
Proof.
  intros Ha. unfold update_messages. destruct t as [ms]. unfold set_messages, tenant_rows in *. simpl in *.
  f_equal. apply map_eq. intros i. destruct (decide (tenant = i)) as [<-|].
  - rewrite lookup_alter_eq. destruct (ms !! tenant) as [l|]; simpl in *; [|done].
    by rewrite update_where_none.
  - by rewrite lookup_alter_ne.
Qed.

Lemma by_server_idemp t : by_server (by_server t) = by_server t.
Proof. by apply update_messages_idemp. Qed.

Lemma hit_count_server t : hit_count (by_server t) = hit_count t.
Proof. apply hit_count_update. Qed.
Lemma hit_count_client t : hit_count (by_client t) = hit_count t.
Proof. unfold by_client. case_bool_decide; [apply hit_count_update|done]. Qed.

Lemma by_client_idemp t : by_client (by_client t) = by_client t.
Proof.
  unfold by_client at 1. rewrite hit_count_client. unfold by_client. case_bool_decide; [|done].
  by apply update_messages_idemp.
Qed.

Lemma by_server_client t : by_server (by_client t) = by_client (by_server t).
Proof.
  destruct (decide (hit_count t = 0%nat)) as [E|E].
  - unfold by_server. rewrite !update_messages_none; [done|exact E|].
    change (hit_count (by_client t) = 0%nat). by rewrite hit_count_client.
  - unfold by_client. rewrite hit_count_server. by rewrite !bool_decide_eq_false_2 by done.
Qed.

Lemma unbind_idemp t : unbind (unbind t) = unbind t.
Proof. unfold unbind. case_bool_decide; [apply recall_bindings_idemp|done]. Qed.
Lemma unbind_server t : by_server (unbind t) = unbind (by_server t).
Proof. unfold unbind. by case_bool_decide. Qed.
Lemma unbind_client t : by_client (unbind t) = unbind (by_client t).
Proof.
  unfold unbind. destruct (bool_decide (st = StatusRecalled)); [|done]. unfold by_client.
  change (hit_count (recall_bindings tenant mid t)) with (hit_count t).
  by destruct (bool_decide (hit_count t = 0%nat)).
Qed.

Lemma side_status : side status_effect.
Proof.
  unfold status_effect. apply (side_compose _ unbind); [apply (side_compose by_server)|].
  - apply side_messages.
  - unfold by_client. split_and!; intros t; intros;
      [change (hit_count (set_history t h l)) with (hit_count t)
      |change (hit_count (set_stream t s)) with (hit_count t)|..];
      by destruct (bool_decide (hit_count t = 0%nat)).
  - unfold unbind. by destruct (bool_decide (st = StatusRecalled)); split_and!.
Qed.

Lemma status_effect_idemp t : status_effect (status_effect t) = status_effect t.
Proof.
  unfold status_effect. rewrite unbind_server, unbind_client, unbind_idemp.
  rewrite by_server_client, by_client_idemp. by rewrite by_server_idemp.
Qed.

(** What a run cut short left behind does not change the effect. *)
Lemma status_after_server t : status_effect (by_server t) = status_effect t.
Proof. unfold status_effect. by rewrite by_server_idemp. Qed.
Lemma status_after_client t : status_effect (by_client (by_server t)) = status_effect t.
Proof. unfold status_effect. by rewrite by_server_client, by_client_idemp, by_server_idemp. Qed.

End Status.

Lemma repeats_status (tenant mid : string) fsm :
  Str.is_blank mid = false ->
  repeats sim (fun fault => update_message_fsm_state fault tenant mid fsm)
    (status_effect tenant mid (fsm_state_to_status_int fsm)).
Proof.
  intros Hb. set (st := fsm_state_to_status_int fsm).
  assert (Hrun : forall fault n t, match update_message_fsm_state fault tenant mid fsm (n, t) with
    | (Ok _, (_, t')) => t' = status_effect tenant mid st t
    | (Err _, (_, t')) => status_effect tenant mid st t' = status_effect tenant mid st t
    end).
  { intros fault n t. unfold update_message_fsm_state. rewrite Hb. fold st.
    pose proof (status_after_server tenant mid st t) as Hs.
    pose proof (status_after_client tenant mid st t) as Hc.
    pose proof (status_effect_idemp tenant mid st t) as Hi.
    pose proof (hit_count_server tenant mid st t) as Hh.
    unfold mbind, stE_bind, exec at 1.
    destruct (fault n); [|done|exact Hs].
    fold (hit_count tenant mid t). fold (by_server tenant mid st t).
    unfold status_effect, by_client, unbind in *. rewrite Hh in *.
    destruct (bool_decide (hit_count tenant mid t = 0%nat)); cbn [mret stE_ret];
      [unfold write at 1, exec at 1; destruct (fault (S n)); try done|];
      (destruct (bool_decide (st = StatusRecalled)); [|done]; unfold write, exec;
       match goal with |- context [fault ?k] => destruct (fault k) end; done). }
  split; [|..|apply side_proper, side_status|].
  - intros fault n t. specialize (Hrun fault n t).
    destruct (update_message_fsm_state fault tenant mid fsm (n, t)) as [[] []]; by rewrite Hrun.
  - intros n t. unfold update_message_fsm_state. rewrite Hb. unfold mbind, stE_bind.
    rewrite exec_calm. cbn [fst snd]. repeat case_bool_decide; by eexists _, _.
  - intros t. unfold sim. by rewrite status_effect_idemp.
Qed.

(** *** The history row *)

Section Applied.
Context `{Codec}.

(** The row of the event at a message, its bytes apart. *)
Definition hist (e : Event) (id : string) (t : Tables) : Tables :=
  set_history t
    (insert_new (tenant_id e, conversation_id e, seq e, id)
       (event_type_to_proto_i32 (type_ e), "") (history t))
    (loose_history t).

Lemma erase_hist e id t : erase (hist e id t) = hist e id (erase t).
Proof. unfold erase, hist. simpl. by rewrite fmap_insert_new. Qed.

Lemma hist_proper e id : Proper (sim ==> sim) (hist e id).
Proof. intros t t' Ht. unfold sim. by rewrite !erase_hist, Ht. Qed.

Lemma hist_commute e (a b : string) t : hist e a (hist e b t) = hist e b (hist e a t).
Proof. unfold hist, set_history. simpl. f_equal. by apply insert_new_commute. Qed.

Lemma side_hist g e id t : side g -> g (hist e id t) = hist e id (g t).
Proof.
  intros (H1 & _ & H3). unfold hist. rewrite H1. by destruct (H3 t) as (-> & -> & _).
Qed.

Lemma repeats_history order e id :
  Str.is_empty (tenant_id e) = false -> Str.is_empty (conversation_id e) = false ->
  repeats sim (fun fault => append_event fault order (tenant_id e) id e) (hist e id).
Proof.
  intros Ht Hc. unfold append_event. rewrite Ht.
  apply repeats_write; [exact _| |apply hist_proper|].
  - intros t. rewrite Hc. unfold sim, erase, hist. simpl. by rewrite !fmap_insert_new.
  - intros t. unfold hist, set_history. simpl. by rewrite insert_new_idemp.
Qed.

(** *** What a method leaves alone *)

Definition same_stream (t t' : Tables) : Prop := stream t' = stream t.
#[export] Instance same_stream_preorder : PreOrder same_stream.
Proof. unfold same_stream. split; [done|]. intros ??? E1 E2. by rewrite E2. Qed.

(** Its errors are never the conflict of two events at one position. *)
Definition no_conflict {A} (m : db Tables A) : Prop :=
  forall s, match m s with (Err err, _) => err_code err <> HttpConflict | (Ok _, _) => True end.

Lemma no_conflict_op {A} (m : db Tables A) : no_conflict (op m).
Proof. intros s. unfold op, map_err. by destruct (m s) as [[] []]. Qed.

Lemma no_conflict_bind {A B} (m : db Tables A) (f : A -> db Tables B) :
  no_conflict m -> (forall a, no_conflict (f a)) -> no_conflict (x ← m; f x).
Proof.
  intros Hm Hf s. unfold mbind, stE_bind. specialize (Hm s). destruct (m s) as [[a|err] s']; [|done].
  apply Hf.
Qed.

Lemma no_conflict_each {X} (body : X -> db Tables unit) l :
  (forall x, no_conflict (body x)) -> no_conflict (for_each body l).
Proof.
  intros Hb. induction l as [|x l IH]; [done|]. by apply no_conflict_bind.
Qed.

(** *** Events whose handler may be cut short anywhere *)

Section Settled.
Context (shared_state_ok : string -> Z -> string -> bool).
Context (content_bytes_to_text : string -> option string).

(** The handler is a body that may be run again, of effect [G], and then the stream row. *)
Record settled (e : Event) (G : Tables -> Tables) : Prop := {
  body_of : exists body : schedule -> nat -> Z -> db Tables unit,
    (forall fault order now s,
       dispatch shared_state_ok content_bytes_to_text fault order now e s
       = (_ ← body fault order now;
          map_err stream_append_failure (append_event_to_stream fault order e)) s)
    /\ (forall order now, repeats sim (fun fault => body fault order now) G)
    /\ (forall fault order now, keeps same_stream (body fault order now))
    /\ (forall fault order now, no_conflict (body fault order now))
}.

Lemma bind_assoc {A B} (m : db Tables A) (f : A -> db Tables B) (k : db Tables unit) s :
  (x ← m; _ ← f x; k) s = (_ ← (x ← m; f x); k) s.
Proof. unfold mbind, stE_bind. by destruct (m s) as [[] ?]. Qed.

Lemma settled_shape e id g (m : schedule -> db Tables unit) :
  Str.is_empty (tenant_id e) = false -> Str.is_empty (conversation_id e) = false ->
  (forall fault order now s,
     dispatch shared_state_ok content_bytes_to_text fault order now e s
     = (_ ← op (m fault); append_event_and_stream fault order e id) s) ->
  side g -> repeats sim m g -> (forall fault, keeps same_stream (m fault)) ->
  settled e (fun t => hist e id (g t)).
Proof.
  intros Ht Hc Hd Hg Hm Hs. split.
  exists (fun fault order _ => _ ← op (m fault); op (append_event fault order (tenant_id e) id e)).
  split_and!.
  - intros. rewrite Hd. unfold append_event_and_stream. apply bind_assoc.
  - intros order _.
    apply (repeats_seq sim (fun fault => op (m fault))
             (fun fault => op (append_event fault order (tenant_id e) id e))).
    + by apply repeats_map_err.
    + by apply repeats_map_err, repeats_history.
    + intros t. unfold sim. by rewrite side_hist.
  - intros fault order _. keep_step.
    + by apply keeps_map_err.
    + apply keeps_map_err. unfold append_event. rewrite Ht. keep_step. by case_match.
  - intros. apply no_conflict_bind; intros; apply no_conflict_op.
Qed.


(** *** Handler by handler *)

Definition state_effect (tenant conversation : string) (p : PluginStatePayload) (t : Tables) : Tables :=
  let k := (tenant, state_server_msg_id p) in
  let old := plugin_states t !! k in
  if bound t tenant conversation p && newer old p
  then set_plugin_states t (<[k := state_row old conversation p]> (plugin_states t)) else t.

Lemma side_state tenant conversation p : side (state_effect tenant conversation p).
Proof.
  unfold state_effect. split_and!; intros t; intros; simpl;
    [change (bound (set_history t h l) tenant conversation p) with (bound t tenant conversation p)
    |change (bound (set_stream t s) tenant conversation p) with (bound t tenant conversation p)|..];
    by destruct (bound t tenant conversation p && _).
Qed.

Lemma state_effect_idemp tenant conversation p t :
  state_effect tenant conversation p (state_effect tenant conversation p t)
  = state_effect tenant conversation p t.
Proof.
  destruct (bound t tenant conversation p && newer (plugin_states t !! (tenant, state_server_msg_id p)) p)
    eqn:E.
  - assert (Hs : state_effect tenant conversation p t
             = set_plugin_states t (<[(tenant, state_server_msg_id p) :=
                 state_row (plugin_states t !! (tenant, state_server_msg_id p)) conversation p]>
                 (plugin_states t))) by (unfold state_effect; by rewrite E).
    rewrite Hs. unfold state_effect at 1. simpl. rewrite lookup_insert_eq. unfold newer. simpl.
    rewrite (bool_decide_eq_false_2 (_ < _)) by lia. by rewrite andb_false_r.
  - assert (Hs : state_effect tenant conversation p t = t) by (unfold state_effect; by rewrite E).
    by rewrite !Hs.
Qed.

Lemma repeats_state tenant conversation p :
  0 < state_version p <= i64_max ->
  repeats sim (fun fault => _ ← upsert_message_plugin_state fault tenant conversation p; mret ())
    (state_effect tenant conversation p).
Proof.
  intros Hv.
  pose proof (state_effect_idemp tenant conversation p) as Hi.
  assert (Hrun : forall fault n t,
    match (_ ← upsert_message_plugin_state fault tenant conversation p; mret ()) (n, t) with
    | (Ok _, (_, t')) => t' = state_effect tenant conversation p t
    | (Err _, (_, t')) => t' = t \/ t' = state_effect tenant conversation p t
    end).
  { intros fault n t. unfold upsert_message_plugin_state. rewrite bool_decide_eq_true_2 by done. simpl.
    unfold mbind, stE_bind, state_effect, exec at 1.
    destruct (bound t tenant conversation p && newer _ p); destruct (fault n); simpl;
      unfold query, exec; try destruct (fault (S n)); simpl; auto. }
  split; [|..|apply side_proper, side_state|].
  - intros fault n t. specialize (Hrun fault n t).
    destruct ((_ ← upsert_message_plugin_state fault tenant conversation p; mret ()) (n, t)) as [[] []];
      [by rewrite Hrun|]. destruct Hrun as [->| ->]; [done|]. by rewrite Hi.
  - intros n t. unfold upsert_message_plugin_state. rewrite bool_decide_eq_true_2 by done. simpl.
    unfold mbind, stE_bind. rewrite exec_calm. destruct (bound t tenant conversation p && newer _ p);
      by eexists _, _.
  - intros t. unfold sim. by rewrite Hi.
Qed.

(** Reading: the record, the burn when asked for, the history row. *)

Definition record_effect (tenant id user : string) (t : Tables) : Tables :=
  set_read_records t (insert_new (tenant, id, user) None (read_records t)).

Definition burn_row (first_read : Z) (r : MessageRow) : MessageRow :=
  set_burn r BURN_PENDING (coalesce (first_read_at r) first_read)
    (coalesce (burn_at r) (first_read + Z.max (default 0 (burn_after_read_seconds r)) 1))
    (burned_at r).

Definition burn_effect (burn : bool) (tenant id : string) (first_read : Z) (t : Tables) : Tables :=
  if burn
  then update_messages tenant (fun r => schedulable id r && burns_after_read r) (burn_row first_read) t
  else t.

Definition read_one (burn : bool) (fault : schedule) (tenant id user : string) (first_read : Z) :
    db Tables unit :=
  _ ← op (record_message_read fault tenant id user);
  if burn
  then _ ← op (schedule_message_burn_after_read fault tenant id (Some user) first_read); mret ()
  else mret ().

Definition read_effect (burn : bool) (tenant id user : string) (first_read : Z) (t : Tables) : Tables :=
  burn_effect burn tenant id first_read (record_effect tenant id user t).

Lemma burn_row_idemp first_read r : burn_row first_read (burn_row first_read r) = burn_row first_read r.
Proof. unfold burn_row, set_burn. simpl. f_equal; [by destruct (first_read_at r)|by destruct (burn_at r)]. Qed.

Lemma burn_effect_idemp burn tenant id first_read t :
  burn_effect burn tenant id first_read (burn_effect burn tenant id first_read t)
  = burn_effect burn tenant id first_read t.
Proof. destruct burn; [|done]. apply update_messages_idemp. intros. apply burn_row_idemp. Qed.

Lemma record_effect_idemp tenant id user t :
  record_effect tenant id user (record_effect tenant id user t) = record_effect tenant id user t.
Proof. unfold record_effect, set_read_records. simpl. by rewrite insert_new_idemp. Qed.

Lemma record_burn_commute burn tenant id id' user first_read t :
  record_effect tenant id user (burn_effect burn tenant id' first_read t)
  = burn_effect burn tenant id' first_read (record_effect tenant id user t).
Proof. by destruct burn. Qed.

Lemma read_effect_idemp burn tenant id user first_read t :
  read_effect burn tenant id user first_read (read_effect burn tenant id user first_read t)
  = read_effect burn tenant id user first_read t.
Proof.
  unfold read_effect. by rewrite record_burn_commute, record_effect_idemp, burn_effect_idemp.
Qed.

Lemma side_read burn tenant id user first_read : side (read_effect burn tenant id user first_read).
Proof. unfold read_effect, burn_effect. destruct burn; by split_and!. Qed.

(** Burns of different messages touch different rows. *)
Lemma burn_effect_commute burn tenant (a b : string) first_read t :
  burn_effect burn tenant a first_read (burn_effect burn tenant b first_read t)
  = burn_effect burn tenant b first_read (burn_effect burn tenant a first_read t).
Proof.
  destruct burn; [|done]. destruct (decide (a = b)) as [->|Hab]; [done|].
  unfold burn_effect, update_messages, set_messages. simpl. f_equal.
  apply alter_commute. intros l. unfold update_where. rewrite <- !list_fmap_compose.
  apply list_fmap_ext. intros i r _. simpl.
  assert (Hs : forall x y, x <> y -> schedulable x r && burns_after_read r = true ->
    schedulable y r && burns_after_read r = false
    /\ schedulable y (burn_row first_read r) && burns_after_read (burn_row first_read r) = false).
  { intros x y Hxy Hx. unfold schedulable in *. simpl.
    destruct (decide (server_id r = x)) as [Hr|Hr];
      [|by rewrite (bool_decide_eq_false_2 (server_id r = x)) in Hx].
    rewrite (bool_decide_eq_false_2 (server_id r = y)) by congruence. done. }
  destruct (schedulable a r && burns_after_read r) eqn:Ea;
    [destruct (Hs a b Hab Ea) as [-> ->]; by rewrite Ea|].
  destruct (schedulable b r && burns_after_read r) eqn:Eb; [|by rewrite Ea].
  by destruct (Hs b a (not_eq_sym Hab) Eb) as [_ ->].
Qed.

Lemma record_effect_commute tenant (a b user : string) t :
  record_effect tenant a user (record_effect tenant b user t)
  = record_effect tenant b user (record_effect tenant a user t).
Proof. unfold record_effect, set_read_records. simpl. f_equal. by apply insert_new_commute. Qed.

Lemma read_effect_commute burn tenant (a b user : string) first_read t :
  read_effect burn tenant a user first_read (read_effect burn tenant b user first_read t)
  = read_effect burn tenant b user first_read (read_effect burn tenant a user first_read t).
Proof.
  unfold read_effect. rewrite !record_burn_commute, burn_effect_commute. by rewrite record_effect_commute.
Qed.

(** The derived record is already there. *)
Lemma derived_read_done fault tenant id user n t :
  record_effect tenant id user t = t ->
  exists n', derived_read fault tenant id (Some user) (n, t) = (Ok (), (n', t)).
Proof.
  intros Hr. unfold derived_read, log_error, write, exec. fold (record_effect tenant id user t).
  rewrite Hr. destruct (fault n); by eexists.
Qed.

#[local] Opaque derived_read.

Lemma read_one_run burn fault tenant id user first_read n t :
  match read_one burn fault tenant id user first_read (n, t) with
  | (Ok _, (_, t')) => t' = read_effect burn tenant id user first_read t
  | (Err _, (_, t')) => t' = t \/ t' = record_effect tenant id user t
                         \/ t' = read_effect burn tenant id user first_read t
  end.
Proof.
  unfold read_one, op, record_message_read. unfold mbind, stE_bind, map_err, write, exec at 1.
  fold (record_effect tenant id user t). destruct (fault n); auto. destruct burn; [|done].
  unfold schedule_message_burn_after_read, mbind, stE_bind, exec.
  fold (burn_row first_read).
  change (update_messages tenant _ _ ?x) with (burn_effect true tenant id first_read x).
  set (t1 := record_effect tenant id user t).
  destruct (fault (S n)); simpl; auto.
  destruct (list_find _ (tenant_rows t1 tenant)) as [[i r]|]; [|done].
  destruct (derived_read_done fault tenant id user (S (S n)) (read_effect true tenant id user first_read t))
    as [n' Hn]; [|unfold read_effect, burn_effect in Hn; fold t1 in Hn; by rewrite Hn].
  unfold read_effect. by rewrite record_burn_commute, record_effect_idemp.
Qed.

#[local] Transparent derived_read.

Lemma repeats_read_one burn tenant id user first_read :
  repeats sim (fun fault => read_one burn fault tenant id user first_read)
    (read_effect burn tenant id user first_read).
Proof.
  pose proof (read_effect_idemp burn tenant id user first_read) as Hi.
  split; [|..|apply side_proper, side_read|].
  - intros fault n t. pose proof (read_one_run burn fault tenant id user first_read n t) as Hr.
    destruct (read_one burn fault tenant id user first_read (n, t)) as [[] []]; [by rewrite Hr|].
    destruct Hr as [->|[->| ->]]; [done| |by rewrite Hi].
    unfold read_effect. by rewrite record_effect_idemp.
  - intros n t. unfold read_one, op, record_message_read, mbind, stE_bind, map_err, write.
    rewrite exec_calm. simpl. destruct burn; [|by eexists _, _].
    unfold schedule_message_burn_after_read, mbind, stE_bind. rewrite exec_calm. simpl.
    destruct (list_find _ _) as [[]|]; [|by eexists _, _].
    by eexists _, _.
  - intros t. unfold sim. by rewrite Hi.
Qed.

(** The time of a first read that does not depend on the clock of the run. *)
Definition first_read (e : Event) (p : ReadPayload) : option Z :=
  match seconds <$> read_at p with Some s => Some s | None => seconds <$> created_at e end.

Lemma read_one_keeps burn fault tenant id user first_read :
  keeps same_stream (read_one burn fault tenant id user first_read).
Proof.
  unfold read_one, op, record_message_read, schedule_message_burn_after_read.
  repeat (keep_step || unfold derived_read); done.
Qed.

Lemma for_each_ext {X} (f g : X -> db Tables unit) l s :
  (forall x s, f x s = g x s) -> for_each f l s = for_each g l s.
Proof.
  intros Hf. revert s. induction l as [|x l IH]; intros s; [done|]. simpl.
  unfold mbind, stE_bind. rewrite Hf. by destruct (g x s) as [[] ?].
Qed.

Definition read_body (burn : bool) (e : Event) (p : ReadPayload) (fr : Z) (fault : schedule) (order : nat)
    (id : string) : db Tables unit :=
  _ ← read_one burn fault (tenant_id e) id (read_user_id p) fr;
  op (append_event fault order (tenant_id e) id e).

Lemma settled_read e p :
  payload e = Some (Read p) ->
  Str.is_empty (tenant_id e) = false -> Str.is_empty (conversation_id e) = false ->
  (default false (burn_after_read p) = true -> is_Some (first_read e p)) ->
  exists G, settled e G.
Proof.
  intros Hp Ht Hc Hb. set (burn := default false (burn_after_read p)). set (fr := default 0 (first_read e p)).
  eexists (fun t => foldl (fun t id => hist e id (read_effect burn (tenant_id e) id (read_user_id p) fr t)) t
                      (message_ids p)).
  split. exists (fun fault order _ => for_each (read_body burn e p fr fault order) (message_ids p)). split_and!.
  - intros fault order now s. unfold dispatch. rewrite Hp. unfold apply_read, mbind, stE_bind.
    erewrite for_each_ext; [done|]. intros id s'. unfold read_body, read_one, mbind, stE_bind.
    destruct (op _ s') as [[] s1]; [|done]. fold burn. destruct burn eqn:Eb; [|done].
    destruct (Hb Eb) as [x Hx]. unfold first_read in Hx. subst fr. unfold first_read. simpl in *.
    assert (E : match seconds <$> read_at p with Some s => s | None => default now (seconds <$> created_at e) end
            = default 0 match seconds <$> read_at p with Some s => Some s | None => seconds <$> created_at e end)
      by (destruct (seconds <$> read_at p); [done|by rewrite Hx]).
    by rewrite E.
  - intros order _.
    apply (repeats_each sim (fun fault => read_body burn e p fr fault order)
      (fun id t => hist e id (read_effect burn (tenant_id e) id (read_user_id p) fr t))).
    + intros id. apply (repeats_seq sim (fun fault => read_one burn fault (tenant_id e) id (read_user_id p) fr)
        (fun fault => op (append_event fault order (tenant_id e) id e))).
      * apply repeats_read_one.
      * by apply repeats_map_err, repeats_history.
      * intros t. unfold sim. by rewrite side_hist by apply side_read.
    + intros a b t. unfold sim.
      by rewrite !(side_hist (read_effect _ _ _ _ _)), read_effect_commute, hist_commute by apply side_read.
  - intros fault order _. keep_step. unfold read_body. keep_step; [apply read_one_keeps|].
    apply keeps_map_err. unfold append_event. rewrite Ht. keep_step. by case_match.
  - intros. apply no_conflict_each. intros id. unfold read_body, read_one.
    repeat (apply no_conflict_bind; intros); try apply no_conflict_op. destruct burn; [|done].
    apply no_conflict_bind; [apply no_conflict_op|done].
Qed.

(** The events whose handler may be run again after a failure: not the edits and the burns,
    nor an operation on a blank message id, a mark of an unknown type or a malformed plugin state. *)
Definition repeatable (e : Event) : bool :=
  negb (Str.is_empty (tenant_id e)) && negb (Str.is_empty (conversation_id e)) &&
  match payload e with
  | Some (Recall p) => negb (Str.is_blank (recall_server_msg_id p))
  | Some (Delete p) => negb (Str.is_blank (delete_server_msg_id p))
  | Some (Read p) => negb (default false (burn_after_read p)) || bool_decide (is_Some (first_read e p))
  | Some (Reaction _) | Some (Pin _) | Some (Unpin _) => true
  | Some (Mark p) => bool_decide (is_Some (mark_type_name (mark_type p)))
  | Some (Unmark p) => bool_decide (is_Some (mark_type_name (unmark_type p)))
  | Some (PluginState p) =>
      negb (Str.is_empty (state_server_msg_id p)) && negb (Str.is_empty (state_plugin_id p))
      && shared_state_ok (state_entity p) (state_version p) (values_json p)
      && bool_decide (0 < state_version p <= i64_max)
  | _ => false
  end.

Lemma status_keeps fault tenant id fsm : keeps same_stream (update_message_fsm_state fault tenant id fsm).
Proof. unfold update_message_fsm_state. repeat keep_step; done. Qed.

Lemma settled_write e id err g m :
  Str.is_empty (tenant_id e) = false -> Str.is_empty (conversation_id e) = false ->
  (forall fault order now s,
     dispatch shared_state_ok content_bytes_to_text fault order now e s
     = (_ ← op (m fault); append_event_and_stream fault order e id) s) ->
  (forall fault, m fault = write fault err g) ->
  side g -> (forall t, g (g t) = g t) -> exists G, settled e G.
Proof.
  intros Ht Hc Hd Hm Hg Hi. eexists. apply (settled_shape e id g m); try done.
  - eapply repeats_ext, (repeats_side err g Hg Hi). intros. by rewrite Hm.
  - intros fault. rewrite Hm. keep_step. destruct Hg as (_ & _ & Hs). apply Hs.
Qed.

Lemma settled_status e id fsm :
  Str.is_empty (tenant_id e) = false -> Str.is_empty (conversation_id e) = false ->
  Str.is_blank id = false ->
  (forall fault order now s,
     dispatch shared_state_ok content_bytes_to_text fault order now e s
     = (_ ← op (update_message_fsm_state fault (tenant_id e) id fsm);
        append_event_and_stream fault order e id) s) ->
  exists G, settled e G.
Proof.
  intros Ht Hc Hb Hd. eexists.
  apply (settled_shape e id (status_effect (tenant_id e) id (fsm_state_to_status_int fsm))
    (fun fault => update_message_fsm_state fault (tenant_id e) id fsm)); try done.
  - apply side_status.
  - by apply repeats_status.
  - intros. apply status_keeps.
Qed.

Lemma settled_state e p :
  payload e = Some (PluginState p) -> repeatable e = true -> exists G, settled e G.
Proof.
  intros Hp Hr. unfold repeatable in Hr. rewrite Hp in Hr.
  rewrite !andb_true_iff, !negb_true_iff, bool_decide_eq_true in Hr.
  destruct Hr as ((Ht & Hc) & ((Hm & Hpl) & Hok) & Hv). eexists.
  apply (settled_shape e (state_server_msg_id p) (state_effect (tenant_id e) (conversation_id e) p)
    (fun fault => _ ← upsert_message_plugin_state fault (tenant_id e) (conversation_id e) p; mret ()));
    try done.
  - intros fault order now s. unfold dispatch. rewrite Hp. unfold apply_plugin_state.
    rewrite Hm, Hpl, Hok. simpl. unfold op, map_err, mbind, stE_bind.
    by destruct (upsert_message_plugin_state _ _ _ _ s) as [[] ?].
  - apply side_state.
  - by apply repeats_state.
  - intros fault. unfold upsert_message_plugin_state. repeat keep_step; try done.
    unfold same_stream. by case_match.
Qed.

Lemma settled_event e : repeatable e = true -> exists G, settled e G.
Proof.
  intros Hr. pose proof Hr as Hr'. unfold repeatable in Hr.
  rewrite !andb_true_iff, !negb_true_iff in Hr. destruct Hr as ((Ht & Hc) & Hr).
  destruct (payload e) as [[p|p|p|p|p|p|p|p|p|p|p|p|p| | |]|] eqn:Hp; try done.
  - apply negb_true_iff in Hr. apply (settled_status e (recall_server_msg_id p) "RECALLED"); try done.
    intros. unfold dispatch. rewrite Hp. unfold apply_recall. by rewrite Hr.
  - apply negb_true_iff in Hr. destruct (decide (default 0 (delete_type p) = DELETE_TYPE_HARD)) as [Hd|Hd].
    + apply (settled_status e (delete_server_msg_id p) "DELETED_HARD"); try done.
      intros. unfold dispatch. rewrite Hp. unfold apply_delete. rewrite Hr. by rewrite bool_decide_eq_true_2.
    + eapply (settled_write e); [done|done| |intros; unfold update_message_visibility; reflexivity|..].
      * intros. unfold dispatch. rewrite Hp. unfold apply_delete. rewrite Hr.
        by rewrite bool_decide_eq_false_2.
      * by split_and!.
      * intros t. unfold set_visibility. simpl. by rewrite insert_insert_eq.
  - apply (settled_read e p); try done. intros Hb. rewrite Hb in Hr. simpl in Hr.
    by apply bool_decide_eq_true in Hr.
  - eapply (settled_write e); [done|done|by intros; unfold dispatch; rewrite Hp
      |intros; unfold upsert_message_reaction; reflexivity|apply side_reactions|].
    intros t. unfold set_reactions. simpl. by rewrite reaction_step_idemp.
  - eapply (settled_write e); [done|done|by intros; unfold dispatch; rewrite Hp
      |intros; unfold pin_message; reflexivity|by split_and!|].
    intros t. unfold set_pins. simpl. by rewrite insert_insert_eq.
  - eapply (settled_write e); [done|done|by intros; unfold dispatch; rewrite Hp
      |intros; unfold pin_message; reflexivity|by split_and!|].
    intros t. unfold set_pins. simpl. by rewrite delete_delete_eq.
  - apply bool_decide_eq_true in Hr as [mt Hm].
    eapply (settled_write e); [done|done|by intros; unfold dispatch; rewrite Hp; unfold apply_mark; rewrite Hm
      |intros; unfold mark_message; reflexivity|by split_and!|].
    intros t. unfold set_marks. simpl. by rewrite lookup_insert_eq, insert_insert_eq.
  - apply bool_decide_eq_true in Hr as [mt Hm].
    eapply (settled_write e); [done|done|by intros; unfold dispatch; rewrite Hp; unfold apply_unmark; rewrite Hm
      |intros; unfold mark_message; reflexivity|by split_and!|].
    intros t. unfold set_marks. simpl. by rewrite delete_delete_eq.
  - by apply (settled_state e p).
Qed.

(** *** Deliveries *)

(** One delivery: which statements fail, the order of map entries and the clock. *)
Record attempt := mkAttempt { a_fault : schedule; a_order : nat; a_now : Z }.

Definition deliver (e : Event) (a : attempt) (t : Tables) : Delivery * Tables :=
  let '(r, (_, t')) :=
    handle shared_state_ok content_bytes_to_text (a_fault a) (a_order a) (a_now a) e (O, t) in
  (settle_delivery r, t').

Definition deliver_all (e : Event) (l : list attempt) (t : Tables) : Tables :=
  foldl (fun t a => (deliver e a t).2) t l.

(** The type of the event that carries a payload. *)
Definition payload_type (p : EventPayload) : EventType :=
  match p with
  | Recall _ => MessageRecall | Edit _ => MessageEdit | Delete _ => MessageDelete
  | Read _ => ReadReceipt | Reaction _ => EtReaction | Pin _ => EtPin | Unpin _ => EtUnpin
  | Mark _ => EtMark | Unmark _ => EtUnmark | BurnScheduled _ => MessageBurnScheduled
  | Burned _ => MessageBurned | HardDeleted _ => MessageHardDeleted | PluginState _ => EtPluginState
  | Message _ => EtMessage | Custom _ => EtCustom | Other => Unspecified
  end.

Definition well_typed (e : Event) : bool :=
  match payload e with Some p => bool_decide (type_ e = payload_type p) | None => true end.

(** What the generated protocol code promises: a payload that was encoded decodes to itself. *)
Definition decodes : Prop :=
  forall order p w, to_wire p = Some w ->
    decode_event_payload (event_type_to_proto_i32 (payload_type p)) (encode_payload_bytes order w) = Some w.

Definition stream_key (e : Event) : string * string * Z := (tenant_id e, conversation_id e, seq e).

Definition own_row (order : nat) (e : Event) : StreamRow :=
  mkStreamRow (event_type_to_proto_i32 (type_ e)) (payload_bytes order e)
    (positive (created_at e ≫= timestamp_to_millis)) (operator_id e) (event_seq e) (request_id e).

Lemma insert_row_own order e :
  Str.is_empty (conversation_id e) = false ->
  event_to_insert_row order e = Some (mkInsertRow (stream_key e) (discriminant (type_ e)) (own_row order e)).
Proof. intros Hc. unfold event_to_insert_row. by rewrite Hc. Qed.

(** The event's own row is recognised, whatever order its maps were written in. *)
Lemma classify_own e o1 o2 :
  decodes -> well_typed e = true ->
  classify (mkInsertRow (stream_key e) (discriminant (type_ e)) (own_row o2 e)) (own_row o1 e) = Duplicate.
Proof.
  intros Hd Hw. unfold classify. rewrite decide_False; [done|].
  unfold match_existing_event. simpl. rewrite !(bool_decide_eq_true_2 (_ = _)) by done. simpl.
  rewrite andb_false_r. simpl. case_bool_decide as E; [done|].
  unfold payload_bytes, well_typed in *. destruct (payload e) as [p|]; simpl in *; [|done].
  destruct (to_wire p) as [w|] eqn:Ew; [|done]. apply bool_decide_eq_true in Hw. rewrite Hw.
  rewrite !(Hd _ p w Ew). by rewrite bool_decide_eq_true_2.
Qed.

Definition put_row (e : Event) (t : Tables) : Tables :=
  set_stream t (<[stream_key e := own_row O e]> (stream t)).

Lemma sim_put_row e order t t' :
  sim t t' -> sim (set_stream t (<[stream_key e := own_row order e]> (stream t))) (put_row e t').
Proof.
  intros Ht. unfold put_row.
  assert (He : forall k o x, erase (set_stream x (<[k := own_row o e]> (stream x)))
               = set_stream (erase x) (<[k := mkStreamRow (event_type (own_row o e)) ""
                   (row_created_at (own_row o e)) (row_operator_id (own_row o e))
                   (row_event_seq (own_row o e)) (row_request_id (own_row o e))]> (stream (erase x))))
    by (intros; unfold erase; simpl; by rewrite fmap_insert).
  unfold sim. rewrite !He. by rewrite Ht.
Qed.

(** The states redeliveries go through: the event is not in the stream and running its body now
    has the effect it had at first; or it is, and its effect is there. *)
Inductive progress (e : Event) (G : Tables -> Tables) (t0 t : Tables) : bool -> Prop :=
  | waiting : stream t = stream t0 -> sim (G t) (G t0) -> progress e G t0 t false
  | applied order : stream t !! stream_key e = Some (own_row order e) ->
      sim t (put_row e (G t0)) -> progress e G t0 t true.

Section Redelivery.
Context (e : Event) (G : Tables -> Tables) (t0 : Tables).
Context (Hrep : repeatable e = true) (Hset : settled e G) (Hdec : decodes) (Hwt : well_typed e = true).
Context (Hnew : stream t0 !! stream_key e = None).

Lemma some_tenant : Str.is_empty (tenant_id e) = false /\ Str.is_empty (conversation_id e) = false.
Proof. unfold repeatable in Hrep. rewrite !andb_true_iff, !negb_true_iff in Hrep. tauto. Qed.

(** What a delivery comes to. *)
Definition outcome (a : attempt) (b : bool) (x : result unit * session Tables) : Prop :=
  let '(r, (_, t')) := x in
  exists b', progress e G t0 t' b' /\ (b = true -> b' = true) /\ settle_delivery r <> DeadLetter
    /\ (settle_delivery r = Ack -> b' = true) /\ (a_fault a = calm -> settle_delivery r = Ack).

Lemma outcome_error a b err n t b' :
  err_code err <> HttpConflict -> a_fault a <> calm -> progress e G t0 t b' -> (b = true -> b' = true) ->
  outcome a b (Err (if is_operation_conflict err then err else database_failed err), (n, t)).
Proof.
  intros He Ha Hp Hb. exists b'. unfold is_operation_conflict.
  rewrite bool_decide_eq_false_2 by done. by split_and!.
Qed.

Lemma append_progress a n t :
  stream t = stream t0 -> sim t (G t0) ->
  outcome a false
    (map_err (fun err => if is_operation_conflict err then err else database_failed err)
       (map_err stream_append_failure (append_event_to_stream (a_fault a) (a_order a) e)) (n, t)).
Proof.
  intros Hs Hg. destruct some_tenant as [_ Hc].
  assert (Hw : progress e G t0 t false).
  { apply waiting; [done|]. destruct Hset as [(body & _ & Hr & _)].
    pose proof (Hr O 0) as HR. rewrite (rep_proper _ _ _ HR _ _ Hg). apply (rep_idem _ _ _ HR). }
  assert (Ha : progress e G t0 (set_stream t (<[stream_key e := own_row (a_order a) e]> (stream t))) true).
  { apply (applied _ _ _ _ (a_order a)); [apply lookup_insert_eq|by apply sim_put_row]. }
  unfold append_event_to_stream. rewrite (insert_row_own _ e Hc). unfold map_err, mbind, stE_bind, exec.
  simpl. rewrite Hs, Hnew. rewrite <- Hs.
  destruct (a_fault a n) eqn:Ef; simpl.
  - by exists true.
  - apply (outcome_error a false (stream_append_failure sql_error) (S n) _ false); [done| |exact Hw|done].
    intros Hcalm. by rewrite Hcalm in Ef.
  - apply (outcome_error a false (stream_append_failure sql_error) (S n) _ true); [done| |exact Ha|done].
    intros Hcalm. by rewrite Hcalm in Ef.
Qed.

Lemma waiting_step a t :
  stream t = stream t0 -> sim (G t) (G t0) ->
  outcome a false (handle shared_state_ok content_bytes_to_text (a_fault a) (a_order a) (a_now a) e (O, t)).
Proof.
  intros Hs Hg. destruct some_tenant as [Ht Hc].
  destruct Hset as [(body & Hd & Hr & Hk & Hn)].
  unfold handle, process_event. rewrite Ht. unfold match_stored_event. rewrite (insert_row_own _ e Hc).
  assert (Hw : progress e G t0 t false) by by apply waiting.
  unfold map_err at 1. unfold map_err at 1. unfold mbind, stE_bind, query, exec. simpl.
  destruct (a_fault a O) eqn:Ef;
    [|eapply (outcome_error a _ (flare_err DatabaseError "Failed to check stored event") 1%nat); [done| |exact Hw|done]; intros Hcalm; by rewrite Hcalm in Ef..].
  simpl. rewrite Hs, Hnew. simpl. rewrite Hd. unfold mbind, stE_bind.
  pose proof (Hr (a_order a) (a_now a)) as HR.
  pose proof (rep_run _ _ _ HR (a_fault a) 1%nat t) as Hrun.
  pose proof (Hk (a_fault a) (a_order a) (a_now a) 1%nat t) as Hkeep.
  pose proof (Hn (a_fault a) (a_order a) (a_now a) (1%nat, t)) as Hnc.
  destruct (body (a_fault a) (a_order a) (a_now a) (1%nat, t)) as [[[]|err] [n1 t1]] eqn:Eb;
    unfold same_stream in Hkeep; simpl in Hkeep.
  - apply (append_progress a n1 t1); [congruence|]. by rewrite Hrun.
  - apply (outcome_error a false err n1 t1 false); [done| |by apply waiting; [congruence|rewrite Hrun]|done].
    intros Hcalm. destruct (rep_calm _ _ _ HR 1%nat t) as (n' & s' & Hok). rewrite Hcalm in Eb. congruence.
Qed.

Lemma applied_step a t order :
  stream t !! stream_key e = Some (own_row order e) -> sim t (put_row e (G t0)) ->
  outcome a true (handle shared_state_ok content_bytes_to_text (a_fault a) (a_order a) (a_now a) e (O, t)).
Proof.
  intros Hs Hg. destruct some_tenant as [Ht Hc].
  assert (Hw : progress e G t0 t true) by by apply (applied _ _ _ _ order).
  unfold handle, process_event. rewrite Ht. unfold match_stored_event. rewrite (insert_row_own _ e Hc).
  unfold map_err at 1. unfold map_err at 1. unfold mbind, stE_bind, query, exec. simpl.
  destruct (a_fault a O) eqn:Ef;
    [|eapply (outcome_error a _ (flare_err DatabaseError "Failed to check stored event") 1%nat); [done| |exact Hw|done]; intros Hcalm; by rewrite Hcalm in Ef..].
  simpl. rewrite Hs. rewrite classify_own by done. simpl. by exists true.
Qed.

Lemma progress_step a t b :
  progress e G t0 t b ->
  let '(d, t') := deliver e a t in
  exists b', progress e G t0 t' b' /\ (b = true -> b' = true) /\ d <> DeadLetter /\ (d = Ack -> b' = true)
    /\ (a_fault a = calm -> d = Ack).
Proof.
  intros Hp.
  assert (Ho : outcome a b (handle shared_state_ok content_bytes_to_text (a_fault a) (a_order a) (a_now a) e (O, t))).
  { destruct Hp as [|order]; [by apply waiting_step|by apply (applied_step a t order)]. }
  unfold deliver, outcome in *. by destruct (handle _ _ _ _ _ _ _) as [r [n t']].
Qed.

Lemma progress_all l t b :
  progress e G t0 t b -> exists b', progress e G t0 (deliver_all e l t) b' /\ (b = true -> b' = true).
Proof.
  revert t b. induction l as [|a l IH]; intros t b Hp; [by exists b|].
  pose proof (progress_step a t b Hp) as Hstep. unfold deliver_all. simpl. fold (deliver_all e l (deliver e a t).2).
  destruct (deliver e a t) as [d t']. destruct Hstep as (b1 & Hp1 & Hb1 & _).
  destruct (IH _ _ Hp1) as (b2 & Hp2 & Hb2). exists b2. simpl. auto.
Qed.

Lemma progress_start : progress e G t0 t0 false.
Proof. by apply waiting. Qed.

End Redelivery.

(** C7. A repeatable event that the broker delivers again and again, whatever statements failed in
    each attempt and whether or not they took effect, is applied exactly once: an attempt that is
    acknowledged leaves the tables of one undisturbed delivery (up to the bytes of encoded
    events), an attempt without failures is acknowledged, and none is sent to the dead letters.
    Repeatable are recalls and deletions of a named message, reads (those that burn only with
    the time of the reading), reactions, pins, marks and their removal for known types and
    well-formed plugin states, with a tenant and a conversation; not edits, other burns and the
    removal of all marks. The event is well typed, its position in the stream is free before the
    first delivery, no other event is applied in between, and an encoded payload decodes to
    itself. *)
Theorem redelivery_applies_once e t0 (attempts : list attempt) (last once : attempt) :
  decodes -> repeatable e = true -> well_typed e = true -> stream t0 !! stream_key e = None ->
  a_fault once = calm ->
  let '(d, t) := deliver e last (deliver_all e attempts t0) in
  d <> DeadLetter /\ (d = Ack -> sim t (deliver e once t0).2) /\ (a_fault last = calm -> d = Ack).
Proof.
  intros Hdec Hrep Hwt Hnew Ho. destruct (settled_event e Hrep) as [G Hset].
  destruct (progress_all e G t0 Hrep Hset Hdec Hwt Hnew attempts t0 false (progress_start _ _ _))
    as (b & Hp & _).
  pose proof (progress_step e G t0 Hrep Hset Hdec Hwt Hnew last _ b Hp) as Hlast.
  pose proof (progress_step e G t0 Hrep Hset Hdec Hwt Hnew once _ _ (progress_start e G t0)) as Honce.
  destruct (deliver e last _) as [d t], (deliver e once t0) as [d1 t1].
  destruct Hlast as (b' & Hp' & _ & Hdl & Hack & Hc), Honce as (b1 & Hp1 & _ & _ & Hack1 & Hc1).
  split_and!; [done| |done]. intros ->. rewrite (Hack eq_refl) in Hp'. rewrite (Hack1 (Hc1 Ho)) in Hp1.
  inversion Hp'; inversion Hp1; subst. simpl. etrans; [done|]. by symmetry.
Qed.

(** When the position of an event in its conversation is taken by a different event, nothing
    is written, whatever fails; the delivery is never acknowledged, and goes to the dead letters
    unless the lookup itself failed. *)
Theorem conflicting_event_writes_nothing e a t old ty :
  Str.is_empty (tenant_id e) = false -> Str.is_empty (conversation_id e) = false ->
  stream t !! stream_key e = Some old ->
  classify (mkInsertRow (stream_key e) (discriminant (type_ e)) (own_row (a_order a) e)) old = Conflict ty ->
  deliver e a t = (if decide (a_fault a O = Works) then DeadLetter else Retry, t).
Proof.
  intros Ht Hc Hs Hcl. unfold deliver, handle, process_event. rewrite Ht. unfold match_stored_event.
  rewrite (insert_row_own _ e Hc). unfold map_err, mbind, stE_bind, query, exec. simpl.
  destruct (a_fault a O); simpl; [|done..]. by rewrite Hs, Hcl.
Qed.

End Settled.
End Applied.

(** ** Reactions *)

(** The reactions as sets of users, one per message and emoji. *)
Definition reactors (rs : gmap (string * string * string) (list string * Z)) (k : string * string * string) :
    gset string :=
  match rs !! k with Some (us, _) => list_to_set us | None => ∅ end.

(** No user twice, the count is the number of users, and there is no empty row. *)
Definition reactions_ok (rs : gmap (string * string * string) (list string * Z)) : Prop :=
  map_Forall (fun _ row => NoDup row.1 /\ row.2 = Z.of_nat (length row.1) /\ row.1 <> []) rs.

(** A user list without one of its users. *)
Lemma length_filter_out (u : string) (us : list string) :
  NoDup us -> u ∈ us -> S (length (filter (fun x => x <> u) us)) = length us.
Proof.
  induction us as [|x us IH]; intros Hnd Hin; [by apply not_elem_of_nil in Hin|].
  apply NoDup_cons in Hnd as [Hx Hnd]. rewrite filter_cons. destruct (decide (x = u)) as [->|Hxu].
  - rewrite decide_False by tauto. cbn [length]. f_equal.
    assert (Hf : filter (fun x => x <> u) us = us); [|by rewrite Hf].
    clear -Hx. induction us as [|y us IH]; [done|]. rewrite filter_cons.
    rewrite decide_True by set_solver. f_equal. apply IH. set_solver.
  - rewrite decide_True by done. cbn [length]. f_equal. apply IH; [done|]. set_solver.
Qed.

Lemma reaction_step_ok k u add rs : reactions_ok rs -> reactions_ok (reaction_step k u add rs).
Proof.
  intros Hok. unfold reaction_step. destruct (rs !! k) as [[us c]|] eqn:E.
  - destruct (Hok _ _ E) as (Hnd & Hc & Hne). simpl in *. unfold apply_reaction_change.
    destruct add; case_bool_decide as Hin; simpl; try done.
    + apply map_Forall_insert_2; [|done]. simpl. rewrite length_app. cbn [length].
      split_and!; [|lia|by destruct us]. apply NoDup_app. split_and!; [done| |apply NoDup_singleton].
      set_solver.
    + pose proof (length_filter_out u us Hnd Hin) as Hl.
      case_bool_decide; [|by apply map_Forall_delete].
      apply map_Forall_insert_2; [|done]. simpl. unfold len_i32 in *.
      split_and!; [by apply NoDup_filter|lia|]. intros Hf. rewrite Hf in *. simpl in *. lia.
  - destruct add; [|done]. apply map_Forall_insert_2; [|done]. simpl.
    split_and!; [apply NoDup_singleton|done|done].
Qed.

(** The reaction rows implement a set of users per message and emoji: adding and removing a
    reaction add and remove the user, other sets are untouched, and the rows stay without
    duplicates, without empty rows and with the count of their users. *)
Theorem reactions_refine_sets k u add rs j :
  reactions_ok rs ->
  reactions_ok (reaction_step k u add rs)
  /\ reactors (reaction_step k u add rs) j
     = (if decide (j = k) then (if add then {[u]} ∪ reactors rs k else reactors rs k ∖ {[u]})
        else reactors rs j).
Proof.
  intros Hok. split; [by apply reaction_step_ok|]. unfold reactors, reaction_step.
  destruct (rs !! k) as [[us c]|] eqn:E.
  - destruct (Hok _ _ E) as (Hnd & Hc & Hne). simpl in *. unfold apply_reaction_change.
    destruct add; case_bool_decide as Hin; simpl.
    + case_decide as Hj; [subst; rewrite E; set_solver|done].
    + case_decide as Hj; [subst; rewrite lookup_insert_eq; set_solver|by rewrite lookup_insert_ne].
    + pose proof (length_filter_out u us Hnd Hin) as Hl. unfold len_i32.
      case_bool_decide as Hcount; (case_decide as Hj; [subst j|]).
      * rewrite lookup_insert_eq. apply set_eq. intros x. rewrite elem_of_difference, !elem_of_list_to_set.
        rewrite list_elem_of_filter. set_solver.
      * by rewrite lookup_insert_ne.
      * rewrite lookup_delete_eq. destruct us as [|x [|y us]]; [done| |simpl in *; lia].
        set_solver.
      * by rewrite lookup_delete_ne.
    + case_decide as Hj; [subst; rewrite E; set_solver|done].
  - destruct add; simpl.
    + case_decide as Hj; [subst; rewrite lookup_insert_eq; set_solver|by rewrite lookup_insert_ne].
    + case_decide as Hj; [subst; rewrite E; set_solver|done].
Qed.


(** ** Shared states *)

(** A shared state keeps its conversation, plugin and entity, and its version only rises; the
    values change only with the version. *)
Definition state_follows (r r' : StateRow) : Prop :=
  row_conversation_id r' = row_conversation_id r /\ row_plugin_id r' = row_plugin_id r
  /\ row_entity r' = row_entity r
  /\ (row_version r < row_version r' \/ r' = r).

Definition states_follow (t t' : Tables) : Prop :=
  forall k r, plugin_states t !! k = Some r ->
    exists r', plugin_states t' !! k = Some r' /\ state_follows r r'.

#[export] Instance states_follow_preorder : PreOrder states_follow.
Proof.
  split.
  - intros t k r Hr. exists r. by repeat split; auto.
  - intros t1 t2 t3 H1 H2 k r Hr. destruct (H1 _ _ Hr) as (r2 & Hr2 & Ha & Hb & Hc & Hd).
    destruct (H2 _ _ Hr2) as (r3 & Hr3 & Ha' & Hb' & Hc' & Hd'). exists r3. split; [done|].
    split_and!; [congruence..|]. destruct Hd as [Hd| ->]; [|done]. destruct Hd' as [Hd'| ->]; [left; lia|by left].
Qed.

Lemma states_follow_same t t' : plugin_states t' = plugin_states t -> states_follow t t'.
Proof. intros E k r Hr. exists r. rewrite E. by repeat split; auto. Qed.

Lemma states_follow_upsert t tenant conversation p :
  newer (plugin_states t !! (tenant, state_server_msg_id p)) p = true ->
  states_follow t (set_plugin_states t
    (<[(tenant, state_server_msg_id p) :=
        state_row (plugin_states t !! (tenant, state_server_msg_id p)) conversation p]> (plugin_states t))).
Proof.
  intros Hn k r Hr. simpl. destruct (decide (k = (tenant, state_server_msg_id p))) as [->|Hk].
  - rewrite lookup_insert_eq. eexists. split; [done|]. rewrite Hr in Hn |- *. simpl in Hn.
    rewrite !andb_true_iff, !bool_decide_eq_true in Hn. destruct Hn as ((Hv & Hp) & He).
    split_and!; simpl; [done..|by left].
  - rewrite lookup_insert_ne by done. exists r. by repeat split; auto.
Qed.

Lemma upsert_state_follows fault tenant conversation p :
  keeps states_follow (upsert_message_plugin_state fault tenant conversation p).
Proof.
  unfold upsert_message_plugin_state. repeat keep_step. simpl.
  destruct (bound _ _ _ _ && newer _ _) eqn:E; [|by apply states_follow_same].
  apply states_follow_upsert. by apply andb_true_iff in E as [_ E].
Qed.

(** Every other method leaves the table alone. *)
Ltac other_table := apply states_follow_same; repeat case_match; done.

Section Follow.
Context `{Codec} (fault : schedule).

Lemma append_event_follows order tenant id e : keeps states_follow (append_event fault order tenant id e).
Proof. unfold append_event. repeat keep_step. other_table. Qed.

Lemma append_stream_follows order e : keeps states_follow (append_event_to_stream fault order e).
Proof. unfold append_event_to_stream. repeat keep_step; other_table. Qed.

Lemma append_both_follows order e id : keeps states_follow (append_event_and_stream fault order e id).
Proof.
  unfold append_event_and_stream, op. repeat keep_step; [apply append_event_follows|apply append_stream_follows].
Qed.

Lemma dispatch_follows shared_state_ok content_bytes_to_text order now e :
  keeps states_follow (dispatch shared_state_ok content_bytes_to_text fault order now e).
Proof.
  unfold dispatch, apply_recall, apply_edit, apply_delete, apply_read, apply_reaction, apply_pin, apply_unpin,
    apply_mark, apply_unmark, apply_burn_scheduled, apply_burned, apply_hard_deleted, apply_plugin_state, op.
  unfold update_message_fsm_state, update_message_content, update_message_visibility, record_message_read,
    schedule_message_burn_after_read, upsert_message_reaction, pin_message, mark_message,
    schedule_message_burn, mark_message_burned, mark_message_hard_deleted, derived_read.
  repeat first [apply append_both_follows | apply append_event_follows | apply append_stream_follows
               | apply upsert_state_follows | keep_step]; other_table.
Qed.

(** Whatever event is handled and whatever statement fails, a shared state of a plugin card
    never goes back to an older version, never changes its values under the same version, and
    stays with its conversation, plugin and entity. *)
Theorem shared_state_version_rises shared_state_ok content_bytes_to_text order now e n t :
  states_follow t (handle shared_state_ok content_bytes_to_text fault order now e (n, t)).2.2.
Proof.
  enough (Hk : keeps states_follow (handle shared_state_ok content_bytes_to_text fault order now e))
    by apply Hk.
  unfold handle, process_event, match_stored_event.
  repeat first [apply dispatch_follows | keep_step]; done.
Qed.

End Follow.

(** ** A concrete protocol, for the witnesses *)

Module Sample.

Definition text (p : EventPayload) : string :=
  match p with
  | Recall p => recall_server_msg_id p
  | Reaction p => reaction_server_msg_id p +:+ emoji p
  | Edit p => new_content p
  | _ => ""
  end.

(** The first byte stands for the order of entries. *)
#[export] Instance codec : Codec := {|
  Wire := string;
  to_wire p := Some (text p);
  encode_payload_bytes k w := String (Ascii.ascii_of_nat k) w;
  decode_event_payload _ s := match s with String _ w => Some w | EmptyString => None end;
  message_of _ := None;
  plugin_state_tag := 17;
  event_bytes k e := String (Ascii.ascii_of_nat k) (default "" (request_id e));
|}.

Definition state_ok (_ : string) (_ : Z) (_ : string) : bool := true.
Definition no_text (_ : string) : option string := None.

Lemma codec_decodes : decodes.
Proof. by intros order p w [= <-]. Qed.

Definition event (ty : EventType) (p : EventPayload) : Event :=
  mkEvent "t" "c" 7 ty (Some (mkTimestamp 100 0)) "alice" (Some 7) (Some "r") (Some p).

Definition row (id content : string) (burn_status : Z) : MessageRow :=
  mkMessageRow id (Some "k") content StatusSent true (Some 10) burn_status None None None None None ∅.

Definition tables (l : list MessageRow) : Tables :=
  set_messages no_tables {["t" := l]}.

(** The [k]-th statement fails after it took effect. *)
Definition fails_at (f : Fault) (k : nat) : schedule := fun n => if Nat.eqb n k then f else Works.

Definition quiet : attempt := mkAttempt calm 0 1000.
Definition attempt_failing (f : Fault) (k : nat) : attempt := mkAttempt (fails_at f k) 1 2000.

Definition reaction : Event := event EtReaction (Reaction (mkReaction "m1" "bob" "ok" 1)).
Definition other_reaction : Event := event EtReaction (Reaction (mkReaction "m1" "bob" "no" 1)).
Definition state : Event := event EtPluginState (PluginState (mkPluginState "m1" "poll" "p1" 3 "{}")).
Definition edit : Event := event MessageEdit (Edit (mkEdit "m1" "new" "" true)).
Definition burn : Event :=
  event MessageBurnScheduled (BurnScheduled (mkBurnScheduled "t" "c" "m1" "m1" None None 500 400)).

End Sample.

Import Sample.

Lemma redelivery_applies_once_witness :
  let t0 := tables [row "m1" "hello" BURN_INIT] in
  let failing := [attempt_failing FailsAfter 1; attempt_failing FailsBefore 3; attempt_failing FailsAfter 3] in
  let '(d, t) := deliver state_ok no_text reaction quiet (deliver_all state_ok no_text reaction failing t0) in
  d = Ack /\ sim t (deliver state_ok no_text reaction quiet t0).2.
Proof.
  pose proof (redelivery_applies_once state_ok no_text reaction (tables [row "m1" "hello" BURN_INIT])
    [attempt_failing FailsAfter 1; attempt_failing FailsBefore 3; attempt_failing FailsAfter 3] quiet quiet
    codec_decodes eq_refl eq_refl eq_refl eq_refl) as Hr.
  cbv zeta. destruct (deliver _ _ _ _ _) as [d t]. destruct Hr as (_ & Hs & Ha).
  split; [by apply Ha|by apply Hs, Ha].
Defined.

Lemma conflicting_event_writes_nothing_witness :
  let t := (deliver state_ok no_text reaction quiet no_tables).2 in
  deliver state_ok no_text other_reaction quiet t = (DeadLetter, t).
Proof.
  exact (conflicting_event_writes_nothing state_ok no_text other_reaction quiet
    (deliver state_ok no_text reaction quiet no_tables).2 (own_row 0 reaction) 8 eq_refl eq_refl
    eq_refl eq_refl).
Defined.

Lemma reactions_refine_sets_witness :
  reactors (reaction_step ("t", "m", "ok") "bob" true ∅) ("t", "m", "ok") = {["bob"]} ∪ ∅.
Proof. exact (proj2 (reactions_refine_sets ("t", "m", "ok") "bob" true ∅ ("t", "m", "ok") (map_Forall_empty _))). Defined.

(** ** Handlers that may not be run again *)

(** A scheduled burn whose history row could not be written is redelivered, finds the message
    already scheduled and is acknowledged without history or stream row. *)
Theorem burn_event_can_be_lost :
  let t0 := tables [row "m1" "hello" BURN_INIT] in
  let '(d1, t1) := deliver state_ok no_text burn (attempt_failing FailsBefore 2) t0 in
  let '(d2, t2) := deliver state_ok no_text burn quiet t1 in
  d1 = Retry /\ d2 = Ack
  /\ (burn_status <$> tenant_rows t2 "t") = [BURN_PENDING]
  /\ history t2 = ∅ /\ stream t2 = ∅
  /\ is_Some (stream (deliver state_ok no_text burn quiet t0).2 !! stream_key burn).
Proof. vm_compute. split_and!; try reflexivity. by eexists. Qed.

(** An edit whose history row could not be written is applied again at the redelivery: two
    versions of one edit. *)
Theorem edit_redelivered_makes_two_versions :
  let t0 := tables [row "m1" "hello" BURN_INIT] in
  let '(d1, t1) := deliver state_ok no_text edit (attempt_failing FailsBefore 2) t0 in
  let '(d2, t2) := deliver state_ok no_text edit quiet t1 in
  d1 = Retry /\ d2 = Ack /\ max_edit_version (edit_history t2) "t" "m1" = 2
  /\ max_edit_version (edit_history (deliver state_ok no_text edit quiet t0).2) "t" "m1" = 1.
Proof. by vm_compute. Qed.

(** An edit of a message that was burned brings content back into its row. *)
Theorem edit_after_burn_restores_content :
  let t0 := tables [wipe (row "m1" "secret" BURN_PENDING) BURN_BURNED (Some 500)] in
  (content <$> tenant_rows t0 "t") = [""]
  /\ let '(d, t) := deliver state_ok no_text edit quiet t0 in
     d = Ack /\ (content <$> tenant_rows t "t") = ["new"] /\ (burn_status <$> tenant_rows t "t") = [BURN_BURNED].
Proof. by vm_compute. Qed.
