(* ===== verification/ReadReceipt.v ===== *)
(** * Read receipts of a group's messages

    flare-conversation/src/domain/model/read_receipt.rs: the read watermarks of a group's
    members, the counts of a message by binary search and the pages of its readers. *)

From S2P Require Import Prelude.
From S2P Require Import Slices.
From stdpp Require Import base list sets strings sorting.
From Stdlib Require Import Lia ZArith.

Open Scope Z_scope.

Definition READ_RECEIPT_MEMBER_LIMIT : nat := 500.
Definition MAX_READ_SUMMARY_MESSAGES : nat := 50.
Definition DEFAULT_READER_PAGE : nat := 50.
Definition MAX_READER_PAGE : nat := 200.

(** [MessageStatus::Recalled] and [MessageStatus::Deleted] *)
Definition ENDED_STATUSES : list Z := [5; 6].

Record MemberReadPosition := mkMember {
  user_id : string;
  last_read_seq : Z;
  visible_from_seq : Z;
}.

Record ReceiptMessage := mkReceiptMessage {
  server_id : string;
  seq : Z;
  sender_id : string;
  status : Z;
}.

Definition has_receipts_for (m : ReceiptMessage) (sender : string) : bool :=
  bool_decide (0 < seq m) && bool_decide (sender_id m = sender)
  && negb (bool_decide (status m ∈ ENDED_STATUSES)).

Record ReadCounts := mkCounts { read_count : Z; unread_count : Z; total : Z }.

Inductive ReaderState := Read | Unread.

Record ReadWatermarks := mkWatermarks {
  members : list MemberReadPosition;
  read : list Z;
  floors : list Z;
  hidden_reads : list Z;
}.

Definition by_user (a b : MemberReadPosition) : bool := String.leb (user_id a) (user_id b).
Definition same_user (a b : MemberReadPosition) : bool := bool_decide (user_id a = user_id b).

Definition without_sender (ms : list MemberReadPosition) (sender : string) : ReadWatermarks :=
  let ms := dedup_by same_user (sort_by by_user (filter (fun m => user_id m <> sender) ms)) in
  mkWatermarks ms
    (sort_by Z.leb (last_read_seq <$> ms))
    (sort_by Z.leb (visible_from_seq <$> ms))
    (sort_by Z.leb ((fun m => Z.min (last_read_seq m) (visible_from_seq m)) <$> ms)).

(** [as u32] *)
Definition as_u32 (z : Z) : Z := z mod 2 ^ 32.

Definition below (s : Z) (v : Z) : bool := bool_decide (v < s).

Definition at_or_past (sorted : list Z) (s : Z) : Z :=
  Z.of_nat (length sorted) - Z.of_nat (partition_point (below s) sorted).

Definition counts (w : ReadWatermarks) (s : Z) : ReadCounts :=
  let total := Z.of_nat (partition_point (below s) (floors w)) in
  let read := at_or_past (read w) s - at_or_past (hidden_reads w) s in
  mkCounts (as_u32 read) (as_u32 (total - read)) (as_u32 total).

(** ** Pages *)

Definition sees (s : Z) (m : MemberReadPosition) : bool := bool_decide (visible_from_seq m < s).
Definition on_side (s : Z) (st : ReaderState) (m : MemberReadPosition) : bool :=
  match st with
  | Read => bool_decide (s <= last_read_seq m)
  | Unread => bool_decide (last_read_seq m < s)
  end.

(** [a > b] on strings *)
Definition str_gt (a b : string) : bool := negb (String.leb a b).

Definition after (cursor : string) (m : MemberReadPosition) : bool :=
  Str.is_empty cursor || str_gt (user_id m) cursor.

Definition page (w : ReadWatermarks) (s : Z) (st : ReaderState) (cursor : string) (limit : nat) :
    list string * string * bool :=
  let side := user_id <$> filter (fun m => sees s m && on_side s st m && after cursor m = true) (members w) in
  let page := take limit side in
  let has_more := bool_decide (is_Some (head (drop limit side))) in
  (page, if has_more then default "" (last page) else "", has_more).

(** ** Counting member by member *)

Definition cnt {A} (p : A -> bool) (l : list A) : Z := Z.of_nat (length (filter (fun x => p x = true) l)).

Lemma cnt_cons {A} (p : A -> bool) x l : cnt p (x :: l) = (if p x then 1 else 0) + cnt p l.
Proof. unfold cnt. rewrite filter_cons. destruct (p x); [rewrite decide_True by done|rewrite decide_False by done]; simpl; lia. Qed.

Lemma cnt_nil {A} (p : A -> bool) : cnt p [] = 0.
Proof. done. Qed.

Lemma cnt_perm {A} (p : A -> bool) l k : l ≡ₚ k -> cnt p l = cnt p k.
Proof. intros Hp. unfold cnt. by rewrite Hp. Qed.

Lemma cnt_fmap {A B} (f : A -> B) (p : B -> bool) l : cnt p (f <$> l) = cnt (fun x => p (f x)) l.
Proof. induction l as [|x l IH]; [done|]. by rewrite fmap_cons, !cnt_cons, IH. Qed.

Lemma cnt_filter {A} (p : A -> bool) (P : A -> Prop) `{!forall x, Decision (P x)} l :
  cnt p (filter P l) = cnt (fun x => bool_decide (P x) && p x) l.
Proof.
  induction l as [|x l IH]; [done|]. rewrite filter_cons, cnt_cons, <- IH.
  case_decide as E; [rewrite bool_decide_eq_true_2 by done|rewrite bool_decide_eq_false_2 by done];
    rewrite ?cnt_cons; simpl; [done|lia].
Qed.

Lemma cnt_bounds {A} (p : A -> bool) l : 0 <= cnt p l <= Z.of_nat (length l).
Proof. unfold cnt. pose proof (length_filter (fun x => p x = true) l). lia. Qed.

(** The binary search of a sorted list is the count. *)
Lemma partition_point_cnt s (l : list Z) :
  Z.of_nat (partition_point (below s) (sort_by Z.leb l)) = cnt (below s) l.
Proof.
  rewrite <- (cnt_perm _ _ _ (sort_by_perm Z.leb l)). unfold cnt. f_equal.
  apply partition_point_filter. eapply StronglySorted_impl; [|apply (sort_by_sorted Z.leb)].
  intros a b Hab. apply Z.leb_le in Hab. unfold below. rewrite !bool_decide_eq_true. lia.
Qed.

Lemma at_or_past_cnt s l : at_or_past (sort_by Z.leb l) s = Z.of_nat (length l) - cnt (below s) l.
Proof. unfold at_or_past. by rewrite partition_point_cnt, sort_by_length. Qed.

(** Inclusion and exclusion over the two watermarks. *)
Lemma read_and_visible s (ms : list MemberReadPosition) :
  (Z.of_nat (length ms) - cnt (fun m => below s (last_read_seq m)) ms)
  - (Z.of_nat (length ms) - cnt (fun m => below s (Z.min (last_read_seq m) (visible_from_seq m))) ms)
  = cnt (fun m => sees s m && on_side s Read m) ms.
Proof.
  induction ms as [|m ms IH]; [done|]. rewrite !cnt_cons. unfold below, sees, on_side in *.
  repeat case_bool_decide; simpl; lia.
Qed.

Lemma split_sides s ms :
  cnt (sees s) ms - cnt (fun m => sees s m && on_side s Read m) ms
  = cnt (fun m => sees s m && on_side s Unread m) ms.
Proof.
  induction ms as [|m ms IH]; [done|]. rewrite !cnt_cons. unfold sees, on_side in *.
  repeat case_bool_decide; simpl; lia.
Qed.

(** The counts of the members a [ReadWatermarks] holds. *)
Lemma counts_members ms sender s :
  let w := without_sender ms sender in
  counts w s
  = mkCounts (as_u32 (cnt (fun m => sees s m && on_side s Read m) (members w)))
      (as_u32 (cnt (fun m => sees s m && on_side s Unread m) (members w)))
      (as_u32 (cnt (sees s) (members w))).
Proof.
  simpl. unfold counts, without_sender. simpl. set (l := dedup_by _ _).
  rewrite !at_or_past_cnt, !partition_point_cnt, !cnt_fmap, !length_fmap.
  rewrite read_and_visible. unfold below. fold (sees s). by rewrite split_sides.
Qed.

(** Members have distinct ids: the table's key. *)
Lemma members_perm ms sender :
  NoDup (user_id <$> ms) ->
  members (without_sender ms sender) ≡ₚ filter (fun m => user_id m <> sender) ms.
Proof.
  intros Hnd. simpl. set (l := filter _ ms).
  assert (Hl : NoDup (user_id <$> l)).
  { eapply sublist_NoDup; [exact Hnd|]. apply fmap_sublist, sublist_filter. }
  assert (Hs : NoDup (user_id <$> sort_by by_user l)) by by rewrite sort_by_perm.
  rewrite dedup_by_id; [apply sort_by_perm| |by eapply NoDup_fmap_1].
  intros x y Hx Hy Hxy. apply bool_decide_eq_true in Hxy.
  apply list_elem_of_lookup in Hx as [i Hi], Hy as [j Hj].
  assert (i = j); [|naive_solver].
  eapply NoDup_lookup; [exact Hs|by rewrite list_lookup_fmap, Hi|by rewrite list_lookup_fmap, Hj, Hxy].
Qed.

Lemma as_u32_small z : 0 <= z < 2 ^ 32 -> as_u32 z = z.
Proof. apply Z.mod_small. Qed.

Lemma counts_by_member ms sender s :
  NoDup (user_id <$> ms) -> Z.of_nat (length ms) < 2 ^ 32 ->
  let others := filter (fun m => user_id m <> sender) ms in
  counts (without_sender ms sender) s
  = mkCounts (cnt (fun m => sees s m && on_side s Read m) others)
      (cnt (fun m => sees s m && on_side s Unread m) others)
      (cnt (sees s) others).
Proof.
  intros Hnd Hlen others. rewrite counts_members. rewrite !(cnt_perm _ _ _ (members_perm ms sender Hnd)).
  fold others.
  assert (Ho : (length others <= length ms)%nat) by apply length_filter.
  assert (Hb : forall p, 0 <= cnt p others < 2 ^ 32).
  { intros p. pose proof (cnt_bounds p others). lia. }
  by rewrite !as_u32_small.
Qed.

(** The counts of a message, found by three binary searches over the sorted watermarks, are those of
    counting member by member: of the members other than the sender whose history reaches the
    message, those whose read position is at or past it and those whose is not. *)
Theorem counts_equal_a_member_by_member_count ms sender s :
  NoDup (user_id <$> ms) -> Z.of_nat (length ms) < 2 ^ 32 ->
  let others := filter (fun m => user_id m <> sender) ms in
  counts (without_sender ms sender) s
  = mkCounts (cnt (fun m => sees s m && on_side s Read m) others)
      (cnt (fun m => sees s m && on_side s Unread m) others)
      (cnt (sees s) others).
Proof. apply counts_by_member. Qed.

(** ** The pages of one side *)

(** A client that asks for page after page, as it is told to. *)
Fixpoint walk (fuel : nat) (w : ReadWatermarks) (s : Z) (st : ReaderState) (cursor : string) (limit : nat) :
    option (list string) :=
  match fuel with
  | O => None
  | S fuel =>
      let '(p, next, has_more) := page w s st cursor limit in
      if (has_more : bool) then app p <$> walk fuel w s st next limit else Some p
  end.

Definition str_lt (a b : string) : Prop := String.leb a b = true /\ a <> b.

Lemma str_leb_antisym a b : String.leb a b = true -> String.leb b a = true -> a = b.
Proof. intros. by apply String.leb_antisym. Qed.

Lemma str_gt_lt a b : str_gt a b = true <-> str_lt b a.
Proof.
  unfold str_gt, str_lt. rewrite negb_true_iff. split.
  - intros E. destruct (String.leb_total b a) as [H|H]; [|congruence]. split; [done|].
    intros ->. pose proof (String.leb_total a a). intuition congruence.
  - intros [H Hn]. destruct (String.leb a b) eqn:E; [|done]. by destruct Hn; apply str_leb_antisym.
Qed.

(** The members of a side in the order of their ids, each once. *)
Definition side (w : ReadWatermarks) (s : Z) (st : ReaderState) : list string :=
  user_id <$> filter (fun m => sees s m && on_side s st m = true) (members w).

Lemma members_sorted ms sender : StronglySorted str_lt (user_id <$> members (without_sender ms sender)).
Proof.
  apply StronglySorted_key. simpl. eapply StronglySorted_impl;
    [|apply (dedup_by_strict by_user same_user), (sort_by_sorted by_user)].
  - intros a b [Hab Hs]. split; [done|]. intros E. apply bool_decide_eq_false in Hs. congruence.
  - unfold by_user, same_user. intros a b c Hab Hbc E. apply bool_decide_eq_true in E.
    apply bool_decide_eq_true. apply str_leb_antisym; [by rewrite <- E|done].
Qed.

Lemma side_sorted ms sender s st : StronglySorted str_lt (side (without_sender ms sender) s st).
Proof.
  eapply StronglySorted_sublist; [apply fmap_sublist, sublist_filter|apply members_sorted].
Qed.

(** The rest of a strictly sorted list after one of its elements. *)
Lemma filter_after (l1 l2 : list string) x :
  StronglySorted str_lt (l1 ++ x :: l2) ->
  filter (fun y => str_gt y x = true) (l1 ++ x :: l2) = l2.
Proof.
  intros Hs. rewrite filter_app, filter_cons.
  apply StronglySorted_app in Hs as (H12 & H1 & H2). apply StronglySorted_inv in H2 as [_ H2].
  assert (E1 : filter (fun y => str_gt y x = true) l1 = []).
  { apply filter_none. intros y Hy E. apply str_gt_lt in E as [E En].
    destruct (H12 y x Hy) as [E' _]; [by left|]. by destruct En; apply str_leb_antisym. }
  rewrite E1, decide_False; [simpl|by rewrite str_gt_lt; intros [_ []]].
  apply filter_all. intros y Hy. rewrite Forall_forall in H2. by apply str_gt_lt, H2.
Qed.

(** What is left of a side after a cursor. *)
Definition rest (w : ReadWatermarks) (s : Z) (st : ReaderState) (cursor : string) : list string :=
  filter (fun u => Str.is_empty cursor || str_gt u cursor = true) (side w s st).

Lemma page_rest w s st cursor limit :
  page w s st cursor limit
  = let r := rest w s st cursor in
    (take limit r,
     if bool_decide (is_Some (head (drop limit r))) then default "" (last (take limit r)) else "",
     bool_decide (is_Some (head (drop limit r)))).
Proof.
  unfold page, rest, side.
  assert (E : user_id <$> filter (fun m => sees s m && on_side s st m && after cursor m = true) (members w)
    = filter (fun u => Str.is_empty cursor || str_gt u cursor = true)
        (user_id <$> filter (fun m => sees s m && on_side s st m = true) (members w))); [|by rewrite E].
  induction (members w) as [|m l IH]; [done|]. rewrite !filter_cons.
  destruct (sees s m && on_side s st m) eqn:Es; simpl; [|done].
  rewrite filter_cons. fold (after cursor m). destruct (after cursor m) eqn:Ea; simpl; [|done].
  f_equal. exact IH.
Qed.

Lemma walk_rest w s st limit fuel cursor done_ :
  StronglySorted str_lt (side w s st) -> "" ∉ side w s st -> (0 < limit)%nat ->
  side w s st = done_ ++ rest w s st cursor ->
  (length (rest w s st cursor) < fuel)%nat ->
  walk fuel w s st cursor limit = Some (rest w s st cursor).
Proof.
  intros Hs Hne Hl. revert cursor done_. induction fuel as [|fuel IH]; intros cursor done_ Hd Hf; [lia|].
  cbn [walk]. rewrite page_rest. cbv zeta. set (r := rest w s st cursor) in *.
  destruct (drop limit r) as [|y r'] eqn:Ed.
  - rewrite bool_decide_eq_false_2 by (simpl; apply is_Some_None). f_equal.
    rewrite <- (take_drop limit r) at 2. by rewrite Ed, app_nil_r.
  - rewrite bool_decide_eq_true_2 by (simpl; eauto).
    assert (Htd : r = take limit r ++ y :: r') by (rewrite <- Ed; by rewrite take_drop).
    destruct (take limit r) as [|z p] eqn:Et using rev_ind.
    { destruct limit; [lia|]. destruct r; simpl in *; congruence. }
    rewrite last_snoc. simpl.
    assert (Hside : side w s st = (done_ ++ p) ++ z :: y :: r').
    { rewrite Hd, Htd. by rewrite <- !app_assoc. }
    assert (Hr : rest w s st z = y :: r').
    { unfold rest. assert (Hz : Str.is_empty z = false).
      { destruct z; [|done]. destruct Hne. rewrite Hside. set_solver. }
      rewrite Hz. simpl. rewrite Hside in Hs |- *. by apply filter_after. }
    rewrite (IH z (done_ ++ p ++ [z])).
    + simpl. by rewrite Hr, Htd.
    + rewrite Hr, Hside. by rewrite <- !app_assoc.
    + rewrite Hr. rewrite Htd in Hf. rewrite !length_app in Hf. simpl in *. lia.
Qed.

Lemma elem_of_side ms sender s st u :
  NoDup (user_id <$> ms) ->
  u ∈ side (without_sender ms sender) s st <->
  u <> sender /\ exists m, m ∈ ms /\ user_id m = u /\ sees s m = true /\ on_side s st m = true.
Proof.
  intros Hnd. unfold side. rewrite (members_perm ms sender Hnd). rewrite list_elem_of_fmap.
  setoid_rewrite list_elem_of_filter. setoid_rewrite list_elem_of_filter. setoid_rewrite andb_true_iff.
  split.
  - intros (m & -> & (Hs & Ho) & Hu & Hm). eauto 10.
  - intros (Hu & m & Hm & <- & Hs & Ho). eauto 10.
Qed.

(** A client that asks for page after page of the readers (or of the others) of a message gets to
    the end after at most one page more than there are members on that side, and has then seen each
    of them exactly once in the order of the ids: the members other than the sender who see the
    message and have (not) read it. *)
Theorem reader_pages_list_each_member_once ms sender s st limit :
  NoDup (user_id <$> ms) -> "" ∉ user_id <$> ms -> (0 < limit)%nat ->
  let w := without_sender ms sender in
  walk (S (length (side w s st))) w s st "" limit = Some (side w s st)
  /\ StronglySorted str_lt (side w s st)
  /\ (forall u, u ∈ side w s st <->
       u <> sender /\ exists m, m ∈ ms /\ user_id m = u /\ sees s m = true /\ on_side s st m = true).
Proof.
  intros Hnd Hne Hl w.
  assert (Hin : forall u, u ∈ side w s st <-> _) by (intros u; by apply elem_of_side).
  split_and!; [|apply side_sorted|done].
  assert (Hr : rest w s st "" = side w s st) by (apply filter_all; done).
  rewrite <- Hr at 2. apply (walk_rest _ _ _ _ _ _ []); [apply side_sorted| |done|by rewrite Hr|by rewrite Hr; lia].
  intros (_ & m & Hm & Hu & _)%Hin. destruct Hne. rewrite <- Hu. by apply list_elem_of_fmap_2.
Qed.

Definition sample_group : list MemberReadPosition :=
  [mkMember "sender" 100 0; mkMember "d" 20 11; mkMember "a" 10 0; mkMember "b" 12 0; mkMember "e" 5 15].

Lemma counts_equal_a_member_by_member_count_witness :
  counts (without_sender sample_group "sender") 12 = mkCounts 2 1 3.
Proof.
  rewrite (counts_equal_a_member_by_member_count sample_group "sender" 12);
    [reflexivity|by apply (bool_decide_unpack _)|simpl; lia].
Defined.

Lemma reader_pages_list_each_member_once_witness :
  walk 3 (without_sender sample_group "sender") 12 Read "" 1 = Some ["b"; "d"].
Proof.
  apply (reader_pages_list_each_member_once sample_group "sender" 12 Read 1);
    [by apply (bool_decide_unpack _)|by apply (bool_decide_unpack _)|lia].
Defined.
