(* ===== verification/ConversationStore.v ===== *)
(** * The repository of conversations

    flare-conversation/src/infrastructure/persistence/postgres_repository.rs, the statements that
    keep a member's row: read position, list floor, history floors, unread count, settings and
    membership. A transaction is one statement of [Database]. Columns that the schema gives a
    default ([last_read_seq], [unread_count], [is_deleted], ..) are never written NULL, so they
    are not options here and their COALESCE is the column; [last_message_seq] has none. Audit
    timestamps are left out. *)

From stdpp Require Import base gmap strings list.
From Stdlib Require Import ZArith Lia.
From S2P Require Import Prelude.
From S2P Require Import Database.
From S2P Require Import Slices.
From S2P Require Import ReadReceipt.

Open Scope Z_scope.

(** ** Rows *)

(** What describes a conversation. *)
Record ConversationInfo := mkInfo {
  conversation_type : Z;
  business_type : string;
  display_name : option string;
  conversation_attributes : gmap string string;
  visibility : Z;
  channel_id : string;
}.

Record ConversationRow := mkConversationRow {
  last_message_seq : option Z;
  lifecycle_state : string;
  conversation_cleared : Z;
  info : ConversationInfo;
}.

Record ParticipantRow := mkParticipantRow {
  roles : list string;
  muted : bool;
  pinned : bool;
  attributes : gmap string string;
  joined_at : Z;
  nickname : string;
  read_seq : Z;
  sync_seq : Z;
  unread_count : Z;
  is_deleted : bool;
  is_archived : bool;
  settings_version : Z;
  draft : option string;
  quit : bool;
  from_seq : Z;
  mention_only : bool;
  cleared_seq : Z;
}.

Record MessageRow := mkMessageRow {
  m_server_id : string;
  m_seq : Z;
  m_sender : string;
  m_status : Z;
  m_created_at : Z;
  m_extra : gmap string string;
}.

Record EventRow := mkEventRow { e_seq : Z; e_type : Z; e_created_at : Z }.

Record Store := mkStore {
  conversations : gmap (string * string) ConversationRow;
  participants : gmap (string * string * string) ParticipantRow;
  messages : gmap (string * string) (list MessageRow);
  events : gmap (string * string) (list EventRow);
  pinned_messages : gmap (string * string) (list string);
  marked_messages : gmap (string * string) (list string);
  (** tenant, user, conversation: sequence and time *)
  sync_cursors : gmap (string * string * string) (Z * Z);
}.

Definition with_conversations (st : Store) x := mkStore x (participants st) (messages st) (events st)
  (pinned_messages st) (marked_messages st) (sync_cursors st).
Definition with_participants (st : Store) x := mkStore (conversations st) x (messages st) (events st)
  (pinned_messages st) (marked_messages st) (sync_cursors st).
Definition with_messages (st : Store) x := mkStore (conversations st) (participants st) x (events st)
  (pinned_messages st) (marked_messages st) (sync_cursors st).
Definition with_cursors (st : Store) x := mkStore (conversations st) (participants st) (messages st)
  (events st) (pinned_messages st) (marked_messages st) x.

Definition set_unread (n : Z) (p : ParticipantRow) : ParticipantRow :=
  mkParticipantRow (roles p) (muted p) (pinned p) (attributes p) (joined_at p) (nickname p) (read_seq p)
    (sync_seq p) n (is_deleted p) (is_archived p) (settings_version p) (draft p) (quit p) (from_seq p)
    (mention_only p) (cleared_seq p).

Definition conversation_messages (st : Store) (t c : string) : list MessageRow :=
  default [] (messages st !! (t, c)).

(** [UPDATE conversation_participants .. WHERE tenant_id = t AND conversation_id = c] *)
Definition in_conversation (t c : string) (f : string -> ParticipantRow -> ParticipantRow)
    (k : string * string * string) (p : ParticipantRow) : option ParticipantRow :=
  let '(kt, kc, u) := k in
  Some (if bool_decide (kt = t) && bool_decide (kc = c) then f u p else p).

Definition update_members (t c : string) (f : string -> ParticipantRow -> ParticipantRow) (st : Store) : Store :=
  with_participants st (map_imap (in_conversation t c f) (participants st)).

Definition members_of (st : Store) (t c : string) (p : ParticipantRow -> bool) : list (string * ParticipantRow) :=
  omap (fun '((kt, kc, u), r) =>
    if bool_decide (kt = t) && bool_decide (kc = c) && p r then Some (u, r) else None)
    (map_to_list (participants st)).

(** ** Counting *)

Definition UNREAD_EXCLUDED_STATUSES : list Z := [5; 6].
Definition MAX_RECOMPUTED_UNREAD : Z := 1000.

Definition counted (user : string) (floor : Z) (m : MessageRow) : bool :=
  bool_decide (floor < m_seq m) && negb (bool_decide (m_sender m = user))
  && negb (bool_decide (m_status m ∈ UNREAD_EXCLUDED_STATUSES)).

(** [COUNT(..)] of the messages a member has not read above a floor. *)
Definition recount (user : string) (floor : Z) (ms : list MessageRow) : Z := cnt (counted user floor) ms.

(** [LEAST(GREATEST(unread, 0), (SELECT COUNT .. LIMIT GREATEST(unread, 0)))] *)
Definition shrink (unread n : Z) : Z := Z.min (Z.max unread 0) (Z.min n (Z.max unread 0)).

(** [MAX(seq)], NULL of no message. *)
Definition max_seq (ms : list MessageRow) : option Z :=
  match ms with
  | [] => None
  | m :: ms => Some (foldr Z.max (m_seq m) (m_seq <$> ms))
  end.

(** The floors of a member's own list. *)
Definition unread_floor (c : ConversationRow) (p : ParticipantRow) : Z :=
  Z.max (read_seq p) (Z.max (from_seq p) (Z.max (sync_seq p) (Z.max (cleared_seq p) (conversation_cleared c)))).

(** [GREATEST(COALESCE(last_message_seq, 0), COALESCE(MAX(seq), 0))] *)
Definition tail (c : ConversationRow) (ms : list MessageRow) : Z :=
  Z.max (default 0 (last_message_seq c)) (default 0 (max_seq ms)).

(** ** Callers *)

Record Ctx := mkCtx {
  ctx_tenant : option string;
  ctx_user : option string;
  (** a service or the system *)
  ctx_internal : bool;
}.

Definition required_tenant (ctx : Ctx) : result string :=
  match ctx_tenant ctx with
  | Some t => if Str.is_blank t
              then Err (flare_err InvalidParameter "tenant required for conversation storage") else Ok t
  | None => Err (flare_err InvalidParameter "tenant required for conversation storage")
  end.

Section Repository.
(** [require_user_id] of the server crate. *)
Context (require_user_id : Ctx -> result string).
Context (fault : schedule).
(** [config.large_conversation_precise_unread_threshold] and the clock of the database. *)
Context (precise_unread_threshold : Z) (now : Z).

Abbreviation M := (db Store).

Definition db_err (what : string) : FlareError := flare_err DatabaseError what.

(** ** Removing *)

(** The conversation's rows and, by the foreign key, its participants. *)
Definition hard_delete_rows (t c : string) (st : Store) : Store :=
  mkStore (delete (t, c) (conversations st))
    (filter (fun '((kt, kc, _), _) => ~ (kt = t /\ kc = c)) (participants st))
    (delete (t, c) (messages st)) (delete (t, c) (events st)) (delete (t, c) (pinned_messages st))
    (delete (t, c) (marked_messages st)) (sync_cursors st).

Definition hide_row (tail : option Z) (p : ParticipantRow) : ParticipantRow :=
  mkParticipantRow (roles p) (muted p) (pinned p) (attributes p) (joined_at p) (nickname p) (read_seq p)
    (match tail with Some m => Z.max (sync_seq p) m | None => sync_seq p end)
    0 true false (settings_version p) None (quit p) (from_seq p) (mention_only p) (cleared_seq p).

Definition soft_delete_rows (t c u : string) (st : Store) : Store :=
  let tail := (fun r => tail r (conversation_messages st t c)) <$> conversations st !! (t, c) in
  match participants st !! (t, c, u) with
  | None => st
  | Some p =>
      let st := with_participants st (<[(t, c, u) := hide_row tail p]> (participants st)) in
      let seq := Z.max (default 0 tail) 0 in
      with_cursors st
        (<[(t, u, c) := match sync_cursors st !! (t, u, c) with
                        | Some (s, ts) => (Z.max s seq, Z.max ts now)
                        | None => (seq, now)
                        end]> (sync_cursors st))
  end.

Definition delete_conversation (ctx : Ctx) (c : string) (hard : bool) : M unit :=
  t ← lift_r (required_tenant ctx);
  if hard then write fault (db_err "Failed to delete conversation") (hard_delete_rows t c)
  else
    u ← lift_r (require_user_id ctx);
    write fault (db_err "Failed to soft delete conversation") (soft_delete_rows t c u).

(** ** Clearing history *)

Definition clear_row (cutoff : Z) (ms : list MessageRow) (u : string) (p : ParticipantRow) : ParticipantRow :=
  if bool_decide (0 < unread_count p) then
    set_unread (shrink (unread_count p)
      (recount u (Z.max cutoff (Z.max (cleared_seq p) (Z.max (from_seq p) (Z.max (read_seq p) (sync_seq p))))) ms)) p
  else p.

Definition clear_history_for_everyone (ctx : Ctx) (c : string) : M Z :=
  t ← lift_r (required_tenant ctx);
  cutoff ← exec fault (db_err "advance conversation history cutoff") (fun st =>
    match conversations st !! (t, c) with
    | Some r =>
        if bool_decide (lifecycle_state r = "deleted")
        then (Err (flare_err ServiceUnavailable "conversation is not available"), st)
        else
          let cutoff := Z.max (conversation_cleared r) (tail r (conversation_messages st t c)) in
          let st := with_conversations st
            (<[(t, c) := mkConversationRow (last_message_seq r) (lifecycle_state r) cutoff (info r)]> (conversations st)) in
          (Ok cutoff, update_members t c (clear_row cutoff (conversation_messages st t c)) st)
    | None => (Err (flare_err ServiceUnavailable "conversation is not available"), st)
    end);
  mret (Z.max cutoff 0).

(** ** Purging history *)

Record HistoryEpochFence := mkFence { fence_attribute : string; before_epoch : Z }.
Record HistoryPurgeBoundary := mkBoundary { before : option Z; epoch_fence : option HistoryEpochFence }.
Record ConversationHistoryPurge := mkPurge { purged_messages : Z; max_purged_seq : Z }.

Definition is_digit (a : Ascii.ascii) : bool := Nat.leb 48 (Str.code a) && Nat.leb (Str.code a) 57.

(** ['^[0-9]{1,18}$'] *)
Definition epoch_of (fence : HistoryEpochFence) (m : MessageRow) : option Z :=
  let v := default "" (m_extra m !! fence_attribute fence) in
  if negb (Str.is_empty v) && Nat.leb (String.length v) 18 && Str.all_chars is_digit v
  then Str.to_Z v else None.

Definition purges (b : HistoryPurgeBoundary) (m : MessageRow) : bool :=
  let by_time := match before b with Some at_ => bool_decide (m_created_at m < at_) | None => false end in
  match epoch_fence b with
  | None => by_time
  | Some fence => match epoch_of fence m with
                  | Some e => bool_decide (e < before_epoch fence)
                  | None => by_time
                  end
  end.

(** The smallest sequence left, [i64::MAX] of none. *)
Definition min_seq (ms : list MessageRow) : Z := foldr Z.min i64_max (m_seq <$> ms).

Definition purges_event (b : HistoryPurgeBoundary) (purged : list Z) (left : Z) (e : EventRow) : bool :=
  match epoch_fence b with
  | None => match before b with Some at_ => bool_decide (e_created_at e < at_) | None => false end
  | Some _ => bool_decide (e_seq e ∈ purged)
              || (negb (bool_decide (e_type e = 1)) && bool_decide (e_seq e < left))
  end.

(** The recount of a purge does not look at the cleared history. *)
Definition purge_row (ms : list MessageRow) (u : string) (p : ParticipantRow) : ParticipantRow :=
  if is_deleted p then p
  else set_unread (shrink (unread_count p)
         (recount u (Z.max (read_seq p) (Z.max (from_seq p) (sync_seq p))) ms)) p.

Definition purge_rows (t c : string) (b : HistoryPurgeBoundary) (st : Store) : ConversationHistoryPurge * Store :=
  let ms := conversation_messages st t c in
  let purged := filter (fun m => purges b m = true) ms in
  let left := filter (fun m => purges b m = false) ms in
  let ids := m_server_id <$> purged in
  let without := fun l => filter (fun id => id ∉ ids) l in
  let st := mkStore (conversations st) (participants st) (alter (fun _ => left) (t, c) (messages st))
    (alter (fun l => filter (fun e => purges_event b (m_seq <$> purged) (min_seq left) e = false) l)
       (t, c) (events st))
    (alter without (t, c) (pinned_messages st)) (alter without (t, c) (marked_messages st))
    (sync_cursors st) in
  (mkPurge (Z.of_nat (length purged)) (foldr Z.max 0 ((fun m => Z.max (m_seq m) 0) <$> purged)),
   if bool_decide (ids = []) then st else update_members t c (purge_row left) st).

(** Without the optional message cache. *)
Definition purge_history (ctx : Ctx) (c : string) (b : HistoryPurgeBoundary) : M ConversationHistoryPurge :=
  t ← lift_r (required_tenant ctx);
  if Str.is_blank c then lift_r (Err (flare_err InvalidParameter "conversation_id is required"))
  else if bool_decide (epoch_fence b = None) && bool_decide (before b = None) then
    lift_r (Err (flare_err InvalidParameter "a history purge needs a time boundary or an epoch fence"))
  else
    exec fault (db_err "Failed to purge conversation messages before boundary") (fun st =>
      let '(out, st') := purge_rows t c b st in (Ok out, st')).

(** ** Members *)

Record ConversationParticipant := mkParticipant {
  p_user_id : string;
  p_roles : list string;
  p_muted : bool;
  p_pinned : bool;
  p_attributes : gmap string string;
  p_visible_from_seq : Z;
  p_mention_only : bool;
}.

(** A row as it is inserted, the other columns by default. *)
Definition new_row (p : ConversationParticipant) (from : Z) : ParticipantRow :=
  mkParticipantRow (p_roles p) (p_muted p) (p_pinned p) (p_attributes p) now "" 0 0 0 false false 0 None false
    from false 0.

(** The [ON CONFLICT] of an insert: membership only, and the history floor only rises. *)
Definition readd_row (p : ConversationParticipant) (from : Z) (r : ParticipantRow) : ParticipantRow :=
  mkParticipantRow (p_roles p) (muted r) (pinned r) (p_attributes p) (joined_at r) (nickname r) (read_seq r)
    (sync_seq r) (unread_count r) false (is_archived r) (settings_version r) (draft r) false
    (Z.max (from_seq r) from) (mention_only r) (cleared_seq r).

(** A negative floor stands for the present end of the conversation. *)
Definition history_floor (ms : list MessageRow) (v : Z) : Z :=
  if bool_decide (v < 0) then default 0 (max_seq ms) else v.

Definition add_participant (t c : string) (st : Store) (p : ConversationParticipant) : Store :=
  let k := (t, c, p_user_id p) in
  let from := history_floor (conversation_messages st t c) (p_visible_from_seq p) in
  with_participants st
    (<[k := match participants st !! k with
            | Some r => readd_row p from r
            | None => new_row p from
            end]> (participants st)).

Definition set_roles (l : list string) (r : ParticipantRow) : ParticipantRow :=
  mkParticipantRow l (muted r) (pinned r) (attributes r) (joined_at r) (nickname r) (read_seq r) (sync_seq r)
    (unread_count r) (is_deleted r) (is_archived r) (settings_version r) (draft r) (quit r) (from_seq r)
    (mention_only r) (cleared_seq r).

Definition manage_rows (t c : string) (to_add : list ConversationParticipant) (to_remove : list string)
    (role_updates : list (string * list string)) (st : Store) : Store :=
  let st := foldl (add_participant t c) st to_add in
  let st := foldl (fun st u => with_participants st (delete (t, c, u) (participants st))) st to_remove in
  foldl (fun st '(u, l) => with_participants st (alter (set_roles l) (t, c, u) (participants st))) st role_updates.

(** A row of the answer. *)
Definition managed (x : string * ParticipantRow) : ConversationParticipant :=
  let '(u, r) := x in
  mkParticipant u (roles r) (muted r) (pinned r) (attributes r) (from_seq r) (mention_only r).

Definition manage_participants (ctx : Ctx) (c : string) (to_add : list ConversationParticipant)
    (to_remove : list string) (role_updates : list (string * list string)) : M (list ConversationParticipant) :=
  t ← lift_r (required_tenant ctx);
  _ ← write fault (db_err "Failed to manage participants") (manage_rows t c to_add to_remove role_updates);
  query fault (db_err "Failed to get participants") (fun st => managed <$> members_of st t c (fun _ => true)).

(** [participant_from_row] *)
Definition participant_from_row (x : string * ParticipantRow) : ConversationParticipant :=
  let '(u, r) := x in
  let attrs := if Str.is_blank (nickname r) then attributes r else <["nickname" := nickname r]> (attributes r) in
  mkParticipant u (roles r) (muted r) (pinned r) attrs (from_seq r) (mention_only r).

Definition ensure_caller_participant (ctx : Ctx) (t c : string) : M unit :=
  u ← lift_r (require_user_id ctx);
  found ← query fault (db_err "check participant membership") (fun st =>
    match participants st !! (t, c, u) with Some r => negb (quit r) | None => false end);
  if (found : bool) then mret ()
  else lift_r (Err (flare_err MessageNotFound "conversation not found")).

(** [ORDER BY joined_at, user_id] *)
Definition by_seat (a b : string * ParticipantRow) : bool :=
  bool_decide (joined_at a.2 < joined_at b.2)
  || (bool_decide (joined_at a.2 = joined_at b.2) && String.leb a.1 b.1).

Definition find_conversation_members (ctx : Ctx) (c : string) (user_ids : list string) :
    M (list ConversationParticipant) :=
  t ← lift_r (required_tenant ctx);
  let c := Str.trim c in
  if Str.is_empty c then lift_r (Err (flare_err InvalidParameter "conversation_id is required"))
  else
    _ ← (if ctx_internal ctx then mret () else ensure_caller_participant ctx t c);
    if bool_decide (user_ids = []) then mret []
    else query fault (db_err "find members") (fun st =>
           participant_from_row <$>
             Slices.sort_by by_seat (filter (fun x => x.1 ∈ user_ids) (members_of st t c (fun r => negb (quit r))))).

(** ** Unread counts *)

Definition above_precise_unread_threshold (t c : string) : M bool :=
  if bool_decide (precise_unread_threshold <= 0) then mret false
  else
    capped ← query fault (db_err "Failed to probe conversation size") (fun st =>
      Z.min (Z.of_nat (length (members_of st t c (fun r => negb (is_deleted r))))) (precise_unread_threshold + 1));
    mret (bool_decide (precise_unread_threshold < capped)).

Definition arrive_row (r : ConversationRow) (sender : string) (s status : Z) (u : string) (p : ParticipantRow) :
    ParticipantRow :=
  if is_deleted p then p
  else set_unread
    (if bool_decide (u = sender) then unread_count p
     else if bool_decide (status ∈ UNREAD_EXCLUDED_STATUSES) then unread_count p
     else if bool_decide (s <= unread_floor r p) then unread_count p
     else unread_count p + 1) p.

Definition apply_message_event (ctx : Ctx) (c sender : string) (s status : Z) : M unit :=
  t ← lift_r (required_tenant ctx);
  _ ← write fault (db_err "Failed to advance conversation seq") (fun st =>
        with_conversations st (alter (fun r =>
          mkConversationRow (Some (Z.max (default 0 (last_message_seq r)) s)) (lifecycle_state r)
            (conversation_cleared r) (info r)) (t, c) (conversations st)));
  large ← above_precise_unread_threshold t c;
  if (large : bool) then mret ()
  else
    write fault (db_err "Failed to apply message event for unread update") (fun st =>
      match conversations st !! (t, c) with
      | Some r => update_members t c (arrive_row r sender s status) st
      | None => st
      end).

Definition retract_row (r : ConversationRow) (target : MessageRow) (id : string) (ms : list MessageRow) (u : string)
    (p : ParticipantRow) : ParticipantRow :=
  if negb (is_deleted p) && bool_decide (0 < unread_count p)
     && bool_decide (Z.max (read_seq p) (Z.max (sync_seq p) (Z.max (cleared_seq p) (conversation_cleared r)))
                     < m_seq target)
     && negb (bool_decide (u = m_sender target))
  then
    let next := shrink (unread_count p)
      (cnt (fun m => counted u (unread_floor r p) m && negb (bool_decide (m_server_id m = id))) ms) in
    if bool_decide (next < unread_count p) then set_unread next p else p
  else p.

Definition retract_message_unread (ctx : Ctx) (c id : string) : M unit :=
  t ← lift_r (required_tenant ctx);
  if Str.is_blank c || Str.is_blank id then mret ()
  else
    large ← above_precise_unread_threshold t c;
    if (large : bool) then mret ()
    else
      write fault (db_err "Failed to recompute unread after a retracted message") (fun st =>
        let ms := conversation_messages st t c in
        match conversations st !! (t, c), list_find (fun m => m_server_id m = id) ms with
        | Some r, Some (_, target) => update_members t c (retract_row r target id ms) st
        | _, _ => st
        end).

(** ** Reading *)

Definition read_row (r : ConversationRow) (ms : list MessageRow) (s : Z) (u : string) (p : ParticipantRow) :
    ParticipantRow :=
  let prev := read_seq p in
  let floor := Z.max (sync_seq p) (Z.max (from_seq p) (Z.max (cleared_seq p) (conversation_cleared r))) in
  let top := Z.max (tail r ms) s in
  let next := Z.min (Z.max prev s) top in
  let unread :=
    if bool_decide (next <= prev) then Z.max (unread_count p) 0
    else if bool_decide (top <= next) then 0
    else Z.max (unread_count p
           - cnt (fun m => counted u (Z.max prev floor) m && bool_decide (m_seq m <= next)) ms) 0 in
  mkParticipantRow (roles p) (muted p) (pinned p) (attributes p) (joined_at p) (nickname p) next (sync_seq p)
    unread (is_deleted p) (is_archived p) (settings_version p) (draft p) (quit p) (from_seq p)
    (mention_only p) (cleared_seq p).

(** [LEFT JOIN conversations] *)
Definition no_conversation : ConversationRow := mkConversationRow None "" 0 (mkInfo 0 "" None ∅ 0 "").

Definition mark_as_read (ctx : Ctx) (c : string) (s : Z) : M unit :=
  t ← lift_r (required_tenant ctx);
  u ← lift_r (require_user_id ctx);
  write fault (db_err "Failed to mark as read") (fun st =>
    with_participants st
      (alter (read_row (default no_conversation (conversations st !! (t, c))) (conversation_messages st t c) s u)
         (t, c, u) (participants st))).

Definition get_unread_count (ctx : Ctx) (c : string) : M Z :=
  t ← lift_r (required_tenant ctx);
  u ← lift_r (require_user_id ctx);
  query fault (db_err "Failed to get unread count") (fun st =>
    match participants st !! (t, c, u) with Some p => unread_count p | None => 0 end).

(** ** Settings *)

Record UpdateConversationUserSettingsPatch := mkPatch {
  patch_conversation_id : string;
  patch_mention_only : option bool;
  patch_pinned : option bool;
  patch_muted : option bool;
  patch_archived : option bool;
  patch_draft : option string;
  base_settings_version : Z;
  clear_history_through_seq : option Z;
}.

Record ConversationUserSettings := mkSettings {
  s_pinned : bool;
  s_muted : bool;
  s_archived : bool;
  s_mention_only : bool;
  s_draft : option string;
  s_version : Z;
  s_cleared : Z;
}.

Definition has_patch (p : UpdateConversationUserSettingsPatch) : bool :=
  bool_decide (is_Some (patch_pinned p)) || bool_decide (is_Some (patch_mention_only p))
  || bool_decide (is_Some (patch_muted p)) || bool_decide (is_Some (patch_archived p))
  || bool_decide (is_Some (patch_draft p)) || bool_decide (is_Some (clear_history_through_seq p)).

(** [u64 as i64] and [i64::try_from(seq).unwrap_or(i64::MAX)] *)
Definition as_i64 (z : Z) : Z := if bool_decide (z <= i64_max) then z else z - 2 ^ 64.
Definition clamp_i64 (z : Z) : Z := if bool_decide (z <= i64_max) then z else i64_max.

(** [GREATEST(last_message_seq, MAX(seq), 0)]: NULL is left out. *)
Definition settings_row (r : ConversationRow) (ms : list MessageRow) (patch : UpdateConversationUserSettingsPatch)
    (p : ParticipantRow) : ParticipantRow :=
  mkParticipantRow (roles p) (default (muted p) (patch_muted patch)) (default (pinned p) (patch_pinned patch))
    (attributes p) (joined_at p) (nickname p) (read_seq p) (sync_seq p) (unread_count p) (is_deleted p)
    (if bool_decide (lifecycle_state r = "archived") then is_archived p
     else default (is_archived p) (patch_archived patch))
    (settings_version p + 1)
    (match patch_draft patch with
     | None => draft p
     | Some d => if Str.is_empty d then None else Some d
     end)
    (quit p) (from_seq p) (default (mention_only p) (patch_mention_only patch))
    (match clear_history_through_seq patch with
     | None => cleared_seq p
     | Some k => Z.max (cleared_seq p) (Z.min (clamp_i64 k) (Z.max (tail r ms) 0))
     end).

Definition accepts_patch (r : ConversationRow) (patch : UpdateConversationUserSettingsPatch) (p : ParticipantRow) :
    bool :=
  negb (is_deleted p)
  && (bool_decide (clear_history_through_seq patch = None)
      || (negb (quit p) && negb (bool_decide (lifecycle_state r = "deleted"))))
  && (bool_decide (as_i64 (base_settings_version patch) = 0)
      || bool_decide (settings_version p = as_i64 (base_settings_version patch))).

Definition settings_of (r : ConversationRow) (p : ParticipantRow) : ConversationUserSettings :=
  mkSettings (pinned p) (muted p) (bool_decide (lifecycle_state r = "archived") || is_archived p)
    (mention_only p) (draft p) (Z.max (settings_version p) 0) (cleared_seq p).

Definition update_user_settings (ctx : Ctx) (patch : UpdateConversationUserSettingsPatch) :
    M ConversationUserSettings :=
  t ← lift_r (required_tenant ctx);
  u ← lift_r (require_user_id ctx);
  if negb (has_patch patch) then
    lift_r (Err (flare_err InvalidParameter "at least one user setting field is required"))
  else
    let c := patch_conversation_id patch in
    row ← exec fault (db_err "update user settings") (fun st =>
      match conversations st !! (t, c), participants st !! (t, c, u) with
      | Some r, Some p =>
          if accepts_patch r patch p then
            let p' := settings_row r (conversation_messages st t c) patch p in
            (Ok (Some (settings_of r p')), with_participants st (<[(t, c, u) := p']> (participants st)))
          else (Ok None, st)
      | _, _ => (Ok None, st)
      end);
    match row with
    | Some s => mret s
    | None =>
        lift_r (Err (if bool_decide (0 < base_settings_version patch)
                     then flare_err HttpConflict "user settings version conflict or participant not found"
                     else flare_err HttpNotFound "conversation participant not found"))
    end.

(** ** Receipts *)

Definition list_member_read_positions (ctx : Ctx) (c : string) (limit : nat) : M (list MemberReadPosition) :=
  t ← lift_r (required_tenant ctx);
  query fault (db_err "list member read positions") (fun st =>
    take limit (Slices.sort_by by_user
      ((fun '(u, r) => mkMember u (read_seq r) (from_seq r)) <$> members_of st t c (fun r => negb (quit r))))).

Definition receipt_message (m : MessageRow) : ReceiptMessage :=
  mkReceiptMessage (m_server_id m) (m_seq m) (m_sender m) (m_status m).

Definition find_receipt_messages (ctx : Ctx) (c : string) (ids : list string) : M (list ReceiptMessage) :=
  t ← lift_r (required_tenant ctx);
  if bool_decide (ids = []) then mret []
  else query fault (db_err "find receipt messages") (fun st =>
         receipt_message <$> filter (fun m => m_server_id m ∈ ids) (conversation_messages st t c)).

(** The unread count of the conversation list: the recount is capped, and a count kept in the row
    counts as a lower bound unless history was cleared. [hidden] holds the messages hidden for the
    whole conversation (message_visibility). *)
Definition listed_unread (hidden : string -> bool) (r : ConversationRow) (ms : list MessageRow) (u : string) (p : ParticipantRow) : Z :=
  let tail := Z.min (cnt (fun m => counted u (unread_floor r p) m && negb (hidden (m_server_id m))) ms)
                MAX_RECOMPUTED_UNREAD in
  if bool_decide (0 < Z.max (cleared_seq p) (conversation_cleared r)) then tail
  else Z.max (unread_count p) tail.

End Repository.

(** ** The members of a conversation *)

Lemma elem_of_members st t c p u r :
  (u, r) ∈ members_of st t c p <-> participants st !! (t, c, u) = Some r /\ p r = true.
Proof.
  unfold members_of. rewrite list_elem_of_omap. split.
  - intros ([[[kt kc] v] q] & Hin & E). apply elem_of_map_to_list in Hin.
    destruct (decide (kt = t)) as [->|]; [|by rewrite (bool_decide_eq_false_2 (kt = t)) in E].
    destruct (decide (kc = c)) as [->|]; [|by rewrite (bool_decide_eq_false_2 (kc = c)), andb_false_r in E].
    rewrite !bool_decide_eq_true_2 in E by done. simpl in E. destruct (p q) eqn:Ep; by simplify_eq.
  - intros [Hp Hr]. exists ((t, c, u), r). rewrite elem_of_map_to_list. split; [done|].
    by rewrite !bool_decide_eq_true_2, Hr by done.
Qed.

Lemma NoDup_members st t c p : NoDup (members_of st t c p).*1.
Proof.
  unfold members_of. rewrite list_fmap_omap. apply NoDup_omap; [apply NoDup_map_to_list|].
  intros [[[t1 c1] u1] r1] [[[t2 c2] u2] r2] b H1%elem_of_map_to_list H2%elem_of_map_to_list. simpl.
  destruct (decide (t1 = t)) as [->|]; [|by rewrite (bool_decide_eq_false_2 (t1 = t))].
  destruct (decide (c1 = c)) as [->|]; [|by rewrite (bool_decide_eq_false_2 (c1 = c)), andb_false_r].
  destruct (decide (t2 = t)) as [->|]; [|by rewrite (bool_decide_eq_false_2 (t2 = t))].
  destruct (decide (c2 = c)) as [->|]; [|by rewrite (bool_decide_eq_false_2 (c2 = c)), andb_false_r].
  rewrite !bool_decide_eq_true_2 by done. simpl. intros E1 E2. repeat case_match; simplify_eq/=. done.
Qed.
