(* ===== verification/Unread.v ===== *)
(** * Unread counts and read positions of conversation members

    Over the statements of [ConversationStore]: the unread count a member's row keeps is the number
    of messages the member has not read, through sends, reads, hides, clears, retractions, joins and
    leaves; floors and versions only rise; hiding a conversation is not reading it. *)

From stdpp Require Import base gmap strings list.
From Stdlib Require Import ZArith Lia.
From S2P Require Import Prelude.
From S2P Require Import Database.
From S2P Require Import Slices.
From S2P Require Import ReadReceipt.
From S2P Require Import ConversationStore.

Open Scope Z_scope.

(** ** Lookups *)

Lemma lookup_update_members t c f st u :
  participants (update_members t c f st) !! (t, c, u) = f u <$> participants st !! (t, c, u).
Proof.
  unfold update_members. simpl. rewrite map_lookup_imap.
  destruct (participants st !! (t, c, u)); simpl; [|done]. by rewrite !bool_decide_eq_true_2.
Qed.

Lemma lookup_update_members_ne t c f st k :
  k.1 <> (t, c) -> participants (update_members t c f st) !! k = participants st !! k.
Proof.
  destruct k as [[kt kc] u]. simpl. intros Hk. unfold update_members. simpl. rewrite map_lookup_imap.
  destruct (participants st !! (kt, kc, u)); simpl; [|done].
  destruct (decide (kt = t)) as [->|]; [rewrite (bool_decide_eq_false_2 (kc = c)) by congruence|];
    rewrite ?andb_false_r, ?(bool_decide_eq_false_2 (kt = t)) by done; done.
Qed.

(** ** Counts *)

Lemma cnt_app {A} (p : A -> bool) l k : cnt p (l ++ k) = cnt p l + cnt p k.
Proof. induction l as [|x l IH]; [done|]. rewrite <- app_comm_cons, !cnt_cons, IH. lia. Qed.

Lemma cnt_ext {A} (p q : A -> bool) l : (forall x, x ∈ l -> p x = q x) -> cnt p l = cnt q l.
Proof.
  induction l as [|x l IH]; intros Hl; [done|]. rewrite !cnt_cons, Hl, IH; [done| |left].
  intros y Hy. apply Hl. by right.
Qed.

Lemma cnt_zero {A} (p : A -> bool) l : (forall x, x ∈ l -> p x = false) -> cnt p l = 0.
Proof. intros Hl. unfold cnt. rewrite Slices.filter_none; [done|]. intros x Hx. by rewrite Hl. Qed.

Lemma cnt_split {A} (p q : A -> bool) l : cnt p l = cnt (fun x => p x && q x) l + cnt (fun x => p x && negb (q x)) l.
Proof.
  induction l as [|x l IH]; [done|]. rewrite !cnt_cons, IH. destruct (p x), (q x); simpl; lia.
Qed.

Lemma cnt_nonneg {A} (p : A -> bool) l : 0 <= cnt p l.
Proof. unfold cnt. lia. Qed.

Lemma cnt_mono {A} (p q : A -> bool) l : (forall x, x ∈ l -> p x = true -> q x = true) -> cnt p l <= cnt q l.
Proof.
  induction l as [|x l IH]; intros Hl; [done|]. rewrite !cnt_cons.
  assert (IH' : cnt p l <= cnt q l) by (apply IH; intros y Hy; apply Hl; by right).
  specialize (Hl x (list_elem_of_here _ _)). destruct (p x), (q x); naive_solver lia.
Qed.

#[export] Hint Resolve cnt_nonneg : core.

Lemma foldr_max_le z l : z <= foldr Z.max z l /\ forall y, y ∈ l -> y <= foldr Z.max z l.
Proof.
  induction l as [|x l [IH1 IH2]]; simpl; [split; [lia|by intros y ?%not_elem_of_nil]|].
  split; [lia|]. intros y [->|Hy]%elem_of_cons; [lia|]. specialize (IH2 y Hy). lia.
Qed.

Lemma max_seq_le ms m : m ∈ ms -> m_seq m <= default 0 (max_seq ms).
Proof.
  destruct ms as [|x ms]; [by intros ?%not_elem_of_nil|].
  destruct (foldr_max_le (m_seq x) (m_seq <$> ms)) as [H1 H2].
  intros [->|Hm]%elem_of_cons; [done|]. apply H2. by apply list_elem_of_fmap_2.
Qed.

Lemma tail_le r ms m : m ∈ ms -> m_seq m <= tail r ms.
Proof. intros Hm. unfold tail. pose proof (max_seq_le ms m Hm). lia. Qed.

(** Nothing is above a floor at the tail. *)
Lemma recount_above u floor ms : (forall m, m ∈ ms -> m_seq m <= floor) -> recount u floor ms = 0.
Proof.
  intros Hm. apply cnt_zero. intros m Hin. unfold counted.
  rewrite bool_decide_eq_false_2; [done|]. specialize (Hm m Hin). lia.
Qed.

(** Raising the floor drops the messages in between. *)
Lemma recount_raise u a b ms :
  a <= b -> recount u a ms = cnt (fun m => counted u a m && bool_decide (m_seq m <= b)) ms + recount u b ms.
Proof.
  intros Hab. unfold recount. rewrite (cnt_split (counted u a) (fun m => bool_decide (m_seq m <= b))).
  f_equal. apply cnt_ext. intros m _. unfold counted.
  destruct (decide (m_seq m <= b)).
  - rewrite (bool_decide_eq_true_2 (m_seq m <= b)), andb_false_r by done.
    by rewrite (bool_decide_eq_false_2 (b < m_seq m)) by lia.
  - rewrite (bool_decide_eq_false_2 (m_seq m <= b)) by done. simpl.
    rewrite (bool_decide_eq_true_2 (a < m_seq m)), (bool_decide_eq_true_2 (b < m_seq m)) by lia.
    by rewrite andb_true_r.
Qed.

Lemma shrink_exact n k : 0 <= k <= n -> shrink n k = k.
Proof. unfold shrink. lia. Qed.

(** ** The steps of a conversation *)

Section Steps.
Context (require_user_id : Ctx -> result string) (threshold now : Z).
Context (t c : string).

(** Counts are kept exactly: the group is within the threshold. *)
Definition precise (st : Store) : Prop :=
  threshold <= 0 \/ Z.of_nat (length (members_of st t c (fun r => negb (is_deleted r)))) <= threshold.

Definition set_status (id : string) (status : Z) (m : MessageRow) : MessageRow :=
  if bool_decide (m_server_id m = id)
  then mkMessageRow (m_server_id m) (m_seq m) (m_sender m) status (m_created_at m) (m_extra m) else m.

(** The writer's part: a message is stored, the status of one changes. *)
Definition store_message (m : MessageRow) (st : Store) : Store :=
  with_messages st (<[(t, c) := conversation_messages st t c ++ [m]]> (messages st)).
Definition end_message (id : string) (status : Z) (st : Store) : Store :=
  with_messages st (<[(t, c) := set_status id status <$> conversation_messages st t c]> (messages st)).

(** One thing after the other, and nothing fails; the event of a message is applied once, when the
    message is stored. *)
Inductive step : Store -> Store -> Prop :=
  | send ctx m st n n' st' :
      required_tenant ctx = Ok t -> precise st ->
      m_server_id m ∉ m_server_id <$> conversation_messages st t c ->
      apply_message_event calm threshold ctx c (m_sender m) (m_seq m) (m_status m) (n, store_message m st)
        = (Ok (), (n', st')) -> step st st'
  | read ctx u s st n n' st' :
      required_tenant ctx = Ok t -> require_user_id ctx = Ok u ->
      mark_as_read require_user_id calm ctx c s (n, st) = (Ok (), (n', st')) -> step st st'
  | hide ctx u st n n' st' :
      required_tenant ctx = Ok t -> require_user_id ctx = Ok u ->
      delete_conversation require_user_id calm now ctx c false (n, st) = (Ok (), (n', st')) -> step st st'
  | clear_all ctx k st n n' st' :
      required_tenant ctx = Ok t ->
      clear_history_for_everyone calm ctx c (n, st) = (Ok k, (n', st')) -> step st st'
  | retract ctx id status st n n' st' :
      required_tenant ctx = Ok t -> precise st -> status ∈ UNREAD_EXCLUDED_STATUSES ->
      Str.is_blank c = false -> Str.is_blank id = false ->
      retract_message_unread calm threshold ctx c id (n, end_message id status st) = (Ok (), (n', st')) ->
      step st st'
  | join ctx p l st n n' st' :
      required_tenant ctx = Ok t -> participants st !! (t, c, p_user_id p) = None -> p_visible_from_seq p < 0 ->
      manage_participants calm now ctx c [p] [] [] (n, st) = (Ok l, (n', st')) -> step st st'
  | leave ctx u l st n n' st' :
      required_tenant ctx = Ok t ->
      manage_participants calm now ctx c [] [u] [] (n, st) = (Ok l, (n', st')) -> step st st'.

(** Message ids are distinct, the conversation exists, and what a member's row counts is what the
    member has not read. *)
Record exact (st : Store) : Prop := {
  ids_distinct : NoDup (m_server_id <$> conversation_messages st t c);
  counts_exact : exists r, conversations st !! (t, c) = Some r /\
    forall u p, participants st !! (t, c, u) = Some p -> is_deleted p = false ->
      unread_count p = recount u (unread_floor r p) (conversation_messages st t c)
}.

Lemma precise_small n st :
  precise st -> exists n', above_precise_unread_threshold calm threshold t c (n, st) = (Ok false, (n', st)).
Proof.
  intros Hp. unfold above_precise_unread_threshold. destruct (decide (threshold <= 0)).
  - rewrite bool_decide_eq_true_2 by done. by eexists.
  - rewrite bool_decide_eq_false_2 by done. unfold mbind, stE_bind, query. rewrite exec_calm. simpl.
    rewrite bool_decide_eq_false_2; [by eexists|]. destruct Hp; lia.
Qed.

(** Reading. *)
Lemma read_row_exact r ms s u p :
  unread_count p = recount u (unread_floor r p) ms ->
  unread_count (read_row r ms s u p) = recount u (unread_floor r (read_row r ms s u p)) ms.
Proof.
  intros He. pose proof (tail_le r ms) as Ht. pose proof (cnt_nonneg (counted u (unread_floor r p)) ms) as Hn.
  fold (recount u (unread_floor r p) ms) in Hn.
  set (floor := Z.max (sync_seq p) (Z.max (from_seq p) (Z.max (cleared_seq p) (conversation_cleared r)))).
  set (next := Z.min (Z.max (read_seq p) s) (Z.max (tail r ms) s)).
  assert (Hf : forall q, read_seq q = next -> sync_seq q = sync_seq p -> from_seq q = from_seq p ->
                cleared_seq q = cleared_seq p -> unread_floor r q = Z.max next floor).
  { intros q Hq Hs Hfr Hc. unfold unread_floor. rewrite Hq, Hs, Hfr, Hc. unfold floor. lia. }
  rewrite (Hf (read_row r ms s u p)) by done.
  assert (Hp : unread_floor r p = Z.max (read_seq p) floor) by (unfold unread_floor, floor; lia).
  unfold read_row. cbv zeta. simpl. fold floor next.
  case_bool_decide as E1; [|case_bool_decide as E2].
  - rewrite He, Z.max_l by lia. rewrite Hp. destruct (decide (next = read_seq p)) as [->|Hne]; [done|].
    rewrite !recount_above; [done| |]; intros m Hm; specialize (Ht m Hm); unfold next in *; lia.
  - rewrite recount_above; [done|]. intros m Hm. specialize (Ht m Hm). lia.
  - rewrite He, Hp. rewrite (recount_raise u (Z.max (read_seq p) floor) (Z.max next floor)) by lia.
    assert (Hc : cnt (fun m => counted u (Z.max (read_seq p) floor) m && bool_decide (m_seq m <= Z.max next floor)) ms
             = cnt (fun m => counted u (Z.max (read_seq p) floor) m && bool_decide (m_seq m <= next)) ms).
    { apply cnt_ext. intros m _. unfold counted. destruct (decide (Z.max (read_seq p) floor < m_seq m)) as [Hlt|Hlt].
      - f_equal. apply bool_decide_ext. lia.
      - by rewrite (bool_decide_eq_false_2 (_ < _)) by done. }
    rewrite Hc. pose proof (cnt_nonneg (counted u (Z.max next floor)) ms). unfold recount in *. lia.
Qed.

(** A message arrives. *)
Lemma arrive_row_exact r r' ms m u p :
  conversation_cleared r' = conversation_cleared r -> is_deleted p = false ->
  unread_count p = recount u (unread_floor r p) ms ->
  unread_count (arrive_row r' (m_sender m) (m_seq m) (m_status m) u p)
  = recount u (unread_floor r' (arrive_row r' (m_sender m) (m_seq m) (m_status m) u p)) (ms ++ [m]).
Proof.
  intros Hc Hd He. unfold arrive_row. rewrite Hd.
  assert (Hf : forall n, unread_floor r' (set_unread n p) = unread_floor r p)
    by (intros; unfold unread_floor; simpl; by rewrite Hc).
  assert (Hf' : unread_floor r' p = unread_floor r p) by (unfold unread_floor; by rewrite Hc).
  rewrite Hf, Hf'. unfold recount. rewrite cnt_app. fold (recount u (unread_floor r p) ms). rewrite <- He.
  rewrite cnt_cons, cnt_nil. unfold counted. simpl.
  destruct (decide (m_sender m = u)) as [E|E];
    [rewrite (bool_decide_eq_true_2 (m_sender m = u)), (bool_decide_eq_true_2 (u = m_sender m)) by done
    |rewrite (bool_decide_eq_false_2 (m_sender m = u)), (bool_decide_eq_false_2 (u = m_sender m)) by done].
  { rewrite andb_false_r. simpl. lia. }
  destruct (bool_decide (m_status m ∈ UNREAD_EXCLUDED_STATUSES)); [rewrite andb_false_r; lia|].
  destruct (decide (m_seq m <= unread_floor r p)).
  - rewrite (bool_decide_eq_true_2 (_ <= _)), (bool_decide_eq_false_2 (_ < _)) by lia. simpl. lia.
  - rewrite (bool_decide_eq_false_2 (_ <= _)), (bool_decide_eq_true_2 (_ < _)) by lia. simpl. lia.
Qed.

Lemma arrive_row_deleted r sender s status u p : is_deleted (arrive_row r sender s status u p) = is_deleted p.
Proof. unfold arrive_row. by destruct (is_deleted p) eqn:E. Qed.

(** History is cleared for everyone. *)
Lemma clear_row_exact cutoff r' ms u p n :
  (forall m, m ∈ ms -> m_seq m <= cutoff) -> conversation_cleared r' = cutoff ->
  unread_count p = n -> 0 <= n ->
  unread_count (clear_row cutoff ms u p) = recount u (unread_floor r' (clear_row cutoff ms u p)) ms.
Proof.
  intros Hm Hc He Hn. rewrite (recount_above u (unread_floor r' _)).
  - unfold clear_row. case_bool_decide; [|lia]. simpl. rewrite recount_above; [unfold shrink; lia|].
    intros m Hin. specialize (Hm m Hin). lia.
  - intros m Hin. specialize (Hm m Hin). unfold unread_floor. rewrite Hc. lia.
Qed.

(** A message ends. *)
Lemma counted_ended u floor id status ms :
  status ∈ UNREAD_EXCLUDED_STATUSES ->
  cnt (counted u floor) (set_status id status <$> ms)
  = cnt (fun m => counted u floor m && negb (bool_decide (m_server_id m = id))) ms.
Proof.
  intros Hs. rewrite cnt_fmap. apply cnt_ext. intros m _. unfold set_status, counted.
  destruct (bool_decide (m_server_id m = id)); simpl; [|by rewrite andb_true_r].
  rewrite (bool_decide_eq_true_2 (status ∈ _)) by done. by rewrite !andb_false_r.
Qed.

Lemma counted_ended_again u floor id status ms :
  cnt (fun m => counted u floor m && negb (bool_decide (m_server_id m = id))) (set_status id status <$> ms)
  = cnt (fun m => counted u floor m && negb (bool_decide (m_server_id m = id))) ms.
Proof.
  rewrite cnt_fmap. apply cnt_ext. intros m _. unfold set_status.
  destruct (bool_decide (m_server_id m = id)) eqn:E; simpl; rewrite E; [by rewrite !andb_false_r|done].
Qed.

(** Leaving out a message that does not count changes nothing. *)
Lemma uncounted_target u floor id ms i target :
  NoDup (m_server_id <$> ms) -> ms !! i = Some target -> m_server_id target = id ->
  counted u floor target = false ->
  cnt (fun m => counted u floor m && negb (bool_decide (m_server_id m = id))) ms = recount u floor ms.
Proof.
  intros Hnd Hi Hid Hc. apply cnt_ext. intros m Hm. case_bool_decide as E; [|by rewrite andb_true_r].
  rewrite andb_false_r. apply list_elem_of_lookup in Hm as [j Hj].
  assert (i = j) as <-; [|naive_solver].
  eapply NoDup_lookup; [exact Hnd|by rewrite list_lookup_fmap, Hi|by rewrite list_lookup_fmap, Hj; simpl; congruence].
Qed.

Lemma retract_row_exact r target i id status ms u p :
  status ∈ UNREAD_EXCLUDED_STATUSES -> NoDup (m_server_id <$> ms) ->
  ms !! i = Some target -> m_server_id target = id ->
  unread_count p = recount u (unread_floor r p) ms -> is_deleted p = false ->
  let p' := retract_row r (set_status id status target) id (set_status id status <$> ms) u p in
  is_deleted p' = false
  /\ unread_count p' = recount u (unread_floor r p') (set_status id status <$> ms).
Proof.
  intros Hs Hnd Hi Hid He Hd p'.
  assert (Hfl : forall n, unread_floor r (set_unread n p) = unread_floor r p) by done.
  pose proof (counted_ended u (unread_floor r p) id status ms Hs) as Hk.
  fold (recount u (unread_floor r p) (set_status id status <$> ms)) in Hk.
  set (k := cnt _ ms) in Hk.
  assert (Hkn : 0 <= k <= unread_count p).
  { split; [apply cnt_nonneg|]. rewrite He. apply cnt_mono. intros m _. by intros [? _]%andb_true_iff. }
  assert (Hseq : m_seq (set_status id status target) = m_seq target
              /\ m_sender (set_status id status target) = m_sender target).
  { unfold set_status. by case_bool_decide. }
  destruct Hseq as [Hseq Hsender].
  unfold p', retract_row. rewrite Hd, Hseq, Hsender, counted_ended_again. fold k. simpl.
  rewrite shrink_exact by done.
  destruct (decide (0 < unread_count p)) as [Hu|Hu];
    [rewrite (bool_decide_eq_true_2 (0 < _)) by done|rewrite (bool_decide_eq_false_2 (0 < _)) by done];
    [|simpl; split; [done|]; rewrite Hk; lia].
  destruct (bool_decide (_ < m_seq target)) eqn:Ef; simpl.
  - destruct (bool_decide (u = m_sender target)) eqn:Eu; simpl.
    + split; [done|]. rewrite Hk, He. symmetry. eapply (uncounted_target _ _ _ _ i target); try done.
      apply bool_decide_eq_true in Eu. unfold counted.
      rewrite (bool_decide_eq_true_2 (m_sender target = u)) by done. by rewrite andb_false_r.
    + destruct (bool_decide (k < unread_count p)) eqn:Ek; (split; [done|]); rewrite ?Hfl, Hk; [done|].
      apply bool_decide_eq_false in Ek. lia.
  - split; [done|]. rewrite Hk, He. symmetry. eapply (uncounted_target _ _ _ _ i target); try done.
    apply bool_decide_eq_false in Ef. unfold counted.
    by rewrite (bool_decide_eq_false_2 (_ < m_seq target)) by (unfold unread_floor; lia).
Qed.

(** A change of the members of an exact conversation. *)
Lemma exact_members st r r' ms' st' (f : string -> ParticipantRow -> ParticipantRow) :
  conversations st !! (t, c) = Some r ->
  (forall u p, participants st !! (t, c, u) = Some p -> is_deleted p = false ->
     unread_count p = recount u (unread_floor r p) (conversation_messages st t c)) ->
  conversations st' !! (t, c) = Some r' -> conversation_messages st' t c = ms' ->
  (forall u, participants st' !! (t, c, u) = f u <$> participants st !! (t, c, u)) ->
  NoDup (m_server_id <$> ms') ->
  (forall u p, is_deleted (f u p) = false -> is_deleted p = false) ->
  (forall u p, is_deleted p = false -> unread_count p = recount u (unread_floor r p) (conversation_messages st t c) ->
     unread_count (f u p) = recount u (unread_floor r' (f u p)) ms') ->
  exact st'.
Proof.
  intros Hr He Hr' Hms Hp Hnd Hd Hf. split; [by rewrite Hms|]. exists r'. split; [done|].
  intros u p Hu Hdel. rewrite Hms. rewrite Hp in Hu. destruct (participants st !! (t, c, u)) as [q|] eqn:Eq; [|done].
  injection Hu as <-. apply Hf; [by eapply Hd|]. apply He; [done|]. by eapply Hd.
Qed.

Lemma messages_stored m st : conversation_messages (store_message m st) t c = conversation_messages st t c ++ [m].
Proof. unfold conversation_messages at 1. simpl. by rewrite lookup_insert_eq. Qed.
Lemma messages_ended id status st :
  conversation_messages (end_message id status st) t c = set_status id status <$> conversation_messages st t c.
Proof. unfold conversation_messages at 1. simpl. by rewrite lookup_insert_eq. Qed.

Lemma ids_ended id status (ms : list MessageRow) : m_server_id <$> (set_status id status <$> ms) = m_server_id <$> ms.
Proof.
  rewrite <- list_fmap_compose. apply list_fmap_ext. intros i m _. simpl. unfold set_status. by case_bool_decide.
Qed.

Lemma send_exact ctx m st n n' st' :
  required_tenant ctx = Ok t -> precise st ->
  m_server_id m ∉ m_server_id <$> conversation_messages st t c ->
  apply_message_event calm threshold ctx c (m_sender m) (m_seq m) (m_status m) (n, store_message m st)
    = (Ok (), (n', st')) ->
  exact st -> exact st'.
Proof.
  intros Ht Hp Hid Hrun [Hnd (r & Hr & He)].
  unfold apply_message_event in Hrun. rewrite Ht in Hrun. unfold mbind, stE_bind, lift_r in Hrun.
  unfold write in Hrun. rewrite exec_calm in Hrun. cbn [fst snd] in Hrun.
  set (st1 := with_conversations (store_message m st) _) in Hrun.
  destruct (precise_small (S n) st1 Hp) as [n1 Hn1]. rewrite Hn1 in Hrun. rewrite exec_calm in Hrun.
  cbn [fst snd] in Hrun. unfold st1 in Hrun at 1. simpl in Hrun. rewrite lookup_alter_eq, Hr in Hrun. simpl in Hrun.
  injection Hrun as _ <-.
  eapply (exact_members st r _ (conversation_messages st t c ++ [m]) _
            (fun u p => arrive_row _ (m_sender m) (m_seq m) (m_status m) u p)); [exact Hr|exact He|..].
  - simpl. rewrite lookup_alter_eq, Hr. simpl. reflexivity.
  - apply (messages_stored m st).
  - intros u. rewrite lookup_update_members. done.
  - rewrite fmap_app. apply NoDup_app. split_and!; [done| |apply NoDup_singleton]. set_solver.
  - intros u p. by rewrite arrive_row_deleted.
  - intros u p Hd Hu. by apply (arrive_row_exact r).
Qed.

Lemma read_exact ctx u s st n n' st' :
  required_tenant ctx = Ok t -> require_user_id ctx = Ok u ->
  mark_as_read require_user_id calm ctx c s (n, st) = (Ok (), (n', st')) -> exact st -> exact st'.
Proof.
  intros Ht Hu Hrun [Hnd (r & Hr & He)].
  unfold mark_as_read in Hrun. rewrite Ht, Hu in Hrun. unfold mbind, stE_bind, lift_r, write in Hrun.
  rewrite exec_calm in Hrun. injection Hrun as _ <-. rewrite Hr. simpl.
  eapply (exact_members st r r _ _ (fun v p => if bool_decide (v = u)
            then read_row r (conversation_messages st t c) s u p else p)); [exact Hr|exact He|done|reflexivity|..].
  - intros v. simpl. case_bool_decide as E; [subst v; apply lookup_alter_eq|].
    rewrite lookup_alter_ne by congruence. by destruct (participants st !! (t, c, v)).
  - done.
  - intros v p. by case_bool_decide.
  - intros v p Hd Hv. case_bool_decide as E; [subst v; by apply read_row_exact|done].
Qed.

Lemma hide_exact ctx u st n n' st' :
  required_tenant ctx = Ok t -> require_user_id ctx = Ok u ->
  delete_conversation require_user_id calm now ctx c false (n, st) = (Ok (), (n', st')) -> exact st -> exact st'.
Proof.
  intros Ht Hu Hrun [Hnd (r & Hr & He)].
  unfold delete_conversation in Hrun. rewrite Ht, Hu in Hrun. unfold mbind, stE_bind, lift_r, write in Hrun.
  rewrite exec_calm in Hrun. injection Hrun as _ <-. simpl. unfold soft_delete_rows. rewrite Hr. simpl.
  destruct (participants st !! (t, c, u)) as [q|] eqn:Eq; [|by split; eauto].
  eapply (exact_members st r r _ _ (fun v p => if bool_decide (v = u)
            then hide_row (Some (tail r (conversation_messages st t c))) p else p));
    [exact Hr|exact He|done|reflexivity|..].
  - intros v. simpl. case_bool_decide as E; [subst v; by rewrite lookup_insert_eq, Eq|].
    rewrite lookup_insert_ne by congruence. by destruct (participants st !! (t, c, v)).
  - done.
  - intros v p. by case_bool_decide.
  - intros v p Hd Hv. case_bool_decide as E; [|done]. simpl.
    rewrite recount_above; [done|]. intros m Hm. pose proof (tail_le r (conversation_messages st t c) m Hm).
    unfold unread_floor. simpl. lia.
Qed.

Lemma clear_exact ctx k st n n' st' :
  required_tenant ctx = Ok t ->
  clear_history_for_everyone calm ctx c (n, st) = (Ok k, (n', st')) -> exact st -> exact st'.
Proof.
  intros Ht Hrun [Hnd (r & Hr & He)].
  unfold clear_history_for_everyone in Hrun. rewrite Ht in Hrun. unfold mbind, stE_bind, lift_r in Hrun.
  rewrite exec_calm in Hrun. rewrite Hr in Hrun. case_bool_decide; simpl in Hrun; [done|].
  injection Hrun as _ _ <-.
  set (cutoff := Z.max (conversation_cleared r) (tail r (conversation_messages st t c))).
  eapply (exact_members st r _ _ _ (fun u p => clear_row cutoff (conversation_messages st t c) u p));
    [exact Hr|exact He|..].
  - simpl. by rewrite lookup_insert_eq.
  - reflexivity.
  - intros u. by rewrite lookup_update_members.
  - done.
  - intros u p. unfold clear_row. by case_bool_decide.
  - intros u p Hd Hu. eapply clear_row_exact; [|done|exact Hu|apply cnt_nonneg].
    intros m Hm. pose proof (tail_le r (conversation_messages st t c) m Hm). unfold cutoff. lia.
Qed.

Lemma retract_exact ctx id status st n n' st' :
  required_tenant ctx = Ok t -> precise st -> status ∈ UNREAD_EXCLUDED_STATUSES ->
  Str.is_blank c = false -> Str.is_blank id = false ->
  retract_message_unread calm threshold ctx c id (n, end_message id status st) = (Ok (), (n', st')) ->
  exact st -> exact st'.
Proof.
  intros Ht Hp Hs Hbc Hbi Hrun [Hnd (r & Hr & He)].
  unfold retract_message_unread in Hrun. rewrite Ht, Hbc, Hbi in Hrun. simpl in Hrun.
  unfold mbind, stE_bind, lift_r in Hrun.
  destruct (precise_small n (end_message id status st) Hp) as [n1 Hn1]. rewrite Hn1 in Hrun.
  unfold write in Hrun. rewrite exec_calm in Hrun. rewrite messages_ended in Hrun. simpl in Hrun.
  rewrite Hr in Hrun.
  set (ms := conversation_messages st t c) in *. set (ms' := set_status id status <$> ms) in *.
  assert (Hms' : conversation_messages (end_message id status st) t c = ms') by apply messages_ended.
  assert (Hnd' : NoDup (m_server_id <$> ms')) by (unfold ms'; by rewrite ids_ended).
  destruct (list_find (fun m => m_server_id m = id) ms') as [[i target']|] eqn:El; simpl in Hrun;
    injection Hrun as _ <-.
  - apply list_find_Some in El as (Hi & Hid & _). unfold ms' in Hi. rewrite list_lookup_fmap in Hi.
    destruct (ms !! i) as [target|] eqn:Ei; [|done]. injection Hi as <-.
    assert (Hid' : m_server_id target = id) by (unfold set_status in Hid; by case_bool_decide).
    eapply (exact_members st r r ms' _ (retract_row r (set_status id status target) id ms'));
      [exact Hr|exact He|exact Hr|exact Hms'| |done|..].
    + intros u. by rewrite lookup_update_members.
    + intros u p. unfold retract_row. case_match eqn:E; [|done]. intros _. by destruct (is_deleted p).
    + intros u p Hd Hu. by eapply (retract_row_exact r target i id status ms u p).
  - eapply (exact_members st r r ms' _ (fun _ p => p)); [exact Hr|exact He|exact Hr|exact Hms'| |done|done|].
    + intros u. simpl. by destruct (participants st !! (t, c, u)).
    + intros u p Hd Hu. rewrite Hu. unfold ms', recount. rewrite counted_ended by done.
      apply cnt_ext. intros m Hm. rewrite bool_decide_eq_false_2; [by rewrite andb_true_r|].
      intros E. apply list_find_None in El. rewrite Forall_forall in El.
      apply (El (set_status id status m)); [by apply list_elem_of_fmap_2|].
      unfold set_status. by case_bool_decide.
Qed.

Lemma join_exact ctx p l st n n' st' :
  required_tenant ctx = Ok t -> participants st !! (t, c, p_user_id p) = None -> p_visible_from_seq p < 0 ->
  manage_participants calm now ctx c [p] [] [] (n, st) = (Ok l, (n', st')) -> exact st -> exact st'.
Proof.
  intros Ht Hnew Hv Hrun [Hnd (r & Hr & He)].
  unfold manage_participants in Hrun. rewrite Ht in Hrun. unfold mbind, stE_bind, lift_r, write, query in Hrun.
  rewrite !exec_calm in Hrun. injection Hrun as _ _ <-. unfold manage_rows. simpl.
  split; [done|]. exists r. split; [done|]. intros u q. simpl. unfold add_participant. simpl. rewrite Hnew.
  destruct (decide (u = p_user_id p)) as [->|Hne].
  - rewrite lookup_insert_eq. intros [= <-] _. simpl. rewrite recount_above; [done|].
    intros m Hm. pose proof (max_seq_le (conversation_messages st t c) m Hm). unfold unread_floor, history_floor. simpl.
    rewrite bool_decide_eq_true_2 by done. lia.
  - rewrite lookup_insert_ne by congruence. apply He.
Qed.

Lemma leave_exact ctx u l st n n' st' :
  required_tenant ctx = Ok t ->
  manage_participants calm now ctx c [] [u] [] (n, st) = (Ok l, (n', st')) -> exact st -> exact st'.
Proof.
  intros Ht Hrun [Hnd (r & Hr & He)].
  unfold manage_participants in Hrun. rewrite Ht in Hrun. unfold mbind, stE_bind, lift_r, write, query in Hrun.
  rewrite !exec_calm in Hrun. injection Hrun as _ _ <-. unfold manage_rows. simpl.
  split; [done|]. exists r. split; [done|]. intros v q. simpl.
  intros [_ Hq]%lookup_delete_Some. by apply He.
Qed.


End Steps.

(** ** What only rises *)

(** The floors and the settings version of a row. *)
Definition row_rises (p p' : ParticipantRow) : Prop :=
  from_seq p <= from_seq p' /\ sync_seq p <= sync_seq p' /\ cleared_seq p <= cleared_seq p'
  /\ settings_version p <= settings_version p'.

Definition conversation_rises (r r' : ConversationRow) : Prop :=
  conversation_cleared r <= conversation_cleared r'
  /\ default 0 (last_message_seq r) <= default 0 (last_message_seq r').

#[export] Instance row_rises_preorder : PreOrder row_rises.
Proof. unfold row_rises. split; [intros p; lia|intros p q r; lia]. Qed.
#[export] Instance conversation_rises_preorder : PreOrder conversation_rises.
Proof. unfold conversation_rises. split; [intros p; lia|intros p q r; lia]. Qed.

(** Of what is there before and after. *)
Definition rises (st st' : Store) : Prop :=
  (forall k p p', participants st !! k = Some p -> participants st' !! k = Some p' -> row_rises p p')
  /\ (forall k r r', conversations st !! k = Some r -> conversations st' !! k = Some r' -> conversation_rises r r').

(** Rows and conversations that stay and rise. *)
Definition map_rises `{Countable K} {A} (R : relation A) (m m' : gmap K A) : Prop :=
  forall k a, m !! k = Some a -> exists a', m' !! k = Some a' /\ R a a'.

Definition kept (st st' : Store) : Prop :=
  map_rises row_rises (participants st) (participants st')
  /\ map_rises conversation_rises (conversations st) (conversations st').

Lemma map_rises_refl `{Countable K} {A} (R : relation A) `{!PreOrder R} (m : gmap K A) : map_rises R m m.
Proof. intros k a Ha. exists a. by split. Qed.

Lemma map_rises_trans `{Countable K} {A} (R : relation A) `{!PreOrder R} (m1 m2 m3 : gmap K A) :
  map_rises R m1 m2 -> map_rises R m2 m3 -> map_rises R m1 m3.
Proof.
  intros H1 H2 k a Ha. destruct (H1 k a Ha) as (b & Hb & Hab). destruct (H2 k b Hb) as (d & Hd & Hbd).
  exists d. split; [done|]. by etrans.
Qed.

Lemma map_rises_insert `{Countable K} {A} (R : relation A) `{!PreOrder R} (m : gmap K A) k a :
  (forall b, m !! k = Some b -> R b a) -> map_rises R m (<[k := a]> m).
Proof.
  intros Hb j b Hj. destruct (decide (k = j)) as [<-|]; [rewrite lookup_insert_eq; eauto|].
  rewrite lookup_insert_ne by done. exists b. by split.
Qed.

Lemma map_rises_alter `{Countable K} {A} (R : relation A) `{!PreOrder R} (m : gmap K A) k f :
  (forall b, R b (f b)) -> map_rises R m (alter f k m).
Proof.
  intros Hf j b Hj. destruct (decide (k = j)) as [<-|].
  - rewrite lookup_alter_eq, Hj. simpl. eauto.
  - rewrite lookup_alter_ne by done. exists b. by split.
Qed.

#[export] Instance kept_preorder : PreOrder kept.
Proof.
  split.
  - intros st. split; by apply map_rises_refl; exact _.
  - intros a b d [H1 H2] [H3 H4]. split; by eapply map_rises_trans; [exact _|..].
Qed.

Lemma kept_members t c f st : (forall u p, row_rises p (f u p)) -> kept st (update_members t c f st).
Proof.
  intros Hf. split; [|by apply map_rises_refl; exact _]. intros [[kt kc] u] p Hp.
  unfold update_members. simpl. rewrite map_lookup_imap, Hp. simpl. eexists. split; [done|].
  destruct (_ && _); [apply Hf|done].
Qed.

Lemma kept_participants st m : map_rises row_rises (participants st) m -> kept st (with_participants st m).
Proof. intros Hm. split; [done|]. by apply map_rises_refl; exact _. Qed.

Lemma kept_conversations st m :
  map_rises conversation_rises (conversations st) m -> kept st (with_conversations st m).
Proof. intros Hm. split; [|done]. by apply map_rises_refl; exact _. Qed.

Lemma kept_rises st st' : kept st st' -> rises st st'.
Proof.
  intros [H1 H2]. split.
  - intros k p p' Hp Hp'. destruct (H1 k p Hp) as (q & Hq & Hr). by simplify_eq.
  - intros k p p' Hp Hp'. destruct (H2 k p Hp) as (q & Hq & Hr). by simplify_eq.
Qed.

(** The methods of the repository that write. *)
Inductive call :=
  | Delete (c : string) (hard : bool)
  | ClearHistory (c : string)
  | Purge (c : string) (b : HistoryPurgeBoundary)
  | Manage (c : string) (add : list ConversationParticipant) (remove : list string)
      (role_updates : list (string * list string))
  | Event (c sender : string) (s status : Z)
  | Retract (c id : string)
  | Read (c : string) (s : Z)
  | Settings (patch : UpdateConversationUserSettingsPatch).

Section Calls.
Context (require_user_id : Ctx -> result string) (threshold now : Z) (fault : schedule).

Definition run (ctx : Ctx) (x : call) : db Store unit :=
  match x with
  | Delete c hard => delete_conversation require_user_id fault now ctx c hard
  | ClearHistory c => _ ← clear_history_for_everyone fault ctx c; mret ()
  | Purge c b => _ ← purge_history fault ctx c b; mret ()
  | Manage c a d l => _ ← manage_participants fault now ctx c a d l; mret ()
  | Event c u s status => apply_message_event fault threshold ctx c u s status
  | Retract c id => retract_message_unread fault threshold ctx c id
  | Read c s => mark_as_read require_user_id fault ctx c s
  | Settings patch => _ ← update_user_settings require_user_id fault ctx patch; mret ()
  end.

Lemma row_rises_same p p' :
  from_seq p' = from_seq p -> sync_seq p' = sync_seq p -> cleared_seq p' = cleared_seq p ->
  settings_version p' = settings_version p -> row_rises p p'.
Proof. intros E1 E2 E3 E4. unfold row_rises. lia. Qed.

Lemma kept_soft_delete t c u st : kept st (soft_delete_rows now t c u st).
Proof.
  unfold soft_delete_rows. case_match eqn:E; [|done]. split; simpl; [|by apply map_rises_refl; exact _].
  apply map_rises_insert; [exact _|]. intros b Hb. simplify_eq. unfold row_rises. simpl. destruct (_ <$> _); simpl; lia.
Qed.

Lemma above_threshold_keeps t c : keeps kept (above_precise_unread_threshold fault threshold t c).
Proof. unfold above_precise_unread_threshold. repeat keep_step. Qed.

(** The calls that do not remove rows. *)
Lemma run_kept ctx x :
  match x with Manage _ _ _ _ | Delete _ true => True | _ => keeps kept (run ctx x) end.
Proof.
  destruct x as [c []|c|c b|c a d l|c u s status|c id|c s|patch]; simpl; try done.
  - unfold delete_conversation. repeat keep_step. apply kept_soft_delete.
  - unfold clear_history_for_everyone. repeat keep_step; try done. simpl.
    match goal with |- kept ?s _ => set (st := s) end. case_match; [|done]. case_bool_decide; [done|]. simpl.
    etrans; [apply kept_conversations|apply kept_members].
    + apply map_rises_insert; [exact _|]. intros b Hb. simplify_eq. unfold conversation_rises. simpl. lia.
    + intros u p. unfold clear_row. case_bool_decide; [by apply row_rises_same|done].
  - unfold purge_history, purge_rows. repeat keep_step; try done. simpl.
    match goal with |- kept ?s (if _ then ?a else _) => set (st := s); set (st1 := a) end.
    assert (Hk : kept st st1) by (split; by apply map_rises_refl; exact _).
    case_bool_decide; [done|]. etrans; [exact Hk|]. apply kept_members.
    intros u p. unfold purge_row. destruct (is_deleted p); [done|by apply row_rises_same].
  - unfold apply_message_event. repeat first [apply above_threshold_keeps | keep_step].
    + apply kept_conversations, map_rises_alter; [exact _|]. intros b. unfold conversation_rises. simpl. lia.
    + case_match; [|done]. apply kept_members. intros v p. unfold arrive_row.
      destruct (is_deleted p); [done|by apply row_rises_same].
  - unfold retract_message_unread. repeat first [apply above_threshold_keeps | keep_step]. cbv zeta.
    repeat case_match; try done. apply kept_members. intros u q. unfold retract_row.
    repeat case_match; first [done | by apply row_rises_same].
  - unfold mark_as_read. repeat keep_step. apply kept_participants, map_rises_alter; [exact _|].
    intros p. by apply row_rises_same.
  - unfold update_user_settings. repeat keep_step; try done. simpl. repeat case_match; try done.
    simpl. apply kept_participants, map_rises_insert; [exact _|]. intros b Hb. simplify_eq.
    unfold row_rises. simpl. case_match; lia.
Qed.

Lemma rises_hard_delete t c st : rises st (hard_delete_rows t c st).
Proof.
  split.
  - intros k p p' Hp Hp'. simpl in Hp'. apply map_lookup_filter_Some in Hp' as [Hp' _]. by simplify_eq.
  - intros k r r' Hr Hr'. simpl in Hr'. apply lookup_delete_Some in Hr' as [_ Hr']. by simplify_eq.
Qed.

Lemma add_kept t c l st : kept st (foldl (add_participant now t c) st l).
Proof.
  revert st. induction l as [|p l IH]; intros st; simpl; [done|]. etrans; [|apply IH].
  unfold add_participant. apply kept_participants, map_rises_insert; [exact _|].
  intros b ->. unfold row_rises. simpl. lia.
Qed.

Lemma remove_sub t c (l : list string) st k p :
  participants (foldl (fun st u => with_participants st (delete (t, c, u) (participants st))) st l) !! k = Some p ->
  participants st !! k = Some p.
Proof.
  revert st. induction l as [|u l IH]; intros st; simpl; [done|]. intros H%IH. simpl in H.
  by apply lookup_delete_Some in H as [_ H].
Qed.

Lemma roles_kept t c (l : list (string * list string)) st :
  kept st (foldl (fun st '(u, r) => with_participants st (alter (set_roles r) (t, c, u) (participants st))) st l).
Proof.
  revert st. induction l as [|[u r] l IH]; intros st; simpl; [done|]. etrans; [|apply IH].
  apply kept_participants, map_rises_alter; [exact _|]. intros b. by apply row_rises_same.
Qed.

Lemma roles_back t c (l : list (string * list string)) st k p :
  participants (foldl (fun st '(u, r) => with_participants st (alter (set_roles r) (t, c, u) (participants st))) st l)
    !! k = Some p ->
  exists q, participants st !! k = Some q.
Proof.
  revert st. induction l as [|[u r] l IH]; intros st; simpl; [eauto|]. intros (q & H)%IH. simpl in H.
  apply lookup_alter_Some in H as [(_ & y & Hy & _)|[_ H]]; eauto.
Qed.

Lemma rises_manage t c a d l st : rises st (manage_rows now t c a d l st).
Proof.
  unfold manage_rows. set (st1 := foldl _ st a). set (st2 := foldl _ st1 d). split.
  - intros k p p' Hp Hp'. destruct (roles_back t c l st2 k p' Hp') as [q Hq].
    destruct (roles_kept t c l st2) as [Hr _]. destruct (Hr k q Hq) as (q' & Hq' & Hqq').
    pose proof (remove_sub t c d st1 k q Hq) as H1.
    destruct (add_kept t c a st) as [Ha _]. destruct (Ha k p Hp) as (p1 & Hp1 & Hpp1).
    fold st1 in Hp1. simplify_eq. by etrans.
  - intros k r r' Hr Hr'. assert (E : conversations (foldl (fun st '(u, r) => with_participants st
      (alter (set_roles r) (t, c, u) (participants st))) st2 l) = conversations st).
    { transitivity (conversations st2).
      - clear. generalize st2. induction l as [|[u r] l IH]; intros s; [done|]. simpl. by rewrite IH.
      - transitivity (conversations st1).
        + unfold st2. clear. generalize st1. induction d as [|u d IH]; intros s; [done|]. simpl. by rewrite IH.
        + unfold st1. clear. revert st. induction a as [|p a IH]; intros s; [done|]. simpl. by rewrite IH. }
    rewrite E in Hr'. by simplify_eq.
Qed.

(** Whatever method of the repository runs and whatever statement fails, the history floors of
    a member (visible-from, hidden, cleared) and of the conversation never go down, the settings
    version never goes down and the conversation's last sequence never goes back: re-adding a
    member, for one, cannot open the history from before they joined. *)
Theorem floors_only_rise ctx x n st : rises st (run ctx x (n, st)).2.2.
Proof.
  pose proof (run_kept ctx x) as Hk.
  assert (Hr : rises st st) by by apply kept_rises.
  destruct x as [c []|c|c b|c a d l|c u s status|c id|c s|patch]; try by apply kept_rises, Hk.
  - simpl. unfold delete_conversation, mbind, stE_bind, lift_r. destruct (required_tenant ctx); [|done].
    unfold write, exec. destruct (fault n); simpl; [apply rises_hard_delete|done|apply rises_hard_delete].
  - simpl. unfold manage_participants, mbind, stE_bind, lift_r. destruct (required_tenant ctx); [|done].
    unfold write, query, exec. destruct (fault n); simpl; [|done|apply rises_manage].
    destruct (fault (S n)); simpl; apply rises_manage.
Qed.

End Calls.

(** ** Hiding *)

(** What the receipts read of the rows of a conversation. *)
Definition position (t c : string) (x : (string * string * string) * ParticipantRow) : option MemberReadPosition :=
  let '((kt, kc, u), r) := x in
  if bool_decide (kt = t) && bool_decide (kc = c) && negb (quit r)
  then Some (mkMember u (read_seq r) (from_seq r)) else None.

Definition positions (st : Store) (t c : string) : list MemberReadPosition :=
  omap (position t c) (map_to_list (participants st)).

Lemma positions_members st t c :
  (fun '(u, r) => mkMember u (read_seq r) (from_seq r)) <$> members_of st t c (fun r => negb (quit r))
  = positions st t c.
Proof.
  unfold members_of, positions. rewrite list_fmap_omap. apply list_omap_ext, Forall2_same_length_lookup_2.
  done. intros i x y Hx Hy. simplify_eq. destruct x as [[[kt kc] u] r]. simpl. by case_match.
Qed.

Lemma positions_insert st t c k p p' :
  participants st !! k = Some p -> position t c (k, p') = position t c (k, p) ->
  positions (with_participants st (<[k := p']> (participants st))) t c ≡ₚ positions st t c.
Proof.
  intros Hk Hp. unfold positions. simpl. rewrite <- insert_delete_eq.
  rewrite map_to_list_insert by apply lookup_delete_eq.
  rewrite <- (insert_delete_id (participants st) k p Hk) at 2.
  rewrite map_to_list_insert by apply lookup_delete_eq.
  cbn [omap list_omap]. by rewrite Hp.
Qed.

Lemma positions_antisym st t c a b :
  a ∈ positions st t c -> b ∈ positions st t c -> by_user a b = true -> by_user b a = true -> a = b.
Proof.
  unfold positions. rewrite !list_elem_of_omap. intros ([[[t1 c1] u1] r1] & H1 & E1) ([[[t2 c2] u2] r2] & H2 & E2).
  unfold by_user. intros Hab Hba. pose proof (str_leb_antisym _ _ Hab Hba) as Hu.
  apply elem_of_map_to_list in H1, H2. simpl in E1, E2.
  destruct (decide (t1 = t)) as [->|]; [|by rewrite (bool_decide_eq_false_2 (t1 = t)) in E1].
  destruct (decide (c1 = c)) as [->|]; [|by rewrite (bool_decide_eq_false_2 (c1 = c)), andb_false_r in E1].
  destruct (decide (t2 = t)) as [->|]; [|by rewrite (bool_decide_eq_false_2 (t2 = t)) in E2].
  destruct (decide (c2 = c)) as [->|]; [|by rewrite (bool_decide_eq_false_2 (c2 = c)), andb_false_r in E2].
  repeat case_match; simplify_eq. simpl in Hu. by simplify_eq.
Qed.

(** A member has one position. *)
Lemma positions_NoDup st t c : NoDup (user_id <$> positions st t c).
Proof.
  unfold positions. rewrite list_fmap_omap. apply NoDup_omap; [apply NoDup_map_to_list|].
  intros [[[t1 c1] u1] r1] [[[t2 c2] u2] r2] b H1%elem_of_map_to_list H2%elem_of_map_to_list. simpl.
  destruct (decide (t1 = t)) as [->|]; [|by rewrite (bool_decide_eq_false_2 (t1 = t))].
  destruct (decide (c1 = c)) as [->|]; [|by rewrite (bool_decide_eq_false_2 (c1 = c)), andb_false_r].
  destruct (decide (t2 = t)) as [->|]; [|by rewrite (bool_decide_eq_false_2 (t2 = t))].
  destruct (decide (c2 = c)) as [->|]; [|by rewrite (bool_decide_eq_false_2 (c2 = c)), andb_false_r].
  rewrite !bool_decide_eq_true_2 by done. simpl.
  intros E1 E2. repeat case_match; simplify_eq/=. done.
Qed.

Lemma list_positions_run ctx c limit n st :
  (list_member_read_positions calm ctx c limit (n, st)).1
  = (t ← required_tenant ctx; Ok (take limit (Slices.sort_by by_user (positions st t c)))).
Proof.
  unfold list_member_read_positions, mbind, stE_bind, lift_r, query. destruct (required_tenant ctx); [|done].
  rewrite exec_calm. cbn. by rewrite positions_members.
Qed.

(** Hiding a conversation is not reading it: whatever statement fails, the read positions every
    other reader is shown stay as they were, in this and in every other conversation; no other row
    changes, and the hidden row's own read position stays. *)
Theorem hiding_is_not_reading require_user_id now fault ctx c n st :
  let st' := (delete_conversation require_user_id fault now ctx c false (n, st)).2.2 in
  (forall viewer c' limit m,
     (list_member_read_positions calm viewer c' limit (m, st')).1
     = (list_member_read_positions calm viewer c' limit (m, st)).1)
  /\ (forall k p, participants st !! k = Some p -> exists p', participants st' !! k = Some p'
        /\ read_seq p' = read_seq p
        /\ (p' = p \/ require_user_id ctx = Ok k.2)).
Proof.
  assert (Hsame : forall st', st' = st ->
    (forall viewer c' limit m,
       (list_member_read_positions calm viewer c' limit (m, st')).1
       = (list_member_read_positions calm viewer c' limit (m, st)).1)
    /\ (forall k p, participants st !! k = Some p -> exists p', participants st' !! k = Some p'
          /\ read_seq p' = read_seq p /\ (p' = p \/ require_user_id ctx = Ok k.2))).
  { intros ? ->. split; [done|]. intros k p Hp. exists p. auto. }
  cbv zeta. unfold delete_conversation, mbind, stE_bind, lift_r.
  destruct (required_tenant ctx) as [t|]; [|by apply Hsame].
  destruct (require_user_id ctx) as [u|]; [|by apply Hsame].
  assert (Hd : forall st', st' = soft_delete_rows now t c u st ->
    (forall viewer c' limit m,
       (list_member_read_positions calm viewer c' limit (m, st')).1
       = (list_member_read_positions calm viewer c' limit (m, st)).1)
    /\ (forall k p, participants st !! k = Some p -> exists p', participants st' !! k = Some p'
          /\ read_seq p' = read_seq p /\ (p' = p \/ Ok u = Ok k.2))).
  { intros st' ->. unfold soft_delete_rows. destruct (participants st !! (t, c, u)) as [q|] eqn:Eq; [|by apply Hsame].
    split.
    - intros viewer c' limit m. rewrite !list_positions_run. destruct (required_tenant viewer) as [t'|]; [|done].
      match goal with |- (_ ← _; Ok (take _ (sort_by _ (positions ?s _ _)))) = _ => set (st' := s) end.
      assert (HP : positions st' t' c' ≡ₚ positions st t' c').
      { apply (positions_insert _ _ _ _ q); [done|]. simpl. by repeat case_match. }
      simpl. f_equal. f_equal. apply (sort_by_unique by_user); [exact HP|].
      intros x y. rewrite HP. apply positions_antisym.
    - intros k p Hp. simpl. destruct (decide (k = (t, c, u))) as [->|Hk].
      + simplify_eq. rewrite lookup_insert_eq. eexists. split; [done|]. simpl. auto.
      + rewrite lookup_insert_ne by done. exists p. auto. }
  unfold write, exec. destruct (fault n); simpl; [by apply Hd|by apply Hsame|by apply Hd].
Qed.

(** ** Settings *)

(** Two devices that edit a member's settings from the same version: the first is applied and
    raises the version, the second is answered with a conflict and changes nothing. *)
Theorem settings_version_conflicts require_user_id ctx p q n st s n' st' m :
  base_settings_version q = base_settings_version p -> 0 < base_settings_version p <= i64_max ->
  patch_conversation_id q = patch_conversation_id p -> has_patch q = true ->
  update_user_settings require_user_id calm ctx p (n, st) = (Ok s, (n', st')) ->
  s_version s = base_settings_version p + 1
  /\ update_user_settings require_user_id calm ctx q (m, st')
     = (Err (flare_err HttpConflict "user settings version conflict or participant not found"), (S m, st')).
Proof.
  intros Hb Hv Hc Hq Hrun. unfold update_user_settings in *. rewrite Hc.
  unfold mbind, stE_bind, lift_r in *. destruct (required_tenant ctx) as [t|]; [|done].
  destruct (require_user_id ctx) as [u|]; [|done]. rewrite Hq.
  destruct (has_patch p); [|done]. cbn [negb] in Hrun |- *. rewrite exec_calm in Hrun |- *.
  set (c := patch_conversation_id p) in *.
  destruct (conversations st !! (t, c)) as [r|] eqn:Er; [|simpl in Hrun; by case_bool_decide].
  destruct (participants st !! (t, c, u)) as [row|] eqn:Ep; [|simpl in Hrun; by case_bool_decide].
  destruct (accepts_patch r p row) eqn:Ea; [|simpl in Hrun; by case_bool_decide].
  simpl in Hrun. injection Hrun as <- _ <-.
  assert (Hi : as_i64 (base_settings_version p) = base_settings_version p).
  { unfold as_i64. by rewrite bool_decide_eq_true_2 by lia. }
  unfold accepts_patch in Ea. rewrite Hi, (bool_decide_eq_false_2 (base_settings_version p = 0)) in Ea by lia.
  rewrite !andb_true_iff in Ea. simpl in Ea. destruct Ea as [_ Ev%bool_decide_eq_true].
  simpl. split; [lia|]. rewrite Er, lookup_insert_eq.
  assert (Hn : accepts_patch r q (settings_row r (conversation_messages st t c) p row) = false).
  { unfold accepts_patch. rewrite Hb, Hi, (bool_decide_eq_false_2 (base_settings_version p = 0)) by lia. simpl.
    rewrite (bool_decide_eq_false_2 (settings_version row + 1 = _)) by lia. by rewrite andb_false_r. }
  rewrite Hn. simpl. rewrite Hb, bool_decide_eq_true_2 by lia. done.
Qed.

(** ** Purging *)

(** A purge removes exactly the messages its boundary names: with an epoch fence a message that
    carries an epoch is judged by it alone, however the clocks stand, and the others by the time
    boundary. Other conversations are untouched, and no unread count goes up. *)
Theorem purge_removes_exactly_the_boundary ctx t c b n st :
  required_tenant ctx = Ok t -> Str.is_blank c = false -> (epoch_fence b <> None \/ before b <> None) ->
  exists out st', purge_history calm ctx c b (n, st) = (Ok out, (S n, st'))
  /\ conversation_messages st' t c = filter (fun m => purges b m = false) (conversation_messages st t c)
  /\ purged_messages out = cnt (purges b) (conversation_messages st t c)
  /\ (forall k, k <> (t, c) -> messages st' !! k = messages st !! k /\ events st' !! k = events st !! k)
  /\ (forall k p, participants st !! k = Some p -> exists p', participants st' !! k = Some p'
        /\ (k.1 = (t, c) -> unread_count p' <= Z.max (unread_count p) 0) /\ (k.1 <> (t, c) -> p' = p)).
Proof.
  intros Ht Hc Hb. unfold purge_history. rewrite Ht, Hc.
  assert (Hor : bool_decide (epoch_fence b = None) && bool_decide (before b = None) = false).
  { destruct Hb as [Hb|Hb]; [by rewrite (bool_decide_eq_false_2 (epoch_fence b = None))|].
    rewrite (bool_decide_eq_false_2 (before b = None)) by done. by rewrite andb_false_r. }
  rewrite Hor. clear Hor. unfold mbind, stE_bind, lift_r. rewrite exec_calm. unfold purge_rows.
  set (ms := conversation_messages st t c). set (st1 := mkStore _ _ _ _ _ _ _).
  set (left := filter (fun m => purges b m = false) ms) in *.
  assert (Hm1 : conversation_messages st1 t c = left).
  { unfold conversation_messages, st1. simpl. rewrite lookup_alter_eq. unfold left, ms, conversation_messages.
    by destruct (messages st !! (t, c)). }
  assert (Hother : forall k, k <> (t, c) -> messages st1 !! k = messages st !! k /\ events st1 !! k = events st !! k).
  { intros k Hk. unfold st1. simpl. by rewrite !lookup_alter_ne by done. }
  case_bool_decide; simpl; (eexists _, _; split_and!; [reflexivity|exact Hm1|reflexivity|exact Hother|]).
  - intros k p Hp. exists p. split_and!; [done| |done]. intros _. lia.
  - intros [[kt kc] u] p Hp. destruct (decide ((kt, kc) = (t, c))) as [[= -> ->]|Hk].
    + change (with_participants _ _) with (update_members t c (purge_row left) st1).
      rewrite lookup_update_members. simpl. rewrite Hp. simpl. eexists. split_and!; [done| |done]. intros _.
      unfold purge_row. destruct (is_deleted p); [lia|]. simpl. unfold shrink. lia.
    + change (with_participants _ _) with (update_members t c (purge_row left) st1).
      rewrite lookup_update_members_ne by done. exists p. split_and!; [done| |done]. done.
Qed.

(** ** The read position *)

(** A read is taken at whatever sequence it names: the limit to the end of the conversation that
    the statement computes contains the requested sequence itself, so it never holds a read back,
    and messages sent later below that position are born read. *)
Theorem read_position_is_not_clamped r ms s u p :
  read_seq p <= s ->
  read_seq (read_row r ms s u p) = s
  /\ forall m, m_seq m <= s -> is_deleted p = false ->
       unread_count (arrive_row r (m_sender m) (m_seq m) (m_status m) u (read_row r ms s u p))
       = unread_count (read_row r ms s u p).
Proof.
  intros Hs. assert (Hr : read_seq (read_row r ms s u p) = s) by (simpl; lia).
  split; [done|]. intros m Hm Hd. unfold arrive_row.
  assert (Hd' : is_deleted (read_row r ms s u p) = false) by done. rewrite Hd'. 
  change (unread_count (set_unread ?n _)) with n.
  assert (Hf : m_seq m <= unread_floor r (read_row r ms s u p)) by (unfold unread_floor; rewrite Hr; lia).
  rewrite (bool_decide_eq_true_2 (m_seq m <= _)) by done.
  destruct (bool_decide (u = m_sender m)); [done|]. by destruct (bool_decide (m_status m ∈ _)).
Qed.

(** ** Concrete conversations *)

Module Sample.

Definition user_of (ctx : Ctx) : result string :=
  ok_or (ctx_user ctx) (flare_err InvalidParameter "user_id is required").

Definition as_user (u : string) : Ctx := mkCtx (Some "t") (Some u) false.
Definition service : Ctx := mkCtx (Some "t") None true.

Definition some_info : ConversationInfo := mkInfo 2 "" None ∅ 1 "".

Definition member (unread : Z) : ParticipantRow :=
  mkParticipantRow ["member"] false false ∅ 1 "" 0 0 unread false false 1 None false 0 false 0.

Definition message (id : string) (s : Z) (status : Z) : MessageRow := mkMessageRow id s "alice" status s ∅.

Definition group (ms : list MessageRow) (unread : Z) : Store :=
  mkStore {[("t", "g") := mkConversationRow None "active" 0 some_info]}
    {[("t", "g", "alice") := member 0; ("t", "g", "bob") := member unread]} {[("t", "g") := ms]} ∅ ∅ ∅ ∅.

Definition unread_of (st : Store) (u : string) : option Z := unread_count <$> participants st !! ("t", "g", u).

Definition after (m : db Store unit) (st : Store) : Store := (m (O, st)).2.2.

End Sample.

Import Sample.


Lemma settings_version_conflicts_witness :
  let p := mkPatch "g" None (Some true) None None None 1 None in
  let st := group [] 0 in
  let st' := (update_user_settings user_of calm (as_user "bob") p (O, st)).2.2 in
  update_user_settings user_of calm (as_user "bob") p (O, st')
  = (Err (flare_err HttpConflict "user settings version conflict or participant not found"), (1%nat, st')).
Proof.
  cbv zeta.
  destruct (update_user_settings user_of calm (as_user "bob") (mkPatch "g" None (Some true) None None None 1 None)
    (O, group [] 0)) as [[s|e] [n' st']] eqn:E; [|by vm_compute in E]. simpl.
  assert (Hv : 0 < 1 <= i64_max) by (unfold i64_max; lia).
  exact (proj2 (settings_version_conflicts user_of (as_user "bob") (mkPatch "g" None (Some true) None None None 1 None)
    (mkPatch "g" None (Some true) None None None 1 None) O (group [] 0) s n' st' O eq_refl Hv eq_refl eq_refl E)).
Defined.

Lemma purge_removes_exactly_the_boundary_witness :
  exists out st', purge_history calm service "g" (mkBoundary (Some 2) None) (O, group [message "m1" 1 2; message "m2" 2 2] 2)
                    = (Ok out, (1%nat, st'))
    /\ conversation_messages st' "t" "g" = [message "m2" 2 2].
Proof.
  assert (Hb : before (mkBoundary (Some 2) None) <> None) by discriminate.
  destruct (purge_removes_exactly_the_boundary service "t" "g" (mkBoundary (Some 2) None) O
    (group [message "m1" 1 2; message "m2" 2 2] 2) eq_refl eq_refl (or_intror Hb))
    as (out & st' & Hrun & Hm & _).
  exists out, st'. split; [exact Hrun|]. rewrite Hm. vm_compute. reflexivity.
Defined.

Lemma read_position_is_not_clamped_witness :
  read_seq (read_row (mkConversationRow (Some 5) "active" 0 some_info) [] 100 "bob" (member 0)) = 100.
Proof. apply (read_position_is_not_clamped (mkConversationRow (Some 5) "active" 0 some_info) [] 100 "bob" (member 0)). simpl. lia. Defined.

(** A message event that the broker delivers twice is counted twice, and the conversation list,
    which recounts, still shows the larger number. *)
Theorem redelivered_message_counts_twice :
  let st := group [message "m1" 1 2] 0 in
  let event := apply_message_event calm 0 service "g" "alice" 1 2 in
  unread_of (after event st) "bob" = Some 1 /\ unread_of (after event (after event st)) "bob" = Some 2
  /\ recount "bob" 0 [message "m1" 1 2] = 1
  /\ (listed_unread (fun _ => false) (mkConversationRow (Some 1) "active" 0 some_info) [message "m1" 1 2] "bob"
        <$> participants (after event (after event st)) !! ("t", "g", "bob")) = Some 2.
Proof. by vm_compute. Qed.

(** A retraction that is handled while a later message is stored but its event is still on the
    way does not lower the count; when the event arrives, the member has one unread message more
    than there are. *)
Theorem retraction_can_miss_its_message :
  let st := after (apply_message_event calm 0 service "g" "alice" 1 2) (group [message "m1" 1 2] 0) in
  let stored := with_messages st {[("t", "g") := [message "m1" 1 5; message "m2" 2 2]]} in
  let retracted := after (retract_message_unread calm 0 service "g" "m1") stored in
  let final := after (apply_message_event calm 0 service "g" "alice" 2 2) retracted in
  unread_of final "bob" = Some 2 /\ recount "bob" 0 (conversation_messages final "t" "g") = 1.
Proof. by vm_compute. Qed.

(** A member who clears their own history keeps the unread count of what was cleared. *)
Theorem own_clear_keeps_unread_count :
  let st := group [message "m1" 1 2] 1 in
  let patch := mkPatch "g" None None None None None 0 (Some 1) in
  let st' := (update_user_settings user_of calm (as_user "bob") patch (O, st)).2.2 in
  unread_of st' "bob" = Some 1
  /\ (exists p, participants st' !! ("t", "g", "bob") = Some p /\ cleared_seq p = 1
        /\ recount "bob" (unread_floor (mkConversationRow None "active" 0 some_info) p) [message "m1" 1 2] = 0).
Proof. vm_compute. split; [done|]. by eexists. Qed.
