(* ===== verification/ReceiptService.v ===== *)
(** * Read receipts as a service

    flare-conversation: the queries [handle_get_message_read_summaries] and
    [handle_list_message_readers] of application/handlers.rs and the methods behind them in
    domain/service/conversation_domain_service.rs, against an interface of the repository that
    [ConversationStore] implements. *)

From stdpp Require Import base gmap sets strings list sorting.
From Stdlib Require Import ZArith Lia.
From S2P Require Import Prelude.
From S2P Require Import Database.
From S2P Require Import Slices.
From S2P Require Import ReadReceipt.
From S2P Require Import ConversationStore.
From S2P Require Import Unread.

Open Scope Z_scope.

(** ** What the service needs of the repository *)

Class ReceiptRepository (S : Type) := {
  find_members : Ctx -> string -> list string -> db S (list ConversationParticipant);
  read_positions : Ctx -> string -> nat -> db S (list MemberReadPosition);
  receipt_messages : Ctx -> string -> list string -> db S (list ReceiptMessage);
}.

Record MessageReadSummary := mkSummary { summary_id : string; summary_counts : ReadCounts }.
Record MessageReadSummaries := mkSummaries { s_available : bool; summaries : list MessageReadSummary }.
Record MessageReaderPage := mkPage {
  p_available : bool;
  p_counts : option ReadCounts;
  p_user_ids : list string;
  p_next_cursor : string;
  p_has_more : bool;
}.

Section Service.
Context {S : Type} `{!ReceiptRepository S}.
(** [require_user_id] of the server crate, [is_group_chat_conversation] of the core crate. *)
Context (require_user_id : Ctx -> result string) (is_group : string -> bool).

Abbreviation M := (db S).

Definition require_member_caller (ctx : Ctx) (c : string) : M string :=
  caller ← lift_r (require_user_id ctx);
  seated ← find_members ctx c [caller];
  if existsb (fun m => bool_decide (p_user_id m = caller)) seated then mret caller
  else lift_r (Err (flare_err MessageNotFound "conversation not found")).

Definition group_read_watermarks (ctx : Ctx) (c caller : string) : M (option ReadWatermarks) :=
  if negb (is_group c) then mret None
  else
    ms ← read_positions ctx c (READ_RECEIPT_MEMBER_LIMIT + 1)%nat;
    mret (if bool_decide (READ_RECEIPT_MEMBER_LIMIT < length ms)%nat then None
          else Some (without_sender ms caller)).

(** [position(..)]: [None] sorts before every index *)
Definition index_of (ids : list string) (s : MessageReadSummary) : Z :=
  match list_find (fun id => id = summary_id s) ids with Some (i, _) => Z.of_nat i | None => -1 end.

Definition message_read_summaries (ctx : Ctx) (c : string) (ids : list string) : M MessageReadSummaries :=
  caller ← require_member_caller ctx c;
  w ← group_read_watermarks ctx c caller;
  match w with
  | None => mret (mkSummaries false [])
  | Some w =>
      ms ← receipt_messages ctx c ids;
      let l := (fun m => mkSummary (server_id m) (counts w (seq m)))
                 <$> filter (fun m => has_receipts_for m caller = true) ms in
      let l := sort_by (fun a b => Z.leb (index_of ids a) (index_of ids b)) l in
      mret (mkSummaries true (dedup_by (fun a b => bool_decide (summary_id a = summary_id b)) l))
  end.

Definition message_readers (ctx : Ctx) (c id : string) (st : ReaderState) (cursor : string) (limit : nat) :
    M MessageReaderPage :=
  caller ← require_member_caller ctx c;
  ms ← receipt_messages ctx c [id];
  let found := match list_find (fun m => server_id m = id) ms with
               | Some (_, m) => if has_receipts_for m caller then Some m else None
               | None => None
               end in
  match found with
  | None => lift_r (Err (flare_err MessageNotFound "message not found"))
  | Some m =>
      w ← group_read_watermarks ctx c caller;
      match w with
      | None => mret (mkPage false None [] "" false)
      | Some w =>
          let '(ids, next, more) := page w (seq m) st cursor limit in
          mret (mkPage true (Some (counts w (seq m))) ids next more)
      end
  end.

(** ** The queries *)

Definition handle_get_message_read_summaries (ctx : Ctx) (conversation_id : string) (ids : list string) :
    M MessageReadSummaries :=
  let c := Str.trim conversation_id in
  if Str.is_empty c || bool_decide (ids = []) || Nat.ltb MAX_READ_SUMMARY_MESSAGES (length ids)
     || negb (Nat.eqb (length (remove_dups ids)) (length ids)) || existsb Str.is_blank ids
  then lift_r (Err (flare_err InvalidParameter "conversation_id and 1..=50 distinct server_msg_ids are required"))
  else message_read_summaries ctx c ids.

(** [usize::try_from(limit)] of an [i32] *)
Definition page_limit (limit : Z) : option nat :=
  if bool_decide (limit < 0) then None
  else if bool_decide (limit = 0) then Some DEFAULT_READER_PAGE
  else if bool_decide (limit <= Z.of_nat MAX_READER_PAGE) then Some (Z.to_nat limit) else None.

Definition handle_list_message_readers (ctx : Ctx) (conversation_id server_msg_id : string) (st : ReaderState)
    (cursor : string) (limit : Z) : M MessageReaderPage :=
  let c := Str.trim conversation_id in
  let id := Str.trim server_msg_id in
  match page_limit limit with
  | Some n =>
      if Str.is_empty c || Str.is_empty id
      then lift_r (Err (flare_err InvalidParameter
             "conversation_id, server_msg_id and a limit of 0..=200 are required"))
      else message_readers ctx c id st (Str.trim cursor) n
  | None => lift_r (Err (flare_err InvalidParameter
              "conversation_id, server_msg_id and a limit of 0..=200 are required"))
  end.

End Service.

(** ** The repository behind it *)

#[export] Instance store_repository (require_user_id : Ctx -> result string) (fault : schedule) :
  ReceiptRepository Store := {|
  find_members := find_conversation_members require_user_id fault;
  read_positions := list_member_read_positions fault;
  receipt_messages := find_receipt_messages fault;
|}.

(** ** Who learns what *)

Section Answers.
Context (require_user_id : Ctx -> result string) (is_group : string -> bool).
#[local] Instance repository : ReceiptRepository Store := store_repository require_user_id calm.

Definition is_member (st : Store) (t c u : string) : bool :=
  match participants st !! (t, c, u) with Some r => negb (quit r) | None => false end.

(** The caller among the seats it asked for. *)
Lemma seated_caller st t c u :
  existsb (fun m => bool_decide (p_user_id m = u))
    (participant_from_row <$> sort_by by_seat (filter (fun x => x.1 ∈ [u])
       (members_of st t c (fun r => negb (quit r)))))
  = is_member st t c u.
Proof.
  apply eq_bool_prop_intro. rewrite !Is_true_true. rewrite existsb_exists. setoid_rewrite <- list_elem_of_In.
  setoid_rewrite list_elem_of_fmap. setoid_rewrite bool_decide_eq_true. unfold is_member. split.
  - intros (m & (x & -> & Hx) & Hu). apply elem_of_sort_by, list_elem_of_filter in Hx as [Hx Hm].
    destruct x as [v r]. apply elem_of_members in Hm as [Hp Hq].
    simpl in Hu, Hx. subst v. by rewrite Hp.
  - destruct (participants st !! (t, c, u)) as [r|] eqn:E; [|done]. intros Hq.
    exists (participant_from_row (u, r)). split; [|done]. exists (u, r). split; [done|].
    apply elem_of_sort_by, list_elem_of_filter. split; [set_solver|]. by apply elem_of_members.
Qed.

Context (ctx : Ctx) (t u c : string).
Context (Ht : required_tenant ctx = Ok t) (Hu : require_user_id ctx = Ok u).
Context (Hc : Str.trim c = c) (Hne : Str.is_empty c = false).

Lemma member_caller_run n st :
  exists n', require_member_caller require_user_id ctx c (n, st)
  = (if is_member st t c u then Ok u else Err (flare_err MessageNotFound "conversation not found"), (n', st)).
Proof.
  unfold require_member_caller, find_members. simpl. unfold find_conversation_members. rewrite Ht, Hu, Hc, Hne.
  unfold mbind, stE_bind, lift_r, query.
  assert (Hq : bool_decide ([u] = []) = false) by by apply bool_decide_eq_false_2.
  rewrite Hq. destruct (ctx_internal ctx).
  - cbn [mret stE_ret]. rewrite exec_calm. cbn [fst snd]. rewrite seated_caller.
    destruct (is_member st t c u); by eexists.
  - unfold ensure_caller_participant, mbind, stE_bind, lift_r, query. rewrite Hu, exec_calm. cbn [fst snd].
    fold (is_member st t c u). destruct (is_member st t c u) eqn:Em; [|by eexists].
    cbn [mret stE_ret]. rewrite exec_calm. cbn [fst snd]. rewrite seated_caller, Em. by eexists.
Qed.

Lemma receipt_messages_run ids n st :
  ids <> [] -> exists n', find_receipt_messages calm ctx c ids (n, st)
  = (Ok (receipt_message <$> filter (fun m => m_server_id m ∈ ids) (conversation_messages st t c)), (n', st)).
Proof.
  intros Hi. unfold find_receipt_messages. rewrite Ht. unfold mbind, stE_bind, lift_r, query.
  rewrite bool_decide_eq_false_2 by done. rewrite exec_calm. by eexists.
Qed.

Lemma watermarks_run n st :
  exists n', group_read_watermarks is_group ctx c u (n, st)
  = (Ok (if is_group c && negb (bool_decide (READ_RECEIPT_MEMBER_LIMIT < length (positions st t c))%nat)
         then Some (without_sender (sort_by by_user (positions st t c)) u) else None), (n', st)).
Proof.
  unfold group_read_watermarks. destruct (is_group c); [|by eexists]. unfold read_positions. simpl.
  pose proof (list_positions_run ctx c 501 n st) as Hl. rewrite Ht in Hl. simpl in Hl.
  unfold list_member_read_positions, mbind, stE_bind, lift_r, query in *. rewrite Ht in *. rewrite exec_calm in *.
  cbn [fst snd] in *. injection Hl as Hl. eexists.
  unfold mret, stE_ret. rewrite Hl. f_equal. f_equal.
  rewrite length_take, sort_by_length.
  destruct (decide (READ_RECEIPT_MEMBER_LIMIT < length (positions st t c))%nat) as [Hlt|Hlt].
  - rewrite !bool_decide_eq_true_2; [done|done|]. unfold READ_RECEIPT_MEMBER_LIMIT in *. lia.
  - rewrite !bool_decide_eq_false_2; [|done|unfold READ_RECEIPT_MEMBER_LIMIT in *; lia]. simpl. do 2 f_equal.
    apply take_ge. rewrite sort_by_length. unfold READ_RECEIPT_MEMBER_LIMIT in *. lia.
Qed.

(** Who read a message is told only to its sender: a member who asks about another's message, or
    about one that was recalled or deleted, gets the very answer an id of no message gets, and
    someone who is not a member the answer of a conversation that does not exist. *)
Theorem only_the_sender_learns_who_read id state cursor limit n st :
  (forall m, m ∈ conversation_messages st t c -> m_server_id m = id ->
     m_sender m <> u \/ m_status m ∈ ENDED_STATUSES \/ m_seq m <= 0) ->
  (message_readers require_user_id is_group ctx c id state cursor limit (n, st)).1
  = Err (flare_err MessageNotFound
           (if is_member st t c u then "message not found" else "conversation not found")).
Proof.
  intros Hm. unfold message_readers. unfold mbind at 1, stE_bind at 1.
  destruct (member_caller_run n st) as [n1 ->]. destruct (is_member st t c u); [|done].
  unfold mbind, stE_bind. change (receipt_messages ctx c [id]) with (find_receipt_messages calm ctx c [id]).
  destruct (receipt_messages_run [id] n1 st) as [n2 ->]; [done|].
  destruct (list_find _ _) as [[i m]|] eqn:El; [|done].
  apply list_find_Some in El as (Hi & Hid & _). apply list_elem_of_lookup_2, list_elem_of_fmap in Hi as (x & -> & Hx).
  apply list_elem_of_filter in Hx as [_ Hx].
  assert (Hno : has_receipts_for (receipt_message x) u = false).
  { unfold has_receipts_for. simpl. destruct (Hm x Hx Hid) as [H|[H|H]].
    - rewrite (bool_decide_eq_false_2 (m_sender x = u)) by done. by rewrite andb_false_r.
    - rewrite (bool_decide_eq_true_2 (m_status x ∈ ENDED_STATUSES)) by done. by rewrite andb_false_r.
    - by rewrite (bool_decide_eq_false_2 (0 < m_seq x)) by lia. }
  by rewrite Hno.
Qed.

(** The sender of a live message in a group of at most 500 members is told the members who see it
    apart from the sender, split by their read positions and counted member by member. *)
Theorem sender_is_told_exactly_the_readers id state cursor limit n st m :
  m ∈ conversation_messages st t c -> m_server_id m = id ->
  (forall x, x ∈ conversation_messages st t c -> m_server_id x = id -> x = m) ->
  m_sender m = u -> m_status m ∉ ENDED_STATUSES -> 0 < m_seq m ->
  is_member st t c u = true -> is_group c = true -> (length (positions st t c) <= READ_RECEIPT_MEMBER_LIMIT)%nat ->
  let others := filter (fun x => user_id x <> u) (positions st t c) in
  exists pg, (message_readers require_user_id is_group ctx c id state cursor limit (n, st)).1 = Ok pg
  /\ p_available pg = true
  /\ p_counts pg = Some (mkCounts (cnt (fun x => sees (m_seq m) x && on_side (m_seq m) ReadReceipt.Read x) others)
                           (cnt (fun x => sees (m_seq m) x && on_side (m_seq m) Unread x) others)
                           (cnt (sees (m_seq m)) others))
  /\ p_user_ids pg
     = take limit (rest (without_sender (sort_by by_user (positions st t c)) u) (m_seq m) state cursor).
Proof.
  intros Hin Hid Huniq Hs Hst Hseq Hmem Hg Hlen others.
  unfold message_readers. unfold mbind at 1, stE_bind at 1.
  destruct (member_caller_run n st) as [n1 ->]. rewrite Hmem.
  unfold mbind, stE_bind. change (receipt_messages ctx c [id]) with (find_receipt_messages calm ctx c [id]).
  destruct (receipt_messages_run [id] n1 st) as [n2 ->]; [done|].
  destruct (list_find _ _) as [[i x]|] eqn:El.
  2:{ apply list_find_None in El. rewrite Forall_forall in El. exfalso.
      apply (El (receipt_message m)); [|done]. apply list_elem_of_fmap_2, list_elem_of_filter. set_solver. }
  apply list_find_Some in El as (Hi & Hix & _). apply list_elem_of_lookup_2, list_elem_of_fmap in Hi as (y & -> & Hy).
  apply list_elem_of_filter in Hy as [_ Hy]. assert (y = m) as -> by by apply Huniq.
  assert (Hyes : has_receipts_for (receipt_message m) u = true).
  { unfold has_receipts_for. simpl. rewrite (bool_decide_eq_true_2 (0 < m_seq m)), (bool_decide_eq_true_2 (m_sender m = u)) by done.
    by rewrite (bool_decide_eq_false_2 (m_status m ∈ ENDED_STATUSES)). }
  rewrite Hyes. destruct (watermarks_run n2 st) as [n3 ->].
  rewrite Hg, (bool_decide_eq_false_2 (READ_RECEIPT_MEMBER_LIMIT < _)%nat) by lia. cbn [andb negb].
  rewrite page_rest. cbv zeta. eexists. split_and!; [reflexivity|done| |done]. simpl. f_equal.
  rewrite counts_by_member.
  - assert (Hp : filter (fun x => user_id x <> u) (sort_by by_user (positions st t c)) ≡ₚ others)
      by (unfold others; by rewrite sort_by_perm).
    by rewrite !(cnt_perm _ _ _ Hp).
  - rewrite sort_by_perm. apply positions_NoDup.
  - rewrite sort_by_length. unfold READ_RECEIPT_MEMBER_LIMIT in Hlen. lia.
Qed.

End Answers.

Import Unread.Sample.

Lemma only_the_sender_learns_who_read_witness :
  (message_readers (ReceiptRepository0 := store_repository user_of calm) user_of (fun _ => true) (as_user "bob") "g"
     "m1" ReadReceipt.Read "" 10 (O, group [message "m1" 1 2] 0)).1
  = Err (flare_err MessageNotFound "message not found").
Proof.
  apply (only_the_sender_learns_who_read user_of (fun _ => true) (as_user "bob") "t" "bob" "g" eq_refl eq_refl
    eq_refl eq_refl "m1" ReadReceipt.Read "" 10%nat O (group [message "m1" 1 2] 0)).
  intros m Hm _. left. apply list_elem_of_singleton in Hm as ->. done.
Defined.

Lemma sender_is_told_exactly_the_readers_witness :
  exists pg,
  (message_readers (ReceiptRepository0 := store_repository user_of calm) user_of (fun _ => true) (as_user "alice") "g"
     "m1" Unread "" 10 (O, group [message "m1" 1 2] 0)).1 = Ok pg /\ p_counts pg = Some (mkCounts 0 1 1).
Proof.
  destruct (sender_is_told_exactly_the_readers user_of (fun _ => true) (as_user "alice") "t" "alice" "g" eq_refl
    eq_refl eq_refl eq_refl "m1" Unread "" 10%nat O (group [message "m1" 1 2] 0) (message "m1" 1 2))
    as (pg & Hrun & _ & Hc & _).
  - by apply list_elem_of_singleton.
  - done.
  - intros x Hx _. by apply list_elem_of_singleton in Hx.
  - done.
  - by apply (bool_decide_unpack _).
  - done.
  - done.
  - done.
  - apply Nat.leb_le. vm_compute. reflexivity.
  - exists pg. split; [exact Hrun|]. rewrite Hc. vm_compute. reflexivity.
Defined.
