(* ===== verification/MemberPages.v ===== *)
(** * Pages of a conversation's members

    flare-conversation/src/infrastructure/persistence/postgres_repository.rs: the cursor of
    [list_conversation_participants] (a keyset of join time and user id, with the totals of the
    first page carried along) and the pages read through it. *)

From stdpp Require Import base gmap sets strings list sorting.
From Stdlib Require Import ZArith Lia Ascii.
From S2P Require Import Prelude.
From S2P Require Import Database.
From S2P Require Import Slices.
From S2P Require Import ReadReceipt.
From S2P Require Import ConversationStore.
From S2P Require Import Unread.

Open Scope Z_scope.

(** ** Integers in cursors *)

(** [parse::<i64>()] *)
Definition parse_i64 (s : string) : option Z :=
  z ← match s with
      | String c s' =>
          if decide (c = "-"%char) then Z.opp <$> Str.to_Z s'
          else if decide (c = "+"%char) then Str.to_Z s'
          else Str.to_Z s
      | EmptyString => None
      end;
  if bool_decide (i64_min <= z <= i64_max) then Some z else None.

(** Decimal digits and signs only: no separator in a printed integer. *)
Definition digit_or_sign (c : ascii) : bool :=
  bool_decide (c = "-"%char) || (Nat.leb 48 (Str.code c) && Nat.leb (Str.code c) 57).

Lemma uint_chars u : Str.all_chars digit_or_sign (DecimalString.NilEmpty.string_of_uint u) = true.
Proof. induction u; simpl; rewrite ?IHu; done. Qed.

Lemma of_uint_chars u : Str.all_chars digit_or_sign (DecimalString.NilZero.string_of_uint u) = true.
Proof. destruct u; try done; apply (uint_chars (_ u)). Qed.

Lemma of_int_chars z : Str.all_chars digit_or_sign (Str.of_int z) = true.
Proof. unfold Str.of_int. destruct (Z.to_int z) as [u|u]; simpl; rewrite ?of_uint_chars; done. Qed.

Lemma of_int_no_colon z : Str.contains_char ":"%char (Str.of_int z) = false.
Proof. apply (Str.all_chars_no_sep digit_or_sign); [done|apply of_int_chars]. Qed.

(** The first digit of a printed natural number is no sign. *)
Lemma uint_no_sign u c s :
  DecimalString.NilZero.string_of_uint u = String c s -> c <> "-"%char /\ c <> "+"%char.
Proof. destruct u; simpl; intros [= <- _]; done. Qed.

Lemma to_uint_string p :
  Str.to_Z (DecimalString.NilZero.string_of_uint (Pos.to_uint p)) = Some (Zpos p).
Proof. apply (Str.to_of_Z (Zpos p)). lia. Qed.

Lemma parse_of_int z : i64_min <= z <= i64_max -> parse_i64 (Str.of_int z) = Some z.
Proof.
  intros Hz. unfold parse_i64.
  assert (E : match Str.of_int z with
      | String c s' =>
          if decide (c = "-"%char) then Z.opp <$> Str.to_Z s'
          else if decide (c = "+"%char) then Str.to_Z s'
          else Str.to_Z (Str.of_int z)
      | EmptyString => None
      end = Some z); [|rewrite E; simpl; by rewrite bool_decide_eq_true_2].
  destruct z as [|p|p]; [done|..].
  - unfold Str.of_int. simpl. destruct (DecimalString.NilZero.string_of_uint (Pos.to_uint p)) as [|c s] eqn:E.
    + pose proof (to_uint_string p) as H. by rewrite E in H.
    + destruct (uint_no_sign _ _ _ E) as [Hm Hp]. rewrite !decide_False by done. rewrite <- E. apply to_uint_string.
  - unfold Str.of_int. simpl. by rewrite to_uint_string.
Qed.

(** ** Trimming a text that ends well *)

(** [trim_end] *)
Definition trim_end (s : string) : string := String.rev (Str.trim_start_rev (String.rev s)).

Lemma trim_rev_length n s :
  (String.length s <= n)%nat -> (String.length (Str.trim_start_rev s) <= String.length s)%nat.
Proof.
  revert s. induction n as [|n IH]; intros [|c [|d [|e s]]] Hn; simpl in *; try lia; try done.
  - destruct (Str.ws1 c); simpl; lia.
  - destruct (Str.ws1 c); [|destruct (Str.ws2 d c); simpl; lia].
    destruct (Str.ws1 d); simpl; lia.
  - destruct (Str.ws1 c).
    + pose proof (IH (String d (String e s))) as H. simpl in H. lia.
    + destruct (Str.ws2 d c); [pose proof (IH (String e s)) as H; simpl in H; lia|].
      destruct (Str.ws3 e d c); [pose proof (IH s) as H; lia|simpl; lia].
Qed.

(** No white space has an ASCII character beyond its first place, or first of several. *)
Lemma ascii_no_ws sep : (Str.code sep < 128)%nat ->
  (forall c, Str.ws2 sep c = false) /\ (forall e c, Str.ws3 e sep c = false) /\ (forall d c, Str.ws3 sep d c = false).
Proof.
  intros H. unfold Str.ws2, Str.ws3.
  split_and!; intros; rewrite ?(bool_decide_eq_false_2 (Str.code sep = _)) by lia; simpl; by rewrite ?andb_false_r.
Qed.

(** An ASCII character before a text keeps what comes before it from being trimmed away. *)
Lemma trim_rev_app sep r q :
  (Str.code sep < 128)%nat -> r <> "" -> Str.trim_start_rev r = r ->
  Str.trim_start_rev (r +:+ String sep q) = r +:+ String sep q.
Proof.
  intros Hsep Hne Hr. destruct (ascii_no_ws sep Hsep) as (Hw2 & Hw3 & Hw3').
  assert (Hlen : forall s, (String.length s < String.length r)%nat -> Str.trim_start_rev s <> r).
  { intros s Hs E. pose proof (trim_rev_length _ s (le_n _)) as Hl. rewrite E in Hl. lia. }
  destruct r as [|c [|d [|e r]]]; [done|..].
  - simpl in *. destruct (Str.ws1 c) eqn:E1; [done|]. rewrite Hw2. destruct q as [|e q]; [done|]. by rewrite Hw3.
  - simpl in *. destruct (Str.ws1 c) eqn:E1; [exfalso; eapply (Hlen (String d "")); [simpl; lia|exact Hr]|].
    destruct (Str.ws2 d c); [done|]. by rewrite Hw3'.
  - simpl in *. destruct (Str.ws1 c) eqn:E1.
    { exfalso. eapply (Hlen (String d (String e r))); [simpl; lia|exact Hr]. }
    destruct (Str.ws2 d c); [exfalso; eapply (Hlen (String e r)); [simpl; lia|exact Hr]|].
    destruct (Str.ws3 e d c); [exfalso; eapply (Hlen r); [simpl; lia|exact Hr]|done].
Qed.

Lemma rev_app_rev a b : String.rev_app a b = String.rev a +:+ b.
Proof.
  unfold String.rev. revert b. induction a as [|c a IH]; intros b; [done|]. cbn [String.rev_app].
  rewrite IH, (IH (String c "")). rewrite Str.app_assoc. done.
Qed.

Lemma app_nil_r s : s +:+ "" = s.
Proof. induction s as [|c s IH]; [done|]. rewrite Str.app_cons. by rewrite IH. Qed.

Lemma rev_cons c a : String.rev (String c a) = String.rev a +:+ String c "".
Proof. unfold String.rev at 1. cbn [String.rev_app]. apply rev_app_rev. Qed.

Lemma rev_append a b : String.rev (a +:+ b) = String.rev b +:+ String.rev a.
Proof.
  induction a as [|c a IH]; [by rewrite Str.app_nil, app_nil_r|].
  rewrite Str.app_cons, !rev_cons, IH. by rewrite Str.app_assoc.
Qed.

Lemma rev_involutive s : String.rev (String.rev s) = s.
Proof. induction s as [|c s IH]; [done|]. rewrite rev_cons, rev_append, IH. done. Qed.

Lemma trim_start_k s : Str.trim_start (String "k" (String ":" s)) = String "k" (String ":" s).
Proof. by destruct s. Qed.

Lemma trim_sep sep a s :
  (Str.code sep < 128)%nat -> Str.trim_start (a +:+ String sep s) = a +:+ String sep s -> s <> "" -> trim_end s = s ->
  Str.trim (a +:+ String sep s) = a +:+ String sep s.
Proof.
  intros Hsep Hstart Hs He. unfold Str.trim. rewrite Hstart.
  assert (Hr : String.rev (a +:+ String sep s) = String.rev s +:+ String sep (String.rev a)).
  { rewrite rev_append, rev_cons. by rewrite Str.app_assoc. }
  rewrite Hr, trim_rev_app, <- Hr; [apply rev_involutive|done| |].
  - intros E. apply Hs. rewrite <- (rev_involutive s), E. done.
  - unfold trim_end in He. rewrite <- He at 2. by rewrite rev_involutive.
Qed.

Lemma trim_k_colon a user :
  user <> "" -> trim_end user = user ->
  Str.trim ("k:" +:+ a +:+ ":" +:+ user) = "k:" +:+ a +:+ ":" +:+ user.
Proof.
  intros Hu He. pose proof (trim_sep ":"%char ("k:" +:+ a) user) as H. rewrite !Str.app_assoc in H.
  apply H; [vm_compute; lia|apply trim_start_k|done..].
Qed.

(** ** The cursor *)

Record ParticipantPageCursor := mkCursor {
  keyset : option (Z * string);
  legacy_offset : Z;
  carried : option (Z * Z);
}.

Definition default_cursor : ParticipantPageCursor := mkCursor None 0 None.

(** [splitn(4, ':')] of the text behind the prefix *)
Definition split4 (s : string) : option (string * string * string * string) :=
  '(a, s) ← Str.split_once ":"%char s;
  '(b, s) ← Str.split_once ":"%char s;
  '(c, d) ← Str.split_once ":"%char s;
  Some (a, b, c, d).

Section Cursor.
(** [DateTime::from_timestamp_micros] has a value. *)
Context (valid_micros : Z -> bool).

Definition parse_participant_cursor (raw : option string) : ParticipantPageCursor :=
  match (Str.trim <$> raw) with
  | None | Some EmptyString => default_cursor
  | Some raw =>
      match Str.strip_prefix "k:" raw with
      | Some rest =>
          match split4 rest with
          | Some (a, b, c, user) =>
              match parse_i64 a, parse_i64 b, parse_i64 c with
              | Some micros, Some total, Some version =>
                  if negb (Str.is_empty user) && valid_micros micros
                  then mkCursor (Some (micros, user)) 0 (Some (total, version)) else default_cursor
              | _, _, _ => default_cursor
              end
          | None => default_cursor
          end
      | None => mkCursor None (Z.max (default 0 (parse_i64 raw)) 0) None
      end
  end.

Definition encode_participant_cursor (joined_at : Z) (user : string) (total version : Z) : string :=
  "k:" +:+ Str.of_int joined_at +:+ ":" +:+ Str.of_int total +:+ ":" +:+ Str.of_int version +:+ ":" +:+ user.

Lemma split4_join a b c d :
  Str.contains_char ":"%char a = false -> Str.contains_char ":"%char b = false ->
  Str.contains_char ":"%char c = false ->
  split4 (a +:+ ":" +:+ b +:+ ":" +:+ c +:+ ":" +:+ d) = Some (a, b, c, d).
Proof.
  intros Ha Hb Hc. unfold split4.
  change (":" +:+ b +:+ ":" +:+ c +:+ ":" +:+ d) with (String ":"%char (b +:+ ":" +:+ c +:+ ":" +:+ d)).
  rewrite (Str.split_once_app _ _ _ Ha). simpl.
  change (":" +:+ c +:+ ":" +:+ d) with (String ":"%char (c +:+ ":" +:+ d)).
  rewrite (Str.split_once_app _ _ _ Hb). simpl.
  change (":" +:+ d) with (String ":"%char d). by rewrite (Str.split_once_app _ _ _ Hc).
Qed.

Lemma parse_encode joined_at user total version :
  i64_min <= joined_at <= i64_max -> i64_min <= total <= i64_max -> i64_min <= version <= i64_max ->
  valid_micros joined_at = true -> user <> "" ->
  Str.trim (encode_participant_cursor joined_at user total version)
    = encode_participant_cursor joined_at user total version ->
  parse_participant_cursor (Some (encode_participant_cursor joined_at user total version))
  = mkCursor (Some (joined_at, user)) 0 (Some (total, version)).
Proof.
  intros Hj Ht Hv Hm Hu Htrim. unfold parse_participant_cursor.
  assert (Hs : Str.strip_prefix "k:" (encode_participant_cursor joined_at user total version)
    = Some (Str.of_int joined_at +:+ ":" +:+ Str.of_int total +:+ ":" +:+ Str.of_int version +:+ ":" +:+ user))
    by by apply Str.strip_prefix_app.
  cbn [fmap option_fmap option_map]. rewrite Htrim.
  destruct (encode_participant_cursor joined_at user total version) as [|x raw]; [done|]. rewrite Hs.
  rewrite split4_join by apply of_int_no_colon. rewrite !parse_of_int by done.
  rewrite Hm. by destruct user.
Qed.

Lemma trim_encode joined_at user total version :
  user <> "" -> trim_end user = user ->
  Str.trim (encode_participant_cursor joined_at user total version)
  = encode_participant_cursor joined_at user total version.
Proof.
  intros Hu He. unfold encode_participant_cursor.
  pose proof (trim_k_colon (Str.of_int joined_at +:+ ":" +:+ Str.of_int total +:+ ":" +:+ Str.of_int version)
    user Hu He) as H.
  by rewrite !Str.app_assoc in H.
Qed.

(** A members cursor that was handed out is read back as it was meant: the join time, the whole
    user id (colons included) and the carried totals, for every user id that does not end in white
    space. *)
Theorem cursor_round_trip joined_at user total version :
  i64_min <= joined_at <= i64_max -> i64_min <= total <= i64_max -> i64_min <= version <= i64_max ->
  valid_micros joined_at = true -> user <> "" -> trim_end user = user ->
  parse_participant_cursor (Some (encode_participant_cursor joined_at user total version))
  = mkCursor (Some (joined_at, user)) 0 (Some (total, version)).
Proof. intros. apply parse_encode; try done. by apply trim_encode. Qed.

End Cursor.

(** ** Pages *)

Definition MAX_PARTICIPANT_PAGE_LIMIT : Z := 5000.
Definition clamp_participant_page_limit (limit : Z) : Z := Z.max 1 (Z.min limit MAX_PARTICIPANT_PAGE_LIMIT).

Inductive ParticipantScope := InSeat | Members.

Record ConversationParticipantsPage := mkParticipantsPage {
  page_participants : list ConversationParticipant;
  page_next_cursor : option string;
  page_has_more : bool;
  page_version : Z;
  page_member_count : Z;
}.

(** [active_filter] *)
Definition active (include_removed : bool) (scope : ParticipantScope) (r : ParticipantRow) : bool :=
  if include_removed then true
  else match scope with
       | InSeat => negb (is_deleted r) && negb (quit r)
       | Members => negb (quit r)
       end.

(** [(joined_at, user_id) < (joined_at, user_id)] *)
Definition seat_lt (a b : Z * string) : bool :=
  bool_decide (a.1 < b.1) || (bool_decide (a.1 = b.1) && str_gt b.2 a.2).

Definition seat (x : string * ParticipantRow) : Z * string := (joined_at x.2, x.1).

Section Pages.
Context (require_user_id : Ctx -> result string) (fault : schedule).
Context (valid_micros : Z -> bool).
(** [MAX(updated_at)] in milliseconds *)
Context (version_of : Store -> string -> string -> Z).

Abbreviation M := (db Store).

Definition list_conversation_participants (ctx : Ctx) (conversation_id : string) (cursor : option string)
    (limit : Z) (include_removed skip_metadata : bool) (scope : ParticipantScope) : M ConversationParticipantsPage :=
  t ← lift_r (required_tenant ctx);
  let c := Str.trim conversation_id in
  if Str.is_empty c then lift_r (Err (flare_err InvalidParameter "conversation_id is required"))
  else
    let cur := parse_participant_cursor valid_micros cursor in
    let limit := Z.to_nat (clamp_participant_page_limit limit) in
    _ ← (if ctx_internal ctx then mret () else ensure_caller_participant require_user_id fault ctx t c);
    totals ← match carried cur with
             | Some x => mret x
             | None =>
                 if skip_metadata || ctx_internal ctx then mret (0, 0)
                 else
                   total ← query fault (db_err "count participants") (fun st =>
                     Z.of_nat (length (members_of st t c (active include_removed scope))));
                   version ← query fault (db_err "participant version") (fun st => version_of st t c);
                   mret (total, version)
             end;
    rows ← query fault (db_err "list participants") (fun st =>
      let all := sort_by by_seat (members_of st t c (active include_removed scope)) in
      match keyset cur with
      | Some at_ => take (limit + 1)%nat (filter (fun x => seat_lt at_ (seat x) = true) all)
      | None => take (limit + 1)%nat (drop (Z.to_nat (legacy_offset cur)) all)
      end);
    let has_more := Nat.ltb limit (length rows) in
    let rows := if has_more then take limit rows else rows in
    mret (mkParticipantsPage (participant_from_row <$> rows)
            (if has_more
             then (fun x => encode_participant_cursor (joined_at x.2) x.1 totals.1 totals.2) <$> last rows
             else None)
            has_more (Z.max totals.2 0) (Z.max totals.1 0)).

End Pages.

(** ** Walking the pages *)

Section Walk.
Context (require_user_id : Ctx -> result string) (valid_micros : Z -> bool).
Context (version_of : Store -> string -> string -> Z).
Context (ctx : Ctx) (t c : string) (st : Store) (limit : Z) (include_removed skip_metadata : bool)
  (scope : ParticipantScope).

Definition fetch (cursor : option string) : result ConversationParticipantsPage :=
  (list_conversation_participants require_user_id calm valid_micros version_of ctx c cursor limit include_removed
     skip_metadata scope (O, st)).1.

(** A client that follows the cursors. *)
Fixpoint follow (fuel : nat) (cursor : option string) : option (list ConversationParticipant) :=
  match fuel with
  | O => None
  | S fuel =>
      match fetch cursor with
      | Ok p => match page_next_cursor p with
                | Some next => app (page_participants p) <$> follow fuel (Some next)
                | None => Some (page_participants p)
                end
      | Err _ => None
      end
  end.

Definition seats : list (string * ParticipantRow) :=
  sort_by by_seat (members_of st t c (active include_removed scope)).

Context (Ht : required_tenant ctx = Ok t) (Hc : Str.trim c = c) (Hne : Str.is_empty c = false).
Context (Hallowed : ctx_internal ctx = true
  \/ exists u r, require_user_id ctx = Ok u /\ participants st !! (t, c, u) = Some r /\ quit r = false).
(** User ids are not empty and do not end in white space; join times and totals are in range. *)
Context (Hids : forall u r, participants st !! (t, c, u) = Some r ->
  u <> "" /\ trim_end u = u /\ i64_min <= joined_at r <= i64_max /\ valid_micros (joined_at r) = true).
Context (Htotal : Z.of_nat (length (members_of st t c (active include_removed scope))) <= i64_max).
Context (Hversion : i64_min <= version_of st t c <= i64_max).

Definition keyed (a b : string * ParticipantRow) : bool := seat_lt (seat a) (seat b).

Definition in_i64 (x : Z * Z) : Prop := i64_min <= x.1 <= i64_max /\ i64_min <= x.2 <= i64_max.

Definition cursor_at (at_ : option (string * ParticipantRow)) (totals : Z * Z) : ParticipantPageCursor :=
  mkCursor (seat <$> at_) 0 (match at_ with Some _ => Some totals | None => None end).

Definition answer (at_ : option (string * ParticipantRow)) (totals : Z * Z) : ConversationParticipantsPage :=
  let '(rows, next) := keyset_page keyed seats at_ (Z.to_nat (clamp_participant_page_limit limit)) in
  mkParticipantsPage (participant_from_row <$> rows)
    ((fun x => encode_participant_cursor (joined_at x.2) x.1 totals.1 totals.2) <$> next)
    (bool_decide (is_Some next)) (Z.max totals.2 0) (Z.max totals.1 0).

(** The rows of a fetch, cut at one more than the limit, are a page. *)
Lemma cut_page {A} (k : A -> string) (n : nat) (l : list A) :
  (0 < n)%nat ->
  let rows := take (n + 1) l in
  let more := Nat.ltb n (length rows) in
  let rows := if more then take n rows else rows in
  rows = take n l /\ (if more then last rows else None) = (if Nat.ltb n (length l) then last (take n l) else None)
  /\ more = bool_decide (is_Some (if Nat.ltb n (length l) then last (take n l) else None)).
Proof.
  intros Hn. cbv zeta. rewrite length_take.
  destruct (Nat.ltb_spec n (length l)) as [Hlt|Hge].
  - assert (E : Nat.ltb n (Nat.min (n + 1) (length l)) = true) by (apply Nat.ltb_lt; lia). rewrite E.
    rewrite take_take, Nat.min_l by lia. split_and!; [done|done|]. symmetry. apply bool_decide_eq_true_2.
    destruct (take n l) as [|x p] eqn:Et using rev_ind; [|rewrite last_snoc; eauto].
    apply (f_equal length) in Et. rewrite length_take in Et. simpl in Et. lia.
  - assert (E : Nat.ltb n (Nat.min (n + 1) (length l)) = false) by (apply Nat.ltb_ge; lia). rewrite E.
    rewrite !take_ge by lia. split_and!; [done|done|]. symmetry. apply bool_decide_eq_false_2, is_Some_None.
Qed.

Lemma allowed_run n :
  exists n', (if ctx_internal ctx then mret () else ensure_caller_participant require_user_id calm ctx t c)
               ((n, st) : session Store) = (Ok (), (n', st)).
Proof.
  destruct (ctx_internal ctx) eqn:Ei; [by eexists|]. destruct Hallowed as [?|(u & r & Hu & Hr & Hq)]; [done|].
  unfold ensure_caller_participant, mbind, stE_bind, lift_r, query. rewrite Hu, exec_calm. cbn [fst snd].
  rewrite Hr, Hq. by eexists.
Qed.

(** What one fetch answers, from a cursor of this listing. *)
Lemma fetch_run cursor at_ totals :
  parse_participant_cursor valid_micros cursor = cursor_at at_ totals -> in_i64 totals ->
  exists totals', in_i64 totals' /\ fetch cursor = Ok (answer at_ totals').
Proof.
  intros Hcur Htot. unfold fetch, list_conversation_participants. rewrite Ht, Hc, Hne, Hcur.
  unfold mbind at 1 2, stE_bind at 1 2, lift_r. destruct (allowed_run O) as [n1 ->].
  set (lim := Z.to_nat (clamp_participant_page_limit limit)).
  assert (Hlim : (0 < lim)%nat) by (unfold lim, clamp_participant_page_limit; lia).
  assert (Hmeta : exists totals' n2, in_i64 totals' /\
    (match carried (cursor_at at_ totals) with
     | Some x => mret x
     | None =>
         if skip_metadata || ctx_internal ctx then mret (0, 0)
         else
           total ← query calm (db_err "count participants") (fun st =>
             Z.of_nat (length (members_of st t c (active include_removed scope))));
           version ← query calm (db_err "participant version") (fun st => version_of st t c);
           mret (total, version)
     end) ((n1, st) : session Store) = (Ok totals', (n2, st))).
  { destruct at_; simpl; [by eexists _, _|]. destruct (skip_metadata || ctx_internal ctx).
    - exists (0, 0), n1. split; [|done]. unfold in_i64, i64_min, i64_max. simpl. lia.
    - unfold mbind, stE_bind, query. rewrite exec_calm. cbn [fst snd]. rewrite exec_calm. cbn [fst snd].
      eexists (_, _), _. split; [|done]. split; [|exact Hversion]. simpl. unfold i64_min in *. lia. }
  destruct Hmeta as (totals' & n2 & Htot' & Hrun). exists totals'. split; [done|].
  unfold mbind at 1, stE_bind at 1. rewrite Hrun. unfold mbind, stE_bind, query. rewrite exec_calm. cbn [fst snd].
  unfold mret, stE_ret.
  fold seats. cbn [keyset legacy_offset cursor_at].
  assert (Hrest : match seat <$> at_ with
      | Some a => take (lim + 1) (filter (fun x => seat_lt a (seat x) = true) seats)
      | None => take (lim + 1) (drop (Z.to_nat 0) seats)
      end = take (lim + 1) (beyond keyed at_ seats)) by by destruct at_.
  rewrite Hrest. clear Hrest.
  unfold answer, keyset_page. fold lim. set (rest := beyond keyed at_ seats).
  destruct (cut_page fst lim rest Hlim) as (E1 & E2 & E3). cbv zeta in E1, E2, E3.
  simpl. rewrite E1 in E2 |- *. rewrite <- E3, <- E2. by destruct (Nat.ltb lim _).
Qed.

Lemma page_next_elem (l : list (string * ParticipantRow)) at_ n rows x :
  keyset_page keyed l at_ n = (rows, Some x) -> x ∈ l.
Proof.
  unfold keyset_page. destruct (Nat.ltb n _); intros [= _ Hx].
  apply last_Some_elem_of in Hx. apply elem_of_take in Hx as (i & Hi & _).
  apply list_elem_of_lookup_2 in Hi. destruct at_ as [y|]; simpl in Hi; [|done].
  by apply list_elem_of_filter in Hi as [_ Hi].
Qed.

Lemma seats_row x : x ∈ seats -> participants st !! (t, c, x.1) = Some x.2.
Proof. unfold seats. rewrite elem_of_sort_by. destruct x as [u r]. by intros [Hr _]%elem_of_members. Qed.

Lemma follow_walk fuel cursor at_ totals :
  parse_participant_cursor valid_micros cursor = cursor_at at_ totals -> in_i64 totals ->
  follow fuel cursor
  = (fun l : list (string * ParticipantRow) => participant_from_row <$> l)
      <$> keyset_walk keyed fuel seats at_ (Z.to_nat (clamp_participant_page_limit limit)).
Proof.
  revert cursor at_ totals. induction fuel as [|fuel IH]; intros cursor at_ totals Hcur Htot; [done|].
  cbn [follow keyset_walk]. destruct (fetch_run cursor at_ totals Hcur Htot) as (totals' & Htot' & ->).
  unfold answer. destruct (keyset_page keyed seats at_ _) as [rows [x|]] eqn:Ep; [|done]. simpl.
  pose proof (page_next_elem _ _ _ _ _ Ep) as Hx. destruct (Hids x.1 x.2 (seats_row x Hx)) as (Hu & He & Hj & Hm).
  assert (Hnext : parse_participant_cursor valid_micros
    (Some (encode_participant_cursor (joined_at x.2) x.1 totals'.1 totals'.2)) = cursor_at (Some x) totals').
  { rewrite parse_encode by (done || apply Htot' || by apply trim_encode). unfold cursor_at. simpl.
    by destruct totals'. }
  rewrite (IH _ (Some x) totals' Hnext Htot').
  destruct (keyset_walk keyed fuel seats (Some x) _); simpl; [|done]. f_equal. by rewrite fmap_app.
Qed.

#[local] Instance by_seat_total : TotalPreorder by_seat.
Proof.
  unfold by_seat. split; intros x y; [|intros z]; rewrite ?orb_true_iff, ?andb_true_iff, ?bool_decide_eq_true.
  - destruct (Z.lt_trichotomy (joined_at x.2) (joined_at y.2)) as [?|[?|?]];
      destruct (String.leb_total x.1 y.1); auto 6 using eq_sym.
  - intros [?|[? ?]] [?|[? ?]]; try lia. right. split; [lia|]. by apply (le_trans String.leb _ y.1).
Qed.

Lemma seats_sorted : StronglySorted (fun a b => keyed a b = true) seats.
Proof.
  assert (Hnd : NoDup (fst <$> seats)).
  { unfold seats. rewrite sort_by_perm. apply NoDup_members. }
  pose proof (sort_by_sorted by_seat (members_of st t c (active include_removed scope))) as Hs. fold seats in Hs.
  induction Hs as [|x l Hl IH Hx]; [constructor|]. rewrite fmap_cons in Hnd. apply NoDup_cons in Hnd as [Hnx Hnd].
  constructor; [by apply IH|]. rewrite Forall_forall in *. intros y Hy. specialize (Hx y Hy).
  unfold by_seat in Hx. unfold keyed, seat_lt, seat. simpl.
  rewrite orb_true_iff, andb_true_iff, !bool_decide_eq_true in *. destruct Hx as [?|[Hj Hle]]; [by left|].
  right. split; [done|]. apply str_gt_lt. split; [done|]. intros E. destruct Hnx. rewrite E. by apply list_elem_of_fmap_2.
Qed.

Lemma keyed_asym a b : keyed a b = true -> keyed b a = false.
Proof.
  unfold keyed, seat_lt, seat. simpl. rewrite orb_true_iff, andb_true_iff, !bool_decide_eq_true, orb_false_iff.
  intros [H|[E H]].
  - rewrite !bool_decide_eq_false_2 by lia. done.
  - rewrite (bool_decide_eq_false_2 (_ < _)) by lia. split; [done|]. apply andb_false_intro2.
    destruct (str_gt a.1 b.1) eqn:Eg; [|done]. apply str_gt_lt in H as [H Hn], Eg as [Eg _].
    by destruct Hn; apply str_leb_antisym.
Qed.

(** C34. A caller who may read the member list and follows its cursors, while nobody joins, leaves or
    changes, gets every participant of the scope exactly once, in the order of joining, whatever page size
    it asks for, and the last page comes after at most one page more than there are participants.
    User ids end in no white space. *)
Theorem member_pages_list_everyone_once :
  follow (S (length seats)) None = Some (participant_from_row <$> seats)
  /\ NoDup seats
  /\ (forall u r, (u, r) ∈ seats <-> participants st !! (t, c, u) = Some r /\ active include_removed scope r = true).
Proof.
  split_and!.
  - rewrite (follow_walk _ None None (0, 0)) by (done || (unfold in_i64, i64_min, i64_max; simpl; lia)).
    rewrite keyset_walk_all; [done|apply keyed_asym|apply seats_sorted|].
    unfold clamp_participant_page_limit. lia.
  - assert (Hs := seats_sorted). induction Hs as [|x l Hl IH Hx]; constructor; [|done].
    intros Hin. rewrite Forall_forall in Hx. specialize (Hx x Hin). pose proof (keyed_asym _ _ Hx). congruence.
  - intros u r. unfold seats. rewrite elem_of_sort_by. apply elem_of_members.
Qed.

End Walk.

Import Unread.Sample.

Lemma cursor_round_trip_witness :
  parse_participant_cursor (fun _ => true) (Some (encode_participant_cursor 1700000000000000 "a:b:c" 42 (-7)))
  = mkCursor (Some (1700000000000000, "a:b:c")) 0 (Some (42, -7)).
Proof.
  apply (cursor_round_trip (fun _ => true)); try (unfold i64_min, i64_max; lia); done.
Defined.

Lemma member_pages_list_everyone_once_witness :
  p_user_id <$> default [] (follow user_of (fun _ => true) (fun _ _ _ => 0) (as_user "bob") "g" (group [] 0) 1 false
    false Members 3 None) = ["alice"; "bob"].
Proof.
  pose proof (member_pages_list_everyone_once user_of (fun _ => true) (fun _ _ _ => 0) (as_user "bob") "t" "g"
    (group [] 0) 1 false false Members eq_refl eq_refl eq_refl) as H.
  destruct H as [H _].
  - right. exists "bob", (member 0). done.
  - intros u r Hr. simpl in Hr. apply lookup_insert_Some in Hr as [[[= <-] <-]|[_ Hr]];
      [|apply lookup_singleton_Some in Hr as [[= <-] <-]];
      (split_and!; [done|reflexivity|unfold i64_min; simpl; lia|unfold i64_max; simpl; lia|done]).
  - unfold i64_max. vm_compute. done.
  - unfold i64_min, i64_max. lia.
  - change (S (length (seats "t" "g" (group [] 0) false Members))) with 3%nat in H. rewrite H. vm_compute. reflexivity.
Defined.
