(* ===== verification/ConversationRows.v ===== *)
(** * Creating, reading and updating a conversation

    The rest of flare-conversation/src/infrastructure/persistence/postgres_repository.rs that keeps
    the conversation's own row: [create_conversation], [get_conversation], [update_conversation]
    and [update_cursor], with the enumerations of domain/model/mod.rs. The statements of one
    transaction are one statement here, as in [ConversationStore]. The protobuf numbers of the
    visibility are arguments; the order of the rows a SELECT without ORDER BY returns is [scan]. *)

From stdpp Require Import base gmap strings list sets.
From Stdlib Require Import ZArith Lia.
From S2P Require Import Prelude.
From S2P Require Import Database.
From S2P Require Import ConversationStore.

Open Scope Z_scope.

(** ** Enumerations *)

Inductive ConversationType :=
  | Unspecified | Single | Group | Ai | System | Customer | Temp | Channel | Broadcast.

#[export] Instance ConversationType_eq_dec : EqDecision ConversationType.
Proof. solve_decision. Defined.

Definition from_int (value : Z) : ConversationType :=
  match value with
  | 1 => Single | 2 => Group | 3 => Ai | 4 => System | 5 => Customer | 6 => Temp | 7 => Channel
  | 8 => Broadcast | _ => Unspecified
  end.

Definition as_int (t : ConversationType) : Z :=
  match t with
  | Unspecified => 0 | Single => 1 | Group => 2 | Ai => 3 | System => 4 | Customer => 5 | Temp => 6
  | Channel => 7 | Broadcast => 8
  end.

Definition from_db_str (s : string) : ConversationType :=
  let s := Str.to_ascii_lowercase (Str.trim s) in
  if bool_decide (s = "unspecified") then Unspecified
  else if bool_decide (s = "single") then Single
  else if bool_decide (s = "group") then Group
  else if bool_decide (s = "ai") then Ai
  else if bool_decide (s = "system") then System
  else if bool_decide (s = "customer") then Customer
  else if bool_decide (s = "temp") then Temp
  else if bool_decide (s = "channel") then Channel
  else if bool_decide (s = "broadcast") then Broadcast
  else Unspecified.

Definition as_str (t : ConversationType) : string :=
  match t with
  | Unspecified => "unspecified" | Single => "single" | Group => "group" | Ai => "ai" | System => "system"
  | Customer => "customer" | Temp => "temp" | Channel => "channel" | Broadcast => "broadcast"
  end.

Inductive ConversationVisibility := VisibilityUnspecified | Private | Tenant | Public.

Section Codes.
(** The numbers of the protocol's enumeration, which the build generates. *)
Context (code : ConversationVisibility -> Z).

(** [ConversationVisibility::from_proto] *)
Definition visibility_of_proto (value : Z) : ConversationVisibility :=
  if value =? code Private then Private
  else if value =? code Tenant then Tenant
  else if value =? code Public then Public
  else VisibilityUnspecified.

(** [ConversationVisibility::as_proto] *)
Definition visibility_to_proto (v : ConversationVisibility) : Z := code v.

(** An enumeration numbers its cases apart, so what is written is read back. *)
Lemma visibility_of_to_proto (Hcode : Inj (=) (=) code) v : visibility_of_proto (visibility_to_proto v) = v.
Proof.
  unfold visibility_of_proto, visibility_to_proto.
  destruct v; repeat case_match; try done; rewrite ?Z.eqb_eq, ?Z.eqb_neq in *;
    repeat match goal with H : code _ = code _ |- _ => by apply (inj code) in H end; done.
Qed.

End Codes.

Inductive ConversationLifecycleState := LifecycleUnspecified | Active | Suspended | Archived | Deleted.

#[export] Instance ConversationLifecycleState_eq_dec : EqDecision ConversationLifecycleState.
Proof. solve_decision. Defined.

Definition lifecycle_as_str (s : ConversationLifecycleState) : string :=
  match s with
  | LifecycleUnspecified => "unspecified" | Active => "active" | Suspended => "suspended"
  | Archived => "archived" | Deleted => "deleted"
  end.

Definition lifecycle_of_str (s : string) : ConversationLifecycleState :=
  if bool_decide (s = "active") then Active
  else if bool_decide (s = "suspended") then Suspended
  else if bool_decide (s = "archived") then Archived
  else if bool_decide (s = "deleted") then Deleted
  else LifecycleUnspecified.

(** ** Conversations *)

(** Without the policy, which the repository never fills in, and the timestamps. *)
Record Conversation := mkConversation {
  cv_tenant_id : string;
  cv_conversation_id : string;
  cv_type : ConversationType;
  cv_business_type : string;
  cv_channel_id : string;
  cv_display_name : option string;
  cv_attributes : gmap string string;
  cv_participants : list ConversationParticipant;
  cv_visibility : ConversationVisibility;
  cv_lifecycle : ConversationLifecycleState;
}.

Record ConversationUpdate := mkUpdate {
  u_display_name : option string;
  u_attributes : option (gmap string string);
  u_visibility : option ConversationVisibility;
  u_lifecycle_state : option ConversationLifecycleState;
}.

(** [slice::chunks] *)
Fixpoint chunks_from {A} (fuel n : nat) (l : list A) : list (list A) :=
  match fuel, l with
  | _, [] | O, _ => []
  | S fuel, _ => take n l :: chunks_from fuel n (drop n l)
  end.

Definition chunks {A} (n : nat) (l : list A) : list (list A) := chunks_from (length l) n l.

Section Rows.
Context (require_user_id : Ctx -> result string).
Context (fault : schedule) (now : Z).
(** [visibility_to_proto] and [visibility_of_proto] at the protocol's numbers. *)
Context (visibility_as_proto : ConversationVisibility -> Z) (visibility_from_proto : Z -> ConversationVisibility).
Context (scan : list (string * ParticipantRow) -> list (string * ParticipantRow)).

Abbreviation M := (db Store).

(** ** Creating *)

(** The [ON CONFLICT] of the creation: the row stays quit if its member had quit. *)
Definition rejoin_row (p : ConversationParticipant) (from : Z) (r : ParticipantRow) : ParticipantRow :=
  mkParticipantRow (p_roles p) (muted r) (pinned r) (p_attributes p) (joined_at r) (nickname r) (read_seq r)
    (sync_seq r) (unread_count r) false (is_archived r) (settings_version r) (draft r) (quit r)
    (Z.max (from_seq r) from) (mention_only r) (cleared_seq r).

Definition insert_participant (t c : string) (rows : gmap (string * string * string) ParticipantRow)
    (p : ConversationParticipant) : gmap (string * string * string) ParticipantRow :=
  let k := (t, c, p_user_id p) in
  let from := Z.max (p_visible_from_seq p) 0 in
  <[k := match rows !! k with
         | Some r => rejoin_row p from r
         | None => new_row now p from
         end]> rows.

Definition PARTICIPANT_INSERT_CHUNK : nat := Z.to_nat 5000.

(** One multi-row INSERT; Postgres refuses to update a row twice in one. *)
Definition insert_chunk (t c : string) (rows : result (gmap (string * string * string) ParticipantRow))
    (chunk : list ConversationParticipant) : result (gmap (string * string * string) ParticipantRow) :=
  rows ← rows;
  if bool_decide (NoDup (p_user_id <$> chunk)) then Ok (foldl (insert_participant t c) rows chunk)
  else Err (db_err "Failed to batch insert participants").

Definition conversation_row (s : Conversation) : ConversationRow :=
  mkConversationRow None (lifecycle_as_str (cv_lifecycle s)) 0
    (mkInfo (as_int (cv_type s)) (cv_business_type s) (cv_display_name s) (cv_attributes s)
       (visibility_as_proto (cv_visibility s)) (cv_channel_id s)).

Definition create_conversation (ctx : Ctx) (s : Conversation) : M unit :=
  t ← lift_r (required_tenant ctx);
  if Str.is_blank (cv_conversation_id s) then
    lift_r (Err (flare_err InvalidParameter "conversation_id is required"))
  else
    exec fault (db_err "Failed to create conversation") (fun st =>
      let c := cv_conversation_id s in
      let cs := match conversations st !! (t, c) with
                | Some _ => conversations st
                | None => <[(t, c) := conversation_row s]> (conversations st)
                end in
      match foldl (insert_chunk t c) (Ok (participants st)) (chunks PARTICIPANT_INSERT_CHUNK (cv_participants s)) with
      | Ok rows => (Ok (), with_participants (with_conversations st cs) rows)
      | Err e => (Err e, st)
      end).

(** ** Reading *)

Definition conversation_of (t c : string) (r : ConversationRow) (members : list ConversationParticipant) :
    Conversation :=
  mkConversation t c (from_int (conversation_type (info r))) (business_type (info r)) (channel_id (info r))
    (display_name (info r)) (conversation_attributes (info r)) members
    (visibility_from_proto (visibility (info r))) (lifecycle_of_str (lifecycle_state r)).

Definition get_conversation (ctx : Ctx) (c : string) : M (option Conversation) :=
  t ← lift_r (required_tenant ctx);
  row ← query fault (db_err "Failed to get conversation") (fun st => conversations st !! (t, c));
  match row with
  | None => mret None
  | Some r =>
      members ← query fault (db_err "Failed to get participants") (fun st =>
        managed <$> scan (members_of st t c (fun p => negb (quit p))));
      mret (Some (conversation_of t c r members))
  end.

(** ** Updating *)

Definition bump_settings (p : ParticipantRow) : ParticipantRow :=
  if is_deleted p then p
  else
    mkParticipantRow (roles p) (muted p) (pinned p) (attributes p) (joined_at p) (nickname p) (read_seq p)
      (sync_seq p) (unread_count p) (is_deleted p) (is_archived p) (settings_version p + 1) (draft p) (quit p)
      (from_seq p) (mention_only p) (cleared_seq p).

Definition updated_row (u : ConversationUpdate) (r : ConversationRow) : ConversationRow :=
  mkConversationRow (last_message_seq r)
    (default (lifecycle_state r) (lifecycle_as_str <$> u_lifecycle_state u)) (conversation_cleared r)
    (mkInfo (conversation_type (info r)) (business_type (info r))
       (match u_display_name u with Some n => Some n | None => display_name (info r) end)
       (default (conversation_attributes (info r)) (u_attributes u))
       (default (visibility (info r)) (visibility_as_proto <$> u_visibility u)) (channel_id (info r))).

Definition archived (r : ConversationRow) : bool := bool_decide (lifecycle_state r = "archived").

Definition update_conversation (ctx : Ctx) (c : string) (u : ConversationUpdate) : M unit :=
  t ← lift_r (required_tenant ctx);
  write fault (db_err "Failed to update conversation") (fun st =>
    match conversations st !! (t, c) with
    | None => st
    | Some r =>
        let r' := updated_row u r in
        let st := with_conversations st (<[(t, c) := r']> (conversations st)) in
        if bool_decide (archived r = archived r') then st
        else update_members t c (fun _ => bump_settings) st
    end).

(** ** Cursors *)

Definition update_cursor (ctx : Ctx) (c : string) (sync_seq : Z) : M unit :=
  t ← lift_r (required_tenant ctx);
  u ← lift_r (require_user_id ctx);
  if bool_decide (c = "__conversations__") then
    write fault (db_err "Failed to update conversation list cursor") (fun st =>
      with_cursors st
        (<[(t, u, c) := match sync_cursors st !! (t, u, c) with
                        | Some (_, ts) => (0, Z.max ts sync_seq)
                        | None => (0, sync_seq)
                        end]> (sync_cursors st)))
  else
    write fault (db_err "Failed to update message sync cursor") (fun st =>
      with_cursors st
        (<[(t, u, c) := match sync_cursors st !! (t, u, c) with
                        | Some (s, ts) => (Z.max s sync_seq, Z.max ts now)
                        | None => (sync_seq, now)
                        end]> (sync_cursors st))).

End Rows.

(** ** Round trips of the enumerations *)

Lemma from_int_as_int t : from_int (as_int t) = t.
Proof. by destruct t. Qed.

Lemma lifecycle_of_as_str s : lifecycle_of_str (lifecycle_as_str s) = s.
Proof. by destruct s. Qed.

(** The names the database and the caches hold are read back, whatever their case and the white
    space around them. *)
Lemma from_db_str_as_str t s :
  Str.to_ascii_lowercase (Str.trim s) = as_str t -> from_db_str s = t.
Proof. intros H. unfold from_db_str. rewrite H. by destruct t. Qed.

(** ** Chunks *)

Lemma concat_chunks_from {A} fuel n (l : list A) :
  (0 < n)%nat -> (length l <= fuel)%nat -> concat (chunks_from fuel n l) = l.
Proof.
  intros Hn. revert l. induction fuel as [|fuel IH]; intros [|x l] Hl; simpl in *; try done; [lia|].
  destruct n as [|n]; [lia|]. simpl. rewrite IH by (rewrite length_drop; lia). by rewrite take_drop.
Qed.

Lemma concat_chunks {A} n (l : list A) : (0 < n)%nat -> concat (chunks n l) = l.
Proof. intros Hn. by apply concat_chunks_from. Qed.

Lemma NoDup_concat {A B} (f : A -> B) (ls : list (list A)) l :
  NoDup (f <$> concat ls) -> l ∈ ls -> NoDup (f <$> l).
Proof.
  intros Hnd Hl. induction ls as [|k ls IH]; simpl in *; [by apply not_elem_of_nil in Hl|].
  rewrite fmap_app in Hnd. apply NoDup_app in Hnd as (Hk & _ & Hls). apply elem_of_cons in Hl as [->|Hl]; auto.
Qed.

(** ** Rows of many members *)

Section Upserts.
Context {K V P : Type} `{Countable K} (key : P -> K) (f : P -> option V -> V).

Definition upsert (rows : gmap K V) (p : P) : gmap K V := <[key p := f p (rows !! key p)]> rows.

Lemma upserts_other l rows k : k ∉ key <$> l -> foldl upsert rows l !! k = rows !! k.
Proof.
  revert rows. induction l as [|p l IH]; intros rows Hk; [done|]. simpl.
  rewrite fmap_cons, not_elem_of_cons in Hk. destruct Hk as [Hp Hk]. rewrite IH by done.
  unfold upsert. by rewrite lookup_insert_ne.
Qed.

Lemma upserts_own l rows p :
  NoDup (key <$> l) -> p ∈ l -> foldl upsert rows l !! key p = Some (f p (rows !! key p)).
Proof.
  revert rows. induction l as [|q l IH]; intros rows Hnd Hp; [by apply not_elem_of_nil in Hp|].
  rewrite fmap_cons in Hnd. apply NoDup_cons in Hnd as [Hq Hnd]. simpl. apply elem_of_cons in Hp as [->|Hp].
  - rewrite upserts_other by done. unfold upsert. by rewrite lookup_insert_eq.
  - rewrite IH by done. unfold upsert. rewrite lookup_insert_ne; [done|].
    intros E. apply Hq. rewrite E. by apply list_elem_of_fmap_2.
Qed.

End Upserts.

(** ** What a creation leaves *)

Section Created.
Context (now : Z) (t c : string).

Definition created_row (p : ConversationParticipant) (old : option ParticipantRow) : ParticipantRow :=
  let from := Z.max (p_visible_from_seq p) 0 in
  match old with Some r => rejoin_row p from r | None => new_row now p from end.

Definition member_key (p : ConversationParticipant) : string * string * string := (t, c, p_user_id p).

Lemma insert_participants_upsert rows l :
  foldl (insert_participant now t c) rows l = foldl (upsert member_key created_row) rows l.
Proof. done. Qed.

Lemma NoDup_keys l : NoDup (p_user_id <$> l) -> NoDup (member_key <$> l).
Proof.
  intros Hnd. assert (E : member_key <$> l = (fun u => (t, c, u)) <$> (p_user_id <$> l))
    by (by rewrite <- list_fmap_compose).
  rewrite E. apply NoDup_fmap_2; [|done]. intros u v Huv. by simplify_eq.
Qed.

Lemma insert_chunks_all ls rows :
  (forall l, l ∈ ls -> NoDup (p_user_id <$> l)) ->
  foldl (insert_chunk now t c) (Ok rows) ls = Ok (foldl (insert_participant now t c) rows (concat ls)).
Proof.
  revert rows. induction ls as [|l ls IH]; intros rows Hl; [done|]. simpl.
  rewrite bool_decide_eq_true_2 by (apply Hl; set_solver). simpl.
  rewrite IH by (intros; apply Hl; set_solver). by rewrite foldl_app.
Qed.

Lemma insert_all rows l :
  NoDup (p_user_id <$> l) ->
  foldl (insert_chunk now t c) (Ok rows) (chunks PARTICIPANT_INSERT_CHUNK l)
  = Ok (foldl (upsert member_key created_row) rows l).
Proof.
  intros Hnd. assert (Hc : concat (chunks PARTICIPANT_INSERT_CHUNK l) = l)
    by (apply concat_chunks; unfold PARTICIPANT_INSERT_CHUNK; lia).
  rewrite insert_chunks_all; [by rewrite Hc|]. intros k. apply NoDup_concat. by rewrite Hc.
Qed.

(** The rows of a conversation that had none. *)
Lemma created_members st cs l :
  (forall u, participants st !! (t, c, u) = None) -> NoDup (p_user_id <$> l) ->
  members_of (with_participants (with_conversations st cs) (foldl (upsert member_key created_row) (participants st) l))
    t c (fun p => negb (quit p))
  ≡ₚ (fun p => (p_user_id p, created_row p None)) <$> l.
Proof.
  intros Hno Hnd. apply NoDup_Permutation.
  - eapply NoDup_fmap_1, NoDup_members.
  - apply (NoDup_fmap_1 fst). by rewrite <- list_fmap_compose.
  - intros [u r]. rewrite elem_of_members, list_elem_of_fmap. simpl. split.
    + intros [Hr _]. destruct (decide (u ∈ p_user_id <$> l)) as [Hu|Hu].
      * apply list_elem_of_fmap in Hu as (p & -> & Hp). change (t, c, p_user_id p) with (member_key p) in Hr.
        rewrite upserts_own in Hr by (done || by apply NoDup_keys). unfold member_key in Hr. rewrite Hno in Hr.
        exists p. by simplify_eq.
      * rewrite upserts_other, Hno in Hr; [done|]. rewrite list_elem_of_fmap. intros (p & [= ->] & Hp).
        apply Hu. by apply list_elem_of_fmap_2.
    + intros (p & [= -> ->] & Hp). split; [|done]. change (t, c, p_user_id p) with (member_key p).
      rewrite upserts_own by (done || by apply NoDup_keys). unfold member_key. by rewrite Hno.
Qed.

End Created.

(** A member as the creation stores it: in sight of the whole history, and notified of everything. *)
Definition initial_member (p : ConversationParticipant) : ConversationParticipant :=
  mkParticipant (p_user_id p) (p_roles p) (p_muted p) (p_pinned p) (p_attributes p)
    (Z.max (p_visible_from_seq p) 0) false.

(** C38. A conversation that was created is read back as it was given: its type, description,
    visibility and life cycle, and each of its members once, whatever their number and the order
    in which the database returns them. *)
Theorem created_conversation_reads_back visibility_as_proto visibility_from_proto scan now ctx t s n m st :
  (forall v, visibility_from_proto (visibility_as_proto v) = v) -> (forall l, scan l ≡ₚ l) ->
  required_tenant ctx = Ok t -> Str.is_blank (cv_conversation_id s) = false ->
  conversations st !! (t, cv_conversation_id s) = None ->
  (forall u, participants st !! (t, cv_conversation_id s, u) = None) ->
  NoDup (p_user_id <$> cv_participants s) ->
  exists st' members,
    create_conversation calm now visibility_as_proto ctx s (n, st) = (Ok (), (S n, st'))
    /\ (get_conversation calm visibility_from_proto scan ctx (cv_conversation_id s) (m, st')).1
       = Ok (Some (mkConversation t (cv_conversation_id s) (cv_type s) (cv_business_type s) (cv_channel_id s)
                     (cv_display_name s) (cv_attributes s) members (cv_visibility s) (cv_lifecycle s)))
    /\ members ≡ₚ initial_member <$> cv_participants s.
Proof.
  intros Hv Hscan Ht Hb Hc Hp Hnd. unfold create_conversation, get_conversation. rewrite Ht, Hb.
  set (c := cv_conversation_id s) in *. unfold mbind, stE_bind, lift_r. rewrite exec_calm, Hc, insert_all by done.
  eexists _, (managed <$> scan _). split; [done|]. unfold query. rewrite exec_calm. cbn [fst snd].
  change (conversations (with_participants ?x _)) with (conversations x). simpl. rewrite lookup_insert_eq.
  rewrite exec_calm. cbn [fst snd]. split.
  - unfold mret, stE_ret, conversation_of, conversation_row. simpl. by rewrite from_int_as_int, lifecycle_of_as_str, Hv.
  - rewrite Hscan, (created_members now t c st _ (cv_participants s)) by done.
    rewrite <- list_fmap_compose. by apply reflexive_eq, list_fmap_ext.
Qed.

(** Archiving and restoring: an update changes the settings version of the members exactly when
    it moves the conversation into or out of the archive, for the members who have not hidden it,
    and each time by one; their own settings stay as they are. *)
Theorem archive_change_bumps_settings visibility_as_proto ctx t c u n st r k p :
  required_tenant ctx = Ok t -> conversations st !! (t, c) = Some r -> participants st !! k = Some p ->
  let st' := (update_conversation calm visibility_as_proto ctx c u (n, st)).2.2 in
  exists r' p', conversations st' !! (t, c) = Some r' /\ participants st' !! k = Some p'
  /\ lifecycle_state r' = default (lifecycle_state r) (lifecycle_as_str <$> u_lifecycle_state u)
  /\ p' = (if bool_decide (k.1 = (t, c)) && negb (bool_decide (archived r = archived r')) then bump_settings p else p)
  /\ (is_deleted p = false -> settings_version (bump_settings p) = settings_version p + 1).
Proof.
  intros Ht Hr Hp. unfold update_conversation, mbind, stE_bind, lift_r, write. rewrite Ht, exec_calm. cbn [fst snd].
  rewrite Hr. exists (updated_row visibility_as_proto u r).
  exists (if bool_decide (k.1 = (t, c)) && negb (bool_decide (archived r = archived (updated_row visibility_as_proto u r)))
     then bump_settings p else p).
  assert (Hv : is_deleted p = false -> settings_version (bump_settings p) = settings_version p + 1)
    by (intros Hd; unfold bump_settings; by rewrite Hd).
  destruct (bool_decide (archived r = _)); simpl; split_and!; try done.
  - by rewrite lookup_insert_eq.
  - by rewrite andb_false_r, Hp.
  - by rewrite lookup_insert_eq.
  - rewrite map_lookup_imap, Hp. destruct k as [[kt kc] v]. simpl. f_equal.
    destruct (decide ((kt, kc) = (t, c))) as [[= -> ->]|Hk].
    + by rewrite !bool_decide_eq_true_2.
    + rewrite (bool_decide_eq_false_2 ((kt, kc) = (t, c))) by done.
      destruct (decide (kt = t)) as [->|]; [|by rewrite (bool_decide_eq_false_2 (kt = t))].
      rewrite (bool_decide_eq_false_2 (kc = c)) by congruence. by rewrite andb_false_r.
Qed.

Module Sample.

Definition code (v : ConversationVisibility) : Z :=
  match v with VisibilityUnspecified => 0 | Private => 1 | Tenant => 2 | Public => 3 end.
Definition as_proto : ConversationVisibility -> Z := visibility_to_proto code.
Definition from_proto : Z -> ConversationVisibility := visibility_of_proto code.
Definition caller : Ctx := mkCtx (Some "t") (Some "ann") false.
Definition person (u : string) : ConversationParticipant := mkParticipant u ["member"] true false ∅ (-1) true.
Definition chat : Conversation :=
  mkConversation "t" "1-ann-bob" Single "chat" "" None ∅ [person "ann"; person "bob"] Private Active.
Definition empty_store : Store := mkStore ∅ ∅ ∅ ∅ ∅ ∅ ∅.

End Sample.
Import Sample.

Lemma created_conversation_reads_back_witness :
  exists st' members,
    create_conversation calm 7 as_proto caller chat (O, empty_store) = (Ok (), (1%nat, st'))
    /\ (get_conversation calm from_proto (fun l => l) caller "1-ann-bob" (O, st')).1
       = Ok (Some (mkConversation "t" "1-ann-bob" Single "chat" "" None ∅ members Private Active))
    /\ length members = 2%nat.
Proof.
  destruct (created_conversation_reads_back as_proto from_proto (fun l => l) 7 caller "t" chat O O empty_store)
    as (st' & ms & Hc & Hg & Hp); try done.
  - by intros [].
  - apply (bool_decide_eq_true_1 (NoDup _)). vm_compute. reflexivity.
  - exists st', ms. split_and!; [exact Hc|exact Hg|]. by rewrite Hp.
Defined.

Lemma archive_change_bumps_settings_witness :
  let st := (create_conversation calm 7 as_proto caller chat (O, empty_store)).2.2 in
  exists p, participants (update_conversation calm as_proto caller "1-ann-bob" (mkUpdate None None None (Some Archived)) (O, st)).2.2
              !! ("t", "1-ann-bob", "bob") = Some p /\ settings_version p = 1.
Proof.
  destruct (archive_change_bumps_settings as_proto caller "t" "1-ann-bob" (mkUpdate None None None (Some Archived)) O
    (create_conversation calm 7 as_proto caller chat (O, empty_store)).2.2 (conversation_row as_proto chat)
    ("t", "1-ann-bob", "bob") (new_row 7 (person "bob") 0)) as (r' & p' & Hr & Hp & Hl & -> & Hv);
    [reflexivity|vm_compute; reflexivity|vm_compute; reflexivity|].
  eexists. split; [exact Hp|]. unfold archived. rewrite Hl. vm_compute. reflexivity.
Defined.
