(* ===== verification/Conversation.v ===== *)
(** * The conversation service

    flare-conversation/src/domain/service/conversation_domain_service.rs over the repository of
    [ConversationStore], [ConversationRows] and [MemberPages]: creating or ensuring a conversation,
    the member reads with the personal settings of others left out, the checks of a purge, and the
    pages of the conversation list. The id scheme of flare_core is an argument; the list of a
    user's conversations ([load_bootstrap]) is one too. *)

From stdpp Require Import base gmap strings list sets.
From Stdlib Require Import ZArith Lia.
From S2P Require Import Prelude.
From S2P Require Import Database.
From S2P Require Import Slices.
From S2P Require Import ReadReceipt.
From S2P Require Import ConversationStore.
From S2P Require Import MemberPages.
From S2P Require Import ConversationRows.

Open Scope Z_scope.

(** ** Viewers *)

Definition member_read_viewer (ctx : Ctx) : option string :=
  if ctx_internal ctx then None
  else match ctx_user ctx with
       | Some u => if Str.is_blank u then None else Some u
       | None => None
       end.

Definition clear_personal_settings (p : ConversationParticipant) : ConversationParticipant :=
  mkParticipant (p_user_id p) (p_roles p) false false (p_attributes p) (p_visible_from_seq p) false.

Definition keep_personal_settings_of (l : list ConversationParticipant) (viewer : option string) :
    list ConversationParticipant :=
  (fun p => if bool_decide (viewer = Some (p_user_id p)) then p else clear_personal_settings p) <$> l.

(** ** Ensuring *)

Definition participants_for_ensure (existing requested : list ConversationParticipant) (reopen_user : option string) :
    list ConversationParticipant :=
  omap (fun p =>
    match list_find (fun old => p_user_id old = p_user_id p) existing with
    | None => Some p
    | Some (_, old) => if bool_decide (reopen_user = Some (p_user_id old)) then Some old else None
    end) requested.

Definition required_route_id (attributes : gmap string string) (key : string) (fallback : string) (label : string) :
    result string :=
  let value := Str.trim (default fallback (attributes !! key)) in
  if Str.is_empty value then
    Err (flare_err InvalidParameter (label +:+ " conversation requires " +:+ key))
  else Ok value.

(** The ids of flare_core; [temp_id] and [fresh] are the random ones of a call. *)
Record ConversationIds := mkIds {
  valid_id : string -> bool;
  single_chat_id : string -> string -> string;
  group_id : string -> string;
  ai_id : string -> string -> string;
  system_id : string -> option string -> string;
  customer_id : string -> string -> string;
  temp_id : string;
  channel_conversation_id : string -> string;
  broadcast_id : string -> string;
}.

Section Service.
Context (require_user_id : Ctx -> result string).
Context (fault : schedule) (now : Z).
Context (visibility_as_proto : ConversationVisibility -> Z) (visibility_from_proto : Z -> ConversationVisibility).
Context (scan : list (string * ParticipantRow) -> list (string * ParticipantRow)).
Context (ids : ConversationIds) (fresh : string).

Abbreviation M := (db Store).

Definition creation_tenant (ctx : Ctx) : result string :=
  match ctx_tenant ctx with
  | Some t => if Str.is_blank t
              then Err (flare_err InvalidParameter "tenant required to create a conversation") else Ok t
  | None => Err (flare_err InvalidParameter "tenant required to create a conversation")
  end.

(** [resolved_channel_route_id] *)
Definition channel_route (ty : ConversationType) (attributes : gmap string string) (stored : string) :
    result (option string) :=
  match ty with
  | Channel => r ← required_route_id attributes "channel_id" stored "channel"; Ok (Some r)
  | Broadcast => r ← required_route_id attributes "broadcast_id" stored "broadcast"; Ok (Some r)
  | _ => Ok None
  end.

Definition normalized_channel (ty : ConversationType) (route : option string) (stored : string) : string :=
  match ty with
  | Single => ""
  | Channel | Broadcast => default "" route
  | _ => stored
  end.

Definition generated_id (ctx : Ctx) (tenant : string) (ty : ConversationType) (ps : list ConversationParticipant)
    (attributes : gmap string string) (route : option string) : result string :=
  match ty with
  | Single =>
      match ps with
      | [a; b] => Ok (single_chat_id ids (p_user_id a) (p_user_id b))
      | _ => Err (flare_err InvalidParameter
               ("single chat must have exactly 2 participants, got " +:+ Str.of_int (Z.of_nat (length ps))))
      end
  | Group => Ok (group_id ids (default fresh (attributes !! "group_id")))
  | Ai => Ok (ai_id ids
                (match ps with p :: _ => p_user_id p | [] => default "unknown" (ctx_user ctx) end)
                (default "0" (attributes !! "ai_scope")))
  | System => Ok (system_id ids (default tenant (attributes !! "system_id")) (attributes !! "scope"))
  | Customer => Ok (customer_id ids (default fresh (attributes !! "customer_id"))
                      (default "0" (attributes !! "channel")))
  | Temp => Ok (temp_id ids)
  | Channel =>
      match route with
      | Some r => Ok (channel_conversation_id ids r)
      | None => Err (flare_err InvalidParameter "channel conversation requires channel_id")
      end
  | Broadcast =>
      match route with
      | Some r => Ok (broadcast_id ids r)
      | None => Err (flare_err InvalidParameter "broadcast conversation requires broadcast_id")
      end
  | Unspecified => Err (flare_err InvalidParameter "conversation_type must be specified")
  end.

Definition reopen_user (ctx : Ctx) (ty : ConversationType) (existing : Conversation) : option string :=
  if bool_decide (ty = Single) && bool_decide (cv_type existing = Single)
     && bool_decide (cv_lifecycle existing = Active)
  then member_read_viewer ctx else None.

Definition create_conversation (ctx : Ctx) (ty : ConversationType) (business_type : string)
    (ps : list ConversationParticipant) (attributes : gmap string string) (visibility : ConversationVisibility)
    (stored_channel_id : string) : M Conversation :=
  tenant ← lift_r (creation_tenant ctx);
  let stored := Str.trim stored_channel_id in
  route ← lift_r (channel_route ty attributes stored);
  let session id attributes :=
    mkConversation tenant id ty business_type (normalized_channel ty route stored) None attributes ps
      visibility Active in
  match attributes !! "conversation_id" with
  | Some requested =>
      let attributes := delete "conversation_id" attributes in
      let id := Str.trim requested in
      if negb (valid_id ids id) then lift_r (Err (flare_err InvalidParameter "invalid conversation_id"))
      else
        found ← on_result (get_conversation fault visibility_from_proto scan ctx id) mret (fun _ => mret None);
        match found with
        | Some existing =>
            let to_add := participants_for_ensure (cv_participants existing) ps (reopen_user ctx ty existing) in
            _ ← (if bool_decide (to_add = []) then mret []
                 else manage_participants fault now ctx id to_add [] []);
            mret existing
        | None =>
            let s := session id attributes in
            _ ← ConversationRows.create_conversation fault now visibility_as_proto ctx s;
            mret s
        end
  | None =>
      id ← lift_r (generated_id ctx tenant ty ps attributes route);
      let s := session id attributes in
      _ ← ConversationRows.create_conversation fault now visibility_as_proto ctx s;
      mret s
  end.

Definition update_conversation (ctx : Ctx) (c : string) (u : ConversationUpdate) : M Conversation :=
  _ ← ConversationRows.update_conversation fault visibility_as_proto ctx c u;
  found ← get_conversation fault visibility_from_proto scan ctx c;
  lift_r (ok_or found (flare_err MessageNotFound "conversation not found")).

(** ** Members *)

Definition manage_participants (ctx : Ctx) (c : string) (to_add : list ConversationParticipant)
    (to_remove : list string) (role_updates : list (string * list string)) : M (list ConversationParticipant) :=
  l ← ConversationStore.manage_participants fault now ctx c to_add to_remove role_updates;
  mret (keep_personal_settings_of l (member_read_viewer ctx)).

Definition list_conversation_participants (valid_micros : Z -> bool)
    (version_of : Store -> string -> string -> Z) (ctx : Ctx) (c : string) (cursor : option string)
    (limit : Z) (include_removed skip_metadata : bool) (scope : ParticipantScope) : M ConversationParticipantsPage :=
  page ← MemberPages.list_conversation_participants require_user_id fault valid_micros version_of ctx c cursor
           limit include_removed skip_metadata scope;
  mret (match scope with
        | Members =>
            mkParticipantsPage (keep_personal_settings_of (page_participants page) (member_read_viewer ctx))
              (page_next_cursor page) (page_has_more page) (page_version page) (page_member_count page)
        | InSeat => page
        end).

Definition find_conversation_members (ctx : Ctx) (c : string) (user_ids : list string) :
    M (list ConversationParticipant) :=
  l ← ConversationStore.find_conversation_members require_user_id fault ctx c user_ids;
  mret (keep_personal_settings_of l (member_read_viewer ctx)).

(** ** History and reads *)

Definition clear_history_for_everyone (ctx : Ctx) (c : string) : M Z :=
  if Str.is_blank c then lift_r (Err (flare_err InvalidParameter "conversation_id is required"))
  else ConversationStore.clear_history_for_everyone fault ctx c.

Definition MAX_EPOCH_ATTRIBUTE_LEN : nat := 128.

Definition invalid {A} (m : string) : result A := Err (flare_err InvalidParameter m).

Definition purge_history (valid_millis : Z -> bool) (ctx : Ctx) (c : string) (before_ms : Z)
    (epoch_attribute : string) (before_epoch : Z) : M ConversationHistoryPurge :=
  if bool_decide (before_epoch < 0) then lift_r (invalid "before_epoch must not be negative")
  else
    let attribute := Str.trim epoch_attribute in
    fence ← lift_r (
      if bool_decide (before_epoch = 0) then
        if negb (Str.is_empty attribute) then invalid "epoch_attribute requires a positive before_epoch"
        else if bool_decide (before_ms <= 0) then
          invalid "before_ms must be a positive server timestamp in milliseconds"
        else Ok None
      else if Str.is_empty attribute || Nat.ltb MAX_EPOCH_ATTRIBUTE_LEN (String.length attribute) then
        invalid "epoch_attribute is required with before_epoch and at most 128 bytes"
      else if bool_decide (before_ms < 0) then invalid "before_ms must not be negative"
      else Ok (Some (mkFence attribute before_epoch)));
    before ← lift_r (
      if bool_decide (before_ms = 0) then Ok None
      else if valid_millis before_ms then Ok (Some before_ms) else invalid "before_ms is out of range");
    ConversationStore.purge_history fault ctx c (mkBoundary before fence).

Definition mark_as_read (ctx : Ctx) (c : string) (seq : Z) : M unit :=
  if bool_decide (seq <= 0) then lift_r (Err (flare_err InvalidParameter "read_seq must be greater than 0"))
  else ConversationStore.mark_as_read require_user_id fault ctx c seq.

End Service.

(** ** Members that an ensure adds *)

Section Ensure.
Context (now : Z) (t c : string).

Definition added_row (ms : list MessageRow) (p : ConversationParticipant) (old : option ParticipantRow) :
    ParticipantRow :=
  let from := history_floor ms (p_visible_from_seq p) in
  match old with Some r => readd_row p from r | None => new_row now p from end.

Lemma add_participants_upsert l st :
  foldl (add_participant now t c) st l
  = with_participants st (foldl (upsert (member_key t c) (added_row (conversation_messages st t c))) (participants st) l).
Proof.
  revert st. induction l as [|p l IH]; intros st; [by destruct st|]. simpl. rewrite IH. done.
Qed.

(** What every write to a row respects holds after all of them. *)
Lemma upserts_invariant (P : option ParticipantRow -> Prop) ms l rows k :
  (forall p o, p ∈ l -> member_key t c p = k -> P o -> P (Some (added_row ms p o))) ->
  P (rows !! k) -> P (foldl (upsert (member_key t c) (added_row ms)) rows l !! k).
Proof.
  revert rows. induction l as [|p l IH]; intros rows Hw Hk; [done|]. simpl. apply IH.
  - intros q o Hq. apply Hw. set_solver.
  - unfold upsert. destruct (decide (member_key t c p = k)) as [E|E].
    + rewrite E, lookup_insert_eq. apply Hw; [set_solver|done|done].
    + by rewrite lookup_insert_ne.
Qed.

Definition seated (o : option ParticipantRow) : Prop := exists p, o = Some p /\ quit p = false.

Lemma added_seated ms p o : seated (Some (added_row ms p o)).
Proof. eexists. split; [done|]. by destruct o. Qed.

Lemma upserts_seated ms l rows p :
  p ∈ l -> seated (foldl (upsert (member_key t c) (added_row ms)) rows l !! member_key t c p).
Proof.
  intros (l1 & l2 & ->)%list_elem_of_split. rewrite foldl_app. simpl.
  apply upserts_invariant; [intros; apply added_seated|]. unfold upsert. rewrite lookup_insert_eq. apply added_seated.
Qed.

Lemma upserts_keep_seat ms l rows k :
  seated (rows !! k) -> seated (foldl (upsert (member_key t c) (added_row ms)) rows l !! k).
Proof. apply upserts_invariant. intros. apply added_seated. Qed.

(** ** The stored members *)

Context (scan : list (string * ParticipantRow) -> list (string * ParticipantRow)) (Hscan : forall l, scan l ≡ₚ l).

Definition stored_members (st : Store) : list ConversationParticipant :=
  managed <$> scan (members_of st t c (fun p => negb (quit p))).

Lemma stored_member_spec st m :
  m ∈ stored_members st <->
  exists p, m = managed (p_user_id m, p) /\ participants st !! (t, c, p_user_id m) = Some p /\ quit p = false.
Proof.
  unfold stored_members. rewrite list_elem_of_fmap. setoid_rewrite Hscan. split.
  - intros ([u p] & -> & Hp). apply elem_of_members in Hp as [Hp Hq%negb_true_iff]. by exists p.
  - intros (p & E & Hp & Hq). exists (p_user_id m, p). split; [done|]. apply elem_of_members. by rewrite Hq.
Qed.

Lemma find_stored st u :
  match list_find (fun old => p_user_id old = u) (stored_members st) with
  | Some (_, old) => exists p, old = managed (u, p) /\ participants st !! (t, c, u) = Some p /\ quit p = false
  | None => ~ seated (participants st !! (t, c, u))
  end.
Proof.
  destruct (list_find _ _) as [[i old]|] eqn:E.
  - apply list_find_Some in E as (Hi & Hu & _). apply list_elem_of_lookup_2, stored_member_spec in Hi as (p & Ho & Hp).
    subst u. by exists p.
  - apply list_find_None in E. rewrite Forall_forall in E. intros (p & Hp & Hq).
    apply (E (managed (u, p))); [|done]. apply stored_member_spec. by exists p.
Qed.

(** A hidden row that its owner opens again. *)
Definition reopened (p : ParticipantRow) : ParticipantRow :=
  mkParticipantRow (roles p) (muted p) (pinned p) (attributes p) (joined_at p) (nickname p) (read_seq p)
    (sync_seq p) (unread_count p) false (is_archived p) (settings_version p) (draft p) (quit p) (from_seq p)
    (mention_only p) (cleared_seq p).

Lemma reopened_twice p : reopened (reopened p) = reopened p.
Proof. done. Qed.

Lemma readd_self ms u p q :
  0 <= from_seq p -> quit p = false -> q = p \/ q = reopened p ->
  added_row ms (managed (u, p)) (Some q) = reopened p.
Proof.
  intros Hf Hq Hor. unfold added_row, history_floor. simpl. rewrite bool_decide_eq_false_2 by lia.
  destruct p, Hor as [->| ->]; simpl in *; unfold readd_row, reopened; simpl; rewrite Hq; f_equal; lia.
Qed.

(** The rows after an ensure: who has a seat keeps the row, but for the one that is reopened. *)
Lemma ensured_row ms st ps reopen u p :
  participants st !! (t, c, u) = Some p -> quit p = false -> 0 <= from_seq p ->
  exists p', foldl (upsert (member_key t c) (added_row ms)) (participants st)
               (participants_for_ensure (stored_members st) ps reopen) !! (t, c, u) = Some p'
  /\ (p' = p \/ reopen = Some u /\ p' = reopened p).
Proof.
  intros Hp Hq Hf.
  apply (upserts_invariant (fun o => exists p', o = Some p' /\ (p' = p \/ reopen = Some u /\ p' = reopened p))).
  - intros m o Hm E (p' & -> & Hor). apply list_elem_of_omap in Hm as (q & Hin & Hfind).
    pose proof (find_stored st (p_user_id q)) as Hs.
    destruct (list_find _ _) as [[i old]|]; [|].
    + destruct Hs as (p0 & -> & Hp0 & Hq0). destruct (bool_decide (reopen = _)) eqn:Er; [|done].
      apply bool_decide_eq_true in Er. simplify_eq/=. unfold member_key in E. simplify_eq/=.
      eexists. split; [done|]. right. split; [done|]. apply readd_self; [done|done|].
      destruct Hor as [->|[_ ->]]; auto.
    + simplify_eq. unfold member_key in E. simplify_eq. destruct Hs. by exists p.
  - exists p. auto.
Qed.

Lemma ensured_seats ms st ps reopen q :
  q ∈ ps -> seated (foldl (upsert (member_key t c) (added_row ms)) (participants st)
                      (participants_for_ensure (stored_members st) ps reopen) !! (t, c, p_user_id q)).
Proof.
  intros Hq. pose proof (find_stored st (p_user_id q)) as Hs.
  destruct (list_find _ (stored_members st)) as [[i old]|] eqn:E.
  - apply upserts_keep_seat. destruct Hs as (p & _ & Hp & Hr). by exists p.
  - change (t, c, p_user_id q) with (member_key t c q). apply upserts_seated. apply list_elem_of_omap.
    exists q. split; [done|]. by rewrite E.
Qed.

End Ensure.

Section Ensured.
Context (now : Z) (visibility_as_proto : ConversationVisibility -> Z) (visibility_from_proto : Z -> ConversationVisibility).
Context (scan : list (string * ParticipantRow) -> list (string * ParticipantRow)) (Hscan : forall l, scan l ≡ₚ l).
Context (ids : ConversationIds) (fresh : string).

Lemma get_existing fault ctx t c n st r :
  fault n = Works -> fault (S n) = Works -> required_tenant ctx = Ok t -> conversations st !! (t, c) = Some r ->
  get_conversation fault visibility_from_proto scan ctx c (n, st)
  = (Ok (Some (conversation_of visibility_from_proto t c r (stored_members t c scan st))), (S (S n), st)).
Proof.
  intros H1 H2 Ht Hr. unfold get_conversation, mbind, stE_bind, lift_r, query, exec. rewrite Ht, H1, Hr, H2. done.
Qed.

(** Rows before and after: a row with a seat stays, but for the caller's own row of a single chat. *)
Definition seats_kept (ctx : Ctx) (ty : ConversationType) (t c : string)
    (old new : gmap (string * string * string) ParticipantRow) : Prop :=
  forall k p, old !! k = Some p -> k.1 <> (t, c) \/ quit p = false ->
    exists p', new !! k = Some p'
    /\ (p' = p \/ ty = Single /\ k.1 = (t, c) /\ member_read_viewer ctx = Some k.2 /\ p' = reopened p).

Lemma seats_kept_refl ctx ty t c rows : seats_kept ctx ty t c rows rows.
Proof. intros k p Hp _. exists p. auto. Qed.

Lemma ensured_seats_kept ctx ty t c st ps existing :
  (forall k p, participants st !! k = Some p -> 0 <= from_seq p) ->
  seats_kept ctx ty t c (participants st)
    (foldl (upsert (member_key t c) (added_row now (conversation_messages st t c))) (participants st)
       (participants_for_ensure (stored_members t c scan st) ps (reopen_user ctx ty existing))).
Proof.
  intros Hfloor [kc u] p Hp Hor. destruct (decide (kc = (t, c))) as [->|Hk].
  - destruct (ensured_row now t c scan Hscan (conversation_messages st t c) st ps (reopen_user ctx ty existing) u p Hp)
      as (p' & Hp' & Hcase); [by destruct Hor|by eapply Hfloor|].
    exists p'. split; [exact Hp'|]. destruct Hcase as [->|[Hre ->]]; [by left|right].
    unfold reopen_user in Hre. destruct (_ && _) eqn:E in Hre; [|done].
    rewrite !andb_true_iff, !bool_decide_eq_true in E. tauto.
  - exists p. split; [|by left]. rewrite upserts_other; [done|]. rewrite list_elem_of_fmap.
    intros (q & E & _). unfold member_key in E. by simplify_eq/=.
Qed.

Ltac unchanged := solve [split_and!; [done | apply seats_kept_refl | done]].

(** Ensuring a conversation that exists, whatever statement fails after it was read: nobody with
    a seat in it loses it or gets other roles, attributes or settings; only a caller who opens
    their own single chat may see their hidden row reappear. Nothing else of the store changes,
    and when the call succeeds everyone it named has a seat. *)
Theorem ensure_keeps_the_members fault ctx t ty business ps attributes vis channel c requested r n st :
  fault n = Works -> fault (S n) = Works ->
  ctx_tenant ctx = Some t -> attributes !! "conversation_id" = Some requested -> Str.trim requested = c ->
  conversations st !! (t, c) = Some r ->
  (forall k p, participants st !! k = Some p -> 0 <= from_seq p) ->
  let '(res, (_, st')) := create_conversation fault now visibility_as_proto visibility_from_proto scan ids fresh
                            ctx ty business ps attributes vis channel (n, st) in
  (exists rows, st' = with_participants st rows)
  /\ seats_kept ctx ty t c (participants st) (participants st')
  /\ (is_ok res = true -> forall q, q ∈ ps -> seated (participants st' !! (t, c, p_user_id q))).
Proof.
  intros H1 H2 Hctx Ha Hc Hr Hfloor. unfold create_conversation, creation_tenant. rewrite Hctx.
  assert (Hsame : exists rows, st = with_participants st rows) by (exists (participants st); by destruct st).
  unfold mbind, stE_bind, lift_r at 1. destruct (Str.is_blank t) eqn:Hb; [unchanged|].
  unfold lift_r at 1. destruct (channel_route ty attributes _) as [route|e]; [|unchanged].
  rewrite Ha, Hc. destruct (valid_id ids c) eqn:Hvalid; [|unchanged]. cbn [negb]. unfold on_result.
  assert (Ht : required_tenant ctx = Ok t) by (unfold required_tenant; by rewrite Hctx, Hb).
  rewrite (get_existing fault ctx t c n st r H1 H2 Ht Hr). unfold mret, stE_ret.
  set (existing := conversation_of _ _ _ _ _). change (cv_participants existing) with (stored_members t c scan st).
  pose proof (ensured_seats_kept ctx ty t c st ps existing Hfloor) as Hkept.
  pose proof (fun q => ensured_seats now t c scan Hscan (conversation_messages st t c) st ps (reopen_user ctx ty existing) q)
    as Hseats.
  destruct (bool_decide (_ = [])) eqn:El.
  - apply bool_decide_eq_true in El. rewrite El in Hkept, Hseats. simpl in *. by split_and!.
  - unfold ConversationStore.manage_participants. rewrite Ht.
    unfold mbind, stE_bind, lift_r, write, query, exec, manage_rows. rewrite add_participants_upsert. cbn [foldl fst snd].
    destruct (fault (S (S n))); cbn [fst snd]; [destruct (fault (S (S (S n)))); cbn [fst snd]| |];
      first [unchanged | by split_and!; [eexists|exact Hkept|intros _; exact Hseats]].
Qed.

End Ensured.

(** ** Personal settings *)

Definition hides_settings (viewer : option string) (l : list ConversationParticipant) : Prop :=
  forall p, p ∈ l -> viewer <> Some (p_user_id p) ->
    p_muted p = false /\ p_pinned p = false /\ p_mention_only p = false.

Lemma keep_hides l viewer : hides_settings viewer (keep_personal_settings_of l viewer).
Proof.
  intros p Hp Hv. apply list_elem_of_fmap in Hp as (q & -> & _).
  destruct (bool_decide (viewer = Some (p_user_id q))) eqn:E; [|done]. apply bool_decide_eq_true in E.
  by rewrite E in Hv.
Qed.

(** No answer of the member reads (the member list, the lookup of members and the answer of a
    change of members) carries the notification, pinning or mention settings of anyone but the
    caller, and none of anyone when a service asks: in every store and whatever fails. *)
Theorem member_reads_hide_personal_settings require_user_id fault now valid_micros version_of ctx c to_add to_remove
    role_updates user_ids cursor limit removed skip w :
  let viewer := member_read_viewer ctx in
  (forall l, (manage_participants fault now ctx c to_add to_remove role_updates w).1 = Ok l -> hides_settings viewer l)
  /\ (forall l, (find_conversation_members require_user_id fault ctx c user_ids w).1 = Ok l -> hides_settings viewer l)
  /\ (forall pg, (list_conversation_participants require_user_id fault valid_micros version_of ctx c cursor limit
                    removed skip Members w).1 = Ok pg -> hides_settings viewer (page_participants pg)).
Proof.
  unfold manage_participants, find_conversation_members, list_conversation_participants, mbind, stE_bind.
  split_and!; intros l.
  - destruct (ConversationStore.manage_participants _ _ _ _ _ _ _ w) as [[x|e] w']; intros [= <-]; apply keep_hides.
  - destruct (ConversationStore.find_conversation_members _ _ _ _ _ w) as [[x|e] w']; intros [= <-]; apply keep_hides.
  - destruct (MemberPages.list_conversation_participants _ _ _ _ _ _ _ _ _ _ _ w) as [[x|e] w']; intros [= <-];
      apply keep_hides.
Qed.

(** ** Purging *)

(** A purge reaches the store exactly when its boundary is well formed: a positive time without
    an epoch, or a positive epoch with a name of at most 128 bytes and a time that may be left
    out. Anything else is refused as an invalid parameter and nothing is read or written. *)
Theorem purge_boundary_checked fault valid_millis ctx c before_ms attribute before_epoch w :
  let name := Str.trim attribute in
  let timed := before_epoch = 0 /\ Str.is_empty name = true /\ 0 < before_ms in
  let fenced := 0 < before_epoch /\ Str.is_empty name = false /\ (String.length name <= 128)%nat /\ 0 <= before_ms in
  let call := purge_history fault valid_millis ctx c before_ms attribute before_epoch w in
  ((timed \/ fenced) /\ (before_ms = 0 \/ valid_millis before_ms = true)
   /\ call = ConversationStore.purge_history fault ctx c
       (mkBoundary (if bool_decide (before_ms = 0) then None else Some before_ms)
          (if bool_decide (before_epoch = 0) then None else Some (mkFence name before_epoch))) w)
  \/ (~ ((timed \/ fenced) /\ (before_ms = 0 \/ valid_millis before_ms = true))
      /\ exists reason, call = (Err (flare_err InvalidParameter reason), w)).
Proof.
  intros name timed fenced call. unfold call, purge_history, invalid, mbind, stE_bind, lift_r. fold name.
  destruct (decide (before_epoch < 0)) as [Hn|Hn].
  { rewrite bool_decide_eq_true_2 by done. right. split; [|by eexists]. unfold timed, fenced. lia. }
  rewrite (bool_decide_eq_false_2 (before_epoch < 0)) by done.
  destruct (decide (before_epoch = 0)) as [He|He].
  - rewrite (bool_decide_eq_true_2 (before_epoch = 0)) by done. destruct (Str.is_empty name) eqn:En; cbn [negb].
    2: { right. split; [|by eexists]. unfold timed, fenced. intros [[(_ & ? & _)|(? & _)] _]; [done|lia]. }
    destruct (decide (before_ms <= 0)) as [Hb|Hb].
    { rewrite bool_decide_eq_true_2 by done. right. split; [|by eexists]. unfold timed, fenced. lia. }
    rewrite (bool_decide_eq_false_2 (before_ms <= 0)), (bool_decide_eq_false_2 (before_ms = 0)) by lia.
    destruct (valid_millis before_ms) eqn:Ev.
    + left. split_and!; [left; unfold timed; auto with lia|by right|done].
    + right. split; [|by eexists]. intros [_ [?|?]]; [lia|done].
  - rewrite (bool_decide_eq_false_2 (before_epoch = 0)) by done. destruct (Str.is_empty name) eqn:En; cbn [orb].
    { right. split; [|by eexists]. unfold timed, fenced. intros [[(? & _)|(_ & ? & _)] _]; done. }
    destruct (Nat.ltb MAX_EPOCH_ATTRIBUTE_LEN (String.length name)) eqn:El.
    { apply Nat.ltb_lt in El. unfold MAX_EPOCH_ATTRIBUTE_LEN in El. right. split; [|by eexists]. unfold timed, fenced.
      intros [[(? & _)|(_ & _ & ? & _)] _]; lia. }
    apply Nat.ltb_ge in El. unfold MAX_EPOCH_ATTRIBUTE_LEN in El.
    destruct (decide (before_ms < 0)) as [Hb|Hb].
    { rewrite bool_decide_eq_true_2 by done. right. split; [|by eexists]. unfold timed, fenced. lia. }
    rewrite (bool_decide_eq_false_2 (before_ms < 0)) by done.
    destruct (decide (before_ms = 0)) as [Hz|Hz].
    + rewrite (bool_decide_eq_true_2 (before_ms = 0)) by done. left.
      split_and!; [right; unfold fenced; split_and!; done || lia|by left|done].
    + rewrite (bool_decide_eq_false_2 (before_ms = 0)) by done. destruct (valid_millis before_ms) eqn:Ev.
      * left. split_and!; [right; unfold fenced; split_and!; done || lia|by right|done].
      * right. split; [|by eexists]. by intros [_ [?|?]].
Qed.

(** ** Examples *)

Module Chat.
Import ConversationRows.Sample.

Definition some_ids : ConversationIds :=
  mkIds (fun _ => true) (fun a b => "1-" +:+ a +:+ "-" +:+ b) (fun g => "2-" +:+ g) (fun u s => "3-" +:+ u +:+ s)
    (fun s _ => "4-" +:+ s) (fun c k => "5-" +:+ c +:+ k) "6-x" (fun c => "7-" +:+ c) (fun b => "8-" +:+ b).

Definition admin : ConversationParticipant := mkParticipant "ann" ["owner"] false false ∅ 0 false.
Definition team : Conversation :=
  mkConversation "t" "2-team" Group "chat" "" None ∅ [admin; person "bob"] Private Active.
Definition stored : Store := (ConversationRows.create_conversation calm 7 as_proto caller team (O, empty_store)).2.2.
Definition ensure (fault : schedule) (ps : list ConversationParticipant) : result Conversation * (nat * Store) :=
  create_conversation fault 9 as_proto from_proto (fun l => l) some_ids "f" caller Group "chat" ps
    {["conversation_id" := "2-team"]} Private "" (O, stored).
Definition roles_of (st : Store) (u : string) : option (list string) := roles <$> participants st !! ("t", "2-team", u).

End Chat.
Import ConversationRows.Sample Chat.

Lemma ensure_keeps_the_members_witness :
  let '(res, (_, st')) := ensure calm [person "ann"; person "carl"] in
  seated (participants st' !! ("t", "2-team", "carl"))
  /\ exists p, participants st' !! ("t", "2-team", "ann") = Some p /\ roles p = ["owner"].
Proof.
  assert (Hfloor : forall k p, participants stored !! k = Some p -> 0 <= from_seq p).
  { intros k p Hp. assert (Hall : map_Forall (fun _ p => 0 <= from_seq p) (participants stored)).
    { apply (bool_decide_eq_true_1 _). vm_compute. reflexivity. }
    exact (Hall k p Hp). }
  pose proof (ensure_keeps_the_members 9 as_proto from_proto (fun l => l) (fun l => reflexivity l) some_ids "f" calm caller
    "t" Group "chat" [person "ann"; person "carl"] {["conversation_id" := "2-team"]} Private "" "2-team" "2-team"
    (conversation_row as_proto team) O stored eq_refl eq_refl eq_refl eq_refl eq_refl) as H.
  specialize (H ltac:(vm_compute; reflexivity) Hfloor). unfold ensure.
  destruct (create_conversation _ _ _ _ _ _ _ _ _ _ _ _ _ _ _) as [res [m st']] eqn:E.
  destruct H as (_ & Hkept & Hseats).
  assert (Hok : is_ok res = true).
  { apply (f_equal (fun x => is_ok x.1)) in E. cbn [fst] in E. rewrite <- E. vm_compute. reflexivity. }
  split.
  - apply (Hseats Hok (person "carl")). right; left.
  - destruct (Hkept ("t", "2-team", "ann") (new_row 7 admin 0)) as (p' & Hp' & [->|(? & _)]);
      [vm_compute; reflexivity|by right| |done].
    exists (new_row 7 admin 0). split; [exact Hp'|reflexivity].
Defined.

(** When the read that looks for the conversation fails, the ensure goes on as if there were
    none: the owner is stored with the roles of the request, and the call reports success. *)
Theorem failed_read_resets_members :
  let failing n := if Nat.eqb n 0 then FailsBefore else Works in
  let '(res, (_, st')) := ensure failing [person "ann"; person "bob"] in
  roles_of stored "ann" = Some ["owner"] /\ is_ok res = true /\ roles_of st' "ann" = Some ["member"].
Proof. by vm_compute. Qed.
