(* ===== verification/ConversationList.v ===== *)
(** * The conversation list

    [list_conversations] and the ranking of [bootstrap_conversation] in
    flare-conversation/src/domain/service/conversation_domain_service.rs, over the summaries the
    repository loads for a user. A summary is its id, the time of its last change, its unread
    count and the preview of its members; what else it carries is [rest]. *)

From stdpp Require Import base gmap strings list sets sorting.
From Stdlib Require Import ZArith Lia Ascii.
From S2P Require Import Prelude.
From S2P Require Import Slices.
From S2P Require Import ReadReceipt.
From S2P Require Import ConversationStore.
From S2P Require Import MemberPages.
From S2P Require Import Conversation.

Open Scope Z_scope.

Section List.
Context {rest : Type}.

Record ConversationSummary := mkSummary {
  sum_id : string;
  server_cursor_ts : option Z;
  sum_unread_count : Z;
  member_preview : list ConversationParticipant;
  sum_rest : rest;
}.

Definition valid_conversation_summary_id (id : string) : bool := negb (Str.is_blank id).

Definition keep_viewer_settings_in_previews (ctx : Ctx) (l : list ConversationSummary) : list ConversationSummary :=
  (fun s => mkSummary (sum_id s) (server_cursor_ts s) (sum_unread_count s)
              (keep_personal_settings_of (member_preview s) (member_read_viewer ctx)) (sum_rest s)) <$> l.

Definition parse_cursor (cursor : option string) : option Z * string :=
  match cursor with
  | Some cursor =>
      match Str.split_once ":"%char cursor with
      | Some (ts, id) => match parse_i64 ts with Some ts => (Some ts, id) | None => (None, "") end
      | None => (None, "")
      end
  | None => (None, "")
  end.

Definition past_pivot (ts : Z) (id : string) (s : ConversationSummary) : bool :=
  match server_cursor_ts s with
  | Some t => bool_decide (t < ts) || (bool_decide (t = ts) && str_gt (sum_id s) id)
  | None => false
  end.

Definition list_conversations (ctx : Ctx) (loaded : list ConversationSummary) (cursor : option string) (limit : Z) :
    list ConversationSummary * option string * bool :=
  let l := filter (fun s => valid_conversation_summary_id (sum_id s) = true) loaded in
  let l := match parse_cursor cursor with
           | (Some ts, id) => filter (fun s => past_pivot ts id s = true) l
           | (None, _) => l
           end in
  let limit := Z.to_nat (Z.max limit 1) in
  let has_more := Nat.ltb limit (length l) in
  let l := take limit l in
  let next := s ← last l; ts ← server_cursor_ts s; Some (Str.of_int ts +:+ ":" +:+ sum_id s) in
  (keep_viewer_settings_in_previews ctx l, next, has_more).

(** The ranking of the bootstrap: more unread first, then the latest change; the sort is stable. *)
Definition ranked (a b : ConversationSummary) : bool :=
  bool_decide (sum_unread_count b < sum_unread_count a)
  || (bool_decide (sum_unread_count a = sum_unread_count b)
      && bool_decide (default 0 (server_cursor_ts b) <= default 0 (server_cursor_ts a))).

Definition BOOTSTRAP_HARD_MAX_CONVERSATIONS : Z := 5000.

(** [bootstrap_conversation] up to the loading of the last messages. *)
Definition bootstrap_page (default_cap : nat) (loaded : list ConversationSummary) (max_conversations : Z) :
    list ConversationSummary :=
  let l := filter (fun s => valid_conversation_summary_id (sum_id s) = true) loaded in
  let cap := if bool_decide (0 < max_conversations)
             then Z.to_nat (Z.min max_conversations BOOTSTRAP_HARD_MAX_CONVERSATIONS) else default_cap in
  take cap (sort_by ranked l).

(** ** Pages *)

Lemma parse_own_cursor ts id :
  i64_min <= ts <= i64_max -> parse_cursor (Some (Str.of_int ts +:+ ":" +:+ id)) = (Some ts, id).
Proof.
  intros Hts. unfold parse_cursor. change (":" +:+ id) with (String ":"%char id).
  rewrite (Str.split_once_app _ _ _ (of_int_no_colon ts)). by rewrite parse_of_int.
Qed.

(** The order a cursor assumes: the latest change first, ids upwards. *)
Definition before_in_list (a b : ConversationSummary) : bool :=
  match server_cursor_ts a with Some ts => past_pivot ts (sum_id a) b | None => false end.

(** A client that asks for page after page while there is more. *)
Fixpoint read_list (fuel : nat) (ctx : Ctx) (loaded : list ConversationSummary) (limit : Z) (cursor : option string) :
    option (list ConversationSummary) :=
  match fuel with
  | O => None
  | S fuel =>
      let '(page, next, has_more) := list_conversations ctx loaded cursor limit in
      if has_more then app page <$> read_list fuel ctx loaded limit next else Some page
  end.

Definition listable (s : ConversationSummary) : Prop :=
  valid_conversation_summary_id (sum_id s) = true
  /\ exists ts, server_cursor_ts s = Some ts /\ i64_min <= ts <= i64_max.

Lemma before_in_list_asym a b : before_in_list a b = true -> before_in_list b a = false.
Proof.
  unfold before_in_list, past_pivot. destruct (server_cursor_ts a) as [x|], (server_cursor_ts b) as [y|]; try done.
  rewrite orb_true_iff, andb_true_iff, !bool_decide_eq_true, orb_false_iff. intros [H|[-> H]].
  - rewrite !bool_decide_eq_false_2 by lia. done.
  - rewrite (bool_decide_eq_false_2 (_ < _)) by lia. split; [done|]. apply andb_false_intro2.
    destruct (str_gt (sum_id a) (sum_id b)) eqn:E; [|done]. apply str_gt_lt in H as [H Hn], E as [E _].
    by destruct Hn; apply str_leb_antisym.
Qed.

Lemma list_page ctx l limit cursor at_ :
  Forall listable l ->
  match at_ with
  | Some x => listable x /\ exists ts, server_cursor_ts x = Some ts /\ cursor = Some (Str.of_int ts +:+ ":" +:+ sum_id x)
  | None => cursor = None
  end ->
  let p := keyset_page before_in_list l at_ (Z.to_nat (Z.max limit 1)) in
  exists next, list_conversations ctx l cursor limit
    = (keep_viewer_settings_in_previews ctx p.1, next, bool_decide (is_Some p.2))
  /\ forall x, p.2 = Some x -> listable x
     /\ exists ts, server_cursor_ts x = Some ts /\ next = Some (Str.of_int ts +:+ ":" +:+ sum_id x).
Proof.
  intros Hl Hcur p. unfold list_conversations.
  assert (Hvalid : filter (fun s => valid_conversation_summary_id (sum_id s) = true) l = l).
  { apply filter_all. rewrite Forall_forall in Hl. intros x Hx. by apply Hl. }
  rewrite Hvalid.
  assert (Hrest : match parse_cursor cursor with
                  | (Some ts, id) => filter (fun s => past_pivot ts id s = true) l
                  | (None, _) => l
                  end = beyond before_in_list at_ l).
  { destruct at_ as [x|]; [|by subst]. destruct Hcur as ((_ & ts' & Hx' & Hr) & ts & Hx & ->).
    rewrite parse_own_cursor by (by simplify_eq). simpl. unfold before_in_list. by rewrite Hx. }
  rewrite Hrest. unfold p, keyset_page. clear p. set (r := beyond before_in_list at_ l). simpl.
  set (k := Z.to_nat _).
  assert (Hk : (0 < k)%nat) by (unfold k; lia).
  eexists. split.
  - f_equal. destruct (Nat.ltb_spec k (length r)) as [Hlt|Hge]; [|done].
    symmetry. apply bool_decide_eq_true_2. apply last_is_Some. intros E%(f_equal length).
    rewrite length_take in E. simpl in E. lia.
  - intros x Hx. destruct (Nat.ltb k (length r)); [|done]. rewrite Hx. simpl.
    apply last_Some_elem_of, elem_of_take in Hx as (i & Hi & _). apply list_elem_of_lookup_2 in Hi.
    assert (Hx : x ∈ l) by (unfold r in Hi; destruct at_; [by apply list_elem_of_filter in Hi as [_ ?]|done]).
    rewrite Forall_forall in Hl. pose proof (Hl x Hx) as (Hv & ts & Hts & Hr). rewrite Hts. split.
    + split; [done|]. by exists ts.
    + by exists ts.
Qed.

Lemma read_list_walk ctx l limit fuel cursor at_ :
  Forall listable l ->
  match at_ with
  | Some x => listable x /\ exists ts, server_cursor_ts x = Some ts /\ cursor = Some (Str.of_int ts +:+ ":" +:+ sum_id x)
  | None => cursor = None
  end ->
  read_list fuel ctx l limit cursor
  = keep_viewer_settings_in_previews ctx <$> keyset_walk before_in_list fuel l at_ (Z.to_nat (Z.max limit 1)).
Proof.
  intros Hl. revert cursor at_. induction fuel as [|fuel IH]; intros cursor at_ Hcur; [done|].
  cbn [read_list keyset_walk]. destruct (list_page ctx l limit cursor at_ Hl Hcur) as (next & -> & Hnext).
  destruct (keyset_page before_in_list l at_ _) as [page [x|]]; simpl in *; [|done].
  rewrite (IH next (Some x)) by (by apply Hnext).
  destruct (keyset_walk _ fuel l (Some x) _); simpl; [|done]. f_equal. unfold keep_viewer_settings_in_previews.
  by rewrite fmap_app.
Qed.

(** When the repository hands out a user's conversations in the order the cursor assumes, the
    latest change first and equal times by id, a client that follows the cursors gets each of them
    exactly once and in that order, for every page size, and is told when there are no more. *)
Theorem list_pages_hold_every_conversation ctx l limit :
  Forall listable l -> StronglySorted (fun a b => before_in_list a b = true) l ->
  read_list (S (length l)) ctx l limit None = Some (keep_viewer_settings_in_previews ctx l).
Proof.
  intros Hl Hs. rewrite (read_list_walk ctx l limit _ None None Hl) by done.
  rewrite keyset_walk_all; [done|apply before_in_list_asym|done|lia].
Qed.

End List.

(** The repository orders conversations by the time of their last change only. Of two that
    changed in the same millisecond and come with the larger id first, the cursor after the first
    page skips the second, which a client never gets. *)
Theorem list_pages_skip_equal_times :
  let a := mkSummary "a" (Some 5) 0 [] tt in
  let b := mkSummary "b" (Some 5) 0 [] tt in
  let ctx := mkCtx (Some "t") (Some "u") false in
  read_list 5 ctx [b; a] 1 None = Some [b] /\ read_list 5 ctx [a; b] 1 None = Some [a; b].
Proof. by vm_compute. Qed.

Lemma list_pages_hold_every_conversation_witness :
  let s id ts := mkSummary id (Some ts) 0 [] tt in
  let l := [s "c" 9; s "a" 5; s "b" 5] in
  read_list 4 (mkCtx (Some "t") (Some "u") false) l 2 None = Some l.
Proof.
  apply (list_pages_hold_every_conversation (mkCtx (Some "t") (Some "u") false)
    [mkSummary "c" (Some 9) 0 [] tt; mkSummary "a" (Some 5) 0 [] tt; mkSummary "b" (Some 5) 0 [] tt] 2).
  - repeat constructor; eexists; (split; [reflexivity|]); unfold i64_min, i64_max; lia.
  - repeat constructor.
Defined.
