(* ===== verification/ConversationEvents.v ===== *)
(** * The event consumers of the conversation service

    flare-conversation/src/infrastructure/event_consumer.rs: which tenant an event belongs to, what
    a message, read receipt, recall, delete or ensure event does to the rows, and how a delivery is
    settled. Decoding of the protobuf envelope and of the ensure payload (JSON), the numbers of the
    protobuf conversation types and the retry policy of the server crate are arguments; the records
    here hold the fields the consumer reads. *)

From stdpp Require Import base gmap strings list sets.
From Stdlib Require Import ZArith Lia.
From S2P Require Import Prelude.
From S2P Require Import Database.
From S2P Require Import Proto.
From S2P Require Import Tenant.
From S2P Require Import ConversationStore.
From S2P Require Import ConversationRows.
From S2P Require Import Conversation.

Open Scope Z_scope.

(** ** Events *)

Record MessageBody := mkBody {
  b_conversation_id : string;
  b_sender_id : string;
  b_conversation_seq : Z;
  b_status : Z;
}.

Inductive EventPayload :=
  | Read (user_id : string) (read_seq : Z)
  | Message (message : MessageBody)
  | Recall (server_msg_id : string)
  | Delete (server_msg_id : string) (delete_type : option (wire DeleteType)) (scope : option (wire DeleteScope))
  | Custom (namespace name version payload : string)
  | OtherPayload.

Record Event := mkEvent {
  type_ : wire EventType;
  conversation_id : string;
  payload : option EventPayload;
}.

Inductive EnvelopePayload := EnvelopeEvent (e : Event) | EnvelopeMessage (m : MessageBody) | EnvelopeOther.

Record MqEnvelope := mkEnvelope {
  headers : gmap string string;
  (** [payload_kind == MqPayloadKind::Event] *)
  event_kind : bool;
  envelope_conversation_id : string;
  envelope_payload : option EnvelopePayload;
}.

Record ConversationEnsurePayload := mkEnsure {
  ensure_tenant_id : string;
  ensure_conversation_type : Z;
  ensure_business_type : string;
  ensure_participants : list string;
  ensure_channel_id : string;
}.

Definition TENANT_HEADER : string := "x-tenant-id".
Definition ENSURE_TENANT_HEADER : string := "tenant_id".

(** ** Tenants *)

Fixpoint resolve_from (resolved : option (string * string)) (declared : list (string * option string)) :
    result (option (string * string)) :=
  match declared with
  | [] => Ok resolved
  | (source, value) :: declared =>
      match value with
      | Some v =>
          if Str.is_blank v then resolve_from resolved declared
          else
            let tenant := normalize_tenant_id (Str.trim v) in
            match resolved with
            | None => resolve_from (Some (source, tenant)) declared
            | Some (first, existing) =>
                if bool_decide (existing <> tenant)
                then Err (flare_err_details MessageFormatError "conversation event carries conflicting tenants"
                            (first +:+ " and " +:+ source +:+ " disagree"))
                else resolve_from resolved declared
            end
      | None => resolve_from resolved declared
      end
  end.

Definition resolve_event_tenant (declared : list (string * option string)) : result string :=
  resolved ← resolve_from None declared;
  ok_or (snd <$> resolved)
    (flare_err_details MessageFormatError "conversation event carries no tenant"
       "no tenant in envelope headers, transport headers or payload").

Definition declared_by_message (headers : gmap string string) (transport : option string) :
    list (string * option string) :=
  [("envelope x-tenant-id", headers !! TENANT_HEADER); ("envelope tenant_id", headers !! ENSURE_TENANT_HEADER);
   ("transport x-tenant-id", transport)].

Definition message_event_tenant (headers : gmap string string) (transport : option string) : result string :=
  resolve_event_tenant (declared_by_message headers transport).

(** ** Which events matter *)

Definition retracted_message (e : Event) : option string :=
  match payload e with
  | Some (Recall id) => Some id
  | Some (Delete id ty scope) =>
      let hard := bool_decide (ty = Some (Some Hard)) in
      let global := match scope with Some s => bool_decide (s = Some ConversationGlobal) | None => hard end in
      if global then Some id else None
  | _ => None
  end.

Definition matches_supported_event (e : Event) : bool :=
  bool_decide (type_ e = Some EventReadReceipt) || bool_decide (type_ e = Some EventMessage)
  || match payload e with Some (Read _ _) | Some (Message _) => true | _ => false end
  || bool_decide (is_Some (retracted_message e)).

Definition read_seq_for_conversation_cursor (read_seq : Z) : option Z :=
  if bool_decide (read_seq = 0) then None else Some (clamp_i64 read_seq).

Section Consumers.
Context (decode : string -> option MqEnvelope) (parse_ensure : string -> option ConversationEnsurePayload).
Context (type_from_proto : Z -> ConversationType).
Context (require_user_id : Ctx -> result string).
Context (fault : schedule) (precise_unread_threshold now : Z).
Context (visibility_as_proto : ConversationVisibility -> Z) (visibility_from_proto : Z -> ConversationVisibility).
Context (scan : list (string * ParticipantRow) -> list (string * ParticipantRow)).
Context (ids : ConversationIds) (fresh : string).

Abbreviation M := (db Store).

Definition decode_message_event (raw : string) : result (option (Event * gmap string string)) :=
  mq ← ok_or (decode raw) (flare_err DeserializationError "decode MqEnvelope");
  let event :=
    match envelope_payload mq with
    | Some (EnvelopeEvent e) =>
        if event_kind mq then if matches_supported_event e then Some e else None else None
    | Some (EnvelopeMessage m) => Some (mkEvent (Some EtUnspecified) (b_conversation_id m) (Some (Message m)))
    | _ => None
    end in
  Ok ((fun e => (e, headers mq)) <$> event).

(** [Context::root()]: no actor *)
Definition tenant_ctx (tenant : string) (user : option string) : Ctx := mkCtx (Some tenant) user false.

Definition handle_message_event (raw : string) (transport : option string) : M unit :=
  decoded ← lift_r (decode_message_event raw);
  match decoded with
  | None => mret ()
  | Some (e, headers) =>
      match payload e with
      | Some (Read user read_seq) =>
          if Str.is_empty (conversation_id e) then mret ()
          else if Str.is_empty user then mret ()
          else
            match read_seq_for_conversation_cursor read_seq with
            | None => mret ()
            | Some seq =>
                tenant ← lift_r (message_event_tenant headers transport);
                mark_as_read require_user_id fault (tenant_ctx tenant (Some user)) (conversation_id e) seq
            end
      | Some (Message m) =>
          let c := if Str.is_empty (conversation_id e) then b_conversation_id m else conversation_id e in
          if Str.is_empty c then mret ()
          else if Str.is_empty (b_sender_id m) then mret ()
          else
            let seq := as_i64 (b_conversation_seq m) in
            if bool_decide (seq <= 0) then mret ()
            else
              tenant ← lift_r (message_event_tenant headers transport);
              apply_message_event fault precise_unread_threshold (tenant_ctx tenant None) c (b_sender_id m) seq
                (b_status m)
      | Some (Recall _) | Some (Delete _ _ _) =>
          match retracted_message e with
          | None => mret ()
          | Some id =>
              if Str.is_empty (conversation_id e) || Str.is_blank id then mret ()
              else
                tenant ← lift_r (message_event_tenant headers transport);
                retract_message_unread fault precise_unread_threshold (tenant_ctx tenant None) (conversation_id e) id
          end
      | _ => mret ()
      end
  end.

Definition decode_conversation_ensure (raw : string) :
    result (option (string * ConversationEnsurePayload * gmap string string)) :=
  mq ← ok_or (decode raw) (flare_err DeserializationError "decode ConversationEnsure MqEnvelope");
  if negb (event_kind mq) then Ok None
  else
    match envelope_payload mq with
    | Some (EnvelopeEvent e) =>
        if bool_decide (type_ e <> Some EventCustom) then Ok None
        else
          let c := if Str.is_blank (conversation_id e) then envelope_conversation_id mq else conversation_id e in
          match payload e with
          | Some (Custom namespace name version bytes) =>
              if bool_decide (namespace <> "flare.core") || bool_decide (name <> "conversation.ensure")
                 || bool_decide (version <> "1")
              then Ok None
              else
                p ← ok_or (parse_ensure bytes) (flare_err DeserializationError "parse ensure");
                Ok (Some (c, p, headers mq))
          | _ => Ok None
          end
    | _ => Ok None
    end.

Definition ensured_participant (user_id : string) : ConversationParticipant :=
  mkParticipant user_id [] false false ∅ 0 false.

Definition declared_by_ensure (p : ConversationEnsurePayload) (headers : gmap string string)
    (transport : option string) : list (string * option string) :=
  [("payload tenant_id", Some (ensure_tenant_id p)); ("envelope tenant_id", headers !! ENSURE_TENANT_HEADER);
   ("envelope x-tenant-id", headers !! TENANT_HEADER); ("transport x-tenant-id", transport)].

Definition handle_conversation_ensure (raw : string) (transport : option string) : M unit :=
  decoded ← lift_r (decode_conversation_ensure raw);
  match decoded with
  | None => mret ()
  | Some (c, p, headers) =>
      if Str.is_empty c then mret ()
      else
        tenant ← lift_r (resolve_event_tenant (declared_by_ensure p headers transport));
        _ ← create_conversation fault now visibility_as_proto visibility_from_proto scan ids fresh
              (tenant_ctx tenant None) (type_from_proto (ensure_conversation_type p)) (ensure_business_type p)
              (ensured_participant <$> ensure_participants p) {["conversation_id" := c]} Private (ensure_channel_id p);
        mret ()
  end.

End Consumers.

(** ** Settling a delivery *)

Inductive FailureAction := Retry | DeadLetter.

(** What becomes of the message at the broker. *)
Inductive Settlement := Acked | Nacked (delay : option Z) | Termed | Unsettled.

Record RetryPolicy := mkPolicy {
  action_for_dead_letter : FailureAction;
  action_for_nack : nat -> FailureAction;
  retry_delay : nat -> option Z;
}.

Record Delivery := mkDelivery {
  retry_count : nat;
  has_ack_handle : bool;
  supports_native_retry : bool;
}.

Definition TENANT_REJECTION_REASON : string := "conversation event without a single declared tenant".

Definition permanent_rejection (e : FlareError) : option string :=
  match err_code e with
  | DeserializationError => Some "undecodable conversation event"
  | MessageFormatError => Some TENANT_REJECTION_REASON
  | _ => None
  end.

(** [None] and a zero delay are an immediate redelivery. *)
Definition redeliver (delay : option Z) : Settlement :=
  Nacked (match delay with Some d => if bool_decide (d = 0) then None else Some d | None => None end).

(** [publisher]: none, or whether its publication succeeds; the dead letter that was published. *)
Definition dead_letter (policy : RetryPolicy) (publisher : option bool) (d : Delivery) (reason : string) :
    Settlement * option string :=
  match publisher with
  | None => (redeliver (retry_delay policy (retry_count d)), None)
  | Some true => (Termed, Some reason)
  | Some false => (redeliver (retry_delay policy (retry_count d)), None)
  end.

Definition settle_message (policy : RetryPolicy) (publisher : option bool) (d : Delivery) (outcome : result unit) :
    Settlement * option string :=
  if negb (has_ack_handle d) then (Unsettled, None)
  else
    match outcome with
    | Ok _ => (Acked, None)
    | Err e =>
        if negb (supports_native_retry d) then (Nacked None, None)
        else
          let permanent := permanent_rejection e in
          let action := if bool_decide (is_Some permanent) then action_for_dead_letter policy
                        else action_for_nack policy (retry_count d) in
          match action with
          | Retry => (redeliver (retry_delay policy (retry_count d)), None)
          | DeadLetter =>
              dead_letter policy publisher d (default "conversation event retries exhausted" permanent)
          end
    end.

(** ** The tenant of an event *)

(** [v] is the canonical form of a tenant that some source declares. *)
Definition declares (declared : list (string * option string)) (v : string) : Prop :=
  exists source raw, (source, Some raw) ∈ declared /\ Str.is_blank raw = false /\ v = normalize_tenant_id (Str.trim raw).

Lemma declares_cons source value l v :
  declares ((source, value) :: l) v <->
  (exists raw, value = Some raw /\ Str.is_blank raw = false /\ v = normalize_tenant_id (Str.trim raw)) \/ declares l v.
Proof.
  unfold declares. split.
  - intros (s & raw & [[= -> <-]|Hin]%elem_of_cons & Hb & Hv); [left|right]; eauto 6.
  - intros [(raw & -> & Hb & Hv)|(s & raw & Hin & Hb & Hv)].
    + exists source, raw. split; [by left|done].
    + exists s, raw. split; [by right|done].
Qed.

Lemma resolve_some a l :
  match resolve_from (Some a) l with
  | Ok r => r = Some a /\ forall v, declares l v -> v = a.2
  | Err e => err_code e = MessageFormatError /\ exists v, declares l v /\ v <> a.2
  end.
Proof.
  induction l as [|[source value] l IH]; simpl.
  { split; [done|]. by intros v (s & raw & Hin%not_elem_of_nil & _). }
  destruct value as [raw|].
  - destruct (Str.is_blank raw) eqn:Hb.
    + destruct (resolve_from (Some a) l) as [r|e].
      * destruct IH as [-> IH]. split; [done|]. intros v; rewrite declares_cons; intros [(raw' & [= <-] & Hb' & _)|Hv]; [congruence|by apply IH].
      * destruct IH as (Hc & v & Hv & Hne). split; [done|]. exists v. rewrite declares_cons. auto.
    + destruct a as [first existing]. simpl in *. destruct (decide (existing = normalize_tenant_id (Str.trim raw))) as [E|E].
      * rewrite (bool_decide_eq_false_2 (_ <> _)) by (intros H; by apply H). destruct (resolve_from _ l) as [r|e].
        -- destruct IH as [-> IH]. split; [done|]. intros v; rewrite declares_cons; intros [(raw' & [= <-] & _ & ->)|Hv]; [done|by apply IH].
        -- destruct IH as (Hc & v & Hv & Hne). split; [done|]. exists v. rewrite declares_cons. auto.
      * rewrite bool_decide_eq_true_2 by done. split; [done|]. eexists. rewrite declares_cons. split; [left; eauto|done].
  - destruct (resolve_from (Some a) l) as [r|e].
    + destruct IH as [-> IH]. split; [done|]. intros v; rewrite declares_cons; intros [(raw' & [= <-] & _)|Hv]; by apply IH.
    + destruct IH as (Hc & v & Hv & Hne). split; [done|]. exists v. rewrite declares_cons. auto.
Qed.

(** The tenant of an event is the one that all its declarations agree on, when there is one. *)
Lemma resolve_spec l :
  match resolve_event_tenant l with
  | Ok t => forall v, declares l v <-> v = t
  | Err e => err_code e = MessageFormatError /\ ~ exists t, forall v, declares l v <-> v = t
  end.
Proof.
  induction l as [|[source value] l IH].
  { simpl. split; [done|]. intros (t & Ht). by destruct (proj2 (Ht t) eq_refl) as (s & raw & Hin%not_elem_of_nil & _). }
  assert (Hskip : (forall raw, value = Some raw -> Str.is_blank raw = true) ->
    forall v, declares ((source, value) :: l) v <-> declares l v).
  { intros Hv v. rewrite declares_cons. split; [|by right]. intros [(raw & E & Hb & _)|H]; [|done].
    specialize (Hv raw E). congruence. }
  unfold resolve_event_tenant in *. cbn [resolve_from]. destruct value as [raw|]; [destruct (Str.is_blank raw) eqn:Hb|].
  2: { clear IH Hskip. pose proof (resolve_some (source, normalize_tenant_id (Str.trim raw)) l) as H.
    destruct (resolve_from _ l) as [r|e]; simpl.
    - destruct H as [-> H]. simpl in *. intros v. rewrite declares_cons. split.
      + intros [(raw' & [= <-] & _ & ->)|Hv]; [done|by apply H].
      + intros ->. left. eauto.
    - destruct H as (Hc & v & Hv & Hne). split; [done|]. intros (t & Ht). apply Hne. simpl.
      transitivity t; [|symmetry]; apply Ht; rewrite declares_cons; [by right|left; eauto]. }
  all: specialize (Hskip ltac:(intros ? [=]; by subst)); destruct (_ ← _; _) as [t|e] eqn:E.
  all: setoid_rewrite Hskip; exact IH.
Qed.

(** ** Isolation of tenants *)

(** Only rows of the tenant [t] may differ. *)
Record only_tenant (t : string) (a b : Store) : Prop := {
  ot_conversations k : k.1 <> t -> conversations b !! k = conversations a !! k;
  ot_participants k : k.1.1 <> t -> participants b !! k = participants a !! k;
  ot_messages k : k.1 <> t -> messages b !! k = messages a !! k;
  ot_events k : k.1 <> t -> events b !! k = events a !! k;
  ot_pinned k : k.1 <> t -> pinned_messages b !! k = pinned_messages a !! k;
  ot_marked k : k.1 <> t -> marked_messages b !! k = marked_messages a !! k;
  ot_cursors k : k.1.1 <> t -> sync_cursors b !! k = sync_cursors a !! k;
}.

#[export] Instance only_tenant_preorder t : PreOrder (only_tenant t).
Proof.
  split; [by split|]. intros a b c [] []. split; intros k Hk; repeat match goal with H : _ |- _ => rewrite H by done end; done.
Qed.

Section Isolation.
Context (t : string).

Lemma only_tenant_participants st rows :
  (forall k, k.1.1 <> t -> rows !! k = participants st !! k) -> only_tenant t st (with_participants st rows).
Proof. by intros H; split. Qed.

Lemma only_tenant_conversations st rows :
  (forall k, k.1 <> t -> rows !! k = conversations st !! k) -> only_tenant t st (with_conversations st rows).
Proof. by intros H; split. Qed.

Lemma only_tenant_members c f st : only_tenant t st (update_members t c f st).
Proof.
  apply only_tenant_participants. intros [[kt kc] u] Hk. simpl in Hk. rewrite map_lookup_imap.
  destruct (participants st !! (kt, kc, u)); [|done]. simpl. by rewrite (bool_decide_eq_false_2 (kt = t)).
Qed.

Lemma only_tenant_upserts c st (f : ConversationParticipant -> option ParticipantRow -> ParticipantRow) l :
  only_tenant t st (with_participants st (foldl (upsert (member_key t c) f) (participants st) l)).
Proof.
  apply only_tenant_participants. intros k Hk. apply upserts_other. rewrite list_elem_of_fmap.
  by intros (p & -> & _).
Qed.

Context (user : option string) (fault : schedule).
Let ctx : Ctx := tenant_ctx t user.

Lemma ctx_tenant_run {A} (f : string -> db Store A) :
  keeps (only_tenant t) (f t) -> keeps (only_tenant t) (x ← lift_r (required_tenant ctx); f x).
Proof.
  intros Hf n st. unfold ctx, tenant_ctx, required_tenant, mbind, stE_bind, lift_r. simpl.
  destruct (Str.is_blank t); simpl; [done|apply Hf].
Qed.

Lemma mark_as_read_isolated require_user_id c s :
  keeps (only_tenant t) (mark_as_read require_user_id fault ctx c s).
Proof.
  unfold mark_as_read, ConversationStore.mark_as_read. case_bool_decide; [keep_step|]. apply ctx_tenant_run.
  repeat keep_step. apply only_tenant_participants. intros k Hk. rewrite lookup_alter_ne; [done|]. by intros <-.
Qed.

Lemma apply_message_event_isolated threshold c sender s status :
  keeps (only_tenant t) (apply_message_event fault threshold ctx c sender s status).
Proof.
  unfold apply_message_event, above_precise_unread_threshold. apply ctx_tenant_run. repeat keep_step.
  - apply only_tenant_conversations. intros k Hk. rewrite lookup_alter_ne; [done|]. by intros <-.
  - destruct (conversations _ !! _); [apply only_tenant_members|done].
Qed.

Lemma retract_isolated threshold c id : keeps (only_tenant t) (retract_message_unread fault threshold ctx c id).
Proof.
  unfold retract_message_unread, above_precise_unread_threshold. apply ctx_tenant_run. repeat keep_step.
  destruct (conversations _ !! _); [|done]. destruct (list_find _ _) as [[i target]|]; [apply only_tenant_members|done].
Qed.

Lemma insert_chunks_isolated (now : Z) (c : string) (ls : list (list ConversationParticipant))
    (rows rows' : gmap (string * string * string) ParticipantRow) (k : string * string * string) :
  foldl (insert_chunk now t c) (Ok rows) ls = Ok rows' -> k.1.1 <> t -> rows' !! k = rows !! k.
Proof.
  revert rows. induction ls as [|l ls IH]; intros rows H Hk; simpl in H; [by simplify_eq|].
  destruct (bool_decide (NoDup _)); simpl in H.
  - rewrite (IH _ H Hk), insert_participants_upsert. apply upserts_other. rewrite list_elem_of_fmap.
    by intros (p & -> & _).
  - exfalso. clear IH. induction ls; simpl in H; [done|]. by apply IHls.
Qed.

Context (now : Z) (visibility_as_proto : ConversationVisibility -> Z) (visibility_from_proto : Z -> ConversationVisibility).
Context (scan : list (string * ParticipantRow) -> list (string * ParticipantRow)).
Context (ids : ConversationIds) (fresh : string).

Lemma create_rows_isolated s :
  keeps (only_tenant t) (ConversationRows.create_conversation fault now visibility_as_proto ctx s).
Proof.
  unfold ConversationRows.create_conversation. apply ctx_tenant_run. keep_step; [keep_step|].
  apply keeps_exec; [exact _|]. intros st. cbv zeta. destruct (foldl _ _ _) as [rows|e] eqn:E; [|done]. simpl.
  etrans; [apply (only_tenant_conversations st)|apply only_tenant_participants].
  - intros k Hk. destruct (conversations st !! (t, _)); [done|]. rewrite lookup_insert_ne; [done|]. by intros <-.
  - intros k Hk. simpl. by eapply insert_chunks_isolated.
Qed.

Lemma manage_isolated c l :
  keeps (only_tenant t) (ConversationStore.manage_participants fault now ctx c l [] []).
Proof.
  unfold ConversationStore.manage_participants. apply ctx_tenant_run. repeat keep_step.
  unfold manage_rows. simpl. rewrite add_participants_upsert. apply only_tenant_upserts.
Qed.

Lemma create_isolated ty business ps attributes vis channel :
  keeps (only_tenant t) (create_conversation fault now visibility_as_proto visibility_from_proto scan ids fresh
    ctx ty business ps attributes vis channel).
Proof.
  unfold create_conversation, get_conversation.
  repeat first [apply create_rows_isolated | apply manage_isolated | keep_step].
Qed.

End Isolation.

Section Handlers.
Context (decode : string -> option MqEnvelope) (parse_ensure : string -> option ConversationEnsurePayload).
Context (type_from_proto : Z -> ConversationType).
Context (require_user_id : Ctx -> result string).
Context (threshold now : Z).
Context (visibility_as_proto : ConversationVisibility -> Z) (visibility_from_proto : Z -> ConversationVisibility).
Context (scan : list (string * ParticipantRow) -> list (string * ParticipantRow)).
Context (ids : ConversationIds) (fresh : string).

Definition message_handler (fault : schedule) : string -> option string -> db Store unit :=
  handle_message_event decode require_user_id fault threshold.
Definition ensure_handler (fault : schedule) : string -> option string -> db Store unit :=
  handle_conversation_ensure decode parse_ensure type_from_proto fault now visibility_as_proto visibility_from_proto
    scan ids fresh.

(** Every source of [declared] that names a tenant names [t], and one does. *)
Definition agreed (declared : list (string * option string)) (t : string) : Prop :=
  forall v, declares declared v <-> v = t.

(** A run either leaves the store alone or belongs to one tenant that all its sources agree on. *)
Definition isolated (declared : list (string * option string)) {A} (m : db Store A) : Prop :=
  forall n st, let st' := (m (n, st)).2.2 in
  st' = st \/ exists t, agreed declared t /\ only_tenant t st st'.

Lemma isolated_nothing declared : isolated declared (mret ()).
Proof. by left. Qed.

Lemma isolated_in_tenant declared {A} (f : string -> db Store A) :
  (forall t, keeps (only_tenant t) (f t)) -> isolated declared (t ← lift_r (resolve_event_tenant declared); f t).
Proof.
  intros Hf n st. unfold mbind, stE_bind, lift_r. pose proof (resolve_spec declared) as Hr.
  destruct (resolve_event_tenant declared) as [t|e]; simpl; [|by left]. right. exists t. split; [exact Hr|apply Hf].
Qed.

(** The payload an ensure record carries. *)
Definition carries_ensure (mq : MqEnvelope) (p : ConversationEnsurePayload) : Prop :=
  exists e namespace name version bytes,
    envelope_payload mq = Some (EnvelopeEvent e) /\ payload e = Some (Custom namespace name version bytes) /\
    parse_ensure bytes = Some p.

(** C11. Whatever arrives at the consumers and whatever statement fails, only rows of one tenant are
    touched: the tenant that every source of this record naming one agrees on (the envelope headers
    and the transport header, and for an ensure also the tenant in the payload the record carries).
    When no source names a tenant, or two name different ones, nothing is written. *)
Theorem events_stay_in_their_tenant fault raw transport n st :
  (forall st', (message_handler fault raw transport (n, st)).2.2 = st' ->
     st' = st \/ exists mq t, decode raw = Some mq /\ agreed (declared_by_message (headers mq) transport) t
                            /\ only_tenant t st st')
  /\ (forall st', (ensure_handler fault raw transport (n, st)).2.2 = st' ->
     st' = st \/ exists mq p t, decode raw = Some mq /\ carries_ensure mq p
                              /\ agreed (declared_by_ensure p (headers mq) transport) t /\ only_tenant t st st').
Proof.
  unfold message_handler, ensure_handler, handle_message_event, handle_conversation_ensure,
    decode_message_event, decode_conversation_ensure.
  destruct (decode raw) as [mq|] eqn:Ed; [|by split; intros st' <-; left].
  split; intros st' <-; cbn [ok_or mbind result_bind]; unfold mbind at 1, stE_bind at 1, lift_r at 1.
  - match goal with |- context [_ <$> ?x] => destruct x as [e|] end; [|by left]. cbn [fmap option_fmap option_map].
    match goal with |- context [(?m (n, st)).2.2] =>
      enough (isolated (declared_by_message (headers mq) transport) m) as H
        by (destruct (H n st) as [->|(t & Ha & Ho)]; [by left|right; by exists mq, t]) end.
    unfold message_event_tenant. cbv beta iota zeta.
    repeat match goal with |- isolated _ (match ?x with _ => _ end) => destruct x end;
      first [apply isolated_nothing | apply isolated_in_tenant; intros t];
      eauto using mark_as_read_isolated, apply_message_event_isolated, retract_isolated.
  - destruct (event_kind mq); cbn [negb]; [|by left]. destruct (envelope_payload mq) as [[e| |]|] eqn:Ep; try by left.
    case_bool_decide; [by left|]. destruct (payload e) as [[]|] eqn:Ey; try by left. destruct (_ || _); [by left|].
    destruct (parse_ensure _) as [p|] eqn:Epe; [|by left]. cbn [ok_or mbind result_bind].
    assert (Hcarries : carries_ensure mq p) by (unfold carries_ensure; eauto 10).
    match goal with |- context [(?m (n, st)).2.2] =>
      enough (isolated (declared_by_ensure p (headers mq) transport) m) as Hm
        by (destruct (Hm n st) as [->|(t & Ha & Ho)]; [by left|right; by exists mq, p, t]) end.
    match goal with |- isolated _ (if ?x then _ else _) => destruct x; [apply isolated_nothing|] end.
    apply isolated_in_tenant. intros t. repeat first [apply create_isolated | keep_step].
Qed.

(** A message event that names no tenant, or names two, writes nothing; its first delivery goes
    to the dead letters with the reason, and is taken from the queue only once it is there. *)
Theorem unattributed_event_is_dead_lettered fault raw transport n st mq m policy d :
  decode raw = Some mq -> envelope_payload mq = Some (EnvelopeMessage m) ->
  Str.is_empty (b_conversation_id m) = false -> Str.is_empty (b_sender_id m) = false ->
  0 < as_i64 (b_conversation_seq m) ->
  ~ (exists t, agreed (declared_by_message (headers mq) transport) t) ->
  has_ack_handle d = true -> supports_native_retry d = true -> action_for_dead_letter policy = DeadLetter ->
  exists e, message_handler fault raw transport (n, st) = (Err e, (n, st))
  /\ settle_message policy (Some true) d (Err e) = (Termed, Some TENANT_REJECTION_REASON)
  /\ (settle_message policy (Some false) d (Err e)).1 <> Termed
  /\ (settle_message policy None d (Err e)).1 <> Termed.
Proof.
  intros Hd Hm Hc Hs Hq Hno Ha Hn Hp. unfold message_handler, handle_message_event, decode_message_event.
  rewrite Hd. cbn [ok_or mbind result_bind]. rewrite Hm. cbn [fmap option_fmap option_map payload conversation_id].
  unfold mbind, stE_bind, lift_r. cbn [payload conversation_id]. rewrite !Hc, Hs, (bool_decide_eq_false_2 (as_i64 _ <= 0)) by lia.
  unfold message_event_tenant. pose proof (resolve_spec (declared_by_message (headers mq) transport)) as Hr.
  destruct (resolve_event_tenant _) as [t|e]; [destruct Hno; by exists t|]. destruct Hr as [He _]. exists e.
  assert (Hrej : permanent_rejection e = Some TENANT_REJECTION_REASON) by (unfold permanent_rejection; by rewrite He).
  split; [done|]. unfold settle_message. rewrite Ha, Hn, Hrej. simpl. by rewrite Hp.
Qed.

End Handlers.

(** ** Redelivered read receipts *)

Lemma read_row_idem r ms s u p : read_row r ms s u (read_row r ms s u p) = read_row r ms s u p.
Proof.
  set (q := read_row r ms s u p).
  assert (Hu : 0 <= unread_count q).
  { unfold q, read_row. simpl. repeat case_bool_decide; lia. }
  assert (Hq : Z.min (Z.max (read_seq q) s) (Z.max (tail r ms) s) = read_seq q) by (unfold q, read_row; simpl; lia).
  unfold read_row at 1. rewrite Hq, bool_decide_eq_true_2 by lia. rewrite Z.max_l by lia. by destruct q.
Qed.

Definition read_rows (t c u : string) (s : Z) (st : Store) : Store :=
  with_participants st
    (alter (read_row (default no_conversation (conversations st !! (t, c))) (conversation_messages st t c) s u)
       (t, c, u) (participants st)).

Lemma read_rows_idem t c u s st : read_rows t c u s (read_rows t c u s st) = read_rows t c u s st.
Proof.
  unfold read_rows at 1. unfold with_participants at 1. simpl. unfold read_rows, with_participants. simpl. f_equal.
  change (conversation_messages (mkStore _ _ ?m _ _ _ _) t c) with (default [] (m !! (t, c))).
  apply map_eq. intros k. destruct (decide (k = (t, c, u))) as [->|Hk].
  - rewrite !lookup_alter_eq. destruct (participants st !! (t, c, u)) as [p|]; [|done]. simpl. f_equal.
    apply read_row_idem.
  - by rewrite !lookup_alter_ne by done.
Qed.

(** Attempts at one idempotent statement leave it done or undone. *)
Lemma attempts_write err (g : Store -> Store) (fs : list schedule) st :
  (forall s, g (g s) = g s) -> g (foldl (fun s f => (write f err g (O, s)).2.2) st fs) = g st.
Proof.
  intros Hg. revert st. induction fs as [|f fs IH]; intros st; [done|]. simpl. rewrite IH.
  unfold write, exec. destruct (f O); simpl; by rewrite ?Hg.
Qed.

Section Redelivery.
Context (decode : string -> option MqEnvelope) (require_user_id : Ctx -> result string) (threshold : Z).

Lemma read_event_run raw transport mq e user seq :
  decode raw = Some mq -> event_kind mq = true -> envelope_payload mq = Some (EnvelopeEvent e) ->
  payload e = Some (Read user seq) ->
  (exists r, forall f w, message_handler decode require_user_id threshold f raw transport w = (r, w))
  \/ exists err t u s, forall f w, message_handler decode require_user_id threshold f raw transport w
        = write f err (read_rows t (conversation_id e) u s) w.
Proof.
  intros Hd Hk He Hp. unfold message_handler, handle_message_event, decode_message_event. rewrite Hd.
  cbn [ok_or mbind result_bind]. rewrite He, Hk.
  assert (Hs : matches_supported_event e = true).
  { unfold matches_supported_event. rewrite Hp. by rewrite orb_true_r. }
  rewrite Hs. cbn [fmap option_fmap option_map]. unfold mbind, stE_bind, lift_r. rewrite Hp.
  destruct (Str.is_empty (conversation_id e)); [left; by exists (Ok ())|].
  destruct (Str.is_empty user); [left; by exists (Ok ())|].
  destruct (read_seq_for_conversation_cursor seq) as [s|]; [|left; by exists (Ok ())].
  destruct (message_event_tenant _ _) as [t|x]; [|left; by exists (Err x)].
  unfold mark_as_read. case_bool_decide; [left; eexists (Err _); reflexivity|].
  unfold ConversationStore.mark_as_read, mbind, stE_bind, lift_r.
  destruct (required_tenant _) as [t'|x]; [|left; by exists (Err x)].
  destruct (require_user_id _) as [u|x]; [|left; by exists (Err x)].
  right. eexists _, t', u, s. reflexivity.
Qed.

(** A read receipt may be delivered again and again: whatever failed in the earlier attempts and
    whether or not it took effect, an attempt that succeeds leaves the rows of one undisturbed
    delivery, and an undisturbed attempt has the outcome it would have had at first. *)
Theorem read_receipts_may_be_redelivered raw transport mq e user seq (attempts : list schedule) last st :
  decode raw = Some mq -> event_kind mq = true -> envelope_payload mq = Some (EnvelopeEvent e) ->
  payload e = Some (Read user seq) ->
  let deliver f st := message_handler decode require_user_id threshold f raw transport (O, st) in
  let st1 := foldl (fun st f => (deliver f st).2.2) st attempts in
  ((deliver last st1).1 = Ok () -> (deliver last st1).2.2 = (deliver calm st).2.2)
  /\ (deliver calm st1).1 = (deliver calm st).1.
Proof.
  intros Hd Hk He Hp deliver st1.
  destruct (read_event_run raw transport mq e user seq Hd Hk He Hp) as [[r Hr]|(err & t & u & s & Hr)].
  - assert (E : st1 = st).
    { unfold st1, deliver. clear st1. induction attempts as [|f fs IH]; [done|]. cbn [foldl]. by rewrite Hr. }
    unfold deliver. by rewrite E, !Hr.
  - pose proof (attempts_write err (read_rows t (conversation_id e) u s) attempts st (read_rows_idem _ _ _ _)) as Hg.
    assert (E : st1 = foldl (fun s0 f => (write f err (read_rows t (conversation_id e) u s) (O, s0)).2.2) st attempts).
    { unfold st1, deliver. clear Hg st1. revert st. induction attempts as [|f fs IH]; intros st; [done|]. cbn [foldl].
      by rewrite Hr, IH. }
    rewrite <- E in Hg. unfold deliver. rewrite !Hr. unfold write. rewrite !exec_calm. cbn [fst snd]. split; [|done].
    unfold exec. destruct (last O); cbn [fst snd]; [by rewrite Hg|done|done].
Qed.

End Redelivery.

(** ** Examples *)

Module Wire.
Import ConversationRows.Sample Conversation.Chat.

Definition user_of (ctx : Ctx) : result string := ok_or (ctx_user ctx) (flare_err InvalidParameter "user required").
(** Three payloads on the wire: a message, a read receipt, an ensure. *)
Definition decode (raw : string) : option MqEnvelope :=
  if bool_decide (raw = "message") then Some (mkEnvelope ∅ false "" (Some (EnvelopeMessage (mkBody "2-team" "ann" 4 2))))
  else if bool_decide (raw = "read") then
    Some (mkEnvelope {[TENANT_HEADER := "t"]} true ""
            (Some (EnvelopeEvent (mkEvent (Some EventReadReceipt) "2-team" (Some (Read "bob" 3))))))
  else if bool_decide (raw = "ensure") then
    Some (mkEnvelope {[ENSURE_TENANT_HEADER := "t"]} true ""
            (Some (EnvelopeEvent (mkEvent (Some EventCustom) "2-team" (Some (Custom "flare.core" "conversation.ensure" "1" ""))))))
  else None.
Definition parse_ensure (_ : string) : option ConversationEnsurePayload := Some (mkEnsure "t" 2 "chat" ["ann"; "bob"] "").
Definition once_then_retry : RetryPolicy := mkPolicy DeadLetter (fun _ => Retry) (fun _ => Some 1000).
Definition ensure_event (fault : schedule) : result unit * (nat * Store) :=
  ensure_handler decode parse_ensure from_int 9 as_proto from_proto (fun l => l) some_ids "f" fault "ensure" None
    (O, stored).

End Wire.
Import ConversationRows.Sample Conversation.Chat Wire.

Lemma unattributed_event_is_dead_lettered_witness :
  exists e, message_handler Wire.decode user_of 0 calm "message" None (O, stored) = (Err e, (O, stored))
  /\ settle_message once_then_retry (Some true) (mkDelivery 0 true true) (Err e) = (Termed, Some TENANT_REJECTION_REASON).
Proof.
  destruct (unattributed_event_is_dead_lettered Wire.decode user_of 0 calm "message" None O stored
    (mkEnvelope ∅ false "" (Some (EnvelopeMessage (mkBody "2-team" "ann" 4 2)))) (mkBody "2-team" "ann" 4 2)
    once_then_retry (mkDelivery 0 true true) eq_refl eq_refl eq_refl eq_refl) as (e & H1 & H2 & _); try reflexivity.
  - intros (t & Ht). destruct (proj2 (Ht t) eq_refl) as (s & raw & Hin & _).
    unfold declared_by_message in Hin. rewrite !elem_of_cons in Hin. by destruct Hin as [[=]|[[=]|[[=]|Hin%not_elem_of_nil]]].
  - exists e. split; [exact H1|exact H2].
Defined.

Lemma read_receipts_may_be_redelivered_witness :
  let deliver f st := message_handler Wire.decode user_of 0 f "read" None (O, st) in
  let lost n := FailsAfter in
  (deliver calm (deliver lost stored).2.2).2.2 = (deliver calm stored).2.2.
Proof.
  apply (proj1 (read_receipts_may_be_redelivered Wire.decode user_of 0 "read" None
    (mkEnvelope {[TENANT_HEADER := "t"]} true ""
            (Some (EnvelopeEvent (mkEvent (Some EventReadReceipt) "2-team" (Some (Read "bob" 3))))))
    (mkEvent (Some EventReadReceipt) "2-team" (Some (Read "bob" 3))) "bob" 3 [fun _ => FailsAfter] calm stored
    eq_refl eq_refl eq_refl eq_refl)). vm_compute. reflexivity.
Defined.

(** An ensure event for a group that exists, handled while its first read fails: the event is
    processed as for a new conversation and acknowledged, and every member it names is left
    without roles, the owner too. *)
Theorem ensure_event_can_strip_roles :
  let failing n := if Nat.eqb n 0 then FailsBefore else Works in
  roles_of stored "ann" = Some ["owner"]
  /\ (ensure_event failing).1 = Ok () /\ roles_of (ensure_event failing).2.2 "ann" = Some []
  /\ roles_of (ensure_event calm).2.2 "ann" = Some ["owner"].
Proof. by vm_compute. Qed.
