(* ===== verification/Archive.v ===== *)
(** * The archive of messages

    flare-storage/writer/src/infrastructure/persistence/repository/postgres_store.rs, the writes of
    new messages: [claim_send_idempotency], [archive_one], [store_archive_batch_values] and
    [archive_messages]. A transaction is one statement of [Database]: it commits as a whole or not
    at all, and the reply of a commit may be lost. A message is prepared into a row; the columns
    that only travel (names, content, retention, attributes, ..) are [body]. The optional record of
    a machine write in the same transaction is left out. *)

From stdpp Require Import base gmap strings list sets.
From Stdlib Require Import ZArith Lia.
From S2P Require Import Prelude.
From S2P Require Import Database.
From S2P Require Import Tenant.
From S2P Require Import Slices.
From S2P Require Import ConversationRows.

Open Scope Z_scope.

Section Archive.
Context {body : Type}.

(** ** Messages and rows *)

Record ArchiveMessage := mkArchiveMessage {
  am_server_id : string;
  am_conversation_id : string;
  am_client_msg_id : string;
  am_sender_id : string;
  am_conversation_seq : Z;
  am_created_at : Z;
  (** [extra.tenant_id] *)
  am_extra_tenant : option string;
  am_body : body;
}.

Record Row := mkRow {
  r_tenant : string;
  r_server_id : string;
  r_conversation_id : string;
  r_client_msg_id : option string;
  r_sender_id : string;
  r_seq : Z;
  r_created_at : Z;
  r_body : body;
}.

Definition resolve_tenant_id (ctx_tenant : option string) (extra_tenant : option string) (message_id : string) :
    result string :=
  match ctx_tenant with
  | Some t => if Str.is_blank t then
      match extra_tenant with
      | Some t => if Str.is_blank t
                  then Err (flare_err InternalError ("tenant_id is required for message " +:+ message_id))
                  else Ok (normalize_tenant_id t)
      | None => Err (flare_err InternalError ("tenant_id is required for message " +:+ message_id))
      end
      else Ok (normalize_tenant_id t)
  | None =>
      match extra_tenant with
      | Some t => if Str.is_blank t
                  then Err (flare_err InternalError ("tenant_id is required for message " +:+ message_id))
                  else Ok (normalize_tenant_id t)
      | None => Err (flare_err InternalError ("tenant_id is required for message " +:+ message_id))
      end
  end.

(** The checks and the row of one message. *)
Definition prepare (ctx_tenant : option string) (m : ArchiveMessage) : result Row :=
  if bool_decide (i64_max < am_conversation_seq m)
  then Err (flare_err InternalError ("invalid seq overflow for message " +:+ am_server_id m))
  else if bool_decide (am_conversation_seq m <= 0)
  then Err (flare_err InternalError ("invalid seq, message must be assigned in orchestrator: " +:+ am_server_id m))
  else
    tenant ← resolve_tenant_id ctx_tenant (am_extra_tenant m) (am_server_id m);
    Ok (mkRow tenant (am_server_id m) (am_conversation_id m)
          (if Str.is_empty (am_client_msg_id m) then None else Some (am_client_msg_id m))
          (am_sender_id m) (am_conversation_seq m) (am_created_at m) (am_body m)).

(** ** Tables *)

Record Tables := mkTables {
  (** message_idempotency_ledger: tenant, sender, client id to conversation and message *)
  ledger : gmap (string * string * string) (string * string);
  (** message_write_ledger: conversation, sequence, archived *)
  write_ledger : gmap (string * string) (string * Z * bool);
  messages : gmap (string * string * Z) Row;
}.

(** ** The idempotency ledger *)

Record LedgerClaim := mkClaim {
  c_tenant : string;
  c_sender : string;
  c_client_msg_id : string;
  c_conversation : string;
  c_server_id : string;
}.

(** [LedgerClaim::of] *)
Definition claim_of (r : Row) : option LedgerClaim :=
  match r_client_msg_id r with
  | Some id => if Str.is_blank id then None
               else Some (mkClaim (r_tenant r) (r_sender_id r) id (r_conversation_id r) (r_server_id r))
  | None => None
  end.

Definition c_key (c : LedgerClaim) : string * string * string := (c_tenant c, c_sender c, c_client_msg_id c).

Record ArchiveOutcome := mkOutcome {
  (** message and the original it repeats *)
  duplicates : list (string * string);
  reused_client_msg_ids : Z;
}.

Definition no_outcome : ArchiveOutcome := mkOutcome [] 0.

Definition is_duplicate (o : ArchiveOutcome) (server_id : string) : bool :=
  bool_decide (Exists (fun d => d.1 = server_id) (duplicates o)).

Definition merge (a b : ArchiveOutcome) : ArchiveOutcome :=
  mkOutcome (duplicates a ++ duplicates b) (reused_client_msg_ids a + reused_client_msg_ids b).

(** [INSERT .. ORDER BY position ON CONFLICT DO NOTHING RETURNING server_id] *)
Definition insert_claim (acc : gmap (string * string * string) (string * string) * list string) (c : LedgerClaim) :
    gmap (string * string * string) (string * string) * list string :=
  match acc.1 !! c_key c with
  | Some _ => acc
  | None => (<[c_key c := (c_conversation c, c_server_id c)]> acc.1, acc.2 ++ [c_server_id c])
  end.

(** What the occupant of a key says about a message that did not get it. *)
Definition judge (l : gmap (string * string * string) (string * string)) (o : ArchiveOutcome) (c : LedgerClaim) :
    ArchiveOutcome :=
  match l !! c_key c with
  | None => o
  | Some (conversation, server_id) =>
      if bool_decide (server_id = c_server_id c) then o
      else if bool_decide (conversation <> c_conversation c)
      then mkOutcome (duplicates o) (reused_client_msg_ids o + 1)
      else mkOutcome (duplicates o ++ [(c_server_id c, server_id)]) (reused_client_msg_ids o)
  end.

Definition claim_send_idempotency (claims : list LedgerClaim) (l : gmap (string * string * string) (string * string)) :
    ArchiveOutcome * gmap (string * string * string) (string * string) :=
  if bool_decide (claims = []) then (no_outcome, l)
  else
    let '(l, claimed) := foldl insert_claim (l, []) claims in
    if Nat.eqb (length (remove_dups claimed)) (length claims) then (no_outcome, l)
    else (foldl (judge l) no_outcome (filter (fun c => c_server_id c ∉ claimed) claims), l).

(** ** Transactions *)

Definition w_key (r : Row) : string * string := (r_tenant r, r_server_id r).
Definition m_key (r : Row) : string * string * Z := (r_tenant r, r_server_id r, r_created_at r).

(** [INSERT INTO messages .. ON CONFLICT DO NOTHING] *)
Definition insert_message (m : gmap (string * string * Z) Row) (r : Row) : gmap (string * string * Z) Row :=
  match m !! m_key r with Some _ => m | None => <[m_key r := r]> m end.

Definition mark_archived (w : gmap (string * string) (string * Z * bool)) (r : Row) :
    gmap (string * string) (string * Z * bool) :=
  alter (fun x => (x.1, true)) (w_key r) w.

(** The transaction of [archive_one]. *)
Definition archive_one_tx (r : Row) (s : Tables) : ArchiveOutcome * Tables :=
  let '(outcome, l) := claim_send_idempotency (option_list (claim_of r)) (ledger s) in
  if is_duplicate outcome (r_server_id r) then (outcome, mkTables l (write_ledger s) (messages s))
  else
    match write_ledger s !! w_key r with
    | Some _ => (outcome, mkTables l (write_ledger s) (messages s))
    | None =>
        let w := <[w_key r := (r_conversation_id r, r_seq r, false)]> (write_ledger s) in
        (outcome, mkTables l (mark_archived w r) (insert_message (messages s) r))
    end.

(** [.. ON CONFLICT DO NOTHING RETURNING tenant_id, server_id] *)
Definition insert_write (acc : gmap (string * string) (string * Z * bool) * list (string * string)) (r : Row) :
    gmap (string * string) (string * Z * bool) * list (string * string) :=
  match acc.1 !! w_key r with
  | Some _ => acc
  | None => (<[w_key r := (r_conversation_id r, r_seq r, false)]> acc.1, acc.2 ++ [w_key r])
  end.

(** One attempt of [store_archive_batch_values]. *)
Definition batch_tx (rows : list Row) (s : Tables) : ArchiveOutcome * Tables :=
  let '(outcome, l) := claim_send_idempotency (omap claim_of rows) (ledger s) in
  let candidates := filter (fun r => is_duplicate outcome (r_server_id r) = false) rows in
  if bool_decide (candidates = []) then (outcome, mkTables l (write_ledger s) (messages s))
  else
    let '(w, inserted) := foldl insert_write (write_ledger s, []) candidates in
    if bool_decide (inserted = []) then (outcome, mkTables l w (messages s))
    else
      let rows := filter (fun r => w_key r ∈ inserted) candidates in
      (outcome, mkTables l (foldl mark_archived w rows) (foldl insert_message (messages s) rows)).

Section Run.
Context (fault : schedule).
(** Whether the failure of a transaction is one that is tried again. *)
Context (retried : nat -> bool).
Context (ctx_tenant : option string) (message_size : ArchiveMessage -> Z).

Abbreviation M := (db Tables).

Definition archive_one (m : ArchiveMessage) : M ArchiveOutcome :=
  r ← lift_r (prepare ctx_tenant m);
  exec fault (flare_err InternalError "archive transaction failed") (fun s =>
    let '(o, s') := archive_one_tx r s in (Ok o, s')).

Fixpoint attempt (tries : nat) (rows : list Row) : M ArchiveOutcome :=
  match tries with
  | O => lift_r (Err (flare_err InternalError "Failed to batch insert messages"))
  | S tries => fun w =>
      let try := exec fault (flare_err InternalError "batch transaction failed") (fun s =>
                   let '(o, s') := batch_tx rows s in (Ok o, s')) in
      match try w with
      | (Ok o, w') => (Ok o, w')
      | (Err e, w') => if retried w.1 then attempt tries rows w' else (Err e, w')
      end
  end.

Definition store_archive_batch_values (ms : list ArchiveMessage) : M ArchiveOutcome :=
  rows ← lift_r (mapM (prepare ctx_tenant) ms);
  attempt 3 rows.

Fixpoint archive_each {X} (f : X -> M ArchiveOutcome) (l : list X) (acc : ArchiveOutcome) : M ArchiveOutcome :=
  match l with
  | [] => mret acc
  | x :: l => o ← f x; archive_each f l (merge acc o)
  end.

Definition optimal_batch_size (ms : list ArchiveMessage) : nat :=
  let avg := Z.quot (foldr Z.add 0 (message_size <$> ms)) (Z.of_nat (length ms)) in
  Z.to_nat (if bool_decide (avg < 1024) then 500 else if bool_decide (avg < 10 * 1024) then 200 else 50).

Definition archive_messages (ms : list ArchiveMessage) : M ArchiveOutcome :=
  if bool_decide (ms = []) then mret no_outcome
  else if Nat.leb (length ms) 10 then archive_each archive_one ms no_outcome
  else
    let size := optimal_batch_size ms in
    if Nat.ltb size (length ms) then archive_each store_archive_batch_values (chunks size ms) no_outcome
    else store_archive_batch_values ms.

End Run.
End Archive.
