(* ===== verification/ArchiveOnce.v ===== *)
(** * Every message is archived once

    Theorems about [Archive]: the batch transaction does what archiving its messages one by one
    does; archiving again, after any failures, changes nothing more; and of the messages a sender
    gave one client id in one conversation, one is stored. *)

From stdpp Require Import base gmap strings list sets.
From Stdlib Require Import ZArith Lia.
From S2P Require Import Prelude.
From S2P Require Import Database.
From S2P Require Import Slices.
From S2P Require Import ConversationRows.
From S2P Require Import Archive.

Open Scope Z_scope.

Section Once.
Context {body : Type}.
Abbreviation Row := (@Row body).
Abbreviation Tables := (@Tables body).
Abbreviation Ledger := (gmap (string * string * string) (string * string)).

(** ** The ledger, row by row *)

Definition claim_row (l : Ledger) (r : Row) : Ledger :=
  match claim_of r with
  | Some c => match l !! c_key c with
              | Some _ => l
              | None => <[c_key c := (c_conversation c, c_server_id c)]> l
              end
  | None => l
  end.

Inductive Verdict := Fresh | Reused | Repeats (original : string).

Definition verdict (l : Ledger) (r : Row) : Verdict :=
  match claim_of r with
  | None => Fresh
  | Some c =>
      match l !! c_key c with
      | None => Fresh
      | Some (conversation, server_id) =>
          if bool_decide (server_id = c_server_id c) then Fresh
          else if bool_decide (conversation <> c_conversation c) then Reused
          else Repeats server_id
      end
  end.

Definition verdict_outcome (l : Ledger) (r : Row) : ArchiveOutcome :=
  match verdict l r with
  | Fresh => no_outcome
  | Reused => mkOutcome [] 1
  | Repeats original => mkOutcome [(r_server_id r, original)] 0
  end.

Definition outcome_of (l : Ledger) (rows : list Row) : ArchiveOutcome :=
  foldl (fun o r => merge o (verdict_outcome l r)) no_outcome rows.

Definition repeats_of (l : Ledger) (r : Row) : bool :=
  match verdict l r with Repeats _ => true | _ => false end.

Lemma claim_row_mono l r : l ⊆ claim_row l r.
Proof.
  unfold claim_row. destruct (claim_of r) as [c|]; [|done]. destruct (l !! c_key c) eqn:E; [done|].
  by apply insert_subseteq.
Qed.

Lemma claim_rows_mono l rows : l ⊆ foldl claim_row l rows.
Proof.
  revert l. induction rows as [|r rows IH]; intros l; [done|]. simpl. etrans; [apply claim_row_mono|apply IH].
Qed.

(** The key of a row, when it takes part, is taken. *)
Definition claimed_in (l : Ledger) (r : Row) : Prop := forall c, claim_of r = Some c -> is_Some (l !! c_key c).

Lemma claim_row_claims l r : claimed_in (claim_row l r) r.
Proof.
  intros c Hc. unfold claim_row. rewrite Hc. destruct (l !! c_key c) eqn:E; [by rewrite E|].
  rewrite lookup_insert_eq. by eexists.
Qed.

Lemma claimed_mono l l' r : l ⊆ l' -> claimed_in l r -> claimed_in l' r.
Proof. intros Hl Hc c E. destruct (Hc c E) as [x Hx]. exists x. by eapply lookup_weaken. Qed.

Lemma claim_rows_claim l rows r : r ∈ rows -> claimed_in (foldl claim_row l rows) r.
Proof.
  intros (l1 & l2 & ->)%list_elem_of_split. rewrite foldl_app. simpl.
  eapply claimed_mono; [apply claim_rows_mono|apply claim_row_claims].
Qed.

Lemma claim_claimed l r : claimed_in l r -> claim_row l r = l.
Proof.
  intros H. unfold claim_row. destruct (claim_of r) as [c|] eqn:E; [|done]. by destruct (H c E) as [x ->].
Qed.

Lemma claim_rows_claimed l rows : (forall r, r ∈ rows -> claimed_in l r) -> foldl claim_row l rows = l.
Proof.
  revert l. induction rows as [|r rows IH]; intros l H; [done|]. simpl. rewrite claim_claimed by set_solver.
  apply IH. set_solver.
Qed.

(** Once its key is taken, what the ledger says of a row stays. *)
Lemma verdict_stable l l' r : l ⊆ l' -> claimed_in l r -> verdict l' r = verdict l r.
Proof.
  intros Hl Hc. unfold verdict. destruct (claim_of r) as [c|] eqn:E; [|done].
  destruct (Hc c E) as [x Hx]. by rewrite Hx, (lookup_weaken _ _ _ _ Hx Hl).
Qed.

(** ** The claims of a batch *)

Lemma claim_server (r : Row) c : claim_of r = Some c -> c_server_id c = r_server_id r.
Proof.
  unfold claim_of. destruct (r_client_msg_id r) as [id|]; [|done]. destruct (Str.is_blank id); [done|]. by intros [= <-].
Qed.

Lemma insert_claims_ledger (l : Ledger) (out : list string) (rows : list Row) :
  (foldl insert_claim (l, out) (omap claim_of rows)).1 = foldl claim_row l rows.
Proof.
  revert l out. induction rows as [|r rows IH]; intros l out; [done|]. cbn [omap list_omap foldl].
  destruct (claim_of r) as [c|] eqn:E; simpl; unfold claim_row at 2; rewrite E; [|apply IH].
  unfold insert_claim at 2. simpl. destruct (l !! c_key c); apply IH.
Qed.

(** An id that was returned holds its key. *)
Lemma insert_claims_hold (cs : list LedgerClaim) (l : Ledger) (out : list string) (sid : string) :
  let '(l', out') := foldl insert_claim (l, out) cs in
  sid ∈ out' -> sid ∈ out \/ exists c, c ∈ cs /\ c_server_id c = sid /\ l' !! c_key c = Some (c_conversation c, sid).
Proof.
  revert l out. induction cs as [|c cs IH]; intros l out; [by left|]. cbn [foldl].
  assert (Hmono : forall cs (a : Ledger * list string), a.1 ⊆ (foldl insert_claim a cs).1).
  { clear. induction cs as [|c cs IH]; intros a; [done|]. simpl. etrans; [|apply IH]. unfold insert_claim.
    destruct (a.1 !! c_key c) eqn:E; [done|]. simpl. by apply insert_subseteq. }
  unfold insert_claim at 2. simpl. destruct (l !! c_key c) eqn:E.
  - specialize (IH l out). destruct (foldl insert_claim _ cs). intros [?|(c' & Hc & H)]%IH; [by left|right].
    exists c'. split; [by right|done].
  - specialize (IH (<[c_key c := (c_conversation c, c_server_id c)]> l) (out ++ [c_server_id c])).
    specialize (Hmono cs (<[c_key c := (c_conversation c, c_server_id c)]> l, out ++ [c_server_id c])).
    destruct (foldl insert_claim _ cs) as [l' out']. simpl in Hmono.
    intros [[?|H]%elem_of_app|(c' & Hc & H)]%IH; [by left| |]; right.
    + apply list_elem_of_singleton in H as ->. exists c. split_and!; [by left|done|].
      eapply lookup_weaken; [|exact Hmono]. apply lookup_insert_eq.
    + exists c'. split; [by right|done].
Qed.

Lemma insert_claims_all (cs : list LedgerClaim) (l : Ledger) (out : list string) :
  let '(_, out') := foldl insert_claim (l, out) cs in
  (length out' <= length out + length cs)%nat
  /\ (length out' = (length out + length cs)%nat -> forall x, x ∈ out \/ x ∈ c_server_id <$> cs -> x ∈ out').
Proof.
  revert l out. induction cs as [|c cs IH]; intros l out; [simpl; split; [lia|set_solver]|]. cbn [foldl length].
  unfold insert_claim at 2. simpl. destruct (l !! c_key c).
  - specialize (IH l out). destruct (foldl insert_claim _ cs). split; [lia|]. lia.
  - specialize (IH (<[c_key c := (c_conversation c, c_server_id c)]> l) (out ++ [c_server_id c])).
    destruct (foldl insert_claim _ cs). rewrite length_app in IH. simpl in IH. destruct IH as [Hle IH].
    split; [lia|]. intros Hl x Hx. apply IH; [lia|].
    destruct Hx as [?|[->|?]%elem_of_cons]; set_solver.
Qed.

Lemma merge_assoc a b c : merge (merge a b) c = merge a (merge b c).
Proof. unfold merge. simpl. f_equal; [by rewrite app_assoc|lia]. Qed.

Lemma merge_none a : merge no_outcome a = a.
Proof. by destruct a. Qed.

Lemma merge_none_r a : merge a no_outcome = a.
Proof. destruct a. unfold merge. simpl. f_equal; [by rewrite app_nil_r|lia]. Qed.

Lemma judge_verdict (l : Ledger) (o : ArchiveOutcome) (r : Row) (c : LedgerClaim) : claim_of r = Some c -> judge l o c = merge o (verdict_outcome l r).
Proof.
  intros E. unfold judge, verdict_outcome, verdict. rewrite E, <- (claim_server r c E).
  destruct (l !! c_key c) as [[conv sid]|]; [|by rewrite merge_none_r].
  case_bool_decide; [by rewrite merge_none_r|]. case_bool_decide; unfold merge; simpl; f_equal; try lia.
  by rewrite app_nil_r.
Qed.

Lemma outcome_of_from (l : Ledger) (o : ArchiveOutcome) (rows : list Row) :
  foldl (fun o r => merge o (verdict_outcome l r)) o rows = merge o (outcome_of l rows).
Proof.
  unfold outcome_of. revert o. induction rows as [|r rows IH]; intros o; simpl; [by rewrite merge_none_r|].
  rewrite IH, (IH (merge no_outcome _)), merge_none, merge_assoc. done.
Qed.

Lemma judge_rows (l : Ledger) (rows : list Row) (o : ArchiveOutcome) :
  foldl (judge l) o (omap claim_of rows) = merge o (outcome_of l rows).
Proof.
  rewrite <- outcome_of_from. revert o. induction rows as [|r rows IH]; intros o; [done|].
  cbn [omap list_omap foldl]. destruct (claim_of r) as [c|] eqn:E; cbn [foldl].
  - by rewrite IH, (judge_verdict _ _ r c E).
  - rewrite IH. unfold verdict_outcome, verdict. by rewrite E, merge_none_r.
Qed.

(** Claims that change no outcome may be left out. *)
Lemma judge_filter (l : Ledger) (P : LedgerClaim -> Prop) `{!forall c, Decision (P c)} (cs : list LedgerClaim) o :
  (forall c, c ∈ cs -> ~ P c -> forall o, judge l o c = o) -> foldl (judge l) o (filter P cs) = foldl (judge l) o cs.
Proof.
  revert o. induction cs as [|c cs IH]; intros o Hno; [done|]. rewrite filter_cons.
  case_decide; simpl; rewrite IH by (intros; apply Hno; set_solver); [done|]. by rewrite Hno by set_solver.
Qed.

Lemma same_message (rows : list Row) (r r' : Row) :
  NoDup (r_server_id <$> rows) -> r ∈ rows -> r' ∈ rows -> r_server_id r = r_server_id r' -> r = r'.
Proof.
  intros Hnd [i Hi]%list_elem_of_lookup [j Hj]%list_elem_of_lookup Hs.
  assert (i = j) as ->; [|congruence].
  eapply NoDup_lookup; [exact Hnd| |]; rewrite list_lookup_fmap; [by rewrite Hi|rewrite Hj; simpl; by rewrite Hs].
Qed.

Lemma distinct_claims (rows : list Row) (c c' : LedgerClaim) :
  NoDup (r_server_id <$> rows) -> c ∈ omap claim_of rows -> c' ∈ omap claim_of rows ->
  c_server_id c = c_server_id c' -> c = c'.
Proof.
  intros Hnd (r & Hr & E)%list_elem_of_omap (r' & Hr' & E')%list_elem_of_omap H.
  rewrite (claim_server r c E), (claim_server r' c' E') in H.
  assert (r = r') as -> by (by eapply same_message).
  congruence.
Qed.

(** What the ledger decides for rows of distinct messages. *)
Lemma claim_send_spec (rows : list Row) (l : Ledger) :
  NoDup (r_server_id <$> rows) ->
  claim_send_idempotency (omap claim_of rows) l
  = (outcome_of (foldl claim_row l rows) rows, foldl claim_row l rows).
Proof.
  intros Hnd. set (L := foldl claim_row l rows). unfold claim_send_idempotency.
  pose proof (insert_claims_ledger l [] rows) as HL. fold L in HL.
  pose proof (judge_rows L rows no_outcome) as Hj. rewrite merge_none in Hj.
  case_bool_decide as E; [by rewrite <- Hj, <- HL, E|].
  pose proof (fun sid => insert_claims_hold (omap claim_of rows) l [] sid) as Hhold.
  pose proof (insert_claims_all (omap claim_of rows) l []) as Hall.
  destruct (foldl insert_claim (l, []) (omap claim_of rows)) as [l' claimed]. simpl in HL. subst l'.
  assert (Hskip : foldl (judge L) no_outcome (filter (fun c => c_server_id c ∉ claimed) (omap claim_of rows))
                  = outcome_of L rows).
  { rewrite judge_filter, Hj; [done|]. intros c Hc Hin%dec_stable o.
    destruct (Hhold _ Hin) as [?%not_elem_of_nil|(c' & Hc' & Hs & Hk)]; [done|].
    assert (c' = c) as -> by by eapply distinct_claims. unfold judge. rewrite Hk.
    by rewrite bool_decide_eq_true_2. }
  destruct (Nat.eqb_spec (length (remove_dups claimed)) (length (omap claim_of rows))) as [Hl|_]; [|by rewrite Hskip].
  rewrite <- Hskip, filter_none; [done|]. intros c Hc Hn. apply Hn.
  destruct Hall as [Hle Hall]. simpl in *. apply Hall; [|right; by apply list_elem_of_fmap_2].
  assert (length (remove_dups claimed) <= length claimed)%nat; [|lia].
  apply submseteq_length, NoDup_submseteq; [apply NoDup_remove_dups|]. intros x. by rewrite elem_of_remove_dups.
Qed.

Lemma outcome_duplicates (l : Ledger) (rows : list Row) d :
  d ∈ duplicates (outcome_of l rows) <->
  exists r original, r ∈ rows /\ verdict l r = Repeats original /\ d = (r_server_id r, original).
Proof.
  induction rows as [|r rows IH] using rev_ind; [split; [by intros ?%not_elem_of_nil|by intros (? & ? & ?%not_elem_of_nil & _)]|].
  unfold outcome_of. rewrite foldl_app. fold (outcome_of l rows). simpl. rewrite elem_of_app, IH.
  unfold verdict_outcome. setoid_rewrite elem_of_app. setoid_rewrite list_elem_of_singleton. split.
  - intros [(r' & o & Hr & H)|H]; [eauto 6|]. destruct (verdict l r) as [| |o] eqn:E; simpl in H;
      [by apply not_elem_of_nil in H..|]. apply list_elem_of_singleton in H as ->. eauto 6.
  - intros (r' & o & [Hr|Hr] & Hv & ->); [left; eauto 6|right]. subst r'. rewrite Hv. simpl. by apply list_elem_of_singleton.
Qed.

Lemma is_duplicate_spec (l : Ledger) (rows : list Row) r :
  NoDup (r_server_id <$> rows) -> r ∈ rows -> is_duplicate (outcome_of l rows) (r_server_id r) = repeats_of l r.
Proof.
  intros Hnd Hr. unfold is_duplicate, repeats_of. destruct (verdict l r) as [| |o] eqn:E.
  3: { apply bool_decide_eq_true_2. apply Exists_exists. exists (r_server_id r, o). split; [|done].
    apply outcome_duplicates. eauto. }
  all: apply bool_decide_eq_false_2; rewrite Exists_exists; intros (d & Hd & Hs);
    apply outcome_duplicates in Hd as (r' & o & Hr' & Hv & ->); simpl in Hs;
    assert (r' = r) as -> by (by eapply same_message); congruence.
Qed.

(** ** The transaction in closed form *)

Abbreviation Writes := (gmap (string * string) (string * Z * bool)).

Definition put_write (archived : bool) (w : Writes) (r : Row) : Writes :=
  <[w_key r := (r_conversation_id r, r_seq r, archived)]> w.

Definition unwritten (w : Writes) (rows : list Row) : list Row := filter (fun r => w !! w_key r = None) rows.

Definition new_rows (l : Ledger) (w : Writes) (rows : list Row) : list Row :=
  unwritten w (filter (fun r => repeats_of l r = false) rows).

Definition batch_spec (rows : list Row) (s : Tables) : ArchiveOutcome * Tables :=
  let l := foldl claim_row (ledger s) rows in
  let new := new_rows l (write_ledger s) rows in
  (outcome_of l rows,
   mkTables l (foldl (put_write true) (write_ledger s) new) (foldl insert_message (messages s) new)).

Lemma unwritten_put (a : bool) (w : Writes) (r : Row) (rows : list Row) :
  w_key r ∉ w_key <$> rows -> unwritten (put_write a w r) rows = unwritten w rows.
Proof.
  intros Hr. apply filter_ext_in. intros x Hx. unfold put_write.
  rewrite lookup_insert_ne; [done|]. intros E. apply Hr. rewrite E. by apply list_elem_of_fmap_2.
Qed.

Lemma insert_writes (rows : list Row) (w : Writes) (out : list (string * string)) :
  NoDup (w_key <$> rows) ->
  foldl insert_write (w, out) rows = (foldl (put_write false) w (unwritten w rows), out ++ (w_key <$> unwritten w rows)).
Proof.
  revert w out. induction rows as [|r rows IH]; intros w out Hnd; [by rewrite app_nil_r|].
  rewrite fmap_cons in Hnd. apply NoDup_cons in Hnd as [Hr Hnd]. cbn [foldl]. unfold insert_write at 2. cbn [fst snd].
  destruct (w !! w_key r) eqn:E.
  - rewrite IH by done. unfold unwritten. rewrite filter_cons_False by (by rewrite E). done.
  - rewrite IH by done. fold (put_write false w r). rewrite unwritten_put by done.
    assert (Hu : unwritten w (r :: rows) = r :: unwritten w rows).
    { unfold unwritten. by rewrite filter_cons_True by done. }
    rewrite Hu. simpl. by rewrite <- app_assoc.
Qed.

Lemma mark_other (a : bool) (w : Writes) (r : Row) (rows : list Row) :
  w_key r ∉ w_key <$> rows ->
  mark_archived (foldl (put_write a) w rows) r = foldl (put_write a) (mark_archived w r) rows.
Proof.
  revert w. induction rows as [|x rows IH]; intros w Hr; [done|]. rewrite fmap_cons, not_elem_of_cons in Hr.
  destruct Hr as [Hx Hr]. simpl. rewrite IH by done. f_equal. unfold mark_archived, put_write.
  by rewrite alter_insert_ne by done.
Qed.

Lemma mark_written (w : Writes) (rows : list Row) :
  NoDup (w_key <$> rows) -> foldl mark_archived (foldl (put_write false) w rows) rows = foldl (put_write true) w rows.
Proof.
  revert w. induction rows as [|r rows IH]; intros w Hnd; [done|]. rewrite fmap_cons in Hnd.
  apply NoDup_cons in Hnd as [Hr Hnd]. simpl. rewrite mark_other by done.
  assert (E : mark_archived (put_write false w r) r = put_write true w r).
  { unfold mark_archived, put_write. by rewrite alter_insert_eq. }
  rewrite E. by apply IH.
Qed.

Lemma NoDup_w_key (rows : list Row) : NoDup (r_server_id <$> rows) -> NoDup (w_key <$> rows).
Proof.
  intros H. apply (NoDup_fmap_1 snd). by rewrite <- list_fmap_compose.
Qed.

Lemma NoDup_filter_key (P : Row -> Prop) `{!forall r, Decision (P r)} (rows : list Row) :
  NoDup (w_key <$> rows) -> NoDup (w_key <$> filter P rows).
Proof. intros Hk. eapply sublist_NoDup; [exact Hk|apply fmap_sublist, sublist_filter]. Qed.

Lemma batch_tx_spec (rows : list Row) (s : Tables) :
  NoDup (r_server_id <$> rows) -> batch_tx rows s = batch_spec rows s.
Proof.
  intros Hnd. unfold batch_tx, batch_spec. rewrite claim_send_spec by done. cbv zeta.
  set (l := foldl claim_row (ledger s) rows).
  assert (Hc : filter (fun r => is_duplicate (outcome_of l rows) (r_server_id r) = false) rows
               = filter (fun r => repeats_of l r = false) rows).
  { apply filter_ext_in. intros r Hr. by rewrite is_duplicate_spec. }
  rewrite Hc. unfold new_rows. set (cands := filter _ rows).
  assert (Hk : NoDup (w_key <$> cands)) by (by apply NoDup_filter_key, NoDup_w_key).
  case_bool_decide as E; [by rewrite E|]. rewrite insert_writes by done. rewrite app_nil_l.
  set (new := unwritten (write_ledger s) cands).
  assert (Hf : filter (fun r => w_key r ∈ w_key <$> new) cands = new).
  { unfold new, unwritten. apply filter_ext_in. intros r Hr.
    rewrite list_elem_of_fmap. split.
    - intros (x & Ex & Hx). apply list_elem_of_filter in Hx as [Hx _]. by rewrite Ex.
    - intros Hw. exists r. split; [done|]. by apply list_elem_of_filter. }
  rewrite Hf, mark_written by (by apply NoDup_filter_key).
  case_bool_decide as En; [|done]. apply fmap_nil_inv in En. by rewrite En.
Qed.

Lemma archive_one_spec (r : Row) (s : Tables) : archive_one_tx r s = batch_spec [r] s.
Proof.
  assert (Hnd : NoDup (r_server_id <$> [r])) by apply NoDup_singleton.
  unfold archive_one_tx. assert (E : option_list (claim_of r) = omap claim_of [r]) by by destruct (claim_of r) eqn:E; simpl; rewrite E.
  rewrite E, claim_send_spec by done. clear E. rewrite is_duplicate_spec by (done || by left).
  unfold batch_spec, new_rows, unwritten. simpl. rewrite filter_cons. destruct (repeats_of _ r) eqn:Er.
  - rewrite decide_False by done. done.
  - rewrite decide_True by done. rewrite filter_cons. destruct (write_ledger s !! w_key r) eqn:Ew.
    + rewrite decide_False by done. done.
    + rewrite decide_True by done. simpl. unfold mark_archived, put_write. by rewrite alter_insert_eq.
Qed.

(** ** Batches after each other *)

Lemma outcome_of_app (l : Ledger) (a b : list Row) : outcome_of l (a ++ b) = merge (outcome_of l a) (outcome_of l b).
Proof. unfold outcome_of at 1. by rewrite foldl_app, outcome_of_from. Qed.

Lemma outcome_of_stable (l l' : Ledger) (rows : list Row) :
  l ⊆ l' -> (forall r, r ∈ rows -> claimed_in l r) -> outcome_of l' rows = outcome_of l rows.
Proof.
  intros Hl. induction rows as [|r rows IH] using rev_ind; intros Hc; [done|].
  rewrite !outcome_of_app, IH by set_solver. f_equal. unfold outcome_of, verdict_outcome. simpl.
  by rewrite (verdict_stable l l' r) by set_solver.
Qed.

Lemma repeats_stable (l l' : Ledger) (r : Row) : l ⊆ l' -> claimed_in l r -> repeats_of l' r = repeats_of l r.
Proof. intros Hl Hc. unfold repeats_of. by rewrite (verdict_stable l l' r). Qed.

Lemma lookup_put_writes (a : bool) (w : Writes) (rows : list Row) (k : string * string) :
  k ∉ w_key <$> rows -> foldl (put_write a) w rows !! k = w !! k.
Proof.
  revert w. induction rows as [|r rows IH]; intros w Hk; [done|]. rewrite fmap_cons, not_elem_of_cons in Hk.
  simpl. rewrite IH by tauto. unfold put_write. rewrite lookup_insert_ne; [done|]. by intros <-; destruct Hk.
Qed.

Lemma new_rows_sub (l : Ledger) (w : Writes) (rows : list Row) (r : Row) :
  r ∈ new_rows l w rows <-> w !! w_key r = None /\ repeats_of l r = false /\ r ∈ rows.
Proof. unfold new_rows, unwritten. by rewrite !list_elem_of_filter. Qed.

Lemma batch_spec_app (a b : list Row) (s : Tables) :
  NoDup (r_server_id <$> a ++ b) ->
  batch_spec (a ++ b) s
  = (merge (batch_spec a s).1 (batch_spec b (batch_spec a s).2).1, (batch_spec b (batch_spec a s).2).2).
Proof.
  intros Hnd%NoDup_w_key. rewrite fmap_app in Hnd. apply NoDup_app in Hnd as (_ & Hdis & _).
  unfold batch_spec. cbn [fst snd ledger write_ledger messages]. rewrite foldl_app.
  set (l1 := foldl claim_row (ledger s) a). set (l := foldl claim_row l1 b).
  assert (Hl : l1 ⊆ l) by apply claim_rows_mono.
  assert (Ha : forall r, r ∈ a -> claimed_in l1 r) by (intros r; apply claim_rows_claim).
  rewrite outcome_of_app, (outcome_of_stable l1 l a) by done.
  assert (Hn : new_rows l (write_ledger s) (a ++ b)
    = new_rows l1 (write_ledger s) a
      ++ new_rows l (foldl (put_write true) (write_ledger s) (new_rows l1 (write_ledger s) a)) b).
  { unfold new_rows at 1. rewrite filter_app. unfold unwritten at 1. rewrite filter_app. f_equal.
    - unfold new_rows, unwritten. f_equal. apply filter_ext_in. intros r Hr. by rewrite (repeats_stable l1 l r Hl (Ha r Hr)).
    - unfold new_rows at 1, unwritten at 1. apply filter_ext_in. intros r [_ Hr]%list_elem_of_filter.
      rewrite lookup_put_writes; [done|]. intros (x & E & Hx)%list_elem_of_fmap.
      apply new_rows_sub in Hx as (_ & _ & Hx). apply (Hdis (w_key x)); [by apply list_elem_of_fmap_2|].
      rewrite <- E. by apply list_elem_of_fmap_2. }
  by rewrite Hn, !foldl_app.
Qed.

(** ** Settled rows *)

Definition settled (s : Tables) (r : Row) : Prop :=
  claimed_in (ledger s) r /\ (repeats_of (ledger s) r = true \/ is_Some (write_ledger s !! w_key r)).

Lemma put_writes_mono (a : bool) (w : Writes) (rows : list Row) (k : string * string) :
  is_Some (w !! k) \/ k ∈ w_key <$> rows -> is_Some (foldl (put_write a) w rows !! k).
Proof.
  revert w. induction rows as [|r rows IH]; intros w Hk; [destruct Hk as [?|?%not_elem_of_nil]; done|]. simpl.
  apply IH. unfold put_write. destruct (decide (w_key r = k)) as [->|Hne].
  - left. by rewrite lookup_insert_eq.
  - rewrite lookup_insert_ne by done. rewrite fmap_cons, elem_of_cons in Hk. destruct Hk as [?|[?|?]]; auto; congruence.
Qed.

Lemma batch_settles (rows : list Row) (s : Tables) r : r ∈ rows -> settled (batch_spec rows s).2 r.
Proof.
  intros Hr. split; simpl; [by apply claim_rows_claim|]. set (l := foldl claim_row _ rows).
  destruct (repeats_of l r) eqn:E; [by left|right]. apply put_writes_mono.
  destruct (write_ledger s !! w_key r) eqn:Ew; [by left; eexists|right]. apply list_elem_of_fmap_2, new_rows_sub. done.
Qed.

Lemma batch_settled (rows : list Row) (s : Tables) :
  (forall r, r ∈ rows -> settled s r) -> batch_spec rows s = (outcome_of (ledger s) rows, s).
Proof.
  intros Hs. unfold batch_spec. rewrite claim_rows_claimed by (intros r Hr; by apply Hs).
  assert (E : new_rows (ledger s) (write_ledger s) rows = []).
  { apply filter_none. intros r [Hn Hr]%list_elem_of_filter. destruct (Hs r Hr) as [_ [H|[x H]]]; congruence. }
  rewrite E. by destruct s.
Qed.

(** Rows that were archived before are found archived. *)
Lemma batch_absorb (a b : list Row) (s : Tables) :
  NoDup (r_server_id <$> a ++ b) -> batch_spec (a ++ b) (batch_spec a s).2 = batch_spec (a ++ b) s.
Proof.
  intros Hnd. rewrite !batch_spec_app by done. rewrite (batch_settled a) by (intros; by apply batch_settles).
  done.
Qed.

Lemma batch_absorb_back (a b : list Row) (s : Tables) :
  (batch_spec a (batch_spec (a ++ b) s).2).2 = (batch_spec (a ++ b) s).2.
Proof. rewrite batch_settled; [done|]. intros r Hr. apply batch_settles. set_solver. Qed.

Lemma batch_nil (s : Tables) : batch_spec [] s = (no_outcome, s).
Proof. by destruct s. Qed.

(** ** Runs *)

Section Runs.
Context (fault : schedule) (retried : nat -> bool).
Context (ctx_tenant : option string) (message_size : @ArchiveMessage body -> Z).

(** A run archives its rows, or fails having archived some first part of them. *)
Definition does (acc : ArchiveOutcome) (rows : list Row) (m : db Tables ArchiveOutcome) : Prop :=
  forall n s,
  match m (n, s) with
  | (Ok o, (_, s')) => (o, s') = (merge acc (batch_spec rows s).1, (batch_spec rows s).2)
  | (Err _, (_, s')) => fault <> calm /\ exists p, p `prefix_of` rows /\ s' = (batch_spec p s).2
  end.

Lemma exec_does rows err :
  NoDup (r_server_id <$> rows) ->
  does no_outcome rows (exec fault err (fun s => let '(o, s') := batch_spec rows s in (Ok o, s'))).
Proof.
  intros Hnd n s. unfold exec. destruct (fault n) eqn:E.
  - destruct (batch_spec rows s) as [o s']. simpl. by rewrite merge_none.
  - split; [intros ->; by unfold calm in E|]. exists []. split; [apply prefix_nil|by rewrite batch_nil].
  - split; [intros ->; by unfold calm in E|]. exists rows. by destruct (batch_spec rows s).
Qed.

Lemma exec_ext {A} err (f g : Tables -> result A * Tables) w :
  (forall s, f s = g s) -> exec fault err f w = exec fault err g w.
Proof. intros H. unfold exec. destruct w as [n s]. by rewrite !H. Qed.

Lemma archive_one_does m r : prepare ctx_tenant m = Ok r -> does no_outcome [r] (archive_one fault ctx_tenant m).
Proof.
  intros Hp n s. unfold archive_one, mbind, stE_bind, lift_r. rewrite Hp.
  rewrite (exec_ext _ _ (fun s => let '(o, s') := batch_spec [r] s in (Ok o, s'))).
  - apply exec_does, NoDup_singleton.
  - intros s0. by rewrite archive_one_spec.
Qed.

Lemma attempt_does tries rows :
  NoDup (r_server_id <$> rows) -> (0 < tries)%nat -> does no_outcome rows (attempt fault retried tries rows).
Proof.
  intros Hnd Ht.
  assert (Hone : forall n s, match attempt fault retried tries rows (n, s) with
    | (Ok o, (_, s')) => (o, s') = batch_spec rows s
    | (Err _, (_, s')) => (fault <> calm \/ tries = O) /\ (s' = s \/ s' = (batch_spec rows s).2) end).
  { clear Ht. induction tries as [|tries IH]; intros n s; [simpl; auto|]. cbn [attempt].
    rewrite (exec_ext _ _ (fun s => let '(o, s') := batch_spec rows s in (Ok o, s'))) by (intros; by rewrite batch_tx_spec).
    pose proof (batch_absorb rows [] s) as Hab. rewrite app_nil_r in Hab. specialize (Hab Hnd).
    unfold exec. destruct (fault n) eqn:E; [by destruct (batch_spec rows s)| |];
      (assert (Hf : fault <> calm) by (intros Hc; rewrite Hc in E; by unfold calm in E));
      (destruct (retried _); [|split; [by left|]; by destruct (batch_spec rows s); auto]).
    - specialize (IH (S n) s). destruct (attempt _ _ tries rows _) as [[o|e] [n' s']]; [done|]. tauto.
    - destruct (batch_spec rows s) as [o s1]. specialize (IH (S n) s1). cbn [fst snd] in *.
      destruct (attempt _ _ tries rows _) as [[o'|e] [n' s']]; [congruence|].
      rewrite Hab in IH. cbn [fst snd] in IH. split; [by left|]. destruct IH as [_ [?|?]]; auto. }
  intros n s. specialize (Hone n s). destruct (attempt _ _ tries rows _) as [[o|e] [n' s']].
  - rewrite merge_none. by rewrite Hone, <- surjective_pairing.
  - destruct Hone as [[Hf|Ho] Hs]; [|lia]. split; [done|]. destruct Hs as [->| ->].
    + exists []. split; [apply prefix_nil|by rewrite batch_nil].
    + by exists rows.
Qed.

Lemma archive_each_does {X} (f : X -> db Tables ArchiveOutcome) (rows_of : X -> list Row) (l : list X) acc :
  (forall x, x ∈ l -> does no_outcome (rows_of x) (f x)) -> NoDup (r_server_id <$> concat (rows_of <$> l)) ->
  does acc (concat (rows_of <$> l)) (archive_each f l acc).
Proof.
  revert acc. induction l as [|x l IH]; intros acc Hf Hnd n s.
  { cbn [archive_each fmap list_fmap concat]. unfold mret, stE_ret. rewrite batch_nil. cbn [fst snd].
    by rewrite merge_none_r. }
  cbn [fmap list_fmap concat] in Hnd. cbn [archive_each fmap list_fmap concat]. unfold mbind, stE_bind.
  pose proof (Hf x ltac:(by left) n s) as Hx. destruct (f x (n, s)) as [[o|e] [n1 s1]].
  - rewrite merge_none in Hx. injection Hx as -> ->.
    assert (Hl : NoDup (r_server_id <$> concat (rows_of <$> l))).
    { rewrite fmap_app in Hnd. by apply NoDup_app in Hnd as (_ & _ & ?). }
    specialize (IH (merge acc (batch_spec (rows_of x) s).1) ltac:(intros; apply Hf; by right) Hl n1 (batch_spec (rows_of x) s).2).
    destruct (archive_each _ _ _ _) as [[o2|e2] [n2 s2]].
    + rewrite batch_spec_app by done. cbn [fst snd]. by rewrite IH, merge_assoc.
    + destruct IH as (Hc & p & Hp & ->). split; [done|]. exists (rows_of x ++ p). split; [by apply prefix_app|].
      rewrite batch_spec_app; [done|]. destruct Hp as [q Hq]. rewrite Hq, app_assoc, fmap_app in Hnd.
      by apply NoDup_app in Hnd as (? & _).
  - destruct Hx as (Hc & p & Hp & ->). split; [done|]. exists p. split; [|done]. by apply prefix_app_r.
Qed.

(** The rows of messages that can be stored. *)
Definition prepared (ms : list (@ArchiveMessage body)) : list Row :=
  omap (fun m => match prepare ctx_tenant m with Ok r => Some r | Err _ => None end) ms.

Definition storable (m : @ArchiveMessage body) : Prop := is_ok (prepare ctx_tenant m) = true.

Lemma prepare_storable m : storable m -> exists r, prepare ctx_tenant m = Ok r /\ r_server_id r = am_server_id m.
Proof.
  unfold storable, prepare. repeat case_bool_decide; try done. destruct (resolve_tenant_id _ _ _); [|done].
  intros _. by eexists.
Qed.

Lemma prepared_cons m ms r : prepare ctx_tenant m = Ok r -> prepared (m :: ms) = r :: prepared ms.
Proof. intros H. unfold prepared. simpl. by rewrite H. Qed.

Lemma mapM_prepared ms : Forall storable ms -> mapM (prepare ctx_tenant) ms = Ok (prepared ms).
Proof.
  induction 1 as [|m ms Hm _ IH]; [done|]. destruct (prepare_storable m Hm) as (r & Hr & _).
  rewrite (prepared_cons m ms r Hr). cbn [mapM]. by rewrite Hr, IH.
Qed.

Lemma prepared_ids ms : Forall storable ms -> r_server_id <$> prepared ms = am_server_id <$> ms.
Proof.
  induction 1 as [|m ms Hm _ IH]; [done|]. destruct (prepare_storable m Hm) as (r & Hr & Hid).
  rewrite (prepared_cons m ms r Hr), !fmap_cons. by rewrite IH, Hid.
Qed.

Lemma prepared_concat (cs : list (list (@ArchiveMessage body))) : concat (prepared <$> cs) = prepared (concat cs).
Proof.
  induction cs as [|c cs IH]; [done|]. cbn [fmap list_fmap concat]. rewrite IH. unfold prepared. by rewrite omap_app.
Qed.

Lemma prepared_each ms : concat ((fun m => prepared [m]) <$> ms) = prepared ms.
Proof.
  induction ms as [|m ms IH]; [done|]. cbn [fmap list_fmap concat]. rewrite IH.
  change (m :: ms) with ([m] ++ ms). unfold prepared. by rewrite omap_app.
Qed.

Lemma one_by_one_does ms :
  Forall storable ms -> NoDup (am_server_id <$> ms) ->
  does no_outcome (prepared ms) (archive_each (archive_one fault ctx_tenant) ms no_outcome).
Proof.
  intros Hok Hnd. rewrite <- prepared_each. apply archive_each_does.
  - intros m Hm. rewrite Forall_forall in Hok. destruct (prepare_storable m (Hok m Hm)) as (r & Hr & _).
    rewrite (prepared_cons m [] r Hr). by apply archive_one_does.
  - rewrite prepared_each. by rewrite prepared_ids.
Qed.

Lemma batch_does ms :
  Forall storable ms -> NoDup (am_server_id <$> ms) ->
  does no_outcome (prepared ms) (store_archive_batch_values fault retried ctx_tenant ms).
Proof.
  intros Hok Hnd n s. unfold store_archive_batch_values, mbind, stE_bind, lift_r. rewrite mapM_prepared by done.
  apply attempt_does; [by rewrite prepared_ids|lia].
Qed.

Lemma archive_messages_does ms :
  Forall storable ms -> NoDup (am_server_id <$> ms) ->
  does no_outcome (prepared ms) (archive_messages fault retried ctx_tenant message_size ms).
Proof.
  intros Hok Hnd. unfold archive_messages. case_bool_decide as E.
  { subst. intros n s. unfold prepared. cbn [omap list_omap]. by rewrite batch_nil. }
  destruct (Nat.leb (length ms) 10); [by apply one_by_one_does|].
  set (size := optimal_batch_size message_size ms). destruct (Nat.ltb size (length ms)); [|by apply batch_does].
  assert (Hc : concat (chunks size ms) = ms).
  { apply concat_chunks. unfold size, optimal_batch_size. repeat case_bool_decide; lia. }
  rewrite <- Hc at 1. rewrite <- prepared_concat. apply archive_each_does.
  - intros c Hin. apply batch_does; [|apply (NoDup_concat _ (chunks size ms)); [by rewrite Hc|done]].
    apply Forall_forall. intros m Hm. rewrite Forall_forall in Hok. apply Hok. rewrite <- Hc.
    apply list_elem_of_In, in_concat. exists c. split; by apply list_elem_of_In.
  - by rewrite prepared_concat, Hc, prepared_ids.
Qed.

End Runs.

(** ** Batches and single writes *)

(** C20. However many messages arrive together and however they are split into transactions, if no
    statement fails, every message can be stored and no two have the same server id,
    archiving them succeeds, leaves the tables and reports the duplicates that archiving them one
    after the other would: the messages of the same send, also within the batch, are recognized
    alike. *)
Theorem batches_store_what_single_writes_store retried ctx_tenant message_size ms n s :
  Forall (storable ctx_tenant) ms -> NoDup (am_server_id <$> ms) ->
  let batch := archive_messages calm retried ctx_tenant message_size ms (n, s) in
  let single := archive_each (archive_one calm ctx_tenant) ms no_outcome (n, s) in
  is_ok batch.1 = true /\ batch.1 = single.1 /\ batch.2.2 = single.2.2.
Proof.
  intros Hok Hnd.
  pose proof (archive_messages_does calm retried ctx_tenant message_size ms Hok Hnd n s) as Hb.
  pose proof (one_by_one_does calm ctx_tenant ms Hok Hnd n s) as Hs. cbv zeta.
  destruct (archive_messages _ _ _ _ _ _) as [[o|e] [nb sb]]; [|by destruct Hb].
  destruct (archive_each _ _ _ _) as [[o'|e'] [ns s1]]; [|by destruct Hs]. cbn [fst snd].
  rewrite <- Hs in Hb. by injection Hb as -> ->.
Qed.

(** ** Redelivery *)

Lemma prefix_absorb (p rows : list Row) (s : Tables) :
  NoDup (r_server_id <$> rows) -> p `prefix_of` rows -> batch_spec rows (batch_spec p s).2 = batch_spec rows s.
Proof. intros Hnd [q ->]. by apply batch_absorb. Qed.

Lemma prefix_again (p q rows : list Row) (s : Tables) :
  NoDup (r_server_id <$> rows) -> p `prefix_of` rows -> q `prefix_of` rows ->
  exists x, x `prefix_of` rows /\ (batch_spec q (batch_spec p s).2).2 = (batch_spec x s).2.
Proof.
  intros Hnd Hp Hq. destruct (prefix_weak_total p q rows Hp Hq) as [[x ->]|[x ->]].
  - exists (p ++ x). split; [done|]. rewrite batch_absorb; [done|]. destruct Hq as [y ->].
    rewrite fmap_app in Hnd. by apply NoDup_app in Hnd as (? & _).
  - exists (q ++ x). split; [done|]. apply batch_absorb_back.
Qed.

(** Messages whose delivery is repeated, after attempts in which any transactions failed or
    committed without an answer, are archived exactly once: an attempt that succeeds leaves the
    tables of one undisturbed delivery and reports the same duplicates, and an undisturbed attempt
    succeeds. *)
Theorem redelivered_messages_are_archived_once ctx_tenant message_size ms s
    (attempts : list (schedule * (nat -> bool))) last retried :
  Forall (storable ctx_tenant) ms -> NoDup (am_server_id <$> ms) ->
  let archive f retried s := archive_messages f retried ctx_tenant message_size ms (O, s) in
  let s1 := foldl (fun s a => (archive a.1 a.2 s).2.2) s attempts in
  (is_ok (archive last retried s1).1 = true ->
     (archive last retried s1).1 = (archive calm retried s).1
     /\ (archive last retried s1).2.2 = (archive calm retried s).2.2)
  /\ (last = calm -> is_ok (archive last retried s1).1 = true).
Proof.
  intros Hok Hnd archive s1. set (rows := prepared ctx_tenant ms).
  assert (Hids : NoDup (r_server_id <$> rows)) by (unfold rows; by rewrite prepared_ids).
  assert (Hdo : forall f rt, does f no_outcome rows (archive_messages f rt ctx_tenant message_size ms))
    by (intros; by apply archive_messages_does).
  assert (Hs1 : exists p, p `prefix_of` rows /\ s1 = (batch_spec p s).2).
  { unfold s1. clear s1. induction attempts as [|[f rt] l IH] using rev_ind.
    - exists []. split; [apply prefix_nil|by rewrite batch_nil].
    - rewrite foldl_app. destruct IH as (p & Hp & E). simpl. rewrite E. specialize (Hdo f rt O (batch_spec p s).2).
      unfold archive. destruct (archive_messages _ _ _ _ _ _) as [[o|e] [n' s']]; cbn [snd].
      + rewrite merge_none in Hdo. injection Hdo as _ ->. by apply prefix_again.
      + destruct Hdo as (_ & q & Hq & ->). by apply prefix_again. }
  destruct Hs1 as (p & Hp & ->). pose proof (Hdo last retried O (batch_spec p s).2) as Hl.
  pose proof (Hdo calm retried O s) as Hc. unfold archive.
  destruct (archive_messages last _ _ _ _ _) as [[o|e] [n1 s1]]; cbn [fst snd].
  - destruct (archive_messages calm _ _ _ _ _) as [[o'|e'] [n2 s2]]; [|by destruct Hc]. cbn [fst snd].
    rewrite prefix_absorb, <- Hc in Hl by done. injection Hl as -> ->. done.
  - destruct Hl as [Hf _]. split; [done|]. intros ->. done.
Qed.

(** ** One message per send *)

(** The ledger answers for every stored message of a send: its key is taken, and by the message
    itself when the holder is in the same conversation. *)
Definition accounted (s : Tables) : Prop :=
  forall k r c, messages s !! k = Some r -> claim_of r = Some c ->
    exists conversation server_id, ledger s !! c_key c = Some (conversation, server_id)
    /\ (conversation = c_conversation c -> server_id = c_server_id c).

Lemma lookup_insert_messages (m : gmap (string * string * Z) Row) (rows : list Row) k r :
  foldl insert_message m rows !! k = Some r -> m !! k = Some r \/ r ∈ rows.
Proof.
  revert m. induction rows as [|x rows IH]; intros m H; [by left|]. simpl in H. apply IH in H as [H|H]; [|right; by right].
  unfold insert_message in H. destruct (m !! m_key x); [by left|]. apply lookup_insert_Some in H as [[_ ->]|[_ H]]; [right; by left|by left].
Qed.

Lemma accounted_batch (rows : list Row) (s : Tables) : accounted s -> accounted (batch_spec rows s).2.
Proof.
  intros Ha k r c Hr Hc. simpl in *. set (l := foldl claim_row (ledger s) rows) in *.
  apply lookup_insert_messages in Hr as [Hr|Hr].
  - destruct (Ha k r c Hr Hc) as (conv & sid & Hl & H). exists conv, sid. split; [|done].
    eapply lookup_weaken; [exact Hl|apply claim_rows_mono].
  - apply new_rows_sub in Hr as (_ & Hd & Hr). destruct (claim_rows_claim (ledger s) rows r Hr c Hc) as [[conv sid] Hl].
    fold l in Hl. exists conv, sid. split; [done|]. intros ->. unfold repeats_of, verdict in Hd. rewrite Hc, Hl in Hd.
    case_bool_decide as E; [done|]. rewrite bool_decide_eq_false_2 in Hd; [done|]. by intros H.
Qed.

Definition accounting (a b : Tables) : Prop := accounted a -> accounted b.

#[local] Instance accounting_preorder : PreOrder accounting.
Proof. split; [by intros a H|]. intros a b c H1 H2 H. by apply H2, H1. Qed.

Lemma archive_one_accounts fault ctx_tenant m : keeps accounting (archive_one fault ctx_tenant m).
Proof.
  unfold archive_one. keep_step; [keep_step|]. keep_step. rewrite archive_one_spec.
  pose proof (accounted_batch [a] s) as H. by destruct (batch_spec [a] s).
Qed.

Lemma attempt_accounts fault retried tries rows :
  NoDup (r_server_id <$> rows) -> keeps accounting (attempt fault retried tries rows).
Proof.
  intros Hnd. induction tries as [|tries IH]; [cbn [attempt]; keep_step|]. intros n s. cbn [attempt].
  rewrite (exec_ext fault _ _ (fun s => let '(o, s') := batch_spec rows s in (Ok o, s'))) by (intros; by rewrite batch_tx_spec).
  assert (Hx : keeps accounting (exec fault (flare_err InternalError "batch transaction failed")
                 (fun s => let '(o, s') := batch_spec rows s in (Ok o, s')))).
  { keep_step. pose proof (accounted_batch rows s0) as H. by destruct (batch_spec rows s0). }
  specialize (Hx n s). destruct (exec _ _ _ _) as [[o|e] [n1 s1]]; [done|].
  destruct (retried _); [|done]. etrans; [exact Hx|apply IH].
Qed.

Lemma mapM_ids ctx_tenant (ms : list (@ArchiveMessage body)) rows :
  mapM (prepare ctx_tenant) ms = Ok rows -> r_server_id <$> rows = am_server_id <$> ms.
Proof.
  revert rows. induction ms as [|m ms IH]; intros rows; cbn [mapM]; [by intros [= <-]|].
  destruct (prepare ctx_tenant m) as [r|] eqn:Er; [|done]. destruct (mapM _ ms) as [l|]; [|done]. intros [= <-].
  rewrite !fmap_cons, (IH l) by done. f_equal.
  destruct (prepare_storable ctx_tenant m) as (r' & Hr' & Hid); [unfold storable; by rewrite Er|]. congruence.
Qed.

Lemma batch_accounts fault retried ctx_tenant ms :
  NoDup (am_server_id <$> ms) -> keeps accounting (store_archive_batch_values fault retried ctx_tenant ms).
Proof.
  intros Hnd n s. unfold store_archive_batch_values, mbind, stE_bind, lift_r.
  destruct (mapM _ ms) as [rows|e] eqn:E; [|done]. apply attempt_accounts. by rewrite (mapM_ids _ _ _ E).
Qed.

Lemma each_accounts {X} (f : X -> db Tables ArchiveOutcome) (l : list X) acc :
  (forall x, x ∈ l -> keeps accounting (f x)) -> keeps accounting (archive_each f l acc).
Proof.
  revert acc. induction l as [|x l IH]; intros acc Hf; cbn [archive_each]; [keep_step|].
  keep_step; [apply Hf; by left|apply IH; intros; apply Hf; by right].
Qed.

Lemma archive_accounts fault retried ctx_tenant message_size ms :
  NoDup (am_server_id <$> ms) -> keeps accounting (archive_messages fault retried ctx_tenant message_size ms).
Proof.
  intros Hnd. unfold archive_messages. case_bool_decide; [keep_step|]. keep_step.
  - apply each_accounts. intros. apply archive_one_accounts.
  - set (size := optimal_batch_size message_size ms). keep_step; [|by apply batch_accounts].
    apply each_accounts. intros c Hc. apply batch_accounts.
    apply (NoDup_concat _ (chunks size ms)); [|done]. rewrite concat_chunks; [done|].
    unfold size, optimal_batch_size. repeat case_bool_decide; lia.
Qed.

(** A call of the archive, with what goes wrong in it. *)
Record Call := mkCall {
  call_fault : schedule;
  call_retried : nat -> bool;
  call_tenant : option string;
  call_messages : list (@ArchiveMessage body);
}.

(** C5. Of the messages a sender submits under one client id in one conversation, one is stored: in
    all tables that any calls with any failures build from empty ones, two stored messages with
    the same tenant, sender and client id, in the conversation of the first to arrive, are the
    same message. *)
Theorem one_message_per_send message_size (calls : list Call) a b c c' conversation holder ka kb :
  Forall (fun x => NoDup (am_server_id <$> call_messages x)) calls ->
  let s := foldl (fun s x => (archive_messages (call_fault x) (call_retried x) (call_tenant x) message_size
                                (call_messages x) (O, s)).2.2) (mkTables ∅ ∅ ∅) calls in
  messages s !! ka = Some a -> messages s !! kb = Some b ->
  claim_of a = Some c -> claim_of b = Some c' -> c_key c = c_key c' ->
  ledger s !! c_key c = Some (conversation, holder) ->
  r_conversation_id a = conversation -> r_conversation_id b = conversation -> r_server_id a = r_server_id b.
Proof.
  intros Hnd s Ha Hb Hc Hc' Hk Hl Hca Hcb.
  assert (Hacc : accounted s).
  { assert (H0 : accounted (@mkTables body ∅ ∅ ∅)) by (intros k r x Hr; simpl in Hr; by rewrite lookup_empty in Hr).
    revert H0. unfold s. generalize (@mkTables body ∅ ∅ ∅). clear -Hnd.
    induction Hnd as [|x l Hx _ IH]; intros s0 H0; [done|]. simpl. apply IH. by apply archive_accounts. }
  assert (Hown : forall k r x, messages s !! k = Some r -> claim_of r = Some x -> c_key x = c_key c ->
    r_conversation_id r = conversation -> r_server_id r = holder).
  { intros k r x Hr Hx Hkey Hconv. destruct (Hacc k r x Hr Hx) as (conv & sid & Hs & H). rewrite Hkey, Hl in Hs.
    injection Hs as <- <-. rewrite <- (claim_server r x Hx). symmetry. apply H. rewrite <- Hconv.
    unfold claim_of in Hx. destruct (r_client_msg_id r); [|done]. destruct (Str.is_blank _); [done|]. by simplify_eq. }
  rewrite (Hown ka a c), (Hown kb b c'); done.
Qed.

End Once.

(** ** Examples *)

Module Post.

Definition post (id client : string) (seq : Z) : @ArchiveMessage unit :=
  mkArchiveMessage id "g" client "ann" seq 100 None tt.
Definition empty_tables : @Tables unit := mkTables ∅ ∅ ∅.
(** Eleven messages, the last a second message of the first send. *)
Definition posts : list (@ArchiveMessage unit) :=
  [post "m1" "c1" 1; post "m2" "c2" 2; post "m3" "c3" 3; post "m4" "" 4; post "m5" "" 5; post "m6" "c6" 6;
   post "m7" "c7" 7; post "m8" "c8" 8; post "m9" "c9" 9; post "m10" "c10" 10; post "m11" "c1" 11].
Definition size (_ : @ArchiveMessage unit) : Z := 300.

End Post.
Import Post.

Lemma posts_storable : Forall (storable (Some "t")) posts /\ NoDup (am_server_id <$> posts).
Proof.
  split.
  - repeat constructor.
  - apply (bool_decide_eq_true_1 (NoDup _)). vm_compute. reflexivity.
Defined.

Lemma batches_store_what_single_writes_store_witness :
  let batch := archive_messages calm (fun _ => true) (Some "t") size posts (O, empty_tables) in
  let single := archive_each (archive_one calm (Some "t")) posts no_outcome (O, empty_tables) in
  batch.1 = single.1 /\ batch.2.2 = single.2.2 /\ batch.1 = Ok (mkOutcome [("m11", "m1")] 0).
Proof.
  destruct (batches_store_what_single_writes_store (fun _ => true) (Some "t") size posts O empty_tables) as (_ & H1 & H2);
    [apply posts_storable..|].
  split_and!; [exact H1|exact H2|]. vm_compute. reflexivity.
Defined.

Lemma redelivered_messages_are_archived_once_witness :
  let archive f retried s := archive_messages f retried (Some "t") size posts (O, s) in
  let s1 := foldl (fun s a => (archive a.1 a.2 s).2.2) empty_tables [((fun _ => FailsAfter), (fun _ => false))] in
  (archive calm (fun _ => false) s1).1 = (archive calm (fun _ => false) empty_tables).1
  /\ (archive calm (fun _ => false) s1).2.2 = (archive calm (fun _ => false) empty_tables).2.2.
Proof.
  pose proof (redelivered_messages_are_archived_once (Some "t") size posts empty_tables
    [((fun _ => FailsAfter), (fun _ => false))] calm (fun _ => false) (proj1 posts_storable) (proj2 posts_storable)) as H.
  cbv zeta in H |- *. destruct H as [H1 H2]. exact (H1 (H2 eq_refl)).
Defined.

Lemma one_message_per_send_witness :
  let s := foldl (fun s x => (archive_messages (call_fault x) (call_retried x) (call_tenant x) size
                                (call_messages x) (O, s)).2.2) (mkTables ∅ ∅ ∅)
             [mkCall calm (fun _ => true) (Some "t") posts; mkCall calm (fun _ => true) (Some "t") [post "m1" "c1" 1]] in
  exists a b, messages s !! ("t", "m1", 100) = Some a /\ messages s !! ("t", "m1", 100) = Some b
  /\ claim_of a = Some (mkClaim "t" "ann" "c1" "g" "m1") /\ r_server_id a = r_server_id b.
Proof.
  assert (Hs : exists b, messages (foldl (fun s x => (archive_messages (call_fault x) (call_retried x) (call_tenant x) size
                                (call_messages x) (O, s)).2.2) (mkTables ∅ ∅ ∅)
      [mkCall calm (fun _ => true) (Some "t") posts; mkCall calm (fun _ => true) (Some "t") [post "m1" "c1" 1]])
      !! ("t", "m1", 100) = Some b
    /\ claim_of b = Some (mkClaim "t" "ann" "c1" "g" "m1") /\ r_conversation_id b = "g").
  { eexists. split; [vm_compute; reflexivity|]. vm_compute. auto. }
  destruct Hs as (b & Hb & Hc & Hg). exists b, b. split_and!; [exact Hb|exact Hb|exact Hc|].
  apply (one_message_per_send size
    [mkCall calm (fun _ => true) (Some "t") posts; mkCall calm (fun _ => true) (Some "t") [post "m1" "c1" 1]] b b
    (mkClaim "t" "ann" "c1" "g" "m1") (mkClaim "t" "ann" "c1" "g" "m1") "g" "m1" ("t", "m1", 100) ("t", "m1", 100));
    [|exact Hb|exact Hb|exact Hc|exact Hc|reflexivity|vm_compute; reflexivity|exact Hg|exact Hg].
  constructor; [apply posts_storable|]. constructor; [apply NoDup_singleton|constructor].
Defined.

(** A client id that its sender used in another conversation before protects nothing in this
    one: the ledger keeps pointing at the first message, and the second message of the same send
    here is stored too. *)
Theorem reused_client_id_is_stored_twice :
  let in_ (c : string) m := mkArchiveMessage (am_server_id m) c (am_client_msg_id m) (am_sender_id m)
                              (am_conversation_seq m) (am_created_at m) (am_extra_tenant m) (am_body m) in
  let ms := [in_ "a" (post "m1" "c1" 1); in_ "b" (post "m2" "c1" 1); in_ "b" (post "m3" "c1" 2)] in
  let '(res, (_, s)) := archive_messages calm (fun _ => true) (Some "t") size ms (O, empty_tables) in
  res = Ok (mkOutcome [] 2)
  /\ is_Some (messages s !! ("t", "m2", 100)) /\ is_Some (messages s !! ("t", "m3", 100)).
Proof. vm_compute. split; [done|]. split; by eexists. Qed.
