(* ===== verification/GatewayLease.v ===== *)
(** * Gateway leases and the members of the connection index

    crates/flare-im-service-kit/src/gateway/lease.rs and the tenant index of
    flare-signaling/online/src/domain/repository/mod.rs: the keys the access
    gateways, the online service and the push router share, the length-encoded
    members of the two indexes, and the probe that says whether a gateway can
    still be pushed to. *)

From S2P Require Import Prelude.
From stdpp Require Import base gmap list strings.
From Stdlib Require Import Lia ZArith Ascii.

Local Open Scope Z_scope.

(** ** Keys *)

Definition LEASE_KEY_PREFIX : string := "gw:lease:".
Definition KNOWN_GATEWAYS_KEY : string := "gw:known".
Definition CONNS_KEY_PREFIX : string := "gw:conns:".
Definition ORPHAN_MARKER : string := "#orphan-".

Definition lease_key (gateway_id : string) : string := LEASE_KEY_PREFIX +:+ gateway_id.
Definition conns_key (gateway_id : string) : string := CONNS_KEY_PREFIX +:+ gateway_id.

Definition orphan_gateway_id (gateway_id boot : string) : string :=
  gateway_id +:+ ORPHAN_MARKER +:+ boot.

(** [s.rfind(m).map(|at| &s[..at])] *)
Fixpoint before_last (m s : string) : option string :=
  match s with
  | EmptyString => if Str.is_empty m then Some EmptyString else None
  | String c s' =>
      match before_last m s' with
      | Some p => Some (String c p)
      | None => if Str.starts_with m s then Some EmptyString else None
      end
  end.

Definition base_gateway_id (known_id : string) : string :=
  default known_id (before_last ORPHAN_MARKER known_id).

(** ** Members

    Ids may contain the delimiter, so a member says how many bytes each id has.
    [take_bytes] is [str::get(..n)] together with [str::get(n..)]: it refuses a
    cut past the end or inside a character. *)

Fixpoint cut (n : nat) (s : string) : option (string * string) :=
  match n, s with
  | O, _ => Some (EmptyString, s)
  | S n', String c s' => '(a, b) ← cut n' s'; Some (String c a, b)
  | S _, EmptyString => None
  end.

Definition take_bytes (n : Z) (s : string) : option (string * string) :=
  if (n <=? Z.of_nat (String.length s)) then
    '(a, b) ← cut (Z.to_nat n) s;
    match b with
    | String c _ => if Str.cont c then None else Some (a, b)
    | EmptyString => Some (a, b)
    end
  else None.

Definition len (s : string) : Z := Z.of_nat (String.length s).

Definition tenant_session_member_prefix (user_id : string) : string :=
  "v2:" +:+ Str.of_Z (len user_id) +:+ ":" +:+ user_id +:+ ":".

Definition tenant_session_member (user_id device_id : string) : string :=
  tenant_session_member_prefix user_id +:+ device_id.

(** [{length}:{text}] and the rest behind the next colon. *)
Definition sized (s : string) : option (string * string) :=
  '(length, rest) ← Str.split_once ":"%char s;
  n ← Str.parse_u64 length;
  '(text, rest) ← take_bytes n rest;
  rest ← Str.strip_prefix ":" rest;
  Some (text, rest).

Definition parse_tenant_session_member (member : string) : option (string * string) :=
  rest ← Str.strip_prefix "v2:" member;
  '(user, device) ← sized rest;
  if negb (Str.is_empty user) && negb (Str.is_empty device) then Some (user, device) else None.

Definition connection_member (tenant_id user_id session_field : string) : string :=
  "v1:" +:+ Str.of_Z (len tenant_id) +:+ ":" +:+ tenant_id +:+ ":"
  +:+ Str.of_Z (len user_id) +:+ ":" +:+ user_id +:+ ":" +:+ session_field.

Definition parse_connection_member (member : string) : option (string * string * string) :=
  rest ← Str.strip_prefix "v1:" member;
  '(tenant, rest) ← sized rest;
  '(user, field) ← sized rest;
  if negb (Str.is_empty tenant) && negb (Str.is_empty user) && negb (Str.is_empty field)
  then Some (tenant, user, field) else None.

(** ** Routability *)

Definition gateway_routable (known lease_present : bool) : bool := lease_present || negb known.

(** What a lookup of the lease source answers: [(known, lease_present)], or it fails. *)
Definition LeaseAnswer : Type := option (bool * bool).

Definition PROBE_CACHE_MAX_ENTRIES : nat := 1024.

Notation Cache := (gmap string (bool * Z)).

(** [GatewayLeaseProbe::is_routable] at time [now]; [lookup] is what the source answers. *)
Definition is_routable (cache_ttl : Z) (lookup : string -> LeaseAnswer) (now : Z)
    (gateway_id : string) (cache : Cache) : bool * Cache :=
  if Str.is_empty gateway_id then (true, cache)
  else
    let cached := '(routable, expires_at) ← cache !! gateway_id;
                  if now <? expires_at then Some routable else None in
    match cached with
    | Some routable => (routable, cache)
    | None =>
        let routable := match lookup gateway_id with
                        | Some (known, lease_present) => gateway_routable known lease_present
                        | None => true
                        end in
        let cache := if (PROBE_CACHE_MAX_ENTRIES <=? size cache)%nat
                     then filter (fun e => now < e.2.2) cache else cache in
        (routable, <[gateway_id := (routable, now + cache_ttl)]> cache)
    end.

(** ** Lemmas *)

Lemma cut_app a b : cut (String.length a) (a +:+ b) = Some (a, b).
Proof. induction a as [|c a IH]; [done|]. rewrite Str.app_cons. simpl. by rewrite IH. Qed.

Lemma take_bytes_app a b :
  match b with String c _ => Str.cont c = false | EmptyString => True end ->
  take_bytes (len a) (a +:+ b) = Some (a, b).
Proof.
  intros Hb. unfold take_bytes, len. rewrite (proj2 (Z.leb_le _ _)).
  - rewrite Nat2Z.id, cut_app. simpl. destruct b; [done|]. by rewrite Hb.
  - rewrite Str.app_length. lia.
Qed.

Lemma sized_app a b :
  len a <= u64_max -> sized (Str.of_Z (len a) +:+ ":" +:+ a +:+ ":" +:+ b) = Some (a, b).
Proof.
  intros Ha. assert (H0 : in_u64 (len a)) by (split; [unfold len; lia|done]).
  unfold sized. change (":" +:+ a +:+ ":" +:+ b) with (String ":" (a +:+ ":" +:+ b)).
  rewrite (Str.split_once_app ":"%char (Str.of_Z (len a)) (a +:+ ":" +:+ b)).
  2: { by apply Str.of_Z_no_sep. }
  simpl. rewrite Str.parse_of_Z by done. simpl. by rewrite take_bytes_app.
Qed.

Lemma nonempty_true s : s <> "" -> negb (Str.is_empty s) = true.
Proof. intros H. by rewrite (proj2 (Str.is_empty_false s)). Qed.

Lemma parse_tenant_member user device :
  user <> "" -> device <> "" -> len user <= u64_max ->
  parse_tenant_session_member (tenant_session_member user device) = Some (user, device).
Proof.
  intros Hu Hd Hl. unfold parse_tenant_session_member, tenant_session_member, tenant_session_member_prefix.
  rewrite (proj2 (Str.strip_prefix_app "v2:" _ (Str.of_Z (len user) +:+ ":" +:+ user +:+ ":" +:+ device))).
  - simpl. rewrite sized_app by done. simpl. by rewrite !nonempty_true.
  - by rewrite !Str.app_assoc.
Qed.

Lemma parse_connection tenant user field :
  tenant <> "" -> user <> "" -> field <> "" -> len tenant <= u64_max -> len user <= u64_max ->
  parse_connection_member (connection_member tenant user field) = Some (tenant, user, field).
Proof.
  intros Ht Hu Hf Hlt Hlu. unfold parse_connection_member, connection_member.
  rewrite (proj2 (Str.strip_prefix_app "v1:" _ _) eq_refl). simpl.
  rewrite sized_app by done. simpl. rewrite sized_app by done. simpl. by rewrite !nonempty_true.
Qed.

(** Members of different owners differ, whatever characters the ids have. *)
Lemma sized_inj a1 b1 a2 b2 :
  Str.of_Z (len a1) +:+ ":" +:+ a1 +:+ ":" +:+ b1 = Str.of_Z (len a2) +:+ ":" +:+ a2 +:+ ":" +:+ b2 ->
  a1 = a2 /\ b1 = b2.
Proof.
  intros H.
  assert (Hn : forall z, Str.contains_char ":"%char (Str.of_Z z) = false) by (intros; by apply Str.of_Z_no_sep).
  apply (Str.join_inj ":"%char) in H as [H1 H2]; [|done|done].
  apply Str.of_Z_inj in H1; [|unfold len; lia..].
  assert (Hl : String.length a1 = String.length a2) by (unfold len in H1; lia).
  apply Str.app_length_inj in H2 as [-> H2]; [|done]. split; [done|].
  exact (Str.append_inj_l ":" _ _ H2).
Qed.

Lemma tenant_session_member_inj u1 d1 u2 d2 :
  tenant_session_member u1 d1 = tenant_session_member u2 d2 -> u1 = u2 /\ d1 = d2.
Proof.
  unfold tenant_session_member, tenant_session_member_prefix. rewrite !Str.app_assoc.
  intros H%Str.append_inj_l. by apply sized_inj.
Qed.

Lemma connection_member_inj t1 u1 f1 t2 u2 f2 :
  connection_member t1 u1 f1 = connection_member t2 u2 f2 -> t1 = t2 /\ u1 = u2 /\ f1 = f2.
Proof.
  unfold connection_member. intros H%Str.append_inj_l.
  apply sized_inj in H as [-> H]. apply sized_inj in H as [-> ->]. done.
Qed.

Lemma conns_key_inj g1 g2 : conns_key g1 = conns_key g2 -> g1 = g2.
Proof. apply Str.append_inj_l. Qed.

(** ** Orphans *)

Lemma contains_cons c d s :
  Str.contains_char c (String d s) = false -> d <> c /\ Str.contains_char c s = false.
Proof. simpl. intros [H1 H2]%orb_false_iff. by apply bool_decide_eq_false in H1. Qed.

Lemma before_last_none c m s : Str.contains_char c s = false -> before_last (String c m) s = None.
Proof.
  induction s as [|d s IH]; [done|]. intros [Hd H]%contains_cons. simpl. rewrite IH by done.
  unfold Str.starts_with. simpl. by destruct (ascii_dec c d).
Qed.

Lemma before_last_app m s t :
  before_last m (m +:+ t) = Some "" -> before_last m (s +:+ m +:+ t) = Some s.
Proof. induction s as [|c s IH]; intros H; [done|]. rewrite Str.app_cons. simpl. by rewrite IH. Qed.

Lemma starts_with_app p s : Str.starts_with p (p +:+ s) = true.
Proof.
  unfold Str.starts_with. induction p as [|c p IH]; [by destruct s|]. rewrite Str.app_cons. simpl.
  by destruct (ascii_dec c c).
Qed.

Lemma before_last_marker c m t :
  Str.contains_char c (m +:+ t) = false -> before_last (String c m) (String c m +:+ t) = Some "".
Proof.
  intros H. rewrite Str.app_cons. cbn [before_last]. rewrite before_last_none by done.
  pose proof (starts_with_app (String c m) t) as Hs. rewrite Str.app_cons in Hs. by rewrite Hs.
Qed.

Lemma base_of_orphan gateway_id boot :
  Str.contains_char "#"%char boot = false -> base_gateway_id (orphan_gateway_id gateway_id boot) = gateway_id.
Proof.
  intros H. unfold base_gateway_id, orphan_gateway_id. rewrite before_last_app; [done|].
  apply before_last_marker. rewrite Str.contains_char_app. by rewrite H.
Qed.

(** ** Properties *)

(** Members of the connection index find their session again: parsing what the online
    service wrote gives the tenant, the user and the session field back, for ids with
    colons and any other character, and two sessions never share a member. *)
Theorem connection_members_round_trip tenant user field :
  tenant <> "" -> user <> "" -> field <> "" -> len tenant <= u64_max -> len user <= u64_max ->
  parse_connection_member (connection_member tenant user field) = Some (tenant, user, field) /\
  (forall t u f, connection_member t u f = connection_member tenant user field ->
     t = tenant /\ u = user /\ f = field).
Proof. intros. split; [by apply parse_connection|]. intros. by apply connection_member_inj. Qed.

(** The members of the tenant index find the user and the device again, and an orphaned
    connection set is still attributed to the gateway that left it behind. *)
Theorem index_names_round_trip user device gateway boot :
  user <> "" -> device <> "" -> len user <= u64_max -> Str.contains_char "#"%char boot = false ->
  parse_tenant_session_member (tenant_session_member user device) = Some (user, device) /\
  (forall u d, tenant_session_member u d = tenant_session_member user device -> u = user /\ d = device) /\
  base_gateway_id (orphan_gateway_id gateway boot) = gateway.
Proof.
  intros. split; [by apply parse_tenant_member|]. split; [|by apply base_of_orphan].
  intros. by apply tenant_session_member_inj.
Qed.

Lemma unroutable known lease : gateway_routable known lease = false -> known = true /\ lease = false.
Proof. by destruct known, lease. Qed.

(** A call of the probe: the time, the gateway asked for and what the lease source would
    answer at that time. *)
Definition Call : Type := Z * string * (string -> LeaseAnswer).

(** The cache after a process made the calls [calls]. *)
Definition probe_run (cache_ttl : Z) (calls : list Call) : Cache :=
  foldl (fun cache '(now, g, lookup) => (is_routable cache_ttl lookup now g cache).2) ∅ calls.

Definition saw_dead (c : Call) : Prop := c.2 c.1.2 = Some (true, false).

(** A cached refusal comes from a lookup that found the gateway dead. *)
Definition probe_inv (ttl : Z) (calls : list Call) (cache : Cache) : Prop :=
  forall g e, cache !! g = Some (false, e) ->
    exists t lookup, (t, g, lookup) ∈ calls /\ e = t + ttl /\ saw_dead (t, g, lookup).

Lemma is_routable_false ttl lookup now g cache :
  (is_routable ttl lookup now g cache).1 = false ->
  (exists e, cache !! g = Some (false, e) /\ now < e) \/ lookup g = Some (true, false).
Proof.
  unfold is_routable. destruct (Str.is_empty g); [done|].
  assert (Hl : forall P, (match lookup g with Some (k, l) => gateway_routable k l | None => true end) = false ->
               P \/ lookup g = Some (true, false)).
  { intros P H. right. destruct (lookup g) as [[k l]|]; [|done]. by apply unroutable in H as [-> ->]. }
  destruct (cache !! g) as [[r e]|] eqn:E; simpl; [|apply Hl].
  destruct (now <? e) eqn:Hn; simpl; [|apply Hl].
  intros ->. left. exists e. split; [done|lia].
Qed.

Lemma is_routable_cache ttl lookup now g cache k e :
  (is_routable ttl lookup now g cache).2 !! k = Some (false, e) ->
  cache !! k = Some (false, e) \/ (k = g /\ e = now + ttl /\ lookup g = Some (true, false)).
Proof.
  unfold is_routable. destruct (Str.is_empty g); [by left|].
  destruct (_ ≫= _) as [r|]; cbn [snd]; [by left|].
  destruct (decide (k = g)) as [->|Hk].
  - rewrite lookup_insert_eq. intros [= H <-]. right. split_and!; [done..|].
    destruct (lookup g) as [[k l]|]; [|done]. by apply unroutable in H as [-> ->].
  - rewrite lookup_insert_ne by done. destruct (_ <=? _)%nat; [|by left].
    intros [H _]%map_lookup_filter_Some. by left.
Qed.

Lemma probe_run_inv ttl calls : probe_inv ttl calls (probe_run ttl calls).
Proof.
  induction calls as [|[[now g] lookup] calls IH] using rev_ind; [by intros g e H|].
  unfold probe_run. rewrite foldl_app. simpl. fold (probe_run ttl calls).
  intros k e [H|(-> & -> & H)]%is_routable_cache.
  - destruct (IH k e H) as (t & l & Hin & ? & ?). exists t, l. split; [|done]. apply elem_of_app. by left.
  - exists now, lookup. split; [|done]. apply elem_of_app. right. by apply list_elem_of_singleton.
Qed.

(** The push router gives up on a gateway only on evidence: whatever calls the process made
    before, a gateway is refused only if a lookup within the last [ttl] found it registered
    with its lease gone. A failed lookup, an unregistered gateway or a message without a
    gateway never makes a device offline. *)
Theorem gateways_are_refused_on_fresh_evidence ttl calls now gateway_id lookup :
  (is_routable ttl lookup now gateway_id (probe_run ttl calls)).1 = false ->
  gateway_id <> "" /\
  exists t l, (t, gateway_id, l) ∈ calls ++ [(now, gateway_id, lookup)] /\
    now - Z.max ttl 0 <= t /\ saw_dead (t, gateway_id, l).
Proof.
  intros H. split.
  { intros ->. by vm_compute in H. }
  apply is_routable_false in H as [(e & H & Hn)|H].
  - apply probe_run_inv in H as (t & l & Hin & -> & Hd). exists t, l.
    split; [apply elem_of_app; by left|]. split; [lia|done].
  - exists now, lookup. split; [apply elem_of_app; right; by apply list_elem_of_singleton|].
    split; [lia|done].
Qed.

Lemma connection_members_round_trip_witness :
  parse_connection_member (connection_member "acme" "u:1:" "6f1c-session")
    = Some ("acme", "u:1:", "6f1c-session") /\
  (forall t u f, connection_member t u f = connection_member "acme" "u:1:" "6f1c-session" ->
     t = "acme" /\ u = "u:1:" /\ f = "6f1c-session").
Proof. apply connection_members_round_trip; done. Defined.

Lemma index_names_round_trip_witness :
  parse_tenant_session_member (tenant_session_member "u:1" "d") = Some ("u:1", "d") /\
  (forall u d, tenant_session_member u d = tenant_session_member "u:1" "d" -> u = "u:1" /\ d = "d") /\
  base_gateway_id (orphan_gateway_id "gw-1" "b00t") = "gw-1".
Proof. apply index_names_round_trip; done. Defined.

Lemma gateways_are_refused_on_fresh_evidence_witness :
  "gw-1" <> "" /\
  exists t l, (t, "gw-1", l) ∈ [(1000, "gw-1", fun _ => Some (true, false))] ++ [(1500, "gw-1", fun _ => None)] /\
    1500 - Z.max 2000 0 <= t /\ saw_dead (t, "gw-1", l).
Proof.
  apply (gateways_are_refused_on_fresh_evidence 2000 [(1000, "gw-1", fun _ => Some (true, false))]
           1500 "gw-1" (fun _ => None)).
  vm_compute. reflexivity.
Defined.
