(* ===== verification/Keyspace.v ===== *)
(** * A Redis keyspace of hashes and sets

    The commands the online service runs, on the keys it owns: hashes of session
    records, sets of members, deadlines set by EXPIRE and the clock they are
    measured by. As in Redis a hash or a set that loses its last element is gone
    together with its deadline, EXPIRE on a key that does not exist does nothing, and
    EXPIRE with a time that is not positive deletes the key. *)

From S2P Require Import Prelude.
From stdpp Require Import base gmap list strings.
From Stdlib Require Import Lia ZArith.

Local Open Scope Z_scope.

Section Keyspace.
Context {V : Type}.

Record Keyspace := mkKeyspace {
  hashes : gmap string (gmap string V);
  sets : gmap string (gset string);
  deadlines : gmap string Z;
  clock : Z;
}.

(** HGETALL and SMEMBERS; a key that does not exist is empty. *)
Definition hash (k : string) (s : Keyspace) : gmap string V := default ∅ (hashes s !! k).
Definition smembers (k : string) (s : Keyspace) : gset string := default ∅ (sets s !! k).

Definition hget (k f : string) (s : Keyspace) : option V := hash k s !! f.

Definition exists_key (k : string) (s : Keyspace) : bool :=
  bool_decide (is_Some (hashes s !! k)) || bool_decide (is_Some (sets s !! k)).

Definition del (k : string) (s : Keyspace) : Keyspace :=
  mkKeyspace (delete k (hashes s)) (delete k (sets s)) (delete k (deadlines s)) (clock s).

Definition hset (k f : string) (v : V) (s : Keyspace) : Keyspace :=
  mkKeyspace (<[k := <[f := v]> (hash k s)]> (hashes s)) (sets s) (deadlines s) (clock s).

Definition hdel (k f : string) (s : Keyspace) : Keyspace :=
  let h := delete f (hash k s) in
  if decide (h = ∅) then
    mkKeyspace (delete k (hashes s)) (sets s)
      (if decide (is_Some (hashes s !! k)) then delete k (deadlines s) else deadlines s) (clock s)
  else mkKeyspace (<[k := h]> (hashes s)) (sets s) (deadlines s) (clock s).

Definition sadd (k m : string) (s : Keyspace) : Keyspace :=
  mkKeyspace (hashes s) (<[k := {[ m ]} ∪ smembers k s]> (sets s)) (deadlines s) (clock s).

Definition srem (k m : string) (s : Keyspace) : Keyspace :=
  let l := smembers k s ∖ {[ m ]} in
  if decide (l = ∅) then
    mkKeyspace (hashes s) (delete k (sets s))
      (if decide (is_Some (sets s !! k)) then delete k (deadlines s) else deadlines s) (clock s)
  else mkKeyspace (hashes s) (<[k := l]> (sets s)) (deadlines s) (clock s).

Definition expire (k : string) (seconds : Z) (s : Keyspace) : Keyspace :=
  if exists_key k s then
    if seconds <=? 0 then del k s
    else mkKeyspace (hashes s) (sets s) (<[k := clock s + seconds * 1000]> (deadlines s)) (clock s)
  else s.

(** The key is still there at time [now]. *)
Definition live (s : Keyspace) (now : Z) (k : string) : bool :=
  match deadlines s !! k with Some d => now <=? d | None => true end.

(** Time passes: keys past their deadline are gone. *)
Definition tick (now : Z) (s : Keyspace) : Keyspace :=
  mkKeyspace (filter (fun e => live s now e.1 = true) (hashes s))
    (filter (fun e => live s now e.1 = true) (sets s))
    (filter (fun e => live s now e.1 = true) (deadlines s)) (Z.max (clock s) now).

(** ** Lookups *)

Lemma hash_hset k k' f v s :
  hash k (hset k' f v s) = if decide (k = k') then <[f := v]> (hash k s) else hash k s.
Proof.
  unfold hash at 1, hset. simpl. case_decide; subst; [by rewrite lookup_insert_eq|].
  by rewrite lookup_insert_ne.
Qed.

Lemma hash_hdel k k' f s :
  hash k (hdel k' f s) = if decide (k = k') then delete f (hash k s) else hash k s.
Proof.
  unfold hdel. destruct (decide (k = k')) as [<-|E]; case_decide as E'; unfold hash at 1; simpl.
  - by rewrite lookup_delete_eq, E'.
  - by rewrite lookup_insert_eq.
  - by rewrite lookup_delete_ne.
  - by rewrite lookup_insert_ne.
Qed.

Lemma hash_del k k' s : hash k (del k' s) = if decide (k = k') then ∅ else hash k s.
Proof.
  unfold hash, del. simpl. case_decide; subst; [by rewrite lookup_delete_eq|by rewrite lookup_delete_ne].
Qed.

Lemma hash_sadd k k' m s : hash k (sadd k' m s) = hash k s.
Proof. done. Qed.

Lemma hash_srem k k' m s : hash k (srem k' m s) = hash k s.
Proof. unfold srem. by case_decide. Qed.

Lemma hash_expire k k' n s : 0 < n -> hash k (expire k' n s) = hash k s.
Proof.
  intros H. unfold expire. destruct (exists_key k' s); [|done].
  by rewrite (proj2 (Z.leb_gt n 0)).
Qed.

Lemma smembers_hset k k' f v s : smembers k (hset k' f v s) = smembers k s.
Proof. done. Qed.

Lemma smembers_hdel k k' f s : smembers k (hdel k' f s) = smembers k s.
Proof. unfold hdel. by case_decide. Qed.

Lemma smembers_del k k' s : smembers k (del k' s) = if decide (k = k') then ∅ else smembers k s.
Proof.
  unfold smembers, del. simpl. case_decide; subst; [by rewrite lookup_delete_eq|by rewrite lookup_delete_ne].
Qed.

Lemma smembers_sadd k k' m s :
  smembers k (sadd k' m s) = if decide (k = k') then {[ m ]} ∪ smembers k s else smembers k s.
Proof.
  unfold smembers at 1, sadd. simpl. case_decide; subst; [by rewrite lookup_insert_eq|].
  by rewrite lookup_insert_ne.
Qed.

Lemma smembers_srem k k' m s :
  smembers k (srem k' m s) = if decide (k = k') then smembers k s ∖ {[ m ]} else smembers k s.
Proof.
  unfold srem. destruct (decide (k = k')) as [<-|E]; case_decide as E'; unfold smembers at 1; simpl.
  - by rewrite lookup_delete_eq, E'.
  - by rewrite lookup_insert_eq.
  - by rewrite lookup_delete_ne.
  - by rewrite lookup_insert_ne.
Qed.

Lemma smembers_expire k k' n s : 0 < n -> smembers k (expire k' n s) = smembers k s.
Proof.
  intros H. unfold expire. destruct (exists_key k' s); [|done].
  by rewrite (proj2 (Z.leb_gt n 0)).
Qed.

Lemma hash_tick k now s : hash k (tick now s) = if live s now k then hash k s else ∅.
Proof.
  unfold hash, tick. simpl. rewrite map_lookup_filter. destruct (hashes s !! k) as [h|]; simpl.
  - destruct (live s now k) eqn:E; by rewrite ?option_guard_True, ?option_guard_False by congruence.
  - by destruct (live s now k).
Qed.

Lemma smembers_tick k now s : smembers k (tick now s) = if live s now k then smembers k s else ∅.
Proof.
  unfold smembers, tick. simpl. rewrite map_lookup_filter. destruct (sets s !! k) as [h|]; simpl.
  - destruct (live s now k) eqn:E; by rewrite ?option_guard_True, ?option_guard_False by congruence.
  - by destruct (live s now k).
Qed.

End Keyspace.

Arguments Keyspace : clear implicits.

Create HintDb keyspace.
#[export] Hint Rewrite @hash_hset @hash_hdel @hash_del @hash_sadd @hash_srem
  @smembers_hset @smembers_hdel @smembers_del @smembers_sadd @smembers_srem : keyspace.
