(* ===== verification/OnlineStore.v ===== *)
(** * The session store of the online service

    flare-signaling/online/src/infrastructure/persistence/redis/repository.rs with
    the value objects and the connection aggregate it stores. Sessions are hashes
    [session:{tenant}:{user}], the devices of a tenant a set [tenant:sessions:{tenant}],
    the connections of a gateway a set [gw:conns:{gateway}]. A Lua script and a
    [MULTI] pipeline are one atomic step; a method that reads and then writes is two,
    and other processes run in between. *)

From S2P Require Import Prelude.
From S2P Require Import Database.
From S2P Require Import Keyspace.
From S2P Require Import GatewayLease.
From stdpp Require Import base gmap list strings.
From Stdlib Require Import Lia ZArith.

Local Open Scope Z_scope.

(** [FlareError::system] *)
Definition system (m : string) : FlareError := flare_err InternalError m.

(** ** Value objects *)

Inductive DevicePriority := Unspecified | Low | Normal | High | Critical.

#[export] Instance DevicePriority_eq_dec : EqDecision DevicePriority.
Proof. solve_decision. Defined.

Definition priority_from_i32 (value : Z) : DevicePriority :=
  match value with
  | 0 => Unspecified | 1 => Low | 2 => Normal | 3 => High | 4 => Critical
  | _ => Normal
  end.

Definition priority_as_i32 (p : DevicePriority) : Z :=
  match p with Unspecified => 0 | Low => 1 | Normal => 2 | High => 3 | Critical => 4 end.

(** [TokenVersion::from(i64)]: a negative version is the zero version. *)
Definition token_version_from (version : Z) : Z := if version <? 0 then 0 else version.

(** [TokenVersion::should_kick] *)
Definition should_kick (current old : Z) : bool :=
  if bool_decide (current = 0) || bool_decide (old = 0) then false else old <? current.

(** [UserId::new] and [DeviceId::new] *)
Definition user_id_new (id : string) : result string :=
  if Str.is_empty id then Err (system "UserId cannot be empty")
  else if (128 <? len id) then Err (system "UserId too long (max 128 characters)")
  else Ok id.

Definition device_id_new (id : string) : result string :=
  if Str.is_empty id then Err (system "DeviceId cannot be empty")
  else if (128 <? len id) then Err (system "DeviceId too long (max 128 characters)")
  else Ok id.

(** The connection aggregate; times are milliseconds. The link quality is only kept in
    memory and not stored. *)
Record Connection := mkConnection {
  id : string;
  user_id : string;
  device_id : string;
  tenant_id : string;
  device_platform : string;
  server_id : string;
  gateway_id : string;
  device_priority : DevicePriority;
  token_version : Z;
  created_at : Z;
  last_heartbeat_at : Z;
}.

Record RedisConnectionRecord := mkRecord {
  r_conversation_id : string;
  r_gateway_id : string;
  r_server_id : string;
  r_device_id : string;
  r_device_platform : string;
  r_connection_id : string;
  r_created_at : Z;
  r_last_seen : Z;
  r_device_priority : Z;
  r_token_version : Z;
  r_tenant_id : string;
}.

#[export] Instance RedisConnectionRecord_eq_dec : EqDecision RedisConnectionRecord.
Proof. solve_decision. Defined.

(** A field of a session hash: the JSON of a record, or text that no reader accepts. *)
Inductive Payload := Json (r : RedisConnectionRecord) | Corrupt.

#[export] Instance Payload_eq_dec : EqDecision Payload.
Proof. solve_decision. Defined.

Inductive EvictionCause := Replaced | DeviceConflict | DeviceCap.

#[export] Instance EvictionCause_eq_dec : EqDecision EvictionCause.
Proof. solve_decision. Defined.

Record EvictedConnection := mkEvicted {
  e_conversation_id : string;
  e_device_id : string;
  e_connection_id : string;
  e_cause : EvictionCause;
}.

Definition TENANT_UNAVAILABLE : string := "TENANT_UNAVAILABLE".
Definition DEVICE_KICKED : string := "DEVICE_KICKED".
Definition DEVICE_CONFLICT : string := "DEVICE_CONFLICT".
Definition SESSION_REPLACED : string := "SESSION_REPLACED".

Definition kick_reason (c : EvictionCause) : string :=
  match c with DeviceConflict => DEVICE_CONFLICT | Replaced | DeviceCap => SESSION_REPLACED end.

Inductive DeviceConflictStrategy := StrategyUnspecified | Exclusive | PlatformExclusive | Coexist.

#[export] Instance DeviceConflictStrategy_eq_dec : EqDecision DeviceConflictStrategy.
Proof. solve_decision. Defined.

Record KickSignal := mkKick {
  k_tenant_id : string;
  k_user_id : string;
  k_device_id : option string;
  k_connection_id : option string;
  k_reason : option string;
}.

Record OnlineStatusRecord := mkStatus {
  s_online : bool;
  s_server_id : string;
  s_gateway_id : option string;
  s_cluster_id : option string;
  s_last_seen : option Z;
  s_device_id : option string;
  s_device_platform : option string;
}.

Abbreviation Redis := (Keyspace Payload).

(** The session Redis and the signals published on the kick channel. *)
Record Store := mkStore { redis : Redis; kicks : list KickSignal }.

Definition on_redis (f : Redis -> Redis) (s : Store) : Store := mkStore (f (redis s)) (kicks s).

(** ** Keys *)

Definition connection_key (tenant_id user_id : string) : string :=
  "session:" +:+ tenant_id +:+ ":" +:+ user_id.
Definition tenant_sessions_key (tenant_id : string) : string := "tenant:sessions:" +:+ tenant_id.

(** ** The admission script *)

(** The loop over [HGETALL]: every record must be a session of the tenant, and none the
    physical connection that logs in. *)
Fixpoint records (new : RedisConnectionRecord) (current : list (string * Payload))
    : result (list (string * RedisConnectionRecord)) :=
  match current with
  | [] => Ok []
  | (field, Json rec) :: current' =>
      if bool_decide (r_tenant_id rec <> r_tenant_id new) || Str.is_empty (r_connection_id rec)
         || Str.is_empty (r_device_id rec)
      then Err (system "invalid existing tenant session")
      else if bool_decide (r_connection_id rec = r_connection_id new)
      then Err (system "physical connection already admitted")
      else l ← records new current'; Ok ((field, rec) :: l)
  | (_, Corrupt) :: _ => Err (system "invalid existing tenant session")
  end.

(** [devices]: when each device logged in first. *)
Definition note_device (devices : gmap string Z) (item : string * RedisConnectionRecord) : gmap string Z :=
  let rec := item.2 in
  match devices !! r_device_id rec with
  | None => <[r_device_id rec := r_created_at rec]> devices
  | Some at_ => if r_created_at rec <? at_ then <[r_device_id rec := r_created_at rec]> devices else devices
  end.

Definition devices_of (l : list (string * RedisConnectionRecord)) : gmap string Z :=
  foldl note_device ∅ l.

Abbreviation Removed := (gmap string EvictionCause).

(** The rule of the conflict strategy for one record. *)
Definition conflict (strategy : DeviceConflictStrategy) (new rec : RedisConnectionRecord) : option EvictionCause :=
  if bool_decide (r_device_id rec = r_device_id new) then Some Replaced
  else if bool_decide (strategy = Exclusive)
          || (bool_decide (strategy = PlatformExclusive)
              && bool_decide (r_device_platform rec = r_device_platform new))
  then Some DeviceConflict
  else None.

Definition note_conflict (strategy : DeviceConflictStrategy) (new : RedisConnectionRecord)
    (removed : Removed) (item : string * RedisConnectionRecord) : Removed :=
  match conflict strategy new item.2 with
  | Some cause => <[r_device_id item.2 := cause]> removed
  | None => removed
  end.

(** [entry.created_at < oldest_at or (== and device < oldest_device)] *)
Definition older (a b : string * Z) : bool :=
  (a.2 <? b.2) || (bool_decide (a.2 = b.2) && negb (String.leb b.1 a.1)).

Definition take_older (best : option (string * Z)) (d : string * Z) : option (string * Z) :=
  match best with
  | None => Some d
  | Some b => if older d b then Some d else best
  end.

(** Devices that stay so far. *)
Definition staying (devices : gmap string Z) (removed : Removed) : list (string * Z) :=
  filter (fun d => removed !! d.1 = None) (map_to_list devices).

Definition oldest (devices : gmap string Z) (removed : Removed) : option (string * Z) :=
  foldl take_older None (staying devices removed).

(** [while remaining >= cap do .. end] *)
Fixpoint cap_loop (cap : Z) (devices : gmap string Z) (remaining : nat) (removed : Removed) : Removed :=
  if cap <=? Z.of_nat remaining then
    match oldest devices removed with
    | None => removed
    | Some (device, _) =>
        match remaining with
        | S remaining' => cap_loop cap devices remaining' (<[device := DeviceCap]> removed)
        | O => removed
        end
    end
  else removed.

(** [removed_devices] after both rules. *)
Definition removed_devices (strategy : DeviceConflictStrategy) (cap : Z) (new : RedisConnectionRecord)
    (l : list (string * RedisConnectionRecord)) : Removed :=
  let removed := foldl (note_conflict strategy new) ∅ l in
  let devices := devices_of l in
  if 0 <? cap then cap_loop cap devices (length (staying devices removed)) removed else removed.

Definition gone (removed : Removed) (item : string * RedisConnectionRecord) : bool :=
  bool_decide (is_Some (removed !! r_device_id item.2)).

(** The gateways of evicted records whose connection set was not declared. *)
Definition undeclared (declared : list string) (removed : Removed)
    (l : list (string * RedisConnectionRecord)) : list string :=
  (fun item => r_gateway_id item.2) <$>
    filter (fun item => gone removed item = true /\ conns_key (r_gateway_id item.2) ∉ declared) l.

Definition evict (key user : string) (s : Redis) (item : string * RedisConnectionRecord) : Redis :=
  srem (conns_key (r_gateway_id item.2)) (connection_member (r_tenant_id item.2) user item.1) (hdel key item.1 s).

Definition evicted_of (removed : Removed) (item : string * RedisConnectionRecord) : option EvictedConnection :=
  cause ← removed !! r_device_id item.2;
  Some (mkEvicted (r_conversation_id item.2) (r_device_id item.2) (r_connection_id item.2) cause).

Inductive AdmissionReply := RetryWith (gateways : list string) | Evicted (l : list EvictedConnection).

(** ADMIT_CONNECTION_SCRIPT. [KEYS] are the session hash, the tenant index and the declared
    gateway sets, of which the first is the one of the new connection. *)
Definition admit_script (key index_key : string) (declared : list string) (field : string)
    (new : RedisConnectionRecord) (ttl : Z) (strategy : DeviceConflictStrategy) (cap : Z) (user : string)
    (s : Redis) : result AdmissionReply * Redis :=
  match records new (map_to_list (hash key s)) with
  | Err e => (Err e, s)
  | Ok l =>
      let removed := removed_devices strategy cap new l in
      match undeclared declared removed l with
      | (_ :: _) as gateways => (Ok (RetryWith gateways), s)
      | [] =>
          let out := filter (fun item => gone removed item = true) l in
          let s := foldl (evict key user) s out in
          let s := foldl (fun s d => srem index_key (tenant_session_member_prefix user +:+ d.1) s)
                     s (map_to_list removed) in
          let s := expire key ttl (hset key field (Json new) s) in
          let s := expire index_key ttl (sadd index_key (tenant_session_member_prefix user +:+ r_device_id new) s) in
          let s := sadd (default "" (head declared)) (connection_member (r_tenant_id new) user field) s in
          (Ok (Evicted (omap (evicted_of removed) l)), s)
      end
  end.

(** ** The other scripts *)

(** REMOVE_FOR_KICK: the record of [field] is removed only if it is still the physical
    connection [connection_id]. *)
Definition remove_for_kick (key index_key conns field tenant user connection_id : string) (s : Redis)
    : result (option string) * Redis :=
  match hget key field s with
  | None => (Ok None, s)
  | Some Corrupt => (Err (system "invalid kick session"), s)
  | Some (Json rec) =>
      if bool_decide (r_tenant_id rec <> tenant) || Str.is_empty (r_connection_id rec)
      then (Err (system "invalid kick session"), s)
      else if bool_decide (r_connection_id rec <> connection_id) then (Ok None, s)
      else
        let values := (map_to_list (hash key s)).*2 in
        if bool_decide (Corrupt ∈ values) then (Err (system "invalid kick session"), s)
        else
          let keep := existsb (fun p => match p with
                                        | Json other => bool_decide (r_conversation_id other <> r_conversation_id rec)
                                                        && bool_decide (r_device_id other = r_device_id rec)
                                        | Corrupt => false
                                        end) values in
          let s := hdel key field s in
          let s := if keep then s else srem index_key (tenant_session_member_prefix user +:+ r_device_id rec) s in
          let s := srem conns (connection_member tenant user field) s in
          (Ok (Some (r_connection_id rec)), s)
  end.

(** UNINDEX_IF_ABSENT: the loop over [HVALS] ends at the first record of the device. *)
Fixpoint holds_device (tenant device : string) (values : list Payload) : result bool :=
  match values with
  | [] => Ok false
  | Json rec :: values' =>
      if bool_decide (r_tenant_id rec = tenant) && bool_decide (r_device_id rec = device) then Ok true
      else holds_device tenant device values'
  | Corrupt :: _ => Err (system "invalid session")
  end.

Definition unindex_if_absent (key index_key tenant device member : string) (s : Redis) : result unit * Redis :=
  match holds_device tenant device (map_to_list (hash key s)).*2 with
  | Ok true => (Ok (), s)
  | Ok false => (Ok (), srem index_key member s)
  | Err e => (Err e, s)
  end.

(** ** Records and connections *)

(** [record_from_connection] *)
Definition record_from_connection (c : Connection) : RedisConnectionRecord :=
  mkRecord (id c) (gateway_id c) (server_id c) (device_id c) (device_platform c) (id c)
    (created_at c) (last_heartbeat_at c / 1000) (priority_as_i32 (device_priority c)) (token_version c)
    (tenant_id c).

Definition with_connection_id (r : RedisConnectionRecord) (connection_id : string) : RedisConnectionRecord :=
  mkRecord (r_conversation_id r) (r_gateway_id r) (r_server_id r) (r_device_id r) (r_device_platform r)
    connection_id (r_created_at r) (r_last_seen r) (r_device_priority r) (r_token_version r) (r_tenant_id r).

Definition with_last_seen (r : RedisConnectionRecord) (t : Z) : RedisConnectionRecord :=
  mkRecord (r_conversation_id r) (r_gateway_id r) (r_server_id r) (r_device_id r) (r_device_platform r)
    (r_connection_id r) (r_created_at r) t (r_device_priority r) (r_token_version r) (r_tenant_id r).

(** [records_from_values]: one value that does not parse fails them all. *)
Fixpoint records_from_values (values : list Payload) : result (list RedisConnectionRecord) :=
  match values with
  | [] => Ok []
  | Json r :: values' => l ← records_from_values values'; Ok (r :: l)
  | Corrupt :: _ => Err (system "invalid session payload")
  end.

(** [load_user_records] after the read *)
Definition check_records (tenant_id : string) (values : list Payload) : result (list RedisConnectionRecord) :=
  l ← records_from_values values;
  if existsb (fun r => bool_decide (r_tenant_id r <> tenant_id)) l then Err (system "session tenant mismatch")
  else Ok l.

(** [iter.max_by_key(|record| record.last_seen)]: the last of the latest. *)
Definition latest (l : list RedisConnectionRecord) : option RedisConnectionRecord :=
  foldl (fun best r => match best with
                       | None => Some r
                       | Some b => if r_last_seen b <=? r_last_seen r then Some r else best
                       end) None l.

Section Repository.
(** [others] is what the other processes did between the previous step of this method and
    this one, the passing of time included. [valid_uuid] and [valid_timestamp] are the
    checks of the uuid and chrono crates. *)
Context (fault : schedule) (others : nat -> Store -> Store) (ttl : Z).
Context (valid_uuid : string -> bool) (valid_timestamp : Z -> bool).

Abbreviation M := (db Store).

(** One round trip. *)
Definition step {A} (err : FlareError) (eff : Store -> result A * Store) : M A :=
  fun '(n, s) => exec fault err eff (n, others n s).

Definition operation_failed : FlareError := system "operation failed".

Definition on_script {A} (f : Redis -> result A * Redis) (s : Store) : result A * Store :=
  let '(r, db) := f (redis s) in (r, mkStore db (kicks s)).

(** [ConnectionId::from_string] *)
Definition connection_id_from (s : string) : result string :=
  if Str.is_empty s then Err (system "ConnectionId cannot be empty")
  else if valid_uuid s then Ok s else Err (system "Invalid UUID format").

Definition to_timestamp (seconds : Z) : option Z :=
  if valid_timestamp seconds then Some (seconds * 1000) else None.

Definition connection_from_record (user : string) (r : RedisConnectionRecord) : result Connection :=
  conversation_id ← connection_id_from (r_conversation_id r);
  device ← device_id_new (r_device_id r);
  last_seen ← ok_or (to_timestamp (r_last_seen r)) (system "invalid last_seen timestamp");
  Ok (mkConnection conversation_id user device (r_tenant_id r) (r_device_platform r) (r_server_id r)
        (r_gateway_id r) (priority_from_i32 (r_device_priority r)) (token_version_from (r_token_version r))
        (if valid_timestamp (r_created_at r / 1000) then r_created_at r else last_seen) last_seen).

Fixpoint connections_from (user : string) (l : list RedisConnectionRecord) : result (list Connection) :=
  match l with
  | [] => Ok []
  | r :: l' => c ← connection_from_record user r; cs ← connections_from user l'; Ok (c :: cs)
  end.

Definition hgetall (tenant user : string) (s : Store) : list Payload :=
  (map_to_list (hash (connection_key tenant user) (redis s))).*2.

Definition load_user_records (tenant user : string) : M (list RedisConnectionRecord) :=
  step operation_failed (fun s => (check_records tenant (hgetall tenant user s), s)).

Definition save_connection (c : Connection) : M unit :=
  let record := record_from_connection c in
  let key := connection_key (tenant_id c) (user_id c) in
  let tenant_key := tenant_sessions_key (r_tenant_id record) in
  step operation_failed (fun s => (Ok (), on_redis (fun db =>
    let db := expire key ttl (hset key (id c) (Json record) db) in
    let db := expire tenant_key ttl (sadd tenant_key (tenant_session_member (user_id c) (r_device_id record)) db) in
    sadd (conns_key (r_gateway_id record)) (connection_member (r_tenant_id record) (user_id c) (id c)) db) s)).

Definition ADMIT_ATTEMPTS : nat := 3.

Definition admission_failed : FlareError := system "atomic session admission failed".

Definition add_gateways (own : string) (others retry_with : list string) : list string :=
  foldl (fun l g => if bool_decide (g <> own) && bool_decide (g ∉ l) then l ++ [g] else l) others retry_with.

(** The loop of [admit_connection]. *)
Fixpoint admit_attempts (attempts : nat) (c : Connection) (record : RedisConnectionRecord)
    (strategy : DeviceConflictStrategy) (max_devices : Z) (other_gateways : list string)
    : M (list EvictedConnection) :=
  match attempts with
  | O => lift_r (Err (system "atomic session admission kept racing with logins on other gateways"))
  | S attempts' =>
      reply ← step admission_failed (on_script
        (admit_script (connection_key (tenant_id c) (user_id c)) (tenant_sessions_key (tenant_id c))
           (conns_key (r_gateway_id record) :: (conns_key <$> other_gateways))
           (id c) record ttl strategy max_devices (user_id c)));
      match reply with
      | Evicted evicted => mret evicted
      | RetryWith retry_with =>
          admit_attempts attempts' c record strategy max_devices
            (add_gateways (r_gateway_id record) other_gateways retry_with)
      end
  end.

Definition admit_connection (c : Connection) (gateway_connection_id : string)
    (strategy : DeviceConflictStrategy) (max_devices : Z) : M (list EvictedConnection) :=
  if Str.is_empty gateway_connection_id then lift_r (Err (system "authenticated gateway connection ID is required"))
  else admit_attempts ADMIT_ATTEMPTS c (with_connection_id (record_from_connection c) gateway_connection_id)
         strategy max_devices [].

(** [unindex_if_last] *)
Definition unindex_if_last (user : string) (remaining : list RedisConnectionRecord)
    (removed : RedisConnectionRecord) (db : Redis) : Redis :=
  if existsb (fun r => bool_decide (r_device_id r = r_device_id removed)
                       && bool_decide (r_conversation_id r <> r_conversation_id removed)) remaining
  then db
  else srem (tenant_sessions_key (r_tenant_id removed)) (tenant_session_member user (r_device_id removed)) db.

Definition remove_connection (tenant conversation_id user : string) : M unit :=
  records ← load_user_records tenant user;
  step operation_failed (fun s => (Ok (), on_redis (fun db =>
    let db := hdel (connection_key tenant user) conversation_id db in
    match List.find (fun r => bool_decide (r_conversation_id r = conversation_id)) records with
    | Some removed =>
        srem (conns_key (r_gateway_id removed)) (connection_member tenant user conversation_id)
          (unindex_if_last user records removed db)
    | None => db
    end) s)).

Definition broadcast_user_kick (tenant user : string) (device connection : option string) (reason : string) : M unit :=
  step (system "operation failed") (fun s =>
    (Ok (), mkStore (redis s) (kicks s ++ [mkKick tenant user device connection (Some reason)]))).

(** [remove_connection_for_kick] of a process that keeps no operator commands. *)
Definition remove_connection_for_kick (tenant session user reason : string) : M (option string) :=
  raw ← step (flare_err DatabaseError "kick session lookup failed")
          (fun s => (Ok (hget (connection_key tenant user) session (redis s)), s));
  match raw with
  | None => mret None
  | Some Corrupt => lift_r (Err (system "invalid session payload"))
  | Some (Json record) =>
      if bool_decide (r_tenant_id record <> tenant) || Str.is_empty (r_connection_id record)
      then lift_r (Err (flare_err PermissionDenied "kick session mismatch"))
      else
        _ ← broadcast_user_kick tenant user (Some (r_device_id record)) (Some (r_connection_id record)) reason;
        map_err (fun _ => flare_err DatabaseError "conditional session removal failed")
          (step operation_failed (on_script
            (remove_for_kick (connection_key tenant user) (tenant_sessions_key tenant)
               (conns_key (r_gateway_id record)) session tenant user (r_connection_id record))))
  end.

(** [now] is the clock of this process in seconds. *)
Definition touch_connection (now : Z) (tenant conversation_id user : string) : M unit :=
  let key := connection_key tenant user in
  payload ← step operation_failed (fun s => (Ok (hget key conversation_id (redis s)), s));
  match payload with
  | None => lift_r (Err (system "connection not found"))
  | Some Corrupt => lift_r (Err (system "invalid session payload"))
  | Some (Json record) =>
      if bool_decide (r_tenant_id record <> tenant) then lift_r (Err (system "session tenant mismatch"))
      else
        step operation_failed (fun s => (Ok (), on_redis (fun db =>
          expire (tenant_sessions_key (r_tenant_id record)) ttl
            (expire key ttl (hset key conversation_id (Json (with_last_seen record now)) db))) s))
  end.

Definition status_of (r : RedisConnectionRecord) : OnlineStatusRecord :=
  mkStatus true (r_server_id r) (Some (r_gateway_id r)) None (to_timestamp (r_last_seen r))
    (Some (r_device_id r)) (Some (r_device_platform r)).

Fixpoint statuses_of (tenant : string) (l : list (string * list Payload)) : result (gmap string OnlineStatusRecord) :=
  match l with
  | [] => Ok ∅
  | (user, values) :: l' =>
      records ← check_records tenant values;
      m ← statuses_of tenant l';
      Ok (match latest records with
          | Some r => if decide (is_Some (m !! user)) then m else <[user := status_of r]> m
          | None => m
          end)
  end.

(** [fetch_statuses]: one pipeline of HGETALLs. A user asked for twice has the same answer. *)
Definition fetch_statuses (tenant : string) (user_ids : list string) : M (gmap string OnlineStatusRecord) :=
  match user_ids with
  | [] => mret ∅
  | _ => step (system "fetch statuses pipeline failed")
           (fun s => (statuses_of tenant ((fun u => (u, hgetall tenant u s)) <$> user_ids), s))
  end.

Definition get_user_connections (tenant user : string) : M (list Connection) :=
  records ← load_user_records tenant user;
  lift_r (connections_from user (filter (fun r => r_tenant_id r = tenant) records)).

Definition drop_record (tenant user : string) (db : Redis) (r : RedisConnectionRecord) : Redis :=
  srem (conns_key (r_gateway_id r)) (connection_member tenant user (r_conversation_id r))
    (srem (tenant_sessions_key (r_tenant_id r)) (tenant_session_member user (r_device_id r)) db).

Definition remove_user_connections (tenant user : string) (device_ids : option (list string)) : M unit :=
  let key := connection_key tenant user in
  records ← load_user_records tenant user;
  step operation_failed (fun s => (Ok (), on_redis (fun db =>
    match device_ids with
    | Some ids =>
        foldl (fun db r => drop_record tenant user (hdel key (r_conversation_id r) db) r) db
          (filter (fun r => r_device_id r ∈ ids) records)
    | None => foldl (drop_record tenant user) (del key db) records
    end) s)).

Definition get_connection_by_device (tenant user device : string) : M (option Connection) :=
  sessions ← get_user_connections tenant user;
  mret (List.find (fun c => bool_decide (device_id c = device)) sessions).

Definition unindex_tenant_session (tenant member : string) : M unit :=
  match parse_tenant_session_member member with
  | Some (user, device) =>
      map_err (fun _ => flare_err DatabaseError "conditional index cleanup failed")
        (step operation_failed (on_script
          (unindex_if_absent (connection_key tenant user) (tenant_sessions_key tenant) tenant device member)))
  | None => step operation_failed (fun s => (Ok (), on_redis (srem (tenant_sessions_key tenant) member) s))
  end.

End Repository.
