(* ===== verification/OnlineAdmission.v ===== *)
(** * Admission of a login

    What ADMIT_CONNECTION_SCRIPT of the online repository does to the sessions of a
    user: the rules that hold afterwards, whom it evicts and why, and the loop of
    [admit_connection] that declares the gateway sets the script asks for. *)

From S2P Require Import Prelude.
From S2P Require Import Slices.
From S2P Require Import Database.
From S2P Require Import Keyspace.
From S2P Require Import GatewayLease.
From S2P Require Import OnlineStore.
From stdpp Require Import base gmap list strings.
From Stdlib Require Import Lia ZArith.

Local Open Scope Z_scope.

Abbreviation Item := (string * RedisConnectionRecord)%type.

(** ** The oldest device *)

Definition no_younger (a b : string * Z) : bool := negb (older b a).

Lemma no_younger_iff a b :
  no_younger a b = true <-> a.2 < b.2 \/ (a.2 = b.2 /\ String.leb a.1 b.1 = true).
Proof.
  unfold no_younger, older. rewrite negb_orb, negb_andb, negb_involutive, andb_true_iff, orb_true_iff.
  rewrite !negb_true_iff, bool_decide_eq_false, Z.ltb_ge.
  destruct (decide (b.2 = a.2)); intuition lia.
Qed.

#[export] Instance no_younger_total : TotalPreorder no_younger.
Proof.
  split; intros *; rewrite !no_younger_iff.
  - destruct (le_total String.leb a.1 b.1); destruct (Z.lt_trichotomy a.2 b.2) as [|[|]]; intuition.
  - intros [?|[? ?]] [?|[? ?]]; [left; lia..|]. right. split; [congruence|].
    by eapply (le_trans String.leb).
Qed.

Lemma no_younger_refl a : no_younger a a = true.
Proof. by destruct (le_total no_younger a a). Qed.

Lemma take_older_fold (b0 : string * Z) l :
  exists b, foldl take_older (Some b0) l = Some b /\ b ∈ b0 :: l /\
    forall x, x ∈ b0 :: l -> no_younger b x = true.
Proof.
  revert b0. induction l as [|d l IH]; intros b0; simpl.
  { exists b0. split; [done|]. split; [by left|].
    intros x Hx%list_elem_of_singleton. subst. apply no_younger_refl. }
  destruct (older d b0) eqn:E.
  - destruct (IH d) as (b & Hb & Hin & Hall). exists b. split; [done|]. split.
    { apply elem_of_cons in Hin as [->|Hin]; [by right; left|by right; right]. }
    intros x Hx. apply elem_of_cons in Hx as [->|Hx]; [|by apply Hall].
    eapply (le_trans no_younger); [apply Hall; by left|].
    destruct (le_total no_younger d b0) as [H|H]; [done|]. unfold no_younger in H. by rewrite E in H.
  - destruct (IH b0) as (b & Hb & Hin & Hall). exists b. split; [done|]. split.
    { apply elem_of_cons in Hin as [->|Hin]; [by left|by right; right]. }
    intros x Hx. apply elem_of_cons in Hx as [->|Hx]; [apply Hall; by left|].
    apply elem_of_cons in Hx as [->|Hx]; [|apply Hall; by right].
    eapply (le_trans no_younger); [apply Hall; by left|]. unfold no_younger. by rewrite E.
Qed.

Lemma oldest_spec devices removed :
  match oldest devices removed with
  | None => staying devices removed = []
  | Some b => b ∈ staying devices removed /\ forall x, x ∈ staying devices removed -> no_younger b x = true
  end.
Proof.
  unfold oldest. destruct (staying devices removed) as [|d l]; [done|]. simpl.
  destruct (take_older_fold d l) as (b & -> & ? & ?). done.
Qed.

(** ** The loop over the cap *)

Lemma elem_staying devices (removed : Removed) d t :
  (d, t) ∈ staying devices removed <-> devices !! d = Some t /\ removed !! d = None.
Proof. unfold staying. rewrite list_elem_of_filter, elem_of_map_to_list. tauto. Qed.

Lemma staying_insert devices (removed : Removed) d t c :
  (d, t) ∈ staying devices removed ->
  length (staying devices removed) = S (length (staying devices (<[d := c]> removed))).
Proof.
  intros H. unfold staying in *.
  assert (Hp : filter (fun x : string * Z => removed !! x.1 = None) (map_to_list devices)
               ≡ₚ (d, t) :: filter (fun x : string * Z => <[d := c]> removed !! x.1 = None) (map_to_list devices)).
  { apply NoDup_Permutation.
    - apply NoDup_filter, NoDup_map_to_list.
    - constructor; [|apply NoDup_filter, NoDup_map_to_list].
      rewrite list_elem_of_filter. simpl. rewrite lookup_insert_eq. naive_solver.
    - intros [d' t']. rewrite elem_of_cons, !list_elem_of_filter. simpl.
      destruct (decide (d' = d)) as [->|Hd].
      + rewrite lookup_insert_eq. rewrite list_elem_of_filter in H. simpl in H.
        rewrite elem_of_map_to_list in *. naive_solver.
      + rewrite lookup_insert_ne by done. naive_solver. }
  by rewrite Hp.
Qed.

(** What the loop leaves: the entries it found, new ones for the oldest devices only, and
    fewer than [cap] devices that stay. *)
Record capped (cap : Z) (devices : gmap string Z) (before after : Removed) : Prop := {
  capped_keeps : before ⊆ after;
  capped_new d c : after !! d = Some c -> before !! d = None ->
    c = DeviceCap /\ exists t, devices !! d = Some t /\
      (forall x, x ∈ staying devices after -> no_younger (d, t) x = true);
  capped_room : Z.of_nat (length (staying devices after)) < cap;
  capped_tight : after = before \/ Z.of_nat (length (staying devices after)) = cap - 1;
}.

Lemma cap_loop_spec cap devices remaining (before : Removed) :
  0 < cap -> remaining = length (staying devices before) ->
  capped cap devices before (cap_loop cap devices remaining before).
Proof.
  intros Hc. revert before. induction remaining as [|n IH]; intros before Hn; cbn [cap_loop].
  { rewrite (proj2 (Z.leb_gt _ _)) by lia. split; [done|congruence|lia|by left]. }
  destruct (cap <=? Z.of_nat (S n)) eqn:E.
  2: { apply Z.leb_gt in E. split; [done|congruence|rewrite <- Hn; lia|by left]. }
  pose proof (oldest_spec devices before) as Ho.
  destruct (oldest devices before) as [[d t]|]; [|rewrite Ho in Hn; done].
  destruct Ho as [Hin Hmin]. pose proof (staying_insert devices before d t DeviceCap Hin) as Hl.
  destruct (IH (<[d := DeviceCap]> before)) as [Hk Hnew Hroom Htight]; [lia|].
  apply elem_staying in Hin as [Hd Hb]. split.
  - etrans; [by apply insert_subseteq|done].
  - intros d' c Ha Hb'. destruct (decide (d' = d)) as [->|Hne].
    + assert (He : cap_loop cap devices n (<[d:=DeviceCap]> before) !! d = Some DeviceCap)
        by (eapply lookup_weaken; [apply lookup_insert_eq|done]).
      split; [congruence|]. exists t. split; [done|]. intros [x u] Hx. apply Hmin.
      apply elem_staying in Hx as [Hx1 Hx2]. apply elem_staying. split; [done|].
      destruct (before !! x) as [cx|] eqn:Ex; [|done]. exfalso.
      assert (Hx3 : cap_loop cap devices n (<[d:=DeviceCap]> before) !! x = Some cx).
      { eapply lookup_weaken; [|done]. rewrite lookup_insert_ne by congruence. done. }
      congruence.
    + apply (Hnew d' c Ha). by rewrite lookup_insert_ne.
  - done.
  - destruct Htight as [Heq|]; [|by right]. right. rewrite Heq in *. apply Z.leb_le in E. lia.
Qed.

(** ** Records, devices and conflicts *)

Lemma records_ok new current l :
  records new current = Ok l ->
  current = (fun item => (item.1, Json item.2)) <$> l /\
  (forall item, item ∈ l -> r_tenant_id item.2 = r_tenant_id new).
Proof.
  revert l. induction current as [|[f [r|]] current IH]; intros l; simpl.
  - intros [= <-]. split; [done|]. intros item Hin. by apply elem_of_nil in Hin.
  - destruct (bool_decide_reflect (r_tenant_id r <> r_tenant_id new)) as [|Ht]; simpl; [done|].
    apply dec_stable in Ht.
    destruct (Str.is_empty (r_connection_id r) || Str.is_empty (r_device_id r)); simpl; [done|].
    case_bool_decide; [done|]. intros Hr. inv_ok. destruct (IH _ Ha) as [-> Hl]. split; [done|].
    intros item Hi. apply elem_of_cons in Hi as [->|Hi]; [done|by apply Hl].
  - done.
Qed.

Section Records.
Context (new : RedisConnectionRecord) (key : string) (s : Redis) (l : list Item).
Hypothesis Hl : records new (map_to_list (hash key s)) = Ok l.

Lemma record_iff f r : (f, r) ∈ l <-> hash key s !! f = Some (Json r).
Proof.
  destruct (records_ok _ _ _ Hl) as [He _]. rewrite <- elem_of_map_to_list, He, list_elem_of_fmap.
  split; [by intros; exists (f, r)|]. intros ([f' r'] & [= -> ->] & ?). done.
Qed.

Lemma hash_json f p : hash key s !! f = Some p -> exists r, p = Json r /\ (f, r) ∈ l.
Proof.
  destruct (records_ok _ _ _ Hl) as [H _].
  intros Hp%elem_of_map_to_list. rewrite H, list_elem_of_fmap in Hp.
  destruct Hp as ([f' r'] & [= -> ->] & ?). by exists r'.
Qed.

Lemma field_unique f r r' : (f, r) ∈ l -> (f, r') ∈ l -> r = r'.
Proof. rewrite !record_iff. congruence. Qed.

End Records.

Lemma devices_fold l (m : gmap string Z) d :
  match foldl note_device m l !! d with
  | Some t => (forall item, item ∈ l -> r_device_id item.2 = d -> t <= r_created_at item.2) /\
      (forall t0, m !! d = Some t0 -> t <= t0) /\
      (m !! d = Some t \/ exists item, item ∈ l /\ r_device_id item.2 = d /\ r_created_at item.2 = t)
  | None => m !! d = None /\ forall item, item ∈ l -> r_device_id item.2 <> d
  end.
Proof.
  induction l as [|item l IH] using rev_ind; simpl.
  { destruct (m !! d) as [t|].
    - split; [intros ? H; by apply elem_of_nil in H|]. split; [intros ? [= ->]; lia|by left].
    - split; [done|]. intros ? H. by apply elem_of_nil in H. }
  rewrite foldl_app. simpl. set (m' := foldl note_device m l) in *.
  unfold note_device at 1. set (d0 := r_device_id item.2).
  destruct (decide (d0 = d)) as [Hd|Hd].
  - rewrite Hd. destruct (m' !! d) as [t|] eqn:E.
    + destruct IH as (H1 & H2 & H3). destruct (r_created_at item.2 <? t) eqn:Ec.
      * rewrite lookup_insert_eq. split_and!.
        -- intros x [Hx| ->%list_elem_of_singleton]%elem_of_app Hxd; [specialize (H1 x Hx Hxd); lia|lia].
        -- intros t0 Ht0. specialize (H2 t0 Ht0). lia.
        -- right. exists item. split; [apply elem_of_app; right; by apply list_elem_of_singleton|done].
      * rewrite E. split_and!.
        -- intros x [Hx| ->%list_elem_of_singleton]%elem_of_app Hxd; [by apply H1|lia].
        -- done.
        -- destruct H3 as [|(x & Hx & ?)]; [by left|right]. exists x. split; [apply elem_of_app; by left|done].
    + destruct IH as (H1 & H2). rewrite lookup_insert_eq. split_and!.
      * intros x [Hx| ->%list_elem_of_singleton]%elem_of_app Hxd; [by destruct (H2 x Hx)|lia].
      * congruence.
      * right. exists item. split; [apply elem_of_app; right; by apply list_elem_of_singleton|done].
  - assert (Hs : (match m' !! d0 with
                  | None => <[d0 := r_created_at item.2]> m'
                  | Some at_ => if r_created_at item.2 <? at_ then <[d0 := r_created_at item.2]> m' else m'
                  end) !! d = m' !! d).
    { repeat case_match; by rewrite ?lookup_insert_ne. }
    rewrite Hs. destruct (m' !! d) as [t|].
    + destruct IH as (H1 & H2 & H3). split_and!.
      * intros x [Hx| ->%list_elem_of_singleton]%elem_of_app Hxd; [by apply H1|done].
      * done.
      * destruct H3 as [|(x & Hx & ?)]; [by left|right]. exists x. split; [apply elem_of_app; by left|done].
    + destruct IH as (H1 & H2). split; [done|].
      intros x [Hx| ->%list_elem_of_singleton]%elem_of_app; [by apply H2|done].
Qed.

Section Removal.
Context (strategy : DeviceConflictStrategy) (cap : Z) (new : RedisConnectionRecord).

Lemma conflict_cause r c :
  conflict strategy new r = Some c ->
  c = (if decide (r_device_id r = r_device_id new) then Replaced else DeviceConflict).
Proof. unfold conflict. case_bool_decide; case_decide; try done; [congruence|]. case_match; congruence. Qed.

Lemma conflicts_fold (l : list Item) d :
  match foldl (note_conflict strategy new) ∅ l !! d with
  | Some c => exists item, item ∈ l /\ r_device_id item.2 = d /\ conflict strategy new item.2 = Some c
  | None => forall item, item ∈ l -> r_device_id item.2 = d -> conflict strategy new item.2 = None
  end.
Proof.
  induction l as [|item l IH] using rev_ind.
  { simpl. rewrite lookup_empty. intros item H. by apply elem_of_nil in H. }
  rewrite foldl_app. simpl. set (m := foldl _ ∅ l) in *. unfold note_conflict at 1.
  destruct (conflict strategy new item.2) as [c|] eqn:E.
  - destruct (decide (r_device_id item.2 = d)) as [Hd|Hd].
    + rewrite Hd, lookup_insert_eq. exists item. split; [|done].
      apply elem_of_app. right. by apply list_elem_of_singleton.
    + rewrite lookup_insert_ne by done. destruct (m !! d).
      * destruct IH as (x & Hx & ?). exists x. split; [apply elem_of_app; by left|done].
      * intros x [Hx| ->%list_elem_of_singleton]%elem_of_app; [by apply IH|done].
  - destruct (m !! d).
    + destruct IH as (x & Hx & ?). exists x. split; [apply elem_of_app; by left|done].
    + intros x [Hx| ->%list_elem_of_singleton]%elem_of_app; [by apply IH|done].
Qed.

(** Why devices are removed, and how many stay. *)
Record removal (l : list Item) (removed : Removed) : Prop := {
  rem_conflict item c : item ∈ l -> conflict strategy new item.2 = Some c ->
    removed !! r_device_id item.2 = Some c;
  rem_why d c : removed !! d = Some c ->
    (exists item, item ∈ l /\ r_device_id item.2 = d /\ conflict strategy new item.2 = Some c) \/
    (c = DeviceCap /\ 0 < cap /\
     (forall item, item ∈ l -> r_device_id item.2 = d -> conflict strategy new item.2 = None) /\
     exists t, devices_of l !! d = Some t /\
       forall x, x ∈ staying (devices_of l) removed -> no_younger (d, t) x = true);
  rem_room : 0 < cap -> Z.of_nat (length (staying (devices_of l) removed)) < cap;
  rem_tight d : removed !! d = Some DeviceCap -> Z.of_nat (length (staying (devices_of l) removed)) = cap - 1;
}.

Lemma conflict_not_cap r : conflict strategy new r <> Some DeviceCap.
Proof. intros H%conflict_cause. by case_decide. Qed.

Lemma removed_spec (l : list Item) : removal l (removed_devices strategy cap new l).
Proof.
  unfold removed_devices. set (before := foldl (note_conflict strategy new) ∅ l).
  assert (Hb : forall d, match before !! d with
    | Some c => exists item, item ∈ l /\ r_device_id item.2 = d /\ conflict strategy new item.2 = Some c
    | None => forall item, item ∈ l -> r_device_id item.2 = d -> conflict strategy new item.2 = None
    end) by (intros d; apply conflicts_fold).
  assert (Hc : forall item c, item ∈ l -> conflict strategy new item.2 = Some c ->
                 before !! r_device_id item.2 = Some c).
  { intros item c Hi E. specialize (Hb (r_device_id item.2)).
    destruct (before !! r_device_id item.2) as [c'|]; [|rewrite (Hb item) in E by done; done].
    destruct Hb as (x & _ & Hd & Hx). apply conflict_cause in Hx as ->, E as ->. by rewrite Hd. }
  assert (Hcap : forall d, before !! d <> Some DeviceCap).
  { intros d H. specialize (Hb d). rewrite H in Hb. destruct Hb as (x & _ & _ & Hx). by apply conflict_not_cap in Hx. }
  destruct (Z.ltb_spec 0 cap) as [Hpos|Hpos].
  - destruct (cap_loop_spec cap (devices_of l) (length (staying (devices_of l) before)) before) as [Hk Hnew Hroom Ht];
      [done|done|]. set (after := cap_loop _ _ _ _) in *. split.
    + intros item c Hi E. eapply lookup_weaken; [by apply Hc|done].
    + intros d c Ha. specialize (Hb d). destruct (before !! d) as [c'|] eqn:E.
      * left. assert (Hd : after !! d = Some c') by by eapply lookup_weaken. rewrite Hd in Ha. injection Ha as ->. done.
      * right. destruct (Hnew d c Ha E) as (-> & t & ? & ?). split_and!; [done|done|done|by exists t].
    + done.
    + intros d Hd. destruct Ht as [Heq|]; [|done]. rewrite Heq in Hd. by apply Hcap in Hd.
  - split.
    + done.
    + intros d c Ha. left. specialize (Hb d). by rewrite Ha in Hb.
    + lia.
    + intros d Hd. by apply Hcap in Hd.
Qed.

End Removal.

(** ** What the writes of the script leave *)

Section Writes.
Context (key user : string).

Lemma evict_hash k (out : list Item) (s : Redis) f :
  hash k (foldl (evict key user) s out) !! f
  = if decide (k = key /\ f ∈ out.*1) then None else hash k s !! f.
Proof.
  induction out as [|item out IH] using rev_ind.
  { simpl. rewrite decide_False; [done|]. intros [_ H]. by apply elem_of_nil in H. }
  rewrite foldl_app. simpl. unfold evict at 1. rewrite hash_srem, hash_hdel, fmap_app. simpl.
  assert (Hin : f ∈ out.*1 ++ [item.1] <-> f ∈ out.*1 \/ f = item.1)
    by (rewrite elem_of_app, list_elem_of_singleton; done).
  destruct (decide (k = key)) as [->|Hk].
  - destruct (decide (f = item.1)) as [->|Hf].
    + rewrite lookup_delete_eq, decide_True by (split; [done|]; apply Hin; by right). done.
    + rewrite lookup_delete_ne, IH by done. repeat case_decide; naive_solver.
  - rewrite IH. repeat case_decide; naive_solver.
Qed.

Lemma evict_smembers k (out : list Item) (s : Redis) m :
  m ∈ smembers k (foldl (evict key user) s out) <->
  m ∈ smembers k s /\ forall item, item ∈ out -> k = conns_key (r_gateway_id item.2) ->
    m <> connection_member (r_tenant_id item.2) user item.1.
Proof.
  induction out as [|item out IH] using rev_ind.
  { simpl. split; [|tauto]. intros H. split; [done|]. intros item Hi. by apply elem_of_nil in Hi. }
  rewrite foldl_app. simpl. unfold evict at 1. rewrite smembers_srem, smembers_hdel. case_decide as E.
  - rewrite elem_of_difference, elem_of_singleton, IH. split.
    + intros [[H1 H2] H3]. split; [done|].
      intros x [Hx| ->%list_elem_of_singleton]%elem_of_app Hk; [by apply H2|done].
    + intros [H1 H2]. split; [split; [done|]|].
      * intros x Hx. apply H2, elem_of_app. by left.
      * apply H2; [|done]. apply elem_of_app. right. by apply list_elem_of_singleton.
  - rewrite IH. split; intros [H1 H2]; (split; [done|]).
    + intros x [Hx| ->%list_elem_of_singleton]%elem_of_app Hk; [by apply H2|done].
    + intros x Hx. apply H2, elem_of_app. by left.
Qed.

Lemma unindex_hash k index_key (ds : list (string * EvictionCause)) (s : Redis) :
  hash k (foldl (fun s d => srem index_key (tenant_session_member_prefix user +:+ d.1) s) s ds) = hash k s.
Proof. revert s. induction ds as [|d ds IH]; intros s; [done|]. simpl. by rewrite IH, hash_srem. Qed.

Lemma unindex_smembers k index_key (ds : list (string * EvictionCause)) (s : Redis) m :
  m ∈ smembers k (foldl (fun s d => srem index_key (tenant_session_member_prefix user +:+ d.1) s) s ds) <->
  m ∈ smembers k s /\ (k = index_key -> forall d, d ∈ ds -> m <> tenant_session_member user d.1).
Proof.
  revert s. induction ds as [|d ds IH]; intros s; simpl.
  { split; [|tauto]. intros H. split; [done|]. intros _ d Hd. by apply elem_of_nil in Hd. }
  rewrite IH, smembers_srem. case_decide as E; [rewrite elem_of_difference, elem_of_singleton|].
  - split; [intros [[H1 H2] H3]|intros [H1 H2]]; split_and!; try done.
    + intros Hk x [->|Hx]%elem_of_cons; [done|by apply H3].
    + apply H2; [done|by left].
    + intros Hk x Hx. apply H2; [done|by right].
  - split; intros [H1 H2]; (split; [done|]); intros Hk; done.
Qed.

End Writes.

Section Admission.
Context (key index_key : string) (declared : list string) (field : string) (new : RedisConnectionRecord).
Context (ttl : Z) (strategy : DeviceConflictStrategy) (cap : Z) (user : string).
Context (s s' : Redis) (ev : list EvictedConnection).
Hypothesis Httl : 0 < ttl.
Hypothesis Hrun : admit_script key index_key declared field new ttl strategy cap user s = (Ok (Evicted ev), s').

Definition admitted_records (l : list Item) : Prop := records new (map_to_list (hash key s)) = Ok l.

Lemma admitted_inv : exists l, admitted_records l /\
  undeclared declared (removed_devices strategy cap new l) l = [] /\
  ev = omap (evicted_of (removed_devices strategy cap new l)) l.
Proof.
  unfold admit_script in Hrun. unfold admitted_records.
  destruct (records _ _) as [l|e]; [|done]. exists l. split; [done|].
  destruct (undeclared _ _ _); [|done]. by injection Hrun.
Qed.

Section Given.
Context (l : list Item).
Hypothesis Hl : admitted_records l.
Let removed := removed_devices strategy cap new l.

Lemma admitted_state : s' =
  sadd (default "" (head declared)) (connection_member (r_tenant_id new) user field)
    (expire index_key ttl (sadd index_key (tenant_session_member_prefix user +:+ r_device_id new)
      (expire key ttl (hset key field (Json new)
        (foldl (fun s d => srem index_key (tenant_session_member_prefix user +:+ d.1) s)
          (foldl (evict key user) s (filter (fun item => gone removed item = true) l)) (map_to_list removed)))))).
Proof.
  unfold admit_script in Hrun. unfold admitted_records in Hl. rewrite Hl in Hrun. simpl in Hrun.
  destruct (undeclared _ _ _); [|done]. by injection Hrun.
Qed.

Lemma gone_iff item : gone removed item = true <-> is_Some (removed !! r_device_id item.2).
Proof. unfold gone. by rewrite bool_decide_eq_true. Qed.

Lemma out_field f :
  f ∈ (filter (fun item => gone removed item = true) l).*1 <->
  exists r, hash key s !! f = Some (Json r) /\ is_Some (removed !! r_device_id r).
Proof.
  rewrite list_elem_of_fmap. split.
  - intros ([f' r] & -> & [Hg Hin]%list_elem_of_filter). exists r.
    split; [by apply (record_iff new key s l Hl)|by apply gone_iff in Hg].
  - intros (r & Hr & Hg). exists (f, r). split; [done|]. apply list_elem_of_filter.
    split; [by apply gone_iff|by apply (record_iff new key s l Hl)].
Qed.

Lemma admitted_hash k f :
  hash k s' !! f =
    if decide (k = key) then
      if decide (f = field) then Some (Json new)
      else match hash key s !! f with
           | Some (Json r) => if decide (is_Some (removed !! r_device_id r)) then None else Some (Json r)
           | p => p
           end
    else hash k s !! f.
Proof.
  rewrite admitted_state, hash_sadd, hash_expire, hash_sadd, hash_expire, hash_hset by done.
  rewrite unindex_hash. destruct (decide (k = key)) as [->|Hk].
  - destruct (decide (f = field)) as [->|Hf]; [by rewrite lookup_insert_eq|].
    rewrite lookup_insert_ne, evict_hash by done.
    destruct (hash key s !! f) as [[r|]|] eqn:E.
    + destruct (decide (is_Some (removed !! r_device_id r))) as [Hg|Hg].
      * rewrite decide_True; [done|]. split; [done|]. apply out_field. by exists r.
      * rewrite decide_False; [done|]. intros [_ (r' & Hr' & ?)%out_field]. naive_solver.
    + rewrite decide_False; [done|]. intros [_ (r' & Hr' & ?)%out_field]. naive_solver.
    + by case_decide.
  - rewrite evict_hash, decide_False by naive_solver. done.
Qed.

(** The member [m] of the set [k] names neither an evicted connection nor a removed device. *)
Definition kept_member (k m : string) : Prop :=
  m ∈ smembers k s /\
  (forall f r, hash key s !! f = Some (Json r) -> is_Some (removed !! r_device_id r) ->
     k = conns_key (r_gateway_id r) -> m <> connection_member (r_tenant_id r) user f) /\
  (k = index_key -> forall d, is_Some (removed !! d) -> m <> tenant_session_member user d).

Lemma kept_member_iff k m :
  m ∈ smembers k (foldl (fun s d => srem index_key (tenant_session_member_prefix user +:+ d.1) s)
        (foldl (evict key user) s (filter (fun item => gone removed item = true) l)) (map_to_list removed))
  <-> kept_member k m.
Proof.
  rewrite unindex_smembers, evict_smembers. split.
  - intros [[H1 H2] H3]. split_and!; [done| |].
    + intros f r Hr Hg. apply (H2 (f, r)), list_elem_of_filter. split; [by apply gone_iff|].
      by apply (record_iff new key s l Hl).
    + intros Hk d [c Hd]. apply (H3 Hk (d, c)). by apply elem_of_map_to_list.
  - intros (H1 & H2 & H3). split; [split; [done|]|].
    + intros [f r] [Hg Hi]%list_elem_of_filter. apply (H2 f r); [by apply (record_iff new key s l Hl)|].
      by apply gone_iff in Hg.
    + intros Hk [d c] Hd%elem_of_map_to_list. by apply H3.
Qed.

Lemma admitted_smembers k m :
  m ∈ smembers k s' <->
    (k = default "" (head declared) /\ m = connection_member (r_tenant_id new) user field) \/
    (k = index_key /\ m = tenant_session_member user (r_device_id new)) \/
    kept_member k m.
Proof.
  rewrite admitted_state, smembers_sadd, smembers_expire, smembers_sadd, smembers_expire, smembers_hset by done.
  unfold tenant_session_member. rewrite <- kept_member_iff.
  repeat case_decide; rewrite ?elem_of_union, ?elem_of_singleton; naive_solver.
Qed.

End Given.

End Admission.

(** ** Properties *)

Lemma size_union_le (X Y : gset string) : (size (X ∪ Y) <= size X + size Y)%nat.
Proof.
  rewrite size_union_alt. assert ((size (Y ∖ X) <= size Y)%nat) by (apply subseteq_size; set_solver). lia.
Qed.

Lemma size_list_to_set_le (l : list string) : (size (list_to_set (C := gset string) l) <= length l)%nat.
Proof.
  induction l as [|x l IH]; [rewrite list_to_set_nil, size_empty; simpl; lia|].
  rewrite list_to_set_cons. etrans; [apply size_union_le|]. rewrite size_singleton. simpl. lia.
Qed.

(** The devices of the sessions in a hash. *)
Definition devices_online (h : gmap string Payload) : gset string :=
  list_to_set (omap (fun p => match p.2 with Json r => Some (r_device_id r) | Corrupt => None end) (map_to_list h)).

Lemma elem_devices_online (h : gmap string Payload) d :
  d ∈ devices_online h <-> exists f r, h !! f = Some (Json r) /\ r_device_id r = d.
Proof.
  unfold devices_online. rewrite elem_of_list_to_set, list_elem_of_omap. split.
  - intros ([f [r|]] & Hin%elem_of_map_to_list & [= <-]). eauto.
  - intros (f & r & H & <-). exists (f, Json r). by rewrite elem_of_map_to_list.
Qed.

Section Rules.
Context (key index_key : string) (declared : list string) (field : string) (new : RedisConnectionRecord).
Context (ttl : Z) (strategy : DeviceConflictStrategy) (cap : Z) (user : string).
Context (s s' : Redis) (ev : list EvictedConnection).

Abbreviation run := (admit_script key index_key declared field new ttl strategy cap user s).

Lemma device_noted (l : list Item) item :
  item ∈ l -> exists t, devices_of l !! r_device_id item.2 = Some t.
Proof.
  intros Hi. pose proof (devices_fold l ∅ (r_device_id item.2)) as H. fold (devices_of l) in H.
  destruct (devices_of l !! r_device_id item.2) as [t|]; [by exists t|]. by destruct (proj2 H item Hi).
Qed.

(** A session that was there before and still is. *)
Lemma survivor l f r :
  0 < ttl -> run = (Ok (Evicted ev), s') -> records new (map_to_list (hash key s)) = Ok l ->
  f <> field -> hash key s' !! f = Some (Json r) ->
  (f, r) ∈ l /\ removed_devices strategy cap new l !! r_device_id r = None.
Proof.
  intros Ht Hr Hl Hf. rewrite (admitted_hash _ _ _ _ _ _ _ _ _ _ _ _ Ht Hr l Hl).
  rewrite decide_True, decide_False by done.
  destruct (hash key s !! f) as [[r0|]|] eqn:E; [|done..].
  case_decide as Hg; [done|]. intros [= <-]. split; [by apply (record_iff new key s l Hl)|].
  by apply eq_None_not_Some.
Qed.

(** The rules of a login, after the script. *)
Lemma device_rules :
  0 < ttl -> run = (Ok (Evicted ev), s') ->
  hash key s' !! field = Some (Json new) /\
  (forall f r, f <> field -> hash key s' !! f = Some (Json r) ->
     r_device_id r <> r_device_id new /\
     strategy <> Exclusive /\
     (strategy = PlatformExclusive -> r_device_platform r <> r_device_platform new)) /\
  (0 < cap -> Z.of_nat (size (devices_online (hash key s'))) <= cap).
Proof.
  intros Ht Hr. destruct (admitted_inv _ _ _ _ _ _ _ _ _ _ _ _ Hr) as (l & Hl & _ & _).
  destruct (removed_spec strategy cap new l) as [Hconf _ Hroom _].
  pose proof (fun f r => survivor l f r Ht Hr Hl) as Hs. split_and!.
  - rewrite (admitted_hash _ _ _ _ _ _ _ _ _ _ _ _ Ht Hr l Hl). by rewrite !decide_True.
  - intros f r Hf Hin. destruct (Hs f r Hf Hin) as [Hi Hn].
    assert (Hc : conflict strategy new r = None).
    { destruct (conflict strategy new r) as [c|] eqn:E; [|done].
      pose proof (Hconf (f, r) c Hi E) as Hx. simpl in Hx. congruence. }
    unfold conflict in Hc. case_bool_decide; [done|]. split; [done|].
    destruct (bool_decide_reflect (strategy = Exclusive)); [done|]. split; [done|]. intros ->.
    simpl in Hc. by case_bool_decide.
  - intros Hc. specialize (Hroom Hc). set (stay := staying _ _) in Hroom.
    assert (Hsub : devices_online (hash key s') ⊆ {[ r_device_id new ]} ∪ list_to_set stay.*1).
    { intros d (f & r & Hin & <-)%elem_devices_online. rewrite elem_of_union, elem_of_singleton.
      destruct (decide (f = field)) as [->|Hf].
      - rewrite (admitted_hash _ _ _ _ _ _ _ _ _ _ _ _ Ht Hr l Hl), !decide_True in Hin by done.
        left. by injection Hin as <-.
      - right. destruct (Hs f r Hf Hin) as [Hi Hn]. destruct (device_noted l (f, r) Hi) as [t Hd].
        apply elem_of_list_to_set, list_elem_of_fmap. exists (r_device_id r, t).
        split; [done|]. by apply elem_staying. }
    apply subseteq_size in Hsub. etrans; [apply Nat2Z.inj_le, Hsub|].
    assert (Hl2 : (size (list_to_set (C := gset string) stay.*1) <= length stay)%nat).
    { rewrite <- (length_fmap fst stay). apply size_list_to_set_le. }
    pose proof (size_union_le {[ r_device_id new ]} (list_to_set stay.*1)) as Hu.
    rewrite size_singleton in Hu. lia.
Qed.

(** Why a session of [r] was evicted with the cause [c]. *)
Definition justified (r : RedisConnectionRecord) (c : EvictionCause) : Prop :=
  match c with
  | Replaced => r_device_id r = r_device_id new
  | DeviceConflict => r_device_id r <> r_device_id new /\
      exists f r0, hash key s !! f = Some (Json r0) /\ r_device_id r0 = r_device_id r /\
        (strategy = Exclusive \/
         (strategy = PlatformExclusive /\ r_device_platform r0 = r_device_platform new))
  | DeviceCap => r_device_id r <> r_device_id new /\ 0 < cap /\
      exists f r0, hash key s !! f = Some (Json r0) /\ r_device_id r0 = r_device_id r /\
        forall f' r', f' <> field -> hash key s' !! f' = Some (Json r') -> r_created_at r0 <= r_created_at r'
  end.

Lemma device_time (l : list Item) d t :
  devices_of l !! d = Some t ->
  (exists item, item ∈ l /\ r_device_id item.2 = d /\ r_created_at item.2 = t) /\
  (forall item, item ∈ l -> r_device_id item.2 = d -> t <= r_created_at item.2).
Proof.
  intros Hd. pose proof (devices_fold l ∅ d) as H. fold (devices_of l) in H. rewrite Hd in H.
  destruct H as (H1 & _ & [H3|H3]); [by rewrite lookup_empty in H3|]. done.
Qed.

Lemma evicted_justified l f r c :
  0 < ttl -> run = (Ok (Evicted ev), s') -> records new (map_to_list (hash key s)) = Ok l ->
  (f, r) ∈ l -> removed_devices strategy cap new l !! r_device_id r = Some c -> justified r c.
Proof.
  intros Ht Hr Hl Hi Hc. destruct (removed_spec strategy cap new l) as [_ Hwhy _ _].
  destruct (Hwhy _ _ Hc) as [([f0 r0] & Hi0 & Hd0 & Hx)|(-> & Hpos & Hno & t & Hd & Hold)]; simpl in *.
  - apply (record_iff new key s l Hl) in Hi0. unfold conflict in Hx. case_bool_decide as Hdev.
    + injection Hx as <-. simpl. congruence.
    + destruct (bool_decide_reflect (strategy = Exclusive)) as [He|]; simpl in Hx.
      { injection Hx as <-. split; [congruence|]. exists f0, r0. auto. }
      destruct (bool_decide_reflect (strategy = PlatformExclusive)) as [He|]; simpl in Hx; [|done].
      case_bool_decide; [|done]. injection Hx as <-. split; [congruence|]. exists f0, r0. auto.
  - assert (Hdev : r_device_id r <> r_device_id new).
    { specialize (Hno (f, r) Hi eq_refl). simpl in Hno. unfold conflict in Hno. by case_bool_decide. }
    destruct (device_time l _ t Hd) as [([f0 r0] & Hi0 & Hd0 & Ht0) _]. simpl in *.
    split; [done|]. split; [done|]. exists f0, r0. split; [by apply (record_iff new key s l Hl)|]. split; [done|].
    intros f' r' Hf' Hin. destruct (survivor l f' r' Ht Hr Hl Hf' Hin) as [Hi' Hn'].
    destruct (device_noted l (f', r') Hi') as [t' Hd']. simpl in Hd'.
    assert (Hy : no_younger (r_device_id r, t) (r_device_id r', t') = true) by (apply Hold; by apply elem_staying).
    apply no_younger_iff in Hy. simpl in Hy.
    pose proof (proj2 (device_time l _ t' Hd') (f', r') Hi' eq_refl) as Hle. simpl in Hle. lia.
Qed.

(** An admission evicts what the rules demand and nothing else: a session of the user is
    either kept as it was, or it is gone and reported once per session with its own device,
    physical connection and a cause that holds (same device, conflict rule, or over the cap
    with every device that stays at least as young); what is reported was a session; and
    the sessions of other users are untouched. *)
Theorem admission_evicts_only_what_it_must :
  0 < ttl -> run = (Ok (Evicted ev), s') ->
  (forall f r, f <> field -> hash key s !! f = Some (Json r) ->
     (hash key s' !! f = Some (Json r) /\ (forall e, e ∈ ev -> e_device_id e <> r_device_id r)) \/
     (hash key s' !! f = None /\
      exists c, mkEvicted (r_conversation_id r) (r_device_id r) (r_connection_id r) c ∈ ev /\ justified r c)) /\
  (forall e, e ∈ ev -> exists f r, hash key s !! f = Some (Json r) /\ justified r (e_cause e) /\
     e = mkEvicted (r_conversation_id r) (r_device_id r) (r_connection_id r) (e_cause e)) /\
  (forall k, k <> key -> hash k s' = hash k s).
Proof.
  intros Ht Hr. destruct (admitted_inv _ _ _ _ _ _ _ _ _ _ _ _ Hr) as (l & Hl & _ & Hev).
  pose proof (fun f r c => evicted_justified l f r c Ht Hr Hl) as Hj.
  pose proof (admitted_hash _ _ _ _ _ _ _ _ _ _ _ _ Ht Hr l Hl) as Hh.
  assert (Hin : forall e, e ∈ ev <-> exists f r c, (f, r) ∈ l /\
    removed_devices strategy cap new l !! r_device_id r = Some c /\
    e = mkEvicted (r_conversation_id r) (r_device_id r) (r_connection_id r) c).
  { intros e. rewrite Hev, list_elem_of_omap. unfold evicted_of. split.
    - intros ([f r] & Hi & He). simpl in He. destruct (removed_devices _ _ _ _ !! r_device_id r) as [c|] eqn:E; [|done].
      injection He as <-. by exists f, r, c.
    - intros (f & r & c & Hi & Hc & ->). exists (f, r). split; [done|]. simpl. by rewrite Hc. }
  split_and!.
  - intros f r Hf Hs. pose proof (proj2 (record_iff new key s l Hl f r) Hs) as Hi.
    rewrite Hh, decide_True, decide_False, Hs by done.
    destruct (removed_devices strategy cap new l !! r_device_id r) as [c|] eqn:E.
    + right. split; [rewrite decide_True; [done|by exists c]|]. exists c. split; [apply Hin; by exists f, r, c|]. by eapply Hj.
    + left. split; [rewrite decide_False; [done|intros [? ?]; congruence]|].
      intros e (f0 & r0 & c & _ & Hc & ->)%Hin. simpl. congruence.
  - intros e (f & r & c & Hi & Hc & ->)%Hin. exists f, r. simpl. split_and!; [|by eapply Hj|done].
    by apply (record_iff new key s l Hl).
  - intros k Hk. apply map_eq. intros f. by rewrite Hh, decide_False.
Qed.

End Rules.

(** ** The loop of [admit_connection] *)

Section Attempts.
Context (fault : schedule) (others : nat -> Store -> Store) (ttl : Z).

Abbreviation the_script c record strategy cap gs :=
  (admit_script (connection_key (tenant_id c) (user_id c)) (tenant_sessions_key (tenant_id c))
     (conns_key (r_gateway_id record) :: (conns_key <$> gs)) (id c) record ttl strategy cap (user_id c)).

(** An admission that succeeded was one run of the script, on the state it found then. *)
Lemma admit_attempts_ok attempts c record strategy cap gs n s ev n' s' :
  admit_attempts fault others ttl attempts c record strategy cap gs (n, s) = (Ok ev, (n', s')) ->
  exists gs' s0, the_script c record strategy cap gs' (redis s0) = (Ok (Evicted ev), redis s').
Proof.
  revert gs n s. induction attempts as [|a IH]; intros gs n s; cbn [admit_attempts]; [done|].
  unfold mbind, stE_bind, step, exec, on_script. set (s0 := others n s).
  destruct (the_script c record strategy cap gs (redis s0)) as [[[g|ev0]|e] db] eqn:E;
    destruct (fault n); cbn; try done; intros H.
  - by apply IH in H.
  - injection H as -> _ <-. by exists gs, s0.
Qed.

Lemma admit_connection_ok c gid strategy cap n s ev n' s' :
  admit_connection fault others ttl c gid strategy cap (n, s) = (Ok ev, (n', s')) ->
  gid <> "" /\ exists gs s0,
    the_script c (with_connection_id (record_from_connection c) gid) strategy cap gs (redis s0)
      = (Ok (Evicted ev), redis s').
Proof.
  unfold admit_connection. destruct (Str.is_empty gid) eqn:E; [done|]. intros H.
  split; [by apply Str.is_empty_false|]. by eapply admit_attempts_ok.
Qed.

End Attempts.

(** C12. Whatever sessions a user had, whatever other logins, logouts and expiries run at the same
    time and whatever round trips failed before, when a login is admitted its rules hold: the
    new session is stored, it is the only one of its device, an exclusive login leaves no
    other device, a platform-exclusive one no other device of its platform, and the devices
    online are at most the cap. *)
Theorem admission_enforces_the_device_rules fault others ttl c gid strategy cap n s ev n' s' :
  0 < ttl ->
  admit_connection fault others ttl c gid strategy cap (n, s) = (Ok ev, (n', s')) ->
  let h := hash (connection_key (tenant_id c) (user_id c)) (redis s') in
  h !! id c = Some (Json (with_connection_id (record_from_connection c) gid)) /\
  (forall f r, f <> id c -> h !! f = Some (Json r) ->
     r_device_id r <> device_id c /\ strategy <> Exclusive /\
     (strategy = PlatformExclusive -> r_device_platform r <> device_platform c)) /\
  (0 < cap -> Z.of_nat (size (devices_online h)) <= cap).
Proof.
  intros Ht H. apply admit_connection_ok in H as (_ & gs & s0 & H).
  exact (device_rules _ _ _ _ _ _ _ _ _ _ _ _ Ht H).
Qed.

Lemma add_gateways_elem own gs l g :
  g ∈ add_gateways own gs l <-> g ∈ gs \/ (g ∈ l /\ g <> own).
Proof.
  unfold add_gateways. revert gs. induction l as [|x l IH]; intros gs; simpl.
  { rewrite elem_of_nil. tauto. }
  rewrite IH, elem_of_cons. repeat case_bool_decide; simpl;
    rewrite ?elem_of_app, ?list_elem_of_singleton; destruct (decide (g = x)); subst; naive_solver.
Qed.

Lemma undeclared_nil declared removed (l : list Item) :
  (forall g, g ∈ undeclared declared removed l -> conns_key g ∈ declared) -> undeclared declared removed l = [].
Proof.
  intros H. destruct (undeclared declared removed l) as [|g gs] eqn:E; [done|]. exfalso.
  assert (Hg : g ∈ undeclared declared removed l) by (rewrite E; left).
  pose proof (H g ltac:(left)) as Hd. unfold undeclared in Hg.
  apply list_elem_of_fmap in Hg as (item & -> & [[_ Hn] _]%list_elem_of_filter). done.
Qed.

Lemma undeclared_weaken d1 d2 removed (l : list Item) g :
  (forall k, k ∈ d1 -> k ∈ d2) -> g ∈ undeclared d2 removed l -> g ∈ undeclared d1 removed l /\ conns_key g ∉ d2.
Proof.
  unfold undeclared. rewrite !list_elem_of_fmap. intros H (item & -> & [[Hg Hn] Hi]%list_elem_of_filter).
  split; [|done]. exists item. split; [done|]. apply list_elem_of_filter. naive_solver.
Qed.

(** Left alone, an admission needs at most two runs of the script: the second declares every
    gateway the first asked for. It fails only if the script refuses the sessions it finds,
    and never for racing. *)
Theorem admission_settles_in_two_scripts ttl c gid strategy cap n s l :
  gid <> "" ->
  records (with_connection_id (record_from_connection c) gid)
    (map_to_list (hash (connection_key (tenant_id c) (user_id c)) (redis s))) = Ok l ->
  exists ev n' s', admit_connection calm (fun _ s => s) ttl c gid strategy cap (n, s) = (Ok ev, (n', s')) /\
    (n' <= n + 2)%nat.
Proof.
  intros Hg Hl. unfold admit_connection. rewrite (proj2 (Str.is_empty_false gid) Hg).
  set (record := with_connection_id _ _) in *. unfold ADMIT_ATTEMPTS.
  set (removed := removed_devices strategy cap record l).
  set (own := conns_key (r_gateway_id record)).
  assert (Hrun : forall attempts gs m,
    admit_attempts calm (fun _ s => s) ttl (S attempts) c record strategy cap gs (m, s) =
      match undeclared (own :: (conns_key <$> gs)) removed l with
      | [] => (Ok (omap (evicted_of removed) l), (S m, mkStore (admit_script (connection_key (tenant_id c) (user_id c))
                (tenant_sessions_key (tenant_id c)) (own :: (conns_key <$> gs)) (id c) record ttl strategy cap (user_id c)
                (redis s)).2 (kicks s)))
      | g :: rest => admit_attempts calm (fun _ s => s) ttl attempts c record strategy cap
                       (add_gateways (r_gateway_id record) gs (g :: rest)) (S m, s)
      end).
  { intros attempts gs m. cbn [admit_attempts]. unfold mbind, stE_bind, step, on_script.
    rewrite exec_calm. unfold admit_script. rewrite Hl. fold removed own.
    destruct (undeclared _ removed l); [done|]. cbn. by destruct s. }
  rewrite Hrun. destruct (undeclared (own :: (conns_key <$> [])) removed l) as [|g rest] eqn:E; [by eexists _, _, _; split; [done|lia]|].
  rewrite Hrun. rewrite undeclared_nil; [by eexists _, _, _; split; [done|lia]|].
  intros g' Hg'. apply (undeclared_weaken (own :: (conns_key <$> []))) in Hg' as [H1 H2].
  2: { intros k ->%list_elem_of_singleton. left. }
  rewrite E in H1. apply elem_of_cons. destruct (decide (g' = r_gateway_id record)) as [->|Hn]; [by left|right].
  apply list_elem_of_fmap. exists g'. split; [done|]. apply add_gateways_elem. by right.
Qed.

(** ** Witnesses *)

Module Sample.

Definition device (i dev platform : string) (at_ : Z) : Connection :=
  mkConnection i "u1" dev "acme" platform "srv" "gw-1" Normal 0 at_ at_.

Definition stored (i dev platform conn : string) (at_ : Z) : Payload :=
  Json (with_connection_id (record_from_connection (device i dev platform at_)) conn).

Definition two_sessions : Store :=
  mkStore (mkKeyspace {[ connection_key "acme" "u1" :=
      {[ "s1" := stored "s1" "phone" "ios" "p1" 1000; "s2" := stored "s2" "laptop" "mac" "p2" 2000 ]} ]}
    ∅ ∅ 5000) [].

Definition third : Connection := device "s3" "tablet" "ios" 5000.

End Sample.

Lemma admission_enforces_the_device_rules_witness :
  exists ev n' s',
    admit_connection calm (fun _ s => s) 60 Sample.third "p3" Coexist 2 (0%nat, Sample.two_sessions) = (Ok ev, (n', s')) /\
    length ev = 1%nat /\
    Z.of_nat (size (devices_online (hash (connection_key "acme" "u1") (redis s')))) <= 2.
Proof.
  set (out := admit_connection calm (fun _ s => s) 60 Sample.third "p3" Coexist 2 (0%nat, Sample.two_sessions)).
  assert (H : exists ev n' s', out = (Ok ev, (n', s')) /\ length ev = 1%nat).
  { eexists _, _, _. split; [vm_compute; reflexivity|reflexivity]. }
  destruct H as (ev & n' & s' & H & Hl). exists ev, n', s'. split; [exact H|]. split; [exact Hl|].
  pose proof (admission_enforces_the_device_rules calm (fun _ s => s) 60 Sample.third "p3" Coexist 2 0
                Sample.two_sessions ev n' s' ltac:(lia) H) as (_ & _ & Hc).
  apply Hc. lia.
Defined.

Lemma admission_evicts_only_what_it_must_witness :
  exists ev s',
    admit_script (connection_key "acme" "u1") (tenant_sessions_key "acme") [conns_key "gw-1"] "s3"
      (with_connection_id (record_from_connection Sample.third) "p3") 60 Coexist 2 "u1"
      (redis Sample.two_sessions) = (Ok (Evicted ev), s') /\
    ev = [mkEvicted "s1" "phone" "p1" DeviceCap] /\
    (forall k, k <> connection_key "acme" "u1" -> hash k s' = hash k (redis Sample.two_sessions)).
Proof.
  set (out := admit_script _ _ _ _ _ _ _ _ _ _).
  assert (H : exists s', out = (Ok (Evicted [mkEvicted "s1" "phone" "p1" DeviceCap]), s')).
  { eexists. vm_compute. reflexivity. }
  destruct H as (s' & H). eexists _, s'. split; [exact H|]. split; [reflexivity|].
  exact (proj2 (proj2 (admission_evicts_only_what_it_must _ _ _ _ _ 60 _ _ _ _ s' _ (eq_refl : 0 < 60) H))).
Defined.

Lemma admission_settles_in_two_scripts_witness :
  exists ev n' s',
    admit_connection calm (fun _ s => s) 60 Sample.third "p3" Exclusive 0 (0%nat, Sample.two_sessions) = (Ok ev, (n', s')) /\
    (n' <= 2)%nat.
Proof.
  assert (H : exists l, records (with_connection_id (record_from_connection Sample.third) "p3")
    (map_to_list (hash (connection_key "acme" "u1") (redis Sample.two_sessions))) = Ok l).
  { eexists. vm_compute. reflexivity. }
  destruct H as (l & H).
  apply (admission_settles_in_two_scripts 60 Sample.third "p3" Exclusive 0 0 Sample.two_sessions l);
    [discriminate|exact H].
Defined.
