(* ===== verification/OnlineIndex.v ===== *)
(** * The indexes of the session store

    Every session must be found through the device index of its tenant (to kick a
    tenant) and through the connection set of its gateway (to clean up after a
    gateway that died). The file proves that over logins, kicks, index cleanups,
    heartbeats, logouts and the passing of time, and shows the two interleavings of
    a method that reads and then writes in which it fails. *)

From S2P Require Import Prelude.
From S2P Require Import Database.
From S2P Require Import Tenant.
From S2P Require Import Keyspace.
From S2P Require Import GatewayLease.
From S2P Require Import OnlineStore.
From S2P Require Import OnlineAdmission.
From stdpp Require Import base gmap list strings.
From Stdlib Require Import Lia ZArith Ascii.

Local Open Scope Z_scope.

(** ** Keys of different kinds differ *)

Lemma connection_key_inj t1 u1 t2 u2 :
  is_valid_tenant_id t1 = true -> is_valid_tenant_id t2 = true ->
  connection_key t1 u1 = connection_key t2 u2 -> t1 = t2 /\ u1 = u2.
Proof.
  intros H1%valid_tenant_no_colon H2%valid_tenant_no_colon H%Str.append_inj_l.
  by apply (Str.join_inj ":"%char) in H.
Qed.

Lemma tenant_sessions_key_inj t1 t2 : tenant_sessions_key t1 = tenant_sessions_key t2 -> t1 = t2.
Proof. apply Str.append_inj_l. Qed.

Lemma session_not_index t u t' : connection_key t u <> tenant_sessions_key t'.
Proof. done. Qed.
Lemma session_not_conns t u g : connection_key t u <> conns_key g.
Proof. done. Qed.
Lemma index_not_conns t g : tenant_sessions_key t <> conns_key g.
Proof. done. Qed.
Lemma index_not_session t' t u : tenant_sessions_key t' <> connection_key t u.
Proof. done. Qed.
Lemma conns_not_session g t u : conns_key g <> connection_key t u.
Proof. done. Qed.
Lemma conns_not_index g t : conns_key g <> tenant_sessions_key t.
Proof. done. Qed.

#[local] Hint Resolve session_not_index session_not_conns index_not_conns
  index_not_session conns_not_session conns_not_index : core.

(** ** Deadlines *)

Section Deadlines.
Context {V : Type}.
Implicit Types s : Keyspace V.

Lemma deadline_hdel k k' f s :
  deadlines (hdel k' f s) !! k =
    if decide (k = k' /\ delete f (hash k' s) = ∅ /\ is_Some (hashes s !! k')) then None else deadlines s !! k.
Proof.
  unfold hdel. case_decide as E; simpl.
  - case_decide as E2; case_decide as E3; try done.
    + by rewrite (proj1 E3), lookup_delete_eq.
    + rewrite lookup_delete_ne; [done|]. naive_solver.
    + naive_solver.
  - case_decide as E3; [|done]. naive_solver.
Qed.

Lemma deadline_srem k k' m s :
  deadlines (srem k' m s) !! k =
    if decide (k = k' /\ smembers k' s ∖ {[ m ]} = ∅ /\ is_Some (sets s !! k')) then None else deadlines s !! k.
Proof.
  unfold srem. case_decide as E; simpl.
  - case_decide as E2; case_decide as E3; try done.
    + by rewrite (proj1 E3), lookup_delete_eq.
    + rewrite lookup_delete_ne; [done|]. naive_solver.
    + naive_solver.
  - case_decide as E3; [|done]. naive_solver.
Qed.

(** A removal leaves every deadline, or drops the one of the key it emptied. *)
Lemma deadline_hdel_ne k k' f s : k <> k' -> deadlines (hdel k' f s) !! k = deadlines s !! k.
Proof. intros H. rewrite deadline_hdel, decide_False; naive_solver. Qed.

Lemma deadline_srem_ne k k' m s : k <> k' -> deadlines (srem k' m s) !! k = deadlines s !! k.
Proof. intros H. rewrite deadline_srem, decide_False; naive_solver. Qed.

Lemma deadline_hdel_live k f f' v s :
  hash k (hdel k f s) !! f' = Some v -> deadlines (hdel k f s) !! k = deadlines s !! k.
Proof.
  rewrite hash_hdel, decide_True by done. intros H. rewrite deadline_hdel, decide_False; [done|].
  intros (_ & E & _). by rewrite E in H.
Qed.

Lemma deadline_srem_live k m m' s :
  m' ∈ smembers k (srem k m s) -> deadlines (srem k m s) !! k = deadlines s !! k.
Proof.
  rewrite smembers_srem, decide_True by done. intros H. rewrite deadline_srem, decide_False; [done|].
  intros (_ & E & _). rewrite E in H. by apply elem_of_empty in H.
Qed.

Lemma deadline_srem_le k k' m s d : deadlines (srem k' m s) !! k = Some d -> deadlines s !! k = Some d.
Proof. rewrite deadline_srem. by case_decide. Qed.

Lemma deadline_hdel_le k k' f s d : deadlines (hdel k' f s) !! k = Some d -> deadlines s !! k = Some d.
Proof. rewrite deadline_hdel. by case_decide. Qed.

Lemma exists_hset k f (v : V) s : exists_key k (hset k f v s) = true.
Proof. unfold exists_key, hset. simpl. by rewrite lookup_insert_eq, bool_decide_true by done. Qed.

Lemma exists_sadd k m s : exists_key k (sadd k m s) = true.
Proof.
  unfold exists_key, sadd. simpl. rewrite lookup_insert_eq, (bool_decide_true (is_Some (Some _))) by done.
  by rewrite orb_true_r.
Qed.

Lemma deadline_expire k k' n s :
  0 < n ->
  deadlines (expire k' n s) !! k =
    if decide (k = k' /\ exists_key k' s = true) then Some (clock s + n * 1000) else deadlines s !! k.
Proof.
  intros Hn. unfold expire. rewrite (proj2 (Z.leb_gt n 0)) by done.
  destruct (exists_key k' s) eqn:E; simpl.
  - destruct (decide (k = k')) as [->|Hk].
    + rewrite lookup_insert_eq, decide_True; done.
    + rewrite lookup_insert_ne, decide_False; naive_solver.
  - rewrite decide_False; naive_solver.
Qed.

Lemma clock_hdel k f s : clock (hdel k f s) = clock s.
Proof. unfold hdel. by case_decide. Qed.
Lemma clock_srem k m s : clock (srem k m s) = clock s.
Proof. unfold srem. by case_decide. Qed.
Lemma clock_expire k n s : clock (expire k n s) = clock s.
Proof. unfold expire. repeat case_match; done. Qed.

End Deadlines.

(** ** The invariant *)

Record consistent (ttl : Z) (s : Redis) : Prop := {
  (** Only sessions of their tenant and user, under their own field. *)
  con_session k f p : hash k s !! f = Some p ->
    exists t u r, k = connection_key t u /\ is_valid_tenant_id t = true /\ user_id_new u = Ok u /\ p = Json r /\
      r_tenant_id r = t /\ r_conversation_id r = f /\ device_id_new (r_device_id r) = Ok (r_device_id r);
  (** A device has one session. *)
  con_device t u f f' r r' : is_valid_tenant_id t = true ->
    hash (connection_key t u) s !! f = Some (Json r) -> hash (connection_key t u) s !! f' = Some (Json r') ->
    r_device_id r = r_device_id r' -> f = f';
  (** Every session is in both indexes. *)
  con_indexed t u f r : is_valid_tenant_id t = true -> hash (connection_key t u) s !! f = Some (Json r) ->
    tenant_session_member u (r_device_id r) ∈ smembers (tenant_sessions_key t) s /\
    connection_member t u f ∈ smembers (conns_key (r_gateway_id r)) s;
  (** The index of a tenant expires no earlier than any of its sessions. *)
  con_outlives t u f p : is_valid_tenant_id t = true -> hash (connection_key t u) s !! f = Some p ->
    exists d d', deadlines s !! connection_key t u = Some d /\ deadlines s !! tenant_sessions_key t = Some d' /\ d <= d';
  con_bounded k d : deadlines s !! k = Some d -> d <= clock s + ttl * 1000;
  (** The connection sets of gateways do not expire. *)
  con_conns g : deadlines s !! conns_key g = None;
}.

Lemma consistent_empty ttl now : consistent ttl (mkKeyspace ∅ ∅ ∅ now).
Proof. split; unfold hash; simpl; intros *; rewrite ?lookup_empty; done. Qed.

(** A session under a valid tenant's key. *)
Lemma con_at ttl s t u f p :
  consistent ttl s -> is_valid_tenant_id t = true -> hash (connection_key t u) s !! f = Some p ->
  exists r, p = Json r /\ r_tenant_id r = t /\ r_conversation_id r = f.
Proof.
  intros Hc Ht H. destruct (con_session _ _ Hc _ _ _ H) as (t' & u' & r & Hk & Ht' & _ & -> & <- & <- & _).
  apply connection_key_inj in Hk as [-> ->]; [|done..]. by exists r.
Qed.

(** Time passes. *)
Lemma consistent_tick ttl now s : 0 < ttl -> consistent ttl s -> consistent ttl (tick now s).
Proof.
  intros Hp Hc.
  assert (Hh : forall k f p, hash k (tick now s) !! f = Some p -> hash k s !! f = Some p /\ live s now k = true).
  { intros k f p. rewrite hash_tick. destruct (live s now k); [done|]. by rewrite lookup_empty. }
  assert (Hd : forall k, deadlines (tick now s) !! k = if live s now k then deadlines s !! k else None).
  { intros k. simpl. rewrite map_lookup_filter. destruct (deadlines s !! k) as [d|] eqn:E; simpl; [|by destruct (live s now k)].
    destruct (live s now k) eqn:El; by rewrite ?option_guard_True, ?option_guard_False by congruence. }
  assert (Hidx : forall t u f p, is_valid_tenant_id t = true -> hash (connection_key t u) s !! f = Some p ->
    live s now (connection_key t u) = true -> live s now (tenant_sessions_key t) = true).
  { intros t u f p Ht H. destruct (con_outlives _ _ Hc _ _ _ _ Ht H) as (d & d' & Hd1 & Hd2 & Hle).
    unfold live. rewrite Hd1, Hd2, !Z.leb_le. lia. }
  split.
  - intros k f p [H _]%Hh. by eapply (con_session _ _ Hc).
  - intros t u f f' r r' Ht [H _]%Hh [H' _]%Hh. by eapply (con_device _ _ Hc).
  - intros t u f r Ht [H Hl]%Hh. destruct (con_indexed _ _ Hc _ _ _ _ Ht H) as [H1 H2].
    rewrite !smembers_tick, (Hidx _ _ _ _ Ht H Hl). split; [done|].
    unfold live. by rewrite (con_conns _ _ Hc).
  - intros t u f p Ht [H Hl]%Hh. destruct (con_outlives _ _ Hc _ _ _ _ Ht H) as (d & d' & Hd1 & Hd2 & Hle).
    exists d, d'. by rewrite !Hd, Hl, (Hidx _ _ _ _ Ht H Hl).
  - intros k d. rewrite Hd. destruct (live s now k); [|done]. intros H%(con_bounded _ _ Hc).
    cbn [clock tick]. lia.
  - intros g. rewrite Hd, (con_conns _ _ Hc). by destruct (live s now _).
Qed.

(** ** Removing members *)

(** An index entry may go when no session needs it. *)
Lemma consistent_srem ttl s k m :
  consistent ttl s ->
  (forall t u f r, is_valid_tenant_id t = true -> hash (connection_key t u) s !! f = Some (Json r) ->
     (k = tenant_sessions_key t -> m <> tenant_session_member u (r_device_id r)) /\
     (k = conns_key (r_gateway_id r) -> m <> connection_member t u f)) ->
  (forall t u, k <> connection_key t u) ->
  consistent ttl (srem k m s).
Proof.
  intros Hc Hm Hk.
  assert (Hkeep : forall k' m', m' ∈ smembers k' s -> (k = k' -> m <> m') -> m' ∈ smembers k' (srem k m s)).
  { intros k' m' Hin Hne. rewrite smembers_srem. case_decide as E; [|done].
    apply elem_of_difference. split; [done|]. rewrite elem_of_singleton. intros ->. by apply Hne. }
  split.
  - intros k' f p. rewrite hash_srem. by eapply (con_session _ _ Hc).
  - intros t u f f' r r' Ht. rewrite !hash_srem. by eapply (con_device _ _ Hc).
  - intros t u f r Ht. rewrite hash_srem. intros H. destruct (con_indexed _ _ Hc _ _ _ _ Ht H) as [H1 H2].
    destruct (Hm t u f r Ht H) as [Hm1 Hm2]. split; by apply Hkeep.
  - intros t u f p Ht. rewrite hash_srem. intros H.
    destruct (con_at _ _ _ _ _ _ Hc Ht H) as (r & -> & _).
    destruct (con_outlives _ _ Hc _ _ _ _ Ht H) as (d & d' & Hd1 & Hd2 & Hle). exists d, d'.
    rewrite deadline_srem_ne by done. split; [done|]. split; [|done].
    destruct (decide (tenant_sessions_key t = k)) as [<-|Hne]; [|by rewrite deadline_srem_ne].
    rewrite (deadline_srem_live _ _ (tenant_session_member u (r_device_id r))); [done|].
    apply Hkeep; [by eapply (con_indexed _ _ Hc)|]. by apply (Hm t u f r).
  - intros k' d H%deadline_srem_le. rewrite clock_srem. by eapply (con_bounded _ _ Hc).
  - intros g. rewrite deadline_srem. case_decide; [done|]. by eapply (con_conns _ _ Hc).
Qed.

(** A session may go, with its entries still there. *)
Lemma consistent_hdel ttl s t0 u0 f : consistent ttl s -> consistent ttl (hdel (connection_key t0 u0) f s).
Proof.
  intros Hc. set (k := connection_key t0 u0).
  assert (Hh : forall k' f' p, hash k' (hdel k f s) !! f' = Some p -> hash k' s !! f' = Some p).
  { intros k' f' p. rewrite hash_hdel. case_decide; [|done]. by intros [_ ?]%lookup_delete_Some. }
  split.
  - intros k' f' p H%Hh. by eapply (con_session _ _ Hc).
  - intros t u f1 f2 r1 r2 Ht H1%Hh H2%Hh. by eapply (con_device _ _ Hc).
  - intros t u f' r Ht H%Hh. rewrite !smembers_hdel. by eapply (con_indexed _ _ Hc).
  - intros t u f' p Ht H. destruct (con_outlives _ _ Hc _ _ _ _ Ht (Hh _ _ _ H)) as (d & d' & Hd1 & Hd2 & Hle).
    exists d, d'. rewrite (deadline_hdel_ne (tenant_sessions_key t)) by done. split; [|done].
    destruct (decide (connection_key t u = k)) as [Heq|Hne]; [|by rewrite deadline_hdel_ne].
    rewrite Heq in *. by rewrite (deadline_hdel_live _ _ _ _ _ H).
  - intros k' d H%deadline_hdel_le. rewrite clock_hdel. by eapply (con_bounded _ _ Hc).
  - intros g. rewrite deadline_hdel. case_decide; [done|]. by eapply (con_conns _ _ Hc).
Qed.

(** ** Storing a session *)

(** HSET and EXPIRE of a session, SADD and EXPIRE of the tenant index, SADD of the gateway
    set: the writes a login and [save_connection] end with. *)
Definition put_session (ttl : Z) (t u f : string) (r : RedisConnectionRecord) (s : Redis) : Redis :=
  sadd (conns_key (r_gateway_id r)) (connection_member t u f)
    (expire (tenant_sessions_key t) ttl
      (sadd (tenant_sessions_key t) (tenant_session_member u (r_device_id r))
        (expire (connection_key t u) ttl (hset (connection_key t u) f (Json r) s)))).

Section Put.
Context (ttl : Z) (t u f : string) (r : RedisConnectionRecord) (s : Redis).
Hypothesis Hp : 0 < ttl.

Lemma put_hash k : hash k (put_session ttl t u f r s) =
  if decide (k = connection_key t u) then <[f := Json r]> (hash k s) else hash k s.
Proof. unfold put_session. by rewrite hash_sadd, hash_expire, hash_sadd, hash_expire, hash_hset. Qed.

Lemma put_smembers k m : m ∈ smembers k (put_session ttl t u f r s) <->
  (k = conns_key (r_gateway_id r) /\ m = connection_member t u f) \/
  (k = tenant_sessions_key t /\ m = tenant_session_member u (r_device_id r)) \/ m ∈ smembers k s.
Proof.
  unfold put_session. rewrite smembers_sadd, smembers_expire, smembers_sadd, smembers_expire, smembers_hset by done.
  repeat case_decide; rewrite ?elem_of_union, ?elem_of_singleton; naive_solver.
Qed.

Lemma put_clock : clock (put_session ttl t u f r s) = clock s.
Proof. unfold put_session. simpl. by rewrite clock_expire; simpl; rewrite clock_expire. Qed.

Lemma put_deadline k : deadlines (put_session ttl t u f r s) !! k =
  if decide (k = connection_key t u \/ k = tenant_sessions_key t) then Some (clock s + ttl * 1000)
  else deadlines s !! k.
Proof.
  unfold put_session. simpl. rewrite deadline_expire, exists_sadd by done. simpl.
  rewrite clock_expire, deadline_expire, exists_hset by done. simpl. repeat case_decide; naive_solver.
Qed.

Lemma consistent_put :
  is_valid_tenant_id t = true -> user_id_new u = Ok u -> device_id_new (r_device_id r) = Ok (r_device_id r) ->
  r_tenant_id r = t -> r_conversation_id r = f ->
  (forall f' r', f' <> f -> hash (connection_key t u) s !! f' = Some (Json r') -> r_device_id r' <> r_device_id r) ->
  consistent ttl s -> consistent ttl (put_session ttl t u f r s).
Proof.
  intros Ht Hu Hdev Hrt Hrf Hone Hc. split.
  - intros k f' p. rewrite put_hash. case_decide as E; [|by apply (con_session _ _ Hc)].
    destruct (decide (f' = f)) as [->|Hf].
    + rewrite lookup_insert_eq. intros [= <-]. exists t, u, r. done.
    + rewrite lookup_insert_ne by done. by apply (con_session _ _ Hc).
  - intros t' u' f1 f2 r1 r2 Ht'. rewrite put_hash. case_decide as E; [|by apply (con_device _ _ Hc)].
    apply connection_key_inj in E as [-> ->]; [|done..].
    destruct (decide (f1 = f)) as [->|H1], (decide (f2 = f)) as [->|H2]; [done|..];
      rewrite ?lookup_insert_eq, ?lookup_insert_ne by done.
    + intros [= <-] H E. by destruct (Hone f2 r2 H2 H).
    + intros H [= <-] E. by destruct (Hone f1 r1 H1 H).
    + by apply (con_device _ _ Hc).
  - intros t' u' f' r' Ht'. rewrite put_hash, !put_smembers. case_decide as E.
    + apply connection_key_inj in E as [-> ->]; [|done..]. destruct (decide (f' = f)) as [->|Hf].
      * rewrite lookup_insert_eq. intros [= <-]. auto.
      * rewrite lookup_insert_ne by done. intros H. destruct (con_indexed _ _ Hc _ _ _ _ Ht' H). auto.
    + intros H. destruct (con_indexed _ _ Hc _ _ _ _ Ht' H). auto.
  - intros t' u' f' p Ht'. rewrite put_hash, !put_deadline. case_decide as E.
    + intros _. exists (clock s + ttl * 1000), (clock s + ttl * 1000).
      apply connection_key_inj in E as [-> ->]; [|done..]. rewrite !decide_True by auto. done.
    + intros H. destruct (con_outlives _ _ Hc _ _ _ _ Ht' H) as (d & d' & Hd1 & Hd2 & Hle).
      rewrite (decide_False (P := connection_key t' u' = _ \/ _)) by (intros [?|?]; [done|by eapply session_not_index]).
      exists d. rewrite Hd1. case_decide as E2.
      * eexists. split; [done|]. split; [done|]. by apply (con_bounded _ _ Hc) in Hd1.
      * by exists d'.
  - intros k d. rewrite put_clock, put_deadline. case_decide; [intros [= <-]; lia|]. by apply (con_bounded _ _ Hc).
  - intros g. rewrite put_deadline, decide_False; [by apply (con_conns _ _ Hc)|].
    intros [E|E]; [by eapply conns_not_session|by eapply conns_not_index].
Qed.

End Put.

(** ** Login *)

Lemma consistent_evict ttl s t u item :
  consistent ttl s -> r_tenant_id item.2 = t -> consistent ttl (evict (connection_key t u) u s item).
Proof.
  intros Hc Ht. unfold evict. rewrite Ht. apply consistent_srem; [by apply consistent_hdel| |done].
  intros t' u' f' r' Ht'. rewrite hash_hdel. intros H. split; [done|].
  intros _ [-> [-> ->]]%eq_sym%connection_member_inj.
  rewrite decide_True, lookup_delete_eq in H by done. done.
Qed.

Lemma consistent_evict_all ttl t u (out : list Item) s :
  consistent ttl s -> (forall item, item ∈ out -> r_tenant_id item.2 = t) ->
  consistent ttl (foldl (evict (connection_key t u) u) s out).
Proof.
  revert s. induction out as [|item out IH]; intros s Hc Ho; [done|]. simpl. apply IH.
  - apply consistent_evict; [done|]. apply Ho. by left.
  - intros x Hx. apply Ho. by right.
Qed.

Lemma consistent_unindex_all ttl t u (ds : list (string * EvictionCause)) s :
  consistent ttl s -> is_valid_tenant_id t = true ->
  (forall d f r, d ∈ ds -> hash (connection_key t u) s !! f = Some (Json r) -> r_device_id r <> d.1) ->
  consistent ttl (foldl (fun s d => srem (tenant_sessions_key t) (tenant_session_member_prefix u +:+ d.1) s) s ds).
Proof.
  revert s. induction ds as [|d ds IH]; intros s Hc Ht Hd; [done|]. simpl. apply IH; [|done|].
  - apply (consistent_srem _ _ _ (tenant_session_member u d.1)); [done| |done].
    intros t' u' f' r' Ht' H. split; [|done]. intros ->%tenant_sessions_key_inj [-> Hdd]%tenant_session_member_inj.
    eapply Hd; [by left|done|done].
  - intros d' f r Hin. rewrite hash_srem. apply Hd. by right.
Qed.

Lemma consistent_admit ttl s t u f gs strategy cap new reply s' :
  0 < ttl -> consistent ttl s -> is_valid_tenant_id t = true ->
  user_id_new u = Ok u -> device_id_new (r_device_id new) = Ok (r_device_id new) ->
  r_tenant_id new = t -> r_conversation_id new = f ->
  admit_script (connection_key t u) (tenant_sessions_key t) (conns_key (r_gateway_id new) :: gs) f new ttl strategy cap u s
    = (reply, s') -> consistent ttl s'.
Proof.
  intros Hp Hc Ht Hu Hdev Hnt Hnf Hrun. pose proof Hrun as Hcopy. unfold admit_script in Hcopy.
  destruct (records new (map_to_list (hash (connection_key t u) s))) as [l|e] eqn:Hl; [|by injection Hcopy as _ <-].
  destruct (undeclared _ _ l) eqn:Hd; [|by injection Hcopy as _ <-]. clear Hcopy.
  assert (Hev : reply = Ok (Evicted (omap (evicted_of (removed_devices strategy cap new l)) l))).
  { unfold admit_script in Hrun. rewrite Hl, Hd in Hrun. by injection Hrun as <-. }
  rewrite Hev in Hrun. rewrite (admitted_state _ _ _ _ _ _ _ _ _ _ _ _ Hrun l Hl). cbn [head default].
  assert (Hgone : forall f' r d, is_Some (removed_devices strategy cap new l !! d) ->
    hash (connection_key t u) (foldl (evict (connection_key t u) u) s
      (filter (fun item => gone (removed_devices strategy cap new l) item = true) l)) !! f' = Some (Json r) ->
    r_device_id r <> d).
  { intros f' r d Hg. rewrite evict_hash. case_decide as E; [done|]. intros H Heq. subst d.
    destruct E. split; [done|]. apply (out_field _ _ strategy cap _ l Hl). by exists r. }
  rewrite Hnt. apply (consistent_put ttl t u f new); [done..| |].
  { intros f' r' Hne. rewrite unindex_hash. intros H. destruct (decide (r_device_id r' = r_device_id new)) as [E|]; [|done].
    exfalso. refine (Hgone f' r' _ _ H E).
    rewrite evict_hash in H. case_decide; [done|]. apply (record_iff _ _ _ _ Hl) in H.
    rewrite <- E. exists Replaced. apply (rem_conflict _ _ _ _ _ (removed_spec strategy cap new l) (f', r')); [done|].
    unfold conflict. simpl. by rewrite bool_decide_true. }
  apply consistent_unindex_all; [|done|].
  - apply consistent_evict_all; [done|]. intros item [_ Hi]%list_elem_of_filter.
    destruct (records_ok _ _ _ Hl) as [_ Hlt]. by rewrite (Hlt item Hi).
  - intros [d c] f' r Hdc%elem_of_map_to_list H. eapply Hgone; [by exists c|exact H].
Qed.

(** ** Kick, cleanup, logout and heartbeat *)

Lemma value_iff (h : gmap string Payload) p : p ∈ (map_to_list h).*2 <-> exists f, h !! f = Some p.
Proof.
  rewrite list_elem_of_fmap. split.
  - intros ([f p'] & -> & H%elem_of_map_to_list). by exists f.
  - intros [f H]. exists (f, p). split; [done|]. by apply elem_of_map_to_list.
Qed.

(** Removing a session and, when its device has no other, the device. *)
Lemma consistent_drop ttl s t u f dev g (last : bool) :
  consistent ttl s -> is_valid_tenant_id t = true ->
  (last = true -> forall f' r', f' <> f -> hash (connection_key t u) s !! f' = Some (Json r') -> r_device_id r' <> dev) ->
  consistent ttl (srem (conns_key g) (connection_member t u f)
    (if last then srem (tenant_sessions_key t) (tenant_session_member u dev) (hdel (connection_key t u) f s)
     else hdel (connection_key t u) f s)).
Proof.
  intros Hc Ht Hlast.
  assert (Hh : forall t' u' f' r', hash (connection_key t' u') (hdel (connection_key t u) f s) !! f' = Some (Json r') ->
    is_valid_tenant_id t' = true ->
    ~ (t' = t /\ u' = u /\ f' = f) /\ hash (connection_key t' u') s !! f' = Some (Json r')).
  { intros t' u' f' r'. rewrite hash_hdel. case_decide as E.
    - intros [Hne H]%lookup_delete_Some Ht'. split; [|done]. intros (-> & -> & ->). done.
    - intros H _. split; [|done]. intros (-> & -> & ->). done. }
  apply consistent_srem; [| |done].
  - destruct last; [|by apply consistent_hdel]. apply consistent_srem; [by apply consistent_hdel| |done].
    intros t' u' f' r' Ht' H. split; [|done].
    intros <-%tenant_sessions_key_inj [<- Hd]%tenant_session_member_inj.
    destruct (Hh _ _ _ _ H Ht') as [Hne H']. apply (Hlast eq_refl f' r'); [naive_solver|done|done].
  - intros t' u' f' r' Ht' H. split; [done|]. intros _ (<- & <- & <-)%connection_member_inj.
    assert (H' : hash (connection_key t u) (hdel (connection_key t u) f s) !! f = Some (Json r')).
    { by destruct last; rewrite ?hash_srem in H. }
    destruct (Hh _ _ _ _ H' Ht) as [Hne _]. by destruct Hne.
Qed.

Lemma consistent_kick ttl s t u f g conn r s' :
  consistent ttl s -> is_valid_tenant_id t = true ->
  remove_for_kick (connection_key t u) (tenant_sessions_key t) (conns_key g) f t u conn s = (r, s') ->
  consistent ttl s'.
Proof.
  intros Hc Ht. unfold remove_for_kick, hget.
  destruct (hash (connection_key t u) s !! f) as [[rec|]|] eqn:E; [|by intros [= _ <-]..].
  destruct (con_at _ _ _ _ _ _ Hc Ht E) as (r0 & [= <-] & _ & Hf).
  destruct (_ || _); [by intros [= _ <-]|]. case_bool_decide; [by intros [= _ <-]|].
  case_bool_decide; [by intros [= _ <-]|].
  set (keep := existsb _ _). intros [= _ <-].
  pose proof (consistent_drop ttl s t u f (r_device_id rec) g (negb keep) Hc Ht) as Hd.
  replace (if keep then _ else _) with
    (if negb keep then srem (tenant_sessions_key t) (tenant_session_member u (r_device_id rec)) (hdel (connection_key t u) f s)
     else hdel (connection_key t u) f s) by by destruct keep.
  apply Hd. intros Hk f' r' Hne H'. destruct (con_at _ _ _ _ _ _ Hc Ht H') as (r1 & [= <-] & _ & Hf').
  intros Hdev. apply negb_true_iff, not_true_iff_false in Hk. apply Hk.
  apply existsb_exists. exists (Json r'). split.
  - apply list_elem_of_In, value_iff. by exists f'.
  - rewrite !bool_decide_true; [done|done|congruence].
Qed.

Lemma holds_device_false t dev values r :
  holds_device t dev values = Ok false -> Json r ∈ values -> r_tenant_id r = t -> r_device_id r <> dev.
Proof.
  induction values as [|[r0|] values IH]; simpl; [by intros _ ?%elem_of_nil| |done].
  intros H Hin Ht Hd. destruct (bool_decide_reflect (r_tenant_id r0 = t)); simpl in H.
  - case_bool_decide; [done|]. apply elem_of_cons in Hin as [[= ->]|Hin]; [done|]. by apply IH.
  - apply elem_of_cons in Hin as [[= ->]|Hin]; [done|]. by apply IH.
Qed.

Lemma consistent_unindex ttl s t u dev r s' :
  consistent ttl s -> is_valid_tenant_id t = true ->
  unindex_if_absent (connection_key t u) (tenant_sessions_key t) t dev (tenant_session_member u dev) s = (r, s') ->
  consistent ttl s'.
Proof.
  intros Hc Ht. unfold unindex_if_absent.
  destruct (holds_device _ _ _) as [[]|e] eqn:E; intros [= _ <-]; [done| |done].
  apply consistent_srem; [done| |done]. intros t' u' f' r' Ht' H. split; [|done].
  intros <-%tenant_sessions_key_inj [<- ->]%tenant_session_member_inj.
  destruct (con_at _ _ _ _ _ _ Hc Ht H) as (r0 & [= <-] & Hrt & _).
  eapply holds_device_false; [exact E| |exact Hrt|done]. apply value_iff. by exists f'.
Qed.

(** The writes of a heartbeat. *)
Definition touch_session (ttl : Z) (t u f : string) (r : RedisConnectionRecord) (s : Redis) : Redis :=
  expire (tenant_sessions_key t) ttl (expire (connection_key t u) ttl (hset (connection_key t u) f (Json r) s)).

Lemma consistent_touch ttl s t u f r now :
  0 < ttl -> consistent ttl s -> is_valid_tenant_id t = true ->
  hash (connection_key t u) s !! f = Some (Json r) ->
  consistent ttl (touch_session ttl t u f (with_last_seen r now) s).
Proof.
  intros Hp Hc Ht H. destruct (con_at _ _ _ _ _ _ Hc Ht H) as (r0 & [= <-] & Hrt & Hrf).
  destruct (con_indexed _ _ Hc _ _ _ _ Ht H) as [Hi1 Hi2].
  replace (touch_session ttl t u f (with_last_seen r now) s) with (put_session ttl t u f (with_last_seen r now) s).
  { destruct (con_session _ _ Hc _ _ _ H) as (t' & u' & r' & Hk & Ht' & Hu & [= <-] & _ & _ & Hdev).
    apply connection_key_inj in Hk as [<- <-]; [|done..]. apply consistent_put; try done.
    intros f' r' Hne H' Hd. apply Hne. by apply (con_device _ _ Hc t u f' f r' r). }
  unfold put_session, touch_session. simpl.
  assert (Hs : forall k m (s0 : Redis), m ∈ smembers k s0 -> sadd k m s0 = s0).
  { intros k m [h st d c] Hm. unfold sadd, smembers in *. simpl in *. f_equal. apply insert_id.
    destruct (st !! k) as [x|]; simpl in *; [|by apply elem_of_empty in Hm]. f_equal. set_solver. }
  rewrite (Hs (tenant_sessions_key t)); [|by rewrite smembers_expire, smembers_hset].
  apply Hs. by rewrite !smembers_expire, smembers_hset.
Qed.

Lemma check_records_ok t values l r :
  check_records t values = Ok l -> r ∈ l <-> Json r ∈ values.
Proof.
  unfold check_records. intros H. inv_ok. rename a into l0.
  assert (Hl : l0 = l) by (destruct (existsb _ l0); [done|by injection H]). subst l0.
  clear H. revert l Ha. induction values as [|[r0|] values IH]; simpl; intros l Ha; [|inv_ok|done].
  - injection Ha as <-. by rewrite !elem_of_nil.
  - rewrite !elem_of_cons, (IH _ Ha0). naive_solver.
Qed.

(** Nothing else runs in between. *)
Definition alone : nat -> Store -> Store := fun _ s => s.

Lemma alone_write fault err (f : Store -> Store) n (s : Store) (P : Store -> Prop) :
  P s -> P (f s) -> P (step fault alone err (fun s => (Ok (), f s)) (n, s)).2.2.
Proof. intros H1 H2. unfold step, alone, exec. by destruct (fault n). Qed.

(** A read that goes through leaves the state; otherwise the method ends there. *)
Lemma alone_read {A B} fault err (q : Store -> result A) (k : A -> db Store B) n (s : Store) (P : Store -> Prop) :
  P s -> (forall a n', q s = Ok a -> P (k a (n', s)).2.2) ->
  P ((x ← step fault alone err (fun s => (q s, s)); k x) (n, s)).2.2.
Proof.
  intros H1 H2. unfold mbind, stE_bind, step, alone, exec. destruct (fault n); [|done..].
  destruct (q s) as [a|e] eqn:E; [by apply H2|done].
Qed.

Lemma consistent_logout fault ttl t f u n s :
  consistent ttl (redis s) -> is_valid_tenant_id t = true ->
  consistent ttl (redis (remove_connection fault alone t f u (n, s)).2.2).
Proof.
  intros Hc Ht. unfold remove_connection, load_user_records.
  apply (alone_read fault _ (fun s => check_records t (hgetall t u s)) _ n s (fun s => consistent ttl (redis s))); [done|].
  intros l n' Hl. apply (alone_write fault _ _ n' s (fun s => consistent ttl (redis s))); [done|]. simpl.
  pose proof (fun r => check_records_ok t _ l r Hl) as Hin. unfold hgetall in Hin.
  destruct (List.find _ l) as [rec|] eqn:E; [|by apply consistent_hdel].
  apply List.find_some in E as [Hrec%list_elem_of_In Hf%bool_decide_eq_true].
  apply Hin, value_iff in Hrec as [f0 H0].
  destruct (con_at _ _ _ _ _ _ Hc Ht H0) as (r0 & [= <-] & Hrt & Hrf). rewrite Hrf in Hf. subst f0.
  unfold unindex_if_last. rewrite Hrt. set (online := existsb _ _).
  pose proof (consistent_drop ttl (redis s) t u f (r_device_id rec) (r_gateway_id rec) (negb online) Hc Ht) as Hd.
  replace (if online then _ else _) with
    (if negb online then srem (tenant_sessions_key t) (tenant_session_member u (r_device_id rec)) (hdel (connection_key t u) f (redis s))
     else hdel (connection_key t u) f (redis s)) by by destruct online.
  apply Hd. intros Hk f' r' Hne H'. destruct (con_at _ _ _ _ _ _ Hc Ht H') as (r1 & [= <-] & _ & Hf').
  intros Hdev. apply negb_true_iff, not_true_iff_false in Hk. apply Hk. apply existsb_exists. exists r'. split.
  - apply list_elem_of_In, Hin, value_iff. by exists f'.
  - rewrite !bool_decide_true; [done|congruence|congruence].
Qed.

Lemma consistent_heartbeat fault ttl now t f u n s :
  0 < ttl -> consistent ttl (redis s) -> is_valid_tenant_id t = true ->
  consistent ttl (redis (touch_connection fault alone ttl now t f u (n, s)).2.2).
Proof.
  intros Hp Hc Ht. unfold touch_connection.
  apply (alone_read fault _ (fun s => Ok (hget (connection_key t u) f (redis s))) _ n s (fun s => consistent ttl (redis s))); [done|].
  intros [[r|]|] n' [= Hr]; [|done..]. unfold hget in Hr. case_bool_decide as Hrt; [done|].
  apply (alone_write fault _ _ n' s (fun s => consistent ttl (redis s))); [done|]. simpl. rewrite Hrt.
  by apply (consistent_touch ttl (redis s) t u f r now).
Qed.

(** ** The store over time

    Steps of the whole system: scripts, which are atomic whatever else runs, and the
    methods that read and then write, with nothing in between ([remove_connection],
    [touch_connection]; what happens when something comes in between is shown below). Every
    round trip may fail. *)
Inductive store_step (ttl : Z) : Store -> Store -> Prop :=
  | step_login c gid gs strategy cap reply db s :
      is_valid_tenant_id (tenant_id c) = true ->
      user_id_new (user_id c) = Ok (user_id c) -> device_id_new (device_id c) = Ok (device_id c) ->
      admit_script (connection_key (tenant_id c) (user_id c)) (tenant_sessions_key (tenant_id c))
        (conns_key (gateway_id c) :: gs) (id c) (with_connection_id (record_from_connection c) gid)
        ttl strategy cap (user_id c) (redis s) = (reply, db) ->
      store_step ttl s (mkStore db (kicks s))
  | step_kick t u f g conn r db s :
      is_valid_tenant_id t = true ->
      remove_for_kick (connection_key t u) (tenant_sessions_key t) (conns_key g) f t u conn (redis s) = (r, db) ->
      store_step ttl s (mkStore db (kicks s))
  | step_cleanup t u dev r db s :
      is_valid_tenant_id t = true ->
      unindex_if_absent (connection_key t u) (tenant_sessions_key t) t dev (tenant_session_member u dev) (redis s) = (r, db) ->
      store_step ttl s (mkStore db (kicks s))
  | step_logout fault t f u n s :
      is_valid_tenant_id t = true -> store_step ttl s (remove_connection fault alone t f u (n, s)).2.2
  | step_heartbeat fault now t f u n s :
      is_valid_tenant_id t = true -> store_step ttl s (touch_connection fault alone ttl now t f u (n, s)).2.2
  | step_time now s : store_step ttl s (on_redis (tick now) s).

Lemma consistent_step ttl s s' : 0 < ttl -> store_step ttl s s' -> consistent ttl (redis s) -> consistent ttl (redis s').
Proof.
  intros Hp H Hc. destruct H.
  - by apply (consistent_admit ttl (redis s) (tenant_id c) (user_id c) (id c) gs strategy cap
      (with_connection_id (record_from_connection c) gid) reply db).
  - by eapply consistent_kick.
  - by eapply consistent_unindex.
  - by apply consistent_logout.
  - by apply consistent_heartbeat.
  - by apply consistent_tick.
Qed.


(** ** Methods that are interrupted *)

(** What another process does before the [n]-th round trip. *)
Definition meanwhile (n : nat) (f : Store -> Store) : nat -> Store -> Store :=
  fun m s => if decide (m = n) then f s else s.

Definition relogin (ttl : Z) (c : Connection) (gid : string) (strategy : DeviceConflictStrategy) (s : Store) : Store :=
  (admit_connection calm alone ttl c gid strategy 0 (0%nat, s)).2.2.

Module Race.

Definition phone (i : string) (dev gw : string) (at_ : Z) : Connection :=
  mkConnection i "u1" dev "acme" "ios" "srv" gw Normal 0 at_ at_.

(** One session of one device. *)
Definition before : Store := relogin 60 (phone "s1" "phone" "gw-1" 1000) "p1" Coexist
  (mkStore (mkKeyspace ∅ ∅ ∅ 1000) []).

(** The device reconnects through another gateway while the logout of its old session runs. *)
Definition after_logout : Store :=
  (remove_connection calm (meanwhile 1 (relogin 60 (phone "s2" "phone" "gw-2" 2000) "p2" Coexist))
     "acme" "s1" "u1" (0%nat, before)).2.2.

(** Another device logs in exclusively while a heartbeat of the old session runs. *)
Definition after_heartbeat : Store :=
  (touch_connection calm (meanwhile 1 (relogin 60 (phone "s2" "tablet" "gw-2" 2000) "p2" Exclusive))
     60 2 "acme" "s1" "u1" (0%nat, before)).2.2.

End Race.

(** A logout unindexes by what it read: when the device logs in again between the read and
    the write of [remove_connection], the new session stays but its device is taken out of
    the tenant index, so kicking the tenant does not find it. *)
Theorem logout_can_unindex_a_new_login :
  (exists r, hash (connection_key "acme" "u1") (redis Race.after_logout) !! "s2" = Some (Json r) /\
     r_device_id r = "phone") /\
  tenant_session_member "u1" "phone" ∉ smembers (tenant_sessions_key "acme") (redis Race.after_logout).
Proof.
  split; [|by apply (bool_decide_eq_false _); vm_compute].
  eexists. split; vm_compute; reflexivity.
Qed.

(** A heartbeat writes back what it read: when an exclusive login evicts the session between
    the read and the write of [touch_connection], the evicted session comes back, beside the
    device that was to be the only one, and no index names it. *)
Theorem heartbeat_can_revive_an_evicted_session :
  (exists r1 r2, hash (connection_key "acme" "u1") (redis Race.after_heartbeat) !! "s1" = Some (Json r1) /\
     hash (connection_key "acme" "u1") (redis Race.after_heartbeat) !! "s2" = Some (Json r2) /\
     r_device_id r1 <> r_device_id r2) /\
  tenant_session_member "u1" "phone" ∉ smembers (tenant_sessions_key "acme") (redis Race.after_heartbeat) /\
  connection_member "acme" "u1" "s1" ∉ smembers (conns_key "gw-1") (redis Race.after_heartbeat).
Proof.
  split; [|split; by apply (bool_decide_eq_false _); vm_compute].
  eexists _, _. split_and!; [vm_compute; reflexivity..|vm_compute; discriminate].
Qed.

