(* ===== verification/OnlineService.v ===== *)
(** * The online status service

    flare-signaling/online/src/domain/service: login, logout, heartbeat and status
    (online_status_service.rs) with the orchestration of command_handler.rs, and
    kicking a device or a whole tenant (user_service.rs). The service keeps the
    sessions it admitted in memory; presence events go to the subscribers. *)

From S2P Require Import Prelude.
From S2P Require Import Database.
From S2P Require Import Tenant.
From S2P Require Import Keyspace.
From S2P Require Import GatewayLease.
From S2P Require Import OnlineStore.
From S2P Require Import OnlineAdmission.
From S2P Require Import OnlineIndex.
From stdpp Require Import base gmap list strings.
From Stdlib Require Import Lia ZArith.

Local Open Scope Z_scope.

(** ** Data *)

Record LoginRequest := mkLogin {
  l_user_id : string;
  l_device_id : string;
  l_device_platform : string;
  l_server_id : string;
  l_desired_conflict_strategy : DeviceConflictStrategy;
  l_metadata : gmap string string;
  l_device_priority : Z;
  l_token_version : Z;
}.

Record LoginResponse := mkLoginResponse {
  lr_success : bool;
  lr_conversation_id : string;
  lr_route_server : string;
  lr_applied_conflict_strategy : DeviceConflictStrategy;
}.

Record LogoutRequest := mkLogout { lo_user_id : string; lo_conversation_id : string }.

Record OnlineStatus := mkOnlineStatus {
  os_online : bool;
  os_server_id : string;
  os_cluster_id : string;
  os_last_seen : option Z;
  os_device_id : string;
  os_device_platform : string;
  os_gateway_id : string;
}.

Record PresenceEvent := mkPresence {
  pe_user_id : string;
  pe_status : OnlineStatus;
  pe_reason : string;
}.

(** What subscribers of a tenant are sent: a presence event, or who is online where. *)
Inductive Published :=
  | Presence (tenant : string) (e : PresenceEvent)
  | UserPresence (tenant user : string) (is_online : bool) (device : string).

(** The stores, the sessions of this process and the events published. *)
Record World := mkWorld {
  store : Store;
  memory : gmap string Connection;
  presence : list Published;
}.

(** [TenantRuntimeCache] and the configuration of the service. *)
Record Config := mkConfig {
  own_gateway_id : string;
  tenant_runtime : string -> TenantLookup;
  tenant_policy : TenantAccessPolicy;
  max_online_devices : Z;
  ttl_seconds : Z;
}.

(** [required_tenant]: the verified tenant of the context. *)
Definition required_tenant (ctx : option string) : result string :=
  match ctx with
  | None => Err (flare_err PermissionDenied "verified tenant is required")
  | Some t => if is_valid_tenant_id t then Ok t else Err (flare_err PermissionDenied "invalid tenant in context")
  end.

(** The tenant gate of [login]. *)
Definition login_gate (l : TenantLookup) (policy : TenantAccessPolicy) : result unit :=
  match l with
  | Unavailable => Err (flare_err ServiceUnavailable "tenant runtime projection unavailable")
  | _ => if admits_connection l policy then Ok () else Err (flare_err PermissionDenied TENANT_UNAVAILABLE)
  end.

Definition device_cap (cfg : Config) (l : TenantLookup) : Z :=
  let projected := max_online_devices_per_user (core_quota l) in
  if 0 <? projected then projected else max_online_devices cfg.

Definition known_strategy (s : DeviceConflictStrategy) : bool :=
  match s with Exclusive | PlatformExclusive | Coexist => true | StrategyUnspecified => false end.

Section Service.
Context (fault : schedule) (others : nat -> Store -> Store) (cfg : Config).
Context (valid_uuid : string -> bool) (valid_timestamp : Z -> bool).

Abbreviation M := (db World).

(** A call of the session repository. *)
Definition repo {A} (m : db Store A) : M A :=
  fun '(n, w) => let '(r, (n', s')) := m (n, store w) in (r, (n', mkWorld s' (memory w) (presence w))).

Definition on_memory (f : gmap string Connection -> gmap string Connection) : M unit :=
  fun '(n, w) => (Ok (), (n, mkWorld (store w) (f (memory w)) (presence w))).

(** [remove_memory_evicted] *)
Definition remove_memory_evicted (evicted : list EvictedConnection) (m : gmap string Connection) : gmap string Connection :=
  foldl (fun m item => delete (e_conversation_id item) m) m evicted.

(** The kicks after an admission; a failure is logged. *)
Definition kick_evicted (tenant user : string) (evicted : list EvictedConnection) : M unit :=
  for_each (fun old => log_error (repo (broadcast_user_kick fault others tenant user
    (Some (e_device_id old)) (Some (e_connection_id old)) (kick_reason (e_cause old))))) evicted.

(** What [Connection::create] makes of a login: a fresh id and the current time. *)
Definition create_connection (fresh : string) (now : Z) (tenant gateway : string) (request : LoginRequest) : Connection :=
  mkConnection fresh (l_user_id request) (l_device_id request) tenant (l_device_platform request)
    (l_server_id request) gateway (priority_from_i32 (l_device_priority request))
    (token_version_from (l_token_version request)) now now.

(** The checks of [login] up to the admission: the session to admit, the physical
    connection and the device cap. *)
Definition prepare_login (ctx : option string) (fresh : string) (now : Z) (request : LoginRequest)
    : result (Connection * string * Z) :=
  tenant ← required_tenant ctx;
  if Str.is_empty (l_user_id request) then Err (flare_err InvalidParameter "user_id is required")
  else if Str.is_empty (l_device_id request) then Err (flare_err InvalidParameter "device_id is required")
  else if negb (known_strategy (l_desired_conflict_strategy request))
  then Err (flare_err InvalidParameter "desired_conflict_strategy is required")
  else
    match user_id_new (l_user_id request) with
    | Err _ => Err (flare_err InvalidParameter "invalid user_id")
    | Ok _ =>
        let lookup := tenant_runtime cfg tenant in
        _ ← login_gate lookup (tenant_policy cfg);
        let gateway := default (own_gateway_id cfg) (l_metadata request !! "gateway_id") in
        match device_id_new (l_device_id request) with
        | Err _ => Err (flare_err InvalidParameter "invalid device_id")
        | Ok _ =>
            connection_id ← ok_or (l_metadata request !! "connection_id")
              (flare_err PermissionDenied "authenticated gateway connection ID required");
            Ok (create_connection fresh now tenant gateway request, connection_id, device_cap cfg lookup)
        end
    end.

(** [OnlineStatusService::login]; the connection event publisher is not configured. *)
Definition login (ctx : option string) (fresh : string) (now : Z) (request : LoginRequest) : M LoginResponse :=
  '(session, connection_id, cap) ← lift_r (prepare_login ctx fresh now request);
  let strategy := l_desired_conflict_strategy request in
  evicted ← map_err (fun _ => flare_err DatabaseError "Failed to atomically admit Online connection")
    (repo (admit_connection fault others (ttl_seconds cfg) session connection_id strategy cap));
  _ ← on_memory (remove_memory_evicted evicted);
  _ ← kick_evicted (tenant_id session) (user_id session) evicted;
  _ ← on_memory (<[fresh := session]>);
  mret (mkLoginResponse true fresh (l_server_id request) strategy).

(** [map_infra_error] keeps nothing of an error that is not one of the infrastructure. *)
Definition login_error (e : FlareError) : FlareError :=
  if bool_decide (err_code e = PermissionDenied) && bool_decide (err_reason e = TENANT_UNAVAILABLE) then e
  else flare_err InternalError "Failed to login".

(** Both events of a change of status; a failure is logged. *)
Definition publish (tenant user : string) (status : OnlineStatus) (reason : string) : M unit :=
  let say e := log_error (exec fault (system "publish failed") (fun w =>
    (Ok (), mkWorld (store w) (memory w) (presence w ++ [e])))) in
  _ ← say (Presence tenant (mkPresence user status reason));
  say (UserPresence tenant user (os_online status) (os_device_id status)).

Definition publish_login_presence (ctx : option string) (request : LoginRequest) (response : LoginResponse) (now : Z) : M unit :=
  if negb (lr_success response) || Str.is_blank (l_user_id request) then mret ()
  else
    match ctx with
    | None => mret ()
    | Some tenant =>
        publish tenant (l_user_id request)
          (mkOnlineStatus true (l_server_id request) "" (Some now) (l_device_id request) (l_device_platform request)
             (default "" (l_metadata request !! "gateway_id"))) "login"
    end.

Definition handle_login (ctx : option string) (fresh : string) (now : Z) (request : LoginRequest) : M LoginResponse :=
  response ← map_err login_error (login ctx fresh now request);
  _ ← publish_login_presence ctx request response now;
  mret response.

Definition owns (tenant user : string) (c : Connection) : bool :=
  bool_decide (tenant_id c = tenant) && bool_decide (user_id c = user).

Definition forget_session (tenant user conversation_id : string) (m : gmap string Connection) : gmap string Connection :=
  match m !! conversation_id with
  | Some c => if owns tenant user c then delete conversation_id m else m
  | None => m
  end.

Definition invalid_parameter {A} (r : result A) (what : string) : result A :=
  match r with Ok a => Ok a | Err _ => Err (flare_err InvalidParameter what) end.

Definition logout (ctx : option string) (request : LogoutRequest) : M unit :=
  tenant ← lift_r (required_tenant ctx);
  let user := Str.trim (lo_user_id request) in
  let conversation_id := Str.trim (lo_conversation_id request) in
  if Str.is_empty user then lift_r (Err (flare_err InvalidParameter "user_id is required"))
  else
    _ ← lift_r (invalid_parameter (user_id_new user) "invalid user_id");
    if Str.is_empty conversation_id then lift_r (Err (flare_err InvalidParameter "conversation_id is required"))
    else
      _ ← lift_r (invalid_parameter (connection_id_from valid_uuid conversation_id) "invalid conversation_id");
      _ ← on_memory (forget_session tenant user conversation_id);
      map_err (fun _ => flare_err DatabaseError "Failed to remove connection")
        (repo (remove_connection fault others tenant conversation_id user)).

Definition refresh (tenant user conversation_id : string) (now : Z) (m : gmap string Connection) : gmap string Connection :=
  match m !! conversation_id with
  | Some c =>
      if owns tenant user c then
        <[conversation_id := mkConnection (id c) (user_id c) (device_id c) (tenant_id c) (device_platform c)
             (server_id c) (gateway_id c) (device_priority c) (token_version c) (created_at c) now]> m
      else m
  | None => m
  end.

(** [heartbeat] without the link quality, which only the memory keeps. *)
Definition heartbeat (ctx : option string) (conversation_id user : string) (now : Z) : M unit :=
  tenant ← lift_r (required_tenant ctx);
  _ ← on_memory (refresh tenant user conversation_id now);
  _ ← lift_r (invalid_parameter (user_id_new user) "invalid user_id");
  _ ← lift_r (invalid_parameter (connection_id_from valid_uuid conversation_id) "invalid conversation_id");
  map_err (fun _ => flare_err DatabaseError "Failed to touch connection")
    (repo (touch_connection fault others (ttl_seconds cfg) (now / 1000) tenant conversation_id user)).

Definition offline : OnlineStatus := mkOnlineStatus false "" "" None "" "" "".

Definition online_status (r : OnlineStatusRecord) : OnlineStatus :=
  mkOnlineStatus (s_online r) (s_server_id r) (default "" (s_cluster_id r)) (s_last_seen r)
    (default "" (s_device_id r)) (default "" (s_device_platform r)) (default "" (s_gateway_id r)).

Definition get_online_status (ctx : option string) (user_ids : list string) : M (gmap string OnlineStatus) :=
  tenant ← lift_r (required_tenant ctx);
  statuses ← map_err (fun _ => flare_err DatabaseError "Failed to fetch statuses")
    (repo (fetch_statuses fault others valid_timestamp tenant user_ids));
  mret (foldl (fun m u => <[u := match statuses !! u with Some r => online_status r | None => offline end]> m) ∅ user_ids).

Definition publish_presence_snapshot (ctx : option string) (user reason : string) (now : Z) : M unit :=
  match ctx with
  | None => mret ()
  | Some tenant =>
      let user := Str.trim user in
      if Str.is_empty user then mret ()
      else
        let unknown := mkOnlineStatus false "" "" (Some now) "" "" "" in
        on_result (get_online_status ctx [user])
          (fun m => publish tenant user (default unknown (m !! user)) reason)
          (fun _ => publish tenant user unknown reason)
  end.

(** [handle_logout] and [handle_gateway_lost]: the same path with another reason. *)
Definition disconnect (ctx : option string) (request : LogoutRequest) (reason : string) (now : Z) : M unit :=
  _ ← map_err (fun _ => flare_err InternalError "Failed to logout") (logout ctx request);
  publish_presence_snapshot ctx (lo_user_id request) reason now.

(** ** Kicking *)

(** [kick_device_because]: whether a session was kicked. *)
Definition kick_device_because (tenant user device wire_reason : string) : db Store bool :=
  _ ← lift_r (user_id_new user);
  _ ← lift_r (device_id_new device);
  session ← get_connection_by_device fault others valid_uuid valid_timestamp tenant user device;
  match session with
  | Some session =>
      if bool_decide (tenant_id session <> tenant)
      then lift_r (Err (flare_err PermissionDenied "device tenant does not match control identity"))
      else
        physical ← remove_connection_for_kick fault others tenant (id session) user wire_reason;
        mret (match physical with Some _ => true | None => false end)
  | None => lift_r (Err (flare_err UserNotFound "device not found"))
  end.

Definition kick_device (tenant user device : string) : db Store bool :=
  kick_device_because tenant user device DEVICE_KICKED.

(** The counters of a tenant kick; they saturate. *)
Record Tally := mkTally { kicked : Z; stale : Z; failed : Z }.

Definition bump (z : Z) : Z := Z.min (z + 1) u32_max.

Definition kick_member (tenant : string) (t : Tally) (member : string) : db Store Tally :=
  match parse_tenant_session_member member with
  | None => _ ← unindex_tenant_session fault others tenant member; mret t
  | Some (user, device) =>
      on_result (kick_device_because tenant user device TENANT_UNAVAILABLE)
        (fun success => mret (if success : bool then mkTally (bump (kicked t)) (stale t) (failed t) else t))
        (fun e =>
           if bool_decide (err_code e = UserNotFound) then
             _ ← unindex_tenant_session fault others tenant member;
             mret (mkTally (kicked t) (bump (stale t)) (failed t))
           else mret (mkTally (kicked t) (stale t) (bump (failed t))))
  end.

Fixpoint kick_members (tenant : string) (t : Tally) (members : list string) : db Store Tally :=
  match members with
  | [] => mret t
  | m :: members' => t' ← kick_member tenant t m; kick_members tenant t' members'
  end.

(** SSCAN of a set at a cursor: the next cursor and some members. *)
Context (sscan : Z -> gset string -> Z * list string).

Definition scan_tenant_sessions (tenant : string) (cursor : Z) : db Store (Z * list string) :=
  step fault others operation_failed (fun s => (Ok (sscan cursor (smembers (tenant_sessions_key tenant) (redis s))), s)).

(** The loop of [kick_tenant] until the cursor is zero again; [None] if that takes more
    than [rounds] pages. *)
Fixpoint kick_pages (rounds : nat) (tenant : string) (cursor : Z) (t : Tally) : db Store (option Tally) :=
  match rounds with
  | O => mret None
  | S rounds' =>
      '(next, members) ← scan_tenant_sessions tenant cursor;
      t' ← kick_members tenant t members;
      if bool_decide (next = 0) then mret (Some t') else kick_pages rounds' tenant next t'
  end.

Definition kick_tenant (rounds : nat) (raw_tenant_id : string) : db Store (option Z) :=
  let tenant := normalize_tenant_id raw_tenant_id in
  if negb (is_valid_tenant_id tenant) then lift_r (Err (flare_err InvalidParameter "invalid tenant_id"))
  else
    t ← kick_pages rounds tenant 0 (mkTally 0 0 0);
    match t with
    | None => mret None
    | Some t => if 0 <? failed t then lift_r (Err (flare_err ServiceUnavailable "tenant kick incomplete"))
                else mret (Some (kicked t))
    end.

End Service.

(** ** Login *)

Section Login.
Context (fault : schedule) (others : nat -> Store -> Store) (cfg : Config).

Lemma prepare_login_ok ctx fresh now request session gid cap :
  prepare_login cfg ctx fresh now request = Ok (session, gid, cap) ->
  exists tenant, ctx = Some tenant /\ is_valid_tenant_id tenant = true /\
    tenant_runtime cfg tenant <> Unavailable /\
    admits_connection (tenant_runtime cfg tenant) (tenant_policy cfg) = true /\
    user_id_new (l_user_id request) = Ok (l_user_id request) /\
    device_id_new (l_device_id request) = Ok (l_device_id request) /\
    l_desired_conflict_strategy request <> StrategyUnspecified /\
    l_metadata request !! "connection_id" = Some gid /\
    cap = device_cap cfg (tenant_runtime cfg tenant) /\
    session = create_connection fresh now tenant
      (default (own_gateway_id cfg) (l_metadata request !! "gateway_id")) request.
Proof.
  unfold prepare_login. intros H. inv_ok. rename a into tenant.
  unfold required_tenant in Ha. destruct ctx as [t|]; [|done]. destruct (is_valid_tenant_id t) eqn:Hv; [|done].
  injection Ha as ->. exists tenant.
  destruct (Str.is_empty (l_user_id request)); [done|]. destruct (Str.is_empty (l_device_id request)); [done|].
  destruct (known_strategy _) eqn:Hs; [|done]. simpl in H.
  destruct (user_id_new (l_user_id request)) as [u|] eqn:Hu; [|done]. inv_ok.
  destruct (device_id_new (l_device_id request)) as [d|] eqn:Hd; [|done]. inv_ok.
  assert (Hu' : u = l_user_id request) by (unfold user_id_new in Hu; repeat case_match; congruence).
  assert (Hd' : d = l_device_id request) by (unfold device_id_new in Hd; repeat case_match; congruence).
  subst u d. unfold login_gate in Ha. unfold ok_or in Ha0.
  destruct (l_metadata request !! "connection_id") as [c|]; [|done]. injection Ha0 as ->.
  assert (Hl : l_desired_conflict_strategy request <> StrategyUnspecified) by (intros E; by rewrite E in Hs).
  destruct (tenant_runtime cfg tenant) as [sn| |]; [| |done];
    destruct (admits_connection _ _) eqn:Hadm; try done; injection H as <- <- <-; split_and!; try done.
Qed.

(** The kick signal of an evicted connection. *)
Definition signal_of (tenant user : string) (e : EvictedConnection) : KickSignal :=
  mkKick tenant user (Some (e_device_id e)) (Some (e_connection_id e)) (Some (kick_reason (e_cause e))).

(** Kicks never fail a login. *)
Lemma kick_evicted_ok tenant user ev n w :
  exists n' s', kick_evicted fault others tenant user ev (n, w) = (Ok (), (n', mkWorld s' (memory w) (presence w))).
Proof.
  revert n w. induction ev as [|e ev IH]; intros n w; [by exists n, (store w); destruct w|].
  unfold kick_evicted in *. cbn [for_each].
  set (m := broadcast_user_kick fault others tenant user (Some (e_device_id e)) (Some (e_connection_id e))
              (kick_reason (e_cause e))).
  assert (Hm : exists n1 s1, log_error (repo m) (n, w) = (Ok (), (n1, mkWorld s1 (memory w) (presence w)))).
  { unfold log_error, repo. destruct (m (n, store w)) as [r [n1 s1]]. by exists n1, s1. }
  destruct Hm as (n1 & s1 & Hm). unfold mbind, stE_bind. rewrite Hm.
  destruct (IH n1 (mkWorld s1 (memory w) (presence w))) as (n' & s' & H). exists n', s'. exact H.
Qed.

Lemma login_run ctx fresh now request session gid cap n w :
  prepare_login cfg ctx fresh now request = Ok (session, gid, cap) ->
  match admit_connection fault others (ttl_seconds cfg) session gid (l_desired_conflict_strategy request) cap (n, store w) with
  | (Ok ev, (n1, s1)) => exists n' s',
      kick_evicted fault others (tenant_id session) (user_id session) ev
        (n1, mkWorld s1 (remove_memory_evicted ev (memory w)) (presence w))
        = (Ok (), (n', mkWorld s' (remove_memory_evicted ev (memory w)) (presence w))) /\
      login fault others cfg ctx fresh now request (n, w) =
        (Ok (mkLoginResponse true fresh (l_server_id request) (l_desired_conflict_strategy request)),
         (n', mkWorld s' (<[fresh := session]> (remove_memory_evicted ev (memory w))) (presence w)))
  | (Err _, (n1, s1)) =>
      login fault others cfg ctx fresh now request (n, w) =
        (Err (flare_err DatabaseError "Failed to atomically admit Online connection"),
         (n1, mkWorld s1 (memory w) (presence w)))
  end.
Proof.
  intros Hp. unfold login. rewrite Hp. unfold mbind, stE_bind, lift_r, map_err, repo, on_memory.
  destruct (admit_connection _ _ _ _ _ _ _ _) as [[ev|e] [n1 s1]]; [|done]. simpl.
  destruct (kick_evicted_ok (tenant_id session) (user_id session) ev n1
              (mkWorld s1 (remove_memory_evicted ev (memory w)) (presence w))) as (n' & s' & H).
  exists n', s'. split; [exact H|]. rewrite H. done.
Qed.

Lemma login_prepare_err ctx fresh now request e n w :
  prepare_login cfg ctx fresh now request = Err e -> login fault others cfg ctx fresh now request (n, w) = (Err e, (n, w)).
Proof. intros Hp. unfold login. rewrite Hp. done. Qed.

(** Presence events never fail, and touch nothing else. *)
Lemma publish_run tenant user status reason n w :
  exists n' l, publish fault tenant user status reason (n, w) = (Ok (), (n', mkWorld (store w) (memory w) l)).
Proof.
  unfold publish, mbind, stE_bind, log_error, exec. destruct w as [st m p].
  destruct (fault n); simpl; destruct (fault (S n)); simpl; eauto.
Qed.

Lemma handle_login_run ctx fresh now request n w :
  match login fault others cfg ctx fresh now request (n, w) with
  | (Ok resp, (n1, w1)) => exists n' l,
      handle_login fault others cfg ctx fresh now request (n, w) = (Ok resp, (n', mkWorld (store w1) (memory w1) l))
  | (Err e, s1) => handle_login fault others cfg ctx fresh now request (n, w) = (Err (login_error e), s1)
  end.
Proof.
  unfold handle_login, mbind, stE_bind, map_err.
  destruct (login _ _ _ _ _ _ _ _) as [[resp|e] [n1 w1]]; [|done].
  unfold publish_login_presence. destruct (_ || _); [destruct w1; by eexists _, _|].
  destruct ctx as [t|]; [|destruct w1; by eexists _, _].
  destruct (publish_run t (l_user_id request) (mkOnlineStatus true (l_server_id request) "" (Some now) (l_device_id request)
    (l_device_platform request) (default "" (l_metadata request !! "gateway_id"))) "login" n1 w1) as (n' & l & H).
  rewrite H. by exists n', l.
Qed.

(** A login that is answered passed every gate: a verified and well-formed tenant whose
    projection could be read and admits connections, a user and a device id within their
    bounds, an explicit conflict strategy and an authenticated physical connection; and the
    process remembers exactly the session it admitted under the id it answers. This holds
    whatever fails and whatever else runs. *)
Theorem accepted_logins_passed_every_gate ctx fresh now request n w resp n' w' :
  handle_login fault others cfg ctx fresh now request (n, w) = (Ok resp, (n', w')) ->
  exists tenant gid ev,
    ctx = Some tenant /\ is_valid_tenant_id tenant = true /\
    tenant_runtime cfg tenant <> Unavailable /\
    admits_connection (tenant_runtime cfg tenant) (tenant_policy cfg) = true /\
    user_id_new (l_user_id request) = Ok (l_user_id request) /\
    device_id_new (l_device_id request) = Ok (l_device_id request) /\
    l_desired_conflict_strategy request <> StrategyUnspecified /\
    l_metadata request !! "connection_id" = Some gid /\ gid <> "" /\
    lr_conversation_id resp = fresh /\
    memory w' = <[fresh := create_connection fresh now tenant
      (default (own_gateway_id cfg) (l_metadata request !! "gateway_id")) request]> (remove_memory_evicted ev (memory w)).
Proof.
  intros H. pose proof (handle_login_run ctx fresh now request n w) as Hh.
  destruct (prepare_login cfg ctx fresh now request) as [[[session gid] cap]|e] eqn:Hp.
  2: { rewrite (login_prepare_err _ _ _ _ _ n w Hp) in Hh. rewrite H in Hh. done. }
  pose proof (login_run _ _ _ _ _ _ _ n w Hp) as Hr.
  destruct (admit_connection _ _ _ _ _ _ _ _) as [[ev|e] [n1 s1]] eqn:Ea.
  2: { rewrite Hr, H in Hh. done. }
  destruct Hr as (n2 & s2 & _ & Hl). rewrite Hl in Hh. destruct Hh as (n3 & l & Hh). rewrite H in Hh.
  injection Hh as -> _ ->. apply admit_connection_ok in Ea as [Hg _].
  destruct (prepare_login_ok _ _ _ _ _ _ _ Hp) as (tenant & ? & ? & ? & ? & ? & ? & ? & ? & _ & ->).
  exists tenant, gid, ev. done.
Qed.

(** Only a verdict on the tenant ends a client's session: the typed reason
    TENANT_UNAVAILABLE leaves the service only for a tenant whose projection was read and
    does not admit connections. An unreadable projection, a failed admission or a malformed
    request never carries it. *)
Theorem tenant_rejections_are_verdicts ctx fresh now request n w e n' w' :
  handle_login fault others cfg ctx fresh now request (n, w) = (Err e, (n', w')) ->
  err_reason e = TENANT_UNAVAILABLE ->
  err_code e = PermissionDenied /\
  exists tenant, ctx = Some tenant /\ is_valid_tenant_id tenant = true /\
    tenant_runtime cfg tenant <> Unavailable /\
    admits_connection (tenant_runtime cfg tenant) (tenant_policy cfg) = false /\
    store w' = store w /\ memory w' = memory w.
Proof.
  intros H He. pose proof (handle_login_run ctx fresh now request n w) as Hh.
  assert (Herr : forall e0, login_error e0 = e -> err_code e0 = PermissionDenied /\ e0 = e).
  { intros e0 <-. unfold login_error in *. destruct (bool_decide_reflect (err_code e0 = PermissionDenied)); simpl in *; [|done].
    case_bool_decide; [done|]. done. }
  destruct (prepare_login cfg ctx fresh now request) as [[[session gid] cap]|e0] eqn:Hp.
  { pose proof (login_run _ _ _ _ _ _ _ n w Hp) as Hr.
    destruct (admit_connection _ _ _ _ _ _ _ _) as [[ev|e1] [n1 s1]].
    - destruct Hr as (n2 & s2 & _ & Hl). rewrite Hl in Hh. destruct Hh as (n3 & l & Hh). by rewrite H in Hh.
    - rewrite Hr, H in Hh. injection Hh as -> _ _. done. }
  rewrite (login_prepare_err _ _ _ _ _ n w Hp), H in Hh. injection Hh as Hee -> ->.
  symmetry in Hee. destruct (Herr e0 Hee) as [Hc ->]. split; [done|].
  unfold prepare_login in Hp. destruct ctx as [t|]; simpl in Hp; [|by injection Hp as <-].
  destruct (is_valid_tenant_id t) eqn:Hv; simpl in Hp; [|by injection Hp as <-]. exists t.
  destruct (Str.is_empty (l_user_id request)); [by injection Hp as <-|].
  destruct (Str.is_empty (l_device_id request)); [by injection Hp as <-|].
  destruct (negb _); [by injection Hp as <-|].
  destruct (user_id_new _); [|by injection Hp as <-].
  unfold login_gate in Hp. destruct (tenant_runtime cfg t) as [sn| |] eqn:Ht; [| |by injection Hp as <-];
    destruct (admits_connection _ _) eqn:Hadm; simpl in Hp; try (split_and!; done);
    (destruct (device_id_new _); [|by injection Hp as <-]);
    (destruct (l_metadata request !! "connection_id"); simpl in Hp; [done|by injection Hp as <-]).
Qed.

End Login.

Lemma retry_keeps key index_key declared field new ttl strategy cap user (s : Redis) gs s' :
  admit_script key index_key declared field new ttl strategy cap user s = (Ok (RetryWith gs), s') -> s' = s.
Proof.
  unfold admit_script. destruct (records _ _); [|done]. destruct (undeclared _ _ _); [done|]. by intros [= _ <-].
Qed.

Lemma admit_calm ttl attempts c record strategy cap gs n s ev n' s' :
  admit_attempts calm alone ttl attempts c record strategy cap gs (n, s) = (Ok ev, (n', s')) ->
  kicks s' = kicks s /\ exists gs',
    admit_script (connection_key (tenant_id c) (user_id c)) (tenant_sessions_key (tenant_id c))
      (conns_key (r_gateway_id record) :: gs') (id c) record ttl strategy cap (user_id c) (redis s)
    = (Ok (Evicted ev), redis s').
Proof.
  revert gs n. induction attempts as [|a IH]; intros gs n; cbn [admit_attempts]; [done|].
  unfold mbind, stE_bind, step, alone. rewrite exec_calm. unfold on_script.
  destruct (admit_script _ _ _ _ _ _ _ _ _ (redis s)) as [[[g|ev0]|e] db] eqn:E; cbn; [|by intros [= <- <- <-]; eauto|done].
  apply retry_keeps in E as ->. destruct s as [db k]. apply IH.
Qed.

Lemma kick_evicted_calm tenant user ev n w n' w' :
  kick_evicted calm alone tenant user ev (n, w) = (Ok (), (n', w')) ->
  redis (store w') = redis (store w) /\ kicks (store w') = kicks (store w) ++ (signal_of tenant user <$> ev).
Proof.
  revert n w. induction ev as [|e ev IH]; intros n w.
  { unfold kick_evicted. simpl. intros [= <- <-]. by rewrite app_nil_r. }
  unfold kick_evicted in *. cbn [for_each]. intros H.
  assert (Hm : log_error (repo (broadcast_user_kick calm alone tenant user (Some (e_device_id e)) (Some (e_connection_id e))
      (kick_reason (e_cause e)))) (n, w) =
      (Ok (), (S n, mkWorld (mkStore (redis (store w)) (kicks (store w) ++ [signal_of tenant user e])) (memory w) (presence w)))).
  { done. }
  unfold mbind, stE_bind in H. rewrite Hm in H. apply IH in H as [H1 H2]. simpl in *.
  split; [done|]. by rewrite H2, <- app_assoc.
Qed.

(** Left alone, a login tells exactly the connections it evicted: one run of the admission
    script changed the sessions, and one kick was published for each evicted connection,
    naming its own device and physical connection and the reason of its eviction. *)
Theorem login_kicks_whom_it_evicted cfg ctx fresh now request n w resp n' w' :
  handle_login calm alone cfg ctx fresh now request (n, w) = (Ok resp, (n', w')) ->
  exists tenant gid ev gs,
    let session := create_connection fresh now tenant (default (own_gateway_id cfg) (l_metadata request !! "gateway_id")) request in
    ctx = Some tenant /\ l_metadata request !! "connection_id" = Some gid /\
    admit_script (connection_key tenant (l_user_id request)) (tenant_sessions_key tenant)
      (conns_key (gateway_id session) :: gs) fresh (with_connection_id (record_from_connection session) gid)
      (ttl_seconds cfg) (l_desired_conflict_strategy request) (device_cap cfg (tenant_runtime cfg tenant))
      (l_user_id request) (redis (store w)) = (Ok (Evicted ev), redis (store w')) /\
    kicks (store w') = kicks (store w) ++ (signal_of tenant (l_user_id request) <$> ev).
Proof.
  intros H. pose proof (handle_login_run calm alone cfg ctx fresh now request n w) as Hh.
  destruct (prepare_login cfg ctx fresh now request) as [[[session gid] cap]|e] eqn:Hp.
  2: { by rewrite (login_prepare_err _ _ _ _ _ _ _ _ n w Hp), H in Hh. }
  pose proof (login_run calm alone _ _ _ _ _ _ _ _ n w Hp) as Hr.
  destruct (admit_connection _ _ _ _ _ _ _ _) as [[ev|e] [n1 s1]] eqn:Ea; [|by rewrite Hr, H in Hh].
  destruct Hr as (n2 & s2 & Hk & Hl). rewrite Hl in Hh. destruct Hh as (n3 & l & Hh). rewrite H in Hh.
  injection Hh as _ _ ->. apply kick_evicted_calm in Hk as [Hk1 Hk2]. simpl in *.
  unfold admit_connection in Ea. destruct (Str.is_empty gid); [done|].
  apply admit_calm in Ea as [Hkk [gs Hs]].
  destruct (prepare_login_ok _ _ _ _ _ _ _ _ Hp) as (tenant & ? & ? & ? & ? & ? & ? & ? & ? & Hcap & Hse).
  exists tenant, gid, ev, gs. rewrite Hk1, Hk2, Hkk. rewrite Hcap, Hse in *. done.
Qed.

(** ** Logout *)

Lemma remove_connection_gone fault others t f u n s n' s' :
  remove_connection fault others t f u (n, s) = (Ok (), (n', s')) ->
  hash (connection_key t u) (redis s') !! f = None.
Proof.
  unfold remove_connection, mbind, stE_bind, load_user_records, step, exec.
  destruct (fault n); [|done..]. destruct (check_records _ _) as [l|]; [|done].
  destruct (fault (S n)); [|done..]. intros [= _ <-]. simpl.
  assert (Hd : forall k m (d : Redis), hash (connection_key t u) d !! f = None ->
    hash (connection_key t u) (srem k m d) !! f = None) by (intros; by rewrite hash_srem).
  assert (H0 : forall d : Redis, hash (connection_key t u) (hdel (connection_key t u) f d) !! f = None)
    by (intros; by rewrite hash_hdel, decide_True, lookup_delete_eq by done).
  destruct (List.find _ l); [|by apply H0]. apply Hd. unfold unindex_if_last. case_match; [by apply H0|by apply Hd].
Qed.

(** When a logout or the cleanup of a lost gateway reports success, the session is gone from
    the store at that moment and from the memory of the process if it was the user's,
    whatever ran in between. *)
Theorem logout_removes_the_session fault others valid_uuid ctx request n w n' w' :
  logout fault others valid_uuid ctx request (n, w) = (Ok (), (n', w')) ->
  exists tenant, ctx = Some tenant /\ is_valid_tenant_id tenant = true /\
    let user := Str.trim (lo_user_id request) in
    let f := Str.trim (lo_conversation_id request) in
    hash (connection_key tenant user) (redis (store w')) !! f = None /\
    (forall c, memory w' !! f = Some c -> owns tenant user c = false) /\
    (forall g, g <> f -> memory w' !! g = memory w !! g).
Proof.
  unfold logout, required_tenant. destruct ctx as [t|]; [|done].
  destruct (is_valid_tenant_id t) eqn:Hv; [|done]. intros H. exists t. split; [done|]. split; [done|].
  cbn zeta. set (user := Str.trim (lo_user_id request)) in *. set (f := Str.trim (lo_conversation_id request)) in *.
  unfold mbind, stE_bind, lift_r in H. destruct (Str.is_empty user); [done|].
  destruct (user_id_new user); [|done]. simpl in H. destruct (Str.is_empty f); [done|].
  destruct (connection_id_from valid_uuid f); [|done]. simpl in H.
  unfold on_memory, map_err, repo in H. cbn beta iota zeta in H. cbn [store memory presence] in H.
  destruct (remove_connection fault others t f user (n, store w)) as [[[]|] [n1 s1]] eqn:E; [|done].
  injection H as _ <-. simpl. split; [by eapply remove_connection_gone|]. unfold forget_session. split.
  - intros c. destruct (memory w !! f) as [c0|] eqn:Em; [|congruence].
    destruct (owns t user c0) eqn:Eo; [by rewrite lookup_delete_eq|congruence].
  - intros g Hg. repeat case_match; rewrite ?lookup_delete_ne by congruence; reflexivity.
Qed.

(** ** Witnesses *)

Module Sample.

Definition config : Config :=
  mkConfig "gw-0" (fun t => if decide (t = "acme") then Known (mkSnapshot TenantActive (mkQuota 0 0 1))
                            else Known (mkSnapshot TenantSuspended (mkQuota 0 0 0))) Strict 5 60.

Definition request (dev conn : string) : LoginRequest :=
  mkLogin "u1" dev "ios" "srv" Coexist {[ "connection_id" := conn; "gateway_id" := "gw-1" ]} 2 0.

Definition world0 : World := mkWorld (mkStore (mkKeyspace ∅ ∅ ∅ 1000) []) ∅ [].

(** The world after a first login. *)
Definition world1 : World :=
  (handle_login calm alone config (Some "acme") "s1" 1000 (request "phone" "p1") (0%nat, world0)).2.2.

End Sample.

Lemma accepted_logins_passed_every_gate_witness :
  exists resp n' w',
    handle_login calm alone Sample.config (Some "acme") "s2" 2000 (Sample.request "pad" "p2") (0%nat, Sample.world1)
      = (Ok resp, (n', w')) /\ lr_conversation_id resp = "s2".
Proof.
  assert (H : exists resp n' w',
    handle_login calm alone Sample.config (Some "acme") "s2" 2000 (Sample.request "pad" "p2") (0%nat, Sample.world1)
      = (Ok resp, (n', w'))) by (eexists _, _, _; vm_compute; reflexivity).
  destruct H as (resp & n' & w' & H). exists resp, n', w'. split; [exact H|].
  destruct (accepted_logins_passed_every_gate calm alone Sample.config (Some "acme") "s2" 2000
    (Sample.request "pad" "p2") 0 Sample.world1 resp n' w' H) as (_ & _ & _ & _ & _ & _ & _ & _ & _ & _ & _ & _ & Hr & _).
  exact Hr.
Defined.

Lemma login_kicks_whom_it_evicted_witness :
  exists resp n' w',
    handle_login calm alone Sample.config (Some "acme") "s2" 2000 (Sample.request "pad" "p2") (0%nat, Sample.world1)
      = (Ok resp, (n', w')) /\
    (exists tenant ev, kicks (store w') = kicks (store Sample.world1) ++ (signal_of tenant "u1" <$> ev)) /\
    kicks (store w') = [mkKick "acme" "u1" (Some "phone") (Some "p1") (Some SESSION_REPLACED)].
Proof.
  assert (H : exists resp n' w',
    handle_login calm alone Sample.config (Some "acme") "s2" 2000 (Sample.request "pad" "p2") (0%nat, Sample.world1)
      = (Ok resp, (n', w')) /\ kicks (store w') = [mkKick "acme" "u1" (Some "phone") (Some "p1") (Some SESSION_REPLACED)])
    by (eexists _, _, _; split; [vm_compute; reflexivity|reflexivity]).
  destruct H as (resp & n' & w' & H & Hk). exists resp, n', w'. split; [exact H|]. split; [|exact Hk].
  destruct (login_kicks_whom_it_evicted Sample.config (Some "acme") "s2" 2000 (Sample.request "pad" "p2") 0
    Sample.world1 resp n' w' H) as (tenant & gid & ev & gs & _ & _ & _ & Hs).
  exists tenant, ev. exact Hs.
Defined.

Lemma tenant_rejections_are_verdicts_witness :
  exists e n' w',
    handle_login calm alone Sample.config (Some "closed") "s1" 1000 (Sample.request "phone" "p1") (0%nat, Sample.world0)
      = (Err e, (n', w')) /\ err_code e = PermissionDenied.
Proof.
  assert (H : exists e n' w',
    handle_login calm alone Sample.config (Some "closed") "s1" 1000 (Sample.request "phone" "p1") (0%nat, Sample.world0)
      = (Err e, (n', w')) /\ err_reason e = TENANT_UNAVAILABLE)
    by (eexists _, _, _; split; [vm_compute; reflexivity|reflexivity]).
  destruct H as (e & n' & w' & H & He). exists e, n', w'. split; [exact H|].
  exact (proj1 (tenant_rejections_are_verdicts calm alone Sample.config (Some "closed") "s1" 1000
    (Sample.request "phone" "p1") 0 Sample.world0 e n' w' H He)).
Defined.

Lemma logout_removes_the_session_witness :
  exists n' w',
    logout calm alone (fun _ => true) (Some "acme") (mkLogout " u1" "s1 ") (0%nat, Sample.world1) = (Ok (), (n', w')) /\
    hash (connection_key "acme" "u1") (redis (store w')) !! "s1" = None.
Proof.
  assert (H : exists n' w',
    logout calm alone (fun _ => true) (Some "acme") (mkLogout " u1" "s1 ") (0%nat, Sample.world1) = (Ok (), (n', w')))
    by (eexists _, _; vm_compute; reflexivity).
  destruct H as (n' & w' & H). exists n', w'. split; [exact H|].
  destruct (logout_removes_the_session calm alone (fun _ => true) (Some "acme") (mkLogout " u1" "s1 ") 0
    Sample.world1 n' w' H) as (t & Ht & _ & Hg & _).
  injection Ht as <-. exact Hg.
Defined.
