(* ===== verification/TenantKick.v ===== *)
(** * Kicking a tenant

    [kick_tenant] of user_service.rs walks the device index of a tenant with SSCAN and
    kicks every device it finds. SSCAN is an argument with the guarantee Redis
    documents for it. The file proves that a kick that reports success leaves no session
    of the tenant, and that it ends when SSCAN does. *)

From S2P Require Import Prelude.
From S2P Require Import Database.
From S2P Require Import Tenant.
From S2P Require Import Keyspace.
From S2P Require Import GatewayLease.
From S2P Require Import OnlineStore.
From S2P Require Import OnlineAdmission.
From S2P Require Import OnlineIndex.
From S2P Require Import OnlineService.
From stdpp Require Import base gmap list strings.
From Stdlib Require Import Lia ZArith.

Local Open Scope Z_scope.

(** ** SSCAN *)

Section Scan.
Context (sscan : Z -> gset string -> Z * list string).

(** The members a full iteration returns when the set is [sets] at its successive calls;
    [None] if the iteration does not end with the last of them. *)
Fixpoint full_scan (cursor : Z) (sets : list (gset string)) : option (list string) :=
  match sets with
  | [] => None
  | X :: sets' =>
      let '(next, members) := sscan cursor X in
      if bool_decide (next = 0) then
        match sets' with [] => Some members | _ => None end
      else rest ← full_scan next sets'; Some (members ++ rest)
  end.

(** The iteration has ended by the last of [sets]. *)
Fixpoint scan_ends (cursor : Z) (sets : list (gset string)) : bool :=
  match sets with
  | [] => false
  | X :: sets' => let '(next, _) := sscan cursor X in
                  if bool_decide (next = 0) then true else scan_ends next sets'
  end.

(** A call returns elements of the set, and a full iteration every element that was in it
    from its start to its end. *)
Class ScanLaws : Prop := {
  scan_sound cursor X m : m ∈ (sscan cursor X).2 -> m ∈ X;
  scan_complete sets members m :
    full_scan 0 sets = Some members -> (forall X, X ∈ sets -> m ∈ X) -> m ∈ members;
}.

End Scan.

(** An SSCAN that returns the whole set at once has the guarantee. *)
Definition scan_at_once (cursor : Z) (X : gset string) : Z * list string := (0, elements X).

#[export] Instance scan_at_once_laws : ScanLaws scan_at_once.
Proof.
  split; [intros cursor X m; apply elem_of_elements|].
  intros [|X [|Y sets]] members m; simpl; try done. intros [= <-] H. apply elem_of_elements, H. left.
Qed.

(** ** Steps keep the store consistent and add no session *)

Record fewer_sessions (t : string) (s s' : Redis) : Prop := {
  few_sub k f p : hash k s' !! f = Some p -> hash k s !! f = Some p;
  few_other k : (forall u, k <> connection_key t u) -> hash k s' = hash k s;
}.

Definition fewer (ttl : Z) (t : string) (s s' : Store) : Prop :=
  consistent ttl (redis s) -> consistent ttl (redis s') /\ fewer_sessions t (redis s) (redis s').

#[export] Instance fewer_preorder ttl t : PreOrder (fewer ttl t).
Proof.
  split; [intros s H; split; [done|by split]|].
  intros a b c H1 H2 Ha. destruct (H1 Ha) as [Hb [S1 O1]]. destruct (H2 Hb) as [Hc [S2 O2]].
  split; [done|]. split; [intros k f p H; by apply S1, S2|]. intros k Hk. by rewrite O2, O1.
Qed.

Section Kick.
Context (fault : schedule) (ttl : Z) (valid_uuid : string -> bool) (valid_timestamp : Z -> bool).
Context (t : string) (Ht : is_valid_tenant_id t = true).

Lemma keeps_step (R : relation Store) `{!PreOrder R} {A} err (eff : Store -> result A * Store) :
  (forall s, R s (eff s).2) -> keeps R (step fault alone err eff).
Proof. intros H n s. apply (keeps_exec R fault err eff H). Qed.

Lemma session_parses u d :
  user_id_new u = Ok u -> device_id_new d = Ok d ->
  parse_tenant_session_member (tenant_session_member u d) = Some (u, d).
Proof.
  unfold user_id_new, device_id_new. intros Hu Hd.
  destruct (Str.is_empty u) eqn:E1; [done|]. destruct (128 <? len u) eqn:E2; [done|].
  destruct (Str.is_empty d) eqn:E3; [done|].
  apply parse_tenant_member; [by apply Str.is_empty_false..|]. apply Z.ltb_ge in E2. unfold u64_max. lia.
Qed.

Lemma con_parses s u f r :
  consistent ttl s -> hash (connection_key t u) s !! f = Some (Json r) ->
  parse_tenant_session_member (tenant_session_member u (r_device_id r)) = Some (u, r_device_id r).
Proof.
  intros Hc H. destruct (con_session _ _ Hc _ _ _ H) as (t' & u' & r' & Hk & Ht' & Hu & [= <-] & _ & _ & Hd).
  apply connection_key_inj in Hk as [<- <-]; [|done..]. by apply session_parses.
Qed.

(** Dropping an index entry no session of its user and device needs. *)
Lemma fewer_srem m s :
  (forall u f r, hash (connection_key t u) (redis s) !! f = Some (Json r) -> m <> tenant_session_member u (r_device_id r)) ->
  fewer ttl t s (on_redis (srem (tenant_sessions_key t) m) s).
Proof.
  intros Hm Hc. split; [|split; simpl; intros *; by rewrite hash_srem].
  apply consistent_srem; [done| |done]. intros t' u' f' r' Ht' H. split; [|done].
  intros <-%tenant_sessions_key_inj. by apply (Hm u' f' r').
Qed.

Lemma keeps_unindex m : keeps (fewer ttl t) (unindex_tenant_session fault alone t m).
Proof.
  unfold unindex_tenant_session. destruct (parse_tenant_session_member m) as [[u d]|] eqn:Hp.
  - apply keeps_map_err, keeps_step; [exact _|]. intros s Hc. unfold on_script, unindex_if_absent.
    destruct (holds_device _ _ _) as [[]|] eqn:E; [by split; [|split]| |by split; [|split]].
    apply (fewer_srem m s); [|done]. intros u' f' r' H ->.
    rewrite (con_parses _ _ _ _ Hc H) in Hp. injection Hp as <- <-.
    destruct (con_at _ _ _ _ _ _ Hc Ht H) as (r0 & [= <-] & Hrt & _).
    eapply holds_device_false; [exact E| |exact Hrt|done]. apply value_iff. by exists f'.
  - apply keeps_step; [exact _|]. intros s Hc. apply (fewer_srem m s); [|done].
    intros u f r H ->. by rewrite (con_parses _ _ _ _ Hc H) in Hp.
Qed.

Lemma keeps_read {A} err (q : Store -> result A) : keeps (fewer ttl t) (step fault alone err (fun s => (q s, s))).
Proof. apply keeps_step; [exact _|]. intros s. reflexivity. Qed.

Lemma keeps_broadcast u d c reason : keeps (fewer ttl t) (broadcast_user_kick fault alone t u d c reason).
Proof. apply keeps_step; [exact _|]. intros s Hc. split; [done|by split]. Qed.

Lemma remove_for_kick_hash key index_key conns field user conn s k :
  hash k (remove_for_kick key index_key conns field t user conn s).2 = hash k s \/
  hash k (remove_for_kick key index_key conns field t user conn s).2 = hash k (hdel key field s).
Proof.
  unfold remove_for_kick. destruct (hget key field s) as [[r|]|]; [|by left..].
  destruct (_ || _); [by left|]. case_bool_decide; [by left|]. case_bool_decide; [by left|]. right. cbn [snd].
  rewrite hash_srem. destruct (existsb _ _); [done|]. apply hash_srem.
Qed.

Lemma keeps_remove_for_kick f u reason :
  keeps (fewer ttl t) (remove_connection_for_kick fault alone t f u reason).
Proof.
  unfold remove_connection_for_kick. apply keeps_bind; [exact _|apply keeps_read|].
  intros [[r|]|]; [|by apply keeps_lift; exact _|by apply keeps_ret; exact _].
  destruct (_ || _); [by apply keeps_lift; exact _|].
  apply keeps_bind; [exact _|apply keeps_broadcast|intros _].
  apply keeps_map_err, keeps_step; [exact _|]. intros s Hc. unfold on_script.
  pose proof (remove_for_kick_hash (connection_key t u) (tenant_sessions_key t)
      (conns_key (r_gateway_id r)) f u (r_connection_id r) (redis s)) as H.
  destruct (remove_for_kick _ _ _ _ _ _ _ _) as [x db] eqn:E. simpl in *. split; [by eapply consistent_kick|].
  split.
  - intros k f' p. destruct (H k) as [-> | ->]; [done|]. rewrite hash_hdel.
    destruct (decide _); [by intros [_ ?]%lookup_delete_Some|done].
  - intros k Hk. destruct (H k) as [-> | ->]; [done|]. by rewrite hash_hdel, decide_False.
Qed.

Lemma keeps_by_device u d :
  keeps (fewer ttl t) (get_connection_by_device fault alone valid_uuid valid_timestamp t u d).
Proof.
  unfold get_connection_by_device, get_user_connections, load_user_records.
  repeat first [apply keeps_read | apply keeps_bind; [exact _| |intros ?] | apply keeps_lift; exact _ | apply keeps_ret; exact _].
Qed.

Lemma keeps_kick_device u d reason :
  keeps (fewer ttl t) (kick_device_because fault alone valid_uuid valid_timestamp t u d reason).
Proof.
  unfold kick_device_because. repeat (apply keeps_bind; [exact _|apply keeps_lift; exact _|intros _]).
  apply keeps_bind; [exact _|apply keeps_by_device|]. intros [c|]; [|apply keeps_lift; exact _].
  case_bool_decide; [apply keeps_lift; exact _|].
  apply keeps_bind; [exact _|apply keeps_remove_for_kick|intros ?; apply keeps_ret; exact _].
Qed.

Lemma keeps_kick_member tally m :
  keeps (fewer ttl t) (kick_member fault alone valid_uuid valid_timestamp t tally m).
Proof.
  unfold kick_member. destruct (parse_tenant_session_member m) as [[u d]|].
  - apply keeps_on_result; [exact _|apply keeps_kick_device|intros ?; apply keeps_ret; exact _|intros e].
    case_bool_decide; [|apply keeps_ret; exact _].
    apply keeps_bind; [exact _|apply keeps_unindex|intros ?; apply keeps_ret; exact _].
  - apply keeps_bind; [exact _|apply keeps_unindex|intros ?; apply keeps_ret; exact _].
Qed.

(** ** What a kick of a device does *)

(** No session of the device is left. *)
Definition device_gone (u d : string) (s : Store) : Prop :=
  forall f r, hash (connection_key t u) (redis s) !! f = Some (Json r) -> r_device_id r <> d.

Lemma connection_from_ok u r c :
  connection_from_record valid_uuid valid_timestamp u r = Ok c ->
  id c = r_conversation_id r /\ device_id c = r_device_id r /\ tenant_id c = r_tenant_id r.
Proof.
  unfold connection_from_record. intros H. inv_ok. simpl.
  unfold connection_id_from in Ha. unfold device_id_new in Ha0. repeat case_match; by simplify_eq.
Qed.

Lemma connections_from_ok u l cs :
  connections_from valid_uuid valid_timestamp u l = Ok cs ->
  Forall2 (fun r c => id c = r_conversation_id r /\ device_id c = r_device_id r /\ tenant_id c = r_tenant_id r) l cs.
Proof.
  revert cs. induction l as [|r l IH]; intros cs; simpl; intros H; [by injection H as <-|].
  inv_ok. constructor; [by apply (connection_from_ok u)|by apply IH].
Qed.

(** The lookup of a device finds its session, or there is none. *)
Lemma by_device_ok u d n s x n' s' :
  consistent ttl (redis s) ->
  get_connection_by_device fault alone valid_uuid valid_timestamp t u d (n, s) = (Ok x, (n', s')) ->
  s' = s /\
  match x with
  | Some c => device_id c = d /\ tenant_id c = t /\
      exists r, hash (connection_key t u) (redis s) !! id c = Some (Json r) /\ r_device_id r = d
  | None => device_gone u d s
  end.
Proof.
  intros Hc. unfold get_connection_by_device, get_user_connections, load_user_records, mbind, stE_bind, step, alone, exec.
  destruct (fault n); [|done..]. destruct (check_records t (hgetall t u s)) as [l|] eqn:El; [|done].
  unfold lift_r. destruct (connections_from _ _ _ _) as [cs|] eqn:Ecs; [|done]. intros [= <- _ <-]. split; [done|].
  pose proof (fun r => check_records_ok t _ l r El) as Hl. apply connections_from_ok in Ecs.
  destruct (List.find _ cs) as [c|] eqn:Ef.
  - apply List.find_some in Ef as [Hc1%list_elem_of_In Hd%bool_decide_eq_true]. split; [done|].
    apply list_elem_of_lookup in Hc1 as [i Hi].
    destruct (Forall2_lookup_r _ _ _ _ _ Ecs Hi) as (r & Hr & Hid & Hdev & Hten).
    apply list_elem_of_lookup_2 in Hr. apply list_elem_of_filter in Hr as [Hrt Hr]. split; [congruence|].
    apply Hl, value_iff in Hr as [f Hf]. destruct (con_at _ _ _ _ _ _ Hc Ht Hf) as (r0 & [= <-] & _ & Hcf).
    exists r. split; [|congruence]. by rewrite Hid, Hcf.
  - intros f r Hf Hd. destruct (con_at _ _ _ _ _ _ Hc Ht Hf) as (r0 & [= <-] & Hrt & _).
    assert (Hr : r ∈ filter (fun r => r_tenant_id r = t) l).
    { apply list_elem_of_filter. split; [done|]. apply Hl, value_iff. by exists f. }
    apply list_elem_of_lookup in Hr as [i Hi]. destruct (Forall2_lookup_l _ _ _ _ _ Ecs Hi) as (c & Hci & _ & Hdev & _).
    apply list_elem_of_lookup_2, list_elem_of_In in Hci.
    apply (List.find_none _ _ Ef) in Hci. apply bool_decide_eq_false in Hci. congruence.
Qed.

(** A kick that went through took the session it looked up. *)
Lemma kick_removes u f r reason n s x n' s' :
  consistent ttl (redis s) -> hash (connection_key t u) (redis s) !! f = Some (Json r) ->
  remove_connection_for_kick fault alone t f u reason (n, s) = (Ok x, (n', s')) ->
  x <> None /\ hash (connection_key t u) (redis s') !! f = None.
Proof.
  intros Hc Hf. destruct (con_at _ _ _ _ _ _ Hc Ht Hf) as (r0 & [= <-] & Hrt & _).
  destruct (Str.is_empty (r_connection_id r)) eqn:Ee.
  { unfold remove_connection_for_kick, mbind, stE_bind, step, alone, exec. destruct (fault n); [|done..].
    cbn beta iota zeta. unfold hget at 1. by rewrite Hf, Ee, orb_true_r. }
  set (scr := remove_for_kick (connection_key t u) (tenant_sessions_key t) (conns_key (r_gateway_id r)) f t u (r_connection_id r)).
  assert (Hk : exists db, scr (redis s) = (Ok (Some (r_connection_id r)), db) /\ hash (connection_key t u) db !! f = None).
  { unfold scr, remove_for_kick, hget. rewrite Hf, Hrt, bool_decide_false, Ee by auto. cbn [orb].
    rewrite bool_decide_false by auto. rewrite bool_decide_false.
    - eexists. split; [done|]. rewrite hash_srem.
      destruct (existsb _ _); rewrite ?hash_srem; by rewrite hash_hdel, decide_True, lookup_delete_eq by done.
    - intros [f' H']%value_iff. by destruct (con_at _ _ _ _ _ _ Hc Ht H') as (r1 & ? & _). }
  destruct Hk as (db & Hk & Hnone).
  unfold remove_connection_for_kick, mbind, stE_bind, step, alone, exec. destruct (fault n); [|done..].
  cbn beta iota zeta. unfold hget at 1. rewrite Hf, Ee, Hrt, bool_decide_false by auto. cbn [orb]. fold scr.
  unfold broadcast_user_kick, step, alone, exec. destruct (fault (S n)); [|done..]. cbn beta iota zeta.
  unfold map_err, on_script. cbn [redis]. rewrite Hk. cbn beta iota zeta.
  destruct (fault (S (S n))); [|done..]. intros [= <- _ <-]. done.
Qed.

(** The errors of the lookup are internal ones. *)
Lemma connection_from_err u r e :
  connection_from_record valid_uuid valid_timestamp u r = Err e -> err_code e = InternalError.
Proof.
  unfold connection_from_record, connection_id_from, device_id_new.
  destruct (Str.is_empty (r_conversation_id r)); [by intros [= <-]|].
  destruct (valid_uuid (r_conversation_id r)); [|by intros [= <-]]. cbn.
  destruct (Str.is_empty (r_device_id r)); [by intros [= <-]|].
  destruct (128 <? len (r_device_id r)); [by intros [= <-]|]. cbn.
  unfold to_timestamp. destruct (valid_timestamp (r_last_seen r)); [done|by intros [= <-]].
Qed.

Lemma connections_from_err u l e :
  connections_from valid_uuid valid_timestamp u l = Err e -> err_code e = InternalError.
Proof.
  induction l as [|r l IH]; [done|]. cbn [connections_from].
  destruct (connection_from_record valid_uuid valid_timestamp u r) eqn:Er; cbn.
  - destruct (connections_from valid_uuid valid_timestamp u l); cbn; [done|]. intros [= <-]. by apply IH.
  - intros [= <-]. by apply (connection_from_err u r).
Qed.

Lemma check_records_err values e : check_records t values = Err e -> err_code e = InternalError.
Proof.
  assert (H : forall e, records_from_values values = Err e -> err_code e = InternalError).
  { induction values as [|[r|] l IH]; intros e0; cbn [records_from_values]; [done| |by intros [= <-]].
    destruct (records_from_values l) as [a|e1]; cbn; [done|]. intros [= <-]. by apply IH. }
  unfold check_records. destruct (records_from_values values) as [l|e0]; cbn.
  - destruct (existsb _ l); [by intros [= <-]|done].
  - intros [= <-]. by apply H.
Qed.

Lemma by_device_err u d n s e st :
  get_connection_by_device fault alone valid_uuid valid_timestamp t u d (n, s) = (Err e, st) -> err_code e = InternalError.
Proof.
  unfold get_connection_by_device, get_user_connections, load_user_records, mbind, stE_bind, step, alone, exec.
  destruct (fault n); [|by intros [= <- _]..].
  destruct (check_records t (hgetall t u s)) as [l|e0] eqn:El; [|intros [= <- _]; by apply check_records_err in El].
  unfold lift_r. destruct (connections_from _ _ _ _) as [cs|e1] eqn:Ecs; [done|].
  intros [= <- _]. by apply connections_from_err in Ecs.
Qed.

Lemma kick_err f u reason n s e st :
  remove_connection_for_kick fault alone t f u reason (n, s) = (Err e, st) -> err_code e <> UserNotFound.
Proof.
  unfold remove_connection_for_kick, mbind, stE_bind, step at 1, alone at 1, exec at 1.
  destruct (fault n); [|by intros [= <- _]..]. cbn beta iota zeta.
  destruct (hget _ _ _) as [[r1|]|]; [|by intros [= <- _]|done].
  destruct (_ || _); [by intros [= <- _]|].
  unfold broadcast_user_kick, step at 1, alone at 1, exec at 1. destruct (fault (S n)); [|by intros [= <- _]..].
  cbn beta iota zeta. unfold map_err. destruct (step _ _ _ _ _) as [[x0|e0] [n3 s3]]; [done|by intros [= <- _]].
Qed.

Lemma kick_device_effect u d reason n s :
  consistent ttl (redis s) ->
  match kick_device_because fault alone valid_uuid valid_timestamp t u d reason (n, s) with
  | (Ok b, (_, s')) => b = true /\ device_gone u d s'
  | (Err e, (_, s')) => err_code e = UserNotFound -> s' = s /\ device_gone u d s
  end.
Proof.
  intros Hc. unfold kick_device_because, mbind, stE_bind, lift_r.
  destruct (user_id_new u) as [u0|e] eqn:Eu; [|unfold user_id_new in Eu; repeat case_match; by simplify_eq].
  destruct (device_id_new d) as [d0|e] eqn:Ed; [|unfold device_id_new in Ed; repeat case_match; by simplify_eq].
  destruct (get_connection_by_device _ _ _ _ _ _ _ _) as [[x|e] [n1 s1]] eqn:Eg.
  2: { apply by_device_err in Eg. congruence. }
  destruct (by_device_ok _ _ _ _ _ _ _ Hc Eg) as [-> Hx]. destruct x as [c|]; [|by simpl].
  destruct Hx as (Hd & Htc & r & Hf & Hdr). rewrite bool_decide_false by auto. cbn beta.
  destruct (remove_connection_for_kick fault alone t (id c) u reason (n1, s)) as [[x|e] [n2 s2]] eqn:Er.
  - pose proof (keeps_remove_for_kick (id c) u reason n1 s Hc) as [_ [Hsub _]]. rewrite Er in Hsub. simpl in Hsub.
    destruct (kick_removes _ _ _ _ _ _ _ _ _ Hc Hf Er) as [Hx Hgone]. destruct x; [|done]. simpl. split; [done|].
    intros f' r' Hf' Hd'. apply Hsub in Hf' as Hf''.
    rewrite (con_device _ _ Hc _ _ _ _ _ _ Ht Hf'' Hf) in Hf'; [congruence|congruence].
  - intros He. by apply kick_err in Er.
Qed.

(** ** The walk over the index *)

Lemma device_gone_fewer u d s s' : consistent ttl (redis s) -> fewer ttl t s s' -> device_gone u d s -> device_gone u d s'.
Proof. intros Hc Hf Hg f r H. destruct (Hf Hc) as [_ [Hsub _]]. apply (Hg f), Hsub, H. Qed.

Definition handled (m : string) (s : Store) : Prop :=
  forall u d, parse_tenant_session_member m = Some (u, d) -> device_gone u d s.

Lemma bump_pos z : 0 <= z -> 0 < bump z.
Proof. unfold bump, u32_max. lia. Qed.

Lemma kick_member_effect tally m n s t' n' s' :
  consistent ttl (redis s) -> 0 <= failed tally ->
  kick_member fault alone valid_uuid valid_timestamp t tally m (n, s) = (Ok t', (n', s')) ->
  0 <= failed t' /\ (failed t' = 0 -> failed tally = 0 /\ handled m s').
Proof.
  intros Hc Hpos. unfold kick_member, handled. destruct (parse_tenant_session_member m) as [[u d]|].
  2: { unfold mbind, stE_bind. destruct (unindex_tenant_session _ _ _ _ _) as [[[]|] s1]; [|done].
       intros [= <- _]. split; [done|]. intros H. by split. }
  unfold on_result. pose proof (kick_device_effect u d TENANT_UNAVAILABLE n s Hc) as Hk.
  destruct (kick_device_because _ _ _ _ _ _ _ _ _) as [[b|e] [n1 s1]].
  - destruct Hk as [-> Hg]. intros [= <- <- <-]. split; [done|]. intros Hz. split; [done|]. by intros ? ? [= <- <-].
  - case_bool_decide as He.
    + destruct (Hk He) as [-> Hg]. unfold mbind, stE_bind.
      pose proof (keeps_unindex m n1 s) as Hu.
      destruct (unindex_tenant_session _ _ _ _ _) as [[[]|] [n2 s2]]; [|done].
      intros [= <- <- <-]. split; [done|]. intros Hz. split; [done|]. intros ? ? [= <- <-].
      by apply (device_gone_fewer u d s s2).
    + intros [= <- <- <-]. pose proof (bump_pos _ Hpos). simpl. split; [lia|]. lia.
Qed.

Lemma kick_members_effect members tally n s t' n' s' :
  consistent ttl (redis s) -> 0 <= failed tally ->
  kick_members fault alone valid_uuid valid_timestamp t tally members (n, s) = (Ok t', (n', s')) ->
  fewer ttl t s s' /\ 0 <= failed t' /\ (failed t' = 0 -> failed tally = 0 /\ forall m, m ∈ members -> handled m s').
Proof.
  revert tally n s. induction members as [|m members IH]; intros tally n s Hc Hpos; cbn [kick_members].
  { intros [= <- <- <-]. split; [reflexivity|]. split; [done|]. intros Hz. split; [done|]. intros m Hm. by apply elem_of_nil in Hm. }
  unfold mbind, stE_bind. destruct (kick_member _ _ _ _ _ _ _ _) as [[t1|e] [n1 s1]] eqn:Em; [|done]. intros H.
  pose proof (keeps_kick_member tally m n s) as Hk. rewrite Em in Hk. simpl in Hk.
  destruct (kick_member_effect _ _ _ _ _ _ _ Hc Hpos Em) as [Hp1 Hh1].
  destruct (IH _ _ _ (proj1 (Hk Hc)) Hp1 H) as (Hf & Hp' & Hall).
  split; [by etrans|]. split; [done|]. intros Hz. destruct (Hall Hz) as [Hz1 Hms]. destruct (Hh1 Hz1) as [Hz0 Hm].
  split; [done|]. intros m' [->|Hin]%elem_of_cons; [|by apply Hms].
  intros u d Hp. apply (device_gone_fewer u d s1 s'); [by apply (Hk Hc)|done|by apply Hm].
Qed.

Section Pages.
Context (sscan : Z -> gset string -> Z * list string).

(** The sets a walk saw, and what became of their members. *)
Lemma kick_pages_effect rounds cursor tally n s t' n' s' :
  consistent ttl (redis s) -> 0 <= failed tally ->
  kick_pages fault alone valid_uuid valid_timestamp sscan rounds t cursor tally (n, s) = (Ok (Some t'), (n', s')) ->
  fewer ttl t s s' /\
  exists sets ms, full_scan sscan cursor sets = Some ms /\
    (forall X, X ∈ sets -> exists s0, consistent ttl (redis s0) /\ fewer ttl t s0 s' /\
       X = smembers (tenant_sessions_key t) (redis s0)) /\
    0 <= failed t' /\ (failed t' = 0 -> failed tally = 0 /\ forall m, m ∈ ms -> handled m s').
Proof.
  revert cursor tally n s. induction rounds as [|rounds IH]; intros cursor tally n s Hc Hpos; cbn [kick_pages]; [done|].
  unfold mbind, stE_bind, scan_tenant_sessions, step, alone, exec. destruct (fault n); [|done..]. cbn beta iota zeta.
  destruct (sscan cursor (smembers (tenant_sessions_key t) (redis s))) as [next ms] eqn:Es.
  destruct (kick_members _ _ _ _ _ _ _ _) as [[t1|e] [n1 s1]] eqn:Em; [|done].
  destruct (kick_members_effect _ _ _ _ _ _ _ Hc Hpos Em) as (Hf & Hp1 & Hall).
  case_bool_decide as En.
  - intros [= <- <- <-]. split; [done|]. exists [smembers (tenant_sessions_key t) (redis s)], ms. split_and!.
    + simpl. rewrite Es. by rewrite bool_decide_true.
    + intros X ->%list_elem_of_singleton. by exists s.
    + done.
    + done.
  - intros H. destruct (IH _ _ _ _ (proj1 (Hf Hc)) Hp1 H) as (Hf' & sets & rest & Hscan & Hsets & Hp' & Hrest).
    split; [by etrans|]. exists (smembers (tenant_sessions_key t) (redis s) :: sets), (ms ++ rest). split_and!.
    + simpl. rewrite Es, bool_decide_false by done. by rewrite Hscan.
    + intros X [->|HX]%elem_of_cons; [|by apply Hsets]. exists s. split; [done|]. split; [by etrans|done].
    + done.
    + intros Hz. destruct (Hrest Hz) as [Hz1 Hr]. destruct (Hall Hz1) as [Hz0 Hms]. split; [done|].
      intros m [Hm|Hm]%elem_of_app; [|by apply Hr]. intros u d Hp.
      apply (device_gone_fewer u d s1 s'); [by apply (Hf Hc)|done|exact (Hms m Hm u d Hp)].
Qed.

Lemma kick_pages_ends rounds cursor tally n s n' s' :
  kick_pages fault alone valid_uuid valid_timestamp sscan rounds t cursor tally (n, s) = (Ok None, (n', s')) ->
  exists sets, length sets = rounds /\ scan_ends sscan cursor sets = false.
Proof.
  revert cursor tally n s. induction rounds as [|rounds IH]; intros cursor tally n s; cbn [kick_pages]; [by exists []|].
  unfold mbind, stE_bind, scan_tenant_sessions, step, alone, exec. destruct (fault n); [|done..]. cbn beta iota zeta.
  destruct (sscan cursor (smembers (tenant_sessions_key t) (redis s))) as [next ms] eqn:Es.
  destruct (kick_members _ _ _ _ _ _ _ _) as [[t1|e] [n1 s1]]; [|done]. case_bool_decide as En; [done|].
  intros (sets & Hl & He)%IH. exists (smembers (tenant_sessions_key t) (redis s) :: sets). simpl.
  rewrite Es, bool_decide_false by done. by split; [rewrite Hl|].
Qed.

End Pages.

End Kick.

(** C19. A tenant kick that reports success leaves no session, if every session was indexed when it
    began and no other client logs in, out or beats meanwhile: whatever round trips failed on the
    way (the kick then reports a failure instead), an answer with a count means that every
    user of the tenant has no session left, while the sessions of other tenants are as they
    were. With an SSCAN that ends within the given rounds the walk always answers. A session
    that is replaced before its removal counts as handled in the code; with nobody else at
    work there is none. *)
Theorem tenant_kick_leaves_no_session fault ttl valid_uuid valid_timestamp sscan `{!ScanLaws sscan} rounds raw n s :
  consistent ttl (redis s) ->
  (forall sets, length sets = rounds -> scan_ends sscan 0 sets = true) ->
  let tenant := normalize_tenant_id raw in
  match kick_tenant fault alone valid_uuid valid_timestamp sscan rounds raw (n, s) with
  | (Ok (Some _), (_, s')) =>
      (forall u, hash (connection_key tenant u) (redis s') = ∅) /\
      (forall k, (forall u, k <> connection_key tenant u) -> hash k (redis s') = hash k (redis s))
  | (Ok None, _) => False
  | (Err _, _) => True
  end.
Proof.
  intros Hc Hends tenant. unfold kick_tenant. fold tenant.
  destruct (is_valid_tenant_id tenant) eqn:Ht; [|done]. cbn [negb]. unfold mbind, stE_bind.
  destruct (kick_pages _ _ _ _ _ _ _ _ _ _) as [[[t'|]|e] [n1 s1]] eqn:Ep; [| |done].
  2: { apply kick_pages_ends in Ep as (sets & Hl & He). by rewrite Hends in He. }
  destruct (kick_pages_effect _ ttl _ _ _ Ht _ _ _ (mkTally 0 0 0) _ _ _ _ _ Hc (Z.le_refl 0) Ep) as (Hf & sets & ms & Hscan & Hsets & Hp & Hall).
  destruct (0 <? failed t') eqn:E; [done|]. cbn. apply Z.ltb_ge in E. destruct (Hall ltac:(lia)) as [_ Hms].
  destruct (Hf Hc) as [Hc' [_ Hother]]. split; [|done].
  intros u. apply map_empty. intros f. destruct (hash (connection_key tenant u) (redis s1) !! f) as [p|] eqn:Ef; [|done].
  exfalso. destruct (con_at _ _ _ _ _ _ Hc' Ht Ef) as (r & -> & _).
  refine (Hms (tenant_session_member u (r_device_id r)) _ u (r_device_id r) (con_parses ttl tenant Ht _ _ _ _ Hc' Ef) f r Ef eq_refl).
  apply (scan_complete sscan sets ms _ Hscan). intros X (s0 & Hc0 & Hf0 & ->)%Hsets.
  apply (con_indexed _ _ Hc0 tenant u f r Ht). by apply (few_sub _ _ _ (proj2 (Hf0 Hc0))).
Qed.

(** ** Witnesses *)

Module Sample.

Definition login_as (u dev i conn : string) (s : Redis) : Redis :=
  (admit_script (connection_key "acme" u) (tenant_sessions_key "acme") [conns_key "gw-1"] i
    (with_connection_id (record_from_connection (mkConnection i u dev "acme" "ios" "srv" "gw-1" Normal 0 1000 1000)) conn)
    60 Coexist 0 u s).2.

Definition two_users : Store :=
  mkStore (login_as "u2" "pad" "s2" "p2" (login_as "u1" "phone" "s1" "p1" (mkKeyspace ∅ ∅ ∅ 1000))) [].

Lemma consistent_login_as u dev i conn s :
  user_id_new u = Ok u -> device_id_new dev = Ok dev -> consistent 60 s -> consistent 60 (login_as u dev i conn s).
Proof.
  intros Hu Hd Hc. unfold login_as. destruct (admit_script _ _ _ _ _ _ _ _ _ _) as [r db] eqn:E.
  by eapply (consistent_admit 60 s "acme" u i [] Coexist 0 _ r db); [..|exact E].
Qed.

Lemma consistent_two_users : consistent 60 (redis two_users).
Proof. do 2 (apply consistent_login_as; [done..|]). apply consistent_empty. Qed.

End Sample.

Lemma tenant_kick_leaves_no_session_witness :
  exists n' s',
    kick_tenant calm alone (fun _ => true) (fun _ => true) scan_at_once 1 "acme" (0%nat, Sample.two_users)
      = (Ok (Some 2), (n', s')) /\ (forall u, hash (connection_key "acme" u) (redis s') = ∅).
Proof.
  assert (H : exists n' s',
    kick_tenant calm alone (fun _ => true) (fun _ => true) scan_at_once 1 "acme" (0%nat, Sample.two_users)
      = (Ok (Some 2), (n', s'))).
  { eexists _, _. vm_compute. reflexivity. }
  destruct H as (n' & s' & H). exists n', s'. split; [exact H|].
  pose proof (tenant_kick_leaves_no_session calm 60 (fun _ => true) (fun _ => true) scan_at_once 1 "acme" 0
    Sample.two_users Sample.consistent_two_users) as Hk. cbv zeta in Hk. rewrite H in Hk.
  apply Hk. intros [|X sets]; [discriminate|reflexivity].
Defined.
