(* ===== verification/GatewaySweep.v ===== *)
(** * The sweeper of dead gateways

    flare-signaling/online/src/application/handlers/gateway_sweeper.rs with its store
    (infrastructure/persistence/redis/gateway_sweep.rs): a single instance, the holder
    of a lock, looks at the gateways that registered a lease, and disconnects the
    sessions of those whose lease has been missing for a while. The members of a page
    are disconnected one after the other here; the code runs a bounded number at a time. *)

From S2P Require Import Prelude.
From S2P Require Import Database.
From S2P Require Import Tenant.
From S2P Require Import Keyspace.
From S2P Require Import GatewayLease.
From S2P Require Import OnlineStore.
From S2P Require Import OnlineAdmission.
From S2P Require Import OnlineIndex.
From S2P Require Import OnlineService.
From S2P Require Import TenantKick.
From stdpp Require Import base gmap list strings.
From Stdlib Require Import Lia ZArith.

Local Open Scope Z_scope.

(** ** Suspicion *)

(** [confirmed_dead]: the gateways whose lease has been missing for [confirm_after], and the
    table of when each missing one was first seen missing. *)
Definition missing_of (known : list (string * bool)) : list string :=
  omap (fun '(g, alive) => if alive : bool then None else Some g) known.

Definition note_suspect (now : Z) (suspects : gmap string Z) (g : string) : gmap string Z :=
  match suspects !! g with Some _ => suspects | None => <[g := now]> suspects end.

Definition confirmed_dead (confirm_after now : Z) (suspects : gmap string Z) (known : list (string * bool))
    : list string * gmap string Z :=
  let missing := missing_of known in
  let suspects := filter (fun e => e.1 ∈ missing) suspects in
  let suspects := foldl (note_suspect now) suspects missing in
  (filter (fun g => confirm_after <= now - default now (suspects !! g)) missing, suspects).

(** ** The store of the sweeper *)

Record SweepState := mkSweep {
  world : World;
  known : gset string;
  leases : gset string;
  lock : option string;
}.

Record SessionOwner := mkOwner { o_gateway_id : string; o_created_at_ms : Z }.

Record SweepReport := mkReport { leader : bool; dead_gateways : Z; removed : Z; retired : Z }.

Record GatewayOutcome := mkOutcome { out_removed : Z; out_retired : bool; out_lost_lock : bool }.

Section Sweeper.
Context (fault : schedule) (gothers : nat -> SweepState -> SweepState).
Context (valid_uuid : string -> bool) (valid_timestamp : Z -> bool).
Context (token : string) (confirm_after : Z) (sscan : Z -> gset string -> Z * list string).

Abbreviation M := (db SweepState).

Definition redis_failure : FlareError := flare_err OperationTimeout "gateway sweep redis operation failed".

(** One round trip of the sweep repository. *)
Definition sweep_step {A} (eff : SweepState -> result A * SweepState) : M A :=
  fun '(n, s) => exec fault redis_failure eff (n, gothers n s).

(** A call of the command handler. *)
Definition service {A} (m : db World A) : M A :=
  fun '(n, s) => let '(r, (n', w')) := m (n, world s) in (r, (n', mkSweep w' (known s) (leases s) (lock s))).

Definition sweep_redis (s : SweepState) : Redis := redis (store (world s)).

Definition on_sweep_redis (f : Redis -> Redis) (s : SweepState) : SweepState :=
  mkSweep (mkWorld (on_redis f (store (world s))) (memory (world s)) (presence (world s))) (known s) (leases s) (lock s).

(** HOLD_LOCK_SCRIPT: the holder renews, otherwise SET NX. *)
Definition hold_sweeper_lock : M bool :=
  sweep_step (fun s =>
    match lock s with
    | Some holder => (Ok (bool_decide (holder = token)), s)
    | None => (Ok true, mkSweep (world s) (known s) (leases s) (Some token))
    end).

(** RELEASE_LOCK_SCRIPT *)
Definition release_sweeper_lock : M unit :=
  sweep_step (fun s => (Ok (), mkSweep (world s) (known s) (leases s)
    (if decide (lock s = Some token) then None else lock s))).

Definition known_gateways : M (list string) := sweep_step (fun s => (Ok (elements (known s)), s)).

Definition leases_present (gateway_ids : list string) : M (list bool) :=
  match gateway_ids with
  | [] => mret []
  | _ => sweep_step (fun s => (Ok ((fun g => bool_decide (g ∈ leases s)) <$> gateway_ids), s))
  end.

Definition scan_gateway_connections (gateway_id : string) (cursor : Z) : M (Z * list string) :=
  sweep_step (fun s => (Ok (sscan cursor (smembers (conns_key gateway_id) (sweep_redis s))), s)).

(** [session_owner]: a payload that does not parse is no session. *)
Definition session_owner (tenant user field : string) : M (option SessionOwner) :=
  sweep_step (fun s => (Ok (match hget (connection_key tenant user) field (sweep_redis s) with
                            | Some (Json r) => Some (mkOwner (r_gateway_id r) (r_created_at r))
                            | _ => None
                            end), s)).

Definition forget_gateway_connection (gateway_id member : string) : M unit :=
  sweep_step (fun s => (Ok (), on_sweep_redis (srem (conns_key gateway_id) member) s)).

(** RETIRE_SCRIPT *)
Definition retire_gateway (gateway_id : string) : M bool :=
  sweep_step (fun s =>
    if decide (gateway_id ∈ leases s) then (Ok false, s)
    else
      let s' := on_sweep_redis (del (conns_key gateway_id)) s in
      (Ok true, mkSweep (world s') (known s ∖ {[ gateway_id ]}) (leases s) (lock s))).

(** ** A sweep *)

Definition forget (gateway_id member : string) : M unit := log_error (forget_gateway_connection gateway_id member).

(** [handle_gateway_lost] *)
Definition gateway_lost (tenant user field : string) (now : Z) : M unit :=
  service (disconnect fault alone valid_uuid valid_timestamp (Some tenant) (mkLogout user field) "gateway_lost" now).

Definition retire_member (gateway_id owner_id : string) (cutoff_ms : Z) (member : string) : M bool :=
  match parse_connection_member member with
  | None => _ ← forget gateway_id member; mret false
  | Some (tenant, user, field) =>
      on_result (session_owner tenant user field)
        (fun owner =>
           match owner with
           | None => _ ← forget gateway_id member; mret false
           | Some owner =>
               if bool_decide (o_gateway_id owner <> owner_id) || (cutoff_ms <? o_created_at_ms owner) then mret false
               else on_result (gateway_lost tenant user field cutoff_ms) (fun _ => mret true) (fun _ => mret false)
           end)
        (fun _ => mret false)
  end.

Fixpoint retire_members (gateway_id owner_id : string) (cutoff_ms : Z) (members : list string) : M Z :=
  match members with
  | [] => mret 0
  | m :: members' =>
      gone ← retire_member gateway_id owner_id cutoff_ms m;
      rest ← retire_members gateway_id owner_id cutoff_ms members';
      mret ((if gone : bool then 1 else 0) + rest)
  end.

(** The loop of [sweep_gateway]; [None] if SSCAN takes more than [rounds] pages. *)
Fixpoint sweep_pages (rounds : nat) (gateway_id : string) (cutoff_ms cursor removed : Z) : M (option GatewayOutcome) :=
  match rounds with
  | O => mret None
  | S rounds' =>
      held ← hold_sweeper_lock;
      if negb held then mret (Some (mkOutcome removed false true))
      else
        present ← leases_present [gateway_id];
        if default false (head present) then mret (Some (mkOutcome removed false false))
        else
          '(next, members) ← scan_gateway_connections gateway_id cursor;
          gone ← retire_members gateway_id (base_gateway_id gateway_id) cutoff_ms members;
          if bool_decide (next = 0) then
            retired ← retire_gateway gateway_id;
            mret (Some (mkOutcome (removed + gone) retired false))
          else sweep_pages rounds' gateway_id cutoff_ms next (removed + gone)
  end.

Definition sweep_gateway (rounds : nat) (now : Z) (gateway_id : string) : M (option GatewayOutcome) :=
  sweep_pages rounds gateway_id now 0 0.

(** [wall g]: the wall clock when the sweep of [g] starts. *)
Fixpoint sweep_dead (rounds : nat) (wall : string -> Z) (report : SweepReport) (dead : list string) : M (option SweepReport) :=
  match dead with
  | [] => mret (Some report)
  | g :: dead' =>
      outcome ← sweep_gateway rounds (wall g) g;
      match outcome with
      | None => mret None
      | Some o =>
          let report := mkReport (negb (out_lost_lock o) && leader report) (dead_gateways report + 1)
            (removed report + out_removed o) (retired report + (if out_retired o then 1 else 0)) in
          if out_lost_lock o then mret (Some report) else sweep_dead rounds wall report dead'
      end
  end.

(** [sweep_once] at the monotonic time [now]; the table of suspects is part of the process. *)
Definition sweep_once (rounds : nat) (now : Z) (wall : string -> Z) (suspects : gmap string Z) : M (option SweepReport * gmap string Z) :=
  held ← hold_sweeper_lock;
  if negb held then mret (Some (mkReport false 0 0 0), suspects)
  else
    ids ← known_gateways;
    present ← leases_present ids;
    let '(dead, suspects) := confirmed_dead confirm_after now suspects (zip ids present) in
    report ← sweep_dead rounds wall (mkReport true 0 0 0) dead;
    mret (report, suspects).

End Sweeper.

(** ** A gateway is dead only after a while *)

(** The table of suspects after the rounds of a process: when each ran and what it saw. *)
Definition suspects_after (confirm_after : Z) (rounds : list (Z * list (string * bool))) : gmap string Z :=
  foldl (fun suspects '(now, known) => (confirmed_dead confirm_after now suspects known).2) ∅ rounds.

Lemma note_fold now missing (m : gmap string Z) g :
  foldl (note_suspect now) m missing !! g =
    match m !! g with Some x => Some x | None => if decide (g ∈ missing) then Some now else None end.
Proof.
  revert m. induction missing as [|x missing IH]; intros m; cbn [foldl].
  { by destruct (m !! g). }
  rewrite IH. clear IH. unfold note_suspect. destruct (m !! x) as [y|] eqn:Ex.
  - destruct (m !! g) as [z|] eqn:Eg; [done|]. assert (g <> x) by congruence.
    repeat case_decide; try done; rewrite elem_of_cons in *; naive_solver.
  - destruct (decide (x = g)) as [->|Hx].
    + rewrite lookup_insert_eq, Ex. cbv iota. rewrite decide_True; [done|left].
    + rewrite lookup_insert_ne by done. destruct (m !! g); [done|].
      repeat case_decide; try done; rewrite elem_of_cons in *; naive_solver.
Qed.

Lemma suspects_next confirm_after now (suspects : gmap string Z) known g since :
  (confirmed_dead confirm_after now suspects known).2 !! g = Some since ->
  g ∈ missing_of known /\ (suspects !! g = Some since \/ since = now).
Proof.
  unfold confirmed_dead. cbn [snd]. rewrite note_fold, map_lookup_filter.
  destruct (suspects !! g) as [x|]; simpl.
  - destruct (decide (g ∈ missing_of known)) as [Hm|Hm].
    + rewrite option_guard_True by done. intros [= ->]. auto.
    + by rewrite option_guard_False by done.
  - case_decide; [|done]. intros [= ->]. auto.
Qed.

(** Since [since] every round saw the lease missing. *)
Definition missing_since (g : string) (since : Z) (rounds : list (Z * list (string * bool))) : Prop :=
  exists before known0 during, rounds = before ++ (since, known0) :: during /\
    forall t known, (t, known) ∈ (since, known0) :: during -> g ∈ missing_of known.

Lemma suspects_missing confirm_after rounds g since :
  suspects_after confirm_after rounds !! g = Some since -> missing_since g since rounds.
Proof.
  revert since. induction rounds as [|[now known] rounds IH] using rev_ind; intros since.
  { unfold suspects_after. simpl. by rewrite lookup_empty. }
  unfold suspects_after. rewrite foldl_app. simpl. fold (suspects_after confirm_after rounds).
  intros [Hm [H| ->]]%(suspects_next confirm_after).
  - destruct (IH since H) as (before & known0 & during & -> & Hall). exists before, known0, (during ++ [(now, known)]).
    split; [by rewrite <- app_assoc|]. intros t kn. rewrite elem_of_cons, elem_of_app, list_elem_of_singleton.
    intros [E|[E|E]]; [apply (Hall t); by rewrite E; left|apply (Hall t); by right|by injection E as -> ->].
  - exists rounds, known, []. split; [done|]. intros t kn [= -> ->]%list_elem_of_singleton. done.
Qed.

(** A gateway counts as dead only when its lease was missing in this round and in every
    round of the process since one at least [confirm_after] ago: one round that saw the
    lease starts the clock again. *)
Theorem dead_gateways_were_missing_all_along confirm_after rounds now known g :
  0 < confirm_after ->
  g ∈ (confirmed_dead confirm_after now (suspects_after confirm_after rounds) known).1 ->
  exists since, confirm_after <= now - since /\ missing_since g since rounds /\ g ∈ missing_of known.
Proof.
  intros Hp H. unfold confirmed_dead in H. cbn [fst] in H.
  apply list_elem_of_filter in H as [Hage Hm].
  rewrite note_fold, map_lookup_filter in Hage.
  destruct (suspects_after confirm_after rounds !! g) as [since|] eqn:E; simpl in Hage.
  - rewrite option_guard_True in Hage by done. simpl in Hage. exists since. split; [done|].
    split; [by eapply suspects_missing|done].
  - rewrite decide_True in Hage by done. simpl in Hage. lia.
Qed.

Lemma dead_gateways_were_missing_all_along_witness :
  "g" ∈ (confirmed_dead 6 10 (suspects_after 6 [(0, [("g", false)]); (5, [("g", false)])]) [("g", false)]).1 /\
  exists since, 6 <= 10 - since /\ missing_since "g" since [(0, [("g", false)]); (5, [("g", false)])] /\
    "g" ∈ missing_of [("g", false)].
Proof.
  assert (H : "g" ∈ (confirmed_dead 6 10 (suspects_after 6 [(0, [("g", false)]); (5, [("g", false)])]) [("g", false)]).1)
    by (apply (bool_decide_eq_true_1 _); vm_compute; reflexivity).
  split; [exact H|].
  exact (dead_gateways_were_missing_all_along 6 [(0, [("g", false)]); (5, [("g", false)])] 10 [("g", false)] "g" eq_refl H).
Defined.

(** ** A failed removal is not retried *)

Module Lost.

Definition session : Connection :=
  mkConnection "s1" "u1" "phone" "acme" "ios" "srv" "gw-1" Normal 0 1000 1000.

(** A session on a gateway whose lease is gone. *)
Definition before : SweepState :=
  mkSweep (mkWorld (relogin 60 session "p1" Coexist (mkStore (mkKeyspace ∅ ∅ ∅ 1000) [])) ∅ []) {[ "gw-1" ]} ∅ None.

(** Suspected since the start of the process. *)
Definition suspects : gmap string Z := {[ "gw-1" := 0 ]}.

(** The read of the records fails once while the session is removed. *)
Definition one_fault : schedule := fun n => if decide (n = 7%nat) then FailsBefore else Works.

Definition first_sweep := sweep_once one_fault (fun _ s => s) (fun _ => true) (fun _ => true) "a" 6000 scan_at_once 1 10000 (fun _ => 10000)
  suspects (0%nat, before).

Definition second_sweep := sweep_once calm (fun _ s => s) (fun _ => true) (fun _ => true) "a" 6000 scan_at_once 1 15000 (fun _ => 15000)
  suspects first_sweep.2.

End Lost.

(** The sweep logs that a failed removal is retried in the next round, but retires the
    gateway all the same: after one failed round trip the session of the dead gateway stays,
    its gateway is no longer known and its connection set is gone, and the next sweep does
    nothing. *)
Theorem failed_removal_is_never_retried :
  (exists r, Lost.first_sweep.1 = Ok (Some (mkReport true 1 0 1), r)) /\
  known Lost.first_sweep.2.2 = ∅ /\
  (exists r, Lost.second_sweep.1 = Ok (Some (mkReport true 0 0 0), r)) /\
  is_Some (hash (connection_key "acme" "u1") (sweep_redis Lost.second_sweep.2.2) !! "s1").
Proof.
  split_and!; [eexists; vm_compute; reflexivity|vm_compute; reflexivity|eexists; vm_compute; reflexivity|].
  eexists. vm_compute. reflexivity.
Qed.
