(* ===== verification/SweepSessions.v ===== *)
(** * What a sweep does to the sessions

    A sweep removes only sessions of the connection sets of gateways it found dead, registered
    before the sweep reached them (flare-signaling/online, gateway_sweeper.rs), while leases and
    other sessions come and go. *)

From S2P Require Import Prelude.
From S2P Require Import Database.
From S2P Require Import Tenant.
From S2P Require Import Keyspace.
From S2P Require Import GatewayLease.
From S2P Require Import OnlineStore.
From S2P Require Import OnlineAdmission.
From S2P Require Import OnlineIndex.
From S2P Require Import OnlineService.
From S2P Require Import TenantKick.
From S2P Require Import GatewaySweep.
From stdpp Require Import base gmap list strings.
From Stdlib Require Import Lia ZArith.

Local Open Scope Z_scope.

(** Keys and fields as the service writes them: ids without surrounding white space. *)
Definition well_named (s : Redis) : Prop :=
  forall k f p, hash k s !! f = Some p ->
    exists t u r, k = connection_key t u /\ is_valid_tenant_id t = true /\ p = Json r /\ Str.trim u = u /\ Str.trim f = f.

Lemma well_named_sub (s s' : Redis) :
  (forall k f p, hash k s' !! f = Some p -> hash k s !! f = Some p) -> well_named s -> well_named s'.
Proof. intros Hs Hw k f p H. by apply Hw, Hs. Qed.

(** ** A disconnect *)

(** At most the session [f] of the key [k] goes, and sets only lose members. *)
Record drops (k f : string) (s s' : Redis) : Prop := {
  drop_sub k' f' p : hash k' s' !! f' = Some p -> hash k' s !! f' = Some p;
  drop_only k' f' p : hash k' s !! f' = Some p -> hash k' s' !! f' = Some p \/ (k' = k /\ f' = f);
  drop_sets x : smembers x s' ⊆ smembers x s;
}.

#[export] Instance drops_preorder k f : PreOrder (drops k f).
Proof.
  split; [intros s; split; auto|]. intros a b c [S1 O1 T1] [S2 O2 T2]. split.
  - auto.
  - intros k' f' p H. destruct (O1 _ _ _ H) as [H1|]; [by apply O2|auto].
  - intros x. etrans; [apply T2|apply T1].
Qed.

Lemma drops_srem k f x m s : drops k f s (srem x m s).
Proof.
  split; intros *; rewrite ?hash_srem; [done|by left|]. intros y. rewrite smembers_srem.
  destruct (decide _); [by intros [? _]%elem_of_difference|done].
Qed.

Lemma drops_hdel k f s : drops k f s (hdel k f s).
Proof.
  split; intros *; rewrite ?hash_hdel, ?smembers_hdel; [| |done].
  - destruct (decide (k' = k)); [by intros [_ ?]%lookup_delete_Some|done].
  - intros H. destruct (decide (k' = k)) as [->|]; [|by left].
    destruct (decide (f' = f)) as [->|]; [by right|left]. by rewrite lookup_delete_ne.
Qed.

Lemma remove_drops fault t f u n s :
  drops (connection_key t u) f (redis s) (redis (remove_connection fault alone t f u (n, s)).2.2).
Proof.
  unfold remove_connection, load_user_records.
  apply (alone_read fault _ (fun s => check_records t (hgetall t u s)) _ n s
           (fun s' => drops (connection_key t u) f (redis s) (redis s'))); [reflexivity|].
  intros l n' _. apply (alone_write fault _ _ n' s (fun s' => drops (connection_key t u) f (redis s) (redis s'))); [reflexivity|].
  cbn [on_redis redis]. destruct (List.find _ l); [|apply drops_hdel].
  etrans; [|apply drops_srem]. unfold unindex_if_last.
  destruct (existsb _ _); [apply drops_hdel|]. etrans; [apply drops_hdel|apply drops_srem].
Qed.

Lemma logout_drops fault valid_uuid t request n w :
  drops (connection_key t (Str.trim (lo_user_id request))) (Str.trim (lo_conversation_id request))
    (redis (store w)) (redis (store (logout fault alone valid_uuid (Some t) request (n, w)).2.2)) /\
  (is_valid_tenant_id t = false -> store (logout fault alone valid_uuid (Some t) request (n, w)).2.2 = store w).
Proof.
  unfold logout, required_tenant. destruct (is_valid_tenant_id t) eqn:Ht; [|by split; [reflexivity|]].
  cbn zeta. set (user := Str.trim (lo_user_id request)). set (f := Str.trim (lo_conversation_id request)).
  unfold mbind, stE_bind, lift_r. destruct (Str.is_empty user); [by split; [reflexivity|]|].
  destruct (user_id_new user); cbn [invalid_parameter]; [|by split; [reflexivity|]].
  destruct (Str.is_empty f); [by split; [reflexivity|]|].
  destruct (connection_id_from valid_uuid f); cbn [invalid_parameter]; [|by split; [reflexivity|]].
  unfold on_memory, map_err, repo. cbn beta iota zeta. cbn [store].
  pose proof (remove_drops fault t f user n (store w)) as Hd.
  destruct (remove_connection fault alone t f user (n, store w)) as [[]  [n1 s1]]; cbn [snd store] in *; by split.
Qed.

Lemma status_store fault valid_timestamp ctx l n w :
  store (get_online_status fault alone valid_timestamp ctx l (n, w)).2.2 = store w.
Proof.
  unfold get_online_status, mbind, stE_bind, lift_r. destruct (required_tenant ctx) as [t|]; [|done].
  unfold map_err, repo, fetch_statuses. destruct l as [|u l]; [done|]. unfold step, alone, exec.
  destruct (fault n); cbn beta iota zeta; try done; destruct (statuses_of _ _ _); done.
Qed.

Lemma publish_store fault tenant user status reason n w :
  store (publish fault tenant user status reason (n, w)).2.2 = store w.
Proof. destruct (publish_run fault tenant user status reason n w) as (n' & l & ->). done. Qed.

Lemma snapshot_store fault valid_timestamp ctx user reason now n w :
  store (publish_presence_snapshot fault alone valid_timestamp ctx user reason now (n, w)).2.2 = store w.
Proof.
  unfold publish_presence_snapshot. destruct ctx as [t|]; [|done]. cbn zeta.
  destruct (Str.is_empty _); [done|]. unfold on_result.
  pose proof (status_store fault valid_timestamp (Some t) [Str.trim user] n w) as Hs.
  destruct (get_online_status _ _ _ _ _ _) as [[m|e] [n1 w1]]; cbn [snd] in Hs; by rewrite publish_store.
Qed.

Lemma disconnect_store fault valid_uuid valid_timestamp ctx request reason now n w :
  store (disconnect fault alone valid_uuid valid_timestamp ctx request reason now (n, w)).2.2
  = store (logout fault alone valid_uuid ctx request (n, w)).2.2.
Proof.
  unfold disconnect, mbind, stE_bind, map_err.
  destruct (logout _ _ _ _ _ _) as [[[]|e] [n1 w1]]; [|done]. apply snapshot_store.
Qed.

(** ** A sweep *)

Section Sweeping.
Context (fault : schedule) (gothers : nat -> SweepState -> SweepState).
Context (valid_uuid : string -> bool) (valid_timestamp : Z -> bool).
Context (token : string) (confirm_after : Z) (sscan : Z -> gset string -> Z * list string).
(** The session in question: its key, its field and its record. *)
Context (k f : string) (p : Payload).

(** The session is there. *)
Definition session_at (s : SweepState) : Prop := hash k (sweep_redis s) !! f = Some p.

(** The connection set of a gateway lists the session. *)
Definition listed (g : string) (s : SweepState) : Prop :=
  exists m t u, m ∈ smembers (conns_key g) (sweep_redis s) /\ parse_connection_member m = Some (t, u, f) /\ k = connection_key t u.

(** Other instances, gateways and clients do as they like with leases, the lock, the known gateways
    and other sessions: at round trip [n] the leases are [L n]. They leave the session alone. *)
Record leaves_alone (L : nat -> gset string) : Prop := {
  la_leases n s : leases (gothers n s) = L n;
  la_named n s : well_named (sweep_redis s) -> well_named (sweep_redis (gothers n s));
  la_session n s : session_at s -> session_at (gothers n s);
  la_listed n s g : listed g (gothers n s) -> listed g s;
}.

Context (L : nat -> gset string) (Hothers : leaves_alone L).
(** SSCAN returns members of the set. *)
Context (Hscan : forall cursor C m, m ∈ (sscan cursor C).2 -> m ∈ C).
Context (dead : list string) (wall : string -> Z).

(** The session may go: it belongs to one of the gateways [dead] and is older than its sweep. *)
Definition doomed (Q : string -> Prop) : Prop :=
  exists g r, g ∈ dead /\ p = Json r /\ r_gateway_id r = base_gateway_id g /\ r_created_at r <= wall g /\ Q g.

Record spares (Q : string -> Prop) (s s' : SweepState) : Prop := {
  spare_named : well_named (sweep_redis s) -> well_named (sweep_redis s');
  spare_listed g : listed g s' -> listed g s;
  spare_lost : well_named (sweep_redis s) -> session_at s -> session_at s' \/ doomed Q;
}.

#[export] Instance spares_preorder Q : PreOrder (spares Q).
Proof.
  split; [intros s; split; auto|]. intros a b c [W1 S1 L1] [W2 S2 L2]. split; [auto|auto|].
  intros Hw Hs. destruct (L1 Hw Hs) as [Hb|]; [by apply L2; [apply W1|]|by right].
Qed.

(** What was listed when a step began. *)
Definition sparing (s s' : SweepState) : Prop := spares (fun g => listed g s) s s'.

Lemma spares_weaken (Q Q' : string -> Prop) s s' : (forall g, Q g -> Q' g) -> spares Q s s' -> spares Q' s s'.
Proof.
  intros HQ [W S Lo]. split; [done|done|]. intros Hw Hs. destruct (Lo Hw Hs) as [|(g & r & ? & ? & ? & ? & ?)]; [by left|right].
  exists g, r. split_and!; auto.
Qed.

#[export] Instance sparing_preorder : PreOrder sparing.
Proof.
  split; [intros s; split; auto|]. intros a b c H1 H2. unfold sparing. transitivity b; [exact H1|].
  eapply spares_weaken; [|exact H2]. apply (spare_listed _ _ _ H1).
Qed.

(** Sessions stay, and sets only lose members. *)
Lemma spares_same Q s s' :
  (forall x, hash x (sweep_redis s') = hash x (sweep_redis s)) -> (forall x, smembers x (sweep_redis s') ⊆ smembers x (sweep_redis s)) -> spares Q s s'.
Proof.
  intros Hh Hm. split.
  - apply well_named_sub. intros *. by rewrite Hh.
  - intros g (m & t & u & Hin & ? & ?). exists m, t, u. split; [by apply Hm|done].
  - intros _ Hs. left. unfold session_at. by rewrite Hh.
Qed.

Lemma others_spare Q n s : spares Q s (gothers n s).
Proof. destruct Hothers as [_ Hn Hs Hl]. split; [apply Hn|apply Hl|]. intros _ H. left. by apply Hs. Qed.

Lemma keeps_sweep_step {A} Q (eff : SweepState -> result A * SweepState) :
  (forall s, spares Q s (eff s).2) -> keeps (spares Q) (sweep_step fault gothers eff).
Proof. intros He n s. unfold sweep_step. transitivity (gothers n s); [apply others_spare|by apply (keeps_exec (spares Q))]. Qed.

Lemma keeps_sparing {A} (m : db SweepState A) : (forall Q, keeps (spares Q) m) -> keeps sparing m.
Proof. intros H n s. apply H. Qed.

Lemma keeps_hold Q : keeps (spares Q) (hold_sweeper_lock fault gothers token).
Proof. apply keeps_sweep_step. intros s. by destruct (lock s); apply spares_same. Qed.

Lemma keeps_present Q ids : keeps (spares Q) (leases_present fault gothers ids).
Proof. destruct ids; [apply keeps_ret, _|]. apply keeps_sweep_step. reflexivity. Qed.

Lemma keeps_known Q : keeps (spares Q) (known_gateways fault gothers).
Proof. apply keeps_sweep_step. reflexivity. Qed.

Lemma keeps_forget Q g m : keeps (spares Q) (forget fault gothers g m).
Proof.
  apply keeps_log_error, keeps_sweep_step. intros s. unfold on_sweep_redis. apply spares_same; intros x; unfold sweep_redis; cbn.
  - apply hash_srem.
  - rewrite smembers_srem. destruct (decide _); [set_solver|done].
Qed.

(** The commands of the handler leave what only the sweeper keeps. *)
Lemma gateway_lost_run t u f' now n s :
  exists n' w', (gateway_lost fault valid_uuid valid_timestamp t u f' now (n, s)).2 = (n', mkSweep w' (known s) (leases s) (lock s)) /\ store w' = store (logout fault alone valid_uuid (Some t) (mkLogout u f') (n, world s)).2.2.
Proof.
  unfold gateway_lost, service.
  pose proof (disconnect_store fault valid_uuid valid_timestamp (Some t) (mkLogout u f') "gateway_lost" now n (world s)) as H.
  destruct (disconnect _ _ _ _ _ _ _ _ _) as [r [n' w']]. by exists n', w'.
Qed.

(** Disconnecting the session that was found under [t], [u] and [f']. *)
Lemma gateway_lost_spares (Q : string -> Prop) t u f' now n s r :
  hget (connection_key t u) f' (sweep_redis s) = Some (Json r) ->
  (k = connection_key t u -> f = f' -> p = Json r -> doomed Q) ->
  spares Q s (gateway_lost fault valid_uuid valid_timestamp t u f' now (n, s)).2.2.
Proof.
  intros Hr Hd. destruct (gateway_lost_run t u f' now n s) as (n' & w' & -> & Hs). cbn [snd].
  destruct (logout_drops fault valid_uuid t (mkLogout u f') n (world s)) as [Hdrop Hbad].
  destruct (is_valid_tenant_id t) eqn:Ht.
  2:{ apply spares_same; intros x; unfold sweep_redis; cbn; by rewrite Hs, Hbad. }
  cbn [lo_user_id lo_conversation_id] in Hdrop. rewrite <- Hs in Hdrop. destruct Hdrop as [Hsub Honly Hsets]. split; unfold sweep_redis; cbn [world].
  - by apply (well_named_sub (redis (store (world s)))).
  - intros g (m & t1 & u1 & Hin & ? & ?). exists m, t1, u1. split; [by apply Hsets|done].
  - intros Hw Hses. unfold session_at, sweep_redis in *. cbn [world].
    destruct (Hw _ _ _ Hr) as (t' & u' & r' & Hk & Ht' & _ & Hu & Hf).
    destruct (connection_key_inj t u t' u' Ht Ht' Hk) as [<- <-]. rewrite Hu, Hf in Honly.
    destruct (Honly _ _ _ Hses) as [|[Ek Ef]]; [by left|right]. apply Hd; [done|done|].
    unfold hget in Hr. rewrite Ek, Ef in Hses. congruence.
Qed.

Lemma keeps_retire_member s0 g m : g ∈ dead -> m ∈ smembers (conns_key g) (sweep_redis s0) ->
  keeps (spares (fun g => listed g s0)) (retire_member fault gothers valid_uuid valid_timestamp g (base_gateway_id g) (wall g) m).
Proof.
  intros Hg Hm. set (Q := fun g => listed g s0). unfold retire_member. destruct (parse_connection_member m) as [[[t u] f']|] eqn:Epar.
  2:{ apply keeps_bind; [apply _|apply keeps_forget|intros ?; apply keeps_ret, _]. }
  intros n s. unfold on_result, session_owner, sweep_step. pose proof (others_spare Q n s) as H1.
  unfold exec. destruct (fault n); [|exact H1..]. cbn beta iota zeta.
  transitivity (gothers n s); [exact H1|]. generalize (gothers n s). clear s H1. intros s.
  assert (Hforget : spares Q s ((_ ← forget fault gothers g m; mret false) (S n, s)).2.2).
  { apply (keeps_bind (spares Q)); [apply keeps_forget|intros ?; apply keeps_ret, _]. }
  destruct (hget (connection_key t u) f' (sweep_redis s)) as [[r|]|] eqn:Hr; [|exact Hforget..].
  cbn [o_gateway_id o_created_at_ms]. destruct (bool_decide _ || _) eqn:Eb; [reflexivity|].
  apply orb_false_iff in Eb as [Eg%bool_decide_eq_false%dec_stable Ec%Z.ltb_ge].
  assert (Hlost : spares Q s (gateway_lost fault valid_uuid valid_timestamp t u f' (wall g) (S n, s)).2.2).
  { apply (gateway_lost_spares Q t u f' (wall g) (S n) s r Hr). intros Hk Hf Hp. exists g, r. split_and!; [done..|].
    exists m, t, u. by rewrite Epar, Hf. }
  destruct (gateway_lost _ _ _ _ _ _ _ _) as [[] [n' s']]; exact Hlost.
Qed.

Lemma keeps_retire_members s0 g members : g ∈ dead -> (forall m, m ∈ members -> m ∈ smembers (conns_key g) (sweep_redis s0)) ->
  keeps (spares (fun g => listed g s0)) (retire_members fault gothers valid_uuid valid_timestamp g (base_gateway_id g) (wall g) members).
Proof.
  intros Hg. induction members as [|m members IH]; intros Hm; [apply keeps_ret, _|]. cbn [retire_members].
  apply keeps_bind; [apply _|apply keeps_retire_member; [done|apply Hm; left]|intros gone].
  apply keeps_bind; [apply _|apply IH; intros m' Hm'; apply Hm; by right|intros rest; apply keeps_ret, _].
Qed.

Lemma keeps_retire_gateway Q g : keeps (spares Q) (retire_gateway fault gothers g).
Proof.
  apply keeps_sweep_step. intros s. destruct (decide _); [reflexivity|]. cbn. split; unfold session_at, listed, sweep_redis; cbn.
  - apply well_named_sub. intros x y z. rewrite hash_del. by destruct (decide _).
  - intros g' (m & t & u & Hin & Hrest). exists m, t, u. split; [|done]. rewrite smembers_del in Hin. by destruct (decide _).
  - intros Hw Hs. left. rewrite hash_del. rewrite decide_False; [done|].
    intros ->. destruct (Hw _ _ _ Hs) as (t & u & r & Hk & _). by apply conns_not_session in Hk.
Qed.

(** The page of a gateway. *)
Lemma keeps_scan_page {A} g cursor (rest : Z * list string -> db SweepState A) :
  (forall next members n1 s1, (forall m, m ∈ members -> m ∈ smembers (conns_key g) (sweep_redis s1)) -> sparing s1 (rest (next, members) (n1, s1)).2.2) ->
  keeps sparing (x ← scan_gateway_connections fault gothers sscan g cursor; rest x).
Proof.
  intros Hrest n s. unfold mbind, stE_bind, scan_gateway_connections, sweep_step, exec.
  pose proof (others_spare (fun g => listed g s) n s) as H1. destruct (fault n); cbn beta iota zeta; [|exact H1..].
  transitivity (gothers n s); [exact H1|]. destruct (sscan cursor _) as [next members] eqn:Es. apply Hrest.
  intros m Hm. apply (Hscan cursor). by rewrite Es.
Qed.

Lemma keeps_sweep_pages rounds g cursor gone : g ∈ dead ->
  keeps sparing (sweep_pages fault gothers valid_uuid valid_timestamp token sscan rounds g (wall g) cursor gone).
Proof.
  intros Hg. revert cursor gone. induction rounds as [|rounds IH]; intros cursor gone; [apply keeps_ret, _|].
  cbn [sweep_pages]. apply keeps_bind; [apply _|apply keeps_sparing; intros; apply keeps_hold|intros []]; cbn [negb]; [|apply keeps_ret, _].
  apply keeps_bind; [apply _|apply keeps_sparing; intros; apply keeps_present|intros present].
  destruct (default false (head present)); [apply keeps_ret, _|].
  apply keeps_scan_page. intros next members n1 s1 Hmem. unfold mbind, stE_bind.
  pose proof (keeps_retire_members s1 g members Hg Hmem n1 s1) as H1. fold (sparing s1) in H1.
  destruct (retire_members _ _ _ _ _ _ _ _ _) as [[more|e] [n2 s2]]; cbn [snd] in H1; [|exact H1].
  transitivity s2; [exact H1|]. clear H1. revert n2 s2. destruct (bool_decide _); [|intros n2 s2; apply IH]. intros n2 s2.
  apply (keeps_bind sparing (retire_gateway fault gothers g)); [apply keeps_sparing; intros; apply keeps_retire_gateway|intros done'; apply keeps_ret, _].
Qed.

Lemma keeps_sweep_dead rounds todo report : todo ⊆ dead ->
  keeps sparing (sweep_dead fault gothers valid_uuid valid_timestamp token sscan rounds wall report todo).
Proof.
  revert report. induction todo as [|g todo IH]; intros report Hd; [apply keeps_ret, _|]. cbn [sweep_dead].
  apply keeps_bind; [apply _|apply keeps_sweep_pages, Hd; left|intros [o|]]; [|apply keeps_ret, _].
  cbn zeta. destruct (out_lost_lock o); [apply keeps_ret, _|]. apply IH. intros x Hx. apply Hd. by right.
Qed.

(** A page that is begun while the gateway has a lease removes nothing. *)
Lemma page_checks_lease rounds g cutoff cursor gone n s :
  g ∈ L (S n) -> session_at s ->
  session_at (sweep_pages fault gothers valid_uuid valid_timestamp token sscan rounds g cutoff cursor gone (n, s)).2.2.
Proof.
  intros Hg Hs. destruct Hothers as [Hl _ Hkeep _]. destruct rounds as [|rounds]; [done|]. cbn [sweep_pages].
  unfold mbind, stE_bind, hold_sweeper_lock, sweep_step at 1, exec.
  assert (Hhold : session_at ((match lock (gothers n s) with
    | Some holder => (Ok (bool_decide (holder = token)), gothers n s)
    | None => (Ok true, mkSweep (world (gothers n s)) (known (gothers n s)) (leases (gothers n s)) (Some token)) end).2)).
  { pose proof (Hkeep n s Hs). by destruct (lock (gothers n s)). }
  destruct (fault n); [|by apply Hkeep|].
  - destruct (match lock (gothers n s) with Some _ => _ | None => _ end) as [[[]|e] s1]; cbn [snd] in Hhold |- *; cbn [negb]; [|done|done].
    unfold leases_present, sweep_step, exec. pose proof (Hkeep (S n) s1 Hhold) as H1. destruct (fault (S n)); cbn beta iota zeta; [|exact H1..].
    cbn. rewrite Hl. rewrite bool_decide_eq_true_2 by done. exact H1.
  - destruct (match lock (gothers n s) with Some _ => _ | None => _ end) as [? s1]; exact Hhold.
Qed.

End Sweeping.

Lemma missing_unleased (L : gset string) ids g :
  g ∈ missing_of ((fun i => (i, bool_decide (i ∈ L))) <$> ids) -> g ∈ ids /\ g ∉ L.
Proof.
  unfold missing_of. rewrite list_elem_of_omap. intros ([i alive] & Hi & E).
  apply list_elem_of_fmap in Hi as (j & [= -> ->] & Hj). destruct (bool_decide _) eqn:Eb; [done|].
  injection E as ->. by apply bool_decide_eq_false in Eb.
Qed.

Lemma confirmed_missing confirm_after now suspects known g :
  g ∈ (confirmed_dead confirm_after now suspects known).1 -> g ∈ missing_of known.
Proof. unfold confirmed_dead. cbn [fst]. by intros [_ H]%list_elem_of_filter. Qed.

Lemma zip_present (L : gset string) (ids : list string) :
  zip ids ((fun g => bool_decide (g ∈ L)) <$> ids) = (fun i => (i, bool_decide (i ∈ L))) <$> ids.
Proof. induction ids as [|i ids IH]; [done|]. cbn. by rewrite <- IH. Qed.

(** A look at the leases sees those of its round trip. *)
Lemma present_run fault gothers k f p L ids n s :
  leaves_alone gothers k f p L ->
  match leases_present fault gothers ids (n, s) with
  | (Ok present, _) => present = (fun g => bool_decide (g ∈ L n)) <$> ids
  | (Err _, _) => True
  end.
Proof.
  intros [Hl _ _ _]. destruct ids as [|i ids]; [done|]. unfold leases_present, sweep_step, exec.
  destruct (fault n); cbn beta iota zeta; rewrite ?Hl; done.
Qed.

(** C35. A sweep spares living gateways. Whatever fails in it, and while leases and other sessions
    come and go (the session in question is left alone by others, a disconnect itself runs
    undisturbed, SSCAN returns members), a session goes only if it is in the connection set of a
    known id that counts as dead, since its lease was missing in the sweep's look at all leases
    and had been for long enough, it belongs to the gateway of that id, and it is older than the
    sweep of that id. The id is that of the gateway, or the orphan id under which the connections
    of an earlier run of the gateway are kept, which has no lease: so a gateway that restarted
    loses what that set still lists. Before every page the lease of the id is looked at
    again, and a page whose look finds a lease removes nothing. *)
Theorem sweeps_spare_living_gateways fault gothers valid_uuid valid_timestamp token confirm_after sscan
    rounds now wall suspects n s k f p (L : nat -> gset string) :
  (forall cursor C m, m ∈ (sscan cursor C).2 -> m ∈ C) -> leaves_alone gothers k f p L ->
  well_named (sweep_redis s) -> session_at k f p s ->
  let s' := (sweep_once fault gothers valid_uuid valid_timestamp token confirm_after sscan rounds now wall suspects (n, s)).2.2 in
  (session_at k f p s' \/
   exists ids g r,
    g ∈ (confirmed_dead confirm_after now suspects ((fun i => (i, bool_decide (i ∈ L (S (S n))))) <$> ids)).1 /\
    g ∉ L (S (S n)) /\ listed k f g s /\ p = Json r /\ r_gateway_id r = base_gateway_id g /\ r_created_at r <= wall g) /\
  (forall rounds g cutoff cursor gone n1 s1, g ∈ L (S n1) -> session_at k f p s1 ->
     session_at k f p (sweep_pages fault gothers valid_uuid valid_timestamp token sscan rounds g cutoff cursor gone (n1, s1)).2.2).
Proof.
  intros Hscan Ho Hn Hp. cbn zeta. split; [|intros rounds1 g cutoff cursor gone n1 s1; by apply (page_checks_lease _ _ _ _ _ _ _ _ _ _ Ho)].
  unfold sweep_once, mbind, stE_bind.
  pose proof (keeps_hold fault gothers token k f p L Ho [] wall (fun _ => False) n s) as K1.
  assert (N1 : (hold_sweeper_lock fault gothers token (n, s)).2.1 = S n) by (unfold hold_sweeper_lock, sweep_step, exec; destruct (fault n), (lock (gothers n s)); done).
  destruct (hold_sweeper_lock _ _ _ _) as [[held|e] [n1 s1]]; cbn [snd fst] in K1, N1;
    (destruct (spare_lost _ _ _ _ _ _ _ _ K1 Hn Hp) as [H1|(? & ? & ?%not_elem_of_nil & _)]; [|done]); [|by left].
  assert (W1 := spare_named _ _ _ _ _ _ _ _ K1 Hn). assert (S1 := spare_listed _ _ _ _ _ _ _ _ K1). clear K1. subst n1.
  destruct held; cbn [negb]; [|by left].
  pose proof (keeps_known fault gothers k f p L Ho [] wall (fun _ => False) (S n) s1) as K2.
  assert (N2 : (known_gateways fault gothers (S n, s1)).2.1 = S (S n)) by (unfold known_gateways, sweep_step, exec; by destruct (fault (S n))).
  destruct (known_gateways _ _ _) as [[ids|e] [n2 s2]]; cbn [snd fst] in K2, N2;
    (destruct (spare_lost _ _ _ _ _ _ _ _ K2 W1 H1) as [H2|(? & ? & ?%not_elem_of_nil & _)]; [|done]); [|by left].
  assert (W2 := spare_named _ _ _ _ _ _ _ _ K2 W1). assert (S2 := spare_listed _ _ _ _ _ _ _ _ K2). clear K2. subst n2.
  pose proof (keeps_present fault gothers k f p L Ho [] wall (fun _ => False) ids (S (S n)) s2) as K3.
  pose proof (present_run fault gothers k f p L ids (S (S n)) s2 Ho) as Hpres.
  destruct (leases_present _ _ _ _) as [[present|e] [n3 s3]]; cbn [snd] in K3;
    (destruct (spare_lost _ _ _ _ _ _ _ _ K3 W2 H2) as [H3|(? & ? & ?%not_elem_of_nil & _)]; [|done]); [|by left].
  assert (W3 := spare_named _ _ _ _ _ _ _ _ K3 W2). assert (S3 := spare_listed _ _ _ _ _ _ _ _ K3). clear K3.
  rewrite Hpres, zip_present. destruct (confirmed_dead _ _ _ _) as [dead suspects'] eqn:Ed.
  pose proof (keeps_sweep_dead fault gothers valid_uuid valid_timestamp token sscan k f p L Ho Hscan dead wall rounds dead
                (mkReport true 0 0 0) (reflexivity dead) n3 s3) as K4.
  destruct (spare_lost _ _ _ _ _ _ _ _ K4 W3 H3) as [H4|(g & r & Hg & -> & Hb & Hc & Hq)]; [left|right].
  - by destruct (sweep_dead _ _ _ _ _ _ _ _ _ _ _) as [[x|e] [n4 s4]].
  - exists ids, g, r. rewrite Ed. cbn [fst]. split_and!; try done; [|by apply S1, S2, S3].
    apply (missing_unleased (L (S (S n))) ids g). eapply confirmed_missing. by rewrite Ed.
Qed.

(** Two sessions of a user, on a dead and on a living gateway. *)
Definition two_gateways : SweepState :=
  mkSweep (mkWorld
    (relogin 60 (mkConnection "s2" "u1" "laptop" "acme" "mac" "srv" "gw-2" Normal 0 1000 1000) "p2" Coexist
      (relogin 60 Lost.session "p1" Coexist (mkStore (mkKeyspace ∅ ∅ ∅ 1000) []))) ∅ [])
    {[ "gw-1"; "gw-2" ]} {[ "gw-2" ]} None.

Definition record_of (field gateway device platform conn : string) : Payload :=
  Json (mkRecord field gateway "srv" device platform conn 1000 1 2 0 "acme").

Lemma two_gateways_hashes : hashes (sweep_redis two_gateways) =
  {[ connection_key "acme" "u1" :=
       <["s1" := record_of "s1" "gw-1" "phone" "ios" "p1"]> {[ "s2" := record_of "s2" "gw-2" "laptop" "mac" "p2" ]} ]}.
Proof. vm_compute. reflexivity. Qed.

Lemma two_gateways_named : well_named (sweep_redis two_gateways).
Proof.
  intros k f p. unfold hash. rewrite two_gateways_hashes.
  destruct (decide (k = connection_key "acme" "u1")) as [->|Hk]; [|by rewrite lookup_singleton_ne, ?lookup_empty].
  rewrite lookup_singleton_eq. cbn [default from_option]. unfold Datatypes.id.
  intros [[<- <-]|[_ [<- <-]%lookup_singleton_Some]]%lookup_insert_Some;
    exists "acme", "u1"; eexists; split_and!; reflexivity.
Qed.

(** Meanwhile the dead gateway's lease comes back, too late. *)
Definition late_lease (n : nat) : gset string := if decide (n < 20)%nat then {[ "gw-2" ]} else {[ "gw-1"; "gw-2" ]}.

Definition lease_returns (n : nat) (s : SweepState) : SweepState := mkSweep (world s) (known s) (late_lease n) (lock s).

Definition swept : SweepState :=
  (sweep_once calm lease_returns (fun _ => true) (fun _ => true) "a" 6000 scan_at_once 1 10000 (fun _ => 10000)
     Lost.suspects (0%nat, two_gateways)).2.2.

(** The sweep removes the session of the dead gateway, and spares the other one. *)
Lemma sweeps_spare_living_gateways_witness :
  hash (connection_key "acme" "u1") (sweep_redis swept) !! "s2" = Some (record_of "s2" "gw-2" "laptop" "mac" "p2") /\
  (exists ids g r,
    g ∈ (confirmed_dead 6000 10000 Lost.suspects ((fun i => (i, bool_decide (i ∈ late_lease 2))) <$> ids)).1 /\
    g ∉ late_lease 2 /\ listed (connection_key "acme" "u1") "s1" g two_gateways /\ record_of "s1" "gw-1" "phone" "ios" "p1" = Json r /\
    r_gateway_id r = base_gateway_id g /\ r_created_at r <= 10000).
Proof.
  split; [vm_compute; reflexivity|].
  destruct (sweeps_spare_living_gateways calm lease_returns (fun _ => true) (fun _ => true) "a" 6000 scan_at_once 1 10000
    (fun _ => 10000) Lost.suspects 0%nat two_gateways (connection_key "acme" "u1") "s1"
    (record_of "s1" "gw-1" "phone" "ios" "p1") late_lease) as [[H|H] _].
  - intros cursor C m Hm. unfold scan_at_once in Hm. cbn in Hm. by apply elem_of_elements in Hm.
  - split; [reflexivity|by intros n s H|by intros n s H|by intros n s g H].
  - exact two_gateways_named.
  - vm_compute. reflexivity.
  - exfalso. vm_compute in H. discriminate H.
  - exact H.
Defined.
