(* ===== verification/SyncPages.v ===== *)
(** * Pages of a client's sync

    The pure part of flare-sync-orchestrator/src/application/handlers/
    sync_orchestration_handler.rs: the items and the cursor a page of messages becomes,
    catching up (contiguous numbers, with a tombstone for each number that has no
    message), the tail of a cold start, and history going back. *)

From S2P Require Import Prelude.
From S2P Require Import Proto.
From stdpp Require Import base gmap list strings.
From Stdlib Require Import Lia ZArith.

Local Open Scope Z_scope.

(** ** Items *)

Inductive SyncSlicePayload :=
  | SliceMessage (m : Message)
  | SliceSkip (reason : string)
  | SliceTombstone (tombstone_id : string) (reason : option string).

Record SyncSliceItem := mkItem {
  item_seq : Z;
  item_created_at : Z;
  item_payload : SyncSlicePayload;
}.

(** The reason a message is skipped; blank if it is not. *)
Definition skip_reason (m : Message) : string := default "" (attributes m !! "__sync_skip").

(** [message_to_sync_item]; it never fails. *)
Definition message_to_sync_item (m : Message) : SyncSliceItem :=
  mkItem (conversation_seq m) (created_at m)
    (if negb (Str.is_blank (skip_reason m)) then SliceSkip (skip_reason m) else SliceMessage m).

Record ContiguousSyncPage := mkPage {
  page_items : list SyncSliceItem;
  page_max_seq : Z;
  page_next_cursor : string;
  page_has_more : bool;
}.

(** [format!("seq:{max_seq}:{id}")], without the id if there is none. *)
Definition seq_cursor (max_seq : Z) (last_real_message_id : string) : string :=
  if Str.is_empty last_real_message_id then "seq:" +:+ Str.of_Z max_seq
  else "seq:" +:+ Str.of_Z max_seq +:+ ":" +:+ last_real_message_id.

(** ** A cold start *)

Definition cold_start_tail_after_seq (requested_after_seq : Z) (cursor : string) (remote_max_seq limit : Z) : option Z :=
  if bool_decide (requested_after_seq <> 0) || negb (Str.is_blank cursor) then None
  else
    let limit := Z.max limit 1 in
    let remote_max_seq := Z.max remote_max_seq 0 in
    if remote_max_seq <=? limit then None else Some (Z.max 0 (remote_max_seq - limit)).

Definition max_of (seqs : list Z) (start : Z) : Z := foldl Z.max start seqs.

Definition build_tail_sync_items (messages : list Message) (remote_max_seq : Z) : ContiguousSyncPage :=
  let max_seq := Z.max remote_max_seq (max_of (conversation_seq <$> messages) 0) in
  mkPage (message_to_sync_item <$> messages) max_seq
    (if 0 <? max_seq then seq_cursor max_seq (default "" (server_id <$> last messages)) else "") false.

(** ** History *)

Definition build_backfill_sync_items (messages : list Message) (has_more : bool) : ContiguousSyncPage :=
  mkPage (message_to_sync_item <$> messages) 0 "" has_more.

(** ** Catching up *)

(** The messages of the page by number; of two with one number the later one is kept. *)
Definition message_by_seq (after_seq page_end_seq : Z) (messages : list Message) : gmap Z Message :=
  foldl (fun m msg =>
    if (conversation_seq msg <=? after_seq) || (page_end_seq <? conversation_seq msg) then m
    else <[conversation_seq msg := msg]> m) ∅ messages.

Definition tombstone (conversation_id : string) (seq : Z) : SyncSliceItem :=
  mkItem seq 0 (SliceTombstone (conversation_id +:+ ":" +:+ Str.of_Z seq) (Some "storage_missing_committed_seq")).

Definition item_at (conversation_id : string) (by_seq : gmap Z Message) (seq : Z) : SyncSliceItem :=
  match by_seq !! seq with Some m => message_to_sync_item m | None => tombstone conversation_id seq end.

Definition build_contiguous_sync_items (conversation_id : string) (after_seq limit : Z) (messages : list Message)
    (remote_max_seq : Z) : ContiguousSyncPage :=
  let limit := Z.max limit 1 in
  let max_message_seq :=
    match conversation_seq <$> messages with [] => after_seq | s :: seqs => max_of seqs s end in
  let authoritative_max_seq := Z.max (Z.max remote_max_seq max_message_seq) after_seq in
  if authoritative_max_seq <=? after_seq then mkPage [] after_seq "" false
  else
    let page_end_seq := Z.min authoritative_max_seq (u64_add after_seq limit) in
    let by_seq := message_by_seq after_seq page_end_seq messages in
    let seqs := seqZ (after_seq + 1) (page_end_seq - after_seq) in
    let last_real_message_id := default "" (server_id <$> last (omap (by_seq !!.) seqs)) in
    mkPage (item_at conversation_id by_seq <$> seqs) page_end_seq
      (if after_seq <? page_end_seq then seq_cursor page_end_seq last_real_message_id else "")
      (page_end_seq <? authoritative_max_seq).

(** ** Lemmas *)

Lemma max_of_ge seqs start : start <= max_of seqs start /\ Forall (fun s => s <= max_of seqs start) seqs.
Proof.
  revert start. induction seqs as [|s seqs IH]; intros start; cbn; [split; [lia|constructor]|].
  fold (max_of seqs (Z.max start s)). destruct (IH (Z.max start s)) as [H1 H2]. split; [lia|].
  constructor; [lia|exact H2].
Qed.

Lemma max_of_le seqs start b : start <= b -> Forall (fun s => s <= b) seqs -> max_of seqs start <= b.
Proof.
  revert start. induction seqs as [|s seqs IH]; intros start Hs; cbn; [done|].
  intros [H1 H2]%Forall_cons. apply IH; [lia|done].
Qed.

Lemma message_by_seq_some after page_end ms s m :
  message_by_seq after page_end ms !! s = Some m -> m ∈ ms /\ conversation_seq m = s /\ after < s <= page_end.
Proof.
  unfold message_by_seq. induction ms as [|x ms IH] using rev_ind; cbn; [by rewrite lookup_empty|].
  rewrite foldl_app. cbn. rewrite elem_of_app, list_elem_of_singleton.
  destruct ((conversation_seq x <=? after) || (page_end <? conversation_seq x)) eqn:Eb; [naive_solver|].
  apply orb_false_iff in Eb as [E1%Z.leb_gt E2%Z.ltb_ge].
  intros [[<- <-]|[_ H]]%lookup_insert_Some; [|naive_solver]. split_and!; auto; lia.
Qed.

Lemma message_by_seq_in after page_end ms m :
  NoDup (conversation_seq <$> ms) -> m ∈ ms -> after < conversation_seq m <= page_end ->
  message_by_seq after page_end ms !! conversation_seq m = Some m.
Proof.
  unfold message_by_seq. induction ms as [|x ms IH] using rev_ind; intros Hn Hm Hr; [by apply not_elem_of_nil in Hm|].
  rewrite foldl_app. cbn. rewrite fmap_app in Hn. apply NoDup_app in Hn as (Hn & Hd & _).
  apply elem_of_app in Hm as [Hm|Hm%list_elem_of_singleton].
  - assert (conversation_seq m <> conversation_seq x).
    { intros E. apply (Hd (conversation_seq m)); [by apply list_elem_of_fmap_2|]. rewrite E. left. }
    destruct (_ || _); [by apply IH|]. rewrite lookup_insert_ne by done. by apply IH.
  - subst x. replace (_ || _) with false; [by rewrite lookup_insert_eq|].
    symmetry. apply orb_false_iff. rewrite Z.leb_gt, Z.ltb_ge. lia.
Qed.

Lemma item_at_seq c after page_end ms s : item_seq (item_at c (message_by_seq after page_end ms) s) = s.
Proof.
  unfold item_at. destruct (_ !! s) as [m|] eqn:E; [|done]. by apply message_by_seq_some in E as (_ & <- & _).
Qed.

(** The largest number of the messages and the head of the conversation. *)
Definition known_max (after remote : Z) (ms : list Message) : Z :=
  Z.max (Z.max remote (max_of (conversation_seq <$> ms) after)) after.

Lemma max_message_seq_eq after remote (ms : list Message) :
  Z.max (Z.max remote (match conversation_seq <$> ms with [] => after | s :: seqs => max_of seqs s end)) after
  = known_max after remote ms.
Proof.
  unfold known_max. destruct (conversation_seq <$> ms) as [|s seqs]; [done|]. cbn.
  enough (forall a b l, Z.max (max_of l a) b = max_of l (Z.max b a)) as H.
  { fold (max_of seqs (Z.max after s)). rewrite <- H. lia. }
  intros a b l. revert a. induction l as [|x l IH]; intros a; cbn; [lia|].
  fold (max_of l (Z.max a x)) (max_of l (Z.max (Z.max b a) x)). rewrite IH. f_equal. lia.
Qed.

Section Page.
Context (c : string) (after limit remote : Z) (ms : list Message).
Context (Hafter : 0 <= after) (Hroom : after + Z.max limit 1 <= u64_max).

Abbreviation page := (build_contiguous_sync_items c after limit ms remote).

(** Where the page ends. *)
Definition page_end : Z := Z.min (known_max after remote ms) (after + Z.max limit 1).

Lemma page_unfold :
  page_max_seq page = page_end /\
  page_items page = item_at c (message_by_seq after page_end ms) <$> seqZ (after + 1) (page_end - after) /\
  page_has_more page = (page_end <? known_max after remote ms).
Proof.
  unfold build_contiguous_sync_items, page_end. cbn zeta. rewrite max_message_seq_eq.
  rewrite sat_add_small by lia.
  destruct (known_max after remote ms <=? after) eqn:E; [|done].
  apply Z.leb_le in E. assert (known_max after remote ms = after) as -> by (unfold known_max in *; lia).
  rewrite Z.min_l by lia. split_and!; [done| |by rewrite Z.ltb_irrefl].
  by rewrite Z.sub_diag.
Qed.

(** The items carry the numbers from [after + 1] on without a gap. *)
Lemma page_contiguous : item_seq <$> page_items page = seqZ (after + 1) (page_max_seq page - after).
Proof.
  destruct page_unfold as (-> & -> & _). rewrite <- list_fmap_compose.
  etrans; [|apply list_fmap_id]. apply list_fmap_ext. intros i s _. cbn. apply item_at_seq.
Qed.

Lemma page_bounds : after <= page_max_seq page <= after + Z.max limit 1.
Proof. destruct page_unfold as (-> & _ & _). unfold page_end, known_max. lia. Qed.

Lemma page_holds m : NoDup (conversation_seq <$> ms) -> m ∈ ms -> after < conversation_seq m <= page_max_seq page ->
  message_to_sync_item m ∈ page_items page.
Proof.
  destruct page_unfold as (-> & -> & _). intros Hn Hm Hr. apply list_elem_of_fmap.
  exists (conversation_seq m). split.
  - unfold item_at. by rewrite message_by_seq_in.
  - apply elem_of_seqZ. lia.
Qed.

(** An item is of a message that was read, or a tombstone of a number no message had. *)
Lemma page_item i : i ∈ page_items page ->
  (exists m, m ∈ ms /\ i = message_to_sync_item m) \/
  (i = tombstone c (item_seq i) /\ forall m, m ∈ ms -> NoDup (conversation_seq <$> ms) -> conversation_seq m <> item_seq i).
Proof.
  destruct page_unfold as (_ & -> & _). intros (s & -> & Hs)%list_elem_of_fmap.
  apply elem_of_seqZ in Hs. rewrite item_at_seq. unfold item_at.
  destruct (_ !! s) as [m|] eqn:E.
  - left. exists m. split; [|done]. by apply message_by_seq_some in E as (? & _).
  - right. split; [done|]. intros m Hm Hn <-. rewrite message_by_seq_in in E; [done..|]. lia.
Qed.

End Page.
