(* ===== verification/StorageReader.v ===== *)
(** * Reading messages by number

    flare-storage/reader: the queries a sync runs, [query_messages_by_seq],
    [query_conversations_message_windows] and [get_conversation_message_head] of
    infrastructure/persistence/optimized_postgres_store.rs with [row_to_message] of
    postgres_base.rs, and the gRPC methods over them (interface/grpc/
    storage_reader_handler.rs). The tables are those of one database; the floors of a
    member are read from the rows of the conversation service. The Redis tail cache,
    which only serves reads without a user, is not configured. Marking the copies of
    plugin cards and hiding the names in group notices change how a message reads and
    are arguments. *)

From S2P Require Import Prelude.
From S2P Require Import Slices.
From S2P Require Import ConversationStore.
From S2P Require Import Proto.
From S2P Require Import Retention.
From stdpp Require Import base gmap list strings.
From Stdlib Require Import Lia ZArith.

Local Open Scope Z_scope.

(** ** Tables *)

(** [burn_status], [first_read_at], [burn_at], [burned_at] *)
Record BurnColumns := mkBurnColumns {
  burn_status : Z;
  first_read_at : option Z;
  burn_at : option Z;
  burned_at : option Z;
}.

(** A row of [messages], with the reactions and the plugin state stored for it. [row_message]
    holds the columns that make a message, its [extra] as attributes. *)
Record ReaderRow := mkReaderRow {
  row_message : Message;
  row_created_at : option Z;
  row_burn : BurnColumns;
  row_reactions : string;
  (** values, version and entity *)
  row_shared_state : option (string * string * string);
}.

Definition row_seq (r : ReaderRow) : Z := conversation_seq (row_message r).

(** A row of [message_visibility]. *)
Record VisibilityRow := mkVisibility {
  mv_tenant_id : string;
  mv_message_id : string;
  mv_user_id : string;
  mv_scope : Z;
  mv_status : Z;
}.

(** A row of [pinned_messages]. *)
Record PinRow := mkPin {
  pin_tenant_id : string;
  pin_conversation_id : string;
  pin_message_id : string;
  pin_scope : Z;
  pin_owner_user_id : string;
  pin_expire_at : option Z;
}.

Record Tables := mkTables {
  t_messages : gmap (string * string) (list ReaderRow);
  t_event_seqs : gmap (string * string) (list Z);
  t_visibility : list VisibilityRow;
  t_pins : list PinRow;
  t_rows : ConversationStore.Store;
}.

(** ** A row as a message *)

(** The EXISTS of the projection: hidden from everyone or from this user. *)
Definition hidden_from (db : Tables) (tenant uid : string) (m : Message) : bool :=
  existsb (fun v =>
    bool_decide (mv_tenant_id v = tenant) && bool_decide (mv_message_id v = server_id m)
    && (bool_decide (mv_status v = 1) || bool_decide (mv_status v = 2))
    && (bool_decide (mv_scope v = 2) || (bool_decide (mv_scope v = 1) && bool_decide (mv_user_id v = uid))))
    (t_visibility db).

Definition is_pinned (db : Tables) (tenant : string) (now : Z) (m : Message) : bool :=
  existsb (fun p =>
    bool_decide (pin_tenant_id p = tenant) && bool_decide (pin_conversation_id p = conversation_id m)
    && bool_decide (pin_message_id p = server_id m)
    && match pin_expire_at p with None => true | Some t => now <? t end)
    (t_pins db).

(** MESSAGE_ROW_PROJECTION_WITH_VISIBILITY: what a hidden message was is blanked. It selects
    no [thread_id]. *)
Definition project (db : Tables) (tenant uid : string) (r : ReaderRow) : Message :=
  let m := row_message r in
  let masked := hidden_from db tenant uid m in
  let blank (s : string) := if masked then "" else s in
  mkMessage (server_id m) (conversation_id m) (blank (client_msg_id m)) (blank (sender_id m))
    (source m) (conversation_seq m) (created_at m) (conversation_type m)
    (if masked then TypeUnspecified else message_type m) None (channel_id m)
    (blank (sender_name m)) (blank (sender_avatar m)) None
    (if masked then None else content m) (status m) None None
    (if masked then None else offline_push_info m)
    (if masked then {[ "__sync_skip" := "visibility_filtered" ]} else attributes m)
    (if masked then ∅ else extensions m).

(** The projection of a read without a user. *)
Definition project_all (r : ReaderRow) : Message :=
  let m := row_message r in
  mkMessage (server_id m) (conversation_id m) (client_msg_id m) (sender_id m)
    (source m) (conversation_seq m) (created_at m) (conversation_type m) (message_type m) None (channel_id m)
    (sender_name m) (sender_avatar m) (thread_id m) (content m) (status m) None None
    (offline_push_info m) (attributes m) (extensions m).

Definition with_attributes (m : Message) (a : gmap string string) : Message :=
  mkMessage (server_id m) (conversation_id m) (client_msg_id m) (sender_id m)
    (source m) (conversation_seq m) (created_at m) (conversation_type m) (message_type m) (message_seq m)
    (channel_id m) (sender_name m) (sender_avatar m) (thread_id m) (content m) (status m)
    (retention_policy m) (retention_state m) (offline_push_info m) a (extensions m).

Definition with_extensions (m : Message) (e : gmap string string) : Message :=
  mkMessage (server_id m) (conversation_id m) (client_msg_id m) (sender_id m)
    (source m) (conversation_seq m) (created_at m) (conversation_type m) (message_type m) (message_seq m)
    (channel_id m) (sender_name m) (sender_avatar m) (thread_id m) (content m) (status m)
    (retention_policy m) (retention_state m) (offline_push_info m) (attributes m) e.

Definition PLUGIN_SHARED_STATE_JSON_KEY : string := "pluginSharedStateJson".
Definition PLUGIN_SHARED_STATE_VERSION_KEY : string := "pluginSharedStateVersion".
Definition PLUGIN_SHARED_ENTITY_KEY : string := "pluginSharedEntity".

(** The keys only the server writes. *)
Definition without_shared_keys (m : gmap string string) : gmap string string :=
  delete PLUGIN_SHARED_ENTITY_KEY (delete PLUGIN_SHARED_STATE_VERSION_KEY (delete PLUGIN_SHARED_STATE_JSON_KEY m)).

Definition LEGACY_BURN_STATUS_BURN_PENDING : Z := 3.
Definition LEGACY_BURN_STATUS_BURNED : Z := 4.
Definition LEGACY_BURN_STATUS_HARD_DELETED : Z := 5.

Definition legacy_retention_state (b : BurnColumns) : option MessageRetentionState :=
  let state l v purged := Some (mkRetentionState (Some l) (Some v) (first_read_at b) (burn_at b) (burned_at b) purged None) in
  if bool_decide (burn_status b = LEGACY_BURN_STATUS_BURN_PENDING) then state Scheduled Available None
  else if bool_decide (burn_status b = LEGACY_BURN_STATUS_BURNED) then state Expired Redacted None
  else if bool_decide (burn_status b = LEGACY_BURN_STATUS_HARD_DELETED) then state Purged VisPurged (burned_at b)
  else None.

(** The columns [row_to_message] asks for with a default where the query has none. *)
Definition unselected_burn : BurnColumns := mkBurnColumns 0 None None None.

Definition extra_map (reactions : string) (pinned : bool) (shared : option (string * string * string))
    (extra : gmap string string) : gmap string string :=
  let e := <["reactionsJson" := reactions]> extra in
  let e := if pinned then <["pinned" := "true"]> e else e in
  let e := without_shared_keys e in
  let e := match shared with
           | None => e
           | Some (values, version, entity) =>
               <[PLUGIN_SHARED_ENTITY_KEY := entity]> (<[PLUGIN_SHARED_STATE_VERSION_KEY := version]>
                 (<[PLUGIN_SHARED_STATE_JSON_KEY := values]> e))
           end in
  match e !! "__sync_skip" with
  | Some reason => {[ "__sync_skip" := reason ]}
  | None => e
  end.

(** [row_to_message] on the projected columns; the content bytes are decoded. *)
Definition row_to_message (db : Tables) (tenant : string) (now : Z) (burn : BurnColumns) (r : ReaderRow) (m : Message) : Message :=
  let m := with_extensions (with_retention m None (legacy_retention_state burn)) (without_shared_keys (extensions m)) in
  with_attributes m (extra_map (row_reactions r) (is_pinned db tenant now m) (row_shared_state r) (attributes m)).

(** [apply_burn_query_visibility]: the message to return, if any. *)
Definition apply_burn_query_visibility (include_placeholder : bool) (m : Message) : option Message :=
  match content_visibility m with
  | Hidden | Redacted | VisPurged =>
      if include_placeholder then
        Some (mkMessage (server_id m) (conversation_id m) (client_msg_id m) (sender_id m)
          (source m) (conversation_seq m) (created_at m) (conversation_type m) (message_type m) (message_seq m)
          (channel_id m) (sender_name m) (sender_avatar m) (thread_id m) None (status m)
          (retention_policy m) (retention_state m) None
          (<["retention_placeholder" := "该消息已不可见"]> (attributes m)) ∅)
      else None
  | _ => Some m
  end.

(** [apply_pin_flags]: the pins of the conversations and the pins of the user. *)
Definition pinned_for (db : Tables) (tenant uid : string) (now : Z) (conversation_ids : list string) (id : string) : bool :=
  existsb (fun p =>
    bool_decide (pin_tenant_id p = tenant) && bool_decide (pin_conversation_id p ∈ conversation_ids)
    && bool_decide (pin_message_id p = id)
    && (bool_decide (pin_scope p = 0) || (bool_decide (pin_scope p = 1) && bool_decide (pin_owner_user_id p = uid)))
    && match pin_expire_at p with None => true | Some t => now <? t end)
    (t_pins db).

(** Messages without an id are not looked up; with none to look up nothing is changed. *)
Definition pin_lookup_ids (messages : list Message) : list string :=
  filter (fun id => Str.is_empty id = false) ((fun m => Str.trim (server_id m)) <$> messages).

Definition apply_pin_flag (db : Tables) (tenant uid : string) (now : Z) (conversation_ids message_ids : list string)
    (m : Message) : Message :=
  match message_ids with
  | [] => m
  | _ =>
      with_attributes m
        (if bool_decide (server_id m ∈ message_ids) && pinned_for db tenant uid now conversation_ids (server_id m)
         then <["pinned" := "true"]> (attributes m) else delete "pinned" (attributes m))
  end.

Definition apply_pin_flags (db : Tables) (tenant uid : string) (now : Z) (conversation_ids : list string)
    (messages : list Message) : list Message :=
  apply_pin_flag db tenant uid now conversation_ids (pin_lookup_ids messages) <$> messages.

(** ** Queries *)

Definition reader_tenant (ctx : Ctx) : result string :=
  match ctx_tenant_id ctx with
  | Some t => if Str.is_blank t then Err (flare_err InvalidParameter "tenant required to read messages") else Ok t
  | None => Err (flare_err InvalidParameter "tenant required to read messages")
  end.

(** [visible_from_seq_sql]: the floor of a member; everything is below that of a stranger. *)
Definition visible_from_seq (db : Tables) (tenant conversation uid : string) : Z :=
  if Str.is_empty uid then 0
  else
    match ConversationStore.participants (t_rows db) !! (tenant, conversation, uid),
          ConversationStore.conversations (t_rows db) !! (tenant, conversation) with
    | Some p, Some c => Z.max (ConversationStore.from_seq p)
        (Z.max (ConversationStore.cleared_seq p) (ConversationStore.conversation_cleared c))
    | _, _ => i64_max
    end.

Definition is_backfill_tail_page (after_seq : Z) (before_seq : option Z) : bool :=
  bool_decide (after_seq = 0) && match before_seq with Some _ => true | None => false end.

(** ORDER BY seq *)
Definition seq_le (a b : ReaderRow) : bool := row_seq a <=? row_seq b.
Definition seq_ge (a b : ReaderRow) : bool := row_seq b <=? row_seq a.

Definition conversation_rows (db : Tables) (tenant conversation : string) : list ReaderRow :=
  default [] (t_messages db !! (tenant, conversation)).

(** WHERE seq > low AND (before IS NULL OR seq < before) *)
Definition seq_between (low : Z) (before : option Z) (seq : Z) : bool :=
  (low <? seq) && match before with None => true | Some b => seq <? b end.

Definition rows_between (low : Z) (before : option Z) (rows : list ReaderRow) : list ReaderRow :=
  filter (fun r => seq_between low before (row_seq r) = true) rows.

Definition clamp (z lo hi : Z) : Z := Z.max lo (Z.min z hi).

Section Reader.
Context (db : Tables) (down : option FlareError) (now : Z).
(** [mark_plugin_card_copies] and [protect_group_history]: they change the attributes and
    the notice content of messages in place, after asking the plugin cards and the roster
    policy, and are not translated. They are parameters; a theorem that needs them to keep
    the messages, their number and their order has the class [Cosmetic] as a hypothesis. *)
Context (mark protect : Ctx -> list Message -> list Message).

(** A statement of the database. *)
Definition fetch {A} (a : A) : result A := match down with Some e => Err e | None => Ok a end.

(** The messages of fetched rows; [uid] is the user whose view is projected. *)
Definition read_rows (tenant : string) (uid : option string) (include_burned_placeholder : bool)
    (rows : list ReaderRow) : list Message :=
  omap (fun r =>
    apply_burn_query_visibility include_burned_placeholder
      (row_to_message db tenant now unselected_burn r
         (match uid with Some u => project db tenant u r | None => project_all r end))) rows.

(** [query_messages_by_seq] of the store. *)
Definition store_messages_by_seq (ctx : Ctx) (conversation : string) (uid : option string)
    (after_seq : Z) (before_seq : option Z) (limit : Z) (include_burned_placeholder : bool) : result (list Message) :=
  tenant ← reader_tenant ctx;
  let limit := clamp limit 1 1000 in
  let tail := is_backfill_tail_page after_seq before_seq in
  let low := match uid with Some u => Z.max after_seq (visible_from_seq db tenant conversation u) | None => after_seq end in
  let rows := rows_between low before_seq (conversation_rows db tenant conversation) in
  rows ← fetch (take (Z.to_nat limit) (if tail then sort_by seq_ge rows else sort_by seq_le rows));
  let messages := read_rows tenant uid include_burned_placeholder rows in
  let messages := if tail then reverse messages else messages in
  fetch (apply_pin_flags db tenant (default "" (ctx_user_id ctx)) now [conversation] messages).

Definition MAX_WINDOW_CONVERSATIONS : nat := 200.

(** The rows of one target of [query_conversations_message_windows]. *)
Definition window_rows (tenant uid : string) (limit : Z) (newest_window : bool) (target : string * Z) : list ReaderRow :=
  let '(c, after) := target in
  let floor := visible_from_seq db tenant c uid in
  let rows := conversation_rows db tenant c in
  if newest_window then take (Z.to_nat limit) (sort_by seq_ge (rows_between floor None rows))
  else take (Z.to_nat limit) (sort_by seq_le (rows_between (Z.max after floor) None rows)).

(** [grouped.remove(id).unwrap_or_default()] for each id. *)
Fixpoint take_groups (group : string -> list Message) (taken : gset string) (ids : list string)
    : list (string * list Message) :=
  match ids with
  | [] => []
  | id :: ids' => (id, if decide (id ∈ taken) then [] else group id) :: take_groups group ({[ id ]} ∪ taken) ids'
  end.

Definition store_message_windows (ctx : Ctx) (targets : list (string * Z)) (uid : option string)
    (per_conversation_limit : Z) (newest_window include_burned_placeholder : bool)
    : result (list (string * list Message)) :=
  tenant ← reader_tenant ctx;
  let limit := clamp per_conversation_limit 1 500 in
  let targets := take MAX_WINDOW_CONVERSATIONS (filter (fun t => Str.is_blank t.1 = false) targets) in
  match targets with
  | [] => Ok []
  | _ =>
      let viewer := default "" uid in
      rows ← fetch (concat (window_rows tenant viewer limit newest_window <$> targets));
      let messages := read_rows tenant (Some viewer) include_burned_placeholder rows in
      let ids := targets.*1 in
      pins ← fetch (apply_pin_flag db tenant (default "" (ctx_user_id ctx)) now ids (pin_lookup_ids messages));
      let group id :=
        let g := filter (fun m => conversation_id m = id) messages in
        pins <$> (if newest_window then reverse g else g) in
      Ok (take_groups group ∅ ids)
  end.

(** ORDER BY created_at DESC NULLS LAST LIMIT 1 *)
Definition newer (a b : ReaderRow) : bool :=
  match row_created_at a, row_created_at b with
  | Some x, Some y => y <=? x
  | _, None => true
  | None, Some _ => false
  end.

Definition max_opt (l : list Z) : option Z :=
  match l with [] => None | x :: l => Some (foldl Z.max x l) end.

Definition store_message_head (ctx : Ctx) (conversation : string) : result (option Z) :=
  tenant ← reader_tenant ctx;
  fetch (
    let ev_max := max_opt (default [] (t_event_seqs db !! (tenant, conversation))) in
    let msg_seq := row_seq <$> head (sort_by newer (conversation_rows db tenant conversation)) in
    match msg_seq, ev_max with
    | None, None => None
    | _, _ => Some (Z.max (default 0 msg_seq) (default 0 ev_max))
    end).

(** ** The gRPC methods *)

Definition bound_read_user (ctx : Ctx) (requested : string) : result (option string) :=
  let signed_user :=
    match ctx_claims ctx with
    | Some c => if bool_decide (actor_type c = ActUser) then Some (actor_id c) else None
    | None => None
    end in
  match signed_user with
  | None => Ok (if Str.is_empty requested then None else Some requested)
  | Some user =>
      if Str.is_empty requested || bool_decide (requested = user) then Ok (Some user)
      else Err (flare_err PermissionDenied "user_id does not match the signed user")
  end.

(** The row read beyond the limit is cut off, at the far end. *)
Definition cut_overflow {A} (tail : bool) (requested_limit : Z) (messages : list A) : list A :=
  if requested_limit <? Z.of_nat (length messages) then
    if tail then drop (length messages - Z.to_nat requested_limit) messages
    else take (Z.to_nat requested_limit) messages
  else messages.

Definition query_messages_by_seq (ctx : Ctx) (conversation : string) (after_seq before_seq limit : Z) (user_id : string)
    (include_burned_placeholder : bool) : result (list Message) :=
  uid ← bound_read_user ctx user_id;
  let requested_limit := Z.max limit 1 in
  let before := if bool_decide (before_seq = 0) then None else Some before_seq in
  messages ← store_messages_by_seq ctx conversation uid after_seq before (requested_limit + 1) include_burned_placeholder;
  let messages := mark ctx messages in
  Ok (protect ctx (cut_overflow (is_backfill_tail_page after_seq before) requested_limit messages)).

Definition query_conversations_message_windows (ctx : Ctx) (targets : list (string * Z)) (per_conversation_limit : Z)
    (newest_window : bool) (user_id : string) (include_burned_placeholder : bool)
    : result (list (string * list Message)) :=
  uid ← bound_read_user ctx user_id;
  windows ← store_message_windows ctx targets uid per_conversation_limit newest_window include_burned_placeholder;
  Ok ((fun w : string * list Message => (w.1, protect ctx (mark ctx w.2))) <$> (windows : list (string * list Message))).

Definition get_conversation_message_head (ctx : Ctx) (conversation : string) : result Z :=
  if Str.is_blank conversation then Err (flare_err InvalidParameter "conversation_id is required")
  else
    head ← store_message_head ctx conversation;
    Ok (default 0 head).

End Reader.
