(* ===== verification/EventReader.v ===== *)
(** * Replaying the events of a conversation

    The event stream as the storage reader reads it: [query_events] of flare-storage/reader/
    src/infrastructure/persistence/optimized_postgres_store.rs with the rows of
    event_stream_row.rs, the page of application/handlers/query_handler.rs and the gRPC
    method [query_conversation_events] of interface/grpc/storage_reader_handler.rs. The
    decoders of the payloads are generated code and an argument; an event keeps its
    meaning through [event_from_proto] and [event_to_proto_or_default], which encode and
    decode it. Marking the copies of plugin cards and hiding the names in group notices
    change a message an event carries and are an argument. *)

From S2P Require Import Prelude.
From S2P Require Import Slices.
From S2P Require Import Tenant.
From S2P Require Import ConversationStore.
From S2P Require Import StorageReader.
From S2P Require Import Proto.
From stdpp Require Import base gmap list strings.
From Stdlib Require Import Lia ZArith Sorted.

Local Open Scope Z_scope.

(** ** Events *)

(** The number of a type: of one that is known, or another. *)
Inductive EventTypeNumber := Known (t : EventType) | Unknown (z : Z).

#[export] Instance EventTypeNumber_eq_dec : EqDecision EventTypeNumber.
Proof. solve_decision. Defined.

(** The payload of a replayed event; that of a send is the whole message. *)
Inductive ReplayPayload := ReplayMessage (m : Message) | ReplayEdit (edit : MessageEditEvent) | ReplayOther (p : Payload).

Record ReplayEvent := mkReplay {
  re_conversation_id : string;
  re_seq : Z;
  re_type : EventTypeNumber;
  re_created_at : Z;
  re_event_id : string;
  re_request_id : option string;
  re_payload : option ReplayPayload;
}.

(** A row of [events]. *)
Record EventRow := mkEventRow {
  er_seq : Z;
  er_type : EventTypeNumber;
  er_created_at : Z;
  er_request_id : option string;
  er_payload : string;
}.

Definition seq_as_u64 (z : Z) : Z := z mod 2 ^ 64.

(** ORDER BY seq ASC *)
Definition er_le (a b : EventRow) : bool := er_seq a <=? er_seq b.

(** The messages deleted for everyone: EXISTS (messages m JOIN message_visibility mv ...). *)
Definition deleted_for_all (db : Tables) (tenant conversation : string) (seq : Z) : bool :=
  existsb (fun r => bool_decide (row_seq r = seq) &&
    existsb (fun v =>
      bool_decide (mv_tenant_id v = tenant) && bool_decide (mv_message_id v = server_id (row_message r))
      && bool_decide (mv_scope v = 2) && (bool_decide (mv_status v = 1) || bool_decide (mv_status v = 2)))
      (t_visibility db))
    (conversation_rows db tenant conversation).

(** Of the targets of edits, the ones deleted for everyone. *)
Definition hidden_target (db : Tables) (tenant id : string) : bool :=
  existsb (fun v =>
    bool_decide (mv_tenant_id v = tenant) && bool_decide (mv_message_id v = id)
    && bool_decide (mv_scope v = 2) && (bool_decide (mv_status v = 1) || bool_decide (mv_status v = 2)))
    (t_visibility db).

Definition edit_target (e : ReplayEvent) : option string :=
  match re_payload e with Some (ReplayEdit edit) => Some (edit_server_msg_id edit) | _ => None end.

Definition without_payload (e : ReplayEvent) : ReplayEvent :=
  mkReplay (re_conversation_id e) (re_seq e) (re_type e) (re_created_at e) (re_event_id e) (re_request_id e) None.

Definition redact_deleted_edit_event (hidden : string -> bool) (e : ReplayEvent) : ReplayEvent :=
  match edit_target e with
  | Some id => if hidden id then without_payload e else e
  | None => e
  end.

(** [require_tenant_id_from_context] (flare-im-contracts/src/utils/mod.rs) *)
Definition require_tenant_id_from_context (ctx : Ctx) : result string :=
  match ctx_tenant_id ctx with
  | Some t => if Str.is_empty t then Err (flare_err InvalidParameter "Tenant ID is required in context")
              else Ok (normalize_tenant_id t)
  | None => Err (flare_err InvalidParameter "Tenant ID is required in context")
  end.

(** The message of a send changed, as [mark_plugin_card_copies] and [protect_group_history] do. *)
Definition dress_event (f : Message -> Message) (e : ReplayEvent) : ReplayEvent :=
  match re_payload e with
  | Some (ReplayMessage m) =>
      mkReplay (re_conversation_id e) (re_seq e) (re_type e) (re_created_at e) (re_event_id e) (re_request_id e)
        (Some (ReplayMessage (f m)))
  | _ => e
  end.

Section Events.
Context (db : Tables) (down : option FlareError) (stream : gmap (string * string) (list EventRow)).
Context (decode : EventType -> string -> option ReplayPayload).
Context (dress : Ctx -> Message -> Message).

(** [decode_payload_oneof]; [None] if the payload cannot be decoded. *)
Definition decode_payload_oneof (t : EventTypeNumber) (payload : string) : option (option ReplayPayload) :=
  if Str.is_empty payload then Some None
  else
    match t with
    | Unknown _ | Known EtUnspecified => Some None
    | Known ty => p ← decode ty payload; Some (Some p)
    end.

(** [proto_event_from_events_row], and the shell of an event that cannot be decoded. *)
Definition proto_event_from_events_row (conversation : string) (r : EventRow) : ReplayEvent :=
  mkReplay conversation (seq_as_u64 (er_seq r)) (er_type r) (er_created_at r)
    (conversation +:+ ":" +:+ Str.of_Z (er_seq r)) (er_request_id r)
    (default None (decode_payload_oneof (er_type r) (er_payload r))).

(** What a viewer may see: nothing without a viewer is left out. *)
Definition replay_visible (tenant conversation viewer : string) (r : EventRow) : bool :=
  if Str.is_empty viewer then true
  else (visible_from_seq db tenant conversation viewer <? er_seq r)
       && (negb (bool_decide (er_type r = Known EventMessage)) || negb (deleted_for_all db tenant conversation (er_seq r))).

Definition replay_wanted (after_seq before_seq : Z) (event_type_filter : list EventTypeNumber) (r : EventRow) : bool :=
  (after_seq <? er_seq r) && ((before_seq <=? 0) || (er_seq r <? before_seq))
  && (match event_type_filter with [] => true | _ => bool_decide (er_type r ∈ event_type_filter) end).

Definition event_rows (tenant conversation : string) : list EventRow := default [] (stream !! (tenant, conversation)).

(** [query_events] of the store. *)
Definition store_query_events (ctx : Ctx) (tenant conversation : string) (after_seq before_seq limit : Z)
    (event_type_filter : list EventTypeNumber) : result (list ReplayEvent) :=
  let limit := clamp limit 1 500 in
  let viewer := default "" (ctx_user_id ctx) in
  rows ← fetch down (take (Z.to_nat limit) (sort_by er_le (filter (fun r =>
           replay_wanted after_seq before_seq event_type_filter r && replay_visible tenant conversation viewer r = true)
           (event_rows tenant conversation))));
  let out := proto_event_from_events_row conversation <$> (rows : list EventRow) in
  if Str.is_empty viewer then Ok out
  else
    match omap edit_target out with
    | [] => Ok out
    | _ => hidden ← fetch down (hidden_target db tenant); Ok (redact_deleted_edit_event hidden <$> out)
    end.

(** [query_conversation_events_page]: one row more is asked for, to tell whether there are more. *)
Definition query_conversation_events_page (ctx : Ctx) (conversation : string) (after_seq before_seq limit : Z)
    (event_type_filter : list EventTypeNumber) : result (list ReplayEvent * Z * bool * string) :=
  tenant ← require_tenant_id_from_context ctx;
  let want := clamp limit 1 500 in
  rows ← store_query_events ctx tenant conversation after_seq before_seq (want + 1) event_type_filter;
  let has_more := want <? Z.of_nat (length rows) in
  let rows := if has_more then take (Z.to_nat want) rows else rows in
  let last_seq := default after_seq (re_seq <$> last rows) in
  let next_cursor := default "" ((fun e => "evt:" +:+ Str.of_Z (re_seq e)) <$> last rows) in
  Ok (dress_event (dress ctx) <$> rows, last_seq, has_more, next_cursor).

(** The gRPC method. *)
Definition query_conversation_events (ctx : Ctx) (conversation : string) (after_seq before_seq limit : Z)
    (event_type_filter : list EventTypeNumber) : result (list ReplayEvent * Z * bool * string) :=
  if Str.is_blank conversation then Err (flare_err InvalidParameter "conversation_id is required")
  else query_conversation_events_page ctx conversation after_seq before_seq limit event_type_filter.

End Events.

(** ** What a page holds *)

#[export] Instance er_le_total : TotalPreorder er_le.
Proof. apply (key_total_preorder er_seq Z.leb). Qed.

(** PRIMARY KEY (tenant_id, conversation_id, seq) *)
Definition stream_numbered (rows : list EventRow) : Prop := NoDup (er_seq <$> rows) /\ Forall (fun r => 0 < er_seq r <= i64_max) rows.

Section Page.
Context (db : Tables) (stream : gmap (string * string) (list EventRow)).
Context (decode : EventType -> string -> option ReplayPayload) (dress : Ctx -> Message -> Message).
Context (ctx : Ctx) (tenant c : string).

Abbreviation viewer := (default "" (ctx_user_id ctx)).
Abbreviation rows := (event_rows stream tenant c).

Context (Hrows : stream_numbered rows).

(** The events a viewer may see of the wanted types, in order. *)
Definition replayable (types : list EventTypeNumber) : list EventRow :=
  filter (fun r => replay_visible db tenant c viewer r && (match types with [] => true | _ => bool_decide (er_type r ∈ types) end) = true)
    (sort_by er_le rows).

Lemma wanted_rows after types :
  sort_by er_le (filter (fun r => replay_wanted after 0 types r && replay_visible db tenant c viewer r = true) rows)
  = filter (fun r => after < er_seq r) (replayable types).
Proof.
  unfold replayable. rewrite list_filter_filter. rewrite sort_by_filter; [|apply _|].
  - apply Slices.filter_ext_in. intros r Hr. unfold replay_wanted. cbn [Z.leb orb].
    rewrite !andb_true_iff, Z.ltb_lt. cbn. tauto.
  - intros a b Ha Hb E1 E2. apply (NoDup_key_inj er_seq rows); [apply Hrows|done..|]. unfold er_le in *. lia.
Qed.

(** A row as the viewer gets it. *)
Definition replayed (r : EventRow) : ReplayEvent :=
  let e := proto_event_from_events_row decode c r in
  if Str.is_empty viewer then e else redact_deleted_edit_event (hidden_target db tenant) e.

Lemma redact_none (hidden : string -> bool) (es : list ReplayEvent) :
  omap edit_target es = [] -> redact_deleted_edit_event hidden <$> es = es.
Proof.
  induction es as [|e es IH]; [done|]. cbn. intros H. unfold redact_deleted_edit_event at 1.
  destruct (edit_target e); [done|]. by rewrite IH.
Qed.

Lemma store_events after limit types :
  store_query_events db None stream decode ctx tenant c after 0 limit types
  = Ok (replayed <$> take (Z.to_nat (clamp limit 1 500)) (filter (fun r => after < er_seq r) (replayable types))).
Proof.
  unfold store_query_events. cbn zeta. rewrite wanted_rows. cbn [fetch mbind result_bind].
  unfold replayed. destruct (Str.is_empty viewer); [done|].
  set (out := proto_event_from_events_row decode c <$> _).
  transitivity (Ok (redact_deleted_edit_event (hidden_target db tenant) <$> out)).
  - destruct (omap edit_target out) eqn:E; [|done]. by rewrite redact_none.
  - subst out. by rewrite <- list_fmap_compose.
Qed.

Lemma replayed_seq r : r ∈ rows -> re_seq (replayed r) = er_seq r.
Proof.
  intros Hr. assert (0 < er_seq r <= i64_max) as H by (eapply Forall_forall in Hr; [|apply Hrows]; done).
  transitivity (seq_as_u64 (er_seq r)).
  - unfold replayed. destruct (Str.is_empty viewer); [done|]. unfold redact_deleted_edit_event.
    destruct (edit_target _) as [id|]; [by destruct (hidden_target db tenant id)|done].
  - unfold seq_as_u64, i64_max in *. rewrite Z.mod_small; lia.
Qed.

Lemma dress_event_seq f e : re_seq (dress_event f e) = re_seq e.
Proof. unfold dress_event. by destruct (re_payload e) as [[]|]. Qed.

Lemma dress_event_type f e : re_type (dress_event f e) = re_type e.
Proof. unfold dress_event. by destruct (re_payload e) as [[]|]. Qed.

(** What a page gives for a row. *)
Definition sent (r : EventRow) : ReplayEvent := dress_event (dress ctx) (replayed r).

Lemma sent_seq r : r ∈ rows -> re_seq (sent r) = er_seq r.
Proof. intros Hr. unfold sent. rewrite dress_event_seq. by apply replayed_seq. Qed.

Lemma replayable_in types r : r ∈ replayable types -> r ∈ rows.
Proof. intros [_ Hr]%list_elem_of_filter. by apply elem_of_sort_by in Hr. Qed.

Lemma replayable_sorted types : StronglySorted (fun a b => er_seq a < er_seq b) (replayable types).
Proof.
  apply (StronglySorted_sublist _ _ (sort_by er_le rows)); [apply sublist_filter|].
  apply sorted_key_strictly.
  - rewrite sort_by_perm. apply Hrows.
  - eapply StronglySorted_impl, sort_by_sorted; [|apply _]. intros a b. apply Z.leb_le.
Qed.

(** The events above a number. *)
Definition replayable_above (types : list EventTypeNumber) (after : Z) : list EventRow :=
  filter (fun r => after < er_seq r) (replayable types).

(** A page of at most 499 events is the first of those above the position asked for, and
    says truly whether there are more. *)
Lemma events_page after limit types : require_tenant_id_from_context ctx = Ok tenant -> 1 <= limit <= 499 ->
  exists cursor,
  query_conversation_events_page db None stream decode dress ctx c after 0 limit types
  = Ok (sent <$> take (Z.to_nat limit) (replayable_above types after),
        default after (er_seq <$> last (take (Z.to_nat limit) (replayable_above types after))),
        limit <? Z.of_nat (length (replayable_above types after)), cursor).
Proof.
  intros Ht Hl. unfold query_conversation_events_page. rewrite Ht. cbn [mbind result_bind]. cbn zeta.
  replace (clamp limit 1 500) with limit by (unfold clamp; lia). rewrite store_events. cbn [mbind result_bind].
  fold (replayable_above types after). set (V := replayable_above types after).
  replace (clamp (limit + 1) 1 500) with (limit + 1) by (unfold clamp; lia).
  rewrite length_fmap, length_take.
  set (page := if _ <? _ then _ else _).
  assert (page = replayed <$> take (Z.to_nat limit) V) as ->.
  { subst page. destruct (Z.ltb_spec limit (Z.of_nat (Nat.min (Z.to_nat (limit + 1)) (length V)))).
    - rewrite <- fmap_take, take_take. do 2 f_equal. lia.
    - by rewrite !take_ge by lia. }
  eexists. f_equal. f_equal. f_equal; [f_equal|].
  - unfold sent. by rewrite <- list_fmap_compose.
  - rewrite fmap_last. destruct (last (take _ V)) as [r|] eqn:E; [|done]. cbn. apply replayed_seq.
    apply last_Some_elem_of, elem_of_take in E as (i & Hi & _). apply list_elem_of_lookup_2, list_elem_of_filter in Hi as [_ Hi].
    by eapply replayable_in.
  - apply eq_true_iff_eq. rewrite !Z.ltb_lt. lia.
Qed.
End Page.
