(* ===== verification/SyncOrchestrator.v ===== *)
(** * Syncing conversations

    flare-sync-orchestrator/src/application/handlers/sync_orchestration_handler.rs:
    [single_conversation_sync] and [multi_conversation_sync] with the authorization of a
    read, over the ports of application/ports.rs. A port is a function of its arguments,
    which may fail; the model of the storage reader is one implementation of it
    ([reader_port], as infrastructure/rpc/sync_adapters.rs calls it). *)

From S2P Require Import Prelude.
From S2P Require Import Slices.
From S2P Require Import Tenant.
From S2P Require Import StorageReader.
From S2P Require Import Submission.
From S2P Require Import Proto.
From S2P Require Import SyncPages.
From stdpp Require Import base gmap list strings.
From Stdlib Require Import Lia ZArith.

Local Open Scope Z_scope.

(** ** Ports *)

(** The conversation of a detail, if there is one. *)
Record ConversationSyncPort := mkConversationPort {
  conversation_detail : Ctx -> string -> result (option string);
}.

(** A window: the conversation, its messages and the last number. *)
Record StorageReadPort := mkStoragePort {
  port_messages_by_seq : Ctx -> string -> Z -> Z -> Z -> string -> result (list Message);
  port_message_head : Ctx -> string -> result Z;
  port_message_windows : Ctx -> list (string * Z) -> Z -> bool -> string -> result (list (string * list Message * Z));
}.

(** [GrpcSyncAdapters] calling the reader; [extract_seq_from_message] of the last message. *)
Definition window_last_seq (messages : list Message) : Z := default 0 (conversation_seq <$> last messages).

Definition reader_port (db : Tables) (down : option FlareError) (now : Z) (mark protect : Ctx -> list Message -> list Message)
    : StorageReadPort :=
  mkStoragePort
    (fun ctx c after before limit user =>
       StorageReader.query_messages_by_seq db down now mark protect ctx c after before limit user false)
    (fun ctx c => StorageReader.get_conversation_message_head db down ctx c)
    (fun ctx targets limit newest user =>
       windows ← StorageReader.query_conversations_message_windows db down now mark protect ctx targets limit newest user false;
       Ok ((fun w : string * list Message => (w.1, w.2, window_last_seq w.2)) <$> (windows : list (string * list Message)))).

(** ** Requests *)

Record SingleConversationSync := mkSingle {
  single_conversation_id : string;
  after_conversation_seq : Z;
  before_conversation_seq : Z;
  single_limit : Z;
  single_cursor : string;
}.

Record SingleConversationSyncRes := mkSingleRes {
  res_conversation_id : string;
  res_page : ContiguousSyncPage;
}.

Record MultiConversationSync := mkMulti {
  multi_conversation_ids : list string;
  last_conversation_seq_per_conversation : gmap string Z;
  limit_per_conversation : Z;
}.

Record MultiConversationSyncRes := mkMultiRes {
  slices : list (string * ContiguousSyncPage);
  max_conversation_seq_per_conversation : gmap string Z;
  multi_has_more : bool;
}.

(** [u64 as i64] and back. *)
Definition as_i64 (z : Z) : Z := if z <=? i64_max then z else z - 2 ^ 64.
Definition as_u64 (z : Z) : Z := z mod 2 ^ 64.

Definition MAX_MULTI_SYNC_CONVERSATIONS : nat := 100.

Definition no_page : ContiguousSyncPage := mkPage [] 0 "" false.

Definition require_nonempty_conversation_id (c : string) : result unit :=
  if Str.is_blank c
  then Err (mkError InvalidParameter "conversation_id 不能为空" None [("field", "conversation_id")]) else Ok ().

Definition snapshot_tenant (ctx : Ctx) : result string :=
  match normalize_optional_tenant_id (ctx_tenant_id ctx) with
  | Some t => Ok t
  | None => Err (flare_err InvalidParameter "tenant required for a sync snapshot")
  end.

Definition sync_read_access_denied : FlareError := flare_err PermissionDenied "conversation access denied".

Definition sync_inbox_conversation_id (user : string) : string := SYNC_INBOX_CONVERSATION_PREFIX +:+ Str.trim user.

(** A missing conversation is not told from one the caller may not read. *)
Definition hide_existence (e : FlareError) : FlareError :=
  if bool_decide (err_code e = MessageNotFound) || bool_decide (err_code e = UserNotFound)
     || bool_decide (err_code e = PermissionDenied)
  then sync_read_access_denied else e.

Section Handler.
Context (conversations : ConversationSyncPort) (storage : StorageReadPort).

(** [authorize_conversation_sync_read]: whether the conversation is the caller's own inbox. *)
Definition authorize_conversation_sync_read (ctx : Ctx) (user_id conversation_id : string) : result bool :=
  _ ← snapshot_tenant ctx;
  match ctx_user_id ctx with
  | Some authenticated_user =>
      if Str.is_blank authenticated_user
      then Err (flare_err AuthenticationRequired "authenticated user required for sync")
      else if bool_decide (authenticated_user <> user_id) then Err sync_read_access_denied
      else if is_sync_inbox_conversation_id conversation_id then
        if bool_decide (conversation_id <> sync_inbox_conversation_id authenticated_user)
        then Err sync_read_access_denied else Ok true
      else
        match conversation_detail conversations ctx conversation_id with
        | Err e => Err (hide_existence e)
        | Ok (Some c) => if bool_decide (c <> conversation_id) then Err sync_read_access_denied else Ok false
        | Ok None => Err sync_read_access_denied
        end
  | None => Err (flare_err AuthenticationRequired "authenticated user required for sync")
  end.

(** A head that cannot be read is the position of the client. *)
Definition conversation_head_max_seq (ctx : Ctx) (conversation_id : string) (fallback_seq : Z) : Z :=
  match port_message_head storage ctx conversation_id with
  | Ok max_seq => Z.max (Z.max max_seq fallback_seq) 0
  | Err _ => Z.max fallback_seq 0
  end.

(** The page of history before a number. *)
Definition backfill_page (ctx : Ctx) (user_id conversation_id : string) (before_seq limit : Z) : result ContiguousSyncPage :=
  messages ← port_messages_by_seq storage ctx conversation_id 0 (as_i64 before_seq) (limit + 1) user_id;
  let has_more := limit <? Z.of_nat (length messages) in
  let messages := if has_more then drop (length messages - Z.to_nat limit) messages else messages in
  Ok (build_backfill_sync_items messages has_more).

(** The page that follows the position of the client. *)
Definition catch_up_page (ctx : Ctx) (user_id conversation_id cursor : string) (requested_after_seq limit : Z)
    : result ContiguousSyncPage :=
  let head_max_seq := conversation_head_max_seq ctx conversation_id (as_i64 requested_after_seq) in
  let tail := cold_start_tail_after_seq requested_after_seq cursor head_max_seq limit in
  let query_after_seq := default requested_after_seq tail in
  messages ← port_messages_by_seq storage ctx conversation_id (as_i64 query_after_seq) 0 (limit + 1) user_id;
  Ok (match tail with
      | Some _ => build_tail_sync_items messages (as_u64 head_max_seq)
      | None => build_contiguous_sync_items conversation_id requested_after_seq limit messages (as_u64 head_max_seq)
      end).

Definition single_conversation_sync (ctx : Ctx) (user_id : string) (req : SingleConversationSync)
    : result SingleConversationSyncRes :=
  let conversation_id := single_conversation_id req in
  _ ← require_nonempty_conversation_id conversation_id;
  virtual_inbox ← authorize_conversation_sync_read ctx user_id conversation_id;
  if virtual_inbox : bool then Ok (mkSingleRes conversation_id no_page)
  else
    let limit := clamp (single_limit req) 1 500 in
    page ← (if 0 <? before_conversation_seq req
            then backfill_page ctx user_id conversation_id (before_conversation_seq req) limit
            else catch_up_page ctx user_id conversation_id (single_cursor req) (after_conversation_seq req) limit);
    Ok (mkSingleRes conversation_id page).

Definition multi_targets (req : MultiConversationSync) : list (string * Z) :=
  (fun c => (c, as_i64 (default 0 (last_conversation_seq_per_conversation req !! c)))) <$>
    filter (fun c => Str.is_blank c = false) (multi_conversation_ids req).

(** The slice of a window. *)
Definition multi_slice (ctx : Ctx) (limit : Z) (after_by_id : gmap string Z) (window : string * list Message * Z)
    : string * ContiguousSyncPage :=
  let '(c, messages, _) := window in
  if is_sync_inbox_conversation_id c then (c, no_page)
  else
    let after := default 0 (after_by_id !! c) in
    (c, build_contiguous_sync_items c (as_u64 after) limit messages
          (as_u64 (conversation_head_max_seq ctx c after))).

(** The targets that are conversations and the ones that are the caller's inbox. *)
Fixpoint authorize_all (ctx : Ctx) (user_id : string) (targets : list (string * Z)) : result (list bool) :=
  match targets with
  | [] => Ok []
  | (c, _) :: targets' =>
      inbox ← authorize_conversation_sync_read ctx user_id c;
      rest ← authorize_all ctx user_id targets';
      Ok (inbox :: rest)
  end.

Definition multi_conversation_sync (ctx : Ctx) (user_id : string) (req : MultiConversationSync)
    : result MultiConversationSyncRes :=
  if (MAX_MULTI_SYNC_CONVERSATIONS <? length (multi_conversation_ids req))%nat
  then Err (flare_err InvalidParameter "multi sync supports at most 100 conversation IDs")
  else
    let limit := clamp (limit_per_conversation req) 1 500 in
    let targets := multi_targets req in
    if bool_decide (NoDup targets.*1) then
      inboxes ← authorize_all ctx user_id targets;
      let durable := (filter (fun x : (string * Z) * bool => x.2 = false) (zip targets inboxes)).*1 in
      windows ← match durable with
                | [] => Ok []
                | _ => port_message_windows storage ctx durable (limit + 1) false user_id
                end;
      let windows := (windows : list (string * list Message * Z)) ++
        ((fun x : (string * Z) * bool => (x.1.1, [], 0)) <$> filter (fun x : (string * Z) * bool => x.2 = true) (zip targets inboxes)) in
      let after_by_id : gmap string Z := list_to_map targets in
      let pages := multi_slice ctx limit after_by_id <$> windows in
      Ok (mkMultiRes pages
            (foldl (fun m p => <[p.1 := page_max_seq p.2]> m) ∅ pages)
            (existsb (fun p => page_has_more p.2) pages))
    else Err (flare_err InvalidParameter "multi sync conversation IDs must be unique").

End Handler.

(** ** A sync the caller may not make *)

Section Denied.
Context (conversations : ConversationSyncPort) (ctx : Ctx) (user : string).

Lemma authorize_all_denied targets c e :
  c ∈ targets.*1 -> authorize_conversation_sync_read conversations ctx user c = Err e ->
  exists e', authorize_all conversations ctx user targets = Err e'.
Proof.
  induction targets as [|[c' after] targets IH]; cbn; [by intros ?%not_elem_of_nil|].
  intros [<-|Hc]%elem_of_cons Hd; [rewrite Hd; by eexists|].
  destruct (authorize_conversation_sync_read conversations ctx user c') as [b|e']; [|by eexists].
  cbn. destruct (IH Hc Hd) as [e' ->]. by eexists.
Qed.

(** What an answer for a conversation the caller may not read looks like: the detail
    cannot be read, names no conversation, or names another one. *)
Definition unreadable (c : string) : Prop :=
  match conversation_detail conversations ctx c with
  | Err e => err_code e = MessageNotFound \/ err_code e = UserNotFound \/ err_code e = PermissionDenied
  | Ok None => True
  | Ok (Some c') => c' <> c
  end.

Lemma authorize_unreadable c tenant :
  snapshot_tenant ctx = Ok tenant -> ctx_user_id ctx = Some user -> Str.is_blank user = false ->
  is_sync_inbox_conversation_id c = false -> unreadable c ->
  authorize_conversation_sync_read conversations ctx user c = Err sync_read_access_denied.
Proof.
  intros Ht Hu Hb Hi Hc. unfold authorize_conversation_sync_read. rewrite Ht, Hu. cbn.
  rewrite Hb, bool_decide_eq_false_2 by (intros H; by apply H). rewrite Hi. unfold unreadable in Hc.
  destruct (conversation_detail conversations ctx c) as [[c'|]|e]; [by rewrite bool_decide_eq_true_2|done|].
  unfold hide_existence. by destruct Hc as [-> | [-> | ->]].
Qed.

End Denied.

(** A batch that names one conversation the caller may not read is refused, and
    what the refusal says depends on no message of any conversation: it is the same
    whatever the storage holds, for every conversation of the batch. *)
Theorem refused_batches_read_nothing (conversations : ConversationSyncPort) (ctx : Ctx) (user c : string)
    (req : MultiConversationSync) (e : FlareError)
    (Hc : c ∈ multi_conversation_ids req) (Hb : Str.is_blank c = false)
    (Hdenied : authorize_conversation_sync_read conversations ctx user c = Err e) :
  exists e', forall storage, multi_conversation_sync conversations storage ctx user req = Err e'.
Proof.
  unfold multi_conversation_sync. destruct (_ <? _)%nat; [by eexists|]. cbn zeta.
  destruct (bool_decide _); [|by eexists].
  destruct (authorize_all_denied conversations ctx user (multi_targets req) c e) as [e' He']; [|done|].
  - unfold multi_targets. rewrite <- list_fmap_compose. cbn. rewrite list_fmap_id. by apply list_elem_of_filter.
  - exists e'. intros storage. by rewrite He'.
Qed.

(** C40. A caller cannot tell a conversation that does not exist from one it may not
    read: with the tenant and the user of the request in order, a sync of either gives
    the same refusal, whatever else the request asks for and whatever the storage
    holds. *)
Theorem unreadable_conversations_look_alike (conversations : ConversationSyncPort) (ctx : Ctx)
    (user tenant : string) (req : SingleConversationSync)
    (Ht : snapshot_tenant ctx = Ok tenant) (Hu : ctx_user_id ctx = Some user) (Hb : Str.is_blank user = false)
    (Hc : Str.is_blank (single_conversation_id req) = false)
    (Hi : is_sync_inbox_conversation_id (single_conversation_id req) = false)
    (Hun : unreadable conversations ctx (single_conversation_id req)) (storage : StorageReadPort) :
  single_conversation_sync conversations storage ctx user req = Err sync_read_access_denied.
Proof.
  unfold single_conversation_sync, require_nonempty_conversation_id. cbn zeta. rewrite Hc. cbn.
  by rewrite (authorize_unreadable _ _ _ _ tenant).
Qed.

(** ** Examples *)

Definition alice_ctx : Ctx := mkCtx None (Some "alice") None (Some "acme") None.

(** Alice may read [g1]; the service says [g2] is not hers, and knows no other. *)
Definition alice_conversations : ConversationSyncPort := mkConversationPort (fun _ c =>
  if bool_decide (c = "g1") then Ok (Some "g1")
  else if bool_decide (c = "g2") then Err (flare_err PermissionDenied "not a member")
  else Err (flare_err MessageNotFound "no such conversation")).

Definition refused_batch : MultiConversationSync := mkMulti ["g1"; "g2"] ∅ 50.

Definition quiet_storage : StorageReadPort :=
  mkStoragePort (fun _ _ _ _ _ _ => Ok []) (fun _ _ => Ok 0) (fun _ _ _ _ _ => Ok []).

Lemma refused_batches_read_nothing_witness :
  exists e, multi_conversation_sync alice_conversations quiet_storage alice_ctx "alice" refused_batch = Err e.
Proof.
  destruct (refused_batches_read_nothing alice_conversations alice_ctx "alice" "g2" refused_batch sync_read_access_denied)
    as [e He].
  - right. left.
  - reflexivity.
  - reflexivity.
  - exists e. apply He.
Defined.

Lemma unreadable_conversations_look_alike_witness :
  single_conversation_sync alice_conversations quiet_storage alice_ctx "alice" (mkSingle "g2" 0 0 50 "") = Err sync_read_access_denied /\
  single_conversation_sync alice_conversations quiet_storage alice_ctx "alice" (mkSingle "g3" 0 0 50 "") = Err sync_read_access_denied.
Proof.
  split.
  - apply (unreadable_conversations_look_alike alice_conversations alice_ctx "alice" "acme"); try reflexivity.
    right. right. reflexivity.
  - apply (unreadable_conversations_look_alike alice_conversations alice_ctx "alice" "acme"); try reflexivity.
    left. reflexivity.
Defined.
