(* ===== verification/SyncCatchUp.v ===== *)
(** * A client that syncs gets every message

    What a client obtains by asking for page after page of a conversation, against an
    interface of the storage reader: catching up from a position, the tail of a cold
    start and the history before it. The model of the reader discharges the interface. *)

From S2P Require Import Prelude.
From S2P Require Import Slices.
From S2P Require Import Tenant.
From S2P Require Import StorageReader.
From S2P Require Import Submission.
From S2P Require Import Proto.
From S2P Require Import SyncPages.
From S2P Require Import SyncOrchestrator.
From stdpp Require Import base gmap list strings sorting.
From Stdlib Require Import Lia ZArith Sorted.

Local Open Scope Z_scope.

(** ** The interface *)

Definition above (after : Z) (l : list Message) : list Message := filter (fun m => after < conversation_seq m) l.
Definition below (before : Z) (l : list Message) : list Message := filter (fun m => conversation_seq m < before) l.

(** The last [n] elements. *)
Definition lastn {A} (n : nat) (l : list A) : list A := drop (length l - n) l.

Definition by_number (l : list Message) : Prop :=
  StronglySorted (fun a b => conversation_seq a < conversation_seq b) l.

(** [storage] answers the reads of [user] in conversation [c] from the messages [l], in order
    of their numbers. *)
Class ReadsConversation (storage : StorageReadPort) (ctx : Ctx) (user c : string) (l : list Message) : Prop := {
  reads_ordered : by_number l;
  reads_positive : Forall (fun m => 0 < conversation_seq m) l;
  reads_after after limit : 0 <= after -> 0 < limit <= 501 ->
    port_messages_by_seq storage ctx c after 0 limit user = Ok (take (Z.to_nat limit) (above after l));
  reads_before before limit : 0 < before -> 0 < limit <= 501 ->
    port_messages_by_seq storage ctx c 0 before limit user = Ok (lastn (Z.to_nat limit) (below before l));
}.

(** ** Clients *)

(** Pages from a position until there are no more, at most [fuel] of them: the items and the
    position reached. *)
Fixpoint catch_up (fuel : nat) (sync : Z -> string -> result ContiguousSyncPage) (after : Z) (cursor : string)
    : option (result (list SyncSliceItem * Z)) :=
  match fuel with
  | O => None
  | S fuel' =>
      match sync after cursor with
      | Err e => Some (Err e)
      | Ok p =>
          if page_has_more p then
            match catch_up fuel' sync (page_max_seq p) (page_next_cursor p) with
            | Some (Ok (items, last)) => Some (Ok (page_items p ++ items, last))
            | r => r
            end
          else Some (Ok (page_items p, page_max_seq p))
      end
  end.

(** Pages of history, each before the first number of the one read last. *)
Fixpoint history (fuel : nat) (sync : Z -> result ContiguousSyncPage) (before : Z) : option (result (list SyncSliceItem)) :=
  match fuel with
  | O => None
  | S fuel' =>
      match sync before with
      | Err e => Some (Err e)
      | Ok p =>
          match page_has_more p, head (page_items p) with
          | true, Some first =>
              match history fuel' sync (item_seq first) with
              | Some (Ok items) => Some (Ok (items ++ page_items p))
              | r => r
              end
          | _, _ => Some (Ok (page_items p))
          end
      end
  end.

(** ** Sorted lists *)

Lemma above_sorted after l : by_number l -> by_number (above after l).
Proof. intros H. eapply StronglySorted_sublist; [apply sublist_filter|exact H]. Qed.

Lemma sorted_index (l : list Message) a i m :
  by_number l -> Forall (fun m => a < conversation_seq m) l -> l !! i = Some m -> a + Z.of_nat i + 1 <= conversation_seq m.
Proof.
  revert a i. induction l as [|x l IH]; intros a i Hs Hf Hi; [done|].
  apply StronglySorted_inv in Hs as [Hs Hx]. apply Forall_cons in Hf as [Hax Hf].
  destruct i as [|i]; cbn in Hi; [injection Hi as ->; lia|].
  pose proof (IH (conversation_seq x) i Hs Hx Hi). lia.
Qed.

Lemma sorted_lookup (l : list Message) j i x m :
  by_number l -> l !! j = Some x -> l !! i = Some m -> (j < i)%nat -> conversation_seq x < conversation_seq m.
Proof.
  revert j i. induction l as [|y l IH]; intros j i Hs Hj Hi Hlt; [done|].
  apply StronglySorted_inv in Hs as [Hs Hy]. destruct i as [|i]; [lia|]. cbn in Hi.
  destruct j as [|j]; cbn in Hj; [|by apply (IH j i); auto with lia].
  injection Hj as ->. by apply (proj1 (Forall_forall _ _) Hy), (list_elem_of_lookup_2 _ i).
Qed.

Lemma NoDup_by_number l : by_number l -> NoDup (conversation_seq <$> l).
Proof.
  induction l as [|x l IH]; cbn; intros Hs; [constructor|]. apply StronglySorted_inv in Hs as [Hs Hx].
  constructor; [|by apply IH]. intros (y & E & Hy)%list_elem_of_fmap.
  rewrite Forall_forall in Hx. specialize (Hx y Hy). lia.
Qed.

(** The first messages above a position hold every message of the next numbers. *)
Lemma in_first_page l after n m :
  by_number l -> m ∈ l -> after < conversation_seq m <= after + Z.of_nat n -> m ∈ take n (above after l).
Proof.
  intros Hs Hm Hr. assert (Hin : m ∈ above after l) by (apply list_elem_of_filter; split; [lia|done]).
  apply list_elem_of_lookup_1 in Hin as [i Hi].
  assert (Hi' : after + Z.of_nat i + 1 <= conversation_seq m).
  { apply (sorted_index (above after l)); [by apply above_sorted| |done].
    apply Forall_forall. by intros x [? _]%list_elem_of_filter. }
  apply (list_elem_of_lookup_2 _ i). rewrite lookup_take_lt; [done|lia].
Qed.

Lemma take_by_number n l : by_number l -> by_number (take n l).
Proof. intros H. eapply StronglySorted_sublist; [apply sublist_take|exact H]. Qed.

(** Beyond a full page there is a message beyond its numbers. *)
Lemma full_page_beyond l after n m :
  by_number l -> m ∈ above after l -> m ∉ take (S n) (above after l) ->
  exists x, x ∈ take (S n) (above after l) /\ after + Z.of_nat n < conversation_seq x.
Proof.
  intros Hs Hm Hn. assert (Hlen : (S n < length (above after l))%nat).
  { destruct (decide (S n < length (above after l))%nat); [done|]. rewrite take_ge in Hn by lia. done. }
  destruct (lookup_lt_is_Some_2 (above after l) n) as [x Hx]; [lia|]. exists x. split.
  - apply (list_elem_of_lookup_2 _ n). by rewrite lookup_take_lt by lia.
  - pose proof (sorted_index (above after l) after n x (above_sorted after l Hs)) as H.
    assert (Forall (fun m => after < conversation_seq m) (above after l)) as Hf
      by (apply Forall_forall; by intros y [? _]%list_elem_of_filter).
    specialize (H Hf Hx). lia.
Qed.

(** ** Catching up *)

(** What a client that started at [after] holds at [last]. *)
Record synced (c : string) (l : list Message) (after : Z) (items : list SyncSliceItem) (last : Z) : Prop := {
  synced_from : after <= last;
  synced_contiguous : item_seq <$> items = seqZ (after + 1) (last - after);
  synced_complete m : m ∈ l -> after < conversation_seq m <= last -> message_to_sync_item m ∈ items;
  synced_sound i : i ∈ items ->
    (exists m, m ∈ l /\ i = message_to_sync_item m) \/
    (i = tombstone c (item_seq i) /\ forall m, m ∈ l -> conversation_seq m <> item_seq i);
}.

Lemma synced_app c l a b d xs ys : synced c l a xs b -> synced c l b ys d -> synced c l a (xs ++ ys) d.
Proof.
  intros [F1 C1 P1 S1] [F2 C2 P2 S2]. split.
  - lia.
  - rewrite fmap_app, C1, C2. replace (d - a) with ((b - a) + (d - b)) by lia.
    rewrite seqZ_app by lia. by replace (a + 1 + (b - a)) with (b + 1) by lia.
  - intros m Hm Hr. apply elem_of_app. destruct (decide (conversation_seq m <= b)); [left; apply P1|right; apply P2]; auto; lia.
  - intros i [H|H]%elem_of_app; auto.
Qed.

Lemma message_item_seq m : item_seq (message_to_sync_item m) = conversation_seq m.
Proof. done. Qed.

Lemma as_i64_small z : z <= i64_max -> as_i64 z = z.
Proof. intros H. unfold as_i64. by rewrite (proj2 (Z.leb_le _ _)). Qed.

Lemma as_u64_small z : 0 <= z <= i64_max -> as_u64 z = z.
Proof. intros H. unfold as_u64. apply Z.mod_small. unfold i64_max in H. lia. Qed.

Section CatchUp.
Context (storage : StorageReadPort) (ctx : Ctx) (user c : string) (l : list Message).
Context `{!ReadsConversation storage ctx user c l}.
Context (limit : Z) (Hlimit : 1 <= limit <= 500).

(** The last number anyone knows of: that of the head or of a message. *)
Definition last_number : Z :=
  Z.max (match port_message_head storage ctx c with Ok h => h | Err _ => 0 end) (max_of (conversation_seq <$> l) 0).

Context (Hroom : last_number + 501 <= i64_max).

Lemma below_last m : m ∈ l -> conversation_seq m <= last_number.
Proof.
  intros Hm. destruct (max_of_ge (conversation_seq <$> l) 0) as [_ H]. rewrite Forall_forall in H.
  specialize (H (conversation_seq m)). unfold last_number.
  assert (conversation_seq m ∈ conversation_seq <$> l) by (by apply list_elem_of_fmap_2). specialize (H H0). lia.
Qed.

Lemma head_bounds after : 0 <= after ->
  after <= conversation_head_max_seq storage ctx c after <= Z.max last_number after.
Proof.
  intros Ha. unfold conversation_head_max_seq, last_number.
  pose proof (proj1 (max_of_ge (conversation_seq <$> l) 0)). destruct (port_message_head storage ctx c); lia.
Qed.

(** *** One page *)

Section OnePage.
Context (after : Z) (Ha : 0 <= after) (Hb : after + 501 <= i64_max).

(** The head and the messages the page is made of. *)
Abbreviation h := (conversation_head_max_seq storage ctx c after).
Abbreviation ms := (take (Z.to_nat (limit + 1)) (above after l)).
Abbreviation p := (build_contiguous_sync_items c after limit ms h).

Lemma page_room : after + Z.max limit 1 <= u64_max.
Proof. unfold u64_max, i64_max in *. lia. Qed.

Lemma fetched_ordered : by_number ms.
Proof. apply take_by_number, above_sorted, reads_ordered. Qed.

Lemma fetched_sub m : m ∈ ms -> m ∈ l /\ after < conversation_seq m.
Proof. intros (i & Hm & _)%elem_of_take. apply list_elem_of_lookup_2, list_elem_of_filter in Hm. naive_solver. Qed.

Lemma fetched_next m : m ∈ l -> after < conversation_seq m <= after + limit -> m ∈ ms.
Proof. intros Hm Hr. apply in_first_page; [apply reads_ordered|done|lia]. Qed.

Lemma fetched_known m : m ∈ ms -> conversation_seq m <= known_max after h ms.
Proof.
  intros Hm. destruct (max_of_ge (conversation_seq <$> ms) after) as [_ H]. rewrite Forall_forall in H.
  specialize (H (conversation_seq m)). unfold known_max. rewrite list_elem_of_fmap in H.
  assert (conversation_seq m <= max_of (conversation_seq <$> ms) after) by (apply H; eauto). lia.
Qed.

Lemma known_last : known_max after h ms <= Z.max last_number after.
Proof.
  pose proof (head_bounds after Ha). unfold known_max.
  enough (max_of (conversation_seq <$> ms) after <= Z.max last_number after) by lia.
  apply max_of_le; [lia|]. apply Forall_forall. intros s (m & -> & Hm)%list_elem_of_fmap.
  pose proof (below_last m (proj1 (fetched_sub m Hm))). lia.
Qed.

Lemma page_synced : synced c l after (page_items p) (page_max_seq p).
Proof.
  pose proof (page_bounds c after limit h ms page_room) as P.
  pose proof (page_contiguous c after limit h ms page_room) as Q. split.
  - lia.
  - exact Q.
  - intros m Hm Hr. apply page_holds; [apply page_room|apply NoDup_by_number, fetched_ordered| |done].
    apply fetched_next; [done|lia].
  - intros i Hi. destruct (page_item c after limit h ms page_room i Hi) as [(m & Hm & ->)|[E Hno]].
    + left. exists m. split; [by apply fetched_sub|done].
    + right. split; [exact E|]. intros m Hm Es. apply (Hno m); [|apply NoDup_by_number, fetched_ordered|done].
      assert (Hin : item_seq i ∈ seqZ (after + 1) (page_max_seq p - after)).
      { rewrite <- Q. by apply list_elem_of_fmap_2. }
      apply elem_of_seqZ in Hin. apply fetched_next; [done|lia].
Qed.

(** There is more exactly when something known lies beyond; otherwise no message is missed. *)
Lemma page_more :
  if page_has_more p then after < page_max_seq p < last_number
  else forall m, m ∈ l -> conversation_seq m <= Z.max after (page_max_seq p).
Proof.
  destruct (page_unfold c after limit h ms page_room) as (-> & _ & ->).
  pose proof known_last as Hk. unfold page_end.
  destruct (Z.ltb_spec (Z.min (known_max after h ms) (after + Z.max limit 1)) (known_max after h ms)) as [Hlt|Hge]; [lia|].
  intros m Hm. destruct (decide (conversation_seq m <= known_max after h ms)) as [|Hbig]; [lia|].
  assert (Hi : m ∉ ms) by (intros Hi%fetched_known; lia).
  assert (Hma : after < conversation_seq m) by (unfold known_max in Hbig; lia).
  replace (Z.to_nat (limit + 1)) with (S (Z.to_nat limit)) in Hi by lia.
  destruct (full_page_beyond l after (Z.to_nat limit) m) as (x & Hx & Hxs); [apply reads_ordered| |done|].
  { by apply list_elem_of_filter. }
  replace (S (Z.to_nat limit)) with (Z.to_nat (limit + 1)) in Hx by lia.
  pose proof (fetched_known x Hx). lia.
Qed.

Lemma catch_up_page_run cursor :
  after <> 0 \/ Str.is_blank cursor = false -> catch_up_page storage ctx user c cursor after limit = Ok p.
Proof.
  intros Hc. unfold catch_up_page. rewrite as_i64_small by (unfold i64_max in *; lia).
  assert (Hcold : cold_start_tail_after_seq after cursor h limit = None).
  { unfold cold_start_tail_after_seq. destruct Hc as [Hc|Hc]; [by rewrite bool_decide_true|].
    by rewrite Hc, orb_true_r. }
  rewrite Hcold. cbn [default]. rewrite as_i64_small by (unfold i64_max in *; lia).
  rewrite reads_after by lia. cbn. pose proof (head_bounds after Ha).
  by rewrite as_u64_small by (unfold i64_max in *; lia).
Qed.

End OnePage.

(** *** All pages *)

Lemma catch_up_all fuel cursor after sync :
  (forall after cursor, sync after cursor = catch_up_page storage ctx user c cursor after limit) ->
  0 <= after -> after + 501 <= i64_max -> after <> 0 \/ Str.is_blank cursor = false ->
  (Z.to_nat (last_number - after) < fuel)%nat ->
  exists items last, catch_up fuel sync after cursor = Some (Ok (items, last)) /\
    synced c l after items last /\ forall m, m ∈ l -> conversation_seq m <= Z.max after last.
Proof.
  intros Hsync. revert after cursor. induction fuel as [|fuel IH]; intros after cursor Ha Hb Hc Hf; [lia|].
  cbn [catch_up]. rewrite Hsync, catch_up_page_run by done.
  pose proof (page_synced after Hb) as Hs. pose proof (page_more after Ha Hb) as Hm.
  set (p := build_contiguous_sync_items _ _ _ _ _) in *.
  destruct (page_has_more p) eqn:Ep; [|by exists (page_items p), (page_max_seq p)].
  destruct (IH (page_max_seq p) (page_next_cursor p)) as (items & last & -> & Hs' & Hm'); [lia..|].
  exists (page_items p ++ items), last. split; [done|]. split; [by eapply synced_app|].
  intros m Hl. specialize (Hm' m Hl). pose proof (synced_from _ _ _ _ _ Hs'). lia.
Qed.

End CatchUp.

(** ** History *)

Lemma lastn_more {A} n (l : list A) : (n < length l)%nat -> lastn n (lastn (S n) l) = lastn n l.
Proof.
  intros H. unfold lastn. rewrite length_drop, drop_drop. f_equal. lia.
Qed.

Lemma lastn_all {A} n (l : list A) : (length l <= n)%nat -> lastn n l = l.
Proof. intros H. unfold lastn. by replace (length l - n)%nat with 0%nat by lia. Qed.

Lemma below_sorted before l : by_number l -> by_number (below before l).
Proof. intros H. eapply StronglySorted_sublist; [apply sublist_filter|exact H]. Qed.

Lemma below_prefix (l1 l2 : list Message) x :
  by_number (l1 ++ x :: l2) -> below (conversation_seq x) (l1 ++ x :: l2) = l1.
Proof.
  intros Hs. unfold by_number in Hs. apply StronglySorted_app in Hs as (H12 & _ & H2). apply StronglySorted_inv in H2 as [_ H2].
  unfold below. rewrite filter_app, filter_cons, decide_False by lia.
  rewrite Slices.filter_all, Slices.filter_none, app_nil_r; [done| |].
  - intros y Hy. rewrite Forall_forall in H2. specialize (H2 y Hy). lia.
  - intros y Hy. apply H12; [done|left].
Qed.

Lemma below_below a b l : a <= b -> below a (below b l) = below a l.
Proof.
  intros H. unfold below. rewrite list_filter_filter. apply list_filter_iff. intros m. lia.
Qed.

Section History.
Context (storage : StorageReadPort) (ctx : Ctx) (user c : string) (l : list Message).
Context `{!ReadsConversation storage ctx user c l}.
Context (limit : Z) (Hlimit : 1 <= limit <= 500).

Lemma backfill_page_run before : 0 < before <= i64_max ->
  backfill_page storage ctx user c before limit =
    Ok (build_backfill_sync_items (lastn (Z.to_nat limit) (below before l)) (limit <? Z.of_nat (length (below before l)))).
Proof.
  intros Hb. unfold backfill_page. rewrite as_i64_small, reads_before by lia. cbn.
  set (b := below before l). replace (Z.to_nat (limit + 1)) with (S (Z.to_nat limit)) by lia.
  assert (Hlen : length (lastn (S (Z.to_nat limit)) b) = Nat.min (S (Z.to_nat limit)) (length b)).
  { unfold lastn. rewrite length_drop. lia. }
  destruct (Z.ltb_spec limit (Z.of_nat (length b))) as [Hm|Hm].
  - rewrite (proj2 (Z.ltb_lt _ _)) by lia. f_equal. f_equal.
    etrans; [|apply (lastn_more (Z.to_nat limit) b); lia]. done.
  - rewrite (proj2 (Z.ltb_ge _ _)) by lia. by rewrite !lastn_all by lia.
Qed.

Lemma history_all fuel before sync :
  (forall before, 0 < before -> sync before = backfill_page storage ctx user c before limit) ->
  0 < before <= i64_max -> (length (below before l) < fuel)%nat ->
  history fuel sync before = Some (Ok (message_to_sync_item <$> below before l)).
Proof.
  intros Hsync. revert before. induction fuel as [|fuel IH]; intros before Hb Hf; [lia|].
  cbn [history]. rewrite Hsync, backfill_page_run by lia. unfold build_backfill_sync_items. cbn [page_has_more page_items].
  set (b := below before l) in *. destruct (Z.ltb_spec limit (Z.of_nat (length b))) as [Hm|Hm]; [|by rewrite lastn_all by lia].
  set (k := (length b - Z.to_nat limit)%nat).
  assert (Hsplit : b = take k b ++ lastn (Z.to_nat limit) b) by (symmetry; apply take_drop).
  destruct (lastn (Z.to_nat limit) b) as [|x rest] eqn:Ex.
  { apply (f_equal length) in Ex. unfold lastn in Ex. rewrite length_drop in Ex. cbn in Ex. lia. }
  cbn [fmap list_fmap head].
  change (item_seq (message_to_sync_item x)) with (conversation_seq x).
  assert (Hx : x ∈ b) by (rewrite Hsplit; apply elem_of_app; right; left).
  assert (Hxb : conversation_seq x < before /\ x ∈ l) by (by apply list_elem_of_filter in Hx).
  assert (Hpos : 0 < conversation_seq x).
  { pose proof (@reads_positive storage ctx user c l _) as Hp. rewrite Forall_forall in Hp. apply Hp, Hxb. }
  assert (Hrest : below (conversation_seq x) l = take k b).
  { rewrite <- (below_below _ before) by lia. fold b. rewrite Hsplit at 1. apply below_prefix.
    rewrite <- Hsplit. apply below_sorted, reads_ordered. }
  rewrite IH; [|lia|].
  - rewrite Hrest. f_equal. f_equal. etrans; [|exact (f_equal (fmap message_to_sync_item) (eq_sym Hsplit))].
    by rewrite fmap_app.
  - rewrite Hrest, length_take. unfold k. lia.
Qed.

End History.

(** ** Through the handler *)

Section Requests.
Context (convs : ConversationSyncPort) (storage : StorageReadPort) (ctx : Ctx) (user c : string) (limit : Z).

(** What the handler answers to a position, and to a number history is read before. *)
Definition sync_after (after : Z) (cursor : string) : result ContiguousSyncPage :=
  res ← single_conversation_sync convs storage ctx user (mkSingle c after 0 limit cursor); Ok (res_page res).

Definition sync_before (before : Z) : result ContiguousSyncPage :=
  res ← single_conversation_sync convs storage ctx user (mkSingle c 0 before limit ""); Ok (res_page res).

Context (Hc : Str.is_blank c = false) (Hauth : authorize_conversation_sync_read convs ctx user c = Ok false).

Lemma sync_after_page after cursor : sync_after after cursor = catch_up_page storage ctx user c cursor after (clamp limit 1 500).
Proof.
  unfold sync_after, single_conversation_sync, require_nonempty_conversation_id. cbn. rewrite Hc. cbn. rewrite Hauth. cbn.
  by destruct (catch_up_page _ _ _ _ _ _ _).
Qed.

Lemma sync_before_page before : 0 < before -> sync_before before = backfill_page storage ctx user c before (clamp limit 1 500).
Proof.
  intros Hb. unfold sync_before, single_conversation_sync, require_nonempty_conversation_id. cbn. rewrite Hc. cbn.
  rewrite Hauth. cbn. rewrite (proj2 (Z.ltb_lt 0 before) Hb). by destruct (backfill_page _ _ _ _ _ _).
Qed.

End Requests.

Lemma clamp_range z lo hi : lo <= hi -> lo <= clamp z lo hi <= hi.
Proof. unfold clamp. lia. Qed.

(** ** The tail of a cold start *)

Section ColdStart.
Context (storage : StorageReadPort) (ctx : Ctx) (user c : string) (l : list Message).
Context `{!ReadsConversation storage ctx user c l}.
Context (limit : Z) (Hlimit : 1 <= limit <= 500) (h : Z) (Hhead : port_message_head storage ctx c = Ok h).
Context (Hlong : limit < h <= i64_max).

Lemma cold_start_run :
  catch_up_page storage ctx user c "" 0 limit =
    Ok (build_tail_sync_items (take (Z.to_nat (limit + 1)) (above (h - limit) l)) h).
Proof.
  unfold catch_up_page, conversation_head_max_seq. rewrite Hhead. change (as_i64 0) with 0.
  replace (Z.max (Z.max h 0) 0) with h by lia.
  assert (Hcold : cold_start_tail_after_seq 0 "" h limit = Some (h - limit)).
  { unfold cold_start_tail_after_seq. rewrite bool_decide_false by lia. cbn [orb negb].
    change (Str.is_blank "") with true. cbn [negb orb].
    rewrite (proj2 (Z.leb_gt _ _)) by lia. f_equal. lia. }
  rewrite Hcold. cbn [default]. unfold from_option, id. rewrite as_i64_small, reads_after by lia. cbn.
  by rewrite as_u64_small by lia.
Qed.

(** The position it hands out is honest: no message between the tail's start and it is missing. *)
Lemma tail_complete m :
  let p := build_tail_sync_items (take (Z.to_nat (limit + 1)) (above (h - limit) l)) h in
  m ∈ l -> h - limit < conversation_seq m <= page_max_seq p ->
  m ∈ take (Z.to_nat (limit + 1)) (above (h - limit) l).
Proof.
  set (ms := take _ _). cbn zeta. intros Hm Hr. unfold build_tail_sync_items in Hr. cbn [page_max_seq] in Hr.
  pose proof (@reads_ordered storage ctx user c l _) as Hs.
  destruct (decide (conversation_seq m <= h)); [apply in_first_page; [exact Hs|exact Hm|lia]|].
  assert (Hin : m ∈ above (h - limit) l) by (apply list_elem_of_filter; split; [lia|done]).
  apply list_elem_of_lookup_1 in Hin as [i Hi]. destruct (decide (i < Z.to_nat (limit + 1))%nat) as [Hlt|Hge].
  { apply (list_elem_of_lookup_2 _ i). unfold ms. by rewrite lookup_take_lt. }
  exfalso. enough (max_of (conversation_seq <$> ms) 0 < conversation_seq m) by lia.
  enough (max_of (conversation_seq <$> ms) 0 <= conversation_seq m - 1) by lia.
  apply max_of_le; [lia|]. apply Forall_forall. intros s (x & -> & Hx)%list_elem_of_fmap.
  apply elem_of_take in Hx as (j & Hj & Hjl).
  enough (conversation_seq x < conversation_seq m) by lia.
  apply (sorted_lookup (above (h - limit) l) j i x m); [by apply above_sorted|done..|lia].
Qed.

End ColdStart.
