(* ===== verification/SyncReader.v ===== *)
(** * The storage reader serves a sync

    The queries of [StorageReader] answer the reads of a sync as [ReadsConversation]
    asks, from the rows above the member's floor; a sync shows a member nothing below it
    and nothing hidden from them. *)

From S2P Require Import Prelude.
From S2P Require Import Slices.
From S2P Require Import Tenant.
From S2P Require Import ConversationStore.
From S2P Require Import StorageReader.
From S2P Require Import Submission.
From S2P Require Import Proto.
From S2P Require Import Retention.
From S2P Require Import SyncPages.
From S2P Require Import SyncOrchestrator.
From S2P Require Import SyncCatchUp.
From stdpp Require Import base gmap list strings sorting.
From Stdlib Require Import Lia ZArith Sorted.

Local Open Scope Z_scope.

#[export] Instance seq_le_total : TotalPreorder seq_le.
Proof. split; intros *; unfold seq_le; rewrite ?Z.leb_le; lia. Qed.

#[export] Instance seq_ge_total : TotalPreorder seq_ge.
Proof. split; intros *; unfold seq_ge; rewrite ?Z.leb_le; lia. Qed.

(** No two rows of a conversation have one number. *)
Definition numbered (rows : list ReaderRow) : Prop := NoDup (row_seq <$> rows).

Lemma numbered_antisym rows : numbered rows ->
  forall a b, a ∈ rows -> b ∈ rows -> seq_le a b = true -> seq_le b a = true -> a = b.
Proof.
  intros Hn a b Ha Hb. unfold seq_le. rewrite !Z.leb_le. intros H1 H2.
  apply (NoDup_key_inj row_seq rows); [done..|]. lia.
Qed.

Lemma numbered_filter (P : ReaderRow -> Prop) `{!forall x, Decision (P x)} rows : numbered rows -> numbered (filter P rows).
Proof. intros Hn. eapply sublist_NoDup; [exact Hn|]. apply fmap_sublist, sublist_filter. Qed.

Lemma sorted_strictly rows : numbered rows -> StronglySorted (fun a b => row_seq a < row_seq b) (sort_by seq_le rows).
Proof.
  intros Hn. apply sorted_key_strictly; [unfold numbered in Hn; by rewrite sort_by_perm|].
  eapply StronglySorted_impl, sort_by_sorted; [|apply _]. intros a b. apply Z.leb_le.
Qed.

(** ** Reading a row *)

Section View.
Context (db : Tables) (now : Z) (tenant c user : string) (ctx : Ctx).

(** The message a row reads as; it is never held back. *)
Definition read_row (r : ReaderRow) : Message :=
  row_to_message db tenant now unselected_burn r (project db tenant user r).

Lemma read_row_visible include r : apply_burn_query_visibility include (read_row r) = Some (read_row r).
Proof. done. Qed.

Lemma read_rows_all include rows : read_rows db now tenant (Some user) include rows = read_row <$> rows.
Proof. unfold read_rows. induction rows as [|r rows IH]; cbn; [done|]. by rewrite IH. Qed.

(** The pin of a message on a page that holds it. *)
Definition with_pin (m : Message) : Message :=
  with_attributes m
    (if pinned_for db tenant (default "" (ctx_user_id ctx)) now [c] (server_id m)
     then <["pinned" := "true"]> (attributes m) else delete "pinned" (attributes m)).

Definition trimmed_id (r : ReaderRow) : Prop :=
  Str.trim (server_id (row_message r)) = server_id (row_message r) /\ Str.is_empty (server_id (row_message r)) = false.

Lemma read_row_id r : server_id (read_row r) = server_id (row_message r).
Proof. done. Qed.

Lemma pin_flags_all rows : Forall trimmed_id rows ->
  apply_pin_flags db tenant (default "" (ctx_user_id ctx)) now [c] (read_row <$> rows) = with_pin ∘ read_row <$> rows.
Proof.
  intros Ht. unfold apply_pin_flags. rewrite list_fmap_compose. apply list_fmap_ext.
  intros i m Hm. apply list_lookup_fmap_Some_1 in Hm as (r & -> & Hr). apply list_elem_of_lookup_2 in Hr.
  rewrite Forall_forall in Ht. destruct (Ht r Hr) as [Ht1 Ht2].
  assert (Hin : server_id (read_row r) ∈ pin_lookup_ids (read_row <$> rows)).
  { apply list_elem_of_filter. split; [done|]. apply list_elem_of_fmap. exists (read_row r).
    split; [by rewrite read_row_id, Ht1|]. by apply list_elem_of_fmap_2. }
  unfold apply_pin_flag, with_pin. rewrite bool_decide_true by done.
  destruct (pin_lookup_ids _); [by apply not_elem_of_nil in Hin|done].
Qed.

End View.

(** ** The reads of a sync *)

Lemma fmap_lastn {A B} (f : A -> B) n l : f <$> lastn n l = lastn n (f <$> l).
Proof. unfold lastn. by rewrite fmap_drop, length_fmap. Qed.

Lemma cut_fmap {A B} (f : A -> B) tail limit l : cut_overflow tail limit (f <$> l) = f <$> cut_overflow tail limit l.
Proof.
  unfold cut_overflow. rewrite length_fmap. destruct (_ <? _); [|done].
  by destruct tail; rewrite ?fmap_drop, ?fmap_take.
Qed.

Lemma cut_forward {A} limit (l : list A) : 0 < limit ->
  cut_overflow false limit (take (Z.to_nat (limit + 1)) l) = take (Z.to_nat limit) l.
Proof.
  intros Hl. unfold cut_overflow. rewrite length_take.
  destruct (Z.ltb_spec limit (Z.of_nat (Nat.min (Z.to_nat (limit + 1)) (length l)))).
  - rewrite take_take. f_equal. lia.
  - by rewrite !take_ge by lia.
Qed.

Lemma cut_backward {A} limit (l : list A) : 0 < limit ->
  cut_overflow true limit (lastn (Z.to_nat (limit + 1)) l) = lastn (Z.to_nat limit) l.
Proof.
  intros Hl. unfold cut_overflow, lastn. rewrite length_drop.
  destruct (Z.ltb_spec limit (Z.of_nat (length l - (length l - Z.to_nat (limit + 1))))).
  - rewrite drop_drop. f_equal. lia.
  - f_equal. lia.
Qed.

(** A change of how a message reads that keeps its id, its number and whether it is skipped. *)
Class Cosmetic (f : Ctx -> Message -> Message) : Prop := {
  cosmetic_id ctx m : server_id (f ctx m) = server_id m;
  cosmetic_seq ctx m : conversation_seq (f ctx m) = conversation_seq m;
  cosmetic_skip ctx m : skip_reason (f ctx m) = skip_reason m;
}.

Section Serves.
Context (db : Tables) (now : Z) (mark protect : Ctx -> Message -> Message).
Context `{!Cosmetic mark, !Cosmetic protect}.
Context (ctx : Ctx) (tenant c user : string).
Context (Htenant : reader_tenant ctx = Ok tenant) (Huser : bound_read_user ctx user = Ok (Some user)).

Abbreviation rows := (conversation_rows db tenant c).
Abbreviation floor := (visible_from_seq db tenant c user).
Abbreviation port := (reader_port db None now (fun ctx l => mark ctx <$> l) (fun ctx l => protect ctx <$> l)).

Context (Hnumbered : numbered rows) (Htrim : Forall trimmed_id rows) (Hpos : Forall (fun r => 0 < row_seq r) rows).

(** The rows the member may see, in order, and what they read as. *)
Definition member_rows : list ReaderRow := sort_by seq_le (rows_between floor None rows).

Definition shown (r : ReaderRow) : Message :=
  protect ctx (mark ctx (with_pin db now tenant c ctx (read_row db now tenant user r))).

Definition member_view : list Message := shown <$> member_rows.

Lemma shown_seq r : conversation_seq (shown r) = row_seq r.
Proof. unfold shown. by rewrite !cosmetic_seq. Qed.

Lemma elem_rows_between low before l r : r ∈ rows_between low before l <-> seq_between low before (row_seq r) = true /\ r ∈ l.
Proof. unfold rows_between. by rewrite list_elem_of_filter. Qed.

Lemma elem_member_rows r : r ∈ member_rows <-> floor < row_seq r /\ r ∈ rows.
Proof.
  unfold member_rows. rewrite elem_of_sort_by, elem_rows_between. unfold seq_between.
  rewrite andb_true_r, Z.ltb_lt. done.
Qed.

Lemma numbered_between low before : numbered (rows_between low before rows).
Proof. by apply numbered_filter. Qed.

(** The rows of a query are chosen among those of the member. *)
Lemma rows_between_member low before : floor <= low ->
  sort_by seq_le (rows_between low before rows) = filter (fun r => seq_between low before (row_seq r) = true) member_rows.
Proof.
  intros Hl. unfold member_rows. rewrite <- sort_by_filter by first [apply _|apply numbered_antisym, numbered_between].
  f_equal. unfold rows_between. rewrite list_filter_filter. apply list_filter_iff. intros r.
  unfold seq_between. rewrite !andb_true_iff, !Z.ltb_lt. intuition lia.
Qed.

Lemma above_view after : above after member_view = shown <$> filter (fun r => seq_between after None (row_seq r) = true) member_rows.
Proof.
  unfold above, member_view. rewrite filter_fmap_comm. f_equal. apply list_filter_iff. intros r.
  rewrite shown_seq. unfold seq_between. rewrite andb_true_r, Z.ltb_lt. done.
Qed.

Lemma below_view before : below before member_view = shown <$> filter (fun r => seq_between 0 (Some before) (row_seq r) = true) member_rows.
Proof.
  unfold below, member_view. rewrite filter_fmap_comm. f_equal. apply Slices.filter_ext_in. intros r [_ Hr]%elem_member_rows.
  rewrite shown_seq. unfold seq_between. rewrite andb_true_iff, !Z.ltb_lt. rewrite Forall_forall in Hpos. specialize (Hpos r Hr). intuition lia.
Qed.

Lemma Forall_take_rows n (l : list ReaderRow) : (forall r, r ∈ l -> r ∈ rows) -> Forall trimmed_id (take n l).
Proof.
  intros Hl. apply Forall_forall. intros r (i & Hr & _)%elem_of_take. rewrite Forall_forall in Htrim.
  apply Htrim, Hl. by apply list_elem_of_lookup_2 in Hr.
Qed.

Lemma store_after after limit : 0 < limit < 1000 ->
  store_messages_by_seq db None now ctx c (Some user) after None limit false =
  Ok (with_pin db now tenant c ctx ∘ read_row db now tenant user <$>
      take (Z.to_nat limit) (filter (fun r => seq_between after None (row_seq r) = true) member_rows)).
Proof.
  intros Hl. unfold store_messages_by_seq. rewrite Htenant. cbn -[sort_by take read_rows apply_pin_flags].
  replace (clamp limit 1 1000) with limit by (unfold clamp; lia).
  replace (is_backfill_tail_page after None) with false by (unfold is_backfill_tail_page; by rewrite andb_false_r).
  rewrite rows_between_member, read_rows_all by lia. rewrite pin_flags_all.
  - do 3 f_equal. apply Slices.filter_ext_in. intros r [Hf _]%elem_member_rows.
    unfold seq_between. rewrite !andb_true_r, !Z.ltb_lt. lia.
  - apply Forall_take_rows. intros r [_ [_ Hr]%elem_member_rows]%list_elem_of_filter. done.
Qed.

Lemma store_before before limit : 0 <= floor -> 0 < limit < 1000 ->
  store_messages_by_seq db None now ctx c (Some user) 0 (Some before) limit false =
  Ok (with_pin db now tenant c ctx ∘ read_row db now tenant user <$>
      lastn (Z.to_nat limit) (filter (fun r => seq_between 0 (Some before) (row_seq r) = true) member_rows)).
Proof.
  intros Hfl Hl. unfold store_messages_by_seq. rewrite Htenant. cbn -[sort_by take read_rows apply_pin_flags].
  replace (clamp limit 1 1000) with limit by (unfold clamp; lia).
  change (is_backfill_tail_page 0 (Some before)) with true. cbn iota.
  rewrite (sort_by_converse seq_le seq_ge) by first [apply _|done|apply numbered_antisym, numbered_between].
  rewrite Z.max_r by lia. rewrite rows_between_member by lia.
  assert (Hf : filter (fun r => seq_between floor (Some before) (row_seq r) = true) member_rows
             = filter (fun r => seq_between 0 (Some before) (row_seq r) = true) member_rows).
  { apply Slices.filter_ext_in. intros r [Hf _]%elem_member_rows. unfold seq_between. rewrite !andb_true_iff, !Z.ltb_lt. intuition lia. }
  rewrite Hf. set (l := filter _ member_rows).
  rewrite read_rows_all, <- fmap_reverse. unfold lastn.
  replace (reverse (take (Z.to_nat limit) (reverse l))) with (drop (length l - Z.to_nat limit) l).
  2:{ rewrite take_reverse, reverse_involutive. done. }
  rewrite pin_flags_all; [done|]. apply Forall_forall. intros r Hr. rewrite Forall_forall in Htrim.
  assert (Hin : r ∈ l) by (rewrite <- (take_drop (length l - Z.to_nat limit) l); apply elem_of_app; by right).
  by apply Htrim; apply list_elem_of_filter in Hin as [_ [_ Hin]%elem_member_rows].
Qed.

Lemma view_ordered : by_number member_view.
Proof.
  unfold by_number, member_view, member_rows.
  induction (sorted_strictly _ (numbered_between floor None)) as [|x l Hl IH Hx]; [constructor|]. cbn.
  constructor; [exact IH|]. apply Forall_fmap, Forall_forall. intros y Hy. cbn. rewrite !shown_seq.
  by apply (proj1 (Forall_forall _ _) Hx).
Qed.

(** The reader answers a sync from the view of the member. *)
Lemma reader_reads : 0 <= floor -> ReadsConversation port ctx user c member_view.
Proof.
  intros Hf. split.
  - apply view_ordered.
  - apply Forall_fmap, Forall_forall. intros r [_ Hr]%elem_member_rows. cbn. rewrite shown_seq.
    by apply (proj1 (Forall_forall _ _) Hpos).
  - intros after limit Ha Hl. cbn [port_messages_by_seq reader_port]. unfold StorageReader.query_messages_by_seq.
    rewrite Huser. cbn -[take store_messages_by_seq cut_overflow]. replace (Z.max limit 1) with limit by lia.
    rewrite store_after by lia. cbn -[take cut_overflow]. rewrite above_view.
    rewrite (bool_decide_true (0 = 0)) by done.
    replace (is_backfill_tail_page after None) with false by (unfold is_backfill_tail_page; by rewrite andb_false_r).
    rewrite <- list_fmap_compose, cut_fmap, cut_forward, <- list_fmap_compose by lia. by rewrite fmap_take.
  - intros before limit Hb Hl. cbn [port_messages_by_seq reader_port]. unfold StorageReader.query_messages_by_seq.
    rewrite Huser, bool_decide_false by lia. cbn -[take store_messages_by_seq cut_overflow].
    replace (Z.max limit 1) with limit by lia. rewrite store_before by lia. cbn -[take cut_overflow].
    rewrite below_view, <- list_fmap_compose, cut_fmap, cut_backward, <- list_fmap_compose by lia. by rewrite fmap_lastn.
Qed.

End Serves.

(** Numbers below a point, then numbers from it on, ascend. *)
Lemma numbers_sorted x k l : by_number l ->
  StronglySorted Z.lt ((item_seq ∘ message_to_sync_item <$> below (x + 1) l) ++
                       (item_seq ∘ message_to_sync_item <$> take k (above x l))).
Proof.
  intros Hs. apply StronglySorted_app. split_and!.
  - intros a b (m & -> & Hm)%list_elem_of_fmap (y & -> & Hy)%list_elem_of_fmap.
    apply list_elem_of_filter in Hm as [Hm _]. apply elem_of_take in Hy as (j & Hy & _).
    apply list_elem_of_lookup_2, list_elem_of_filter in Hy as [Hy _]. cbn. lia.
  - apply StronglySorted_key. by apply below_sorted.
  - apply StronglySorted_key. by apply take_by_number, above_sorted.
Qed.

(** ** What a member gets *)

Section Member.
Context (convs : ConversationSyncPort) (db : Tables) (now : Z) (mark protect : Ctx -> Message -> Message).
Context `{!Cosmetic mark, !Cosmetic protect}.
Context (ctx : Ctx) (tenant c user : string) (limit : Z).
Context (Htenant : reader_tenant ctx = Ok tenant) (Huser : bound_read_user ctx user = Ok (Some user)).
Context (Hc : Str.is_blank c = false) (Hauth : authorize_conversation_sync_read convs ctx user c = Ok false).

Abbreviation rows := (conversation_rows db tenant c).
Abbreviation floor := (visible_from_seq db tenant c user).
Abbreviation port := (reader_port db None now (fun ctx l => mark ctx <$> l) (fun ctx l => protect ctx <$> l)).
Abbreviation view := (member_view db now mark protect ctx tenant c user).
Abbreviation item := (fun r => message_to_sync_item (shown db now mark protect ctx tenant c user r)).

Context (Hnumbered : numbered rows) (Htrim : Forall trimmed_id rows) (Hpos : Forall (fun r => 0 < row_seq r) rows).
Context (Hfloor : 0 <= floor) (Hroom : last_number port ctx c view + 501 <= i64_max).

Lemma view_elem m : m ∈ view <-> exists r, r ∈ rows /\ floor < row_seq r /\ m = shown db now mark protect ctx tenant c user r.
Proof. unfold member_view. rewrite list_elem_of_fmap. setoid_rewrite elem_member_rows. naive_solver. Qed.

Lemma below_view_length x : (length (below x view) <= length rows)%nat.
Proof.
  unfold below, member_view, member_rows. etrans; [apply sublist_length, sublist_filter|].
  rewrite length_fmap, sort_by_length. apply sublist_length, sublist_filter.
Qed.

(** C9. A member who asks for page after page from a position, not 0 unless a cursor is given (a
    client that starts at 0 without one gets the latest messages only), gets the numbers after
    it without a gap, and every message above the member's floor among them; a number without
    such a message is a tombstone. The pages end. The rows of the conversation are numbered
    from 1, each once, their ids trimmed, and stay the same while the pages are read: a message that is stored late,
    below a number already passed, is not among them. The services answer, and positions
    stay away from the largest number by a page. *)
Theorem catching_up_delivers_every_message after cursor :
  0 <= after -> after + 501 <= i64_max -> after <> 0 \/ Str.is_blank cursor = false ->
  exists items last,
    catch_up (S (Z.to_nat (last_number port ctx c view - after))) (sync_after convs port ctx user c limit) after cursor
      = Some (Ok (items, last)) /\
    item_seq <$> items = seqZ (after + 1) (last - after) /\
    (forall r, r ∈ rows -> floor < row_seq r -> after < row_seq r -> item r ∈ items) /\
    (forall i, i ∈ items ->
       (exists r, r ∈ rows /\ floor < row_seq r /\ i = item r) \/
       (i = tombstone c (item_seq i) /\ forall r, r ∈ rows -> floor < row_seq r -> row_seq r <> item_seq i)).
Proof.
  intros Ha Hb Hcur.
  pose proof (reader_reads db now mark protect ctx tenant c user Htenant Huser Hnumbered Htrim Hpos Hfloor) as Hreads.
  destruct (catch_up_all port ctx user c view (clamp limit 1 500) (clamp_range limit 1 500 ltac:(lia)) Hroom
              (S (Z.to_nat (last_number port ctx c view - after))) cursor after (sync_after convs port ctx user c limit)
              (sync_after_page convs port ctx user c limit Hc Hauth)) as (items & last & Hrun & Hs & Hlast); [lia..|done|lia|].
  exists items, last. split; [exact Hrun|]. split; [apply Hs|]. split.
  - intros r Hr Hf Hra. apply (synced_complete _ _ _ _ _ Hs).
    + apply view_elem. by exists r.
    + rewrite shown_seq by apply _. split; [done|]. specialize (Hlast (shown db now mark protect ctx tenant c user r)).
      rewrite shown_seq in Hlast by apply _. pose proof (synced_from _ _ _ _ _ Hs).
      assert (row_seq r <= Z.max after last) by (apply Hlast, view_elem; by exists r). lia.
  - intros i Hi. destruct (synced_sound _ _ _ _ _ Hs i Hi) as [(m & (r & Hr & Hf & ->)%view_elem & ->)|[E Hno]].
    + left. by exists r.
    + right. split; [exact E|]. intros r Hr Hf Es. apply (Hno (shown db now mark protect ctx tenant c user r)).
      * apply view_elem. by exists r.
      * by rewrite shown_seq by apply _.
Qed.

(** A cold start hands out the last numbers of a long conversation, and the pages of history
    before them hold the rest: together every message above the member's floor up to the
    position of the client, in order and once. *)
Theorem cold_start_and_history_hold_every_message h :
  port_message_head port ctx c = Ok h -> clamp limit 1 500 < h ->
  let start := h - clamp limit 1 500 in
  exists p items,
    sync_after convs port ctx user c limit 0 "" = Ok p /\
    history (S (length rows)) (sync_before convs port ctx user c limit) (start + 1) = Some (Ok items) /\
    h <= page_max_seq p /\
    (forall r, r ∈ rows -> floor < row_seq r -> row_seq r <= page_max_seq p -> item r ∈ items ++ page_items p) /\
    (forall i, i ∈ items ++ page_items p -> exists r, r ∈ rows /\ floor < row_seq r /\ i = item r) /\
    StronglySorted Z.lt (item_seq <$> items ++ page_items p).
Proof.
  intros Hh Hlong start.
  pose proof (reader_reads db now mark protect ctx tenant c user Htenant Huser Hnumbered Htrim Hpos Hfloor) as Hreads.
  pose proof (clamp_range limit 1 500 ltac:(lia)) as Hlim. set (n := clamp limit 1 500) in *.
  assert (Hmax : h <= i64_max) by (unfold last_number in Hroom; rewrite Hh in Hroom; lia).
  eexists _, (message_to_sync_item <$> below (start + 1) view). split.
  { rewrite sync_after_page by done. by apply (cold_start_run port ctx user c view). }
  split.
  { apply (history_all port ctx user c view n); [done|intros; by apply sync_before_page|lia|].
    enough (length (below (start + 1) view) <= length rows)%nat by lia. apply below_view_length. }
  split; [cbn; lia|]. split; [|split].
  - intros r Hr Hf Hp. apply elem_of_app. destruct (decide (row_seq r < start + 1)).
    + left. apply list_elem_of_fmap_2, list_elem_of_filter. rewrite shown_seq by apply _. split; [done|].
      apply view_elem. by exists r.
    + right. apply list_elem_of_fmap_2, (tail_complete port ctx user c view n ltac:(lia) h ltac:(lia)).
      * apply view_elem. by exists r.
      * rewrite shown_seq by apply _. fold start. split; [lia|exact Hp].
  - intros i Hi. enough (exists m, m ∈ view /\ i = message_to_sync_item m) as (m & (r & Hr & Hf & ->)%view_elem & ->) by (by exists r).
    apply elem_of_app in Hi as [Hi|Hi]; apply list_elem_of_fmap in Hi as (m & -> & Hm); exists m; split; try done.
    + by apply list_elem_of_filter in Hm as [_ ?].
    + apply elem_of_take in Hm as (j & Hm & _). by apply list_elem_of_lookup_2, list_elem_of_filter in Hm as [_ ?].
  - rewrite fmap_app. unfold build_tail_sync_items. cbn [page_items]. rewrite <- !list_fmap_compose.
    apply (numbers_sorted start). by apply view_ordered.
Qed.

End Member.

(** ** Nothing else *)

Lemma item_of_message m x : item_payload (message_to_sync_item m) = SliceMessage x -> x = m /\ Str.is_blank (skip_reason m) = true.
Proof. unfold message_to_sync_item. cbn. destruct (Str.is_blank (skip_reason m)); cbn; [by intros [= ->]|done]. Qed.

(** A page shows messages that were read for it, and none that is to be skipped. *)
Lemma mapped_shows (ms : list Message) i x : i ∈ message_to_sync_item <$> ms -> item_payload i = SliceMessage x ->
  x ∈ ms /\ Str.is_blank (skip_reason x) = true.
Proof. intros (m & -> & Hm)%list_elem_of_fmap [-> Hs]%item_of_message. done. Qed.

Lemma contiguous_shows c after limit ms h i x :
  i ∈ page_items (build_contiguous_sync_items c after limit ms h) -> item_payload i = SliceMessage x ->
  x ∈ ms /\ Str.is_blank (skip_reason x) = true.
Proof.
  unfold build_contiguous_sync_items. cbn zeta. destruct (_ <=? after); [by intros ?%not_elem_of_nil|].
  intros (s & -> & _)%list_elem_of_fmap. unfold item_at. destruct (_ !! s) as [m|] eqn:E; [|done].
  apply message_by_seq_some in E as (Hm & _). intros [-> Hs]%item_of_message. done.
Qed.

Lemma skip_with_attributes_pinned m a :
  a !! "__sync_skip" = attributes m !! "__sync_skip" -> skip_reason (with_attributes m a) = skip_reason m.
Proof. intros H. unfold skip_reason. cbn. by rewrite H. Qed.

Lemma pin_flag_skip db tenant uid now cs ids m : skip_reason (apply_pin_flag db tenant uid now cs ids m) = skip_reason m.
Proof.
  unfold apply_pin_flag. destruct ids; [done|]. apply skip_with_attributes_pinned.
  destruct (_ && _); [by rewrite lookup_insert_ne|by rewrite lookup_delete_ne].
Qed.

(** The id, the number and the skip of a message. *)
Definition same_message (a b : Message) : Prop :=
  server_id a = server_id b /\ conversation_seq a = conversation_seq b /\ skip_reason a = skip_reason b.

Lemma pin_flag_same db tenant uid now cs ids m : same_message (apply_pin_flag db tenant uid now cs ids m) m.
Proof. split_and!; [by destruct ids..|apply pin_flag_skip]. Qed.

Lemma cosmetic_same f `{!Cosmetic f} ctx m : same_message (f ctx m) m.
Proof. split_and!; [apply cosmetic_id|apply cosmetic_seq|apply cosmetic_skip]. Qed.

Lemma same_message_trans a b d : same_message a b -> same_message b d -> same_message a d.
Proof. intros (A1 & A2 & A3) (B1 & B2 & B3). split_and!; congruence. Qed.

Lemma extra_map_skip reactions pinned shared extra :
  extra_map reactions pinned shared extra !! "__sync_skip" = extra !! "__sync_skip".
Proof.
  unfold extra_map. set (e := match shared with Some _ => _ | None => _ end).
  assert (He : e !! "__sync_skip" = extra !! "__sync_skip").
  { unfold e, without_shared_keys. destruct shared as [[[v n] t]|]; rewrite ?lookup_insert_ne, ?lookup_delete_ne by done;
      destruct pinned; by rewrite ?lookup_insert_ne by done. }
  destruct (e !! "__sync_skip") as [reason|] eqn:E; [by rewrite lookup_singleton_eq|]. by rewrite E.
Qed.

Lemma hidden_row_skips db now tenant user r :
  hidden_from db tenant user (row_message r) = true -> skip_reason (read_row db now tenant user r) = "visibility_filtered".
Proof.
  intros H. unfold read_row, row_to_message, skip_reason. cbn -[extra_map]. rewrite extra_map_skip, H. reflexivity.
Qed.

(** A message of a query is the row of a number in range, as the user may see it. *)
Lemma store_messages_from db down now ctx c user after before limit include ms m :
  store_messages_by_seq db down now ctx c (Some user) after before limit include = Ok ms -> m ∈ ms ->
  exists tenant r, reader_tenant ctx = Ok tenant /\ r ∈ conversation_rows db tenant c /\
    visible_from_seq db tenant c user < row_seq r /\ same_message m (read_row db now tenant user r).
Proof.
  unfold store_messages_by_seq. destruct (reader_tenant ctx) as [tenant|]; [|done].
  cbn -[sort_by take read_rows apply_pin_flags]. unfold fetch. destruct down; [done|].
  cbn -[sort_by take read_rows apply_pin_flags]. rewrite read_rows_all. intros [= <-] Hm.
  unfold apply_pin_flags in Hm. apply list_elem_of_fmap in Hm as (x & -> & Hx).
  set (low := Z.max after (visible_from_seq db tenant c user)) in *.
  assert (Hr : exists r, x = read_row db now tenant user r /\ r ∈ rows_between low before (conversation_rows db tenant c)).
  { destruct (is_backfill_tail_page after before); rewrite ?elem_of_reverse in Hx;
      apply list_elem_of_fmap in Hx as (r & -> & Hr); exists r; (split; [done|]);
      apply elem_of_take in Hr as (i & Hr & _); apply list_elem_of_lookup_2 in Hr; by apply elem_of_sort_by in Hr. }
  destruct Hr as (r & -> & [Hb Hr]%elem_rows_between). exists tenant, r. split_and!; [done..| |apply pin_flag_same].
  unfold seq_between in Hb. apply andb_true_iff in Hb as [Hb%Z.ltb_lt _]. lia.
Qed.

Lemma elem_of_cut {A} tail limit (l : list A) x : x ∈ cut_overflow tail limit l -> x ∈ l.
Proof.
  unfold cut_overflow. destruct (_ <? _); [|done]. destruct tail; intros Hx.
  - rewrite <- (take_drop (length l - Z.to_nat limit) l). apply elem_of_app. by right.
  - apply elem_of_take in Hx as (i & Hx & _). by apply list_elem_of_lookup_2 in Hx.
Qed.

Lemma authorized convs ctx user c b : authorize_conversation_sync_read convs ctx user c = Ok b ->
  ctx_user_id ctx = Some user /\ Str.is_blank user = false /\ (b = false -> conversation_detail convs ctx c = Ok (Some c)).
Proof.
  unfold authorize_conversation_sync_read. destruct (snapshot_tenant ctx); [|done]. cbn.
  destruct (ctx_user_id ctx) as [u|]; [|done]. destruct (Str.is_blank u) eqn:Eb; [done|].
  case_bool_decide as Eu; [done|]. subst u.
  destruct (is_sync_inbox_conversation_id c); [case_bool_decide; [done|by intros [= <-]]|].
  destruct (conversation_detail convs ctx c) as [[d|]|]; [|done..]. case_bool_decide as Ed; [done|]. by subst d.
Qed.

Section Shows.
Context (db : Tables) (down : option FlareError) (now : Z) (mark protect : Ctx -> Message -> Message).
Context `{!Cosmetic mark, !Cosmetic protect}.

Abbreviation port := (reader_port db down now (fun ctx l => mark ctx <$> l) (fun ctx l => protect ctx <$> l)).

(** The messages the port returns are rows of the user. *)
Lemma port_messages_from ctx c user after before limit ms m :
  Str.is_empty user = false -> port_messages_by_seq port ctx c after before limit user = Ok ms -> m ∈ ms ->
  exists tenant r, reader_tenant ctx = Ok tenant /\ r ∈ conversation_rows db tenant c /\
    visible_from_seq db tenant c user < row_seq r /\ same_message m (read_row db now tenant user r).
Proof.
  intros Hu. cbn [port_messages_by_seq reader_port]. unfold StorageReader.query_messages_by_seq.
  destruct (bound_read_user ctx user) as [uid|] eqn:Eu; [|done].
  assert (uid = Some user) as ->.
  { unfold bound_read_user in Eu. rewrite Hu in Eu. destruct (match ctx_claims ctx with Some _ => _ | None => _ end); [|congruence].
    cbn in Eu. case_bool_decide; congruence. }
  cbn -[store_messages_by_seq cut_overflow]. destruct (store_messages_by_seq _ _ _ _ _ _ _ _ _ _) as [l|] eqn:El; [|done].
  cbn -[cut_overflow]. intros [= <-] Hm. apply list_elem_of_fmap in Hm as (x & -> & Hx%elem_of_cut).
  apply list_elem_of_fmap in Hx as (y & -> & Hy).
  destruct (store_messages_from _ _ _ _ _ _ _ _ _ _ _ _ El Hy) as (tenant & r & Ht & Hr & Hf & Hs).
  exists tenant, r. split_and!; [done..|]. eapply same_message_trans; [apply cosmetic_same, _|].
  by eapply same_message_trans; [apply cosmetic_same, _|].
Qed.

(** A page of the handler shows messages the port returned. *)
Lemma catch_up_shows ctx user c cursor after limit p i x :
  catch_up_page port ctx user c cursor after limit = Ok p -> i ∈ page_items p -> item_payload i = SliceMessage x ->
  exists after' ms, port_messages_by_seq port ctx c after' 0 (limit + 1) user = Ok ms /\ x ∈ ms /\ Str.is_blank (skip_reason x) = true.
Proof.
  unfold catch_up_page. set (tail := cold_start_tail_after_seq _ _ _ _).
  destruct (port_messages_by_seq _ _ _ _ _ _ _) as [ms|] eqn:E; [|done]. cbn -[build_contiguous_sync_items build_tail_sync_items].
  intros [= <-] Hi Hx. eexists _, ms. split; [exact E|].
  destruct tail; [by apply (mapped_shows ms i)|by eapply contiguous_shows].
Qed.

Lemma backfill_shows ctx user c before limit p i x :
  backfill_page port ctx user c before limit = Ok p -> i ∈ page_items p -> item_payload i = SliceMessage x ->
  exists ms, port_messages_by_seq port ctx c 0 (as_i64 before) (limit + 1) user = Ok ms /\ x ∈ ms /\ Str.is_blank (skip_reason x) = true.
Proof.
  unfold backfill_page. destruct (port_messages_by_seq _ _ _ _ _ _ _) as [ms|]; [|done]. cbn.
  intros [= <-] Hi Hx. exists ms. split; [done|]. destruct (mapped_shows _ i x Hi Hx) as [Hm Hs]. split; [|done].
  destruct (limit <? Z.of_nat (length ms)); [|done].
  rewrite <- (take_drop (length ms - Z.to_nat limit) ms). apply elem_of_app. by right.
Qed.

End Shows.

(** C10. A message a sync shows is one of a conversation whose detail its caller, the authenticated
    user, may read; its number is above the floor of that member (the numbers from before
    joining, and history cleared by the member or for everyone), and it is not hidden from
    them. *)
Theorem sync_shows_only_the_members_history convs db down now mark protect `{!Cosmetic mark, !Cosmetic protect}
    ctx user req res i x :
  single_conversation_sync convs (reader_port db down now (fun ctx l => mark ctx <$> l) (fun ctx l => protect ctx <$> l))
    ctx user req = Ok res ->
  i ∈ page_items (res_page res) -> item_payload i = SliceMessage x ->
  let c := single_conversation_id req in
  ctx_user_id ctx = Some user /\ conversation_detail convs ctx c = Ok (Some c) /\
  exists tenant r, reader_tenant ctx = Ok tenant /\ r ∈ conversation_rows db tenant c /\
    server_id x = server_id (row_message r) /\ conversation_seq x = row_seq r /\
    visible_from_seq db tenant c user < row_seq r /\ hidden_from db tenant user (row_message r) = false.
Proof.
  intros H Hi Hx c. unfold single_conversation_sync in H. fold c in H. inv_ok.
  destruct (authorized _ _ _ _ _ Ha0) as (Hu & Hb & Hd). destruct a0; [injection H as <-; by apply not_elem_of_nil in Hi|].
  inv_ok. cbn [res_page] in Hi. split; [done|]. split; [by apply Hd|].
  assert (Hs : exists after before limit ms, port_messages_by_seq (reader_port db down now (fun ctx l => mark ctx <$> l)
      (fun ctx l => protect ctx <$> l)) ctx c after before limit user = Ok ms /\ x ∈ ms /\ Str.is_blank (skip_reason x) = true).
  { destruct (0 <? before_conversation_seq req).
    - destruct (backfill_shows _ _ _ _ _ _ _ _ _ _ _ _ _ Ha1 Hi Hx) as (ms & Hm). eauto.
    - destruct (catch_up_shows _ _ _ _ _ _ _ _ _ _ _ _ _ _ Ha1 Hi Hx) as (a' & ms & Hm). eauto. }
  destruct Hs as (af & be & li & ms & Hp & Hm & Hskip).
  assert (Hne : Str.is_empty user = false) by (destruct user; done).
  destruct (port_messages_from db down now mark protect ctx c user af be li ms x Hne Hp Hm) as (tenant & r & Ht & Hr & Hf & S1 & S2 & S3).
  exists tenant, r. split_and!; [done..|]. destruct (hidden_from db tenant user (row_message r)) eqn:Eh; [|done].
  rewrite S3, (hidden_row_skips db now) in Hskip by done. by vm_compute in Hskip.
Qed.

(** ** Examples *)

#[export] Instance id_cosmetic : Cosmetic (fun _ m => m).
Proof. done. Qed.

Module SyncSample.

Definition numbered_message (seq : Z) : Message :=
  mkMessage ("m" +:+ Str.of_Z seq) "c1" "" "bob" (Some SrcUser) seq (1000 + seq) 2 TypeText None "" "" "" None
    (Some (Some (Text "hi" []))) (Some Persisted) None None None ∅ ∅.

Definition row (seq : Z) : ReaderRow :=
  mkReaderRow (numbered_message seq) (Some (1000 + seq)) unselected_burn "[]" None.

(** A member who joined after number 2. *)
Definition member : ConversationStore.ParticipantRow :=
  ConversationStore.mkParticipantRow [] false false ∅ 0 "" 0 0 0 false false 0 None false 2 false 0.

Definition conversation : ConversationStore.ConversationRow :=
  ConversationStore.mkConversationRow None "active" 0 (ConversationStore.mkInfo 2 "" None ∅ 0 "").

Definition store : ConversationStore.Store :=
  ConversationStore.mkStore {[ ("acme", "c1") := conversation ]} {[ ("acme", "c1", "alice") := member ]} ∅ ∅ ∅ ∅ ∅.

Definition tables (rows : list ReaderRow) (events : list Z) : Tables :=
  mkTables {[ ("acme", "c1") := rows ]} {[ ("acme", "c1") := events ]} [] [] store.

Definition ctx : Ctx := mkCtx None (Some "alice") None (Some "acme") None.

Definition convs : ConversationSyncPort := mkConversationPort (fun _ c => Ok (Some c)).

Definition port (rows : list ReaderRow) (events : list Z) : StorageReadPort :=
  reader_port (tables rows events) None 0 (fun ctx l => (fun m => m) <$> l) (fun ctx l => (fun m => m) <$> l).

Definition six : list ReaderRow := row <$> [6; 1; 2; 3; 4; 5].

Lemma six_numbered : numbered six.
Proof. apply (bool_decide_unpack _). vm_compute. exact I. Qed.

Lemma six_trimmed : Forall trimmed_id six.
Proof. repeat constructor. Qed.

Lemma six_positive : Forall (fun r => 0 < row_seq r) six.
Proof. repeat constructor. Qed.

End SyncSample.
Import SyncSample.

(** From position 3 the member gets 4, 5 and 6, in pages of two. *)
Lemma catching_up_delivers_every_message_witness :
  exists items last,
    catch_up (S (Z.to_nat (last_number (port six []) ctx "c1"
        (member_view (tables six []) 0 (fun _ m => m) (fun _ m => m) ctx "acme" "c1" "alice") - 3)))
      (sync_after convs (port six []) ctx "alice" "c1" 2) 3 "" = Some (Ok (items, last)) /\
    item_seq <$> items = seqZ 4 (last - 3).
Proof.
  destruct (catching_up_delivers_every_message convs (tables six []) 0 (fun _ m => m) (fun _ m => m) ctx "acme" "c1" "alice" 2
    eq_refl eq_refl eq_refl eq_refl six_numbered six_trimmed six_positive
    ltac:(vm_compute; discriminate) ltac:(vm_compute; discriminate) 3 ""
    ltac:(vm_compute; discriminate) ltac:(vm_compute; discriminate) ltac:(left; vm_compute; discriminate))
    as (items & last & Hrun & Hseq & _). exists items, last. exact (conj Hrun Hseq).
Defined.

(** A cold start with pages of two: 5 and 6, and the history 3 and 4. *)
Lemma cold_start_and_history_hold_every_message_witness :
  exists p items,
    sync_after convs (port six []) ctx "alice" "c1" 2 0 "" = Ok p /\
    history 7 (sync_before convs (port six []) ctx "alice" "c1" 2) 5 = Some (Ok items) /\
    item_seq <$> items ++ page_items p = [3; 4; 5; 6] /\
    StronglySorted Z.lt (item_seq <$> items ++ page_items p).
Proof.
  destruct (cold_start_and_history_hold_every_message convs (tables six []) 0 (fun _ m => m) (fun _ m => m) ctx "acme" "c1" "alice" 2
    eq_refl eq_refl eq_refl eq_refl six_numbered six_trimmed six_positive
    ltac:(vm_compute; discriminate) ltac:(vm_compute; discriminate) 6 eq_refl eq_refl)
    as (p & items & Hp & Hh & _ & _ & _ & Hs). exists p, items. split; [exact Hp|]. split; [exact Hh|]. split; [|exact Hs].
  vm_compute in Hp. injection Hp as <-. vm_compute in Hh. injection Hh as <-. vm_compute. reflexivity.
Defined.

Lemma sync_shows_only_the_members_history_witness :
  exists res i x tenant r,
    single_conversation_sync convs (port six []) ctx "alice" (mkSingle "c1" 3 0 2 "") = Ok res /\
    i ∈ page_items (res_page res) /\ item_payload i = SliceMessage x /\
    reader_tenant ctx = Ok tenant /\ r ∈ conversation_rows (tables six []) tenant "c1" /\ server_id x = server_id (row_message r).
Proof.
  destruct (single_conversation_sync convs (port six []) ctx "alice" (mkSingle "c1" 3 0 2 "")) as [res|e] eqn:E;
    [|vm_compute in E; discriminate].
  assert (H : exists i x, i ∈ page_items (res_page res) /\ item_payload i = SliceMessage x).
  { vm_compute in E. injection E as <-. eexists _, _. split; [left|reflexivity]. }
  destruct H as (i & x & Hi & Hx).
  destruct (sync_shows_only_the_members_history convs (tables six []) None 0 (fun _ m => m) (fun _ m => m) ctx "alice"
    (mkSingle "c1" 3 0 2 "") res i x E Hi Hx) as (_ & _ & tenant & r & Ht & Hr & Hid & _).
  exists res, i, x, tenant, r. split_and!; [reflexivity|exact Hi|exact Hx|exact Ht|exact Hr|exact Hid].
Defined.

(** ** A message in flight is passed over

    Number 5 is stored before number 4, whose message the storage writer still has to
    store. A client at 3 gets a tombstone for 4 and the position 5; when the message is
    stored, the client no longer asks for it. *)
Theorem message_in_flight_is_passed_over :
  catch_up 2 (sync_after convs (port (row <$> [1; 2; 3; 5]) []) ctx "alice" "c1" 100) 3 "" =
    Some (Ok ([tombstone "c1" 4; message_to_sync_item (shown (tables (row <$> [1; 2; 3; 5]) []) 0
                 (fun _ m => m) (fun _ m => m) ctx "acme" "c1" "alice" (row 5))], 5)) /\
  catch_up 2 (sync_after convs (port (row <$> [1; 2; 3; 5; 4]) []) ctx "alice" "c1" 100) 5 "" = Some (Ok ([], 5)).
Proof. split; vm_compute; reflexivity. Qed.

(** ** Burned messages are returned

    No query selects the burn columns, so [apply_burn_query_visibility] sees every message as
    available: a burned message, whose content the storage writer wiped, is returned with its
    attributes, whether placeholders are asked for or not. *)
Definition burned_row : ReaderRow :=
  mkReaderRow (with_attributes (with_content (numbered_message 3) None ∅) {[ "text_preview" := "secret" ]})
    (Some 1003) (mkBurnColumns LEGACY_BURN_STATUS_BURNED (Some 1) (Some 2) (Some 3)) "[]" None.

Theorem burned_messages_are_returned include :
  exists m, store_messages_by_seq (tables [burned_row] []) None 0 ctx "c1" (Some "alice") 0 None 10 include = Ok [m] /\
    attributes m !! "text_preview" = Some "secret".
Proof. destruct include; eexists; split; vm_compute; reflexivity. Qed.
