(* ===== verification/SyncEvents.v ===== *)
(** * Catching up on events

    [query_events_sync] of flare-sync-orchestrator/src/application/handlers/
    sync_orchestration_handler.rs: the types a replay asks for, the page of the storage
    reader, and the check of a full replay for missing numbers. *)

From S2P Require Import Prelude.
From S2P Require Import Slices.
From S2P Require Import ConversationStore.
From S2P Require Import StorageReader.
From S2P Require Import EventReader.
From S2P Require Import Proto.
From S2P Require Import SyncPages.
From S2P Require Import SyncOrchestrator.
From stdpp Require Import base gmap list strings sorting.
From Stdlib Require Import Lia ZArith Sorted.

Local Open Scope Z_scope.

(** ** Which events *)

Definition DEFAULT_CRITICAL_EVENT_TYPES : list EventTypeNumber := Known <$>
  [EventMessageRecall; EventMessageEdit; EventMessageDelete; EventConversationUpdate; EventConversationDelete;
   EventPin; EventUnpin; EventMark; EventUnmark; EventMessagePluginState].

Definition normalize_query_event_types (types : list EventTypeNumber) : list EventTypeNumber :=
  match types with [] => DEFAULT_CRITICAL_EVENT_TYPES | _ => types end.

Definition MAX_QUERY_EVENTS_LIMIT : Z := 500.

Definition clamp_query_events_limit (n : Z) : Z :=
  if n <=? 0 then Z.min MAX_QUERY_EVENTS_LIMIT 100 else Z.min n MAX_QUERY_EVENTS_LIMIT.

Definition filter_events_by_types (allowed : list EventTypeNumber) (events : list ReplayEvent) : list ReplayEvent :=
  match allowed with
  | [] => events
  | _ => filter (fun e => re_type e ∈ allowed) events
  end.

Definition max_seq_from_events (events : list ReplayEvent) : Z :=
  match (fun e => as_i64 (re_seq e)) <$> events with [] => 0 | s :: seqs => max_of seqs s end.

Definition min_seq_of (events : list ReplayEvent) : Z :=
  match re_seq <$> events with [] => 0 | s :: seqs => foldl Z.min s seqs end.

(** ** Gaps *)

Record EventReplayGap := mkGap { expected_seq : Z; observed_seq : Z }.

(** The loop of [detect_event_replay_gap]. *)
Fixpoint detect_from (after_seq expected : Z) (events : list ReplayEvent) : option EventReplayGap :=
  match events with
  | [] => None
  | e :: events' =>
      let observed := re_seq e in
      if (observed <=? after_seq) || (observed <? expected) then detect_from after_seq expected events'
      else if expected <? observed then Some (mkGap expected observed)
      else detect_from after_seq (u64_add expected 1) events'
  end.

Definition detect_event_replay_gap (after_seq : Z) (events : list ReplayEvent) : option EventReplayGap :=
  detect_from after_seq (u64_add after_seq 1) events.

(** [SyncSessionHints] and [SyncStaleContext] of a gap; both tell the client to resync the
    conversation. *)
Record StaleReplay := mkStale {
  stale_conversation_id : string;
  localization_params : gmap string string;
  server_replay_max_conversation_seq : Z;
  client_reported_conversation_seq : Z;
  server_earliest_available_conversation_seq : Z;
}.

Definition event_replay_gap_repair_context (conversation : string) (after_seq server_replay_max_seq : Z) (gap : EventReplayGap)
    : StaleReplay :=
  mkStale conversation
    (<["observed_seq" := Str.of_Z (observed_seq gap)]> {[ "expected_seq" := Str.of_Z (expected_seq gap) ]})
    server_replay_max_seq after_seq (observed_seq gap).

(** ** The handler *)

Record QueryEventsSync := mkQueryEvents {
  qe_conversation_id : string;
  qe_after : Z;
  qe_before : Z;
  qe_limit : Z;
  qe_types : list EventTypeNumber;
  (** [replay_preset == AllPersisted] *)
  qe_all_persisted : bool;
}.

Record QueryEventsSyncRes := mkQueryEventsRes {
  env_events : list ReplayEvent;
  env_max_conversation_seq : Z;
  env_min_conversation_seq : Z;
  env_has_more : bool;
  env_next_cursor : string;
  env_stale : option StaleReplay;
}.

(** [query_events_page] of the event port: events, last number, whether there are more, cursor. *)
Definition EventPort : Type :=
  Ctx -> string -> Z -> Z -> Z -> list EventTypeNumber -> result (list ReplayEvent * Z * bool * string).

Definition event_reader_port (db : Tables) (down : option FlareError) (stream : gmap (string * string) (list EventRow))
    (decode : EventType -> string -> option ReplayPayload) (dress : Ctx -> Message -> Message) : EventPort :=
  query_conversation_events db down stream decode dress.

Definition query_events_sync (port : EventPort) (ctx : Ctx) (req : QueryEventsSync) : result QueryEventsSyncRes :=
  let c := qe_conversation_id req in
  _ ← require_nonempty_conversation_id c;
  let unfiltered_replay_requested := bool_decide (qe_types req = []) && qe_all_persisted req in
  let types := if unfiltered_replay_requested then qe_types req else normalize_query_event_types (qe_types req) in
  let limit := clamp_query_events_limit (qe_limit req) in
  page ← port ctx c (as_i64 (qe_after req)) (as_i64 (qe_before req)) limit types;
  let '(page_events, page_last_seq, has_more, next_cursor) := (page : list ReplayEvent * Z * bool * string) in
  let events := filter_events_by_types types page_events in
  let last_seq := if 0 <? page_last_seq then page_last_seq else max_seq_from_events events in
  match (if unfiltered_replay_requested then detect_event_replay_gap (qe_after req) events else None) with
  | Some gap =>
      let server_replay_max_seq := Z.max (Z.max last_seq (as_i64 (observed_seq gap))) 0 in
      Ok (mkQueryEventsRes [] (qe_after req) (qe_after req) false ""
            (Some (event_replay_gap_repair_context c (qe_after req) server_replay_max_seq gap)))
  | None => Ok (mkQueryEventsRes events (Z.max last_seq 0) (min_seq_of events) has_more next_cursor None)
  end.

(** ** A client that replays *)

(** Pages from a position until there are no more or the server says the client is stale: the
    events, the position reached and what is stale. *)
Fixpoint replay (fuel : nat) (query : Z -> result QueryEventsSyncRes) (after : Z)
    : option (result (list ReplayEvent * Z * option StaleReplay)) :=
  match fuel with
  | O => None
  | S fuel' =>
      match query after with
      | Err e => Some (Err e)
      | Ok r =>
          match env_stale r with
          | Some s => Some (Ok ([], after, Some s))
          | None =>
              if env_has_more r then
                match replay fuel' query (env_max_conversation_seq r) with
                | Some (Ok (es, last, s)) => Some (Ok (env_events r ++ es, last, s))
                | x => x
                end
              else Some (Ok (env_events r, env_max_conversation_seq r, None))
          end
      end
  end.

(** ** Gaps in ascending numbers *)

Definition ascending (l : list Z) : Prop := StronglySorted Z.lt l.

(** Ascending numbers above [a] either follow it without a gap or miss one before a later one. *)
Lemma detect_spec events after a :
  ascending (re_seq <$> events) -> Forall (fun e => a < re_seq e <= i64_max) events -> 0 <= after <= a ->
  match detect_from after (a + 1) events with
  | None => re_seq <$> events = seqZ (a + 1) (Z.of_nat (length events))
  | Some g => a < expected_seq g < observed_seq g /\ observed_seq g ∈ re_seq <$> events /\
      expected_seq g ∉ re_seq <$> events /\
      (forall s, a < s < expected_seq g -> s ∈ re_seq <$> events)
  end.
Proof.
  revert a. induction events as [|e events IH]; intros a Hs Hb Ha; [done|]. cbn in Hs |- *.
  apply StronglySorted_inv in Hs as [Hs He]. apply Forall_cons in Hb as [Hea Hb].
  assert (Hgt : Forall (fun x => re_seq e < re_seq x <= i64_max) events).
  { apply Forall_and. split; [exact (proj1 (Forall_fmap re_seq _ _) He)|]. eapply Forall_impl; [exact Hb|]. cbn. lia. }
  replace ((re_seq e <=? after) || (re_seq e <? a + 1)) with false by (symmetry; apply orb_false_iff; lia).
  destruct (Z.ltb_spec (a + 1) (re_seq e)) as [Hlt|Hle].
  - cbn. split_and!; [lia|lia|left| |intros s; lia]. intros [E|Hin]%elem_of_cons; [lia|].
    apply (proj1 (Forall_forall _ _) He) in Hin. lia.
  - assert (re_seq e = a + 1) as E by lia. rewrite sat_add_small by (unfold u64_max, i64_max in *; lia).
    rewrite <- E. specialize (IH (re_seq e) Hs Hgt). rewrite E in IH |- *. specialize (IH ltac:(lia)).
    destruct (detect_from after (a + 1 + 1) events) as [g|].
    + destruct IH as ([H1 H1'] & H2 & H3 & H4). split_and!; [lia|done|by right| |].
      * intros [Eg|]%elem_of_cons; [lia|done].
      * intros s Hr. destruct (decide (s = a + 1)) as [->|]; [left|]. right. apply H4. lia.
    + rewrite IH. replace (Z.of_nat (S (length events))) with (Z.succ (Z.of_nat (length events))) by lia.
      rewrite (seqZ_cons (a + 1)) by lia. by rewrite Z.pred_succ.
Qed.

(** ** A full replay *)

Section Replay.
Context (db : Tables) (stream : gmap (string * string) (list EventRow)).
Context (decode : EventType -> string -> option ReplayPayload) (dress : Ctx -> Message -> Message).
Context (ctx : Ctx) (tenant c : string) (limit : Z).

Abbreviation rows := (event_rows stream tenant c).

Context (Ht : require_tenant_id_from_context ctx = Ok tenant) (Hc : Str.is_blank c = false).
Context (Hrows : stream_numbered rows) (Hlimit : 1 <= limit <= 499).

Definition full_replay (after : Z) : result QueryEventsSyncRes :=
  query_events_sync (event_reader_port db None stream decode dress) ctx (mkQueryEvents c after 0 limit [] true).

(** The events the viewer may see, and those above a position. *)
Abbreviation seen := (replayable db stream ctx tenant c []).
Abbreviation rest := (replayable_above db stream ctx tenant c []).
Abbreviation event := (sent db decode dress ctx tenant c).

Lemma rest_in after r : r ∈ rest after -> r ∈ rows /\ after < er_seq r <= i64_max.
Proof.
  intros [Ha Hr]%list_elem_of_filter. apply replayable_in in Hr. split; [done|].
  destruct Hrows as [_ Hp]. rewrite Forall_forall in Hp. specialize (Hp r Hr). lia.
Qed.

Lemma rest_sorted after : StronglySorted (fun a b => er_seq a < er_seq b) (rest after).
Proof. eapply StronglySorted_sublist; [apply sublist_filter|by apply replayable_sorted]. Qed.

Lemma event_seqs (l : list EventRow) : (forall r, r ∈ l -> r ∈ rows) -> re_seq <$> (event <$> l) = er_seq <$> l.
Proof.
  intros Hl. rewrite <- list_fmap_compose. apply list_fmap_ext. intros i r Hr. cbn.
  by eapply sent_seq, Hl, (list_elem_of_lookup_2 _ i).
Qed.

Lemma page_in after r : r ∈ take (Z.to_nat limit) (rest after) -> r ∈ rows /\ after < er_seq r <= i64_max.
Proof. intros (i & Hi & _)%elem_of_take. by apply rest_in, (list_elem_of_lookup_2 _ i). Qed.

(** The first events above a position. *)
Abbreviation page after := (take (Z.to_nat limit) (rest after)).

Lemma full_replay_page after : 0 <= after <= i64_max ->
  exists r, full_replay after = Ok r /\
  match detect_event_replay_gap after (event <$> page after) with
  | Some gap => exists m, env_stale r = Some (event_replay_gap_repair_context c after m gap)
  | None => env_stale r = None /\ env_events r = event <$> page after /\
      env_max_conversation_seq r = default after (er_seq <$> last (page after)) /\
      env_has_more r = (limit <? Z.of_nat (length (rest after)))
  end.
Proof.
  intros Ha. unfold full_replay, query_events_sync, require_nonempty_conversation_id, event_reader_port, query_conversation_events.
  cbn [qe_conversation_id qe_types qe_all_persisted qe_after qe_before qe_limit]. rewrite Hc.
  cbn [mbind result_bind]. cbn zeta. rewrite bool_decide_true by done. cbn [andb]. change (as_i64 0) with 0.
  replace (as_i64 after) with after by (unfold as_i64; destruct (Z.leb_spec after i64_max); lia).
  replace (clamp_query_events_limit limit) with limit
    by (unfold clamp_query_events_limit, MAX_QUERY_EVENTS_LIMIT; destruct (Z.leb_spec limit 0); lia).
  destruct (events_page db stream decode dress ctx tenant c Hrows after limit [] Ht Hlimit) as [cursor ->].
  cbn [mbind result_bind filter_events_by_types].
  destruct (detect_event_replay_gap after (event <$> page after)); [eexists; split; [done|]; by eexists|].
  eexists. split; [done|]. split_and!; [done..| |done]. cbn [env_max_conversation_seq].
  destruct (last (page after)) as [r|] eqn:El; cbn -[Z.max Z.ltb max_seq_from_events].
  - apply last_Some_elem_of, page_in in El as [_ El]. destruct (Z.ltb_spec 0 (er_seq r)); lia.
  - apply last_None in El. rewrite El. destruct (Z.ltb_spec 0 after); cbn; lia.
Qed.

Lemma page_detect after : 0 <= after <= i64_max ->
  match detect_event_replay_gap after (event <$> page after) with
  | None => er_seq <$> page after = seqZ (after + 1) (Z.of_nat (length (page after)))
  | Some g => after < expected_seq g < observed_seq g /\ observed_seq g ∈ er_seq <$> page after /\
      expected_seq g ∉ er_seq <$> page after
  end.
Proof.
  intros Ha. unfold detect_event_replay_gap. rewrite sat_add_small by (unfold u64_max, i64_max in *; lia).
  assert (Hs : re_seq <$> (event <$> page after) = er_seq <$> page after) by (apply event_seqs; by intros r [? _]%page_in).
  assert (H1 : ascending (er_seq <$> page after)).
  { apply StronglySorted_key. eapply StronglySorted_sublist; [apply sublist_take|apply rest_sorted]. }
  assert (H2 : Forall (fun e => after < re_seq e <= i64_max) (event <$> page after)).
  { apply Forall_fmap, Forall_forall. intros r Hr. cbn. apply page_in in Hr as [Hr ?]. erewrite sent_seq; [|done..]. lia. }
  pose proof (detect_spec (event <$> page after) after after) as H. rewrite Hs, length_fmap in H.
  specialize (H H1 H2 ltac:(lia)). destruct (detect_from _ _ _); [|done]. tauto.
Qed.

Lemma rest_app after : rest after = page after ++ drop (Z.to_nat limit) (rest after).
Proof. symmetry. apply take_drop. Qed.

Lemma beyond_page after x y : x ∈ page after -> y ∈ drop (Z.to_nat limit) (rest after) -> er_seq x < er_seq y.
Proof.
  intros Hx Hy. pose proof (rest_sorted after) as Hs. rewrite rest_app in Hs.
  apply StronglySorted_app in Hs as (Hs & _ & _). by apply Hs.
Qed.

(** Where a page without a gap ends. *)
Lemma page_last after : er_seq <$> page after = seqZ (after + 1) (Z.of_nat (length (page after))) ->
  default after (er_seq <$> last (page after)) = after + Z.of_nat (length (page after)).
Proof.
  intros E. rewrite <- fmap_last, E, last_lookup, length_seqZ.
  destruct (length (page after)) as [|n]; [rewrite lookup_seqZ_ge by lia; cbn; lia|]. rewrite (proj2 (lookup_seqZ _ _ _ (after + Z.of_nat (S n)))); [done|].
  lia.
Qed.

Section Contiguous.
Context (after : Z) (Hpage : er_seq <$> page after = seqZ (after + 1) (Z.of_nat (length (page after)))).

Abbreviation reached := (after + Z.of_nat (length (page after))).

Lemma page_below x : x ∈ page after -> after < er_seq x <= reached.
Proof. intros Hx%(list_elem_of_fmap_2 er_seq). rewrite Hpage in Hx. apply elem_of_seqZ in Hx. lia. Qed.

Lemma drop_above y : y ∈ drop (Z.to_nat limit) (rest after) -> reached < er_seq y.
Proof.
  intros Hy. assert (reached ∈ er_seq <$> page after) as (x & -> & Hx)%list_elem_of_fmap; [|by apply (beyond_page after)].
  rewrite Hpage. apply elem_of_seqZ. apply list_elem_of_lookup_1 in Hy as [i Hi].
  rewrite lookup_drop in Hi. apply lookup_lt_Some in Hi. rewrite length_take. lia.
Qed.

(** The next page starts where a page without a gap ends. *)
Lemma rest_advance : rest reached = drop (Z.to_nat limit) (rest after).
Proof.
  transitivity (filter (fun r => reached < er_seq r) (rest after)).
  { unfold replayable_above. rewrite list_filter_filter. apply Slices.filter_ext_in. intros r _. lia. }
  etrans; [apply (f_equal (filter _)), rest_app|]. rewrite filter_app, filter_none, filter_all; [done|by apply drop_above|].
  intros x Hx%page_below. lia.
Qed.

(** The events up to a position beyond it are the page and those up from its end. *)
Lemma replayed_advance last : reached <= last ->
  filter (fun r => after < er_seq r <= last) seen = page after ++ filter (fun r => reached < er_seq r <= last) seen.
Proof.
  intros Hl. transitivity (filter (fun r => er_seq r <= last) (rest after)).
  { unfold replayable_above. rewrite list_filter_filter. apply Slices.filter_ext_in. intros r _. lia. }
  etrans; [apply (f_equal (filter _)), rest_app|]. rewrite filter_app, filter_all by (intros x Hx%page_below; lia). f_equal.
  rewrite <- rest_advance. unfold replayable_above. rewrite list_filter_filter. apply Slices.filter_ext_in. intros r _. lia.
Qed.
End Contiguous.

(** What a client holds after a replay from [after]. *)
Definition replay_outcome (after : Z) (es : list ReplayEvent) (last : Z) (stale : option StaleReplay) : Prop :=
  after <= last /\
  es = event <$> filter (fun r => after < er_seq r <= last) seen /\
  er_seq <$> filter (fun r => after < er_seq r <= last) seen = seqZ (after + 1) (last - after) /\
  match stale with
  | None => Forall (fun r => er_seq r <= last) seen
  | Some s => client_reported_conversation_seq s = last /\
      exists missing, last < missing < server_earliest_available_conversation_seq s /\
        missing ∉ er_seq <$> seen /\ server_earliest_available_conversation_seq s ∈ er_seq <$> seen
  end.

(** A gap on a page is a gap in the stream. *)
Lemma gap_missing after s : s ∉ er_seq <$> page after -> after < s ->
  (exists o, o ∈ er_seq <$> page after /\ s < o) -> s ∉ er_seq <$> seen.
Proof.
  intros Hs Ha (o & (x & -> & Hx)%list_elem_of_fmap & Ho) (r & -> & Hr)%list_elem_of_fmap.
  assert (Hin : r ∈ rest after) by (apply list_elem_of_filter; split; [lia|done]).
  rewrite rest_app in Hin. apply elem_of_app in Hin as [Hin|Hin].
  - apply Hs. by apply list_elem_of_fmap_2.
  - pose proof (beyond_page after x r Hx Hin). lia.
Qed.

Lemma nothing_between after last : last <= after -> filter (fun r => after < er_seq r <= last) seen = [].
Proof. intros H. apply filter_none. intros r _. lia. Qed.

Lemma replay_stale after g m : 0 <= after <= i64_max ->
  detect_event_replay_gap after (event <$> page after) = Some g ->
  replay_outcome after [] after (Some (event_replay_gap_repair_context c after m g)).
Proof.
  intros Ha Eg. pose proof (page_detect after Ha) as H. rewrite Eg in H. destruct H as (H1 & H2 & H3).
  unfold replay_outcome. rewrite nothing_between, Z.sub_diag by lia. split; [lia|]. do 3 (split; [done|]). cbn [server_earliest_available_conversation_seq event_replay_gap_repair_context].
  exists (expected_seq g). split_and!; [lia|lia| |].
  - eapply gap_missing; [done|lia|]. exists (observed_seq g). split; [done|lia].
  - apply list_elem_of_fmap in H2 as (x & -> & Hx). apply list_elem_of_fmap_2.
    apply elem_of_take in Hx as (i & Hx & _). apply list_elem_of_lookup_2, list_elem_of_filter in Hx. apply Hx.
Qed.

Lemma replay_end after : er_seq <$> page after = seqZ (after + 1) (Z.of_nat (length (page after))) ->
  Z.of_nat (length (rest after)) <= limit ->
  replay_outcome after (event <$> page after) (after + Z.of_nat (length (page after))) None.
Proof.
  intros E Hlen. unfold replay_outcome. rewrite replayed_advance, nothing_between, app_nil_r by (done || lia).
  split_and!; [lia|done| |].
  - rewrite E. f_equal. lia.
  - apply Forall_forall. intros r Hr. destruct (Z.le_gt_cases (er_seq r) after); [lia|].
    assert (r ∈ page after); [|by apply page_below].
    rewrite take_ge by lia. apply list_elem_of_filter. split; [lia|done].
Qed.

Lemma replay_step after es last stale : er_seq <$> page after = seqZ (after + 1) (Z.of_nat (length (page after))) ->
  replay_outcome (after + Z.of_nat (length (page after))) es last stale ->
  replay_outcome after ((event <$> page after) ++ es) last stale.
Proof.
  intros E (H1 & -> & H3 & H4). unfold replay_outcome. rewrite (replayed_advance after E last H1).
  rewrite !fmap_app. split_and!; [lia|done| |done].
  rewrite H3, E. set (n := Z.of_nat _). replace (after + n + 1) with (after + 1 + n) by lia.
  rewrite <- seqZ_app by lia. f_equal. lia.
Qed.

Lemma replay_runs fuel after : 0 <= after <= i64_max -> (length (rest after) < fuel)%nat ->
  exists es to stale, replay fuel full_replay after = Some (Ok (es, to, stale)) /\ replay_outcome after es to stale.
Proof.
  revert after. induction fuel as [|fuel IH]; intros after Ha Hf; [lia|]. cbn [replay].
  destruct (full_replay_page after Ha) as (r & -> & Hr). pose proof (page_detect after Ha) as Hd.
  destruct (detect_event_replay_gap after (event <$> page after)) as [g|] eqn:Eg.
  - destruct Hr as [m ->]. do 3 eexists. split; [done|]. by apply replay_stale.
  - destruct Hr as (-> & -> & -> & ->). rewrite page_last by done.
    destruct (Z.ltb_spec limit (Z.of_nat (length (rest after)))) as [Hlt|Hle].
    + destruct (IH (after + Z.of_nat (length (page after)))) as (es & to & stale & -> & Ho).
      * split; [lia|]. rewrite <- page_last by done. destruct (last (page after)) as [x|] eqn:El; [|cbn; lia].
        apply last_Some_elem_of, page_in in El as [_ El]. cbn. lia.
      * rewrite rest_advance, length_drop by done. lia.
      * do 3 eexists. split; [done|]. by apply replay_step.
    + do 3 eexists. split; [done|]. by apply replay_end.
Qed.
End Replay.

(** C13. Replaying all events page by page, up to 499 at a time, ends, with the events that follow the
    client's position without a gap, in order. Either nothing the client may see is beyond
    them, or the server said the client is stale: then a number beyond them is missing that no event the
    client may see has, although a later one exists, which is the one the server names. *)
Theorem replays_are_complete_or_stale (db : Tables) (stream : gmap (string * string) (list EventRow))
    (decode : EventType -> string -> option ReplayPayload) (dress : Ctx -> Message -> Message)
    (ctx : Ctx) (tenant c : string) (limit after : Z)
    (Ht : require_tenant_id_from_context ctx = Ok tenant) (Hc : Str.is_blank c = false)
    (Hrows : stream_numbered (event_rows stream tenant c)) (Hlimit : 1 <= limit <= 499) (Ha : 0 <= after <= i64_max) :
  let seen := replayable db stream ctx tenant c [] in
  exists es to stale,
    replay (S (length (event_rows stream tenant c))) (full_replay db stream decode dress ctx c limit) after
      = Some (Ok (es, to, stale)) /\
    after <= to /\
    es = sent db decode dress ctx tenant c <$> filter (fun r => after < er_seq r <= to) seen /\
    re_seq <$> es = seqZ (after + 1) (to - after) /\
    match stale with
    | None => Forall (fun r => er_seq r <= to) seen
    | Some s => client_reported_conversation_seq s = to /\
        exists missing, to < missing < server_earliest_available_conversation_seq s /\
          missing ∉ er_seq <$> seen /\ server_earliest_available_conversation_seq s ∈ er_seq <$> seen
    end.
Proof.
  intros seen.
  destruct (replay_runs db stream decode dress ctx tenant c limit Ht Hc Hrows Hlimit
              (S (length (event_rows stream tenant c))) after Ha) as (es & to & stale & E & H1 & H2 & H3 & H4).
  - unfold replayable_above, replayable. apply Nat.lt_succ_r.
    rewrite !length_filter. by rewrite sort_by_length.
  - exists es, to, stale. split_and!; [done..| |done]. rewrite H2, <- H3. eapply event_seqs; [done|].
    intros r [_ Hr]%list_elem_of_filter. by eapply replayable_in.
Qed.

(** ** Who sees which events *)

Section Seen.
Context (db : Tables) (down : option FlareError) (stream : gmap (string * string) (list EventRow)).
Context (decode : EventType -> string -> option ReplayPayload) (dress : Ctx -> Message -> Message) (ctx : Ctx).

Lemma fetched {A} (a b : A) : fetch down a = Ok b -> b = a.
Proof. unfold fetch. by destruct down; intros [= <-]. Qed.

Lemma store_events_in tenant c after before limit types es e :
  store_query_events db down stream decode ctx tenant c after before limit types = Ok es -> e ∈ es ->
  exists r, r ∈ event_rows stream tenant c /\ e = replayed db decode ctx tenant c r /\
    replay_visible db tenant c (default "" (ctx_user_id ctx)) r = true.
Proof.
  unfold store_query_events. cbn zeta. set (wanted := take _ _). intros E He.
  destruct (fetch down wanted) as [rows|err] eqn:Ef; [|done]. apply fetched in Ef as ->. cbn [mbind result_bind] in E.
  assert (exists r, r ∈ wanted /\ e = replayed db decode ctx tenant c r) as (r & Hr & ->).
  { unfold replayed. destruct (Str.is_empty _); [injection E as <-; apply list_elem_of_fmap in He as (r & ? & ?); eauto|].
    destruct (omap edit_target _) eqn:Eo.
    - injection E as <-. rewrite <- (redact_none (hidden_target db tenant) _ Eo), <- list_fmap_compose in He.
      apply list_elem_of_fmap in He as (r & ? & ?). eauto.
    - destruct (fetch down (hidden_target db tenant)) as [h|] eqn:Eh; [|done]. apply fetched in Eh as ->.
      injection E as <-. rewrite <- list_fmap_compose in He. apply list_elem_of_fmap in He as (r & ? & ?). eauto. }
  exists r. subst wanted. apply elem_of_take in Hr as (i & Hr & _). apply list_elem_of_lookup_2, elem_of_sort_by, list_elem_of_filter in Hr as [Hv Hr].
  apply andb_true_iff in Hv as [_ Hv]. done.
Qed.

Lemma query_events_in req res e tenant :
  require_tenant_id_from_context ctx = Ok tenant ->
  query_events_sync (event_reader_port db down stream decode dress) ctx req = Ok res -> e ∈ env_events res ->
  exists r, r ∈ event_rows stream tenant (qe_conversation_id req) /\
    e = sent db decode dress ctx tenant (qe_conversation_id req) r /\
    replay_visible db tenant (qe_conversation_id req) (default "" (ctx_user_id ctx)) r = true.
Proof.
  intros Ht. unfold query_events_sync, event_reader_port, query_conversation_events, query_conversation_events_page.
  cbn zeta. rewrite Ht. destruct (require_nonempty_conversation_id _); [|done]. cbn [mbind result_bind].
  destruct (Str.is_blank _); [done|]. set (types := if bool_decide _ && _ then _ else _).
  destruct (store_query_events _ _ _ _ _ _ _ _ _ _ _) as [es|] eqn:Es; [|done]. cbn [mbind result_bind].
  set (page := if _ <? _ then _ else _). intros E He.
  assert (He' : e ∈ dress_event (dress ctx) <$> page).
  { destruct (if bool_decide _ && _ then detect_event_replay_gap _ _ else None); injection E as <-; [by apply not_elem_of_nil in He|].
    cbn [env_events] in He. unfold filter_events_by_types in He. destruct types; [done|]. by apply list_elem_of_filter in He as [_ He]. }
  apply list_elem_of_fmap in He' as (x & -> & Hx).
  assert (x ∈ es) as Hx'.
  { subst page. destruct (_ <? _); [|done]. apply elem_of_take in Hx as (i & Hx & _). by apply list_elem_of_lookup_2 in Hx. }
  destruct (store_events_in _ _ _ _ _ _ _ _ Es Hx') as (r & Hr & -> & Hv). by exists r.
Qed.
End Seen.

(** A user replaying events, whatever they ask for, is given only events of a conversation they
    are a member of, each above the floor of the history they may see. No send of a message that
    was deleted for everyone is among them, and an edit of such a message comes without what it
    wrote. *)
Theorem replays_show_only_the_members_events (db : Tables) (down : option FlareError)
    (stream : gmap (string * string) (list EventRow)) (decode : EventType -> string -> option ReplayPayload)
    (dress : Ctx -> Message -> Message) (ctx : Ctx) (tenant user : string) (req : QueryEventsSync)
    (res : QueryEventsSyncRes) (e : ReplayEvent)
    (Ht : require_tenant_id_from_context ctx = Ok tenant)
    (Hu : ctx_user_id ctx = Some user) (Hne : Str.is_empty user = false)
    (Hrows : stream_numbered (event_rows stream tenant (qe_conversation_id req)))
    (Hres : query_events_sync (event_reader_port db down stream decode dress) ctx req = Ok res)
    (He : e ∈ env_events res) :
  let c := qe_conversation_id req in
  is_Some (ConversationStore.participants (t_rows db) !! (tenant, c, user)) /\
  exists r, r ∈ event_rows stream tenant c /\
    re_seq e = er_seq r /\ re_type e = er_type r /\
    visible_from_seq db tenant c user < er_seq r /\
    (er_type r = Known EventMessage -> deleted_for_all db tenant c (er_seq r) = false) /\
    (forall id, edit_target (proto_event_from_events_row decode c r) = Some id -> hidden_target db tenant id = true ->
       re_payload e = None).
Proof.
  intros c. destruct (query_events_in db down stream decode dress ctx req res e tenant Ht Hres He) as (r & Hr & -> & Hv).
  rewrite Hu in Hv. cbn in Hv. unfold replay_visible in Hv. rewrite Hne in Hv.
  apply andb_true_iff in Hv as [Hf%Z.ltb_lt Hd]. fold c in Hf, Hd, Hr |- *. split.
  - unfold visible_from_seq in Hf. rewrite Hne in Hf. destruct (_ !! (tenant, c, user)); [done|].
    destruct Hrows as [_ Hp]. rewrite Forall_forall in Hp. specialize (Hp r Hr). lia.
  - exists r. split_and!; [done|by eapply sent_seq| |done| |].
    + unfold sent. rewrite dress_event_type. unfold replayed. rewrite Hu. cbn [default from_option id]. rewrite Hne.
      unfold redact_deleted_edit_event. destruct (edit_target _) as [i|]; [by destruct (hidden_target db tenant i)|done].
    + intros Ety. rewrite bool_decide_true in Hd by done. by destruct (deleted_for_all db tenant c (er_seq r)).
    + intros i Ei Hi. unfold sent, replayed. rewrite Hu. cbn [default from_option id]. rewrite Hne.
      unfold redact_deleted_edit_event. by rewrite Ei, Hi.
Qed.

(** ** Examples *)

Module EventSample.

Definition body (id text : string) (seq : Z) : Message :=
  mkMessage id "c1" "" "bob" (Some SrcUser) seq (1000 + seq) 2 TypeText None "" "" "" None
    (Some (Some (Text text []))) (Some Persisted) None None None ∅ ∅.

(** A message whose content the storage writer wiped when it burned. *)
Definition burned_row : ReaderRow :=
  mkReaderRow (mkMessage "m3" "c1" "" "bob" (Some SrcUser) 3 1003 2 TypeText None "" "" "" None None
      (Some Persisted) None None None ∅ ∅)
    (Some 1003) (mkBurnColumns LEGACY_BURN_STATUS_BURNED (Some 1) (Some 2) (Some 3)) "[]" None.

Definition member (from : Z) : ConversationStore.ParticipantRow :=
  ConversationStore.mkParticipantRow [] false false ∅ 0 "" 0 0 0 false false 0 None false from false 0.

Definition conversation : ConversationStore.ConversationRow :=
  ConversationStore.mkConversationRow None "active" 0 (ConversationStore.mkInfo 2 "" None ∅ 0 "").

Definition tables (from : Z) : Tables :=
  mkTables {[ ("acme", "c1") := [burned_row] ]} ∅ [] []
    (ConversationStore.mkStore {[ ("acme", "c1") := conversation ]} {[ ("acme", "c1", "alice") := member from ]} ∅ ∅ ∅ ∅ ∅).

Definition alice : Ctx := mkCtx None (Some "alice") None (Some "acme") None.

(** The bytes of a send stand for the text of the message. *)
Definition decode (t : EventType) (payload : string) : option ReplayPayload :=
  match t with EventMessage => Some (ReplayMessage (body "m3" payload 3)) | _ => None end.

Definition send_row (seq : Z) : EventRow := mkEventRow seq (Known EventMessage) (1000 + seq) None "secret".
Definition read_row (seq : Z) : EventRow := mkEventRow seq (Known EventReadReceipt) (1000 + seq) None "".

Definition stream (rows : list EventRow) : gmap (string * string) (list EventRow) := {[ ("acme", "c1") := rows ]}.

Definition keep (_ : Ctx) (m : Message) : Message := m.

(** Numbers 2 to 5 and 7 to 8: 6 is missing. *)
Definition with_gap : list EventRow := [read_row 4; send_row 3; read_row 2; read_row 5; read_row 8; read_row 7].

Lemma with_gap_numbered : stream_numbered with_gap.
Proof.
  split; [|repeat constructor; vm_compute; discriminate].
  apply (bool_decide_unpack _). vm_compute. exact I.
Qed.
End EventSample.
Import EventSample.

(** From 1 in pages of two: 2 to 5, and then the client is stale. *)
Lemma replays_are_complete_or_stale_witness :
  exists es to stale,
    replay 7 (full_replay (tables 0) (stream with_gap) decode keep alice "c1" 2) 1 = Some (Ok (es, to, Some stale)) /\
    re_seq <$> es = seqZ 2 (to - 1) /\ to = 5 /\ server_earliest_available_conversation_seq stale = 7.
Proof.
  destruct (replays_are_complete_or_stale (tables 0) (stream with_gap) decode keep alice "acme" "c1" 2 1
    eq_refl eq_refl with_gap_numbered ltac:(split; vm_compute; discriminate) ltac:(split; vm_compute; discriminate))
    as (es & to & stale & Hrun & _ & _ & Hs & _).
  destruct stale as [s|]; [exists es, to, s; split; [exact Hrun|]; split; [exact Hs|]|];
    vm_compute in Hrun; [|discriminate]. injection Hrun as <- <- <-. split; reflexivity.
Defined.

Definition sends_only : QueryEventsSync := mkQueryEvents "c1" 0 0 10 [Known EventMessage] false.

Lemma replays_show_only_the_members_events_witness :
  exists res e, query_events_sync (event_reader_port (tables 2) None (stream with_gap) decode keep) alice sends_only = Ok res /\
    e ∈ env_events res /\ exists r, r ∈ with_gap /\ re_seq e = er_seq r /\ 2 < er_seq r.
Proof.
  destruct (query_events_sync (event_reader_port (tables 2) None (stream with_gap) decode keep) alice sends_only) as [res|err] eqn:E;
    [|vm_compute in E; discriminate].
  assert (He : exists e, e ∈ env_events res) by (vm_compute in E; injection E as <-; eexists; left). destruct He as [e He].
  destruct (replays_show_only_the_members_events (tables 2) None (stream with_gap) decode keep alice "acme" "alice" sends_only res e
    eq_refl eq_refl eq_refl with_gap_numbered E He) as (_ & r & Hr & Hs & _ & Hf & _).
  exists res, e. split; [reflexivity|]. split; [exact He|]. exists r. split_and!; [exact Hr|exact Hs|exact Hf].
Defined.

(** ** A replay in pages of 500 stops early

    A page asks the store for one event more than it may hold, to tell whether there are more; the
    store gives at most 500. So a page of 500, the size the orchestrator allows at most, never
    says there are more: of 501 events the client gets 500 and is told that is all. *)
Theorem full_size_replay_stops_early :
  exists es, replay 502 (full_replay (tables 0) (stream (read_row <$> seqZ 1 501)) decode keep alice "c1" 500) 0
    = Some (Ok (es, 500, None)) /\ length es = 500%nat.
Proof. eexists. split; vm_compute; reflexivity. Qed.

(** ** The body of a burned message is replayed

    Burning wipes the message, not the event that sent it, and the query leaves out only sends of
    messages deleted for everyone. *)
Theorem burned_message_is_replayed :
  exists res e m, query_events_sync (event_reader_port (tables 0) None (stream with_gap) decode keep) alice sends_only = Ok res /\
    env_events res = [e] /\ re_payload e = Some (ReplayMessage m) /\ content m = Some (Some (Text "secret" [])).
Proof. eexists _, _, _. split_and!; vm_compute; reflexivity. Qed.
