(* ===== verification/SyncSnapshot.v ===== *)
(** * The list of a user's conversations

    [get_sync_snapshot] and [conversations_sync] of flare-sync-orchestrator/src/application/
    handlers/sync_orchestration_handler.rs: pages of the conversations of a user with the
    last messages of each, over the summaries of the conversation service. The summaries are kept
    for the pages that follow ([BootstrapPageCache] of application/ports.rs); the cursor of a
    page is that of domain/service/snapshot_paging.rs. Time is read once in a call. *)

From S2P Require Import Prelude.
From S2P Require Import Slices.
From S2P Require Import Tenant.
From S2P Require Import ConversationStore.
From S2P Require Import ReadReceipt.
From S2P Require Import MemberPages.
From S2P Require Import StorageReader.
From S2P Require Import Submission.
From S2P Require Import Proto.
From S2P Require Import SyncPages.
From S2P Require Import SyncOrchestrator.
From stdpp Require Import base gmap list strings sorting.
From Stdlib Require Import Lia ZArith Ascii Sorted.

Local Open Scope Z_scope.

(** ** The cursor of a page *)

Definition parse_snapshot_cursor (cursor : string) : option (Z * string) :=
  if Str.is_empty cursor then None
  else
    match Str.split_once "|"%char cursor with
    | Some (ms, cid) => ms ← parse_i64 ms; Some (ms, cid)
    | None => ms ← parse_i64 cursor; Some (ms, "")
    end.

Definition build_snapshot_cursor (ms : Z) (conversation_id : string) : string :=
  Str.of_int ms +:+ "|" +:+ conversation_id.

(** ** Summaries *)

(** A summary of the conversation service, its fields that are read here. *)
Record BootstrapSummary := mkBootstrapSummary {
  bs_conversation_id : string;
  bs_conversation_type : string;
  bs_updated_at : Z;
  bs_max_seq : Z;
  bs_unread_count : Z;
  bs_last_read_seq : Z;
  bs_channel_id : string;
  bs_attributes : gmap string string;
  bs_participant_version : Z;
  bs_member_preview : list ConversationParticipant;
  bs_is_muted : bool;
  bs_is_mention_only : option bool;
  bs_is_pinned : bool;
  bs_is_archived : bool;
  bs_user_settings_version : Z;
  bs_draft : string;
  bs_visible_after : Z;
}.

(** [ConversationBootstrapResponse]: the summaries and the positions of the user. *)
Record Bootstrap := mkBootstrap {
  bootstrap_conversations : list BootstrapSummary;
  server_cursor_map : gmap string Z;
}.

(** [conversation_bootstrap], by [updated_after_ms] and [max_conversations]. *)
Definition BootstrapPort : Type := Ctx -> Z -> Z -> result Bootstrap.

Definition SNAPSHOT_BOOTSTRAP_MAX_CONVERSATIONS : Z := 5000.

(** How many summaries the conversation service returns at most ([bootstrap_conversation]): what the
    caller asks for up to a hard limit, or its own default. *)
Definition BOOTSTRAP_HARD_MAX_CONVERSATIONS : Z := 5000.

Definition effective_cap (default_cap max_conversations : Z) : Z :=
  if 0 <? max_conversations then Z.min max_conversations BOOTSTRAP_HARD_MAX_CONVERSATIONS else default_cap.

(** ** The cache of summaries *)

Record BootstrapCacheEntry := mkCacheEntry {
  stored_at : Z;
  entry_updated_after : Z;
  entry_resp : Bootstrap;
}.

Abbreviation PageCache := (gmap (string * string) BootstrapCacheEntry).

Definition BOOTSTRAP_PAGE_CACHE_CAPACITY : nat := Z.to_nat 4096.

(** [entry.stored_at.elapsed() < self.ttl] *)
Definition entry_fresh (ttl now : Z) (e : BootstrapCacheEntry) : bool := now - stored_at e <? ttl.

Definition cache_get (ttl now : Z) (cache : PageCache) (tenant user : string) (requested_updated_after : Z) : option Bootstrap :=
  if bool_decide (ttl = 0) then None
  else
    e ← cache !! (tenant, user);
    if entry_fresh ttl now e && (entry_updated_after e <=? requested_updated_after) then Some (entry_resp e) else None.

Definition cache_put (ttl now : Z) (cache : PageCache) (tenant user : string) (updated_after : Z) (resp : Bootstrap) : PageCache :=
  if bool_decide (ttl = 0) then cache
  else
    let cache :=
      if (BOOTSTRAP_PAGE_CACHE_CAPACITY <=? size cache)%nat then
        let kept := filter (fun kv => entry_fresh ttl now kv.2 = true) cache in
        if (BOOTSTRAP_PAGE_CACHE_CAPACITY <=? size kept)%nat then ∅ else kept
      else cache in
    match cache !! (tenant, user) with
    | Some existing =>
        if entry_fresh ttl now existing && (entry_updated_after existing <? updated_after) then cache
        else <[(tenant, user) := mkCacheEntry now updated_after resp]> cache
    | None => <[(tenant, user) := mkCacheEntry now updated_after resp]> cache
    end.

(** ** Rows *)

Record SnapshotRow := mkSnapshotRow {
  sr_conversation_id : string;
  sr_messages : list Message;
  sr_last_seq : Z;
  sr_last_message_at : Z;
  sr_unread_count : Z;
  sr_last_read_seq : Z;
}.

Record RoutingHint := mkHint {
  hint_channel_id : string;
  hint_conversation_type : Z;
  hint_peer_read_seq : Z;
  hint_participant_version : Z;
  hint_member_preview : list ConversationParticipant;
  hint_is_muted : bool;
  hint_is_mention_only : option bool;
  hint_is_pinned : bool;
  hint_is_archived : bool;
  hint_user_settings_version : Z;
  hint_draft : string;
  hint_visible_after : Z;
}.

Record MessagePreview := mkPreview {
  preview_message_id : string;
  preview_sender_id : string;
  preview_type : MessageType;
  preview_text : string;
  preview_created_at : Z;
}.

Record SyncSummary := mkSyncSummary {
  ss_conversation_id : string;
  ss_conversation_type : string;
  ss_display_name : string;
  ss_avatar_url : string;
  ss_last_message : option MessagePreview;
  ss_unread_count : Z;
  ss_max_seq : Z;
  ss_last_read_seq : Z;
  ss_hint : RoutingHint;
  ss_channel_id : string;
  ss_updated_at : Z;
  ss_member_count : Z;
  ss_attributes : gmap string string;
}.

Definition i32_max : Z := 2 ^ 31 - 1.

(** [u32 as i32] *)
Definition as_i32 (z : Z) : Z := if z mod 2 ^ 32 <=? i32_max then z mod 2 ^ 32 else z mod 2 ^ 32 - 2 ^ 32.

Definition conversation_type_from_summary (value : string) : Z :=
  let v := Str.trim value in
  if bool_decide (v = "single") then 1
  else if bool_decide (v = "group") then 2
  else if bool_decide (v = "ai") then 3
  else if bool_decide (v = "system") then 4
  else if bool_decide (v = "customer") then 5
  else if bool_decide (v = "temp") then 6
  else if bool_decide (v = "channel") then 7
  else if bool_decide (v = "broadcast") then 8
  else 0.

Definition conversation_type_label (value : Z) : string :=
  match value with
  | 1 => "single" | 2 => "group" | 3 => "ai" | 4 => "system" | 5 => "customer" | 6 => "temp"
  | 7 => "channel" | 8 => "broadcast" | _ => "unspecified"
  end.

(** The message with the largest number that is not skipped; [max_by_key] keeps the last of them. *)
Definition latest_message (messages : list Message) : option Message :=
  foldl (fun best m =>
    match best with
    | Some b => if conversation_seq b <=? conversation_seq m then Some m else best
    | None => Some m
    end) None (filter (fun m => Str.is_blank (skip_reason m) = true) messages).

Definition merge_sync_summary_channel_id (from_message : string) (hint : RoutingHint) : string :=
  if Str.is_empty (hint_channel_id hint) then from_message else hint_channel_id hint.

Definition merge_sync_summary_conversation_type (from_message hint : Z) : Z := if 0 <? hint then hint else from_message.

Definition preview_text_from_content (c : option MessageContent) : string :=
  match c with
  | None | Some None => ""
  | Some (Some c) =>
      match c with
      | Text t _ => t
      | RichText => "[富文本]"
      | Image | ImageGroup => "[图片]"
      | Video => "[视频]"
      | Audio => "[语音]"
      | File => "[文件]"
      | Location => "[位置]"
      | Sticker | Emoji => "[表情]"
      | Card | AppCard _ | LinkCard => "[卡片]"
      | Quote _ => "[引用]"
      | Forward => "[转发]"
      | Notification _ | System _ => "[系统消息]"
      | _ => "[消息]"
      end
  end.

Definition message_preview (m : option Message) (sent_at : Z) : option MessagePreview :=
  (fun m =>
    let text := match attributes m !! "text_preview" with
                | Some t => if Str.is_blank t then preview_text_from_content (content m) else t
                | None => preview_text_from_content (content m)
                end in
    mkPreview (server_id m) (sender_id m) (message_type m) text sent_at) <$> m.

Definition snapshot_row_to_summary (item : SnapshotRow) (hint : RoutingHint) : SyncSummary :=
  let latest := latest_message (sr_messages item) in
  let ext := default ∅ (attributes <$> latest) in
  let max_seq := sr_last_seq item in
  let peer_read_seq := if hint_peer_read_seq hint <=? max_seq then hint_peer_read_seq hint else 0 in
  let ext := <["peer_read_seq" := Str.of_Z peer_read_seq]> ext in
  let visible_after := hint_visible_after hint in
  let cleared := (0 <? visible_after) && (max_seq <=? visible_after) in
  mkSyncSummary (sr_conversation_id item)
    (conversation_type_label (merge_sync_summary_conversation_type (default 0 (conversation_type <$> latest)) (hint_conversation_type hint)))
    (default "" (ext !! "display_name")) (default "" (ext !! "avatar_url"))
    (if cleared then None else message_preview latest (sr_last_message_at item))
    (if cleared then 0 else sr_unread_count item)
    max_seq (Z.max (sr_last_read_seq item) visible_after) hint
    (merge_sync_summary_channel_id (default "" (channel_id <$> latest)) hint)
    (sr_last_message_at item)
    (match (s ← ext !! "member_count"; parse_i32 s) with
     | Some n => if 0 <? n then n else if hint_participant_version hint <=? i32_max then hint_participant_version hint else 0
     | None => if hint_participant_version hint <=? i32_max then hint_participant_version hint else 0
     end)
    ext.

Definition routing_hint (b : BootstrapSummary) : RoutingHint :=
  mkHint (bs_channel_id b) (conversation_type_from_summary (bs_conversation_type b))
    (default 0 (s ← bs_attributes b !! "peer_read_seq"; Str.parse_u64 s))
    (bs_participant_version b) (bs_member_preview b) (bs_is_muted b) (bs_is_mention_only b) (bs_is_pinned b)
    (bs_is_archived b) (bs_user_settings_version b) (bs_draft b) (bs_visible_after b).

Definition merged_row (b : BootstrapSummary) : SnapshotRow :=
  mkSnapshotRow (bs_conversation_id b) [] (Z.max (as_i64 (bs_max_seq b)) 0) (bs_updated_at b)
    (Z.max (as_i32 (bs_unread_count b)) 0) (bs_last_read_seq b).

(** ** A page *)

Record SyncSnapshotSync := mkSnapshotReq {
  snap_conversation_ids : list string;
  messages_per_conversation : Z;
  include_conversations : bool;
  snapshot_cursor : string;
  newest_first : bool;
  conversation_page_limit : Z;
}.

Record SyncSnapshotOutcome := mkSnapshotOutcome {
  snap_conversations : list (SnapshotRow * option SyncSummary);
  snap_routing : list RoutingHint;
  snapshot_version : Z;
  snapshot_at : Z;
  snap_next_cursor : string;
  snap_has_more : bool;
}.

Definition MIN_SNAPSHOT_PAGE_SIZE : Z := 1.
Definition MAX_MESSAGES_PER_CONVERSATION : Z := 100.

Definition clamp_messages_per_conversation (n : Z) : Z := if n <=? 0 then 0 else Z.min n MAX_MESSAGES_PER_CONVERSATION.

Definition valid_sync_conversation_id (c : string) : bool :=
  let c := Str.trim c in negb (Str.is_empty c) && negb (is_sync_inbox_conversation_id c).

(** The order of pairs of a time and an id. *)
Definition key_leb (a b : Z * string) : bool := (a.1 <? b.1) || ((a.1 =? b.1) && String.leb a.2 b.2).
Definition key_geb (a b : Z * string) : bool := key_leb b a.
Definition key_ltb (a b : Z * string) : bool := negb (key_leb b a).

Definition summary_key (b : BootstrapSummary) : Z * string := (bs_updated_at b, bs_conversation_id b).

(** The summaries a request asks for, by id; of two with one id the later one counts. *)
Definition candidate_index (ids : list string) (l : list BootstrapSummary) : gmap string BootstrapSummary :=
  foldl (fun index b =>
    if negb (valid_sync_conversation_id (bs_conversation_id b)) then index
    else if match ids with [] => true | _ => bool_decide (bs_conversation_id b ∈ ids) end
         then <[bs_conversation_id b := b]> index else index) ∅ l.

(** The keys of a page, in order, and the ones beyond it. *)
Definition page_keys (req : SyncSnapshotSync) (index : gmap string BootstrapSummary) : list (Z * string) :=
  let keys := summary_key <$> (map_to_list index).*2 in
  let sorted := if newest_first req then sort_by key_geb keys else sort_by key_leb keys in
  match parse_snapshot_cursor (snapshot_cursor req) with
  | Some boundary =>
      filter (fun k => (if newest_first req then key_ltb k boundary else key_ltb boundary k) = true) sorted
  | None => sorted
  end.

Definition page_limit (req : SyncSnapshotSync) : nat :=
  Z.to_nat (Z.max (if 0 <? conversation_page_limit req then conversation_page_limit req
                   else Z.max (messages_per_conversation req) MIN_SNAPSHOT_PAGE_SIZE) MIN_SNAPSHOT_PAGE_SIZE).

(** The boundary the conversation service filters by: only pages of the list going up. *)
Definition snapshot_updated_after (req : SyncSnapshotSync) : Z :=
  match snap_conversation_ids req with
  | [] =>
      if newest_first req then 0
      else match parse_snapshot_cursor (snapshot_cursor req) with
           | Some (ms, _) => Z.max (Z.max i64_min (ms - 1)) 0
           | None => 0
           end
  | _ => 0
  end.

(** The messages of a window put into the row of its conversation, the first time. *)
Definition fill_row (messages : list Message) (last_seq : Z) (r : SnapshotRow) : SnapshotRow :=
  mkSnapshotRow (sr_conversation_id r) messages
    (if 0 <? last_seq then as_u64 last_seq else sr_last_seq r)
    (if sr_last_message_at r <=? 0
     then match created_at <$> messages with [] => 0 | t :: ts => max_of ts t end
     else sr_last_message_at r)
    (sr_unread_count r) (sr_last_read_seq r).

Definition fill_rows (windows : list (string * list Message * Z)) (rows : list SnapshotRow) : list SnapshotRow :=
  (foldl (fun acc w =>
    let '(rows, unfilled) := acc in
    let '(c, messages, last_seq) := w in
    if bool_decide (c ∈ unfilled)
    then ((fun r => if bool_decide (sr_conversation_id r = c) then fill_row messages last_seq r else r) <$> rows,
          filter (fun i => i <> c) unfilled)
    else (rows, unfilled)) (rows, sr_conversation_id <$> rows) windows).1.

Definition snapshot_global_seq (rows : list SnapshotRow) : Z :=
  match (fun r => as_i64 (sr_last_seq r)) <$> rows with [] => 0 | s :: seqs => max_of seqs s end.

(** ** The handler *)

Section Snapshot.
Context (bootstrap : BootstrapPort) (storage : StorageReadPort) (ttl : Z).

(** The summaries of a page: those kept, for a page that goes on; else new ones, which are kept. *)
Definition snapshot_summaries (now : Z) (cache : PageCache) (ctx : Ctx) (tenant user : string) (req : SyncSnapshotSync)
    : result (Bootstrap * PageCache) :=
  let after := snapshot_updated_after req in
  let cached := if Str.is_blank (snapshot_cursor req) then None else cache_get ttl now cache tenant user after in
  match cached with
  | Some b => Ok (b, cache)
  | None =>
      resp ← bootstrap ctx after SNAPSHOT_BOOTSTRAP_MAX_CONVERSATIONS;
      Ok (resp, cache_put ttl now cache tenant user after resp)
  end.

Definition snapshot_rows (ctx : Ctx) (user : string) (req : SyncSnapshotSync) (page : list BootstrapSummary)
    : result (list SnapshotRow) :=
  let rows := merged_row <$> page in
  let message_limit := clamp_messages_per_conversation (messages_per_conversation req) in
  if 0 <? message_limit then
    let targets := (fun b => (bs_conversation_id b, 0)) <$> filter (fun b => 0 < as_i64 (bs_max_seq b)) page in
    match targets with
    | [] => Ok rows
    | _ =>
        windows ← port_message_windows storage ctx targets message_limit true user;
        Ok (fill_rows windows rows)
    end
  else Ok rows.

Definition get_sync_snapshot (now : Z) (cache : PageCache) (ctx : Ctx) (user : string) (req : SyncSnapshotSync)
    : result SyncSnapshotOutcome * PageCache :=
  match snapshot_tenant ctx with
  | Err e => (Err e, cache)
  | Ok tenant =>
      match snapshot_summaries now cache ctx tenant user req with
      | Err e => (Err e, cache)
      | Ok (resp, cache) =>
          let index := candidate_index (snap_conversation_ids req) (bootstrap_conversations resp) in
          let keys := page_keys req index in
          let limit := page_limit req in
          let has_more := (limit <? length keys)%nat in
          let next_cursor := default "" ((fun k : Z * string => build_snapshot_cursor k.1 k.2) <$> last (take limit keys)) in
          let page := omap (fun k : Z * string => index !! k.2) (take limit keys) in
          (rows ← snapshot_rows ctx user req page;
           let routing := routing_hint <$> page in
           let conversations := zip_with (fun r h =>
             (r, if include_conversations req then Some (snapshot_row_to_summary r h) else None)) rows routing in
           Ok (mkSnapshotOutcome conversations routing
                 (Z.max (snapshot_global_seq rows) 0)
                 (match sr_last_message_at <$> rows with [] => 0 | t :: ts => max_of ts t end)
                 next_cursor has_more), cache)
      end
  end.

(** ** The list *)

Record ConversationsSyncRes := mkConversationsRes {
  list_conversations : list SyncSummary;
  list_next_cursor : string;
  list_has_more : bool;
}.

Definition conversations_sync (now : Z) (cache : PageCache) (ctx : Ctx) (user : string) (cursor : string) (limit : Z)
    : result ConversationsSyncRes * PageCache :=
  let client_cursor := Str.trim cursor in
  let '(outcome, cache) := get_sync_snapshot now cache ctx user (mkSnapshotReq [] 1 true client_cursor false (Z.max limit 1)) in
  (outcome ← outcome;
   Ok (mkConversationsRes
         ((fun x : (SnapshotRow * option SyncSummary) * RoutingHint => snapshot_row_to_summary x.1.1 x.2) <$>
            filter (fun x => valid_sync_conversation_id (sr_conversation_id x.1.1) = true)
              (zip (snap_conversations outcome) (snap_routing outcome)))
         (if Str.is_empty (snap_next_cursor outcome) then client_cursor else snap_next_cursor outcome)
         (snap_has_more outcome)), cache).

End Snapshot.

(** ** Cursors *)

Lemma of_int_no_bar z : Str.contains_char "|"%char (Str.of_int z) = false.
Proof. apply (Str.all_chars_no_sep digit_or_sign); [done|apply of_int_chars]. Qed.

(** A cursor says where its page ended, whatever the id. *)
Lemma parse_build_cursor ms c : i64_min <= ms <= i64_max -> parse_snapshot_cursor (build_snapshot_cursor ms c) = Some (ms, c).
Proof.
  intros Hm. unfold parse_snapshot_cursor, build_snapshot_cursor. change ("|" +:+ c) with (String "|"%char c).
  rewrite (Str.split_once_app _ _ _ (of_int_no_bar ms)), parse_of_int by done. by destruct (Str.of_int ms).
Qed.

Lemma trim_start_ascii x s : Str.ws1 x = false -> (Str.code x < 128)%nat -> Str.trim_start (String x s) = String x s.
Proof.
  intros H1 Hx. destruct (ascii_no_ws x Hx) as (H2 & _ & H3). cbn [Str.trim_start]. rewrite H1.
  destruct s as [|y [|z s]]; [done|by rewrite H2|by rewrite H2, H3].
Qed.

Lemma of_int_start z s : Str.trim_start (Str.of_int z +:+ s) = Str.of_int z +:+ s.
Proof.
  pose proof (of_int_chars z) as H. destruct (Str.of_int z) as [|x r] eqn:E.
  - exfalso. unfold Str.of_int in E. by destruct (Z.to_int z) as [u|u]; destruct u.
  - rewrite Str.app_cons. cbn in H. apply andb_true_iff in H as [H _].
    unfold digit_or_sign in H. apply orb_true_iff in H as [->%bool_decide_eq_true|[H1%Nat.leb_le H2%Nat.leb_le]%andb_true_iff].
    + apply trim_start_ascii; [done|vm_compute; lia].
    + apply trim_start_ascii; [|lia]. unfold Str.ws1. rewrite !bool_decide_eq_false_2 by lia. done.
Qed.

(** The client sends a cursor back as it got it, up to white space around it. *)
Lemma trim_build_cursor ms c : c <> "" -> trim_end c = c -> Str.trim (build_snapshot_cursor ms c) = build_snapshot_cursor ms c.
Proof.
  intros Hc He. unfold build_snapshot_cursor. apply (trim_sep "|"%char); [vm_compute; lia|apply of_int_start|done..].
Qed.

(** ** The listing of a set of conversations *)

#[export] Instance key_leb_total : TotalPreorder key_leb.
Proof.
  split.
  - intros [a x] [b y]. unfold key_leb. cbn. rewrite !orb_true_iff, !andb_true_iff, !Z.ltb_lt, !Z.eqb_eq.
    destruct (String.leb_total x y); destruct (Z.lt_trichotomy a b) as [?|[?|?]]; auto.
  - intros [a x] [b y] [d z]. unfold key_leb. cbn. rewrite !orb_true_iff, !andb_true_iff, !Z.ltb_lt, !Z.eqb_eq.
    intros [H1|[H1 H1']] [H2|[H2 H2']]; [left; lia..|]. right. split; [lia|]. by apply (le_trans String.leb _ y).
Qed.

Lemma key_leb_antisym a b : key_leb a b = true -> key_leb b a = true -> a = b.
Proof.
  destruct a as [a x], b as [b y]. unfold key_leb. cbn. rewrite !orb_true_iff, !andb_true_iff, !Z.ltb_lt, !Z.eqb_eq.
  intros [H1|[-> H1]] [H2|[H2 H2']]; try lia. f_equal. by apply str_leb_antisym.
Qed.

Definition by_key (a b : BootstrapSummary) : bool := key_leb (summary_key a) (summary_key b).

#[export] Instance by_key_total : TotalPreorder by_key.
Proof. apply (key_total_preorder summary_key key_leb). Qed.

(** A set of summaries as the conversation service has them: an id each, a time, no white space
    at the end of an id. *)
Definition well_listed (l : list BootstrapSummary) : Prop :=
  NoDup (bs_conversation_id <$> l) /\
  Forall (fun b => valid_sync_conversation_id (bs_conversation_id b) = true /\
                   trim_end (bs_conversation_id b) = bs_conversation_id b /\ 0 < bs_updated_at b <= i64_max) l.

(** The summaries in the order of the list, and those beyond a key. *)
Definition listing (l : list BootstrapSummary) : list BootstrapSummary := sort_by by_key l.

Definition past (cursor : option (Z * string)) (b : BootstrapSummary) : Prop :=
  match cursor with Some k => key_ltb k (summary_key b) = true | None => True end.

#[export] Instance past_dec cursor b : Decision (past cursor b).
Proof. unfold past. destruct cursor; apply _. Defined.

Lemma candidate_lookup l c b : NoDup (bs_conversation_id <$> l) ->
  Forall (fun b => valid_sync_conversation_id (bs_conversation_id b) = true) l ->
  candidate_index [] l !! c = Some b <-> b ∈ l /\ bs_conversation_id b = c.
Proof.
  unfold candidate_index. induction l as [|x l IH] using rev_ind.
  - intros _ _. cbn. rewrite lookup_empty. split; [done|]. by intros [?%not_elem_of_nil _].
  - rewrite fmap_app, foldl_app. intros (Hn & Hd & _)%NoDup_app [Hv [Hx _]%Forall_cons]%Forall_app. cbn. rewrite Hx. cbn.
    rewrite lookup_insert_Some, elem_of_app, list_elem_of_singleton. rewrite IH by done. split.
    + intros [[<- <-]|[Hne [Hb <-]]]; auto.
    + intros [[Hb|Hb] <-]; [right|subst; by left]. split; [|done]. intros E.
      apply (Hd (bs_conversation_id b)); [by apply list_elem_of_fmap_2|]. rewrite <- E. left.
Qed.

Lemma listed_lookup l c b : well_listed l -> candidate_index [] l !! c = Some b <-> b ∈ l /\ bs_conversation_id b = c.
Proof. intros [Hn Hf]. apply candidate_lookup; [done|]. eapply Forall_impl; [exact Hf|]. naive_solver. Qed.

Lemma candidates_perm l : well_listed l -> (map_to_list (candidate_index [] l)).*2 ≡ₚ l.
Proof.
  intros Hl. apply NoDup_Permutation.
  - apply NoDup_fmap_2_strong; [|apply NoDup_map_to_list]. intros [c b] [c' b'] H1 H2 E. cbn in E. subst b'.
    apply elem_of_map_to_list, listed_lookup in H1 as [_ <-], H2 as [_ <-]; done.
  - eapply NoDup_fmap_1, Hl.
  - intros b. rewrite list_elem_of_fmap. split.
    + intros ([c b'] & -> & H%elem_of_map_to_list). by apply listed_lookup in H as [? _].
    + intros Hb. exists (bs_conversation_id b, b). split; [done|]. by apply elem_of_map_to_list, listed_lookup.
Qed.

Lemma by_key_inj l a b : well_listed l -> a ∈ l -> b ∈ l -> by_key a b = true -> by_key b a = true -> a = b.
Proof.
  intros [Hn _] Ha Hb H1 H2. apply (NoDup_key_inj bs_conversation_id l); [done..|].
  assert (summary_key a = summary_key b) as E by by apply key_leb_antisym. by injection E.
Qed.

Lemma sorted_candidates l : well_listed l ->
  sort_by key_leb (summary_key <$> (map_to_list (candidate_index [] l)).*2) = summary_key <$> listing l.
Proof.
  intros Hl. rewrite fmap_sort_by. f_equal. apply sort_by_unique; [apply _|by apply candidates_perm|].
  intros a b Ha Hb. rewrite candidates_perm in Ha, Hb by done. by apply (by_key_inj l).
Qed.

(** The request of a page of the list. *)
Definition list_request (cursor : string) (limit : Z) : SyncSnapshotSync :=
  mkSnapshotReq [] 1 true cursor false (Z.max limit 1).

(** A cursor that was handed out for a key, or none. *)
Definition cursor_of (k : option (Z * string)) : string :=
  match k with Some (ms, c) => build_snapshot_cursor ms c | None => "" end.

Definition good_key (k : option (Z * string)) : Prop :=
  match k with Some (ms, c) => 0 < ms <= i64_max /\ c <> "" /\ trim_end c = c | None => True end.

Lemma parse_cursor_of k : good_key k -> parse_snapshot_cursor (cursor_of k) = k.
Proof. destruct k as [[ms c]|]; [|done]. intros [Hm _]. apply parse_build_cursor. unfold i64_min. lia. Qed.

Lemma list_page_keys k l limit : good_key k -> well_listed l ->
  page_keys (list_request (cursor_of k) limit) (candidate_index [] l) = summary_key <$> filter (past k) (listing l).
Proof.
  intros Hk Hl. unfold page_keys. cbn [newest_first snapshot_cursor list_request]. rewrite sorted_candidates, parse_cursor_of by done.
  destruct k as [k|]; cbn; [by rewrite filter_fmap_comm|]. by rewrite filter_all.
Qed.

Lemma page_summaries k l n : well_listed l ->
  omap (fun key : Z * string => candidate_index [] l !! key.2) (take n (summary_key <$> filter (past k) (listing l)))
  = take n (filter (past k) (listing l)).
Proof.
  intros Hl. rewrite <- fmap_take. set (p := take n _).
  assert (Hp : forall b, b ∈ p -> b ∈ l).
  { intros b (i & Hi & _)%elem_of_take. apply list_elem_of_lookup_2, list_elem_of_filter in Hi as [_ Hi]. by apply elem_of_sort_by in Hi. }
  induction p as [|b p IH]; [done|]. cbn.
  rewrite (proj2 (listed_lookup l (bs_conversation_id b) b Hl)) by (split; [apply Hp; left|done]).
  f_equal. apply IH. intros x Hx. apply Hp. by right.
Qed.

(** ** What a page answers *)

Definition row_key (r : SnapshotRow) : Z * string := (sr_last_message_at r, sr_conversation_id r).
Definition sync_key (s : SyncSummary) : Z * string := (ss_updated_at s, ss_conversation_id s).

Lemma fill_row_key messages last_seq r : 0 < sr_last_message_at r -> row_key (fill_row messages last_seq r) = row_key r.
Proof. intros H. unfold row_key, fill_row. cbn. by rewrite (proj2 (Z.leb_gt _ _)). Qed.

Lemma fill_rows_keys windows rows : Forall (fun r => 0 < sr_last_message_at r) rows -> row_key <$> fill_rows windows rows = row_key <$> rows.
Proof.
  unfold fill_rows. generalize (sr_conversation_id <$> rows) as unfilled. revert rows.
  induction windows as [|[[c messages] last_seq] windows IH]; intros rows unfilled Hp; [done|]. cbn [foldl].
  destruct (bool_decide (c ∈ unfilled)); [|by apply IH].
  set (fill := fun r : SnapshotRow => if bool_decide _ then _ else r).
  assert (Hk : Forall (fun r => row_key (fill r) = row_key r) rows).
  { eapply Forall_impl; [exact Hp|]. intros r Hr. unfold fill. destruct (bool_decide _); [by apply fill_row_key|done]. }
  rewrite IH.
  - rewrite <- list_fmap_compose. apply list_fmap_ext. intros i r Hr. cbn. by apply (proj1 (Forall_lookup _ _) Hk i).
  - apply Forall_fmap. rewrite Forall_forall in *. intros r Hr. specialize (Hk r Hr). specialize (Hp r Hr). cbn.
    injection Hk as -> _. done.
Qed.

Section Answer.
Context (bootstrap : BootstrapPort) (storage : StorageReadPort) (ttl : Z) (ctx : Ctx) (tenant user : string).
Context (Htenant : snapshot_tenant ctx = Ok tenant).
(** The windows of messages can be read. *)
Context (Hwindows : forall targets limit, exists ws, port_message_windows storage ctx targets limit true user = Ok ws).

Lemma snapshot_rows_keys req page : Forall (fun b => 0 < bs_updated_at b) page ->
  exists rows, snapshot_rows storage ctx user req page = Ok rows /\ row_key <$> rows = summary_key <$> page.
Proof.
  intros Hp. unfold snapshot_rows. cbn zeta.
  assert (Hm : row_key <$> (merged_row <$> page) = summary_key <$> page) by (by rewrite <- list_fmap_compose).
  destruct (_ <? _); [|eauto]. destruct (_ <$> filter _ page) as [|t ts]; [eauto|].
  destruct (Hwindows (t :: ts) (clamp_messages_per_conversation (messages_per_conversation req))) as [ws ->].
  eexists. split; [done|]. rewrite fill_rows_keys; [done|]. by apply Forall_fmap.
Qed.

(** The summaries made of rows keep their keys, in order. *)
Lemma list_summaries_keys include (page : list BootstrapSummary) rows :
  row_key <$> rows = summary_key <$> page ->
  Forall (fun b => valid_sync_conversation_id (bs_conversation_id b) = true) page ->
  sync_key <$> ((fun x : (SnapshotRow * option SyncSummary) * RoutingHint => snapshot_row_to_summary x.1.1 x.2) <$>
     filter (fun x => valid_sync_conversation_id (sr_conversation_id x.1.1) = true)
       (zip (zip_with (fun r h => (r, if include : bool then Some (snapshot_row_to_summary r h) else None)) rows (routing_hint <$> page))
          (routing_hint <$> page)))
  = summary_key <$> page.
Proof.
  revert rows. induction page as [|b page IH]; intros [|r rows] Hk Hv; try done.
  rewrite !fmap_cons in *. injection Hk as Ht Hc Hk. apply Forall_cons in Hv as [Hb Hv].
  cbn [zip_with]. rewrite filter_cons, decide_True by (cbn -[valid_sync_conversation_id]; by rewrite Hc).
  rewrite !fmap_cons. f_equal; [|by apply IH]. unfold sync_key, snapshot_row_to_summary, summary_key. cbn. by rewrite Ht, Hc.
Qed.

Lemma trim_cursor_of k : good_key k -> Str.trim (cursor_of k) = cursor_of k.
Proof. destruct k as [[ms c]|]; [|done]. intros (_ & Hc & He). by apply trim_build_cursor. Qed.

Lemma build_not_empty ms c : Str.is_empty (build_snapshot_cursor ms c) = false.
Proof. unfold build_snapshot_cursor. by destruct (Str.of_int ms). Qed.

(** How many conversations a page holds. *)
Definition list_size (limit : Z) : nat := Z.to_nat (Z.max limit 1).

(** What is left of the list beyond a key. *)
Definition left_over (k : option (Z * string)) (l : list BootstrapSummary) : list BootstrapSummary := filter (past k) (listing l).

Definition next_key (k : option (Z * string)) (page : list BootstrapSummary) : option (Z * string) :=
  match last page with Some b => Some (summary_key b) | None => k end.

Lemma left_over_in k l b : b ∈ left_over k l -> b ∈ l /\ past k b.
Proof. intros [Hp Hb]%list_elem_of_filter. by apply elem_of_sort_by in Hb. Qed.

Lemma list_answer now cache cache' resp k limit : good_key k ->
  snapshot_summaries bootstrap ttl now cache ctx tenant user (list_request (cursor_of k) limit) = Ok (resp, cache') ->
  well_listed (bootstrap_conversations resp) ->
  let rest := left_over k (bootstrap_conversations resp) in
  exists res, conversations_sync bootstrap storage ttl now cache ctx user (cursor_of k) limit = (Ok res, cache') /\
    sync_key <$> list_conversations res = summary_key <$> take (list_size limit) rest /\
    list_has_more res = (list_size limit <? length rest)%nat /\
    list_next_cursor res = cursor_of (next_key k (take (list_size limit) rest)).
Proof.
  intros Hk Hs Hl rest. unfold conversations_sync. rewrite trim_cursor_of by done. cbn zeta.
  fold (list_request (cursor_of k) limit). unfold get_sync_snapshot. rewrite Htenant, Hs. cbn zeta.
  change (snap_conversation_ids (list_request (cursor_of k) limit)) with (@nil string).
  rewrite list_page_keys, page_summaries by done. fold (left_over k (bootstrap_conversations resp)). fold rest.
  replace (page_limit (list_request (cursor_of k) limit)) with (list_size limit)
    by (unfold page_limit, list_size, MIN_SNAPSHOT_PAGE_SIZE; cbn [conversation_page_limit list_request]; destruct (Z.ltb_spec 0 (Z.max limit 1)); lia).
  set (page := take (list_size limit) rest).
  assert (Hpage : Forall (fun b => valid_sync_conversation_id (bs_conversation_id b) = true /\
                   trim_end (bs_conversation_id b) = bs_conversation_id b /\ 0 < bs_updated_at b <= i64_max) page).
  { apply Forall_forall. intros b (i & Hi & _)%elem_of_take. apply list_elem_of_lookup_2, left_over_in in Hi as [Hi _].
    destruct Hl as [_ Hf]. by apply (proj1 (Forall_forall _ _) Hf). }
  destruct (snapshot_rows_keys (list_request (cursor_of k) limit) page) as (rows & -> & Hrows).
  { eapply Forall_impl; [exact Hpage|]. cbn. lia. }
  cbn [mbind result_bind]. eexists. split; [done|]. cbn [list_conversations list_has_more list_next_cursor snap_conversations snap_routing snap_next_cursor snap_has_more].
  split_and!.
  - apply list_summaries_keys; [done|]. eapply Forall_impl; [exact Hpage|]. naive_solver.
  - by rewrite length_fmap.
  - unfold next_key. rewrite <- fmap_take, fmap_last. fold page. destruct (last page) as [b|]; cbn -[build_snapshot_cursor]; [|done].
    by rewrite build_not_empty.
Qed.
End Answer.
