(* ===== verification/SyncListing.v ===== *)
(** * Every conversation is listed

    A client that asks for page after page of its conversations, while conversations change
    and the pages are served from summaries that were kept: no conversation is passed over, and when
    nothing changes each comes once, in order. *)

From S2P Require Import Prelude.
From S2P Require Import Slices.
From S2P Require Import MemberPages.
From S2P Require Import Proto.
From S2P Require Import SyncOrchestrator.
From S2P Require Import SyncSnapshot.
From stdpp Require Import base gmap list strings sorting.
From Stdlib Require Import Lia ZArith Sorted.

Local Open Scope Z_scope.

(** ** The conversation service *)

(** The summaries of [w] that changed after a time, all of them for 0; one of that very
    millisecond may be among them. *)
Definition covers (resp : Bootstrap) (after : Z) (w : list BootstrapSummary) : Prop :=
  well_listed (bootstrap_conversations resp) /\
  (forall b, b ∈ bootstrap_conversations resp -> b ∈ w) /\
  (forall b, b ∈ w -> after = 0 \/ after < bs_updated_at b -> b ∈ bootstrap_conversations resp).

(** The conversation service answers from the summaries [w], if it may return that many: more
    it cuts off. *)
Class ServesSummaries (bootstrap : BootstrapPort) (ctx : Ctx) (w : list BootstrapSummary) : Prop := {
  serves_listed : well_listed w;
  serves_covers default_cap after max : 0 <= after -> 0 < max -> Z.of_nat (length w) <= effective_cap default_cap max ->
    exists resp, bootstrap ctx after max = Ok resp /\ covers resp after w;
}.

Lemma key_ltb_spec a b : key_ltb a b = true <-> key_leb b a = false.
Proof. unfold key_ltb. by destruct (key_leb b a). Qed.

Lemma key_ltb_time ms c b : key_ltb (ms, c) (summary_key b) = true -> ms <= bs_updated_at b.
Proof.
  rewrite key_ltb_spec. unfold key_leb, summary_key. cbn. rewrite orb_false_iff, Z.ltb_ge. lia.
Qed.

Lemma key_ltb_leb a b d : key_ltb a b = true -> key_leb b d = true -> key_ltb a d = true.
Proof.
  rewrite !key_ltb_spec. intros Hab Hbd. destruct (key_leb d a) eqn:E; [|done].
  by rewrite (le_trans key_leb b d a) in Hab.
Qed.

Lemma left_over_sorted k l : well_listed l -> left_over k l = sort_by by_key (filter (past k) l).
Proof.
  intros Hl. unfold left_over, listing. symmetry. apply sort_by_filter; [apply _|].
  intros a b Ha Hb. by apply (by_key_inj l).
Qed.

Lemma well_listed_filter (P : BootstrapSummary -> Prop) `{!forall x, Decision (P x)} l : well_listed l -> well_listed (filter P l).
Proof.
  intros [Hn Hf]. split.
  - eapply sublist_NoDup; [exact Hn|]. apply fmap_sublist, sublist_filter.
  - rewrite Forall_forall in *. intros b [_ Hb]%list_elem_of_filter. by apply Hf.
Qed.

Lemma well_listed_NoDup l : well_listed l -> NoDup l.
Proof. intros [Hn _]. by eapply NoDup_fmap_1. Qed.

(** The boundary a page of the list asks the service for. *)
Lemma list_boundary k limit : good_key k ->
  snapshot_updated_after (list_request (cursor_of k) limit) = match k with Some (ms, _) => Z.max (ms - 1) 0 | None => 0 end.
Proof.
  intros Hk. unfold snapshot_updated_after. cbn [snap_conversation_ids newest_first snapshot_cursor list_request].
  rewrite parse_cursor_of by done. destruct k as [[ms c]|]; [|done]. destruct Hk as [Hm _]. unfold i64_min. lia.
Qed.

(** What is left beyond a key is the same on summaries that cover the ones there are. *)
Lemma covers_left_over resp a w k : covers resp a w -> well_listed w -> good_key k ->
  a <= match k with Some (ms, _) => Z.max (ms - 1) 0 | None => 0 end -> 0 <= a ->
  left_over k (bootstrap_conversations resp) = left_over k w.
Proof.
  intros (Hr & Hsub & Hall) Hw Hk Ha Ha0. rewrite !left_over_sorted by done.
  apply sort_by_unique; [apply _| |intros x y; apply by_key_inj; by apply well_listed_filter].
  apply NoDup_Permutation; [by apply well_listed_NoDup, well_listed_filter..|].
  intros b. rewrite !list_elem_of_filter. split; [naive_solver|]. intros [Hp Hb]. split; [done|].
  apply Hall; [done|]. destruct k as [[ms c]|]; [|lia]. apply key_ltb_time in Hp. cbn in Hk. lia.
Qed.

(** ** The order of the list *)

Definition before (a b : BootstrapSummary) : Prop := key_ltb (summary_key a) (summary_key b) = true.

Lemma left_over_ordered k l : well_listed l -> StronglySorted before (left_over k l).
Proof.
  intros Hl. rewrite left_over_sorted by done.
  assert (Hf : well_listed (filter (past k) l)) by by apply well_listed_filter.
  assert (Hd : NoDup (sort_by by_key (filter (past k) l))) by (rewrite sort_by_perm; by apply well_listed_NoDup).
  assert (Hi : forall b, b ∈ sort_by by_key (filter (past k) l) -> b ∈ filter (past k) l) by (intros b; apply elem_of_sort_by).
  induction (sort_by_sorted by_key (filter (past k) l)) as [|x r Hr IH Hx]; [constructor|].
  apply NoDup_cons in Hd as [Hn Hd]. constructor; [apply IH; [done|]; intros b Hb; apply Hi; by right|].
  apply Forall_forall. intros y Hy. apply key_ltb_spec. destruct (key_leb (summary_key y) (summary_key x)) eqn:E; [|done].
  rewrite Forall_forall in Hx. destruct Hn. rewrite (by_key_inj _ x y Hf); [done|..].
  - apply Hi. left.
  - apply Hi. by right.
  - by apply Hx.
  - done.
Qed.

(** Going on from the end of a page leaves what was beyond it. *)
Lemma left_over_next k l n : well_listed l -> (0 < n)%nat ->
  left_over (next_key k (take n (left_over k l))) l = drop n (left_over k l).
Proof.
  intros Hl Hn. pose proof (left_over_ordered k l Hl) as Hs. unfold next_key.
  destruct (last (take n (left_over k l))) as [x|] eqn:Ex.
  - apply last_Some in Ex as [p Ep].
    assert (Hx : past k x).
    { apply (left_over_in k l). rewrite <- (take_drop n (left_over k l)), Ep. set_solver. }
    transitivity (filter (past (Some (summary_key x))) (left_over k l)).
    { unfold left_over. rewrite list_filter_filter. apply Slices.filter_ext_in. intros b _. split; [|naive_solver].
      intros Hb. split; [done|]. destruct k as [k|]; [|done]. cbn in *. eapply key_ltb_leb; [exact Hx|].
      apply key_ltb_spec in Hb. by destruct (le_total key_leb (summary_key x) (summary_key b)) as [?|?]; congruence. }
    rewrite <- (take_drop n (left_over k l)), Ep in Hs at 1. apply StronglySorted_app in Hs as (Hb & Hp & _).
    etrans; [apply (f_equal (filter _)); symmetry; apply (take_drop n)|]. rewrite Ep, filter_app, filter_none, filter_all; [done|..].
    + intros b Hin. apply Hb; [set_solver|done].
    + apply StronglySorted_app in Hp as (Hp & _). intros b Hin Hpast. cbn in Hpast. apply key_ltb_spec in Hpast.
      apply elem_of_app in Hin as [Hin| ->%list_elem_of_singleton].
      * specialize (Hp b x Hin ltac:(left)). apply key_ltb_spec in Hp. by destruct (le_total key_leb (summary_key b) (summary_key x)); congruence.
      * by destruct (le_total key_leb (summary_key x) (summary_key x)); congruence.
  - apply last_None in Ex. rewrite <- (take_drop n (left_over k l)) at 1. rewrite Ex. done.
Qed.

Lemma next_key_good k l n : well_listed l -> good_key k -> good_key (next_key k (take n (left_over k l))).
Proof.
  intros [_ Hf] Hk. unfold next_key. destruct (last _) as [b|] eqn:E; [|done].
  apply last_Some_elem_of, elem_of_take in E as (i & Hi & _). apply list_elem_of_lookup_2 in Hi. unfold left_over in Hi.
  apply list_elem_of_filter in Hi as [_ Hi%elem_of_sort_by]. rewrite Forall_forall in Hf. destruct (Hf b Hi) as (Hv & He & Hu).
  cbn. split_and!; [lia|lia| |done]. intros E. by rewrite E in Hv.
Qed.

(** ** Clients *)

(** Pages of the list until there are no more, at most [fuel] of them. For the [i]-th request the
    time is [now i], the conversation service and the storage reader answer as they do then, and
    [between i] happens to the cache after it. *)
Section Client.
Context (bootstraps : nat -> BootstrapPort) (storages : nat -> StorageReadPort) (ttl : Z) (now : nat -> Z).
Context (between_pages : nat -> PageCache -> PageCache) (ctx : Ctx) (user : string) (limit : Z).

Fixpoint list_all (fuel i : nat) (cache : PageCache) (cursor : string) : option (result (list SyncSummary)) :=
  match fuel with
  | O => None
  | S fuel' =>
      let '(r, cache') := conversations_sync (bootstraps i) (storages i) ttl (now i) cache ctx user cursor limit in
      match r with
      | Err e => Some (Err e)
      | Ok res =>
          if list_has_more res then
            match list_all fuel' (S i) (between_pages i cache') (list_next_cursor res) with
            | Some (Ok l) => Some (Ok (list_conversations res ++ l))
            | x => x
            end
          else Some (Ok (list_conversations res))
      end
  end.
End Client.

(** ** What is kept in the cache *)

Section Cache.
Context (ttl : Z) (tenant user : string) (worlds : nat -> list BootstrapSummary).

(** The summaries kept for the user are those of a time from [lo] to [hi]. *)
Definition kept_between (lo hi : nat) (cache : PageCache) : Prop :=
  ttl = 0 \/ forall e, cache !! (tenant, user) = Some e ->
    0 <= entry_updated_after e /\ exists j, (lo <= j <= hi)%nat /\ covers (entry_resp e) (entry_updated_after e) (worlds j).

Lemma kept_hit lo hi cache t after resp :
  kept_between lo hi cache -> cache_get ttl t cache tenant user after = Some resp ->
  exists j a, (lo <= j <= hi)%nat /\ 0 <= a <= after /\ covers resp a (worlds j) /\ kept_between j hi cache.
Proof.
  intros Hk. unfold cache_get. destruct (bool_decide (ttl = 0)) eqn:Et; [done|]. apply bool_decide_eq_false in Et.
  destruct Hk as [?|Hk]; [done|]. destruct (cache !! (tenant, user)) as [e|] eqn:E; [|done]. cbn.
  destruct (entry_fresh ttl t e && _) eqn:Ef; [|done]. apply andb_true_iff in Ef as [_ Ha%Z.leb_le]. intros [= <-].
  destruct (Hk e eq_refl) as (Ha0 & j & Hj & Hc). exists j, (entry_updated_after e). split_and!; [lia|lia|done..|].
  right. intros e' He. rewrite E in He. injection He as <-. split; [done|]. exists j. split; [lia|done].
Qed.

(** New summaries replace what is kept, unless that would have served. *)
Lemma kept_put lo hi cache t after resp :
  kept_between lo hi cache -> 0 <= after -> (after = 0 \/ cache_get ttl t cache tenant user after = None) ->
  covers resp after (worlds hi) -> kept_between hi hi (cache_put ttl t cache tenant user after resp).
Proof.
  intros Hk Ha Hmiss Hc. destruct (decide (ttl = 0)) as [|Et]; [by left|]. right.
  destruct Hk as [|Hk]; [done|]. intros e. unfold cache_put. rewrite bool_decide_eq_false_2 by done.
  set (kept := if (_ <=? _)%nat then _ else cache).
  assert (Hsub : forall x, kept !! (tenant, user) = Some x -> cache !! (tenant, user) = Some x).
  { intros x. unfold kept. destruct (_ <=? _)%nat; [|done]. destruct (_ <=? _)%nat; [by intros ?%lookup_empty_Some|].
    by intros [? _]%map_lookup_filter_Some. }
  assert (Hnew : forall m, (<[(tenant, user) := mkCacheEntry t after resp]> m : PageCache) !! (tenant, user) = Some e ->
    0 <= entry_updated_after e /\ exists j, (hi <= j <= hi)%nat /\ covers (entry_resp e) (entry_updated_after e) (worlds j)).
  { intros m. rewrite lookup_insert_eq. intros [= <-]. split; [done|]. exists hi. split; [lia|done]. }
  destruct (kept !! (tenant, user)) as [x|] eqn:Ex; [|apply Hnew].
  destruct (entry_fresh ttl t x && (entry_updated_after x <? after)) eqn:Ef; [|apply Hnew].
  apply andb_true_iff in Ef as [Ef Hlt%Z.ltb_lt]. specialize (Hsub x eq_refl). rename Ex into Ex0, Hsub into Ex. destruct (Hk x Ex) as [Hx _]. intros _. exfalso.
  destruct Hmiss as [->|Hmiss]; [lia|]. unfold cache_get in Hmiss. rewrite bool_decide_eq_false_2, Ex in Hmiss by done.
  cbn in Hmiss. rewrite Ef, (proj2 (Z.leb_le _ _)) in Hmiss by lia. done.
Qed.

(** Summaries to answer a page from are those of a time no earlier than what was kept. *)
Lemma summaries_known bootstrap ctx lo i cache t k limit :
  ServesSummaries bootstrap ctx (worlds i) -> Z.of_nat (length (worlds i)) <= SNAPSHOT_BOOTSTRAP_MAX_CONVERSATIONS -> kept_between lo i cache -> (lo <= i)%nat -> good_key k ->
  exists resp cache' j a,
    snapshot_summaries bootstrap ttl t cache ctx tenant user (list_request (cursor_of k) limit) = Ok (resp, cache') /\
    (lo <= j <= i)%nat /\ 0 <= a <= match k with Some (ms, _) => Z.max (ms - 1) 0 | None => 0 end /\
    covers resp a (worlds j) /\ kept_between j i cache'.
Proof.
  intros Hserve Hfew Hk Hlo Hgood. unfold snapshot_summaries. cbn zeta. rewrite list_boundary by done.
  set (after := match k with Some (ms, _) => Z.max (ms - 1) 0 | None => 0 end).
  assert (0 <= after) as Ha by (subst after; destruct k as [[]|]; lia).
  set (cached := if Str.is_blank _ then None else cache_get _ _ _ _ _ _).
  destruct cached as [resp|] eqn:Ec.
  - assert (cache_get ttl t cache tenant user after = Some resp) as Hget by (subst cached; by destruct (Str.is_blank _)).
    destruct (kept_hit _ _ _ _ _ _ Hk Hget) as (j & a & Hj & Har & Hcov & Hk').
    exists resp, cache, j, a. split_and!; [done|lia..|done|done].
  - destruct (serves_covers 0 after SNAPSHOT_BOOTSTRAP_MAX_CONVERSATIONS Ha eq_refl Hfew) as (resp & Hr & Hcov). rewrite Hr. cbn.
    exists resp, (cache_put ttl t cache tenant user after resp), i, after. split_and!; [done|lia..|done|].
    apply (kept_put lo i); [done|done| |done]. subst cached. destruct k as [[ms c]|] eqn:Ek; [|by left].
    right. destruct (Str.is_blank _) eqn:Eb; [|done]. exfalso. cbn [snapshot_cursor list_request] in Eb.
    unfold Str.is_blank in Eb. rewrite trim_cursor_of in Eb by done. cbn [cursor_of] in Eb. by rewrite build_not_empty in Eb.
Qed.
End Cache.

(** ** Walking the list *)

Section Walk.
Context (bootstraps : nat -> BootstrapPort) (storages : nat -> StorageReadPort) (ttl : Z) (now : nat -> Z).
Context (between_pages : nat -> PageCache -> PageCache) (ctx : Ctx) (tenant user : string) (limit : Z).
Context (worlds : nat -> list BootstrapSummary).
Context (Htenant : snapshot_tenant ctx = Ok tenant).
Context (Hwindows : forall i targets l, exists ws, port_message_windows (storages i) ctx targets l true user = Ok ws).
Context (Hserves : forall i, ServesSummaries (bootstraps i) ctx (worlds i)).
Context (Hfew : forall i, Z.of_nat (length (worlds i)) <= SNAPSHOT_BOOTSTRAP_MAX_CONVERSATIONS).
(** Other users' requests may push the user's summaries out of the cache. *)
Context (Hbetween : forall i cache, between_pages i cache !! (tenant, user) = cache !! (tenant, user)
                                    \/ between_pages i cache !! (tenant, user) = None).

Abbreviation walk := (list_all bootstraps storages ttl now between_pages ctx user limit).
Abbreviation kept := (kept_between ttl tenant user worlds).

Lemma kept_later lo i cache : kept lo i cache -> kept lo (S i) (between_pages i cache).
Proof.
  intros [?|Hk]; [by left|]. right. intros e He. destruct (Hbetween i cache) as [E|E]; rewrite E in He; [|done].
  destruct (Hk e He) as (Ha & j & Hj & Hc). split; [done|]. exists j. split; [lia|done].
Qed.

(** One page: it is the next one of the list at a time from [lo] to [i]. *)
Lemma walk_page fuel lo i cache k : kept lo i cache -> (lo <= i)%nat -> good_key k ->
  exists j page cache', (lo <= j <= i)%nat /\
    sync_key <$> page = summary_key <$> take (list_size limit) (left_over k (worlds j)) /\
    kept j (S i) cache' /\
    walk (S fuel) i cache (cursor_of k) =
      if (list_size limit <? length (left_over k (worlds j)))%nat then
        match walk fuel (S i) cache' (cursor_of (next_key k (take (list_size limit) (left_over k (worlds j))))) with
        | Some (Ok l) => Some (Ok (page ++ l))
        | x => x
        end
      else Some (Ok page).
Proof.
  intros Hk Hlo Hgood.
  destruct (summaries_known ttl tenant user worlds (bootstraps i) ctx lo i cache (now i) k limit (Hserves i) (Hfew i) Hk Hlo Hgood)
    as (resp & cache' & j & a & Hs & Hj & Ha & Hcov & Hk').
  destruct (list_answer (bootstraps i) (storages i) ttl ctx tenant user Htenant (Hwindows i) (now i) cache cache' resp k limit
              Hgood Hs (proj1 Hcov)) as (res & Hres & Hkeys & Hmore & Hnext).
  rewrite (covers_left_over resp a (worlds j) k) in Hkeys, Hmore, Hnext by (done || apply (Hserves j) || lia).
  exists j, (list_conversations res), (between_pages i cache'). split_and!; [lia|lia|done|by apply kept_later|].
  cbn [list_all]. rewrite Hres, Hmore, Hnext. done.
Qed.

Lemma list_size_pos : (0 < list_size limit)%nat.
Proof. unfold list_size. lia. Qed.

(** Nothing changes. *)
Lemma walk_static w fuel lo i cache k : (forall j, worlds j = w) -> kept lo i cache -> (lo <= i)%nat -> good_key k ->
  (length (left_over k w) < fuel)%nat ->
  exists l, walk fuel i cache (cursor_of k) = Some (Ok l) /\ sync_key <$> l = summary_key <$> left_over k w.
Proof.
  intros Hw. revert lo i cache k. induction fuel as [|fuel IH]; intros lo i cache k Hk Hlo Hgood Hf; [lia|].
  destruct (walk_page fuel lo i cache k Hk Hlo Hgood) as (j & page & cache' & Hj & Hkeys & Hk' & ->). rewrite Hw in *.
  assert (Hwl : well_listed w) by (rewrite <- (Hw 0%nat); apply (Hserves 0)).
  destruct (Nat.ltb_spec (list_size limit) (length (left_over k w))) as [Hlt|Hge].
  - pose proof list_size_pos as Hpos.
    destruct (IH j (S i) cache' (next_key k (take (list_size limit) (left_over k w))) Hk') as (l & -> & Hl);
      [lia|by apply next_key_good|rewrite left_over_next, length_drop by done; lia|].
    exists (page ++ l). split; [done|]. rewrite left_over_next in Hl by done.
    by rewrite fmap_app, Hkeys, Hl, <- fmap_app, take_drop.
  - exists page. split; [done|]. by rewrite Hkeys, take_ge by lia.
Qed.

(** A conversation that is there all the time, whose time of change only moves forward. *)
Section Present.
Context (c : string).
Context (Hpresent : forall j, exists b, b ∈ worlds j /\ bs_conversation_id b = c).
Context (Hforward : forall i j b b', (i <= j)%nat -> b ∈ worlds i -> b' ∈ worlds j ->
  bs_conversation_id b = c -> bs_conversation_id b' = c -> bs_updated_at b <= bs_updated_at b').

Lemma still_past k i j b b' : (i <= j)%nat -> b ∈ worlds i -> b' ∈ worlds j ->
  bs_conversation_id b = c -> bs_conversation_id b' = c -> past k b -> past k b'.
Proof.
  intros Hij Hb Hb' Hc Hc' Hp. destruct k as [k|]; [|done]. eapply key_ltb_leb; [exact Hp|].
  pose proof (Hforward i j b b' Hij Hb Hb' Hc Hc'). unfold key_leb, summary_key. cbn. rewrite Hc, Hc'.
  rewrite orb_true_iff, andb_true_iff, Z.ltb_lt, Z.eqb_eq. destruct (String.leb_total c c); destruct (decide (bs_updated_at b = bs_updated_at b')); auto with lia.
Qed.

Lemma walk_covers fuel lo i cache k l : kept lo i cache -> (lo <= i)%nat -> good_key k ->
  walk fuel i cache (cursor_of k) = Some (Ok l) ->
  (forall b, b ∈ worlds lo -> bs_conversation_id b = c -> past k b) ->
  exists s j b, s ∈ l /\ (lo <= j)%nat /\ b ∈ worlds j /\ bs_conversation_id b = c /\ sync_key s = summary_key b.
Proof.
  revert lo i cache k l. induction fuel as [|fuel IH]; intros lo i cache k l Hk Hlo Hgood Hw Hpast; [done|].
  destruct (walk_page fuel lo i cache k Hk Hlo Hgood) as (j & page & cache' & Hj & Hkeys & Hk' & E). rewrite E in Hw. clear E.
  destruct (Hpresent lo) as (b0 & Hb0 & Hc0). destruct (Hpresent j) as (b & Hb & Hc).
  assert (Hp : past k b) by (eapply (still_past k lo j b0 b); [lia|eauto..]).
  assert (Hin : b ∈ left_over k (worlds j)) by (apply list_elem_of_filter; split; [done|]; by apply elem_of_sort_by).
  set (n := list_size limit) in *. assert (Hn : (0 < n)%nat) by apply list_size_pos.
  rewrite <- (take_drop n (left_over k (worlds j))) in Hin. apply elem_of_app in Hin as [Ht|Hd].
  - apply (list_elem_of_fmap_2 summary_key) in Ht. rewrite <- Hkeys in Ht. apply list_elem_of_fmap in Ht as (s & Hs & Hin').
    exists s, j, b. split_and!; [|lia|done..]. destruct (_ <? _)%nat; [|by injection Hw as <-].
    destruct (walk fuel _ _ _) as [[l'|]|]; [|done..]. injection Hw as <-. set_solver.
  - assert (Hlen : (n < length (left_over k (worlds j)))%nat).
    { pose proof Hd as [x Hx]%list_elem_of_lookup_1. rewrite lookup_drop in Hx. apply lookup_lt_Some in Hx. lia. }
    rewrite (proj2 (Nat.ltb_lt _ _) Hlen) in Hw. destruct (walk fuel _ _ _) as [[l'|]|] eqn:Ew; [|done..]. injection Hw as <-.
    rewrite <- left_over_next in Hd by (done || apply (Hserves j)).
    destruct (IH j (S i) cache' (next_key k (take n (left_over k (worlds j)))) l' Hk') as (s & j' & b' & Hs & Hj' & Hb' & Hc' & Hkey); [lia| |exact Ew| |].
    + apply next_key_good; [apply (Hserves j)|done].
    + intros x Hx Hcx. assert (x = b) as ->; [|apply left_over_in in Hd; apply Hd].
      apply (NoDup_key_inj bs_conversation_id (worlds j)); [apply (serves_listed (ServesSummaries := Hserves j))|done..|congruence].
    + exists s, j', b'. split_and!; [set_solver|lia|done..].
Qed.
End Present.
End Walk.


(** If nothing changes meanwhile, as many requests as there are conversations and one more are
    enough, and the client gets each conversation once, in the order of its time of change, whatever is kept or
    pushed out of the cache. *)
Theorem listing_holds_every_conversation_once (bootstraps : nat -> BootstrapPort) (storages : nat -> StorageReadPort)
    (ttl : Z) (now : nat -> Z) (between_pages : nat -> PageCache -> PageCache) (ctx : Ctx) (tenant user : string)
    (limit : Z) (w : list BootstrapSummary) (cache : PageCache)
    (Htenant : snapshot_tenant ctx = Ok tenant)
    (Hwindows : forall i targets n, exists ws, port_message_windows (storages i) ctx targets n true user = Ok ws)
    (Hserves : forall i, ServesSummaries (bootstraps i) ctx w)
    (Hfew : Z.of_nat (length w) <= SNAPSHOT_BOOTSTRAP_MAX_CONVERSATIONS)
    (Hbetween : forall i cache, between_pages i cache !! (tenant, user) = cache !! (tenant, user)
                                \/ between_pages i cache !! (tenant, user) = None)
    (Hcache : cache !! (tenant, user) = None) :
  exists l, list_all bootstraps storages ttl now between_pages ctx user limit (S (length w)) 0 cache "" = Some (Ok l) /\
    sync_key <$> l = sort_by key_leb (summary_key <$> w).
Proof.
  destruct (walk_static bootstraps storages ttl now between_pages ctx tenant user limit (fun _ => w) Htenant Hwindows Hserves (fun _ => Hfew) Hbetween
              w (S (length w)) 0%nat 0%nat cache None) as (l & Hl & Hk); [done| |done|done| |].
  - right. intros e He. congruence.
  - unfold left_over. rewrite filter_all by done. unfold listing. rewrite sort_by_length. lia.
  - exists l. split; [exact Hl|]. rewrite Hk, fmap_sort_by. unfold left_over. by rewrite filter_all.
Qed.

(** ** Examples *)

(** A conversation service that has the summaries [w], and cuts off what is too much; by default it
    returns a hundred. *)
Definition summaries_port (w : list BootstrapSummary) : BootstrapPort := fun _ after max =>
  Ok (mkBootstrap (take (Z.to_nat (effective_cap 100 max)) (filter (fun b => after = 0 \/ after < bs_updated_at b) w)) ∅).

Lemma summaries_port_serves w ctx : well_listed w -> ServesSummaries (summaries_port w) ctx w.
Proof.
  intros Hw. split; [done|]. intros default_cap after max _ Hmax Hlen. eexists. split; [done|]. cbn [bootstrap_conversations].
  assert (Hcap : effective_cap 100 max = effective_cap default_cap max) by (unfold effective_cap; by rewrite (proj2 (Z.ltb_lt _ _) Hmax)).
  rewrite take_ge by (rewrite Hcap; pose proof (length_filter (fun b => after = 0 \/ after < bs_updated_at b) w); lia). split_and!.
  - by apply well_listed_filter.
  - by intros b [_ Hb]%list_elem_of_filter.
  - intros b Hb Ha. by apply list_elem_of_filter.
Qed.

Module ListingSample.

Definition conversation (c : string) (at_ : Z) : BootstrapSummary :=
  mkBootstrapSummary c "group" at_ 4 1 3 "" ∅ 2 [] false None false false 0 "" 0.

(** [g1] changes between the first page and the second. *)
Definition worlds (i : nat) : list BootstrapSummary :=
  [conversation "g1" (match i with O => 10 | _ => 40 end); conversation "g2" 20; conversation "g3" 30].

Definition storage : StorageReadPort :=
  mkStoragePort (fun _ _ _ _ _ _ => Ok []) (fun _ _ => Ok 0) (fun _ targets _ _ _ => Ok ((fun t : string * Z => (t.1, [], 0)) <$> targets)).

Lemma worlds_listed i : well_listed (worlds i).
Proof.
  destruct i as [|i]; (split; [apply (bool_decide_unpack _); vm_compute; exact I|]);
    repeat constructor; vm_compute; congruence.
Qed.

Lemma worlds_served i : ServesSummaries (summaries_port (worlds i)) alice_ctx (worlds i).
Proof. apply summaries_port_serves, worlds_listed. Qed.

Lemma worlds_few i : Z.of_nat (length (worlds i)) <= SNAPSHOT_BOOTSTRAP_MAX_CONVERSATIONS.
Proof. unfold worlds. cbn. unfold SNAPSHOT_BOOTSTRAP_MAX_CONVERSATIONS. lia. Qed.

Lemma windows_read (i : nat) (targets : list (string * Z)) (n : Z) :
  exists ws, port_message_windows storage alice_ctx targets n true "alice" = Ok ws.
Proof. by eexists. Qed.

Lemma first_group i b : b ∈ worlds i -> bs_conversation_id b = "g1" -> bs_updated_at b = match i with O => 10 | _ => 40 end.
Proof.
  unfold worlds. rewrite !elem_of_cons. by intros [->|[->|[->|?%not_elem_of_nil]]].
Qed.

Definition clock (i : nat) : Z := Z.of_nat i * 1000.
End ListingSample.
Import ListingSample.


Lemma listing_holds_every_conversation_once_witness :
  exists l, list_all (fun _ => summaries_port (worlds 0)) (fun _ => storage) 1500 clock (fun _ cache => cache) alice_ctx "alice" 2 4 0 ∅ ""
    = Some (Ok l) /\ sync_key <$> l = [(10, "g1"); (20, "g2"); (30, "g3")].
Proof.
  destruct (listing_holds_every_conversation_once (fun _ => summaries_port (worlds 0)) (fun _ => storage) 1500 clock (fun _ cache => cache)
    alice_ctx "acme" "alice" 2 (worlds 0) ∅ eq_refl windows_read (fun _ => worlds_served 0) (worlds_few 0) (fun _ _ => or_introl eq_refl) (lookup_empty _))
    as (l & Hl & Hk). exists l. split; [exact Hl|]. rewrite Hk. vm_compute. reflexivity.
Defined.
