(* ===== verification/SyncCursor.v ===== *)
(** * Positions of a user's devices

    [get_sync_cursor_sync], [update_sync_cursor_sync] and [conversation_version_hints] of
    flare-sync-orchestrator/src/application/handlers/sync_orchestration_handler.rs, over
    [MemorySyncCursorCache] of application/ports.rs: positions are kept for the keys asked for last,
    the oldest key first to go. Ports are functions that may fail. *)

From S2P Require Import Prelude.
From S2P Require Import Proto.
From S2P Require Import SyncOrchestrator.
From S2P Require Import SyncSnapshot.
From stdpp Require Import base gmap list strings.
From Stdlib Require Import Lia ZArith.

Local Open Scope Z_scope.

Record MultiDeviceCursor := mkDeviceCursor {
  cur_device_id : string;
  cur_conversation_id : string;
  cur_last_seq : Z;
  cur_last_sync_at : Z;
  cur_last_read_seq : Z;
  cur_last_message_seq : Z;
}.

(** ** The cache *)

(** User and conversation. *)
Abbreviation CursorKey := (string * string)%type.

Record BoundedCursorMap := mkCursorMap {
  cm_map : gmap CursorKey MultiDeviceCursor;
  cm_order : list CursorKey;
  cm_capacity : nat;
}.

Definition new_cursor_map (capacity : nat) : BoundedCursorMap := mkCursorMap ∅ [] (Nat.max capacity 1).

(** [while order.len() > capacity]: the oldest key goes, from the map too. *)
Fixpoint evict (capacity : nat) (order : list CursorKey) (m : gmap CursorKey MultiDeviceCursor)
    : list CursorKey * gmap CursorKey MultiDeviceCursor :=
  match order with
  | [] => ([], m)
  | k :: order' => if (capacity <? length order)%nat then evict capacity order' (delete k m) else (order, m)
  end.

Definition cursor_map_insert (key : CursorKey) (cursor : MultiDeviceCursor) (c : BoundedCursorMap) : BoundedCursorMap :=
  match cm_map c !! key with
  | Some _ => mkCursorMap (<[key := cursor]> (cm_map c)) (cm_order c) (cm_capacity c)
  | None =>
      let '(order, m) := evict (cm_capacity c) (cm_order c ++ [key]) (cm_map c) in
      mkCursorMap (<[key := cursor]> m) order (cm_capacity c)
  end.

Definition cursor_get (user conversation : string) (c : BoundedCursorMap) : option MultiDeviceCursor :=
  cm_map c !! (user, conversation).

Definition cursor_put (user : string) (cursor : MultiDeviceCursor) (c : BoundedCursorMap) : BoundedCursorMap :=
  cursor_map_insert (user, cur_conversation_id cursor) cursor c.

(** ** The handlers *)

Definition merge_cursor_monotonic (previous : option Z) (new : Z) : Z :=
  match previous with Some p => Z.max new p | None => new end.

Definition normalize_participant_read_seq (max_seq unread_count last_read_seq : Z) : Z := last_read_seq.

Record ConversationVersion := mkVersion {
  version_conversation_id : string;
  version : Z;
  version_max_seq : Z;
  version_updated_at : Z;
}.

(** [diff_known_conversation_versions] *)
Definition VersionPort : Type := Ctx -> list (string * Z) -> result (list ConversationVersion).

Definition conversation_version_hints (diff : VersionPort) (ctx : Ctx) (known : list (string * Z))
    : option (list ConversationVersion) :=
  match filter (fun v : string * Z => Str.is_blank v.1 = false) known with
  | [] => None
  | known =>
      match diff ctx known with
      | Ok [] => None
      | Ok changes => Some changes
      | Err _ => None
      end
  end.

Record GetSyncCursorSync := mkGetCursor {
  get_conversation_id : string;
  get_device_id : string;
  known_conversation_versions : list (string * Z);
}.

(** The position of the user in a conversation as the conversation service has it. *)
Definition persistent_cursor (resp : Bootstrap) (req : GetSyncCursorSync) : option MultiDeviceCursor :=
  let c := get_conversation_id req in
  let summary := snd <$> list_find (fun s => bs_conversation_id s = c) (bootstrap_conversations resp) in
  let last_sync_seq := match server_cursor_map resp !! c with
                       | Some s => Some s
                       | None => (fun s => as_i64 (bs_max_seq s)) <$> summary
                       end in
  match last_sync_seq with
  | Some seq =>
      if 0 <? seq then
        Some (mkDeviceCursor (get_device_id req) c (Z.max seq 0)
                (default 0 (bs_updated_at <$> summary))
                (default 0 ((fun s => normalize_participant_read_seq (bs_max_seq s) (bs_unread_count s) (bs_last_read_seq s)) <$> summary))
                0)
      else None
  | None => None
  end.

Section Handlers.
Context (bootstrap : BootstrapPort) (diff : VersionPort).
(** [update_sync_cursor]: conversation, position and device *)
Context (update_cursor : Ctx -> string -> Z -> string -> result unit).

Definition get_sync_cursor_sync (ctx : Ctx) (user : string) (req : GetSyncCursorSync) (cache : BoundedCursorMap)
    : result (option MultiDeviceCursor * option (list ConversationVersion)) * BoundedCursorMap :=
  match require_nonempty_conversation_id (get_conversation_id req) with
  | Err e => (Err e, cache)
  | Ok _ =>
      let hints := conversation_version_hints diff ctx (known_conversation_versions req) in
      match cursor_get user (get_conversation_id req) cache with
      | Some cursor => (Ok (Some cursor, hints), cache)
      | None =>
          match bootstrap ctx 0 SNAPSHOT_BOOTSTRAP_MAX_CONVERSATIONS with
          | Err e => (Err e, cache)
          | Ok resp =>
              match persistent_cursor resp req with
              | None => (Ok (None, hints), cache)
              | Some cursor => (Ok (Some cursor, hints), cursor_put user cursor cache)
              end
          end
      end
  end.

(** The request and what is kept, the larger of each. *)
Definition merge_cursor (previous : option MultiDeviceCursor) (cursor : MultiDeviceCursor) : MultiDeviceCursor :=
  mkDeviceCursor (cur_device_id cursor) (cur_conversation_id cursor)
    (as_u64 (merge_cursor_monotonic ((fun p => as_i64 (cur_last_seq p)) <$> previous) (as_i64 (cur_last_seq cursor))))
    (Z.max (cur_last_sync_at cursor) (default 0 (cur_last_sync_at <$> previous)))
    (Z.max (cur_last_read_seq cursor) (default 0 (cur_last_read_seq <$> previous)))
    (Z.max (cur_last_message_seq cursor) (default 0 (cur_last_message_seq <$> previous))).

Definition update_sync_cursor_sync (ctx : Ctx) (user : string) (req : option MultiDeviceCursor) (cache : BoundedCursorMap)
    : result MultiDeviceCursor * BoundedCursorMap :=
  match req with
  | None => (Err (flare_err InvalidParameter "cursor is required"), cache)
  | Some cursor =>
      match require_nonempty_conversation_id (cur_conversation_id cursor) with
      | Err e => (Err e, cache)
      | Ok _ =>
          let out := merge_cursor (cursor_get user (cur_conversation_id cursor) cache) cursor in
          match update_cursor ctx (cur_conversation_id cursor) (as_i64 (cur_last_seq out)) (cur_device_id cursor) with
          | Err e => (Err e, cache)
          | Ok _ => (Ok out, cursor_put user out cache)
          end
      end
  end.
End Handlers.

(** ** The cache is bounded *)

Record cursor_map_ok (c : BoundedCursorMap) : Prop := {
  cm_positive : (0 < cm_capacity c)%nat;
  cm_bounded : (length (cm_order c) <= cm_capacity c)%nat;
  cm_distinct : NoDup (cm_order c);
  cm_same : forall k, k ∈ cm_order c <-> is_Some (cm_map c !! k);
}.

Lemma evict_suffix capacity order m :
  evict capacity order m = (drop (length order - capacity) order,
    foldl (fun m k => delete k m) m (take (length order - capacity) order)).
Proof.
  revert m. induction order as [|k order IH]; intros m; [done|]. cbn [evict].
  destruct (Nat.ltb_spec capacity (length (k :: order))) as [Hlt|Hge]; cbn [length] in *.
  - rewrite IH. by replace (S (length order) - capacity)%nat with (S (length order - capacity)) by lia.
  - by replace (S (length order) - capacity)%nat with 0%nat by lia.
Qed.

Lemma new_cursor_map_ok capacity : cursor_map_ok (new_cursor_map capacity).
Proof. split; cbn; [lia|lia|constructor|]. intros k. rewrite lookup_empty. split; [by intros ?%not_elem_of_nil|by intros [? ?]]. Qed.

(** What an insertion of a new key leaves: nothing goes, or the oldest key does. *)
Lemma insert_new key cursor c : cursor_map_ok c -> cm_map c !! key = None ->
  cursor_map_insert key cursor c = mkCursorMap (<[key := cursor]> (cm_map c)) (cm_order c ++ [key]) (cm_capacity c)
    /\ (length (cm_order c) < cm_capacity c)%nat \/
  exists old order, cm_order c = old :: order /\
    cursor_map_insert key cursor c = mkCursorMap (<[key := cursor]> (delete old (cm_map c))) (order ++ [key]) (cm_capacity c).
Proof.
  intros [Hpos Hb Hd Hs] Hk. unfold cursor_map_insert. rewrite Hk, evict_suffix, length_app. cbn [length].
  destruct (decide (length (cm_order c) < cm_capacity c)%nat) as [Hlt|Hge].
  - left. split; [|done]. by replace (length (cm_order c) + 1 - cm_capacity c)%nat with 0%nat by lia.
  - right. replace (length (cm_order c) + 1 - cm_capacity c)%nat with 1%nat by lia.
    destruct (cm_order c) as [|old order]; [cbn in *; lia|]. by exists old, order.
Qed.

Lemma cursor_map_insert_ok key cursor c : cursor_map_ok c -> cursor_map_ok (cursor_map_insert key cursor c).
Proof.
  intros Hok. pose proof Hok as [Hpos Hb Hd Hs]. destruct (cm_map c !! key) as [x|] eqn:Ek.
  - unfold cursor_map_insert. rewrite Ek. split; cbn; [done..|]. intros k. rewrite Hs.
    destruct (decide (k = key)) as [->|]; [rewrite lookup_insert_eq, Ek; by split|by rewrite lookup_insert_ne].
  - assert (Hnew : key ∉ cm_order c) by (rewrite Hs, Ek; by intros [? ?]).
    destruct (insert_new key cursor c Hok Ek) as [[-> Hlt]|(old & order & Eo & ->)].
    + split; cbn; [done|rewrite length_app; cbn; lia|apply NoDup_app; split_and!; [done|set_solver|apply NoDup_singleton]|].
      intros k. rewrite elem_of_app, list_elem_of_singleton, Hs.
      destruct (decide (k = key)) as [->|Hne]; [rewrite lookup_insert_eq; naive_solver|]. rewrite lookup_insert_ne by done. naive_solver.
    + rewrite Eo in *. apply NoDup_cons in Hd as [Ho Hd]. cbn in Hb.
      split; cbn; [done|rewrite length_app; cbn; lia|apply NoDup_app; split_and!; [done|set_solver|apply NoDup_singleton]|].
      intros k. rewrite elem_of_app, list_elem_of_singleton. specialize (Hs k). rewrite elem_of_cons in Hs.
      destruct (decide (k = key)) as [->|Hne]; [rewrite lookup_insert_eq; naive_solver|]. rewrite lookup_insert_ne by done.
      destruct (decide (k = old)) as [->|Hno]; [rewrite lookup_delete_eq; split; [naive_solver|by intros [? ?]]|].
      rewrite lookup_delete_ne by done. naive_solver.
Qed.

(** A key's cursor after an insertion: the inserted one, or as it was, or gone. *)
Lemma insert_lookup key cursor c k : cursor_map_ok c ->
  cm_map (cursor_map_insert key cursor c) !! k = (if decide (k = key) then Some cursor else cm_map c !! k)
  \/ k <> key /\ cm_map (cursor_map_insert key cursor c) !! k = None.
Proof.
  intros Hok. destruct (cm_map c !! key) as [x|] eqn:Ek.
  - left. unfold cursor_map_insert. rewrite Ek. cbn. case_decide; [subst; apply lookup_insert_eq|by apply lookup_insert_ne].
  - destruct (insert_new key cursor c Hok Ek) as [[-> _]|(old & order & Eo & ->)]; cbn.
    + left. case_decide; [subst; apply lookup_insert_eq|by apply lookup_insert_ne].
    + destruct (decide (k = key)) as [->|Hne]; [left; apply lookup_insert_eq|]. rewrite lookup_insert_ne by done.
      destruct (decide (k = old)) as [->|Hno]; [right; by rewrite lookup_delete_eq|left; by rewrite lookup_delete_ne].
Qed.

(** ** Requests *)

(** Positions are 64-bit numbers. *)
Definition typed_bootstrap (resp : Bootstrap) : Prop :=
  (forall c s, server_cursor_map resp !! c = Some s -> s <= i64_max) /\
  Forall (fun b => in_u64 (bs_max_seq b)) (bootstrap_conversations resp).

Definition seq_in_range (cursor : MultiDeviceCursor) : Prop := 0 <= cur_last_seq cursor <= i64_max.

(** A request of any user in any tenant, whatever the services answer; clients report positions
    below 2^63. *)
Inductive cursor_step : BoundedCursorMap -> BoundedCursorMap -> Prop :=
  | step_get bootstrap diff ctx user req c :
      (forall resp, bootstrap ctx 0 SNAPSHOT_BOOTSTRAP_MAX_CONVERSATIONS = Ok resp -> typed_bootstrap resp) ->
      cursor_step c (get_sync_cursor_sync bootstrap diff ctx user req c).2
  | step_update update_cursor ctx user req c :
      (forall cursor, req = Some cursor -> seq_in_range cursor) ->
      cursor_step c (update_sync_cursor_sync update_cursor ctx user req c).2.

(** A request leaves the cache, or puts a cursor, for which the key was free or that is merged
    with the one there was. *)
Lemma cursor_step_inv c c' : cursor_step c c' ->
  c' = c \/ exists user cursor, c' = cursor_put user cursor c /\
    (cursor_get user (cur_conversation_id cursor) c = None /\ seq_in_range cursor \/
     exists given, seq_in_range given /\ cursor = merge_cursor (cursor_get user (cur_conversation_id cursor) c) given).
Proof.
  destruct 1 as [bootstrap diff ctx user req c Htyped|update_cursor ctx user req c Hreq].
  - unfold get_sync_cursor_sync. destruct (require_nonempty_conversation_id _); [|by left].
    destruct (cursor_get user (get_conversation_id req) c) eqn:Eg; [by left|].
    destruct (bootstrap ctx 0 _) as [resp|] eqn:Eb; [|by left].
    destruct (persistent_cursor resp req) as [cursor|] eqn:Ep; [|by left]. right. exists user, cursor. split; [done|]. left.
    destruct (Htyped resp eq_refl) as [Hmap Hmax]. unfold persistent_cursor in Ep. cbn zeta in Ep.
    set (summary := snd <$> _) in Ep.
    assert (Hseq : forall s, (match server_cursor_map resp !! get_conversation_id req with
                       | Some s => Some s | None => (fun s => as_i64 (bs_max_seq s)) <$> summary end) = Some s -> s <= i64_max).
    { intros s. destruct (server_cursor_map resp !! get_conversation_id req) as [x|] eqn:Es; [intros [= <-]; by eapply Hmap|].
      unfold summary. destruct (list_find _ _) as [[i b]|] eqn:Ef; cbn; [|done]. intros [= <-].
      apply list_find_Some in Ef as (Hi & _ & _). rewrite Forall_forall in Hmax.
      destruct (Hmax b (list_elem_of_lookup_2 _ _ _ Hi)). unfold as_i64. unfold u64_max, i64_max in *.
      destruct (Z.leb_spec (bs_max_seq b) (2 ^ 63 - 1)); lia. }
    destruct (match server_cursor_map resp !! get_conversation_id req with Some s => Some s | None => _ end) as [seq|]; [|done].
    specialize (Hseq seq eq_refl). destruct (Z.ltb_spec 0 seq); [|done]. injection Ep as <-. unfold seq_in_range. cbn. split; [done|lia].
  - unfold update_sync_cursor_sync. destruct req as [cursor|]; [|by left].
    destruct (require_nonempty_conversation_id _); [|by left]. cbn zeta. destruct (update_cursor _ _ _ _); [|by left].
    right. do 2 eexists. split; [done|]. right. exists cursor. split; [by apply Hreq|]. done.
Qed.

Definition cursors_in_range (c : BoundedCursorMap) : Prop := forall k cursor, cm_map c !! k = Some cursor -> seq_in_range cursor.

Lemma merge_seq previous given : seq_in_range given -> (forall p, previous = Some p -> seq_in_range p) ->
  cur_last_seq (merge_cursor previous given) = Z.max (cur_last_seq given) (default 0 (cur_last_seq <$> previous)).
Proof.
  unfold seq_in_range. intros Hg Hp. unfold merge_cursor. cbn.
  assert (Hid : forall z, 0 <= z <= i64_max -> as_i64 z = z) by (intros z Hz; unfold as_i64; destruct (Z.leb_spec z i64_max); lia).
  rewrite Hid by done. unfold as_u64. destruct previous as [p|]; cbn.
  - specialize (Hp p eq_refl). rewrite Hid by done. rewrite Z.mod_small; [done|]. unfold i64_max in *. lia.
  - rewrite Z.mod_small; [lia|]. unfold i64_max in *. lia.
Qed.

Lemma step_in_range c c' : cursor_map_ok c -> cursors_in_range c -> cursor_step c c' -> cursors_in_range c' /\ cursor_map_ok c'.
Proof.
  intros Hok Hr [->|(user & cursor & -> & Hput)]%cursor_step_inv; [done|]. split; [|by apply cursor_map_insert_ok].
  intros k x. unfold cursor_put. destruct (insert_lookup (user, cur_conversation_id cursor) cursor c k Hok) as [->|[_ ->]]; [|done].
  case_decide; [|apply Hr]. intros [= <-]. destruct Hput as [[_ Hc]|(given & Hg & Ec)]; [done|]. rewrite Ec.
  unfold seq_in_range in *. rewrite merge_seq; [|done|intros p Hp; by apply (Hr _ _ Hp)].
  destruct (cursor_get user _ c) as [p|] eqn:Ep; cbn; [|lia]. specialize (Hr _ _ Ep). unfold seq_in_range in Hr. lia.
Qed.

Lemma reachable_ok capacity c : rtc cursor_step (new_cursor_map capacity) c -> cursor_map_ok c /\ cursors_in_range c.
Proof.
  revert c. apply (rtc_ind_r (R := cursor_step) (fun c => cursor_map_ok c /\ cursors_in_range c)).
  - split; [apply new_cursor_map_ok|]. intros k x. cbn. by rewrite lookup_empty.
  - intros y z _ Hs [H1 H2]. by apply and_comm, (step_in_range y).
Qed.

(** Positions no older in any respect. *)
Definition no_older (old new : MultiDeviceCursor) : Prop :=
  cur_last_seq old <= cur_last_seq new /\ cur_last_sync_at old <= cur_last_sync_at new /\
  cur_last_read_seq old <= cur_last_read_seq new /\ cur_last_message_seq old <= cur_last_message_seq new.

Lemma step_no_older c c' k old new : cursor_map_ok c -> cursors_in_range c -> cursor_step c c' ->
  cm_map c !! k = Some old -> cm_map c' !! k = Some new -> no_older old new.
Proof.
  intros Hok Hr [->|(user & cursor & -> & Hput)]%cursor_step_inv Ho Hn; [rewrite Ho in Hn; injection Hn as ->; unfold no_older; lia|].
  unfold cursor_put in Hn. destruct (insert_lookup (user, cur_conversation_id cursor) cursor c k Hok) as [E|[_ E]]; rewrite E in Hn; [|done].
  case_decide as Ek; [|rewrite Ho in Hn; injection Hn as ->; unfold no_older; lia]. injection Hn as <-. subst k.
  destruct Hput as [[Hf _]|(given & Hg & Ec)]; [unfold cursor_get in Hf; rewrite Ho in Hf; done|].
  unfold cursor_get in Ec. rewrite Ho in Ec. rewrite Ec. unfold no_older. rewrite merge_seq; [|done|].
  - cbn. lia.
  - intros p [= <-]. by apply (Hr _ _ Ho).
Qed.

(** A run in which a key stays cached. *)
Definition keeps (k : CursorKey) (c c' : BoundedCursorMap) : Prop := cursor_step c c' /\ is_Some (cm_map c' !! k).

Lemma kept_no_older capacity c c' k old new : rtc cursor_step (new_cursor_map capacity) c -> rtc (keeps k) c c' ->
  cm_map c !! k = Some old -> cm_map c' !! k = Some new -> no_older old new /\ rtc cursor_step (new_cursor_map capacity) c'.
Proof.
  intros Hreach Hkept. revert old Hreach. induction Hkept as [c|c d c' [Hs [mid Hmid]] _ IH]; intros old Hreach Ho Hn.
  - rewrite Ho in Hn. injection Hn as ->. unfold no_older. split; [lia|done].
  - destruct (reachable_ok _ _ Hreach) as [Hok Hr]. pose proof (step_no_older c d k old mid Hok Hr Hs Ho Hmid) as H1.
    destruct (IH mid) as [H2 H3]; [by eapply rtc_r|done..|]. split; [|done]. unfold no_older in *. lia.
Qed.

Lemma evict_capacity c c' : cursor_step c c' -> cm_capacity c' = cm_capacity c.
Proof.
  intros [->|(user & cursor & -> & _)]%cursor_step_inv; [done|]. unfold cursor_put, cursor_map_insert.
  destruct (cm_map c !! _); [done|]. by destruct (evict _ _ _).
Qed.

Lemma reachable_capacity capacity c : rtc cursor_step (new_cursor_map capacity) c -> cm_capacity c = Nat.max capacity 1.
Proof.
  revert c. apply (rtc_ind_r (R := cursor_step) (fun c => cm_capacity c = Nat.max capacity 1)); [done|].
  intros y z _ Hs <-. by apply evict_capacity.
Qed.

Lemma map_size_order c : cursor_map_ok c -> (size (cm_map c) <= length (cm_order c))%nat.
Proof.
  intros [_ _ Hd Hs]. rewrite <- size_dom, <- (size_list_to_set (C := gset CursorKey)) by done.
  apply subseteq_size. intros k Hk%elem_of_dom. by apply elem_of_list_to_set, Hs.
Qed.

(** Whatever requests arrive, of all users and in any order, and whatever the services answer them,
    no more cursors are cached than the cache has room for, and while a cursor is cached none of its
    positions goes back. *)
Theorem cached_cursors_never_go_back (capacity : nat) (c c' : BoundedCursorMap) (k : CursorKey)
    (old new : MultiDeviceCursor)
    (Hreach : rtc cursor_step (new_cursor_map capacity) c) (Hkept : rtc (keeps k) c c')
    (Hold : cm_map c !! k = Some old) (Hnew : cm_map c' !! k = Some new) :
  (size (cm_map c') <= Nat.max capacity 1)%nat /\
  cur_last_seq old <= cur_last_seq new /\ cur_last_sync_at old <= cur_last_sync_at new /\
  cur_last_read_seq old <= cur_last_read_seq new /\ cur_last_message_seq old <= cur_last_message_seq new.
Proof.
  destruct (kept_no_older capacity c c' k old new Hreach Hkept Hold Hnew) as [Hno Hreach']. split; [|exact Hno].
  destruct (reachable_ok _ _ Hreach') as [Hok _]. rewrite <- (reachable_capacity _ _ Hreach').
  etrans; [by apply map_size_order|apply Hok].
Qed.

(** ** Examples *)

Module CursorSample.
Definition acme : Ctx := mkCtx None (Some "u1") None (Some "acme") None.
Definition other : Ctx := mkCtx None (Some "u1") None (Some "other") None.
Definition accepts (_ : Ctx) (_ : string) (_ : Z) (_ : string) : result unit := Ok ().
Definition no_diff : VersionPort := fun _ _ => Ok [].
Definition nothing : BootstrapPort := fun _ _ _ => Ok (mkBootstrap [] ∅).

Definition at_ (device : string) (seq read : Z) : MultiDeviceCursor := mkDeviceCursor device "c1" seq 100 read 0.

(** A phone reports 9, then a tablet that is behind reports 5 but has read further. *)
Definition first : BoundedCursorMap := (update_sync_cursor_sync accepts acme "u1" (Some (at_ "phone" 9 3)) (new_cursor_map 2)).2.
Definition second : BoundedCursorMap := (update_sync_cursor_sync accepts acme "u1" (Some (at_ "tablet" 5 4)) first).2.
End CursorSample.
Import CursorSample.

Lemma cached_cursors_never_go_back_witness :
  exists old new, cm_map first !! ("u1", "c1") = Some old /\ cm_map second !! ("u1", "c1") = Some new /\
    cur_last_seq old <= cur_last_seq new /\ cur_last_seq new = 9 /\ cur_last_read_seq new = 4.
Proof.
  assert (H1 : cursor_step (new_cursor_map 2) first).
  { apply step_update. intros cursor [= <-]. split; vm_compute; discriminate. }
  assert (H2 : cursor_step first second).
  { apply step_update. intros cursor [= <-]. split; vm_compute; discriminate. }
  exists (at_ "phone" 9 3), (at_ "tablet" 9 4). split; [vm_compute; reflexivity|]. split; [vm_compute; reflexivity|].
  destruct (cached_cursors_never_go_back 2 first second ("u1", "c1") (at_ "phone" 9 3) (at_ "tablet" 9 4)) as (_ & Hseq & _).
  - apply rtc_once. exact H1.
  - apply rtc_once. split; [exact H2|]. exists (at_ "tablet" 9 4). vm_compute. reflexivity.
  - vm_compute. reflexivity.
  - vm_compute. reflexivity.
  - split; [exact Hseq|]. split; reflexivity.
Defined.

(** ** A cursor of another tenant

    The key of a cached cursor is the user and the conversation, without the tenant. A user of one
    tenant is given the position of the user of that id in another, and what the service has for the user
    is not asked for. *)
Theorem cursor_of_another_tenant_is_returned :
  (get_sync_cursor_sync nothing no_diff other "u1" (mkGetCursor "c1" "web" []) first).1 = Ok (Some (at_ "phone" 9 3), None) /\
  (get_sync_cursor_sync nothing no_diff other "u1" (mkGetCursor "c1" "web" []) (new_cursor_map 2)).1 = Ok (None, None).
Proof. split; vm_compute; reflexivity. Qed.
