(* ===== verification/SyncService.v ===== *)
(** * The sync service

    [execute_sync] of flare-sync-orchestrator/src/application/handlers/
    sync_orchestration_handler.rs with the requests that go straight to the conversation
    service: detail, participants, groups to be created and settings. The state of the service is
    what it keeps in memory: summaries of conversations and positions of devices. *)

From S2P Require Import Prelude.
From S2P Require Import Slices.
From S2P Require Import ReadReceipt.
From S2P Require Import ConversationStore.
From S2P Require Import EventReader.
From S2P Require Import Proto.
From S2P Require Import SyncPages.
From S2P Require Import SyncOrchestrator.
From S2P Require Import SyncEvents.
From S2P Require Import SyncSnapshot.
From S2P Require Import SyncCursor.
From stdpp Require Import base gmap list strings.
From Stdlib Require Import Lia ZArith.

Local Open Scope Z_scope.

(** ** Requests to the conversation service *)

Record ParticipantsPage := mkParticipants {
  pp_participants : list ConversationParticipant;
  pp_next_cursor : string;
  pp_has_more : bool;
  pp_version : Z;
  pp_member_count : Z;
}.

Record ConversationParticipantsSync := mkParticipantsReq {
  cp_conversation_id : string;
  cp_cursor : string;
  cp_limit : Z;
  cp_include_removed : bool;
  cp_known_version : Z;
}.

Record EnsureConversationSync := mkEnsureReq {
  ens_conversation_id : string;
  ens_conversation_type : Z;
  ens_business_type : string;
  ens_channel_id : string;
  ens_member_ids : list string;
}.

Record EnsureConversationSyncRes := mkEnsureRes {
  ens_ok : bool;
  ens_error : string;
  ens_member_count : Z;
}.

Record ConversationUserSettingsSync := mkSettingsReq {
  set_conversation_id : string;
  set_is_pinned : option bool;
  set_is_muted : option bool;
  set_is_archived : option bool;
  set_draft : option string;
  set_base_version : Z;
  set_clear_history_through_seq : option Z;
}.

(** ** Ports *)

Section Service.
Context {settings : Type}.

Record SyncPorts := mkSyncPorts {
  port_conversations : ConversationSyncPort;
  port_bootstrap : BootstrapPort;
  port_update_cursor : Ctx -> string -> Z -> string -> result unit;
  (** conversation, cursor, limit and whether members who left are listed *)
  port_participants : Ctx -> string -> string -> Z -> bool -> result ParticipantsPage;
  port_settings : Ctx -> ConversationUserSettingsSync -> result (option settings);
  (** the request and its members *)
  port_create : Ctx -> EnsureConversationSync -> list string -> result unit;
  port_storage : StorageReadPort;
  port_events : EventPort;
  port_versions : VersionPort;
}.

(** [display] is what an error reads as. *)
Context (ports : SyncPorts) (ttl : Z) (display : FlareError -> string).

Definition conversation_detail_sync (ctx : Ctx) (conversation : string) : result (option string) :=
  _ ← require_nonempty_conversation_id conversation;
  conversation_detail (port_conversations ports) ctx conversation.

(** A client that knows the members gets no list. *)
Definition conversation_participants_sync (ctx : Ctx) (req : ConversationParticipantsSync) : result ParticipantsPage :=
  _ ← require_nonempty_conversation_id (cp_conversation_id req);
  page ← port_participants ports ctx (cp_conversation_id req) (cp_cursor req) (cp_limit req) (cp_include_removed req);
  if (0 <? cp_known_version req) && (cp_known_version req =? pp_version page) && Str.is_blank (cp_cursor req)
  then Ok (mkParticipants [] "" false (pp_version page) (pp_member_count page))
  else Ok page.

(** The members of a group, sorted, each once, the user who creates it among them. *)
Definition ensure_members (user : string) (ids : list string) : list string :=
  let members := filter (fun m => Str.is_blank m = false) ids in
  let members := if Str.is_blank user then members else members ++ [user] in
  dedup_by (fun a b => bool_decide (a = b)) (sort_by String.leb members).

Definition ensure_conversation_sync (ctx : Ctx) (user : string) (req : EnsureConversationSync) : result EnsureConversationSyncRes :=
  _ ← require_nonempty_conversation_id (ens_conversation_id req);
  let members := ensure_members user (ens_member_ids req) in
  match port_create ports ctx req members with
  | Ok _ => Ok (mkEnsureRes true "" (Z.of_nat (length members)))
  | Err e => Ok (mkEnsureRes false (display e) 0)
  end.

Definition conversation_user_settings_sync (ctx : Ctx) (req : ConversationUserSettingsSync) : result (option settings) :=
  _ ← require_nonempty_conversation_id (set_conversation_id req);
  port_settings ports ctx req.

(** ** The entry *)

Inductive SyncPayload :=
  | SingleConversation (req : SingleConversationSync)
  | MultiConversation (req : MultiConversationSync)
  | Conversations (cursor : string) (limit : Z)
  | ConversationDetail (conversation : string)
  | QueryEvents (req : QueryEventsSync)
  | GetSyncCursor (req : GetSyncCursorSync)
  | UpdateSyncCursor (cursor : option MultiDeviceCursor)
  | ConversationUserSettings (req : ConversationUserSettingsSync)
  | EventStreamAck
  | SyncSnapshot (req : SyncSnapshotSync)
  | ConversationParticipants (req : ConversationParticipantsSync)
  | EnsureConversation (req : EnsureConversationSync)
  | ConversationsIncremental
  | ConversationsAll
  | ConversationMaxSeq.

Inductive SyncRes :=
  | SingleConversationRes (r : SingleConversationSyncRes)
  | MultiConversationRes (r : MultiConversationSyncRes)
  | ConversationsRes (r : ConversationsSyncRes)
  | ConversationDetailRes (r : option string)
  | QueryEventsRes (r : QueryEventsSyncRes)
  | GetSyncCursorRes (r : option MultiDeviceCursor * option (list ConversationVersion))
  | UpdateSyncCursorRes (r : MultiDeviceCursor)
  | ConversationUserSettingsRes (r : option settings)
  | EventStreamAckRes
  | SyncSnapshotRes (r : SyncSnapshotOutcome)
  | ConversationParticipantsRes (r : ParticipantsPage)
  | EnsureConversationRes (r : EnsureConversationSyncRes).

Record SyncState := mkSyncState {
  kept_pages : PageCache;
  kept_cursors : BoundedCursorMap;
}.

(** A request that keeps nothing. *)
Definition stateless {A} (f : A -> SyncRes) (r : result A) (st : SyncState) : result SyncRes * SyncState :=
  (a ← r; Ok (f a), st).

Definition on_pages {A} (f : A -> SyncRes) (r : result A * PageCache) (st : SyncState) : result SyncRes * SyncState :=
  (a ← r.1; Ok (f a), mkSyncState r.2 (kept_cursors st)).

Definition on_cursors {A} (f : A -> SyncRes) (r : result A * BoundedCursorMap) (st : SyncState) : result SyncRes * SyncState :=
  (a ← r.1; Ok (f a), mkSyncState (kept_pages st) r.2).

Definition execute_sync (now : Z) (ctx : Ctx) (user : string) (payload : option SyncPayload) (st : SyncState)
    : result SyncRes * SyncState :=
  match payload with
  | None => (Err (flare_err InvalidParameter "sync payload is required"), st)
  | Some (SingleConversation req) =>
      stateless SingleConversationRes (single_conversation_sync (port_conversations ports) (port_storage ports) ctx user req) st
  | Some (MultiConversation req) =>
      stateless MultiConversationRes (multi_conversation_sync (port_conversations ports) (port_storage ports) ctx user req) st
  | Some (Conversations cursor limit) =>
      on_pages ConversationsRes (conversations_sync (port_bootstrap ports) (port_storage ports) ttl now (kept_pages st) ctx user cursor limit) st
  | Some (ConversationDetail c) => stateless ConversationDetailRes (conversation_detail_sync ctx c) st
  | Some (QueryEvents req) => stateless QueryEventsRes (query_events_sync (port_events ports) ctx req) st
  | Some (GetSyncCursor req) =>
      on_cursors GetSyncCursorRes (get_sync_cursor_sync (port_bootstrap ports) (port_versions ports) ctx user req (kept_cursors st)) st
  | Some (UpdateSyncCursor cursor) =>
      on_cursors UpdateSyncCursorRes (update_sync_cursor_sync (port_update_cursor ports) ctx user cursor (kept_cursors st)) st
  | Some (ConversationUserSettings req) => stateless ConversationUserSettingsRes (conversation_user_settings_sync ctx req) st
  | Some EventStreamAck => (Ok EventStreamAckRes, st)
  | Some (SyncSnapshot req) =>
      on_pages SyncSnapshotRes (get_sync_snapshot (port_bootstrap ports) (port_storage ports) ttl now (kept_pages st) ctx user req) st
  | Some (ConversationParticipants req) => stateless ConversationParticipantsRes (conversation_participants_sync ctx req) st
  | Some (EnsureConversation req) => stateless EnsureConversationRes (ensure_conversation_sync ctx user req) st
  | Some ConversationsIncremental | Some ConversationsAll | Some ConversationMaxSeq =>
      (Err (flare_err InvalidParameter "sync payload is not supported by orchestrator"), st)
  end.

(** [ExecuteSync] of the gRPC handler: the user is the one of the context. *)
Definition grpc_execute_sync (now : Z) (ctx : Ctx) (payload : option SyncPayload) (st : SyncState)
    : result SyncRes * SyncState :=
  match ctx_user_id ctx with
  | Some user =>
      if Str.is_empty user then (Err (flare_err AuthenticationRequired "User ID is required in context"), st)
      else execute_sync now ctx user payload st
  | None => (Err (flare_err AuthenticationRequired "User ID is required in context"), st)
  end.

(** ** What a request leaves to others *)

Lemma cache_put_other now cache tenant user after resp k : k <> (tenant, user) ->
  cache_put ttl now cache tenant user after resp !! k = cache !! k \/ cache_put ttl now cache tenant user after resp !! k = None.
Proof.
  intros Hk. unfold cache_put. destruct (bool_decide (ttl = 0)); [by left|]. set (kept := if (_ <=? _)%nat then _ else cache).
  assert (Hkept : kept !! k = cache !! k \/ kept !! k = None).
  { unfold kept. destruct (_ <=? _)%nat; [|by left]. destruct (_ <=? _)%nat; [right; apply lookup_empty|].
    destruct (filter _ cache !! k) as [e|] eqn:E; [|by right]. apply map_lookup_filter_Some in E as [E _]. by left. }
  destruct (kept !! (tenant, user)) as [e|]; [destruct (entry_fresh ttl now e && _); [done|]|]; by rewrite lookup_insert_ne.
Qed.

Lemma snapshot_other now cache ctx user req k :
  (forall tenant, snapshot_tenant ctx = Ok tenant -> k <> (tenant, user)) ->
  let cache' := (get_sync_snapshot (port_bootstrap ports) (port_storage ports) ttl now cache ctx user req).2 in
  cache' !! k = cache !! k \/ cache' !! k = None.
Proof.
  intros Hk. unfold get_sync_snapshot. destruct (snapshot_tenant ctx) as [tenant|]; [|by left]. specialize (Hk tenant eq_refl).
  destruct (snapshot_summaries _ _ _ _ _ _ _ _) as [[resp cache']|] eqn:E; [|by left]. cbn. revert E. unfold snapshot_summaries. cbn zeta.
  destruct (if Str.is_blank _ then None else _); [intros [= <- <-]; by left|].
  destruct (port_bootstrap ports ctx _ _); [|done]. intros [= <- <-]. by apply cache_put_other.
Qed.

Lemma cursor_put_other user cursor c k : cursor_map_ok c -> k.1 <> user ->
  cm_map (cursor_put user cursor c) !! k = cm_map c !! k \/ cm_map (cursor_put user cursor c) !! k = None.
Proof.
  intros Hok Hk. unfold cursor_put. destruct (insert_lookup (user, cur_conversation_id cursor) cursor c k Hok) as [->|[_ ->]]; [|by right].
  rewrite decide_False; [by left|]. intros ->. by apply Hk.
Qed.

Lemma get_cursor_other ctx user req c k : cursor_map_ok c -> k.1 <> user ->
  let c' := (get_sync_cursor_sync (port_bootstrap ports) (port_versions ports) ctx user req c).2 in
  cm_map c' !! k = cm_map c !! k \/ cm_map c' !! k = None.
Proof.
  intros Hok Hk. unfold get_sync_cursor_sync. destruct (require_nonempty_conversation_id _); [|by left].
  destruct (cursor_get _ _ c); [by left|]. destruct (port_bootstrap ports ctx 0 _); [|by left].
  destruct (persistent_cursor _ req); [|by left]. by apply cursor_put_other.
Qed.

Lemma update_cursor_other ctx user req c k : cursor_map_ok c -> k.1 <> user ->
  let c' := (update_sync_cursor_sync (port_update_cursor ports) ctx user req c).2 in
  cm_map c' !! k = cm_map c !! k \/ cm_map c' !! k = None.
Proof.
  intros Hok Hk. unfold update_sync_cursor_sync. destruct req as [cursor|]; [|by left].
  destruct (require_nonempty_conversation_id _); [|by left]. cbn zeta.
  destruct (port_update_cursor ports _ _ _ _); [|by left]. by apply cursor_put_other.
Qed.
End Service.

Arguments SyncPorts : clear implicits.
Arguments SyncPayload : clear implicits.

(** A request changes nothing that is kept for others: what is kept of another user's conversations, or
    of the user of that id in another tenant, and the positions of another user stay as they are, unless
    they are dropped to make room. *)
Theorem requests_keep_users_apart {settings : Type} (ports : SyncPorts settings) (ttl now : Z)
    (display : FlareError -> string) (ctx : Ctx) (user tenant : string) (payload : option SyncPayload) (st : SyncState)
    (pages_key cursor_key : string * string)
    (Hok : cursor_map_ok (kept_cursors st))
    (Htenant : snapshot_tenant ctx = Ok tenant) (Hpages : pages_key <> (tenant, user)) (Hcursor : cursor_key.1 <> user) :
  let st' := (execute_sync ports ttl display now ctx user payload st).2 in
  (kept_pages st' !! pages_key = kept_pages st !! pages_key \/ kept_pages st' !! pages_key = None) /\
  (cm_map (kept_cursors st') !! cursor_key = cm_map (kept_cursors st) !! cursor_key \/ cm_map (kept_cursors st') !! cursor_key = None).
Proof.
  assert (Hp : forall t, snapshot_tenant ctx = Ok t -> pages_key <> (t, user)) by (intros t Ht; congruence).
  destruct payload as [[]|]; cbn [execute_sync stateless on_pages on_cursors snd fst kept_pages kept_cursors];
    try (split; by left).
  - split; [|by left]. unfold conversations_sync. cbn zeta.
    pose proof (snapshot_other ports ttl now (kept_pages st) ctx user
      (mkSnapshotReq [] 1 true (Str.trim cursor) false (Z.max limit 1)) pages_key Hp) as H.
    by destruct (get_sync_snapshot _ _ _ _ _ _ _ _).
  - split; [by left|]. by apply get_cursor_other.
  - split; [by left|]. by apply update_cursor_other.
  - split; [|by left]. by apply snapshot_other.
Qed.

(** ** Members of a group to be created *)

Lemma elem_of_dedup_from {A} `{EqDecision A} (kept : A) l x :
  x ∈ kept :: dedup_from (fun a b => bool_decide (a = b)) kept l <-> x ∈ kept :: l.
Proof.
  revert kept. induction l as [|y l IH]; intros kept; [done|]. cbn. case_bool_decide as E.
  - subst y. rewrite IH. rewrite !elem_of_cons. tauto.
  - rewrite elem_of_cons, IH. rewrite !elem_of_cons. tauto.
Qed.

Lemma elem_of_dedup_by {A} `{EqDecision A} l (x : A) : x ∈ dedup_by (fun a b => bool_decide (a = b)) l <-> x ∈ l.
Proof. destruct l as [|y l]; [done|]. apply elem_of_dedup_from. Qed.

(** The group is created with the members that were named and the user, each once: none is blank and none is
    left out. *)
Theorem ensured_members_are_those_named (user : string) (ids : list string) :
  NoDup (ensure_members user ids) /\
  forall m, m ∈ ensure_members user ids <-> Str.is_blank m = false /\ (m ∈ ids \/ m = user).
Proof.
  unfold ensure_members. cbn zeta. set (named := if Str.is_blank user then _ else _). split.
  - assert (Hs := dedup_by_strict String.leb (fun a b => bool_decide (a = b)) (sort_by String.leb named)).
    lapply Hs; [clear Hs; intros Hs; specialize (Hs (sort_by_sorted String.leb named))|].
    2: { intros a b x Hab Hbx ->%bool_decide_eq_true. apply bool_decide_eq_true. by apply str_leb_antisym. }
    induction Hs as [|x l _ IH Hx]; constructor; [|done]. intros Hin. rewrite Forall_forall in Hx.
    destruct (Hx x Hin) as [_ Hne]. by rewrite bool_decide_eq_true_2 in Hne.
  - intros m. rewrite elem_of_dedup_by, elem_of_sort_by. unfold named.
    destruct (Str.is_blank user) eqn:Eu; rewrite ?elem_of_app, list_elem_of_filter, ?list_elem_of_singleton; naive_solver congruence.
Qed.

(** ** Examples *)

Definition quiet_ports : SyncPorts unit :=
  mkSyncPorts alice_conversations (fun _ _ _ => Ok (mkBootstrap [] ∅)) (fun _ _ _ _ => Ok ())
    (fun _ _ _ _ _ => Ok (mkParticipants [] "" false 0 0)) (fun _ _ => Ok None) (fun _ _ _ => Ok ())
    quiet_storage (fun _ _ _ _ _ _ => Ok ([], 0, false, "")) (fun _ _ => Ok []).

Definition bobs_cursor : MultiDeviceCursor := mkDeviceCursor "phone" "g1" 7 0 7 0.

Definition held : SyncState :=
  mkSyncState {[ ("acme", "bob") := mkCacheEntry 0 0 (mkBootstrap [] ∅) ]} (cursor_put "bob" bobs_cursor (new_cursor_map 4)).

Lemma requests_keep_users_apart_witness :
  let st' := (execute_sync quiet_ports 1500 err_reason 10 alice_ctx "alice" (Some (Conversations "" 20)) held).2 in
  (kept_pages st' !! ("acme", "bob") = kept_pages held !! ("acme", "bob") \/ kept_pages st' !! ("acme", "bob") = None) /\
  is_Some (kept_pages st' !! ("acme", "bob")) /\ is_Some (kept_pages st' !! ("acme", "alice")).
Proof.
  split.
  - apply (requests_keep_users_apart quiet_ports 1500 10 err_reason alice_ctx "alice" "acme" (Some (Conversations "" 20)) held
      ("acme", "bob") ("bob", "g1")).
    + apply cursor_map_insert_ok, new_cursor_map_ok.
    + reflexivity.
    + discriminate.
    + discriminate.
  - split; eexists; vm_compute; reflexivity.
Defined.
