(* ===== verification/PushTypes.v ===== *)
(** * Push requests and tasks

    The requests the push services pass on (flare_grpc_proto access_gateway), the tasks
    between the push server and the push worker, and their encoding. The generated protocol
    crate is not part of the repository: the records hold the fields the services read and
    write, and the codec is the class [PushCodec] with the round trips of [PushCodecLaws]. *)

From S2P Require Import Prelude.
From S2P Require Import Proto.
From S2P Require Import Tenant.
From stdpp Require Import base gmap strings list.
From Stdlib Require Import ZArith.

Open Scope Z_scope.

Inductive EventEnvelopeDeliveryMode := DeliveryUnspecified | DeliveryInline | DeliveryPing | DeliveryPingWithInline.

#[export] Instance DeliveryMode_eq_dec : EqDecision EventEnvelopeDeliveryMode.
Proof. solve_decision. Defined.

(** [access_gateway::PushOptions] *)
Record PushOptions := mkPushOptions {
  require_ack : bool;
  opt_priority : Z;
  expire_at_ms : Z;
  offline_push : bool;
  opt_device_ids : list string;
  opt_platforms : list string;
}.

#[export] Instance PushOptions_eq_dec : EqDecision PushOptions.
Proof. solve_decision. Defined.

(** [PushOptions::default()] *)
Definition default_options : PushOptions := mkPushOptions false 0 0 false [] [].

(** [event::Payload] as the push services see it: a message, or anything else. *)
Inductive PushEventPayload := EvMessage (m : Message) | EvOther (p : Payload).

Record PushEvent := mkPushEvent {
  pe_event_id : string;
  pe_conversation_id : string;
  pe_conversation_seq : Z;
  pe_type : wire EventType;
  pe_payload : option PushEventPayload;
}.

Record PushMessageRequest := mkPushMessage {
  pm_user_ids : list string;
  pm_messages : list Message;
  pm_options : option PushOptions;
}.

Record PushEventRequest := mkPushEventRequest {
  pr_user_ids : list string;
  pr_events : list PushEvent;
  pr_options : option PushOptions;
  pr_conversation_id : string;
  pr_max_conversation_seq : Z;
  pr_delivery_mode : wire EventEnvelopeDeliveryMode;
  pr_inline_events_truncated : bool;
}.

Inductive NotificationKind := KindCustom | KindSystem.

Record NotificationMessage := mkNotification {
  nm_kind : NotificationKind;
  nm_notification_id : string;
  nm_title : string;
  nm_body : string;
  nm_created_at : Z;
  nm_attributes : gmap string string;
}.

Record PushNotificationRequest := mkPushNotification {
  pn_user_ids : list string;
  pn_notification : option NotificationMessage;
  pn_options : option PushOptions;
}.

(** [Ack] with a [PushAck] payload. *)
Record PushAck := mkPushAck {
  ack_id : string;
  ack_at : Z;
  window_id : string;
  ack_seq : Z;
  ack_attributes : gmap string string;
}.

Record PushAckRequest := mkPushAckRequest {
  pa_user_ids : list string;
  pa_ack : option PushAck;
  pa_options : option PushOptions;
}.

Record CustomData := mkCustomData {
  custom_type : string;
  custom_payload : string;
  custom_data_attributes : gmap string string;
}.

Record PushCustomRequest := mkPushCustom {
  pc_user_ids : list string;
  pc_custom_data : option CustomData;
  pc_options : option PushOptions;
}.

Record CapabilityPacket := mkPacket {
  capability_id : string;
  correlation_id : option string;
  packet_body : string;
}.

Record PushCapabilityRequest := mkPushCapability {
  pk_user_ids : list string;
  pk_packet : option CapabilityPacket;
  pk_options : option PushOptions;
}.

(** [PushTaskPayloadKind]: which request the payload of a task is. *)
Inductive PushTaskPayloadKind :=
  | TaskUnspecified | TaskMessage | TaskEvent | TaskNotification | TaskAck | TaskCustom | TaskCapability.

#[export] Instance TaskPayloadKind_eq_dec : EqDecision PushTaskPayloadKind.
Proof. solve_decision. Defined.

Inductive PushRequest :=
  | RMessage (r : PushMessageRequest)
  | REvent (r : PushEventRequest)
  | RNotification (r : PushNotificationRequest)
  | RAck (r : PushAckRequest)
  | RCustom (r : PushCustomRequest)
  | RCapability (r : PushCapabilityRequest).

Definition kind_of (r : PushRequest) : PushTaskPayloadKind :=
  match r with
  | RMessage _ => TaskMessage | REvent _ => TaskEvent | RNotification _ => TaskNotification
  | RAck _ => TaskAck | RCustom _ => TaskCustom | RCapability _ => TaskCapability
  end.

(** [user_ids] of a request. *)
Definition recipients (r : PushRequest) : list string :=
  match r with
  | RMessage r => pm_user_ids r | REvent r => pr_user_ids r | RNotification r => pn_user_ids r
  | RAck r => pa_user_ids r | RCustom r => pc_user_ids r | RCapability r => pk_user_ids r
  end.

(** [request.user_ids = user_ids] *)
Definition with_recipients (users : list string) (r : PushRequest) : PushRequest :=
  match r with
  | RMessage r => RMessage (mkPushMessage users (pm_messages r) (pm_options r))
  | REvent r => REvent (mkPushEventRequest users (pr_events r) (pr_options r) (pr_conversation_id r)
                          (pr_max_conversation_seq r) (pr_delivery_mode r) (pr_inline_events_truncated r))
  | RNotification r => RNotification (mkPushNotification users (pn_notification r) (pn_options r))
  | RAck r => RAck (mkPushAckRequest users (pa_ack r) (pa_options r))
  | RCustom r => RCustom (mkPushCustom users (pc_custom_data r) (pc_options r))
  | RCapability r => RCapability (mkPushCapability users (pk_packet r) (pk_options r))
  end.

Lemma recipients_with users r : recipients (with_recipients users r) = users.
Proof. by destruct r. Qed.

Lemma kind_with users r : kind_of (with_recipients users r) = kind_of r.
Proof. by destruct r. Qed.

Record PushTaskEnvelope {Bytes : Type} := mkTask {
  task_user_id : string;
  task_message_id : string;
  task_conversation_id : string;
  task_tenant_id : string;
  task_priority : Z;
  task_expire_at : option Z;
  task_payload : Bytes;
  task_headers : gmap string string;
  task_payload_kind : wire PushTaskPayloadKind;
}.
Arguments PushTaskEnvelope : clear implicits.

(** prost: [encode_to_vec] of a request and [decode] of the bytes as a request of a kind; the
    same for tasks. *)
Class PushCodec (Bytes : Type) := {
  encode_request : PushRequest -> Bytes;
  decode_request : PushTaskPayloadKind -> Bytes -> option PushRequest;
  encode_task : PushTaskEnvelope Bytes -> Bytes;
  decode_task : Bytes -> option (PushTaskEnvelope Bytes);
}.

Class PushCodecLaws (Bytes : Type) `{PushCodec Bytes} : Prop := {
  decode_encode_request r : decode_request (kind_of r) (encode_request r) = Some r;
  decode_kind k b r : decode_request k b = Some r -> kind_of r = k;
  decode_encode_task t : decode_task (encode_task t) = Some t;
}.

Section Decode.
Context `{PushCodec Bytes}.

(** [PushTaskPayloadKind::try_from(kind).unwrap_or(Unspecified)] *)
Definition payload_kind_of (k : wire PushTaskPayloadKind) : PushTaskPayloadKind := default TaskUnspecified k.

Definition decode_message (b : Bytes) : option PushMessageRequest :=
  match decode_request TaskMessage b with Some (RMessage r) => Some r | _ => None end.

Definition decode_event (b : Bytes) : option PushEventRequest :=
  match decode_request TaskEvent b with Some (REvent r) => Some r | _ => None end.

End Decode.

(** [is_valid_tenant_id(t) && normalize_tenant_id(t) == t] *)
Definition canonical_tenant (t : string) : bool :=
  is_valid_tenant_id t && bool_decide (normalize_tenant_id t = t).

(** A codec that keeps the values: bytes are what was encoded. *)
Inductive Wire :=
  | WRequest (r : PushRequest)
  | WTask (user_id message_id conversation_id tenant_id : string) (priority : Z) (expire_at : option Z)
      (payload : Wire) (headers : gmap string string) (kind : wire PushTaskPayloadKind).

#[export] Instance wire_codec : PushCodec Wire := {
  encode_request := WRequest;
  decode_request k b := match b with
                | WRequest r => if decide (kind_of r = k) then Some r else None
                | WTask _ _ _ _ _ _ _ _ _ => None
                end;
  encode_task t := WTask (task_user_id t) (task_message_id t) (task_conversation_id t) (task_tenant_id t)
                     (task_priority t) (task_expire_at t) (task_payload t) (task_headers t) (task_payload_kind t);
  decode_task b := match b with
                   | WTask u m c t p e w h k => Some (mkTask _ u m c t p e w h k)
                   | WRequest _ => None
                   end;
}.

#[export] Instance wire_codec_laws : PushCodecLaws Wire.
Proof.
  split.
  - intros r. cbn. by rewrite decide_True.
  - intros k [r0|] r; cbn; [|done]. case_decide; naive_solver.
  - by intros [].
Qed.
