(* ===== verification/PushRouter.v ===== *)
(** * The push router

    flare-push/server: push_router_handler.rs with the publisher of its tasks
    (infrastructure/mq/publisher.rs), and the policy of mobile alerts
    (crates/flare-im-contracts/src/domain/push_policy.rs). The router turns a message, an
    event or a push envelope into tasks: one online task per thousand recipients, one offline
    task per recipient whose phone is to ring. Queries of online states, of the index of a
    conversation and of notification preferences are ports. Up to 64 tasks are published at a
    time; the order is that of the list here, and no theorem depends on it. *)

From S2P Require Import Prelude.
From S2P Require Import Proto.
From S2P Require Import Tenant.
From S2P Require Import Database.
From S2P Require Import PushTypes.
From stdpp Require Import base gmap sets strings list.
From Stdlib Require Import ZArith Lia.

Open Scope Z_scope.

(** ** Mobile alerts *)

Definition message_has_mobile_alert (m : Message) : bool :=
  match content m with
  | Some (Some (Notification notice)) =>
      negb (Str.is_blank (notice_title notice) && Str.is_blank (notice_body notice)
            && negb (show_in_list notice) && negb (show_badge notice) && negb (play_sound notice))
  | _ => true
  end.

Definition event_has_mobile_alert (e : PushEvent) : bool :=
  bool_decide (pe_type e = Some EventMessage)
  && match pe_payload e with Some (EvMessage m) => message_has_mobile_alert m | _ => false end.

(** ** Mentions *)

Record MentionTargets := mkMentions { mt_all : bool; mt_users : gset string; mt_unknown : bool }.

Definition unknown_mentions : MentionTargets := mkMentions false ∅ true.

Definition mentions (t : MentionTargets) (user : string) : bool :=
  mt_unknown t || mt_all t || bool_decide (user ∈ mt_users t).

Definition add_mention (out : MentionTargets) (m : Mention) : MentionTargets :=
  mkMentions (mention_all m || mt_all out)
    ((if Str.is_empty (mention_user_id m) then mt_users out else {[ mention_user_id m ]} ∪ mt_users out)
     ∪ list_to_set (mention_user_ids m))
    (mt_unknown out).

(** A rich text may mention anybody: it is not read. *)
Fixpoint collect_mentions (c : Content) (out : MentionTargets) : MentionTargets :=
  match c with
  | Text _ ms => foldl add_mention out ms
  | RichText => mkMentions (mt_all out) (mt_users out) true
  | Quote (Some (Some inner)) => collect_mentions inner out
  | _ => out
  end.

(** ** Read receipts, pings, ids *)

Definition events_are_read_receipts_only (req : PushEventRequest) : bool :=
  negb (bool_decide (pr_events req = [])) && forallb (fun e => bool_decide (pe_type e = Some EventReadReceipt)) (pr_events req).

Definition pure_conversation_ping (req : PushEventRequest) : option (string * Z) :=
  match pr_events req with
  | [] =>
      if Str.is_blank (pr_conversation_id req) || (pr_max_conversation_seq req =? 0) then None
      else match pr_delivery_mode req with
           | Some DeliveryPing => Some (pr_conversation_id req, pr_max_conversation_seq req)
           | _ => None
           end
  | _ => None
  end.

Definition event_conversation_id (req : PushEventRequest) : string :=
  if Str.is_blank (pr_conversation_id req) then default "" (pe_conversation_id <$> head (pr_events req))
  else pr_conversation_id req.

Definition event_message_id (fresh : string) (req : PushEventRequest) : string :=
  match pr_events req with
  | e :: _ => if Str.is_empty (pe_event_id e) then "event-" +:+ fresh else pe_event_id e
  | [] =>
      match pure_conversation_ping req with
      | Some (c, seq) => "conversation-ping:" +:+ c +:+ ":" +:+ Str.of_Z seq
      | None => "event-" +:+ fresh
      end
  end.

Definition options_priority (o : option PushOptions) : Z := from_option opt_priority 5 o.
Definition options_expiry (o : option PushOptions) : option Z :=
  x ← expire_at_ms <$> o; if 0 <? x then Some x else None.

(** ** Coalescing of pings

    Pings of a conversation within a window are merged; the merged ping is sent at its end.
    Instants are in nanoseconds. *)

Abbreviation CoalesceKey := (string * string)%type.

Record CoalesceEntry := mkEntry { last_sent : Z; scheduled : bool; pending : option PushEventRequest }.
Record CoalesceState := mkCoalesce { entries : gmap CoalesceKey CoalesceEntry; last_sweep : Z }.

Inductive CoalesceDecision := SendNow | ScheduleAfter (delay : Z) | Suppressed.

(** [Instant::duration_since], which saturates *)
Definition duration_since (now before : Z) : Z := Z.max 0 (now - before).

Definition is_idle (now window : Z) (e : CoalesceEntry) : bool :=
  negb (scheduled e) && bool_decide (pending e = None) && (window <=? duration_since now (last_sent e)).

Definition sweep_interval (window : Z) : Z := Z.max (window * 10) (30 * 10 ^ 9).

Definition as_ping (options : option PushOptions) (conversation : string) (seq : Z)
    : PushEventRequest :=
  mkPushEventRequest [] [] options conversation seq (Some DeliveryPing) true.

Definition pending_conversation_ping_request (req : PushEventRequest) (conversation : string) (seq : Z) : PushEventRequest :=
  as_ping (pr_options req) conversation seq.

Definition merge_pending_conversation_ping (existing incoming : PushEventRequest) : PushEventRequest :=
  as_ping (match pr_options incoming with Some o => Some o | None => pr_options existing end)
    (pr_conversation_id existing) (Z.max (pr_max_conversation_seq existing) (pr_max_conversation_seq incoming)).

Definition sweep (window now : Z) (st : CoalesceState) : CoalesceState :=
  if sweep_interval window <=? duration_since now (last_sweep st)
  then mkCoalesce (filter (fun x => is_idle now window x.2 = false) (entries st)) now
  else st.

Definition put_entry (k : CoalesceKey) (e : CoalesceEntry) (st : CoalesceState) : CoalesceState :=
  mkCoalesce (<[k := e]> (entries st)) (last_sweep st).

Definition observe (window now : Z) (k : CoalesceKey) (incoming : PushEventRequest) (st : CoalesceState)
    : CoalesceDecision * CoalesceState :=
  if window =? 0 then (SendNow, st)
  else
    let st := sweep window now st in
    match entries st !! k with
    | None => (SendNow, put_entry k (mkEntry now false None) st)
    | Some e =>
        let elapsed := duration_since now (last_sent e) in
        if window <=? elapsed then (SendNow, put_entry k (mkEntry now false None) st)
        else
          let merged := match pending e with
                        | Some existing => merge_pending_conversation_ping existing incoming
                        | None => incoming
                        end in
          (if scheduled e then Suppressed else ScheduleAfter (window - elapsed),
           put_entry k (mkEntry (last_sent e) true (Some merged)) st)
    end.

Definition take_pending (now : Z) (k : CoalesceKey) (st : CoalesceState) : option PushEventRequest * CoalesceState :=
  match entries st !! k with
  | None => (None, st)
  | Some e =>
      (pending e, put_entry k (mkEntry (match pending e with Some _ => now | None => last_sent e end) false None) st)
  end.

(** ** Push envelopes *)

Inductive PushTargetType := TargetUnspecified | TargetAll | TargetUsers | TargetDevices.

(** [common::PushOptions] *)
Record EnvelopeOptions := mkEnvelopeOptions { eo_require_ack : bool; eo_priority : Z; eo_expire_at : option Z }.

Record AckPayload := mkAckPayload {
  ap_conversation_id : string;
  ap_ack_type : string;
  ap_ack_at : Z;
  ap_message_id : string;
  ap_seq : Z;
}.

Record NotificationPayload := mkNotificationPayload {
  np_notification_id : string;
  np_title : string;
  np_body : string;
  np_icon : string;
  np_sound : string;
  np_click_action : string;
  np_created_at : Z;
  np_attributes : gmap string string;
}.

Record SystemPayload := mkSystemPayload {
  sp_title : string;
  sp_content : string;
  sp_created_at : Z;
  sp_attributes : gmap string string;
}.

(** [push_envelope::Payload] *)
Inductive EnvelopePayload :=
  | EnvAck (p : AckPayload)
  | EnvNotification (p : NotificationPayload)
  | EnvCustom (p : CustomData)
  | EnvCapability (p : CapabilityPacket)
  | EnvSystem (p : SystemPayload).

Record PushEnvelope := mkEnvelope {
  envelope_id : string;
  env_tenant_id : string;
  env_target_type : wire PushTargetType;
  env_target_user_ids : list string;
  env_target_device_ids : list string;
  env_options : option EnvelopeOptions;
  env_payload : option EnvelopePayload;
  env_headers : gmap string string;
}.

Definition gateway_options (options : option EnvelopeOptions) (device_ids : list string) : option PushOptions :=
  match options, device_ids with
  | None, [] => None
  | _, _ => Some (mkPushOptions (from_option eo_require_ack false options) (from_option eo_priority 5 options)
                    (default 0 (o ← options; eo_expire_at o)) false device_ids [])
  end.

Definition ack_from_payload (envelope_id : string) (p : AckPayload) : PushAck :=
  mkPushAck envelope_id (ap_ack_at p) (ap_message_id p) (ap_seq p)
    (<["ack_type" := ap_ack_type p]> {[ "conversation_id" := ap_conversation_id p ]}).

Definition attribute (k v : string) (m : gmap string string) : gmap string string :=
  if Str.is_empty v then m else <[k := v]> m.

Definition notification_from_payload (p : NotificationPayload) : NotificationMessage :=
  mkNotification KindCustom (np_notification_id p) (np_title p) (np_body p) (np_created_at p)
    (attribute "click_action" (np_click_action p) (attribute "sound" (np_sound p) (attribute "icon" (np_icon p) (np_attributes p)))).

Definition notification_from_system (fresh : string) (p : SystemPayload) : NotificationMessage :=
  mkNotification KindSystem ("system-" +:+ fresh) (sp_title p) (sp_content p) (sp_created_at p) (sp_attributes p).

(** [push_task_payload]: the request of the task and the id of its message; the kind of the
    task is that of the request. *)
Definition push_task_payload (fresh : string) (envelope : PushEnvelope) (users : list string)
    : result (PushRequest * string) :=
  let options := gateway_options (env_options envelope) (env_target_device_ids envelope) in
  let id := envelope_id envelope in
  match env_payload envelope with
  | None => Err (flare_err InvalidParameter "push envelope payload missing")
  | Some (EnvAck p) => Ok (RAck (mkPushAckRequest users (Some (ack_from_payload id p)) options), id)
  | Some (EnvNotification p) =>
      Ok (RNotification (mkPushNotification users (Some (notification_from_payload p)) options),
          if Str.is_empty (np_notification_id p) then id else np_notification_id p)
  | Some (EnvCustom p) =>
      Ok (RCustom (mkPushCustom users (Some p) options),
          if Str.is_empty (custom_type p) then id else id +:+ ":" +:+ custom_type p)
  | Some (EnvCapability p) =>
      Ok (RCapability (mkPushCapability users (Some p) options),
          match correlation_id p with Some c => if Str.is_empty c then id else c | None => id end)
  | Some (EnvSystem p) =>
      Ok (RNotification (mkPushNotification users (Some (notification_from_system fresh p)) options), id)
  end.

Definition unsupported_push_target {A} (target : string) : result A :=
  Err (flare_err InvalidParameter ("push target type `" +:+ target +:+ "` is not supported")).

(** ** The router *)

Record NotifyPreference := mkPreference { pref_muted : bool; pref_mention_only : bool }.

(** [NotifyPreference::default()] *)
Definition no_preference : NotifyPreference := mkPreference false false.

Record NotifyPolicyRepository := mkPolicy {
  preferences_for : Ctx -> string -> list string -> result (gmap string NotifyPreference);
  all_participants : Ctx -> string -> nat -> result (option (gmap string NotifyPreference));
}.

Definition ONLINE_FANOUT_CHUNK : nat := 1000.

(** [slice::chunks] *)
Fixpoint chunks_fuel {A} (fuel n : nat) (l : list A) : list (list A) :=
  match fuel, l with
  | S fuel, _ :: _ => take n l :: chunks_fuel fuel n (drop n l)
  | _, _ => []
  end.
Definition chunks {A} (n : nat) (l : list A) : list (list A) := chunks_fuel (length l) n l.

Section Router.
Context {Bytes : Type} `{PushCodec Bytes}.

Definition payload_has_mobile_alert (kind : wire PushTaskPayloadKind) (payload : Bytes) : bool :=
  match kind with
  | Some TaskMessage =>
      match decode_message payload with Some r => existsb message_has_mobile_alert (pm_messages r) | None => false end
  | Some TaskEvent =>
      match decode_event payload with Some r => existsb event_has_mobile_alert (pr_events r) | None => false end
  | Some TaskNotification | Some TaskCustom => true
  | _ => false
  end.

Definition event_message (e : PushEvent) : option Message :=
  match pe_payload e with Some (EvMessage m) => Some m | _ => None end.

Definition mention_targets (kind : wire PushTaskPayloadKind) (payload : Bytes) : MentionTargets :=
  let message :=
    match payload_kind_of kind with
    | TaskMessage => r ← decode_message payload; head (pm_messages r)
    | TaskEvent => r ← decode_event payload; head (omap event_message (pr_events r))
    | _ => None
    end in
  match message with
  | None => unknown_mentions
  | Some m =>
      match content m with
      | None => unknown_mentions
      | Some None => mkMentions false ∅ false
      | Some (Some c) => collect_mentions c (mkMentions false ∅ false)
      end
  end.

Definition request_name (k : PushTaskPayloadKind) : string :=
  match k with
  | TaskMessage => "PushMessageRequest" | TaskEvent => "PushEventRequest"
  | TaskNotification => "PushNotificationRequest" | TaskAck => "PushAckRequest"
  | TaskCustom => "PushCustomRequest" | TaskCapability => "PushCapabilityRequest"
  | TaskUnspecified => ""
  end.

Definition rewrite_push_payload_user_ids (kind : wire PushTaskPayloadKind) (payload : Bytes) (users : list string)
    : result Bytes :=
  match payload_kind_of kind with
  | TaskUnspecified => Err (flare_err InvalidParameter "PushTaskPayloadKind unspecified")
  | k =>
      match decode_request k payload with
      | Some r => Ok (encode_request (with_recipients users r))
      | None => Err (flare_err InvalidParameter ("decode " +:+ request_name k +:+ " failed"))
      end
  end.

Record PushTaskTemplate := mkTemplate {
  tpl_message_id : string;
  tpl_conversation_id : string;
  tpl_tenant_id : string;
  tpl_priority : Z;
  tpl_expire_at : option Z;
  tpl_payload : Bytes;
  tpl_headers : gmap string string;
  tpl_kind : wire PushTaskPayloadKind;
}.

Definition task_of (t : PushTaskTemplate) (user : string) (payload : Bytes) : PushTaskEnvelope Bytes :=
  mkTask _ user (tpl_message_id t) (tpl_conversation_id t) (tpl_tenant_id t) (tpl_priority t) (tpl_expire_at t)
    payload (tpl_headers t) (tpl_kind t).

(** [PendingPushTask]: the key, the encoded task, and whether it is an online task. *)
Record PendingPushTask := mkPendingTask { pt_key : string; pt_payload : Bytes; pt_online : bool }.

(** A task the broker has accepted, with the context it was published in. *)
Record Published := mkPublished { pub_ctx : Ctx; pub_task : PendingPushTask }.

(** A timer that will send the merged ping of a conversation. *)
Record Timer := mkTimer { timer_ctx : Ctx; timer_key : CoalesceKey; timer_delay : Z }.

Record World := mkWorld { published : list Published; coalescer : CoalesceState; timers : list Timer }.

Record RouterPorts := mkPorts {
  online_statuses : Ctx -> list string -> result (gmap string bool);
  online_user_ids : Ctx -> string -> result (list string);
  notify_policy : option NotifyPolicyRepository;
  (** the window of [conversation_ping_coalescer], if there is one *)
  coalesce_window : option Z;
  offline_fanout_member_cap : nat;
}.

Context (ports : RouterPorts) (fault : schedule).

Abbreviation M := (db World).

(** [publish_online_task], [publish_offline_task] of the publisher *)
Definition publish_task (ctx : Ctx) (t : PendingPushTask) : M unit :=
  match decode_task (pt_payload t) with
  | None => lift_r (Err (flare_err InternalError "decode PushTaskEnvelope failed"))
  | Some _ =>
      write fault (flare_err InternalError "mq publish failed")
        (fun w => mkWorld (published w ++ [mkPublished ctx t]) (coalescer w) (timers w))
  end.

Definition publish_error (online : bool) : FlareError :=
  flare_err ServiceUnavailable
    (if online then "Failed to publish online push task" else "Failed to publish offline push task").

(** All tasks are published; the first error is returned after them. *)
Fixpoint publish_all (ctx : Ctx) (tasks : list PendingPushTask) : M unit :=
  match tasks with
  | [] => mret ()
  | t :: tasks =>
      on_result (publish_task ctx t) (fun _ => publish_all ctx tasks)
        (fun _ => on_result (publish_all ctx tasks) (fun _ => lift_r (Err (publish_error (pt_online t))))
                    (fun _ => lift_r (Err (publish_error (pt_online t)))))
  end.

Definition load_online_statuses (ctx : Ctx) (users : list string) : result (gmap string bool) :=
  match online_statuses ports ctx users with
  | Ok s => Ok s
  | Err _ => Err (flare_err ServiceUnavailable "Failed to query online status")
  end.

(** A failed query silences nobody. *)
Definition notify_preferences (ctx : Ctx) (conversation : string) (users : list string) : gmap string NotifyPreference :=
  match notify_policy ports with
  | None => ∅
  | Some policy =>
      if bool_decide (users = []) || Str.is_blank conversation then ∅
      else match preferences_for policy ctx conversation users with Ok prefs => prefs | Err _ => ∅ end
  end.

Definition is_online (statuses : gmap string bool) (user : string) : bool := default false (statuses !! user).

Definition silenced (prefs : gmap string NotifyPreference) (targets : MentionTargets) (user : string) : bool :=
  let p := default no_preference (prefs !! user) in
  pref_muted p || (pref_mention_only p && negb (mentions targets user)).

(** The offline tasks of a loop over the recipients. *)
Fixpoint offline_tasks (t : PushTaskTemplate) (users : list string) : result (list PendingPushTask) :=
  match users with
  | [] => Ok []
  | user :: users =>
      payload ← rewrite_push_payload_user_ids (tpl_kind t) (tpl_payload t) [user];
      rest ← offline_tasks t users;
      Ok (mkPendingTask user (encode_task (task_of t user payload)) false :: rest)
  end.

Fixpoint online_tasks (t : PushTaskTemplate) (parts : list (list string)) : result (list PendingPushTask) :=
  match parts with
  | [] => Ok []
  | part :: parts =>
      payload ← rewrite_push_payload_user_ids (tpl_kind t) (tpl_payload t) part;
      rest ← online_tasks t parts;
      Ok (mkPendingTask (tpl_conversation_id t) (encode_task (task_of t "" payload)) true :: rest)
  end.

Definition publish_targeted_tasks_inner (ctx : Ctx) (users : list string) (statuses : gmap string bool)
    (t : PushTaskTemplate) (online_only deliver_online_to_all : bool)
    (prefetched : option (gmap string NotifyPreference)) : M unit :=
  let online_only := online_only || negb (payload_has_mobile_alert (tpl_kind t) (tpl_payload t)) in
  let candidates := if online_only then [] else filter (fun u => is_online statuses u = false) users in
  let prefs := match prefetched with
               | Some prefs => prefs
               | None => notify_preferences ctx (tpl_conversation_id t) candidates
               end in
  let targets := mention_targets (tpl_kind t) (tpl_payload t) in
  let online := filter (fun u => is_online statuses u || deliver_online_to_all = true) users in
  let ringing := filter (fun u => is_online statuses u || online_only || silenced prefs targets u = false) users in
  offline ← lift_r (offline_tasks t ringing);
  tasks ← lift_r (online_tasks t (chunks ONLINE_FANOUT_CHUNK online));
  publish_all ctx (tasks ++ offline).

Definition publish_targeted_tasks (ctx : Ctx) (users : list string) (statuses : gmap string bool)
    (t : PushTaskTemplate) (online_only : bool) : M unit :=
  publish_targeted_tasks_inner ctx users statuses t online_only false None.

Definition request_tenant_id (ctx : Ctx) : result string :=
  match ctx_tenant_id ctx with
  | Some t => if canonical_tenant t then Ok t
              else Err (flare_err PermissionDenied "canonical tenant is required for push task routing")
  | None => Err (flare_err PermissionDenied "canonical tenant is required for push task routing")
  end.

Definition event_template (fresh tenant : string) (req : PushEventRequest) (users : list string) : PushTaskTemplate :=
  mkTemplate (event_message_id fresh req) (event_conversation_id req) tenant (options_priority (pr_options req))
    (options_expiry (pr_options req)) (encode_request (with_recipients users (REvent req))) ∅ (Some TaskEvent).

Definition publish_event_to_user_batch (fresh : string) (ctx : Ctx) (req : PushEventRequest) (users : list string)
    (online_only : bool) : M unit :=
  if bool_decide (users = []) then mret ()
  else
    tenant ← lift_r (request_tenant_id ctx);
    statuses ← lift_r (load_online_statuses ctx users);
    publish_targeted_tasks_inner ctx users statuses (event_template fresh tenant req users) online_only true None.

Definition publish_event_to_online_index_batch (fresh : string) (ctx : Ctx) (req : PushEventRequest)
    (users : list string) : M unit :=
  if bool_decide (users = []) then mret ()
  else
    tenant ← lift_r (request_tenant_id ctx);
    publish_targeted_tasks ctx users (list_to_map ((fun u => (u, true)) <$> users))
      (event_template fresh tenant req users) true.

(** The members that are offline get their phones rung after a broadcast; a failure is logged.
    The members come out of a hash map: in the order of [map_to_list] here. *)
Definition fanout_offline_push_for_conversation (ctx : Ctx) (conversation message_id : string) (priority : Z)
    (expire_at : option Z) (payload : Bytes) : M unit :=
  if negb (payload_has_mobile_alert (Some TaskEvent) payload) then mret ()
  else
    match request_tenant_id ctx, notify_policy ports with
    | Ok tenant, Some policy =>
        match all_participants policy ctx conversation (offline_fanout_member_cap ports) with
        | Ok (Some participants) =>
            let members := (map_to_list participants).*1 in
            if bool_decide (members = []) then mret ()
            else match load_online_statuses ctx members with
                 | Err _ => mret ()
                 | Ok statuses =>
                     let offline := filter (fun u => is_online statuses u = false) members in
                     if bool_decide (offline = []) then mret ()
                     else log_error (publish_targeted_tasks_inner ctx offline
                            (list_to_map ((fun u => (u, false)) <$> offline))
                            (mkTemplate message_id conversation tenant priority expire_at payload ∅ (Some TaskEvent))
                            false false (Some participants))
                 end
        | _ => mret ()
        end
    | _, _ => mret ()
    end.

Definition publish_event_broadcast_task (fresh : string) (ctx : Ctx) (req : PushEventRequest) (conversation : string) : M unit :=
  let message_id := event_message_id fresh req in
  tenant ← lift_r (request_tenant_id ctx);
  let payload := encode_request (REvent req) in
  let priority := options_priority (pr_options req) in
  let expire_at := options_expiry (pr_options req) in
  let task := mkTask _ "" message_id conversation tenant priority expire_at payload ∅ (Some TaskEvent) in
  _ ← map_err (fun _ => flare_err ServiceUnavailable "Failed to publish conversation broadcast push task")
        (publish_task ctx (mkPendingTask conversation (encode_task task) true));
  fanout_offline_push_for_conversation ctx conversation message_id priority expire_at payload.

Definition handle_conversation_ping_without_recipients (fresh : string) (ctx : Ctx) (req : PushEventRequest)
    (conversation : string) : M unit :=
  match online_user_ids ports ctx conversation with
  | Err _ => lift_r (Err (flare_err ServiceUnavailable "Failed to query conversation online index"))
  | Ok [] => mret ()
  | Ok users => publish_event_to_online_index_batch fresh ctx req users
  end.

Definition handle_coalesced_conversation_ping_without_recipients (fresh : string) (now : Z) (ctx : Ctx)
    (req : PushEventRequest) (conversation : string) (seq : Z) : M unit :=
  match coalesce_window ports with
  | None => handle_conversation_ping_without_recipients fresh ctx req conversation
  | Some window =>
      tenant ← lift_r (request_tenant_id ctx);
      let key := (tenant, conversation) in
      w ← (fun '(n, w) => (Ok w, (n, w)));
      let '(decision, st) :=
        observe window now key (pending_conversation_ping_request req conversation seq) (coalescer w) in
      _ ← (fun '(n, w) => (Ok (), (n, mkWorld (published w) st (timers w))));
      match decision with
      | SendNow => handle_conversation_ping_without_recipients fresh ctx req conversation
      | ScheduleAfter delay =>
          fun '(n, w) => (Ok (), (n, mkWorld (published w) (coalescer w) (timers w ++ [mkTimer ctx key delay])))
      | Suppressed => mret ()
      end
  end.

(** What a spawned timer does when its delay is over; a failure is logged. *)
Definition coalesced_ping_due (fresh : string) (now : Z) (timer : Timer) : M unit :=
  w ← (fun '(n, w) => (Ok w, (n, w)));
  let '(taken, st) := take_pending now (timer_key timer) (coalescer w) in
  _ ← (fun '(n, w) => (Ok (), (n, mkWorld (published w) st (timers w))));
  match taken with
  | None => mret ()
  | Some ping =>
      match pure_conversation_ping ping with
      | None => mret ()
      | Some (conversation, _) =>
          log_error (handle_conversation_ping_without_recipients fresh (timer_ctx timer) ping conversation)
      end
  end.

Definition handle_message (ctx : Ctx) (req : PushMessageRequest) : M unit :=
  if bool_decide (pm_user_ids req = []) then mret ()
  else
    let message := default (plain_message "" "" "") (head (pm_messages req)) in
    tenant ← lift_r (request_tenant_id ctx);
    statuses ← lift_r (load_online_statuses ctx (pm_user_ids req));
    publish_targeted_tasks ctx (pm_user_ids req) statuses
      (mkTemplate (server_id message) (conversation_id message) tenant 5 None (encode_request (RMessage req)) ∅ (Some TaskMessage))
      false.

Definition handle_event (fresh : string) (now : Z) (ctx : Ctx) (req : PushEventRequest) : M unit :=
  match pr_user_ids req with
  | [] =>
      match pure_conversation_ping req with
      | Some (conversation, seq) =>
          handle_coalesced_conversation_ping_without_recipients fresh now ctx req conversation seq
      | None =>
          if bool_decide (pr_events req = []) then mret ()
          else
            let conversation := event_conversation_id req in
            if Str.is_blank conversation then mret ()
            else publish_event_broadcast_task fresh ctx req conversation
      end
  | users =>
      publish_event_to_user_batch fresh ctx req users
        (bool_decide (pure_conversation_ping req <> None) || events_are_read_receipts_only req)
  end.

Definition handle_push_envelope (fresh : string) (ctx : Ctx) (envelope : PushEnvelope) : M unit :=
  tenant ← lift_r (request_tenant_id ctx);
  if bool_decide (env_tenant_id envelope <> tenant)
  then lift_r (Err (flare_err PermissionDenied "push envelope tenant does not match routing context"))
  else
    users ← lift_r match env_target_type envelope with
                   | Some TargetUsers => Ok (env_target_user_ids envelope)
                   | Some TargetAll => unsupported_push_target "all"
                   | Some TargetDevices => unsupported_push_target "devices"
                   | Some TargetUnspecified | None => unsupported_push_target "unspecified"
                   end;
    if bool_decide (users = []) then mret ()
    else
      built ← lift_r (push_task_payload fresh envelope users);
      let '(request, message_id) := built in
      let t := mkTemplate message_id "" tenant (from_option eo_priority 5 (env_options envelope))
                 (o ← env_options envelope; eo_expire_at o) (encode_request request) (env_headers envelope)
                 (Some (kind_of request)) in
      if bool_decide (kind_of request = TaskCapability)
      then publish_targeted_tasks_inner ctx users ∅ t true true None
      else
        statuses ← lift_r (load_online_statuses ctx users);
        publish_targeted_tasks ctx users statuses t false.

End Router.
Arguments PushTaskTemplate : clear implicits.
Arguments PendingPushTask : clear implicits.
Arguments Published : clear implicits.
Arguments World : clear implicits.
