(* ===== verification/PushRouterFacts.v ===== *)
(** * What the push router publishes

    Theorems about [PushRouter]: who is reached, whose phone rings, and that no ping is
    lost in the coalescer. *)

From S2P Require Import Prelude.
From S2P Require Import Slices.
From S2P Require Import Proto.
From S2P Require Import Tenant.
From S2P Require Import Database.
From S2P Require Import PushTypes.
From S2P Require Import PushRouter.
From stdpp Require Import base gmap sets strings list.
From Stdlib Require Import ZArith Lia.

Open Scope Z_scope.

(** ** Chunks *)

Lemma chunks_fuel_join {A} (n fuel : nat) (l : list A) :
  (0 < n)%nat -> (length l <= fuel)%nat -> mjoin (chunks_fuel fuel n l) = l.
Proof.
  intros Hn. revert l. induction fuel as [|fuel IH]; intros [|x l] Hl; [done|simpl in Hl; lia|done|].
  cbn [chunks_fuel mjoin list_join]. rewrite IH; [apply take_drop|]. rewrite length_drop. simpl in *. lia.
Qed.

Lemma chunks_join {A} (n : nat) (l : list A) : (0 < n)%nat -> mjoin (chunks n l) = l.
Proof. intros Hn. by apply chunks_fuel_join. Qed.

Lemma chunks_sizes {A} (n : nat) (l : list A) :
  (0 < n)%nat -> Forall (fun part => 1 <= length part <= n)%nat (chunks n l).
Proof.
  intros Hn. unfold chunks. generalize (length l) as fuel. intros fuel. revert l.
  induction fuel as [|fuel IH]; intros [|x l]; cbn [chunks_fuel]; try constructor; [|apply IH].
  rewrite length_take. simpl. lia.
Qed.

Section Facts.
Context {Bytes : Type} `{PushCodecLaws Bytes}.

(** ** Reading a task *)

(** The task in what was published, and the request in the task. *)
Definition task_request (p : PendingPushTask Bytes) : option (PushTaskEnvelope Bytes * PushRequest) :=
  t ← decode_task (pt_payload p);
  r ← decode_request (payload_kind_of (task_payload_kind t)) (task_payload t);
  Some (t, r).

(** The task of the template that carries a request to users. *)
Definition carries (t : PushTaskTemplate Bytes) (user : string) (r : PushRequest) (users : list string)
    : option (PushTaskEnvelope Bytes * PushRequest) :=
  Some (task_of t user (encode_request (with_recipients users r)), with_recipients users r).

Lemma rewrite_encoded r users :
  rewrite_push_payload_user_ids (Some (kind_of r)) (encode_request r) users = Ok (encode_request (with_recipients users r)).
Proof.
  pose proof (decode_encode_request r) as E. unfold rewrite_push_payload_user_ids, payload_kind_of.
  destruct r; cbn in *; by rewrite E.
Qed.

Section Template.
Context (t : PushTaskTemplate Bytes) (r : PushRequest).
Context (Hkind : tpl_kind t = Some (kind_of r)) (Hpayload : tpl_payload t = encode_request r).

Lemma rewrite_template users :
  rewrite_push_payload_user_ids (tpl_kind t) (tpl_payload t) users = Ok (encode_request (with_recipients users r)).
Proof. rewrite Hkind, Hpayload. apply rewrite_encoded. Qed.

Lemma task_request_of key online user users :
  task_request (mkPendingTask key (encode_task (task_of t user (encode_request (with_recipients users r)))) online)
  = carries t user r users.
Proof.
  unfold task_request. cbn. rewrite decode_encode_task. cbn. rewrite Hkind. cbn.
  rewrite <- (kind_with users r), decode_encode_request. done.
Qed.

Definition offline_task (user : string) : PendingPushTask Bytes :=
  mkPendingTask user (encode_task (task_of t user (encode_request (with_recipients [user] r)))) false.

Definition online_task (part : list string) : PendingPushTask Bytes :=
  mkPendingTask (tpl_conversation_id t) (encode_task (task_of t "" (encode_request (with_recipients part r)))) true.

Lemma offline_tasks_ok users : offline_tasks t users = Ok (offline_task <$> users).
Proof. induction users as [|u users IH]; [done|]. cbn. rewrite rewrite_template. cbn. by rewrite IH. Qed.

Lemma online_tasks_ok parts : online_tasks t parts = Ok (online_task <$> parts).
Proof. induction parts as [|u users IH]; [done|]. cbn. rewrite rewrite_template. cbn. by rewrite IH. Qed.

End Template.

(** ** Publication *)

Section Publish.
Context (ports : RouterPorts).

(** After a failed task the others are published all the same. *)
Lemma publish_rest {St A B} (m : stE St A) (e : FlareError) s :
  on_result m (fun _ => lift_r (Err e)) (fun _ => lift_r (Err e)) s = (Err e : result B, (m s).2).
Proof. unfold on_result. by destruct (m s) as [[] ?]. Qed.

Lemma publish_all_faulty fault ctx tasks n w :
  exists r n' k, publish_all fault ctx tasks (n, w)
    = (r, (n', mkWorld (published w ++ (mkPublished ctx <$> k)) (coalescer w) (timers w)))
    /\ k `sublist_of` tasks.
Proof.
  revert n w. induction tasks as [|t tasks IH]; intros n w.
  { exists (Ok ()), n, []. split; [|done]. cbn. rewrite app_nil_r. by destruct w. }
  cbn [publish_all]. rewrite on_result_run. unfold publish_task at 1.
  destruct (decode_task (pt_payload t)) as [env|].
  - unfold write, exec.
    destruct (IH (S n) w) as (r & n' & k & E & Hk).
    destruct (IH (S n) (mkWorld (published w ++ [mkPublished ctx t]) (coalescer w) (timers w))) as (r1 & n1 & k1 & E1 & Hk1).
    destruct (fault n); cbn -[publish_all]; rewrite ?publish_rest, ?E, ?E1; cbn.
    + exists r1, n1, (t :: k1). split; [|by constructor]. by rewrite <- app_assoc.
    + eexists _, n', k. split; [done|by constructor].
    + eexists _, n1, (t :: k1). split; [|by constructor]. by rewrite <- app_assoc.
  - unfold lift_r at 1. rewrite publish_rest. destruct (IH n w) as (r & n' & k & E & Hk). rewrite E.
    eexists _, n', k. split; [done|by constructor].
Qed.

Lemma publish_all_calm ctx tasks n w :
  Forall (fun t => is_Some (decode_task (pt_payload t))) tasks ->
  exists n', publish_all calm ctx tasks (n, w)
    = (Ok (), (n', mkWorld (published w ++ (mkPublished ctx <$> tasks)) (coalescer w) (timers w))).
Proof.
  intros Ht. revert n w. induction Ht as [|t tasks [env Henv] _ IH]; intros n w.
  { exists n. cbn. rewrite app_nil_r. by destruct w. }
  cbn [publish_all]. rewrite on_result_run. unfold publish_task. rewrite Henv. cbn -[publish_all].
  destruct (IH (S n) (mkWorld (published w ++ [mkPublished ctx t]) (coalescer w) (timers w))) as [n' E].
  exists n'. rewrite E. cbn. by rewrite <- app_assoc.
Qed.

(** ** Targeted tasks *)

(** Whose phone is to ring. *)
Definition rings (prefs : gmap string NotifyPreference) (targets : MentionTargets) (alert online_only : bool)
    (statuses : gmap string bool) (user : string) : bool :=
  negb (is_online statuses user) && negb online_only && alert && negb (silenced prefs targets user).

Section Targeted.
Context (ctx : Ctx) (users : list string) (statuses : gmap string bool) (t : PushTaskTemplate Bytes) (r : PushRequest).
Context (online_only to_all : bool) (prefetched : option (gmap string NotifyPreference)).
Context (Hkind : tpl_kind t = Some (kind_of r)) (Hpayload : tpl_payload t = encode_request r).

Definition alert : bool := payload_has_mobile_alert (tpl_kind t) (tpl_payload t).

Definition prefs_used : gmap string NotifyPreference :=
  match prefetched with
  | Some prefs => prefs
  | None => notify_preferences ports ctx (tpl_conversation_id t)
              (if online_only || negb alert then [] else filter (fun u => is_online statuses u = false) users)
  end.

Definition ring (u : string) : bool :=
  rings prefs_used (mention_targets (tpl_kind t) (tpl_payload t)) alert online_only statuses u.

Definition tasks_of : list (PendingPushTask Bytes) :=
  (online_task t r <$> chunks ONLINE_FANOUT_CHUNK (filter (fun u => is_online statuses u || to_all = true) users))
  ++ (offline_task t r <$> filter (fun u => ring u = true) users).

Lemma targeted_run fault s :
  publish_targeted_tasks_inner ports fault ctx users statuses t online_only to_all prefetched s
  = publish_all fault ctx tasks_of s.
Proof.
  unfold publish_targeted_tasks_inner. rewrite (offline_tasks_ok t r Hkind Hpayload).
  rewrite (online_tasks_ok t r Hkind Hpayload). unfold mbind, stE_bind, lift_r. unfold tasks_of. do 3 f_equal.
  apply Slices.filter_ext_in. intros u _. unfold ring, rings. fold alert. fold prefs_used.
  destruct (is_online statuses u), online_only, alert, (silenced _ _ u); done.
Qed.

Lemma tasks_decodable : Forall (fun t => is_Some (decode_task (pt_payload t))) tasks_of.
Proof.
  apply Forall_app; split; apply Forall_fmap, Forall_true; intros x; cbn; rewrite decode_encode_task; eauto.
Qed.

Lemma targeted_calm n w :
  exists n', publish_targeted_tasks_inner ports calm ctx users statuses t online_only to_all prefetched (n, w)
    = (Ok (), (n', mkWorld (published w ++ (mkPublished ctx <$> tasks_of)) (coalescer w) (timers w))).
Proof. rewrite targeted_run. apply publish_all_calm, tasks_decodable. Qed.

Lemma targeted_faulty fault n w :
  exists res n' k, publish_targeted_tasks_inner ports fault ctx users statuses t online_only to_all prefetched (n, w)
    = (res, (n', mkWorld (published w ++ (mkPublished ctx <$> k)) (coalescer w) (timers w))) /\ k `sublist_of` tasks_of.
Proof. rewrite targeted_run. apply publish_all_faulty. Qed.

End Targeted.

(** ** Events to their recipients *)

(** The users an online or offline task is for. *)
Definition reached (p : PendingPushTask Bytes) : list string :=
  match task_request p with Some (_, r) => recipients r | None => [] end.

Lemma event_alert users req :
  payload_has_mobile_alert (Some TaskEvent) (encode_request (with_recipients users (REvent req)))
  = existsb event_has_mobile_alert (pr_events req).
Proof.
  unfold payload_has_mobile_alert, decode_event.
  pose proof (decode_encode_request (with_recipients users (REvent req))) as E. cbn in E |- *. by rewrite E.
Qed.

(** Pings and receipts ring no phone in any case. *)
Lemma online_only_no_alert req :
  bool_decide (pure_conversation_ping req <> None) || events_are_read_receipts_only req = true ->
  existsb event_has_mobile_alert (pr_events req) = false.
Proof.
  intros Ho. apply orb_true_iff in Ho as [Ho|Ho].
  - apply bool_decide_eq_true in Ho. unfold pure_conversation_ping in Ho. by destruct (pr_events req).
  - unfold events_are_read_receipts_only in Ho. apply andb_true_iff in Ho as [_ Ho].
    induction (pr_events req) as [|e es IH]; [done|]. cbn in *. apply andb_true_iff in Ho as [He Hes].
    rewrite (IH Hes). apply bool_decide_eq_true in He. unfold event_has_mobile_alert. by rewrite He.
Qed.

(** What the recipients of an event told the conversation service, asked about those that are
    offline; and whom the event mentions. *)
Definition event_preferences (ctx : Ctx) (req : PushEventRequest) (statuses : gmap string bool) : gmap string NotifyPreference :=
  notify_preferences ports ctx (event_conversation_id req)
    (filter (fun u => is_online statuses u = false) (pr_user_ids req)).

Definition event_mentions (req : PushEventRequest) : MentionTargets :=
  mention_targets (Some TaskEvent) (encode_request (REvent req)).

Definition phone_rings (ctx : Ctx) (req : PushEventRequest) (statuses : gmap string bool) (u : string) : bool :=
  existsb event_has_mobile_alert (pr_events req) && negb (is_online statuses u)
  && negb (silenced (event_preferences ctx req statuses) (event_mentions req) u).

(** The template of an event rings the phones of its recipients by this rule. *)
Lemma event_phone_rings fresh tenant ctx req statuses u :
  phone_rings ctx req statuses u
  = ring ctx (pr_user_ids req) statuses (event_template fresh tenant req (pr_user_ids req))
      (bool_decide (pure_conversation_ping req <> None) || events_are_read_receipts_only req) None u.
Proof.
  unfold phone_rings, ring, rings, event_preferences, event_mentions, prefs_used, alert.
  assert (Ht : tpl_payload (event_template fresh tenant req (pr_user_ids req)) = encode_request (REvent req)) by by destruct req.
  rewrite Ht. cbn [tpl_kind event_template tpl_conversation_id].
  pose proof (event_alert (pr_user_ids req) req) as Ea. replace (with_recipients (pr_user_ids req) (REvent req)) with (REvent req) in Ea by by destruct req.
  rewrite Ea. pose proof (online_only_no_alert req) as Ho.
  destruct (existsb event_has_mobile_alert (pr_events req)) eqn:Ex; [|by rewrite !andb_false_r].
  destruct (bool_decide (pure_conversation_ping req <> None) || events_are_read_receipts_only req); [by specialize (Ho eq_refl)|].
  cbn [negb orb andb]. by rewrite !andb_true_r.
Qed.

Lemma handle_event_recipients fault fresh now ctx req s :
  pr_user_ids req <> [] ->
  handle_event ports fault fresh now ctx req s
  = publish_event_to_user_batch ports fault fresh ctx req (pr_user_ids req)
      (bool_decide (pure_conversation_ping req <> None) || events_are_read_receipts_only req) s.
Proof. intros Hne. unfold handle_event. by destruct (pr_user_ids req). Qed.

Lemma reached_online t r part : tpl_kind t = Some (kind_of r) -> reached (online_task t r part) = part.
Proof. intros Hk. unfold reached, online_task. rewrite task_request_of by done. cbn. apply recipients_with. Qed.

Lemma reached_offline t r u : tpl_kind t = Some (kind_of r) -> reached (offline_task t r u) = [u].
Proof. intros Hk. unfold reached, offline_task. rewrite task_request_of by done. cbn. apply recipients_with. Qed.

End Publish.

(** What [handle_event] publishes, with a broker that works. *)
Lemma handle_event_publishes (ports : RouterPorts) (fresh : string) (now : Z) (ctx : Ctx) (tenant : string)
    (req : PushEventRequest) (statuses : gmap string bool) (n : nat) (w : World Bytes)
    (Htenant : request_tenant_id ctx = Ok tenant) (Hsome : pr_user_ids req <> [])
    (Hstatuses : online_statuses ports ctx (pr_user_ids req) = Ok statuses) :
  exists n' online offline,
    handle_event ports calm fresh now ctx req (n, w)
      = (Ok (), (n', mkWorld (published w ++ (mkPublished ctx <$> online ++ offline)) (coalescer w) (timers w))) /\
    mjoin (reached <$> online) = pr_user_ids req /\
    Forall (fun p => pt_online p = true /\ (1 <= length (reached p) <= 1000)%nat) online /\
    reached <$> offline = (fun u => [u]) <$> filter (fun u => phone_rings ports ctx req statuses u = true) (pr_user_ids req) /\
    Forall (fun p => pt_online p = false) offline /\
    Forall (fun p => exists t, task_request p = Some (t, with_recipients (reached p) (REvent req)) /\
              task_tenant_id t = tenant /\ task_conversation_id t = event_conversation_id req) (online ++ offline).
Proof.
  set (t := event_template fresh tenant req (pr_user_ids req)). set (us := pr_user_ids req) in *.
  assert (Hkind : tpl_kind t = Some (kind_of (REvent req))) by done.
  assert (Hpayload : tpl_payload t = encode_request (REvent req)) by (destruct req; done).
  set (oo := bool_decide (pure_conversation_ping req <> None) || events_are_read_receipts_only req).
  destruct (targeted_calm ports ctx us statuses t _ oo true None Hkind Hpayload n w) as [n' E].
  pose proof (event_phone_rings ports fresh tenant ctx req statuses) as Hring.
  assert (Etasks : tasks_of ports ctx us statuses t (REvent req) oo true None
    = (online_task t (REvent req) <$> chunks ONLINE_FANOUT_CHUNK us)
      ++ (offline_task t (REvent req) <$> filter (fun u => phone_rings ports ctx req statuses u = true) us)).
  { unfold tasks_of. f_equal; f_equal.
    - by rewrite Slices.filter_all by (intros u _; by rewrite orb_true_r).
    - apply Slices.filter_ext_in. intros u _. specialize (Hring u). fold us in Hring. fold t oo in Hring. by rewrite Hring. }
  exists n', (online_task t (REvent req) <$> chunks ONLINE_FANOUT_CHUNK us),
    (offline_task t (REvent req) <$> filter (fun u => phone_rings ports ctx req statuses u = true) us).
  split_and!.
  - rewrite handle_event_recipients by done. unfold publish_event_to_user_batch. rewrite bool_decide_eq_false_2 by done.
    rewrite Htenant. unfold load_online_statuses. fold us. rewrite Hstatuses. unfold mbind, stE_bind, lift_r. fold t oo. rewrite E.
    by rewrite Etasks.
  - rewrite <- list_fmap_compose, (list_fmap_ext _ id); [rewrite list_fmap_id; apply chunks_join; unfold ONLINE_FANOUT_CHUNK; lia|].
    intros i part _. cbn. by rewrite reached_online.
  - apply Forall_fmap. eapply Forall_impl; [apply chunks_sizes; unfold ONLINE_FANOUT_CHUNK; lia|].
    intros part Hp. cbn. by rewrite reached_online.
  - rewrite <- list_fmap_compose. apply list_fmap_ext. intros i u _. cbn. by rewrite reached_offline.
  - by apply Forall_fmap, Forall_true.
  - apply Forall_app; split; apply Forall_fmap, Forall_true; intros x; cbn;
      rewrite ?reached_online, ?reached_offline by done; eexists; (split; [by apply task_request_of|done]).
Qed.

(** The phones that ring after a broadcast get tasks of their own. *)
Lemma fanout_publishes (ports : RouterPorts) ctx conversation message_id priority expire_at req n (w : World Bytes) :
  exists n' offline,
    fanout_offline_push_for_conversation ports calm ctx conversation message_id priority expire_at (encode_request (REvent req)) (n, w)
      = (Ok (), (n', mkWorld (published w ++ (mkPublished ctx <$> offline)) (coalescer w) (timers w))) /\
    Forall (fun p => pt_online p = false) offline.
Proof.
  assert (Hnone : exists n' offline, (mret () : db (World Bytes) unit) (n, w)
    = (Ok (), (n', mkWorld (published w ++ (mkPublished ctx <$> offline)) (coalescer w) (timers w))) /\ Forall (fun p => pt_online p = false) offline).
  { exists n, []. split; [|done]. cbn. rewrite app_nil_r. by destruct w. }
  unfold fanout_offline_push_for_conversation. destruct (negb _); [exact Hnone|]. destruct (request_tenant_id ctx) as [tenant|]; [|exact Hnone].
  destruct (notify_policy ports) as [policy|]; [|exact Hnone]. destruct (all_participants policy ctx conversation _) as [[prefs|]|]; try exact Hnone.
  case_bool_decide; [exact Hnone|]. destruct (load_online_statuses ports ctx _) as [statuses|]; [|exact Hnone].
  case_bool_decide; [exact Hnone|].
  set (us := filter (fun u => is_online statuses u = false) (map_to_list prefs).*1).
  set (t := mkTemplate message_id conversation tenant priority expire_at (encode_request (REvent req)) ∅ (Some TaskEvent)).
  set (off := list_to_map ((fun u => (u, false)) <$> us) : gmap string bool).
  destruct (targeted_calm ports ctx us off t (REvent req) false false (Some prefs) eq_refl eq_refl n w) as [n' E].
  unfold log_error. rewrite E. eexists n', _. split; [done|]. apply Forall_app; split; [|by apply Forall_fmap, Forall_true].
  rewrite Slices.filter_none; [done|]. intros u _. rewrite orb_false_r. unfold is_online.
  destruct (off !! u) as [b|] eqn:Eb; [|done]. apply elem_of_list_to_map_2, list_elem_of_fmap in Eb as (v & [= -> ->] & _). done.
Qed.

(** What [handle_event] publishes of events without recipients: one task for the conversation. *)
Lemma handle_event_broadcasts (ports : RouterPorts) (fresh : string) (now : Z) (ctx : Ctx) (tenant : string)
    (req : PushEventRequest) (n : nat) (w : World Bytes)
    (Htenant : request_tenant_id ctx = Ok tenant) (Hnobody : pr_user_ids req = []) (Hevents : pr_events req <> [])
    (Hnamed : Str.is_blank (event_conversation_id req) = false) :
  exists n' p t offline,
    handle_event ports calm fresh now ctx req (n, w)
      = (Ok (), (n', mkWorld (published w ++ (mkPublished ctx <$> p :: offline)) (coalescer w) (timers w))) /\
    pt_online p = true /\ Forall (fun p => pt_online p = false) offline /\
    task_request p = Some (t, REvent req) /\ task_tenant_id t = tenant.
Proof.
  unfold handle_event. rewrite Hnobody. assert (Hp : pure_conversation_ping req = None) by (unfold pure_conversation_ping; by destruct (pr_events req)).
  rewrite Hp, bool_decide_eq_false_2 by done. cbn zeta. rewrite Hnamed. unfold publish_event_broadcast_task. rewrite Htenant.
  unfold mbind, stE_bind, lift_r, map_err. cbn zeta.
  set (p := mkPendingTask _ _ true). assert (Hd : exists t, decode_task (pt_payload p) = Some t /\ task_tenant_id t = tenant /\
    task_payload_kind t = Some TaskEvent /\ task_payload t = encode_request (REvent req))
    by (eexists; split; [apply decode_encode_task|done]).
  destruct Hd as (t & Hd & Ht & Hk & Hpay). unfold publish_task. rewrite Hd. unfold write. rewrite exec_calm. cbn [fst snd].
  match goal with |- context [fanout_offline_push_for_conversation ports calm ctx ?c ?m ?pr ?e _ (?n1, ?w1)] =>
    destruct (fanout_publishes ports ctx c m pr e req n1 w1) as (n' & offline & E & Hoff) end.
  rewrite E. exists n', p, t, offline. cbn. split_and!; [by rewrite <- app_assoc|done|done| |done].
  unfold task_request. rewrite Hd. cbn. rewrite Hk, Hpay. cbn.
  pose proof (decode_encode_request (REvent req)) as Er. cbn in Er. by rewrite Er.
Qed.

(** C25. An event is handed on for every recipient, online or not, in tasks of at most a thousand; each
    phone that is to ring gets a task of its own, whose only recipient is its owner: that of a user
    who is offline, for an event that is to be shown, unless they muted the conversation or listen
    to mentions only and are not mentioned. *)
Theorem every_recipient_is_reached (ports : RouterPorts) (fresh : string) (now : Z) (ctx : Ctx) (tenant : string)
    (req : PushEventRequest) (statuses : gmap string bool) (n : nat) (w : World Bytes)
    (Htenant : request_tenant_id ctx = Ok tenant) (Hsome : pr_user_ids req <> [])
    (Hstatuses : online_statuses ports ctx (pr_user_ids req) = Ok statuses) :
  exists n' online offline,
    handle_event ports calm fresh now ctx req (n, w)
      = (Ok (), (n', mkWorld (published w ++ (mkPublished ctx <$> online ++ offline)) (coalescer w) (timers w))) /\
    mjoin (reached <$> online) = pr_user_ids req /\
    Forall (fun p => pt_online p = true /\ (1 <= length (reached p) <= 1000)%nat) online /\
    reached <$> offline = (fun u => [u]) <$> filter (fun u => phone_rings ports ctx req statuses u = true) (pr_user_ids req) /\
    Forall (fun p => pt_online p = false) offline /\
    Forall (fun p => exists t, task_request p = Some (t, with_recipients (reached p) (REvent req)) /\
              task_tenant_id t = tenant /\ task_conversation_id t = event_conversation_id req) (online ++ offline).
Proof. by apply handle_event_publishes. Qed.

(** ** Whatever happens *)

Section Allowed.
Context (ports : RouterPorts) (fault : schedule) (ctx : Ctx).

(** The preferences a user's answer came with: those of the offline recipients, who were asked
    about, or those of all members of the conversation, of whom the user is one. *)
Definition preferences_asked (conversation u : string) (prefs : gmap string NotifyPreference) : Prop :=
  (exists us, u ∈ us /\ prefs = notify_preferences ports ctx conversation us) \/
  (exists policy cap, notify_policy ports = Some policy /\ all_participants policy ctx conversation cap = Ok (Some prefs) /\
     is_Some (prefs !! u)).

Definition known_offline (u : string) : Prop :=
  exists us statuses, online_statuses ports ctx us = Ok statuses /\ u ∈ us /\ is_online statuses u = false.

(** A task the router may publish: of the tenant of the caller; if it rings a phone, that of one
    user who is offline, for something to show, which the user did not silence. *)
Definition allowed (p : PendingPushTask Bytes) : Prop :=
  exists t r, task_request p = Some (t, r) /\ request_tenant_id ctx = Ok (task_tenant_id t) /\
    (pt_online p = false ->
       let u := task_user_id t in
       recipients r = [u] /\ payload_has_mobile_alert (task_payload_kind t) (task_payload t) = true /\ known_offline u /\
       exists prefs, preferences_asked (task_conversation_id t) u prefs /\
         silenced prefs (mention_targets (task_payload_kind t) (task_payload t)) u = false).

Definition publishes_allowed : relation (World Bytes) := fun w w' =>
  exists k, published w' = published w ++ (mkPublished ctx <$> k) /\ Forall allowed k.

#[local] Instance publishes_allowed_preorder : PreOrder publishes_allowed.
Proof.
  split.
  - intros w. exists []. by rewrite app_nil_r.
  - intros w1 w2 w3 (k1 & E1 & H1) (k2 & E2 & H2). exists (k1 ++ k2). split; [|by apply Forall_app].
    by rewrite E2, E1, fmap_app, app_assoc.
Qed.

Lemma publishes_same w w' : published w' = published w -> publishes_allowed w w'.
Proof. intros E. exists []. by rewrite app_nil_r. Qed.

Lemma alert_with r users :
  payload_has_mobile_alert (Some (kind_of r)) (encode_request (with_recipients users r))
  = payload_has_mobile_alert (Some (kind_of r)) (encode_request r).
Proof.
  pose proof (decode_encode_request r) as E. pose proof (decode_encode_request (with_recipients users r)) as E'.
  destruct r; cbn in *; unfold decode_message, decode_event; by rewrite ?E, ?E'.
Qed.

Lemma mentions_with r users :
  mention_targets (Some (kind_of r)) (encode_request (with_recipients users r))
  = mention_targets (Some (kind_of r)) (encode_request r).
Proof.
  pose proof (decode_encode_request r) as E. pose proof (decode_encode_request (with_recipients users r)) as E'.
  unfold mention_targets, decode_message, decode_event. destruct r; cbn in *; by rewrite ?E, ?E'.
Qed.

Lemma targeted_allowed users statuses t r online_only to_all prefetched :
  tpl_kind t = Some (kind_of r) -> tpl_payload t = encode_request r -> request_tenant_id ctx = Ok (tpl_tenant_id t) ->
  (online_only = false -> forall u, u ∈ users -> is_online statuses u = false -> known_offline u) ->
  (forall prefs u, prefetched = Some prefs -> u ∈ users -> preferences_asked (tpl_conversation_id t) u prefs) ->
  keeps publishes_allowed
    (publish_targeted_tasks_inner ports fault ctx users statuses t online_only to_all prefetched).
Proof.
  intros Hkind Hpayload Htenant Hoffline Hprefs n w.
  destruct (targeted_faulty ports ctx users statuses t r online_only to_all prefetched Hkind Hpayload fault n w)
    as (res & n' & k & E & Hk). rewrite E. exists k. split; [done|].
  apply Forall_forall. intros p Hp. eapply elem_of_sublist in Hp; [|exact Hk]. clear E Hk.
  apply elem_of_app in Hp as [Hp|Hp]; apply list_elem_of_fmap in Hp as (x & -> & Hx).
  - eexists _, _. split; [by apply task_request_of|]. done.
  - apply list_elem_of_filter in Hx as [Hring Hx]. eexists _, _. split; [by apply task_request_of|]. split; [done|].
    intros _. cbn -[payload_has_mobile_alert mention_targets]. rewrite recipients_with, Hkind, alert_with, mentions_with.
    unfold ring, rings, alert in Hring. rewrite Hkind, Hpayload in Hring.
    destruct (is_online statuses x) eqn:Eo; [done|]. destruct online_only eqn:Eoo; [done|].
    destruct (payload_has_mobile_alert _ _) eqn:Ea; [|done]. cbn [negb andb] in Hring. apply negb_true_iff in Hring.
    split_and!; [done..|by apply Hoffline|]. eexists. split; [|exact Hring]. unfold prefs_used.
    destruct prefetched as [prefs|]; [by apply Hprefs|]. left. eexists. split; [|done].
    unfold alert. rewrite Hkind, Hpayload, Ea. cbn. by apply list_elem_of_filter.
Qed.

(** A check before a method: what it found holds in the rest. *)
Lemma keeps_checked {A B} (c : result A) (f : A -> db (World Bytes) B) :
  (forall a, c = Ok a -> keeps publishes_allowed (f a)) -> keeps publishes_allowed (x ← lift_r c; f x).
Proof.
  intros Hf n w. unfold mbind, stE_bind, lift_r. destruct c as [a|e]; [by apply Hf|by apply publishes_same].
Qed.

Lemma load_known users statuses u :
  load_online_statuses ports ctx users = Ok statuses -> u ∈ users -> is_online statuses u = false -> known_offline u.
Proof.
  unfold load_online_statuses. destruct (online_statuses ports ctx users) as [st|] eqn:E; [|done].
  intros [= ->] Hu Ho. by exists users, statuses.
Qed.

Lemma user_batch_allowed fresh req users online_only :
  keeps publishes_allowed (publish_event_to_user_batch ports fault fresh ctx req users online_only).
Proof.
  unfold publish_event_to_user_batch. case_bool_decide; [apply keeps_ret; exact _|].
  apply keeps_checked. intros tenant Ht. apply keeps_checked. intros statuses Hs.
  apply (targeted_allowed _ _ _ (with_recipients users (REvent req))); [done..|by intros _ u; apply (load_known users)|done].
Qed.

Lemma online_index_allowed fresh req users :
  keeps publishes_allowed (publish_event_to_online_index_batch ports fault fresh ctx req users).
Proof.
  unfold publish_event_to_online_index_batch. case_bool_decide; [apply keeps_ret; exact _|].
  apply keeps_checked. intros tenant Ht. by apply (targeted_allowed _ _ _ (with_recipients users (REvent req))).
Qed.

Lemma conversation_ping_allowed fresh req conversation :
  keeps publishes_allowed (handle_conversation_ping_without_recipients ports fault fresh ctx req conversation).
Proof.
  unfold handle_conversation_ping_without_recipients. destruct (online_user_ids ports ctx conversation) as [[|u us]|e].
  - apply keeps_ret; exact _.
  - apply online_index_allowed.
  - apply keeps_lift; exact _.
Qed.

Lemma fanout_allowed conversation message_id priority expire_at req :
  keeps publishes_allowed
    (fanout_offline_push_for_conversation ports fault ctx conversation message_id priority expire_at (encode_request (REvent req))).
Proof.
  unfold fanout_offline_push_for_conversation. destruct (negb _); [apply keeps_ret; exact _|].
  destruct (request_tenant_id ctx) as [tenant|] eqn:Ht; [|apply keeps_ret; exact _].
  destruct (notify_policy ports) as [policy|] eqn:Hp; [|apply keeps_ret; exact _].
  destruct (all_participants policy ctx conversation _) as [[prefs|]|] eqn:Ha; try (apply keeps_ret; exact _).
  case_bool_decide; [apply keeps_ret; exact _|].
  destruct (load_online_statuses ports ctx _) as [statuses|] eqn:Hs; [|apply keeps_ret; exact _].
  case_bool_decide; [apply keeps_ret; exact _|]. apply keeps_log_error.
  apply (targeted_allowed _ _ _ (REvent req)); [done..| |].
  - intros _ u Hu _. apply list_elem_of_filter in Hu as [Ho Hu]. by eapply load_known.
  - intros prefs' u [= <-] Hu. right. eexists policy, _. split_and!; [done|done|].
    apply list_elem_of_filter in Hu as [_ Hu]. apply list_elem_of_fmap in Hu as ([u' x] & -> & Hu). apply elem_of_map_to_list in Hu. by eexists.
Qed.

Lemma publish_one_allowed p :
  allowed p -> keeps publishes_allowed (publish_task fault ctx p).
Proof.
  intros Ha. unfold publish_task. destruct (decode_task (pt_payload p)); [|apply keeps_lift; exact _].
  apply keeps_write; [exact _|]. intros w. exists [p]. split; [done|]. by apply Forall_singleton.
Qed.

Lemma broadcast_allowed fresh req conversation :
  keeps publishes_allowed (publish_event_broadcast_task ports fault fresh ctx req conversation).
Proof.
  unfold publish_event_broadcast_task. apply keeps_checked. intros tenant Ht. apply keeps_bind; [exact _| |].
  - apply keeps_map_err. apply publish_one_allowed. eexists _, (REvent req). split; [|split].
    + unfold task_request. cbn. rewrite decode_encode_task. cbn.
      pose proof (decode_encode_request (REvent req)) as E. cbn in E. by rewrite E.
    + done.
    + done.
  - intros _. apply fanout_allowed.
Qed.

Lemma coalesced_allowed fresh now req conversation seq :
  keeps publishes_allowed
    (handle_coalesced_conversation_ping_without_recipients ports fault fresh now ctx req conversation seq).
Proof.
  unfold handle_coalesced_conversation_ping_without_recipients.
  destruct (coalesce_window ports) as [window|]; [|apply conversation_ping_allowed].
  apply keeps_checked. intros tenant Ht. apply keeps_bind; [exact _|by intros n w; apply publishes_same|].
  intros w. destruct (observe _ _ _ _ _) as [decision st]. apply keeps_bind; [exact _|by intros n w'; apply publishes_same|].
  intros _. destruct decision; [apply conversation_ping_allowed|by intros n w'; apply publishes_same|apply keeps_ret; exact _].
Qed.

Lemma handle_message_allowed req : keeps publishes_allowed (handle_message ports fault ctx req).
Proof.
  unfold handle_message. case_bool_decide; [apply keeps_ret; exact _|].
  apply keeps_checked. intros tenant Ht. apply keeps_checked. intros statuses Hs.
  apply (targeted_allowed _ _ _ (RMessage req)); [done..| |done].
  by intros _ u; apply (load_known (pm_user_ids req)).
Qed.

Lemma handle_event_allowed fresh now req : keeps publishes_allowed (handle_event ports fault fresh now ctx req).
Proof.
  unfold handle_event. destruct (pr_user_ids req); [|apply user_batch_allowed].
  destruct (pure_conversation_ping req) as [[c seq]|]; [apply coalesced_allowed|].
  case_bool_decide; [apply keeps_ret; exact _|]. cbn zeta.
  destruct (Str.is_blank _); [apply keeps_ret; exact _|apply broadcast_allowed].
Qed.

Lemma handle_envelope_allowed fresh envelope : keeps publishes_allowed (handle_push_envelope ports fault fresh ctx envelope).
Proof.
  unfold handle_push_envelope. apply keeps_checked. intros tenant Ht.
  case_bool_decide as Et; [apply keeps_lift; exact _|]. apply keeps_checked. intros users _.
  case_bool_decide; [apply keeps_ret; exact _|]. apply keeps_checked. intros [request message_id] _.
  case_bool_decide; [by apply (targeted_allowed _ _ _ request)|]. apply keeps_checked. intros statuses Hs.
  apply (targeted_allowed _ _ _ request); [done..|by intros _ u; apply (load_known users)|done].
Qed.

End Allowed.

(** The requests the router serves, and the timers it set. *)
Inductive RouterCall :=
  | CallMessage (ctx : Ctx) (req : PushMessageRequest)
  | CallEvent (fresh : string) (now : Z) (ctx : Ctx) (req : PushEventRequest)
  | CallEnvelope (fresh : string) (ctx : Ctx) (envelope : PushEnvelope)
  | CallTimer (fresh : string) (now : Z) (timer : Timer).

Definition call_ctx (c : RouterCall) : Ctx :=
  match c with
  | CallMessage ctx _ | CallEvent _ _ ctx _ | CallEnvelope _ ctx _ => ctx
  | CallTimer _ _ timer => timer_ctx timer
  end.

Definition run_call (ports : RouterPorts) (fault : schedule) (c : RouterCall) : db (World Bytes) unit :=
  match c with
  | CallMessage ctx req => handle_message ports fault ctx req
  | CallEvent fresh now ctx req => handle_event ports fault fresh now ctx req
  | CallEnvelope fresh ctx envelope => handle_push_envelope ports fault fresh ctx envelope
  | CallTimer fresh now timer => coalesced_ping_due ports fault fresh now timer
  end.

(** What a call publishes is allowed. *)
Lemma run_call_allowed (ports : RouterPorts) (fault : schedule) (call : RouterCall) (n : nat) (w : World Bytes) :
  exists k, published (run_call ports fault call (n, w)).2.2 = published w ++ (mkPublished (call_ctx call) <$> k) /\
    Forall (allowed ports (call_ctx call)) k.
Proof.
  destruct call as [ctx req|fresh now ctx req|fresh ctx envelope|fresh now timer]; cbn [run_call call_ctx].
  - apply handle_message_allowed.
  - apply handle_event_allowed.
  - apply handle_envelope_allowed.
  - unfold coalesced_ping_due. unfold mbind, stE_bind. destruct (take_pending now (timer_key timer) (coalescer w)) as [taken st].
    cbn -[log_error handle_conversation_ping_without_recipients].
    destruct taken as [ping|]; [|by apply publishes_same]. destruct (pure_conversation_ping ping) as [[c seq]|]; [|by apply publishes_same].
    destruct (conversation_ping_allowed ports fault (timer_ctx timer) fresh ping c n (mkWorld (published w) st (timers w)))
      as (k & E & Hk). exists k. split; [exact E|exact Hk].
Qed.

(** C23. Whatever is pushed and whatever fails, the tasks that are published are of the tenant of the
    caller, which is a canonical one; a task that rings a phone is for one user, who was offline
    when asked about, it shows something, and the user did not silence it, by the preferences
    that the router loaded. Without a policy, or when the query for the preferences fails, these
    are none, and the phone of a user who muted the conversation may ring. *)
Theorem phones_ring_only_when_allowed (ports : RouterPorts) (fault : schedule) (call : RouterCall) (n : nat) (w : World Bytes) :
  exists k, published (run_call ports fault call (n, w)).2.2 = published w ++ (mkPublished (call_ctx call) <$> k) /\
    Forall (allowed ports (call_ctx call)) k.
Proof. apply run_call_allowed. Qed.

End Facts.

(** ** Samples *)

Definition sample_ctx : Ctx := mkCtx None None None (Some "acme") None.

Definition hello : Message :=
  mkMessage "m1" "c1" "" "alice" (Some SrcUser) 7 0 0 TypeText None "" "" "" None
    (Some (Some (Text "hello" [mkMention false "carol" []]))) (Some Persisted) None None None ∅ ∅.

Definition hello_event : PushEventRequest :=
  mkPushEventRequest ["alice"; "bob"; "carol"; "dave"] [mkPushEvent "e1" "c1" 7 (Some EventMessage) (Some (EvMessage hello))]
    None "c1" 7 (Some DeliveryPingWithInline) false.

(** Bob muted the conversation; carol and dave listen to mentions only. Alice is online. *)
Definition sample_ports : RouterPorts :=
  mkPorts (fun _ _ => Ok {[ "alice" := true ]}) (fun _ _ => Ok [])
    (Some (mkPolicy (fun _ _ _ => Ok (<["bob" := mkPreference true false]> (<["carol" := mkPreference false true]>
                                       {[ "dave" := mkPreference false true ]})))
                    (fun _ _ _ => Ok None))) None 1000.

Definition empty_world : World Wire := mkWorld [] (mkCoalesce ∅ 0) [].

Lemma every_recipient_is_reached_witness :
  exists n' online offline,
    handle_event sample_ports calm "f" 0 sample_ctx hello_event (O, empty_world)
      = (Ok (), (n', mkWorld (published empty_world ++ (mkPublished sample_ctx <$> online ++ offline))
                       (coalescer empty_world) (timers empty_world))) /\
    mjoin (reached <$> online) = ["alice"; "bob"; "carol"; "dave"] /\ reached <$> offline = [["carol"]].
Proof.
  destruct (every_recipient_is_reached sample_ports "f" 0 sample_ctx "acme" hello_event {[ "alice" := true ]} O empty_world
    ltac:(reflexivity) ltac:(discriminate) ltac:(reflexivity)) as (n' & online & offline & E & Hon & _ & Hoff & _).
  exists n', online, offline. split; [exact E|]. split; [exact Hon|]. rewrite Hoff. vm_compute. reflexivity.
Defined.

Lemma phones_ring_only_when_allowed_witness :
  exists k, published (run_call sample_ports calm (CallEvent "f" 0 sample_ctx hello_event) (O, empty_world)).2.2 = mkPublished sample_ctx <$> k /\
    Forall (allowed sample_ports sample_ctx) k /\ k <> [].
Proof.
  destruct (phones_ring_only_when_allowed sample_ports calm (CallEvent "f" 0 sample_ctx hello_event) O empty_world) as (k & E & Hk).
  exists k. split; [exact E|]. split; [exact Hk|]. intros ->. vm_compute in E. discriminate E.
Defined.
