(* ===== verification/PushPings.v ===== *)
(** * Pings of a conversation are merged, not lost

    The coalescer of the push router (flare-push/server, push_router_handler.rs): pings come in,
    timers fire, in any order and at any time. The invariant is proved of a state machine of the
    coalescer alone, and the handlers of [PushRouter] are shown to follow it. *)

From S2P Require Import Prelude.
From S2P Require Import Proto.
From S2P Require Import PushTypes.
From S2P Require Import Database.
From S2P Require Import PushRouter.
From S2P Require Import PushRouterFacts.
From stdpp Require Import base gmap sets strings list relations.
From Stdlib Require Import ZArith Lia.

Open Scope Z_scope.

(** The coalescer, the timers that were set and have not fired, the pings that came in and
    those that were sent on, each as the number it announces. *)
Record PingMachine := mkMachine {
  ps_state : CoalesceState;
  ps_armed : list CoalesceKey;
  ps_seen : list (CoalesceKey * Z);
  ps_sent : list (CoalesceKey * Z);
}.

Definition machine_start (now : Z) : PingMachine := mkMachine (mkCoalesce ∅ now) [] [] [].

Section Pings.
Context (window : Z).

(** What the handler does with a decision of [observe]. *)
Definition after_decision (k : CoalesceKey) (seq : Z) (d : CoalesceDecision) (st : CoalesceState) (s : PingMachine) : PingMachine :=
  match d with
  | SendNow => mkMachine st (ps_armed s) ((k, seq) :: ps_seen s) ((k, seq) :: ps_sent s)
  | ScheduleAfter _ => mkMachine st (k :: ps_armed s) ((k, seq) :: ps_seen s) (ps_sent s)
  | Suppressed => mkMachine st (ps_armed s) ((k, seq) :: ps_seen s) (ps_sent s)
  end.

(** What a timer that fires does with what it took. *)
Definition after_timer (k : CoalesceKey) (rest : list CoalesceKey) (taken : option PushEventRequest) (st : CoalesceState)
    (s : PingMachine) : PingMachine :=
  match taken ≫= pure_conversation_ping with
  | Some (c, seq) => mkMachine st rest (ps_seen s) (((k.1, c), seq) :: ps_sent s)
  | None => mkMachine st rest (ps_seen s) (ps_sent s)
  end.

(** A ping comes in, not older than those before it, or a timer fires. *)
Inductive machine_step : PingMachine -> PingMachine -> Prop :=
  | machine_observed s now tenant c seq req d st :
      0 <= seq -> pure_conversation_ping req = Some (c, seq) ->
      (forall seq', ((tenant, c), seq') ∈ ps_seen s -> seq' <= seq) ->
      observe window now (tenant, c) (pending_conversation_ping_request req c seq) (ps_state s) = (d, st) ->
      machine_step s (after_decision (tenant, c) seq d st s)
  | machine_fired s now k rest taken st :
      ps_armed s ≡ₚ k :: rest ->
      take_pending now k (ps_state s) = (taken, st) ->
      machine_step s (after_timer k rest taken st s).

(** An entry with a ping to send is scheduled, and what it holds is a ping of its conversation no
    newer than those that came in. *)
Definition entry_ok (s : PingMachine) (k : CoalesceKey) (e : CoalesceEntry) : Prop :=
  (scheduled e = true -> k ∈ ps_armed s) /\
  forall p, pending e = Some p ->
    scheduled e = true /\ 0 < pr_max_conversation_seq p /\
    pure_conversation_ping p = Some (k.2, pr_max_conversation_seq p) /\ (k, pr_max_conversation_seq p) ∈ ps_seen s.

Definition covered (s : PingMachine) (x : CoalesceKey * Z) : Prop :=
  (exists seq', (x.1, seq') ∈ ps_sent s /\ x.2 <= seq') \/
  (exists e p, entries (ps_state s) !! x.1 = Some e /\ pending e = Some p /\ x.2 <= pr_max_conversation_seq p).

Record ping_inv (s : PingMachine) : Prop := {
  inv_entries : map_Forall (entry_ok s) (entries (ps_state s));
  inv_covered : Forall (covered s) (ps_seen s);
}.

Lemma ping_inv_start now : ping_inv (machine_start now).
Proof. split; [apply map_Forall_empty|constructor]. Qed.

Lemma pure_ping_merge p q c :
  pure_conversation_ping p = Some (c, pr_max_conversation_seq p) -> 0 < pr_max_conversation_seq p ->
  pure_conversation_ping (merge_pending_conversation_ping p q)
  = Some (c, Z.max (pr_max_conversation_seq p) (pr_max_conversation_seq q)).
Proof.
  unfold pure_conversation_ping. destruct (pr_events p); [|done]. cbn.
  destruct (Str.is_blank (pr_conversation_id p)) eqn:Eb; [done|]. cbn.
  destruct (pr_max_conversation_seq p =? 0) eqn:E0; [done|].
  destruct (pr_delivery_mode p) as [[]|]; try done. intros [= ->] Hp.
  destruct (Z.max _ _ =? 0) eqn:Em; [lia|]. done.
Qed.

Lemma pure_ping_pending req c seq :
  pure_conversation_ping req = Some (c, seq) -> 0 <= seq ->
  0 < seq /\ pure_conversation_ping (pending_conversation_ping_request req c seq) = Some (c, seq).
Proof.
  unfold pure_conversation_ping. destruct (pr_events req); [|done]. cbn.
  destruct (Str.is_blank (pr_conversation_id req)) eqn:Eb; [done|]. cbn.
  destruct (pr_max_conversation_seq req =? 0) eqn:E0; [done|].
  destruct (pr_delivery_mode req) as [[]|]; try done. intros [= <- <-] Hseq. rewrite Eb, E0. split; [lia|done].
Qed.

(** A sweep drops only entries with nothing to send. *)
Lemma sweep_lookup now st k e :
  entries (sweep window now st) !! k = Some e -> entries st !! k = Some e.
Proof. unfold sweep. destruct (_ <=? _); [|done]. cbn. by intros [He _]%map_lookup_filter_Some. Qed.

Lemma sweep_keeps now st k e p :
  entries st !! k = Some e -> pending e = Some p -> entries (sweep window now st) !! k = Some e.
Proof.
  intros He Hp. unfold sweep. destruct (_ <=? _); [|done]. cbn. apply map_lookup_filter_Some. split; [done|].
  cbn. unfold is_idle. rewrite Hp, bool_decide_eq_false_2 by done. by rewrite andb_false_r.
Qed.

Lemma covered_swept now s x :
  covered s x -> covered (mkMachine (sweep window now (ps_state s)) (ps_armed s) (ps_seen s) (ps_sent s)) x.
Proof.
  intros [H|(e & p & He & Hp & Hle)]; [by left|]. right. exists e, p. split; [|done]. cbn. by eapply sweep_keeps.
Qed.

Lemma inv_swept now s :
  ping_inv s -> ping_inv (mkMachine (sweep window now (ps_state s)) (ps_armed s) (ps_seen s) (ps_sent s)).
Proof.
  intros [He Hc]. split.
  - intros k e Hk. apply sweep_lookup in Hk. exact (He k e Hk).
  - cbn. eapply Forall_impl; [exact Hc|]. intros x. apply covered_swept.
Qed.

(** Changing one entry and adding to what was seen, sent and armed. *)
Lemma inv_put s k e armed seen sent :
  ping_inv s ->
  (forall k', k' ∈ ps_armed s -> k' ∈ armed \/ k' = k) -> ps_seen s ⊆ seen -> ps_sent s ⊆ sent ->
  entry_ok (mkMachine (put_entry k e (ps_state s)) armed seen sent) k e ->
  (forall seq, (k, seq) ∈ seen -> covered (mkMachine (put_entry k e (ps_state s)) armed seen sent) (k, seq)) ->
  (forall k' seq, (k', seq) ∈ seen -> k' = k \/ (k', seq) ∈ ps_seen s) ->
  ping_inv (mkMachine (put_entry k e (ps_state s)) armed seen sent).
Proof.
  intros [He Hc] Harmed Hseen Hsent Hk Hcov Hnew. split.
  - intros k' e' Hk'. destruct (decide (k' = k)) as [->|Hne].
    + cbn in Hk'. rewrite lookup_insert_eq in Hk'. injection Hk' as <-. exact Hk.
    + cbn in Hk'. rewrite lookup_insert_ne in Hk' by done. destruct (He k' e' Hk') as [Ha Hp]. split; cbn.
      * intros Hs. destruct (Harmed k' (Ha Hs)); [done|congruence].
      * intros p Hpe. destruct (Hp p Hpe) as (H1 & H2 & H3 & H4). split_and!; [done..|by apply Hseen].
  - cbn. apply Forall_forall. intros [k' seq] Hx. destruct (decide (k' = k)) as [->|Hne]; [by apply Hcov|].
    destruct (Hnew k' seq Hx) as [->|Hold]; [done|]. rewrite Forall_forall in Hc.
    destruct (Hc _ Hold) as [(seq' & Hs & Hle)|(e' & p & He' & Hp & Hle)].
    + left. exists seq'. split; [by apply Hsent|done].
    + right. exists e', p. split; [|done]. cbn in *. by rewrite lookup_insert_ne by done.
Qed.

Lemma observed_inv s now tenant c seq req d st :
  0 < window -> ping_inv s -> 0 <= seq -> pure_conversation_ping req = Some (c, seq) ->
  (forall seq', ((tenant, c), seq') ∈ ps_seen s -> seq' <= seq) ->
  observe window now (tenant, c) (pending_conversation_ping_request req c seq) (ps_state s) = (d, st) ->
  ping_inv (after_decision (tenant, c) seq d st s).
Proof.
  intros Hw Hinv Hseq Hpure Horder. destruct (pure_ping_pending _ _ _ Hpure Hseq) as [Hpos Hping].
  unfold observe. rewrite (proj2 (Z.eqb_neq window 0)) by lia. cbn zeta. apply (inv_swept now) in Hinv.
  set (k := (tenant, c)) in *. set (s1 := mkMachine (sweep window now (ps_state s)) _ _ _) in Hinv.
  assert (Hsend : ping_inv (mkMachine (put_entry k (mkEntry now false None) (ps_state s1)) (ps_armed s)
                              ((k, seq) :: ps_seen s) ((k, seq) :: ps_sent s))).
  { apply inv_put; [done|naive_solver|set_solver|set_solver|split; [done|by intros p]| |set_solver].
    intros seq' Hx. left. exists seq. split; [left|]. apply elem_of_cons in Hx as [E|Hx]; [assert (seq' = seq) by congruence; cbn; lia|by apply Horder]. }
  destruct (entries (sweep window now (ps_state s)) !! k) as [e|] eqn:Ee; [|intros E; by simplify_eq].
  destruct (window <=? duration_since now (last_sent e)) eqn:Ew; [intros E; by simplify_eq|].
  set (incoming := pending_conversation_ping_request req c seq) in *.
  set (merged := match pending e with Some existing => merge_pending_conversation_ping existing incoming | None => incoming end).
  destruct (inv_entries _ Hinv k e Ee) as [Harmed Hpend].
  assert (Hmerged : pure_conversation_ping merged = Some (c, pr_max_conversation_seq merged)
    /\ pr_max_conversation_seq merged = seq).
  { unfold merged. destruct (pending e) as [p|] eqn:Ep; [|done].
    destruct (Hpend p eq_refl) as (_ & H0 & H1 & H2). split; [by apply pure_ping_merge|].
    cbn. apply Horder in H2. cbn in *. lia. }
  destruct Hmerged as [Hm Hmax].
  assert (Hkeep : forall armed, k ∈ armed -> ps_armed s ⊆ armed ->
    ping_inv (mkMachine (put_entry k (mkEntry (last_sent e) true (Some merged)) (ps_state s1)) armed
                ((k, seq) :: ps_seen s) (ps_sent s))).
  { intros armed Hk Hsub. apply inv_put; [done|set_solver|set_solver|set_solver| | |set_solver].
    - split; [done|]. intros p [= <-]. cbn. rewrite Hmax. split_and!; [done|done|by rewrite <- Hmax at 1|left].
    - intros seq' Hx. right. eexists _, merged. split; [apply lookup_insert_eq|]. split; [done|]. cbn. rewrite Hmax.
      apply elem_of_cons in Hx as [E|Hx]; [assert (seq' = seq) by congruence; cbn; lia|by apply Horder]. }
  intros [= <- <-]. destruct (scheduled e) eqn:Es; cbn.
  - apply Hkeep; [by apply Harmed|done].
  - apply Hkeep; [left|set_solver].
Qed.

Lemma fired_inv s now k rest taken st :
  ping_inv s -> ps_armed s ≡ₚ k :: rest -> take_pending now k (ps_state s) = (taken, st) ->
  ping_inv (after_timer k rest taken st s).
Proof.
  intros Hinv Harmed. unfold take_pending.
  destruct (entries (ps_state s) !! k) as [e|] eqn:Ee.
  - destruct (inv_entries _ Hinv k e Ee) as [_ Hpend]. intros [= <- <-]. unfold after_timer.
    destruct (pending e) as [p|] eqn:Ep; cbn.
    + destruct (Hpend p eq_refl) as (_ & H0 & H1 & H2). rewrite H1. rewrite <- surjective_pairing.
      apply inv_put; [done| |done|set_solver|by split| |naive_solver].
      { intros k' Hk'. rewrite Harmed in Hk'. set_solver. }
      intros seq Hx. left. pose proof (inv_covered _ Hinv) as Hc. rewrite Forall_forall in Hc.
      destruct (Hc _ Hx) as [(seq' & Hs & Hle)|(e' & p' & He' & Hp' & Hle)]; [exists seq'; set_solver|].
      cbn in *. rewrite Ee in He'. injection He' as <-. rewrite Ep in Hp'. injection Hp' as <-.
      exists (pr_max_conversation_seq p). split; [left|done].
    + apply inv_put; [done| |done|done|by split| |naive_solver].
      { intros k' Hk'. rewrite Harmed in Hk'. set_solver. }
      intros seq Hx. left. pose proof (inv_covered _ Hinv) as Hc. rewrite Forall_forall in Hc.
      destruct (Hc _ Hx) as [(seq' & Hs & Hle)|(e' & p' & He' & Hp' & Hle)]; [by exists seq'|].
      cbn in *. rewrite Ee in He'. injection He' as <-. congruence.
  - intros [= <- <-]. unfold after_timer. cbn. destruct Hinv as [He Hc]. split; [|done].
    intros k' e' Hk'. destruct (He k' e' Hk') as [Ha Hp]. split; [|done]. cbn. intros Hs. specialize (Ha Hs).
    rewrite Harmed in Ha. apply elem_of_cons in Ha as [->|]; [cbn in Hk'; congruence|done].
Qed.

End Pings.

(** An invariant of the machine: a ping that came in was sent, or waits for a timer that is set. *)
Lemma machine_keeps (window start : Z) (s : PingMachine) :
  0 < window -> rtc (machine_step window) (machine_start start) s -> ping_inv s.
Proof.
  intros Hwindow Hreach. remember (machine_start start) as s0 eqn:E0. assert (H0 : ping_inv s0) by (subst; apply ping_inv_start).
  clear E0. induction Hreach as [|s0 s1 s2 Hstep _ IH]; [done|]. apply IH. destruct Hstep; [by eapply observed_inv|by eapply fired_inv].
Qed.

(** ** The handlers *)

Section Router.
Context {Bytes : Type} `{PushCodecLaws Bytes}.
Context (ports : RouterPorts) (window : Z) (Hcoalesce : coalesce_window ports = Some window).

(** The index of who is online in a conversation. *)
Context (online : string -> string -> list string).
Context (Hindex : forall ctx tenant c, request_tenant_id ctx = Ok tenant -> online_user_ids ports ctx c = Ok (online tenant c)).

(** The router, and the pings that came in. *)
Record PingSystem := mkSystem { ps_world : World Bytes; ps_in : list (CoalesceKey * Z) }.

(** The broker has an online task for the user: a ping of the conversation that announces the number or a later one. *)
Definition announced (w : World Bytes) (k : CoalesceKey) (seq : Z) (u : string) : Prop :=
  exists pub t r seq', pub ∈ published w /\ pt_online (pub_task pub) = true /\
    task_request (pub_task pub) = Some (t, REvent r) /\ task_tenant_id t = k.1 /\
    pure_conversation_ping r = Some (k.2, seq') /\ seq <= seq' /\ u ∈ pr_user_ids r.

(** With a broker that works: a ping without recipients is handled, not older than those before it; a
    timer that was set fires; other handlers publish their tasks. *)
Inductive ping_step : PingSystem -> PingSystem -> Prop :=
  | ping_handled s fresh now ctx tenant c seq req n n' w' :
      request_tenant_id ctx = Ok tenant -> pr_user_ids req = [] -> pure_conversation_ping req = Some (c, seq) -> 0 <= seq ->
      (forall seq', ((tenant, c), seq') ∈ ps_in s -> seq' <= seq) ->
      handle_event ports calm fresh now ctx req (n, ps_world s) = (Ok (), (n', w')) ->
      ping_step s (mkSystem w' (((tenant, c), seq) :: ps_in s))
  | timer_due s fresh now timer before after n r n' w' :
      timers (ps_world s) = before ++ timer :: after ->
      coalesced_ping_due ports calm fresh now timer
        (n, mkWorld (published (ps_world s)) (coalescer (ps_world s)) (before ++ after)) = (r, (n', w')) ->
      ping_step s (mkSystem w' (ps_in s))
  | others_publish s tasks :
      ping_step s (mkSystem (mkWorld (published (ps_world s) ++ tasks) (coalescer (ps_world s)) (timers (ps_world s))) (ps_in s)).

Definition router_start (start : Z) : PingSystem := mkSystem (mkWorld [] (mkCoalesce ∅ start) []) [].

Lemma announced_more w tasks st ts k seq u :
  announced w k seq u -> announced (mkWorld (published w ++ tasks) st ts) k seq u.
Proof. intros (pub & t & r & seq' & Hin & Hr). exists pub, t, r, seq'. split; [cbn; set_solver|done]. Qed.

Lemma pure_ping_recipients req users : pure_conversation_ping req = match with_recipients users (REvent req) with REvent r => pure_conversation_ping r | _ => None end.
Proof. by destruct req. Qed.

(** A ping that is sent on is announced to everyone online in the conversation. *)
Lemma ping_dispatched fresh ctx tenant req c seq n w :
  request_tenant_id ctx = Ok tenant -> pure_conversation_ping req = Some (c, seq) ->
  exists n' tasks, handle_conversation_ping_without_recipients ports calm fresh ctx req c (n, w)
      = (Ok (), (n', mkWorld (published w ++ tasks) (coalescer w) (timers w))) /\
    forall u, u ∈ online tenant c -> announced (mkWorld (published w ++ tasks) (coalescer w) (timers w)) (tenant, c) seq u.
Proof.
  intros Ht Hp. unfold handle_conversation_ping_without_recipients. rewrite (Hindex ctx tenant c Ht).
  destruct (online tenant c) as [|u0 us] eqn:Eon.
  { exists n, []. rewrite app_nil_r. split; [by destruct w|]. by intros u ?%elem_of_nil. }
  rewrite <- Eon. unfold publish_event_to_online_index_batch. rewrite bool_decide_eq_false_2 by (by rewrite Eon).
  unfold mbind, stE_bind, lift_r. rewrite Ht. unfold publish_targeted_tasks.
  set (users := online tenant c) in *. set (t := event_template fresh tenant req users).
  destruct (targeted_calm ports ctx users (list_to_map ((fun u => (u, true)) <$> users)) t (with_recipients users (REvent req)) true false None
    eq_refl eq_refl n w) as [n' E]. rewrite E. eexists n', _. split; [done|]. intros u Hu.
  assert (Hon : forall v, v ∈ users -> is_online (list_to_map ((fun u => (u, true)) <$> users)) v = true).
  { intros v Hv. unfold is_online. destruct (_ !! v) as [b|] eqn:Eb.
    - apply elem_of_list_to_map_2, list_elem_of_fmap in Eb as (x & [= -> ->] & _). done.
    - exfalso. apply not_elem_of_list_to_map_2 in Eb. apply Eb. rewrite <- list_fmap_compose. apply list_elem_of_fmap. by exists v. }
  assert (Hall : u ∈ mjoin (chunks ONLINE_FANOUT_CHUNK (filter (fun u => is_online (list_to_map ((fun u => (u, true)) <$> users)) u || false = true) users))).
  { rewrite chunks_join by (unfold ONLINE_FANOUT_CHUNK; lia). apply list_elem_of_filter. by rewrite (Hon u Hu). }
  apply list_elem_of_join in Hall as (part & Hupart & Hpart).
  exists (mkPublished ctx (online_task t (with_recipients users (REvent req)) part)), (task_of t "" (encode_request (with_recipients part (with_recipients users (REvent req))))).
  assert (Hr : exists r, with_recipients part (with_recipients users (REvent req)) = REvent r /\ pure_conversation_ping r = Some (c, seq) /\ pr_user_ids r = part)
    by (destruct req; eexists; by split).
  destruct Hr as (r & Er & Hpure & Hpartr). exists r, seq. split_and!; [|done| |done|done|lia|by rewrite Hpartr].
  - cbn. apply elem_of_app. right. apply list_elem_of_fmap. eexists. split; [done|]. apply elem_of_app. left. apply list_elem_of_fmap. by exists part.
  - cbn [pub_task]. unfold online_task. rewrite task_request_of by done. unfold carries. by rewrite Er.
Qed.

(** ** The handlers follow the machine *)

Record follows (s : PingSystem) (m : PingMachine) : Prop := {
  fo_state : coalescer (ps_world s) = ps_state m;
  fo_timers : timer_key <$> timers (ps_world s) ≡ₚ ps_armed m;
  fo_seen : ps_in s = ps_seen m;
  fo_sent : forall k seq, (k, seq) ∈ ps_sent m -> forall u, u ∈ online k.1 k.2 -> announced (ps_world s) k seq u;
  fo_tenants : Forall (fun timer => request_tenant_id (timer_ctx timer) = Ok (timer_key timer).1) (timers (ps_world s));
}.

Lemma follows_start start : follows (router_start start) (machine_start start).
Proof. split; try done. by intros k seq ?%elem_of_nil. Qed.

(** What a timer that fires does to the router. *)
Lemma due_run fresh now timer n w :
  request_tenant_id (timer_ctx timer) = Ok (timer_key timer).1 ->
  let '(taken, st) := take_pending now (timer_key timer) (coalescer w) in
  exists r n' tasks, coalesced_ping_due ports calm fresh now timer (n, w) = (r, (n', mkWorld (published w ++ tasks) st (timers w))) /\
    forall c seq, taken ≫= pure_conversation_ping = Some (c, seq) ->
      forall u, u ∈ online (timer_key timer).1 c -> announced (mkWorld (published w ++ tasks) st (timers w)) ((timer_key timer).1, c) seq u.
Proof.
  intros Ht. unfold coalesced_ping_due, mbind, stE_bind. destruct (take_pending _ _ _) as [taken st] eqn:E.
  assert (Hnone : taken ≫= pure_conversation_ping = None -> exists r n' tasks,
    (Ok () : result unit, (n, mkWorld (published w) st (timers w))) = (r, (n', mkWorld (published w ++ tasks) st (timers w))) /\
    forall c seq, taken ≫= pure_conversation_ping = Some (c, seq) ->
      forall u, u ∈ online (timer_key timer).1 c -> announced (mkWorld (published w ++ tasks) st (timers w)) ((timer_key timer).1, c) seq u).
  { intros Hn. exists (Ok ()), n, []. rewrite app_nil_r. split; [done|]. intros c seq. by rewrite Hn. }
  destruct taken as [ping|]; [|by apply Hnone]. cbn in Hnone |- *.
  destruct (pure_conversation_ping ping) as [[c seq]|] eqn:Ep; [|by apply Hnone].
  destruct (ping_dispatched fresh (timer_ctx timer) _ ping c seq n (mkWorld (published w) st (timers w)) Ht Ep) as (n' & tasks & Ed & Ha).
  unfold log_error. rewrite Ed. exists (Ok ()), n', tasks. split; [done|]. intros c' seq' [= <- <-]. exact Ha.
Qed.

Lemma follows_step s s' m :
  ping_step s s' -> follows s m -> exists m', rtc (machine_step window) m m' /\ follows s' m'.
Proof.
  intros Hstep [Hst Htm Hseen Hsent Hten]. destruct Hstep as [s fresh now ctx tenant c seq req n n' w' Ht Hu Hp Hseq Hord E|
    s fresh now timer before after n r n' w' Htimers E|s tasks].
  - unfold handle_event in E. rewrite Hu, Hp in E. unfold handle_coalesced_conversation_ping_without_recipients in E.
    rewrite Hcoalesce in E. unfold mbind, stE_bind, lift_r in E. rewrite Ht in E.
    destruct (observe window now (tenant, c) _ _) as [d st] eqn:Eo. rewrite Hst in Eo.
    exists (after_decision (tenant, c) seq d st m). split.
    { apply rtc_once. eapply machine_observed; [exact Hseq|exact Hp| |exact Eo]. rewrite <- Hseen. exact Hord. }
    destruct d as [|delay|].
    2:{ injection E as <- <-. split; cbn; [done|by rewrite fmap_app, Htm, Permutation_app_comm|by rewrite Hseen| |].
        - intros k seq' Hin u Hon. destruct (Hsent k seq' Hin u Hon) as (pub & Hpub). by exists pub.
        - apply Forall_app. split; [done|]. by apply Forall_singleton. }
    + destruct (ping_dispatched fresh ctx tenant req c seq n (mkWorld (published (ps_world s)) st (timers (ps_world s))) Ht Hp) as (n1 & tasks & Ed & Ha).
      rewrite Ed in E. injection E as <- <-. split; cbn; [done|done|by rewrite Hseen| |done].
      intros k seq' [[= -> ->]|Hin]%elem_of_cons u Hon; [by apply Ha|]. apply (announced_more (ps_world s)). by apply Hsent.
    + injection E as <- <-. split; cbn; [done|done|by rewrite Hseen| |done].
      intros k seq' Hin u Hon. destruct (Hsent k seq' Hin u Hon) as (pub & Hpub). by exists pub.
  - rewrite Htimers in Hten, Htm. apply Forall_app in Hten as [Hb [Htimer Ha]%Forall_cons].
    pose proof (due_run fresh now timer n (mkWorld (published (ps_world s)) (coalescer (ps_world s)) (before ++ after)) Htimer) as Hrun.
    cbn [coalescer published timers] in Hrun. destruct (take_pending now (timer_key timer) (coalescer (ps_world s))) as [taken st] eqn:Et.
    destruct Hrun as (r1 & n1 & tasks & Er & Hann). rewrite E in Er. injection Er as -> -> ->. rewrite Hst in Et.
    exists (after_timer (timer_key timer) (timer_key <$> before ++ after) taken st m). split.
    { apply rtc_once. eapply machine_fired; [|exact Et]. rewrite <- Htm, !fmap_app. cbn. by rewrite Permutation_middle. }
    unfold after_timer. destruct (taken ≫= pure_conversation_ping) as [[c seq]|] eqn:Ep.
    all: split; cbn; [done|done|done| |by apply Forall_app]; intros k seq'.
    + intros [[= -> ->]|Hin]%elem_of_cons u Hon; [by eapply Hann|]. apply (announced_more (ps_world s)). by apply Hsent.
    + intros Hin u Hon. apply (announced_more (ps_world s)). by apply Hsent.
  - exists m. split; [done|]. split; cbn; [done|done|done| |done].
    intros k seq Hin u Hon. apply (announced_more (ps_world s)). by apply Hsent.
Qed.

Lemma follows_reach start s :
  rtc ping_step (router_start start) s -> exists m, rtc (machine_step window) (machine_start start) m /\ follows s m.
Proof.
  intros Hreach. assert (Hgen : forall s0 m0, follows s0 m0 -> rtc ping_step s0 s -> exists m, rtc (machine_step window) m0 m /\ follows s m).
  { clear Hreach. intros s0 m0 Hf Hr. revert m0 Hf. induction Hr as [s0|s0 s1 s2 Hstep _ IH]; intros m0 Hf; [by exists m0|].
    destruct (follows_step _ _ _ Hstep Hf) as (m1 & Hm1 & Hf1). destruct (IH m1 Hf1) as (m & Hm & Hfm). exists m. split; [by etrans|done]. }
  apply (Hgen (router_start start) (machine_start start)); [apply follows_start|exact Hreach].
Qed.

(** A ping that came in was announced, or its timer is set and will announce it. *)
Lemma ping_kept start s k seq :
  0 < window -> rtc ping_step (router_start start) s -> (k, seq) ∈ ps_in s ->
  (forall u, u ∈ online k.1 k.2 -> announced (ps_world s) k seq u) \/
  exists timer, timer ∈ timers (ps_world s) /\ timer_key timer = k /\
    forall fresh now n u, u ∈ online k.1 k.2 -> announced (coalesced_ping_due ports calm fresh now timer (n, ps_world s)).2.2 k seq u.
Proof.
  intros Hw Hreach Hin. destruct (follows_reach start s Hreach) as (m & Hm & [Hst Htm Hseen Hsent Hten]). pose proof (machine_keeps _ _ _ Hw Hm) as Hinv.
  rewrite Hseen in Hin. pose proof (inv_covered _ Hinv) as Hc. rewrite Forall_forall in Hc.
  assert (Hmono : forall w seq' u, seq <= seq' -> announced w k seq' u -> announced w k seq u).
  { intros w seq' u Hle (pub & t & r & x & ? & ? & ? & ? & ? & ? & ?). exists pub, t, r, x. split_and!; [done..|lia|done]. }
  destruct (Hc _ Hin) as [(seq' & Hs & Hle)|(e & p & He & Hp & Hle)].
  { left. intros u Hon. eapply Hmono; [exact Hle|]. by apply Hsent. }
  right. destruct (inv_entries _ Hinv k e He) as [Harm Hpend]. destruct (Hpend p Hp) as (Hsch & _ & Hpure & _).
  specialize (Harm Hsch). rewrite <- Htm in Harm. apply list_elem_of_fmap in Harm as (timer & Hk & Htimer).
  exists timer. split; [done|]. split; [done|]. intros fresh now n u Hon. rewrite Forall_forall in Hten.
  pose proof (due_run fresh now timer n (ps_world s) (Hten _ Htimer)) as Hrun. unfold take_pending in Hrun. rewrite <- Hk, Hst in Hrun.
  cbn in He. rewrite He in Hrun. destruct Hrun as (r & n' & tasks & Er & Hann). rewrite Er. cbn in Hann |- *. rewrite Hp in Hann.
  eapply Hmono; [exact Hle|]. destruct k as [kt kc]. by apply Hann.
Qed.

End Router.

(** C30. Pings of conversations are merged, not lost. With a broker and an index of who is online that
    work (a trailing ping whose dispatch fails is logged and lost), and a window for merging:
    whatever pings without recipients the router handles, each not older than those of its
    conversation before it, whenever the timers fire and whatever else is published, a ping that
    came in has been announced, by an online task for a ping of the conversation with a number at
    least as high, to everyone who is online in the conversation, or a timer for the conversation
    is set that will announce it so when it fires. *)
Theorem no_ping_is_lost `{PushCodecLaws Bytes} (ports : RouterPorts) (window start : Z) (online : string -> string -> list string)
    (s : PingSystem) (k : CoalesceKey) (seq : Z) :
  coalesce_window ports = Some window -> 0 < window ->
  (forall ctx tenant c, request_tenant_id ctx = Ok tenant -> online_user_ids ports ctx c = Ok (online tenant c)) ->
  rtc (ping_step ports) (router_start start) s -> (k, seq) ∈ ps_in s ->
  (forall u, u ∈ online k.1 k.2 -> announced (Bytes := Bytes) (ps_world s) k seq u) \/
  exists timer, timer ∈ timers (ps_world s) /\ timer_key timer = k /\
    forall fresh now n u, u ∈ online k.1 k.2 -> announced (coalesced_ping_due ports calm fresh now timer (n, ps_world s)).2.2 k seq u.
Proof. intros Hcoalesce Hw Hindex. by apply (ping_kept ports window Hcoalesce). Qed.

(** ** Samples *)

Definition ping_of (seq : Z) : PushEventRequest :=
  mkPushEventRequest [] [] None "c1" seq (Some DeliveryPing) true.

Definition c1 : CoalesceKey := ("acme", "c1").

Definition ping_ports : RouterPorts := mkPorts (fun _ _ => Ok ∅) (fun _ _ => Ok ["alice"; "bob"]) None (Some 10) 100.

Definition ping_ctx : Ctx := mkCtx None None None (Some "acme") None.

Definition handled (now seq : Z) (w : World Wire) : World Wire := (handle_event ping_ports calm "f" now ping_ctx (ping_of seq) (O, w)).2.2.

(** The second of two pings within a window waits for its timer. *)
Definition two_pings : PingSystem (Bytes := Wire) :=
  mkSystem (handled 3 2 (handled 0 1 (ps_world (router_start 0)))) [(c1, 2); (c1, 1)].

Lemma handled_step now seq w l :
  0 <= seq -> pure_conversation_ping (ping_of seq) = Some ("c1", seq) -> (forall seq', (c1, seq') ∈ l -> seq' <= seq) ->
  (handle_event ping_ports calm "f" now ping_ctx (ping_of seq) (O, w)).1 = Ok () ->
  ping_step ping_ports (mkSystem w l) (mkSystem (handled now seq w) ((c1, seq) :: l)).
Proof.
  intros Hs Hp Hl Hok. unfold handled.
  destruct (handle_event ping_ports calm "f" now ping_ctx (ping_of seq) (O, w)) as [r [n1 w1]] eqn:E. cbn in Hok |- *. subst r.
  by apply (ping_handled ping_ports (mkSystem w l) "f" now ping_ctx "acme" "c1" seq (ping_of seq) O n1).
Qed.

Lemma two_pings_reached : rtc (ping_step ping_ports) (router_start 0) two_pings.
Proof.
  eapply rtc_l; [apply (handled_step 0 1); [lia|reflexivity|by intros seq' ?%elem_of_nil|vm_compute; reflexivity]|].
  apply rtc_once. apply (handled_step 3 2); [lia|reflexivity| |vm_compute; reflexivity].
  intros seq' Hin%list_elem_of_singleton. by simplify_eq.
Qed.

Lemma no_ping_is_lost_witness :
  length (published (ps_world two_pings)) = 1%nat /\ timer_key <$> timers (ps_world two_pings) = [c1] /\
  ((forall u, u ∈ ["alice"; "bob"] -> announced (ps_world two_pings) c1 2 u) \/
   exists timer, timer ∈ timers (ps_world two_pings) /\ timer_key timer = c1 /\
     forall fresh now n u, u ∈ ["alice"; "bob"] -> announced (coalesced_ping_due ping_ports calm fresh now timer (n, ps_world two_pings)).2.2 c1 2 u).
Proof.
  split; [vm_compute; reflexivity|]. split; [vm_compute; reflexivity|].
  apply (no_ping_is_lost ping_ports 10 0 (fun _ _ => ["alice"; "bob"]) two_pings c1 2).
  - reflexivity.
  - lia.
  - intros ctx tenant c _. reflexivity.
  - apply two_pings_reached.
  - left.
Defined.

(** A ping that comes in late, out of order, after the window but before the timer of a newer one has fired,
    is sent in its place: the newer number is not announced. *)
Lemma late_ping_drops_a_newer_one :
  let '(d1, st1) := observe 10 0 c1 (ping_of 8) (mkCoalesce ∅ 0) in
  let '(d2, st2) := observe 10 3 c1 (ping_of 10) st1 in
  let '(d3, st3) := observe 10 12 c1 (ping_of 9) st2 in
  d1 = SendNow /\ d2 = ScheduleAfter 7 /\ d3 = SendNow /\ (take_pending 13 c1 st3).1 = None.
Proof. vm_compute. done. Qed.
