(* ===== verification/PushWorker.v ===== *)
(** * The push worker and the gateway router

    flare-push/worker: the consumer of online tasks (online_consumer.rs), the executor that
    passes them to the access gateways (online_gateway_delivery.rs) and the choice of devices
    (push_routing.rs); crates/flare-im-service-kit/src/gateway/router.rs: the pool of clients
    and the broadcast to all gateways. The gateways themselves are a state [G] and a function
    from an address, the signed identity of the caller and a request; service discovery,
    leases and the online service are ports. A hash map is iterated in the order in which its
    keys came up. *)

From S2P Require Import Prelude.
From S2P Require Import Slices.
From S2P Require Import Proto.
From S2P Require Import Tenant.
From S2P Require Import Database.
From S2P Require Import PushTypes.
From stdpp Require Import base gmap sets strings list.
From Stdlib Require Import ZArith Lia.

Open Scope Z_scope.

(** ** Requests to a gateway *)

(** [deliver_to_conversation_request::Payload] *)
Inductive DeliverPayload :=
  | DeliverMessages (messages : list Message)
  | DeliverEvents (events : list PushEvent) (delivery_mode : wire EventEnvelopeDeliveryMode) (inline_events_truncated : bool)
  | DeliverPing (max_conversation_seq : Z) (delivery_mode : wire EventEnvelopeDeliveryMode) (inline_events_truncated : bool).

Record DeliverToConversationRequest := mkDeliver {
  dl_conversation_id : string;
  dl_options : option PushOptions;
  dl_payload : option DeliverPayload;
}.

Inductive GatewayRequest :=
  | GwDeliver (r : DeliverToConversationRequest)
  | GwNotification (r : PushNotificationRequest)
  | GwAck (r : PushAckRequest)
  | GwCustom (r : PushCustomRequest)
  | GwCapability (r : PushCapabilityRequest).

Inductive StatusCode :=
  | InvalidArgument | StatusPermissionDenied | Unauthenticated | StatusUnavailable | StatusInternal
  | Cancelled | DeadlineExceeded | ResourceExhausted | Aborted.

(** What a call comes back with; a transport failure is [StatusUnavailable]. *)
Inductive Rpc := RpcOk | RpcStatus (code : StatusCode).

Definition is_transient_gateway_status (c : StatusCode) : bool :=
  match c with
  | StatusUnavailable | Cancelled | DeadlineExceeded | ResourceExhausted | Aborted => true
  | _ => false
  end.

(** [FlareError::system], which has no code and is never retried: [InternalError] here. *)
Definition system (reason : string) : FlareError := flare_err InternalError reason.

Definition gateway_call_failure (reason : string) (c : StatusCode) : FlareError :=
  if is_transient_gateway_status c then flare_err ServiceUnavailable reason else system reason.

(** ** Devices of a user *)

(** [DeviceInfo] of the online service; the quality of its connection as the score
    [calculate_quality_score] gives it. *)
Record DeviceInfo := mkDevice {
  dv_device_id : string;
  dv_gateway_id : string;
  dv_priority : Z;
  dv_quality_score : Z;
}.

Record GatewayPushTarget := mkTarget { tg_user_id : string; tg_device_id : string; tg_gateway_id : string }.

Inductive PushStrategy := AllDevices | BestDevice | ActiveDevices | PrimaryDevice | OtherStrategy.

Definition target_of (user : string) (d : DeviceInfo) : GatewayPushTarget :=
  mkTarget user (dv_device_id d) (dv_gateway_id d).

(** [b.1.cmp(&a.1).then(b.2.partial_cmp(&a.2))]: not greater *)
Definition better_first (a b : DeviceInfo) : bool :=
  (dv_priority b <? dv_priority a)
  || ((dv_priority a =? dv_priority b) && (dv_quality_score b <=? dv_quality_score a)).

Definition select_push_targets (devices : list DeviceInfo) (user : string) (strategy : PushStrategy) : list GatewayPushTarget :=
  target_of user <$>
    match strategy with
    | AllDevices | OtherStrategy => devices
    | BestDevice => take 1 (sort_by better_first devices)
    | ActiveDevices => filter (fun d => 0 < dv_priority d) devices
    | PrimaryDevice =>
        match dv_priority <$> devices with
        | [] => []
        | p :: ps => take 1 (filter (fun d => dv_priority d = foldr Z.max p ps) devices)
        end
    end.

(** Grouping by a key, in the order in which the keys come up. *)
Fixpoint group_insert {K A} `{EqDecision K} (k : K) (a : A) (groups : list (K * list A)) : list (K * list A) :=
  match groups with
  | [] => [(k, [a])]
  | (k', l) :: groups => if decide (k' = k) then (k', l ++ [a]) :: groups else (k', l) :: group_insert k a groups
  end.

Definition group_by_key {K A} `{EqDecision K} (key : A -> K) (l : list A) : list (K * list A) :=
  foldl (fun groups a => group_insert (key a) a groups) [] l.

Definition partition_targets_by_gateway (targets : list GatewayPushTarget) : list (string * list GatewayPushTarget) :=
  group_by_key tg_gateway_id (filter (fun t => Str.is_empty (tg_gateway_id t) = false) targets).

Definition merge_user_ids_for_gateway (base : list string) (targets : list GatewayPushTarget) : list string :=
  let users := remove_dups (tg_user_id <$> targets) in
  match base with
  | [] => users
  | _ => match filter (fun u => u ∈ tg_user_id <$> targets) base with
         | [] => users
         | filtered => filtered
         end
  end.

Definition apply_device_filter (options : option PushOptions) (device_ids : list string) : option PushOptions :=
  let o := default default_options options in
  Some (mkPushOptions (require_ack o) (opt_priority o) (expire_at_ms o) (offline_push o) device_ids (opt_platforms o)).

Definition merge_push_notification_for_gateway (base : PushNotificationRequest) (targets : list GatewayPushTarget) :=
  mkPushNotification (merge_user_ids_for_gateway (pn_user_ids base) targets) (pn_notification base)
    (apply_device_filter (pn_options base) (tg_device_id <$> targets)).

Definition merge_push_ack_for_gateway (base : PushAckRequest) (targets : list GatewayPushTarget) :=
  mkPushAckRequest (merge_user_ids_for_gateway (pa_user_ids base) targets) (pa_ack base)
    (apply_device_filter (pa_options base) (tg_device_id <$> targets)).

Definition merge_push_custom_for_gateway (base : PushCustomRequest) (targets : list GatewayPushTarget) :=
  mkPushCustom (merge_user_ids_for_gateway (pc_user_ids base) targets) (pc_custom_data base)
    (apply_device_filter (pc_options base) (tg_device_id <$> targets)).

Definition capability_expired (push : PushCapabilityRequest) (now_ms : Z) : bool :=
  match pk_options push with
  | Some o => (0 <? expire_at_ms o) && (expire_at_ms o <=? now_ms)
  | None => false
  end.

(** ** The gateway router *)

Definition STATIC_FALLBACK_GATEWAY_ID : string := "__static_fallback__".

Record Instance_ := mkInstance { instance_id : string; grpc_uri : string }.

Record RouterConfig := mkRouterConfig {
  connection_pool_size : nat;
  connection_idle_timeout_ms : Z;
  static_fallback_endpoint : option string;
}.

Record PoolEntry := mkPoolEntry { client_uri : string; last_used : Z }.

Record CachedDevices := mkCached { cached_devices : list DeviceInfo; expires_at : Z }.

Definition DEVICE_ROUTE_CACHE_MAX_USERS : nat := 4096.

(** [push_producer_request]: who signs the request. *)
Definition push_producer_request (ctx : Ctx) : result SignedContextClaims :=
  match ctx_claims ctx with
  | None => Err (flare_err PermissionDenied "verified push producer context required")
  | Some claims =>
      if negb (bool_decide (actor_type claims = ActService))
         || negb (bool_decide (actor_id claims = "flare-push-worker"))
         || negb (bool_decide (ctx_tenant_id ctx = Some (claims_tenant_id claims)))
         || negb (canonical_tenant (claims_tenant_id claims))
      then Err (flare_err PermissionDenied "push producer identity mismatch")
      else Ok claims
  end.

(** ** Records of the broker *)

Inductive MessageResult := Acked | Nacked | DeadLettered.
Inductive ConsumerError := Deserialization | DeadLetterFailed | HandlerFailed.

(** [Result<A, ConsumerError>] *)
Inductive Consumed (A : Type) := Settled (a : A) | Failed_ (e : ConsumerError).
Arguments Settled {A} a.
Arguments Failed_ {A} e.

Record BrokerRecord {Bytes : Type} := mkRecord { rec_ctx : Ctx; rec_payload : Bytes }.
Arguments BrokerRecord : clear implicits.

(** [push_options_key]: no options encode as the default ones do. *)
Definition push_options_key (o : option PushOptions) : PushOptions := default default_options o.

Record MessageBatchKey := mkBatchKey { bk_tenant_id : string; bk_user_ids : list string; bk_options : PushOptions }.

#[export] Instance MessageBatchKey_eq_dec : EqDecision MessageBatchKey.
Proof. solve_decision. Defined.

Section Worker.
Context {G : Type}.
(** A gateway at an address, called with the identity the caller signed as, if any. *)
Context (call : string -> option SignedContextClaims -> GatewayRequest -> G -> Rpc * G).

Record WorkerPorts := mkWorkerPorts {
  config : RouterConfig;
  (** [service_discover.get_instances()] *)
  instances : option (list Instance_);
  (** [service_client.get_channel()] *)
  service_client : option (result string);
  (** the lease probe, if attached *)
  lease_probe : option (string -> bool);
  (** [list_user_devices] of the online service *)
  list_devices : Ctx -> string -> result (list DeviceInfo);
  (** of [FLARE_PUSH_DEVICE_ROUTE_CACHE_TTL_MS] *)
  device_route_cache_ttl : Z;
  now : Z;
}.

(** The gateways, the pool of clients, the cache of devices and the dead letters. *)
Record WorkerWorld {Bytes : Type} := mkWorkerWorld {
  gateways : G;
  connection_pool : gmap string PoolEntry;
  device_cache : gmap string CachedDevices;
  dead_letters : list (Ctx * string * Bytes);
}.
Arguments WorkerWorld : clear implicits.

Context {Bytes : Type} `{PushCodec Bytes}.

Record BatchEntry := mkBatchEntry { be_index : nat; be_record : BrokerRecord Bytes; be_task : PushTaskEnvelope Bytes }.

Record MessageBatchGroup := mkGroup { group_request : PushMessageRequest; group_entries : list BatchEntry }.

Context (ports : WorkerPorts) (fault : schedule).

Abbreviation M := (db (WorkerWorld Bytes)).

Definition on_pool (f : gmap string PoolEntry -> gmap string PoolEntry) : M unit :=
  fun '(n, w) => (Ok (), (n, mkWorkerWorld _ (gateways w) (f (connection_pool w)) (device_cache w) (dead_letters w))).

Definition on_device_cache (f : gmap string CachedDevices -> gmap string CachedDevices) : M unit :=
  fun '(n, w) => (Ok (), (n, mkWorkerWorld _ (gateways w) (connection_pool w) (f (device_cache w)) (dead_letters w))).

Definition read_world : M (WorkerWorld Bytes) := fun '(n, w) => (Ok w, (n, w)).

Definition is_gateway_routable (gateway_id : string) : bool :=
  match lease_probe ports with
  | Some probe => if bool_decide (gateway_id = STATIC_FALLBACK_GATEWAY_ID) then true else probe gateway_id
  | None => true
  end.

Definition ensure_gateway_routable (gateway_id : string) : result unit :=
  if is_gateway_routable gateway_id then Ok ()
  else Err (flare_err UserOffline "gateway lease missing; devices on it are offline").

(** [cleanup_idle_connections] *)
Definition drop_idle (pool : gmap string PoolEntry) : gmap string PoolEntry :=
  filter (fun x => now ports - last_used x.2 < connection_idle_timeout_ms (config ports)) pool.

(** [min_by_key(last_used)] *)
Fixpoint oldest (best : string * PoolEntry) (l : list (string * PoolEntry)) : string :=
  match l with
  | [] => best.1
  | x :: l => oldest (if last_used x.2 <? last_used best.2 then x else best) l
  end.

Definition make_room (pool : gmap string PoolEntry) : gmap string PoolEntry :=
  if decide (connection_pool_size (config ports) <= size pool)%nat then
    let pool := drop_idle pool in
    if decide (connection_pool_size (config ports) <= size pool)%nat then
      match map_to_list pool with
      | [] => pool
      | x :: l => delete (oldest x l) pool
      end
    else pool
  else pool.

(** The address of a gateway. *)
Definition resolve_gateway (gateway_id : string) : result string :=
  match instances ports with
  | Some l =>
      match list_find (fun i => instance_id i = gateway_id) l with
      | Some (_, i) => Ok (grpc_uri i)
      | None =>
          match static_fallback_endpoint (config ports) with
          | Some uri => Ok uri
          | None => Err (flare_err ServiceUnavailable "Gateway instance not found")
          end
      end
  | None =>
      match service_client ports with
      | Some (Ok uri) => Ok uri
      | Some (Err _) => Err (flare_err ServiceUnavailable "Failed to get channel from service discovery")
      | None =>
          match static_fallback_endpoint (config ports) with
          | Some uri => Ok uri
          | None => Err (system "Neither ServiceDiscover nor ServiceClient is available")
          end
      end
  end.

(** A client, kept by the address it was connected to. *)
Definition get_or_create_client (gateway_id : string) : M string :=
  w ← read_world;
  match connection_pool w !! gateway_id with
  | Some e =>
      _ ← on_pool <[gateway_id := mkPoolEntry (client_uri e) (now ports)]>;
      mret (client_uri e)
  | None =>
      _ ← on_pool make_room;
      uri ← lift_r (resolve_gateway gateway_id);
      _ ← exec fault (flare_err ServiceUnavailable "Failed to connect") (fun w => (Ok (), w));
      _ ← on_pool <[gateway_id := mkPoolEntry uri (now ports)]>;
      mret uri
  end.

(** One call; a call that is cut off by the network may or may not have arrived. *)
Definition gateway_call (uri : string) (identity : option SignedContextClaims) (r : GatewayRequest) : M Rpc :=
  fun '(n, w) =>
    let '(answer, g) := call uri identity r (gateways w) in
    let arrived := mkWorkerWorld _ g (connection_pool w) (device_cache w) (dead_letters w) in
    match fault n with
    | Works => (Ok answer, (S n, arrived))
    | FailsBefore => (Ok (RpcStatus StatusUnavailable), (S n, w))
    | FailsAfter => (Ok (RpcStatus StatusUnavailable), (S n, arrived))
    end.

(** One round trip whose failure is an error. *)
Definition gateway_call_checked (reason uri : string) (identity : option SignedContextClaims) (r : GatewayRequest) : M unit :=
  answer ← gateway_call uri identity r;
  match answer with
  | RpcOk => mret ()
  | RpcStatus c => lift_r (Err (gateway_call_failure reason c))
  end.

(** [route_push_notification], [route_push_ack], [route_push_custom]: the request carries no
    identity. *)
Definition route_push (reason : string) (gateway_id : string) (r : GatewayRequest) : M unit :=
  _ ← lift_r (ensure_gateway_routable gateway_id);
  uri ← get_or_create_client gateway_id;
  gateway_call_checked reason uri None r.

Definition gateway_ids : list string := instance_id <$> default [] (instances ports).

Definition routable_gateway_ids (ids : list string) : list string :=
  filter (fun id => is_gateway_routable id = true) ids.

(** One node of a broadcast; a failure is logged. *)
Definition broadcast_to (claims : SignedContextClaims) (r : GatewayRequest) (gateway_id : string) : M unit :=
  log_error (uri ← get_or_create_client gateway_id; gateway_call uri (Some claims) r).

Definition broadcast (ctx : Ctx) (reason : string) (r : GatewayRequest) : M unit :=
  claims ← lift_r (push_producer_request ctx);
  match gateway_ids with
  | [] =>
      uri ← get_or_create_client STATIC_FALLBACK_GATEWAY_ID;
      gateway_call_checked reason uri (Some claims) r
  | ids => for_each (broadcast_to claims r) (routable_gateway_ids ids)
  end.

Definition broadcast_deliver_to_conversation (ctx : Ctx) (r : DeliverToConversationRequest) : M unit :=
  broadcast ctx "deliver_to_conversation failed" (GwDeliver r).

Definition broadcast_push_capability (ctx : Ctx) (r : PushCapabilityRequest) : M unit :=
  broadcast ctx "push_capability failed" (GwCapability r).

(** ** The executor *)

Definition list_user_devices (ctx : Ctx) (user : string) : result (list DeviceInfo) :=
  match list_devices ports ctx user with
  | Ok l => Ok l
  | Err _ => Err (flare_err ServiceUnavailable "Failed to list user devices")
  end.

(** The first key of a full cache makes room. *)
Definition cache_devices (key : string) (devices : list DeviceInfo) (cache : gmap string CachedDevices) : gmap string CachedDevices :=
  let room :=
    if decide (DEVICE_ROUTE_CACHE_MAX_USERS <= size cache)%nat then
      let cache := filter (fun x => now ports < expires_at x.2) cache in
      if decide (DEVICE_ROUTE_CACHE_MAX_USERS <= size cache)%nat then
        match map_to_list cache with [] => cache | x :: _ => delete x.1 cache end
      else cache
    else cache in
  <[key := mkCached devices (now ports + device_route_cache_ttl ports)]> room.

Definition list_user_devices_cached (ctx : Ctx) (user : string) : M (list DeviceInfo) :=
  match ctx_tenant_id ctx with
  | None => lift_r (Err (system "push device lookup requires tenant"))
  | Some tenant =>
      if negb (canonical_tenant tenant) then lift_r (Err (system "invalid push device lookup tenant"))
      else if device_route_cache_ttl ports =? 0 then lift_r (list_user_devices ctx user)
      else
        let key := tenant +:+ ":" +:+ user in
        w ← read_world;
        match device_cache w !! key with
        | Some cached => if now ports <? expires_at cached then mret (cached_devices cached)
                         else devices ← lift_r (list_user_devices ctx user);
                              _ ← on_device_cache (cache_devices key devices); mret devices
        | None => devices ← lift_r (list_user_devices ctx user);
                  _ ← on_device_cache (cache_devices key devices); mret devices
        end
  end.

Fixpoint deliver_each (ctx : Ctx) (requests : list DeliverToConversationRequest) : M unit :=
  match requests with
  | [] => mret ()
  | r :: requests =>
      if Str.is_blank (dl_conversation_id r) then deliver_each ctx requests
      else _ ← broadcast_deliver_to_conversation ctx r; deliver_each ctx requests
  end.

Definition push_message (ctx : Ctx) (push : PushMessageRequest) : M unit :=
  match pm_messages push with
  | [] => lift_r (Err (flare_err InvalidParameter "PushMessage: messages is empty"))
  | messages =>
      deliver_each ctx ((fun x => mkDeliver x.1 (pm_options push) (Some (DeliverMessages x.2)))
                          <$> group_by_key conversation_id messages)
  end.

Definition push_event (ctx : Ctx) (push : PushEventRequest) : M unit :=
  match pr_events push with
  | [] =>
      let conversation := Str.trim (pr_conversation_id push) in
      if Str.is_empty conversation || (pr_max_conversation_seq push =? 0)
      then lift_r (Err (flare_err InvalidParameter "PushEvent: events is empty and ping fields are incomplete"))
      else broadcast_deliver_to_conversation ctx
             (mkDeliver conversation (pr_options push)
                (Some (DeliverPing (pr_max_conversation_seq push) (pr_delivery_mode push) (pr_inline_events_truncated push))))
  | events =>
      deliver_each ctx
        ((fun x => mkDeliver x.1 (pr_options push)
                     (Some (DeliverEvents x.2 (pr_delivery_mode push) (pr_inline_events_truncated push))))
           <$> group_by_key pe_conversation_id events)
  end.

Definition retain_routable_targets (targets : list GatewayPushTarget) : list GatewayPushTarget :=
  filter (fun t => is_gateway_routable (tg_gateway_id t) = true) targets.

Definition route_failure_code (e : FlareError) : ErrorCode :=
  if bool_decide (err_code e = UserOffline) then UserOffline else ServiceUnavailable.

(** The loop over the gateways: whether one succeeded, and the code of the first failure. *)
Fixpoint route_each (route : string -> list GatewayPushTarget -> M unit) (l : list (string * list GatewayPushTarget))
    (succeeded : bool) (first_error : option ErrorCode) : M (bool * option ErrorCode) :=
  match l with
  | [] => mret (succeeded, first_error)
  | (gid, ts) :: l =>
      on_result (route gid ts) (fun _ => route_each route l true first_error)
        (fun e => route_each route l succeeded
                    (match first_error with Some c => Some c | None => Some (route_failure_code e) end))
  end.

(** [push_notification], [push_ack] and [push_custom] differ in the request alone. *)
Definition push_to_devices (what : string) (ctx : Ctx) (user : string) (strategy : PushStrategy)
    (request : list GatewayPushTarget -> GatewayRequest) : M unit :=
  devices ← list_user_devices_cached ctx user;
  let targets := retain_routable_targets (select_push_targets devices user strategy) in
  outcome ← route_each (fun gid ts => route_push what gid (request ts)) (partition_targets_by_gateway targets) false None;
  match outcome with
  | (false, Some code) => lift_r (Err (flare_err code ("Failed to route push " +:+ what)))
  | _ => mret ()
  end.

Definition push_notification (ctx : Ctx) (user : string) (strategy : PushStrategy) (push : PushNotificationRequest) : M unit :=
  push_to_devices "notification" ctx user strategy (fun ts => GwNotification (merge_push_notification_for_gateway push ts)).

Definition push_ack (ctx : Ctx) (user : string) (strategy : PushStrategy) (push : PushAckRequest) : M unit :=
  push_to_devices "ack" ctx user strategy (fun ts => GwAck (merge_push_ack_for_gateway push ts)).

Definition push_custom (ctx : Ctx) (user : string) (strategy : PushStrategy) (push : PushCustomRequest) : M unit :=
  push_to_devices "custom" ctx user strategy (fun ts => GwCustom (merge_push_custom_for_gateway push ts)).

Definition push_capability (ctx : Ctx) (push : PushCapabilityRequest) : M unit :=
  if capability_expired push (now ports) then mret () else log_error (broadcast_push_capability ctx push).

(** ** The consumer of online tasks *)

(** [is_retryable] of the error crate *)
Context (retryable : FlareError -> bool).

Definition route_by_payload_kind (ctx : Ctx) (t : PushTaskEnvelope Bytes) (user : string) (strategy : PushStrategy) : M unit :=
  let kind := payload_kind_of (task_payload_kind t) in
  match kind, decode_request kind (task_payload t) with
  | TaskUnspecified, _ => lift_r (Err (flare_err InvalidParameter "PushTaskPayloadKind unspecified"))
  | _, None => lift_r (Err (flare_err InvalidParameter "decode push request"))
  | _, Some (RMessage req) => push_message ctx req
  | _, Some (REvent req) => push_event ctx req
  | _, Some (RNotification req) => push_notification ctx user strategy req
  | _, Some (RAck req) => push_ack ctx user strategy req
  | _, Some (RCustom req) => push_custom ctx user strategy req
  | _, Some (RCapability req) => push_capability ctx req
  end.

(** [dlq.publish] *)
Definition publish_dead_letter (rec : BrokerRecord Bytes) (t : PushTaskEnvelope Bytes) : M unit :=
  write fault (system "dead letter publish failed")
    (fun w => mkWorkerWorld _ (gateways w) (connection_pool w) (device_cache w)
                (dead_letters w ++ [(rec_ctx rec, task_conversation_id t, rec_payload rec)])).

(** Records are dead-lettered one after the other, up to the first failure. *)
Fixpoint publish_dead_letters (entries : list BatchEntry) : M unit :=
  match entries with
  | [] => mret ()
  | e :: entries => _ ← publish_dead_letter (be_record e) (be_task e); publish_dead_letters entries
  end.

(** [apply_route_result] of one record, [apply_group_route_result] of several *)
Definition apply_route_result (entries : list BatchEntry) (outcome : result unit) : M (Consumed MessageResult) :=
  match outcome with
  | Ok _ => mret (Settled Acked)
  | Err e =>
      if retryable e then mret (Settled Nacked)
      else on_result (publish_dead_letters entries) (fun _ => mret (Settled Acked)) (fun _ => mret (Failed_ DeadLetterFailed))
  end.

(** Running a method and looking at how it ended. *)
Definition attempt {A} (m : M A) : M (result A) :=
  fun s => let '(r, s') := m s in (Ok r, s').

Definition route_entry (e : BatchEntry) : M (Consumed MessageResult) :=
  outcome ← attempt (route_by_payload_kind (rec_ctx (be_record e)) (be_task e) (task_user_id (be_task e)) AllDevices);
  apply_route_result [e] outcome.

Definition handle (rec : BrokerRecord Bytes) : M (Consumed MessageResult) :=
  match decode_task (rec_payload rec) with
  | None => mret (Failed_ Deserialization)
  | Some t => route_entry (mkBatchEntry 0 rec t)
  end.

(** The entries of a batch, if every record can be decoded. *)
Fixpoint decode_entries (index : nat) (records : list (BrokerRecord Bytes)) : option (list BatchEntry) :=
  match records with
  | [] => Some []
  | rec :: records =>
      t ← decode_task (rec_payload rec);
      rest ← decode_entries (S index) records;
      Some (mkBatchEntry index rec t :: rest)
  end.

(** The key an entry is grouped under, with its request, if it is grouped at all. *)
Definition group_of (e : BatchEntry) : option (MessageBatchKey * PushMessageRequest) :=
  let t := be_task e in
  if negb (bool_decide (payload_kind_of (task_payload_kind t) = TaskMessage)) then None
  else if Str.is_empty (task_tenant_id t) || negb (bool_decide (Str.trim (task_tenant_id t) = task_tenant_id t)) then None
  else
    request ← decode_message (task_payload t);
    let users := if Str.is_blank (task_user_id t) then filter (fun u => Str.is_blank u = false) (pm_user_ids request)
                 else [task_user_id t] in
    if bool_decide (users = []) then None
    else Some (mkBatchKey (task_tenant_id t) users (push_options_key (pm_options request)),
               mkPushMessage users (pm_messages request) (pm_options request)).

Fixpoint add_to_group (key : MessageBatchKey) (request : PushMessageRequest) (e : BatchEntry)
    (groups : list (MessageBatchKey * MessageBatchGroup)) : list (MessageBatchKey * MessageBatchGroup) :=
  match groups with
  | [] => [(key, mkGroup request [e])]
  | (k, g) :: groups =>
      if decide (k = key) then
        (k, mkGroup (mkPushMessage (pm_user_ids (group_request g)) (pm_messages (group_request g) ++ pm_messages request)
                       (pm_options (group_request g)))
              (group_entries g ++ [e])) :: groups
      else (k, g) :: add_to_group key request e groups
  end.

(** [build_message_groups], with the entries of a group in place of their indices. *)
Definition build_message_groups (entries : list BatchEntry) : list (MessageBatchKey * MessageBatchGroup) :=
  foldl (fun groups e => match group_of e with
                         | Some (key, request) => add_to_group key request e groups
                         | None => groups
                         end) [] entries.

Definition is_grouped (e : BatchEntry) : bool := bool_decide (group_of e <> None).

Definition is_ack (e : BatchEntry) : bool := bool_decide (payload_kind_of (task_payload_kind (be_task e)) = TaskAck).

Definition route_group (g : MessageBatchGroup) : M (Consumed MessageResult) :=
  match group_entries g with
  | [] => mret (Settled Nacked)
  | first :: _ =>
      outcome ← attempt (push_message (rec_ctx (be_record first)) (group_request g));
      apply_route_result (group_entries g) outcome
  end.

(** [results[index] = result] *)
Definition settle (entries : list BatchEntry) (r : MessageResult) (results : list MessageResult) : list MessageResult :=
  foldl (fun results e => <[be_index e := r]> results) results entries.

(** A stage that runs to its end before the first failure of it is looked at. *)
Fixpoint stage {X} (members : X -> list BatchEntry) (run : X -> M (Consumed MessageResult)) (l : list X)
    (results : list MessageResult) : M (Consumed (list MessageResult)) :=
  match l with
  | [] => mret (Settled results)
  | x :: l =>
      r ← run x;
      match r with
      | Settled r => stage members run l (settle (members x) r results)
      | Failed_ e => _ ← stage members run l results; mret (Failed_ e)
      end
  end.

(** One entry after the other, up to the first failure. *)
Fixpoint route_rest (l : list BatchEntry) (results : list MessageResult) : M (Consumed (list MessageResult)) :=
  match l with
  | [] => mret (Settled results)
  | e :: l =>
      r ← route_entry e;
      match r with
      | Settled r => route_rest l (settle [e] r results)
      | Failed_ err => mret (Failed_ err)
      end
  end.

Definition handle_batch (records : list (BrokerRecord Bytes)) : M (Consumed (list MessageResult)) :=
  match decode_entries 0 records with
  | None => mret (Failed_ Deserialization)
  | Some entries =>
      grouped ← stage (fun x => group_entries x.2) (fun x => route_group x.2) (build_message_groups entries)
                  (replicate (length entries) Nacked);
      match grouped with
      | Failed_ e => mret (Failed_ e)
      | Settled results =>
          acks ← stage (fun e => [e]) route_entry
                   (filter (fun e => negb (is_grouped e) && is_ack e = true) entries) results;
          match acks with
          | Failed_ e => mret (Failed_ e)
          | Settled results =>
              route_rest (filter (fun e => negb (is_grouped e) && negb (is_ack e) = true) entries) results
          end
      end
  end.

End Worker.
Arguments WorkerWorld : clear implicits.
Arguments BatchEntry : clear implicits.
Arguments MessageBatchGroup : clear implicits.
