(* ===== verification/PushWorkerFacts.v ===== *)
(** * What the push worker passes to the gateways

    Theorems about [PushWorker]: a batch keeps tenants apart, and with a network that works it
    reaches every gateway; and what becomes of notifications. *)

From S2P Require Import Prelude.
From S2P Require Import Slices.
From S2P Require Import Proto.
From S2P Require Import Tenant.
From S2P Require Import Database.
From S2P Require Import PushTypes.
From S2P Require Import PushWorker.
From stdpp Require Import base gmap sets strings list.
From Stdlib Require Import ZArith Lia.

Open Scope Z_scope.

(** ** Groups *)

Section Groups.
Context {K A : Type} `{EqDecision K}.

Lemma group_insert_elem (k k' : K) (a : A) (groups : list (K * list A)) l :
  (k', l) ∈ group_insert k a groups ->
  (k', l) ∈ groups \/ (k' = k /\ exists l0, l = l0 ++ [a] /\ (l0 = [] \/ (k, l0) ∈ groups)).
Proof.
  induction groups as [|[k0 l0] groups IH]; cbn.
  - intros Hin%list_elem_of_singleton. simplify_eq. right. split; [done|]. exists []. by split; [|left].
  - case_decide as E.
    + intros [Heq|Hin]%elem_of_cons; [|left; by right]. simplify_eq. right. split; [done|]. exists l0.
      split; [done|]. right. left.
    + intros [Heq|Hin]%elem_of_cons; [left; simplify_eq; left|].
      destruct (IH Hin) as [H|(-> & l1 & -> & [->|H])]; [left; by right|right..]; (split; [done|]).
      * exists []. by split; [|left].
      * exists l1. split; [done|]. right. by right.
Qed.

Lemma group_insert_new (k : K) (a : A) (groups : list (K * list A)) : exists l, (k, l ++ [a]) ∈ group_insert k a groups.
Proof.
  induction groups as [|[k0 l0] groups [l IH]]; cbn; [exists []; apply list_elem_of_singleton; done|].
  case_decide as E; [subst; exists l0; left|]. exists l. by right.
Qed.

Lemma group_insert_old (k k' : K) (a : A) (groups : list (K * list A)) l :
  (k', l) ∈ groups -> exists l', (k', l') ∈ group_insert k a groups /\ l ⊆ l'.
Proof.
  induction groups as [|[k0 l0] groups IH]; cbn; [by intros ?%elem_of_nil|].
  intros [Heq|Hin]%elem_of_cons.
  - simplify_eq. case_decide; [exists (l0 ++ [a]); split; [left|set_solver]|exists l0; split; [left|done]].
  - case_decide; [exists l; split; [by right|done]|]. destruct (IH Hin) as (l' & H1 & H2). exists l'. split; [by right|done].
Qed.

(** A group holds elements of the list, of its key. *)
Lemma group_by_key_elem (key : A -> K) (l : list A) k g a :
  (k, g) ∈ group_by_key key l -> a ∈ g -> a ∈ l /\ key a = k.
Proof.
  unfold group_by_key. revert k g. induction l as [|x l IH] using rev_ind; intros k g.
  { by intros ?%elem_of_nil. }
  rewrite foldl_snoc. intros Hin Ha.
  destruct (group_insert_elem _ _ _ _ _ Hin) as [Hold|(-> & l0 & -> & Hl0)].
  - destruct (IH _ _ Hold Ha). set_solver.
  - apply elem_of_app in Ha as [Ha| ->%list_elem_of_singleton]; [|set_solver].
    destruct Hl0 as [->|Hold]; [by apply elem_of_nil in Ha|]. destruct (IH _ _ Hold Ha). set_solver.
Qed.

(** Every element of the list is in the group of its key. *)
Lemma group_by_key_covers (key : A -> K) (l : list A) a :
  a ∈ l -> exists g, (key a, g) ∈ group_by_key key l /\ a ∈ g.
Proof.
  unfold group_by_key. induction l as [|x l IH] using rev_ind; [by intros ?%elem_of_nil|].
  rewrite foldl_snoc. intros [Ha| ->%list_elem_of_singleton]%elem_of_app.
  - destruct (IH Ha) as (g & Hg & Hag). destruct (group_insert_old (key x) _ x _ _ Hg) as (g' & Hg' & Hsub).
    exists g'. split; [done|by apply Hsub].
  - destruct (group_insert_new (key x) x (foldl (fun groups a => group_insert (key a) a groups) [] l)) as [g Hg].
    exists (g ++ [x]). split; [done|set_solver].
Qed.

End Groups.

(** ** The groups of a batch *)

Section Batch.
Context {Bytes : Type} `{PushCodecLaws Bytes}.

(** The messages an entry carries. *)
Definition entry_messages (e : BatchEntry Bytes) : list Message :=
  match decode_message (task_payload (be_task e)) with Some req => pm_messages req | None => [] end.

Definition entry_events (e : BatchEntry Bytes) : list PushEvent :=
  match decode_event (task_payload (be_task e)) with Some req => pr_events req | None => [] end.

Lemma group_of_some e key request :
  group_of e = Some (key, request) ->
  bk_tenant_id key = task_tenant_id (be_task e) /\ pm_messages request = entry_messages e /\
  payload_kind_of (task_payload_kind (be_task e)) = TaskMessage.
Proof.
  unfold group_of, entry_messages. case_bool_decide as Ek; [|done]. cbn [negb]. destruct (_ || _); [done|].
  destruct (decode_message _) as [req|]; [|done]. cbn. case_bool_decide; [done|]. intros [= <- <-]. done.
Qed.

(** A group: entries of the batch that belong to it, and their messages in order. *)
Definition group_ok (entries : list (BatchEntry Bytes)) (key : MessageBatchKey) (g : MessageBatchGroup Bytes) : Prop :=
  group_entries g <> [] /\
  Forall (fun e => e ∈ entries /\ exists request, group_of e = Some (key, request)) (group_entries g) /\
  pm_messages (group_request g) = mjoin (entry_messages <$> group_entries g).

Lemma add_to_group_ok entries e key request (groups : list (MessageBatchKey * MessageBatchGroup Bytes)) :
  e ∈ entries -> group_of e = Some (key, request) ->
  Forall (fun x => group_ok entries x.1 x.2) groups ->
  Forall (fun x => group_ok entries x.1 x.2) (add_to_group key request e groups).
Proof.
  intros He Hg. destruct (group_of_some _ _ _ Hg) as (_ & Hm & _).
  induction 1 as [|[k g] groups (Hne & Hall & Hmsg) Hrest IH]; cbn.
  - apply Forall_singleton. cbn. split_and!; [done| |cbn; by rewrite app_nil_r].
    apply Forall_singleton. eauto.
  - case_decide as Ek; [|by constructor]. constructor; [|exact Hrest]. subst. cbn. split_and!.
    + by destruct (group_entries g).
    + apply Forall_app; split; [done|]. apply Forall_singleton. eauto.
    + cbn in *. rewrite Hmsg, Hm, fmap_app, join_app. cbn. by rewrite app_nil_r.
Qed.

Lemma add_to_group_covers e key request (groups : list (MessageBatchKey * MessageBatchGroup Bytes)) e' :
  e' = e \/ (exists x, x ∈ groups /\ e' ∈ group_entries x.2) ->
  exists x, x ∈ add_to_group key request e groups /\ e' ∈ group_entries x.2.
Proof.
  induction groups as [|[k g] groups IH]; cbn.
  - intros [->|(x & Hx & _)]; [|by apply elem_of_nil in Hx]. eexists. split; [by apply list_elem_of_singleton|]. cbn. left.
  - intros He'. case_decide as Ek.
    + destruct He' as [->|(x & [->|Hx]%elem_of_cons & Hin)].
      * eexists. split; [left|]. cbn. set_solver.
      * eexists. split; [left|]. cbn in *. set_solver.
      * exists x. split; [by right|done].
    + destruct He' as [->|(x & [->|Hx]%elem_of_cons & Hin)].
      * destruct IH as (x & Hx & Hin); [by left|]. exists x. split; [by right|done].
      * eexists. split; [left|]. done.
      * destruct IH as (y & Hy & Hin'); [right; eauto|]. exists y. split; [by right|done].
Qed.

(** Every group is of entries of one key, with their messages; every entry that has a key is in a group. *)
Lemma build_groups_spec entries :
  Forall (fun x => group_ok entries x.1 x.2) (build_message_groups entries) /\
  forall e, e ∈ entries -> is_grouped e = true -> exists x, x ∈ build_message_groups entries /\ e ∈ group_entries x.2.
Proof.
  unfold build_message_groups.
  assert (Hgen : forall l, l ⊆ entries ->
    let groups := foldl (fun groups e => match group_of e with Some (key, request) => add_to_group key request e groups | None => groups end) [] l in
    Forall (fun x => group_ok entries x.1 x.2) groups /\
    forall e, e ∈ l -> is_grouped e = true -> exists x, x ∈ groups /\ e ∈ group_entries x.2).
  { intros l. induction l as [|e l IH] using rev_ind; intros Hsub; [split; [constructor|by intros e ?%elem_of_nil]|].
    rewrite foldl_snoc. destruct IH as [Hok Hcov]; [set_solver|].
    destruct (group_of e) as [[key request]|] eqn:Eg.
    - split; [apply add_to_group_ok; [set_solver|done|done]|].
      intros e' [He'| ->%list_elem_of_singleton]%elem_of_app Hgr; apply add_to_group_covers; [right; by apply Hcov|by left].
    - split; [done|]. intros e' [He'| ->%list_elem_of_singleton]%elem_of_app Hgr; [by apply Hcov|].
      unfold is_grouped in Hgr. apply bool_decide_eq_true in Hgr. done. }
  by apply Hgen.
Qed.

End Batch.

(** ** What reaches the gateways *)

(** Gateways that write down the calls they get. *)
Record GatewayCall := mkCall { call_uri : string; call_identity : option SignedContextClaims; call_request : GatewayRequest }.
Record Logged {H : Type} := mkLogged { calls : list GatewayCall; nodes : H }.
Arguments Logged : clear implicits.

Definition logging {H} (node : string -> option SignedContextClaims -> GatewayRequest -> H -> Rpc * H)
    (uri : string) (identity : option SignedContextClaims) (r : GatewayRequest) (g : Logged H) : Rpc * Logged H :=
  let '(answer, h) := node uri identity r (nodes g) in (answer, mkLogged _ (calls g ++ [mkCall uri identity r]) h).

(** What the gateways go through when they get calls. *)
Definition replay {H} (node : string -> option SignedContextClaims -> GatewayRequest -> H -> Rpc * H) (cs : list GatewayCall) (h : H) : H :=
  foldl (fun h c => (node (call_uri c) (call_identity c) (call_request c) h).2) h cs.

Section Calls.
Context {H Bytes : Type} `{PushCodecLaws Bytes}.
Context (node : string -> option SignedContextClaims -> GatewayRequest -> H -> Rpc * H).
Context (ports : WorkerPorts) (retryable : FlareError -> bool).

Abbreviation World := (WorkerWorld (Logged H) Bytes).
Abbreviation call := (logging node).

Section Safety.
Context (fault : schedule) (ok : GatewayCall -> Prop).

(** The calls that were added are all as they should be. *)
Definition adds_ok : relation World := fun w w' =>
  exists new, calls (gateways w') = calls (gateways w) ++ new /\ Forall ok new /\
    nodes (gateways w') = replay node new (nodes (gateways w)).

#[export] Instance adds_ok_preorder : PreOrder adds_ok.
Proof.
  split.
  - intros w. exists []. by rewrite app_nil_r.
  - intros w1 w2 w3 (k1 & E1 & H1' & N1) (k2 & E2 & H2' & N2). exists (k1 ++ k2). split_and!; [by rewrite E2, E1, app_assoc|by apply Forall_app|].
    unfold replay in *. by rewrite foldl_app, N2, N1.
Qed.

Lemma adds_none w w' : gateways w' = gateways w -> adds_ok w w'.
Proof. intros E. exists []. by rewrite E, app_nil_r. Qed.

Lemma keeps_client gid : keeps adds_ok (get_or_create_client (G := Logged H) ports fault gid).
Proof.
  unfold get_or_create_client. apply keeps_bind; [exact _|by intros n w; apply adds_none|]. intros w.
  destruct (connection_pool w !! gid).
  - apply keeps_bind; [exact _|by intros n w'; apply adds_none|]. intros _. apply keeps_ret; exact _.
  - repeat (apply keeps_bind; [exact _| |intros ?]).
    + by intros n w'; apply adds_none.
    + apply keeps_lift; exact _.
    + apply keeps_exec; [exact _|]. intros w'. cbn. by apply adds_none.
    + by intros n w'; apply adds_none.
    + apply keeps_ret; exact _.
Qed.

Lemma keeps_call uri identity r :
  ok (mkCall uri identity r) -> keeps adds_ok (gateway_call (Bytes := Bytes) call fault uri identity r).
Proof.
  intros Hok n w. unfold gateway_call, logging. destruct (node uri identity r (nodes (gateways w))) as [answer h] eqn:En.
  destruct (fault n); cbn; [|by apply adds_none|]; exists [mkCall uri identity r];
    (split_and!; [done|by apply Forall_singleton|cbn; by rewrite En]).
Qed.

Lemma keeps_checked_call reason uri identity r :
  ok (mkCall uri identity r) -> keeps adds_ok (gateway_call_checked (Bytes := Bytes) call fault reason uri identity r).
Proof.
  intros Hok. apply keeps_bind; [exact _|by apply keeps_call|]. intros [|c]; [apply keeps_ret; exact _|apply keeps_lift; exact _].
Qed.

Lemma broadcast_adds ctx reason r :
  (forall claims, push_producer_request ctx = Ok claims -> forall uri, ok (mkCall uri (Some claims) r)) ->
  keeps adds_ok (broadcast (Bytes := Bytes) call ports fault ctx reason r).
Proof.
  intros Hok n w. unfold broadcast. unfold mbind, stE_bind, lift_r. destruct (push_producer_request ctx) as [claims|e]; [|by apply adds_none].
  specialize (Hok claims eq_refl). revert n w.
  change (keeps adds_ok (match gateway_ids ports with
    | [] => uri ← get_or_create_client ports fault STATIC_FALLBACK_GATEWAY_ID; gateway_call_checked (Bytes := Bytes) call fault reason uri (Some claims) r
    | ids => for_each (broadcast_to call ports fault claims r) (routable_gateway_ids ports ids) end)).
  destruct (gateway_ids ports) as [|id ids].
  - apply keeps_bind; [exact _|apply keeps_client|]. intros uri. by apply keeps_checked_call.
  - apply keeps_for_each; [exact _|]. intros gid. apply keeps_log_error.
    apply keeps_bind; [exact _|apply keeps_client|]. intros uri. by apply keeps_call.
Qed.

Lemma keeps_route what gid r : (forall uri, ok (mkCall uri None r)) -> keeps adds_ok (route_push (Bytes := Bytes) call ports fault what gid r).
Proof.
  intros Hok. apply keeps_bind; [exact _|apply keeps_lift; exact _|]. intros _.
  apply keeps_bind; [exact _|apply keeps_client|]. intros uri. by apply keeps_checked_call.
Qed.

Lemma keeps_devices_cached ctx user : keeps adds_ok (list_user_devices_cached (G := Logged H) (Bytes := Bytes) ports ctx user).
Proof.
  unfold list_user_devices_cached. destruct (ctx_tenant_id ctx) as [tenant|]; [|apply keeps_lift; exact _].
  destruct (negb _); [apply keeps_lift; exact _|]. destruct (_ =? 0); [apply keeps_lift; exact _|].
  assert (Hload : keeps adds_ok (devices ← lift_r (list_user_devices ports ctx user);
    _ ← on_device_cache (cache_devices ports (tenant +:+ ":" +:+ user) devices); mret devices)).
  { apply keeps_bind; [exact _|apply keeps_lift; exact _|]. intros devices.
    apply keeps_bind; [exact _|by intros n w; apply adds_none|]. intros _. apply keeps_ret; exact _. }
  apply keeps_bind; [exact _|by intros n w; apply adds_none|]. intros w.
  destruct (device_cache w !! _) as [cached|]; [|done]. destruct (_ <? _); [apply keeps_ret; exact _|done].
Qed.

Lemma keeps_route_each what request l succeeded first_error :
  (forall ts uri, ok (mkCall uri None (request ts))) ->
  keeps adds_ok (route_each (fun gid ts => route_push (Bytes := Bytes) call ports fault what gid (request ts)) l succeeded first_error).
Proof.
  intros Hok. revert succeeded first_error. induction l as [|[gid ts] l IH]; intros succeeded first_error; [apply keeps_ret; exact _|].
  cbn [route_each]. apply keeps_on_result; [exact _|apply keeps_route; intros uri; apply Hok|intros; apply IH..].
Qed.

Lemma keeps_to_devices what ctx user strategy request :
  (forall ts uri, ok (mkCall uri None (request ts))) ->
  keeps adds_ok (push_to_devices (Bytes := Bytes) call ports fault what ctx user strategy request).
Proof.
  intros Hok. apply keeps_bind; [exact _|apply keeps_devices_cached|]. intros devices.
  apply keeps_bind; [exact _|by apply keeps_route_each|]. intros [[] [code|]]; try (apply keeps_ret; exact _). apply keeps_lift; exact _.
Qed.

Lemma keeps_deliver_each ctx requests :
  (forall r claims uri, r ∈ requests -> push_producer_request ctx = Ok claims -> ok (mkCall uri (Some claims) (GwDeliver r))) ->
  keeps adds_ok (deliver_each (Bytes := Bytes) call ports fault ctx requests).
Proof.
  induction requests as [|r requests IH]; intros Hok; [apply keeps_ret; exact _|]. cbn [deliver_each].
  destruct (Str.is_blank _); [apply IH; intros r' claims uri Hr; apply Hok; by right|].
  apply keeps_bind; [exact _|apply broadcast_adds; intros claims Hc uri; apply Hok; [left|done]|].
  intros _. apply IH. intros r' claims uri Hr. apply Hok. by right.
Qed.

Lemma keeps_push_message ctx push :
  (forall claims uri c ms, push_producer_request ctx = Ok claims ->
     (forall m, m ∈ ms -> m ∈ pm_messages push /\ conversation_id m = c) ->
     ok (mkCall uri (Some claims) (GwDeliver (mkDeliver c (pm_options push) (Some (DeliverMessages ms)))))) ->
  keeps adds_ok (push_message (Bytes := Bytes) call ports fault ctx push).
Proof.
  intros Hok. unfold push_message. destruct (pm_messages push) as [|m0 ms0] eqn:Em; [apply keeps_lift; exact _|].
  apply keeps_deliver_each. intros r claims uri Hr Hc. apply list_elem_of_fmap in Hr as ([c ms] & -> & Hr).
  apply Hok; [done|]. intros m Hm. cbn. by eapply group_by_key_elem.
Qed.

Lemma keeps_push_event ctx push :
  (forall claims uri c es, push_producer_request ctx = Ok claims ->
     (forall e, e ∈ es -> e ∈ pr_events push /\ pe_conversation_id e = c) ->
     ok (mkCall uri (Some claims) (GwDeliver (mkDeliver c (pr_options push)
           (Some (DeliverEvents es (pr_delivery_mode push) (pr_inline_events_truncated push))))))) ->
  (forall claims uri, push_producer_request ctx = Ok claims -> pr_events push = [] ->
     ok (mkCall uri (Some claims) (GwDeliver (mkDeliver (Str.trim (pr_conversation_id push)) (pr_options push)
           (Some (DeliverPing (pr_max_conversation_seq push) (pr_delivery_mode push) (pr_inline_events_truncated push))))))) ->
  keeps adds_ok (push_event (Bytes := Bytes) call ports fault ctx push).
Proof.
  intros Hok Hping. unfold push_event. destruct (pr_events push) as [|e0 es0] eqn:Ee.
  - cbn zeta. destruct (_ || _); [apply keeps_lift; exact _|]. apply broadcast_adds. intros claims Hc uri. by apply Hping.
  - apply keeps_deliver_each. intros r claims uri Hr Hc. apply list_elem_of_fmap in Hr as ([c es] & -> & Hr).
    apply Hok; [done|]. intros e He. cbn. by eapply group_by_key_elem.
Qed.

Lemma keeps_attempt {A} (m : db World A) : keeps adds_ok m -> keeps adds_ok (attempt m).
Proof. intros Hm n w. unfold attempt. specialize (Hm n w). by destruct (m (n, w)) as [r s]. Qed.

Lemma keeps_dead_letters (entries : list (BatchEntry Bytes)) :
  keeps adds_ok (publish_dead_letters (G := Logged H) fault entries).
Proof.
  induction entries as [|e entries IH]; [apply keeps_ret; exact _|]. cbn [publish_dead_letters].
  apply keeps_bind; [exact _| |by intros _]. apply keeps_write; [exact _|]. intros w. by apply adds_none.
Qed.

Lemma keeps_apply entries outcome : keeps adds_ok (apply_route_result (G := Logged H) (Bytes := Bytes) fault retryable entries outcome).
Proof.
  unfold apply_route_result. destruct outcome; [apply keeps_ret; exact _|]. destruct (retryable e); [apply keeps_ret; exact _|].
  apply keeps_on_result; [exact _|apply keeps_dead_letters|intros; apply keeps_ret; exact _..].
Qed.

Lemma keeps_stage {X} (members : X -> list (BatchEntry Bytes)) run l results :
  (forall x, x ∈ l -> keeps adds_ok (run x)) -> keeps adds_ok (stage (G := Logged H) members run l results).
Proof.
  revert results. induction l as [|x l IH]; intros results Hrun; [apply keeps_ret; exact _|]. cbn [stage].
  apply keeps_bind; [exact _|apply Hrun; left|]. intros [r|e].
  - apply IH. intros y Hy. apply Hrun. by right.
  - apply keeps_bind; [exact _|apply IH; intros y Hy; apply Hrun; by right|]. intros _. apply keeps_ret; exact _.
Qed.

Lemma keeps_rest l results :
  (forall e, e ∈ l -> keeps adds_ok (route_entry call ports fault retryable e)) ->
  keeps adds_ok (route_rest (Bytes := Bytes) call ports fault retryable l results).
Proof.
  revert results. induction l as [|x l IH]; intros results Hrun; [apply keeps_ret; exact _|]. cbn [route_rest].
  apply keeps_bind; [exact _|apply Hrun; left|]. intros [r|e]; [|apply keeps_ret; exact _].
  apply IH. intros y Hy. apply Hrun. by right.
Qed.

End Safety.

(** What an entry of a batch stands for: an entry of the tenant of the caller. *)
Section Tenants.
Context (fault : schedule) (entries : list (BatchEntry Bytes)).

(** The identity a call is signed with is that of the tenant of an entry that holds the content. *)
Definition from_entry (claims : SignedContextClaims) (holds : BatchEntry Bytes -> Prop) : Prop :=
  exists e, e ∈ entries /\ holds e /\ task_tenant_id (be_task e) = claims_tenant_id claims.

Definition content_from_batch (claims : SignedContextClaims) (r : GatewayRequest) : Prop :=
  match r with
  | GwDeliver d =>
      match dl_payload d with
      | Some (DeliverMessages ms) =>
          forall m, m ∈ ms -> conversation_id m = dl_conversation_id d /\ from_entry claims (fun e => m ∈ entry_messages e)
      | Some (DeliverEvents es _ _) =>
          forall ev, ev ∈ es -> pe_conversation_id ev = dl_conversation_id d /\ from_entry claims (fun e => ev ∈ entry_events e)
      | Some (DeliverPing seq _ _) =>
          from_entry claims (fun e => exists req, decode_event (task_payload (be_task e)) = Some req /\
            Str.trim (pr_conversation_id req) = dl_conversation_id d /\ pr_max_conversation_seq req = seq)
      | None => False
      end
  | GwCapability req =>
      from_entry claims (fun e => decode_request TaskCapability (task_payload (be_task e)) = Some (RCapability req))
  | _ => False
  end.

(** A call without an identity is of a notification, an acknowledgement or custom data. *)
Definition from_batch (c : GatewayCall) : Prop :=
  match call_identity c with
  | Some claims => (exists e, e ∈ entries /\ push_producer_request (rec_ctx (be_record e)) = Ok claims) /\ content_from_batch claims (call_request c)
  | None => match call_request c with GwDeliver _ | GwCapability _ => False | _ => True end
  end.

Lemma producer_tenant ctx claims : push_producer_request ctx = Ok claims -> ctx_tenant_id ctx = Some (claims_tenant_id claims).
Proof.
  unfold push_producer_request. destruct (ctx_claims ctx) as [c|]; [|done]. destruct (_ || _) eqn:E; [done|]. intros [= <-].
  apply orb_false_iff in E as [E _]. apply orb_false_iff in E as [_ E]. apply negb_false_iff, bool_decide_eq_true in E. done.
Qed.

Context (Hsame : forall e, e ∈ entries -> ctx_tenant_id (rec_ctx (be_record e)) = Some (task_tenant_id (be_task e))).

Lemma same_tenant e claims :
  e ∈ entries -> push_producer_request (rec_ctx (be_record e)) = Ok claims -> task_tenant_id (be_task e) = claims_tenant_id claims.
Proof. intros He Hc. apply producer_tenant in Hc. rewrite (Hsame e He) in Hc. by simplify_eq. Qed.

Lemma route_entry_from_batch e :
  e ∈ entries -> keeps (adds_ok from_batch) (route_entry call ports fault retryable e).
Proof.
  intros He. apply keeps_bind; [exact _|apply keeps_attempt|intros; apply keeps_apply].
  pose proof (same_tenant e) as Ht. unfold route_by_payload_kind.
  destruct (payload_kind_of (task_payload_kind (be_task e))) eqn:Ek; try (apply keeps_lift; exact _);
    (destruct (decode_request _ (task_payload (be_task e))) as [r|] eqn:Ed; [|apply keeps_lift; exact _]);
    pose proof (decode_kind _ _ _ Ed) as Hk; destruct r as [req|req|req|req|req|req]; try done.
  - apply keeps_push_message. intros claims uri c ms Hc Hms. cbn. split; [eauto|]. intros m Hm. destruct (Hms m Hm) as [Hin Hconv].
    split; [done|]. exists e. split_and!; [done| |by apply Ht]. unfold entry_messages, decode_message. by rewrite Ed.
  - apply keeps_push_event.
    + intros claims uri c es Hc Hes. cbn. split; [eauto|]. intros ev Hev. destruct (Hes ev Hev) as [Hin Hconv].
      split; [done|]. exists e. split_and!; [done| |by apply Ht]. unfold entry_events, decode_event. by rewrite Ed.
    + intros claims uri Hc Hnil. cbn. split; [eauto|]. exists e. split_and!; [done| |by apply Ht]. exists req. unfold decode_event. by rewrite Ed.
  - by apply keeps_to_devices.
  - by apply keeps_to_devices.
  - by apply keeps_to_devices.
  - unfold push_capability. destruct (capability_expired _ _); [apply keeps_ret; exact _|]. apply keeps_log_error.
    apply broadcast_adds. intros claims Hc uri. cbn. split; [eauto|]. exists e. split_and!; [done|done|by apply Ht].
Qed.

Lemma route_group_from_batch key g :
  group_ok entries key g -> keeps (adds_ok from_batch) (route_group call ports fault retryable g).
Proof.
  intros (_ & Hall & Hmsgs). unfold route_group. destruct (group_entries g) as [|first rest] eqn:Eg; [apply keeps_ret; exact _|].
  apply keeps_bind; [exact _|apply keeps_attempt|intros; apply keeps_apply].
  rewrite Forall_forall in Hall. destruct (Hall first ltac:(left)) as (Hfirst & req0 & Hg0).
  apply keeps_push_message. intros claims uri c ms Hc Hms. cbn. split; [eauto|]. intros m Hm. destruct (Hms m Hm) as [Hin Hconv].
  split; [done|]. rewrite Hmsgs in Hin. apply list_elem_of_join in Hin as (l & Hml & Hl).
  apply list_elem_of_fmap in Hl as (e & -> & He). destruct (Hall e He) as (Hein & req & Hg).
  exists e. split_and!; [done|done|]. rewrite <- (same_tenant first claims Hfirst Hc).
  destruct (group_of_some _ _ _ Hg) as (<- & _). by destruct (group_of_some _ _ _ Hg0) as (<- & _).
Qed.

End Tenants.

(** ** A network that works *)

Section Calm.

(** The clients that were in the pool at first. *)
Context (pool0 : gmap string PoolEntry).

(** Where a call to a gateway goes: where its client in the pool was connected to, or where
    service discovery finds it when the pool has no client for it (any more). *)
Definition reaches (gid uri : string) : Prop :=
  client_uri <$> pool0 !! gid = Some uri \/ resolve_gateway ports gid = Ok uri.

Definition pool_ok (w : World) : Prop := forall gid e, connection_pool w !! gid = Some e -> reaches gid (client_uri e).

Definition calm_run {A} (m : db World A) (Q : A -> list GatewayCall -> Prop) : Prop :=
  forall n w, pool_ok w -> exists a n' w' new,
    m (n, w) = (Ok a, (n', w')) /\ pool_ok w' /\ calls (gateways w') = calls (gateways w) ++ new /\ Q a new.

Lemma calm_ret {A} (a : A) (Q : A -> list GatewayCall -> Prop) : Q a [] -> calm_run (mret a) Q.
Proof. intros HQ n w Hp. exists a, n, w, []. by rewrite app_nil_r. Qed.

Lemma calm_bind {A B} (m : db World A) (f : A -> db World B) Q1 Q :
  calm_run m Q1 -> (forall a new, Q1 a new -> calm_run (f a) (fun b new' => Q b (new ++ new'))) ->
  calm_run (x ← m; f x) Q.
Proof.
  intros Hm Hf n w Hp. destruct (Hm n w Hp) as (a & n1 & w1 & new1 & E1 & Hp1 & Hc1 & HQ1).
  destruct (Hf a new1 HQ1 n1 w1 Hp1) as (b & n2 & w2 & new2 & E2 & Hp2 & Hc2 & HQ2).
  exists b, n2, w2, (new1 ++ new2). unfold mbind, stE_bind. rewrite E1, E2, Hc2, Hc1, app_assoc. done.
Qed.

Lemma calm_mono {A} (m : db World A) (Q Q' : A -> list GatewayCall -> Prop) :
  calm_run m Q -> (forall a new, Q a new -> Q' a new) -> calm_run m Q'.
Proof. intros Hm HQ n w Hp. destruct (Hm n w Hp) as (a & n1 & w1 & new1 & ? & ? & ? & ?). exists a, n1, w1, new1. eauto. Qed.

Lemma calm_attempt {A} (m : db World A) Q :
  calm_run m Q -> calm_run (attempt m) (fun r new => exists a, r = Ok a /\ Q a new).
Proof.
  intros Hm n w Hp. destruct (Hm n w Hp) as (a & n1 & w1 & new1 & E1 & ? & ? & ?).
  exists (Ok a), n1, w1, new1. unfold attempt. rewrite E1. eauto 10.
Qed.

Lemma calm_log_error {A} (m : db World A) Q : calm_run m Q -> calm_run (log_error m) (fun _ new => exists a, Q a new).
Proof.
  intros Hm n w Hp. destruct (Hm n w Hp) as (a & n1 & w1 & new1 & E1 & ? & ? & ?).
  exists (), n1, w1, new1. unfold log_error. rewrite E1. eauto 10.
Qed.

Lemma pool_ok_sub w w' : pool_ok w -> connection_pool w' ⊆ connection_pool w -> pool_ok w'.
Proof. intros Hp Hsub gid e He. apply (Hp gid). by eapply lookup_weaken. Qed.

Lemma make_room_sub pool : make_room ports pool ⊆ pool.
Proof.
  unfold make_room. case_decide; [|done]. cbn zeta. assert (Hd : drop_idle ports pool ⊆ pool) by apply map_filter_subseteq.
  case_decide; [|done]. destruct (map_to_list (drop_idle ports pool)); [done|]. etrans; [apply delete_subseteq|done].
Qed.

Lemma pool_ok_insert w gid uri :
  pool_ok w -> reaches gid uri ->
  forall t, pool_ok (mkWorkerWorld _ (gateways w) (<[gid := mkPoolEntry uri t]> (connection_pool w)) (device_cache w) (dead_letters w)).
Proof.
  intros Hp Hr t gid' e. cbn. rewrite lookup_insert. case_decide; [|apply Hp]. intros [= <-]. by subst.
Qed.

Lemma calm_client gid uri :
  resolve_gateway ports gid = Ok uri ->
  calm_run (get_or_create_client (G := Logged H) (Bytes := Bytes) ports calm gid) (fun u new => reaches gid u /\ new = []).
Proof.
  intros Hr n w Hp. unfold get_or_create_client, mbind, stE_bind, read_world, on_pool, lift_r. cbn -[resolve_gateway].
  destruct (connection_pool w !! gid) as [e|] eqn:Ee.
  - pose proof (Hp _ _ Ee) as Hu. cbn. eexists _, _, _, [].
    split; [done|]. split; [by apply pool_ok_insert|]. by rewrite app_nil_r.
  - rewrite Hr. cbn. eexists _, _, _, []. split; [done|]. split; [|rewrite app_nil_r; split; [done|split; [by right|done]]].
    apply (pool_ok_insert (mkWorkerWorld _ (gateways w) (make_room ports (connection_pool w)) (device_cache w) (dead_letters w))); [|by right].
    eapply pool_ok_sub; [exact Hp|]. apply make_room_sub.
Qed.

Lemma calm_call uri identity r :
  calm_run (gateway_call (Bytes := Bytes) call calm uri identity r) (fun _ new => new = [mkCall uri identity r]).
Proof.
  intros n w Hp. unfold gateway_call, logging. destruct (node uri identity r (nodes (gateways w))) as [answer h].
  cbn. eexists _, _, _, _. done.
Qed.

(** The gateways a broadcast goes to. *)
Definition live_gateways : list string := routable_gateway_ids ports (gateway_ids ports).

Lemma registered_resolves gid : gid ∈ gateway_ids ports -> exists uri, resolve_gateway ports gid = Ok uri.
Proof.
  unfold gateway_ids, resolve_gateway. destruct (instances ports) as [l|]; [|by intros ?%elem_of_nil]. cbn.
  intros (i & -> & Hi)%list_elem_of_fmap. destruct (list_find (fun j => instance_id j = instance_id i) l) as [[k j]|] eqn:E; [eauto|].
  exfalso. apply list_find_None in E. rewrite Forall_forall in E. by apply (E i).
Qed.

(** A call that a gateway got. *)
Definition called (gid : string) (claims : SignedContextClaims) (r : GatewayRequest) (new : list GatewayCall) : Prop :=
  exists uri, reaches gid uri /\ mkCall uri (Some claims) r ∈ new.

Lemma called_more gid claims r new new' : new ⊆ new' -> called gid claims r new -> called gid claims r new'.
Proof. intros Hsub (uri & Hr & Hin). exists uri. split; [done|by apply Hsub]. Qed.

Lemma calm_broadcast_to claims r gid :
  gid ∈ gateway_ids ports ->
  calm_run (broadcast_to (Bytes := Bytes) call ports calm claims r gid) (fun _ new => called gid claims r new).
Proof.
  intros Hg. unfold broadcast_to. destruct (registered_resolves gid Hg) as [uri Hr].
  eapply calm_mono; [apply (calm_log_error _ (fun _ new => called gid claims r new))|by intros _ new [_ ?]].
  eapply calm_bind; [by eapply calm_client|]. intros u new [Hu ->].
  eapply calm_mono; [apply calm_call|]. intros _ new ->. exists u. split; [done|left].
Qed.

Lemma calm_broadcast_each claims r ids :
  ids ⊆ gateway_ids ports ->
  calm_run (for_each (broadcast_to (Bytes := Bytes) call ports calm claims r) ids)
    (fun _ new => forall gid, gid ∈ ids -> called gid claims r new).
Proof.
  induction ids as [|gid ids IH]; intros Hids; [apply calm_ret; by intros gid ?%elem_of_nil|]. cbn [for_each].
  eapply calm_bind; [apply calm_broadcast_to; set_solver|].
  intros ? new Hc. eapply calm_mono; [apply IH; set_solver|]. intros ? new' Hn g [->|Hg]%elem_of_cons.
  - eapply called_more; [|exact Hc]. set_solver.
  - eapply called_more; [|by apply Hn]. set_solver.
Qed.

Context (Hsome : gateway_ids ports <> []).

Lemma calm_broadcast ctx claims reason r :
  push_producer_request ctx = Ok claims ->
  calm_run (broadcast (Bytes := Bytes) call ports calm ctx reason r)
    (fun _ new => forall gid, gid ∈ live_gateways -> called gid claims r new).
Proof.
  intros Hc n w Hp. unfold broadcast, mbind, stE_bind, lift_r. rewrite Hc. unfold live_gateways.
  pose proof (calm_broadcast_each claims r (routable_gateway_ids ports (gateway_ids ports))) as Hb.
  destruct (gateway_ids ports) as [|id ids] eqn:Eids; [done|].
  rewrite <- Eids in *. apply Hb; [|done]. intros gid Hg. by apply list_elem_of_filter in Hg as [_ Hg].
Qed.

(** A request that every live gateway got. *)
Definition everywhere (claims : SignedContextClaims) (d : DeliverToConversationRequest) (new : list GatewayCall) : Prop :=
  forall gid, gid ∈ live_gateways -> called gid claims (GwDeliver d) new.

Lemma calm_deliver_each ctx claims requests :
  push_producer_request ctx = Ok claims ->
  calm_run (deliver_each (Bytes := Bytes) call ports calm ctx requests)
    (fun _ new => forall d, d ∈ requests -> Str.is_blank (dl_conversation_id d) = false -> everywhere claims d new).
Proof.
  intros Hc. induction requests as [|d requests IH]; [apply calm_ret; by intros d ?%elem_of_nil|]. cbn [deliver_each].
  destruct (Str.is_blank (dl_conversation_id d)) eqn:Eb.
  - eapply calm_mono; [exact IH|]. intros ? new Hn d' [Heq|Hd']%elem_of_cons; [congruence|by apply Hn].
  - eapply calm_bind; [by apply calm_broadcast|]. intros ? new Hc0. eapply calm_mono; [exact IH|].
    intros ? new' Hn d' [Heq|Hd']%elem_of_cons Hb gid Hgid; (eapply called_more; [|first [by subst d'; apply Hc0|by apply Hn]]; set_solver).
Qed.

(** ** A batch, with a network that works *)

(** Every live gateway got a delivery for the tenant with a certain content. *)
Definition reached (tenant : string) (carries : DeliverToConversationRequest -> Prop) (new : list GatewayCall) : Prop :=
  forall gid, gid ∈ live_gateways -> exists claims d,
    called gid claims (GwDeliver d) new /\ claims_tenant_id claims = tenant /\ carries d.

Definition carries_message (m : Message) (d : DeliverToConversationRequest) : Prop :=
  dl_conversation_id d = conversation_id m /\ exists ms, dl_payload d = Some (DeliverMessages ms) /\ m ∈ ms.

Definition carries_event (ev : PushEvent) (d : DeliverToConversationRequest) : Prop :=
  dl_conversation_id d = pe_conversation_id ev /\
  exists es mode truncated, dl_payload d = Some (DeliverEvents es mode truncated) /\ ev ∈ es.

Definition carries_ping (req : PushEventRequest) (d : DeliverToConversationRequest) : Prop :=
  dl_conversation_id d = Str.trim (pr_conversation_id req) /\
  exists mode truncated, dl_payload d = Some (DeliverPing (pr_max_conversation_seq req) mode truncated).

Lemma reached_mono tenant carries new new' : new ⊆ new' -> reached tenant carries new -> reached tenant carries new'.
Proof. intros Hsub Hr gid Hg. destruct (Hr gid Hg) as (claims & d & Hin & ? & ?). exists claims, d. split_and!; [by eapply called_more|done..]. Qed.

Lemma everywhere_reached claims d new (carries : DeliverToConversationRequest -> Prop) :
  everywhere claims d new -> carries d -> reached (claims_tenant_id claims) carries new.
Proof. intros He Hd gid Hg. exists claims, d. split_and!; [by apply He|done..]. Qed.

(** The request of an entry. *)
Definition entry_request (e : BatchEntry Bytes) : option PushRequest :=
  decode_request (payload_kind_of (task_payload_kind (be_task e))) (task_payload (be_task e)).

(** An entry that can be delivered: its record was sent by the push worker for the tenant of the
    task, and it carries messages, events or a complete ping. *)
Definition deliverable (e : BatchEntry Bytes) : Prop :=
  (exists claims, push_producer_request (rec_ctx (be_record e)) = Ok claims /\ claims_tenant_id claims = task_tenant_id (be_task e)) /\
  match entry_request e with
  | Some (RMessage req) => pm_messages req <> []
  | Some (REvent req) => pr_events req <> [] \/ (Str.is_empty (Str.trim (pr_conversation_id req)) = false /\ pr_max_conversation_seq req <> 0)
  | _ => False
  end.

Definition delivered (e : BatchEntry Bytes) (new : list GatewayCall) : Prop :=
  let tenant := task_tenant_id (be_task e) in
  match entry_request e with
  | Some (RMessage req) =>
      forall m, m ∈ pm_messages req -> Str.is_blank (conversation_id m) = false -> reached tenant (carries_message m) new
  | Some (REvent req) =>
      match pr_events req with
      | [] => reached tenant (carries_ping req) new
      | es => forall ev, ev ∈ es -> Str.is_blank (pe_conversation_id ev) = false -> reached tenant (carries_event ev) new
      end
  | _ => False
  end.

Lemma delivered_more e new new' : new ⊆ new' -> delivered e new -> delivered e new'.
Proof.
  intros Hsub. unfold delivered. destruct (entry_request e) as [[req|req|?|?|?|?]|]; try done; cbn zeta.
  - intros Hd m Hm Hb. eapply reached_mono; [exact Hsub|by apply Hd].
  - destruct (pr_events req); [by apply reached_mono|]. intros Hd ev Hev Hb. eapply reached_mono; [exact Hsub|by apply Hd].
Qed.

Lemma calm_push_message ctx claims push :
  push_producer_request ctx = Ok claims -> pm_messages push <> [] ->
  calm_run (push_message (Bytes := Bytes) call ports calm ctx push)
    (fun _ new => forall m, m ∈ pm_messages push -> Str.is_blank (conversation_id m) = false ->
       reached (claims_tenant_id claims) (carries_message m) new).
Proof.
  intros Hc Hne. unfold push_message. destruct (pm_messages push) as [|m0 ms0]; [done|].
  eapply calm_mono; [by apply calm_deliver_each|]. intros ? new Hn m Hm Hb.
  destruct (group_by_key_covers conversation_id _ _ Hm) as (g & Hg & Hmg).
  eapply everywhere_reached; [apply Hn; [apply list_elem_of_fmap; exists (conversation_id m, g); done|done]|].
  split; [done|]. exists g. done.
Qed.

Lemma calm_push_event ctx claims push :
  push_producer_request ctx = Ok claims ->
  pr_events push <> [] \/ (Str.is_empty (Str.trim (pr_conversation_id push)) = false /\ pr_max_conversation_seq push <> 0) ->
  calm_run (push_event (Bytes := Bytes) call ports calm ctx push)
    (fun _ new => match pr_events push with
                  | [] => reached (claims_tenant_id claims) (carries_ping push) new
                  | es => forall ev, ev ∈ es -> Str.is_blank (pe_conversation_id ev) = false ->
                                     reached (claims_tenant_id claims) (carries_event ev) new
                  end).
Proof.
  intros Hc Hok. unfold push_event. destruct (pr_events push) as [|e0 es0].
  - destruct Hok as [|[Hconv Hseq]]; [done|]. cbn zeta. rewrite Hconv, (proj2 (Z.eqb_neq _ _) Hseq). cbn.
    eapply calm_mono; [by apply calm_broadcast|]. intros ? new Hn.
    eapply everywhere_reached; [exact Hn|]. split; [done|]. eexists _, _. done.
  - eapply calm_mono; [by apply calm_deliver_each|]. intros ? new Hn ev Hev Hb.
    destruct (group_by_key_covers pe_conversation_id _ _ Hev) as (g & Hg & Hmg).
    eapply everywhere_reached; [apply Hn; [apply list_elem_of_fmap; exists (pe_conversation_id ev, g); done|done]|].
    split; [done|]. eexists g, _, _. done.
Qed.

Lemma calm_settled entries (m : db World unit) (Q : list GatewayCall -> Prop) :
  calm_run m (fun _ new => Q new) ->
  calm_run (outcome ← attempt m; apply_route_result calm retryable entries outcome) (fun r new => r = Settled Acked /\ Q new).
Proof.
  intros Hm. eapply calm_bind; [by apply calm_attempt|]. intros r new (a & -> & HQ). apply calm_ret. by rewrite app_nil_r.
Qed.

Lemma calm_route_entry e :
  deliverable e -> calm_run (route_entry call ports calm retryable e) (fun r new => r = Settled Acked /\ delivered e new).
Proof.
  intros [(claims & Hc & Ht) Hreq]. apply calm_settled. unfold delivered, entry_request, route_by_payload_kind in *.
  destruct (payload_kind_of (task_payload_kind (be_task e))) eqn:Ek;
    (destruct (decode_request _ (task_payload (be_task e))) as [r|] eqn:Ed; [|done]);
    pose proof (decode_kind _ _ _ Ed) as Hk; destruct r as [req|req|req|req|req|req]; try done; rewrite <- Ht.
  - by apply calm_push_message.
  - by apply calm_push_event.
Qed.

Lemma calm_route_group entries key g :
  (forall e, e ∈ entries -> deliverable e) -> group_ok entries key g ->
  calm_run (route_group call ports calm retryable g)
    (fun r new => r = Settled Acked /\ forall e, e ∈ group_entries g -> delivered e new).
Proof.
  intros Hdel (Hne & Hall & Hmsgs). unfold route_group. rewrite Forall_forall in Hall.
  assert (Hmem : forall e, e ∈ group_entries g -> exists req, entry_request e = Some (RMessage req) /\
    pm_messages req = entry_messages e /\ pm_messages req <> [] /\ task_tenant_id (be_task e) = bk_tenant_id key).
  { intros e He. destruct (Hall e He) as (Hein & r & Hg). destruct (group_of_some _ _ _ Hg) as (Ht & Hm & Hk).
    destruct (Hdel e Hein) as [_ Hreq]. unfold entry_request, entry_messages, decode_message in *. rewrite Hk in *.
    destruct (decode_request TaskMessage _) as [[req|?|?|?|?|?]|] eqn:Ed; try done; try (by apply decode_kind in Ed). eauto. }
  destruct (group_entries g) as [|first rest] eqn:Eg; [done|].
  destruct (Hmem first ltac:(left)) as (req1 & _ & Hm1 & Hne1 & Ht1).
  destruct (Hdel first ltac:(apply Hall; left)) as [(claims & Hc & Ht) _].
  apply calm_settled. eapply calm_mono; [apply calm_push_message; [exact Hc|]|].
  - rewrite Hmsgs. cbn. rewrite <- Hm1. by destruct (pm_messages req1).
  - intros ? new Hn e He. destruct (Hmem e He) as (req & Hreq & Hm & _ & Hte). unfold delivered. rewrite Hreq. cbn zeta.
    intros m Hin Hb. rewrite Hte, <- Ht1, <- Ht. apply Hn; [|done]. rewrite Hmsgs. apply list_elem_of_join.
    exists (entry_messages e). split; [congruence|]. by apply list_elem_of_fmap_2.
Qed.

Lemma calm_stage {X} (members : X -> list (BatchEntry Bytes)) run l results :
  (forall x, x ∈ l -> calm_run (run x) (fun r new => r = Settled Acked /\ forall e, e ∈ members x -> delivered e new)) ->
  calm_run (stage (G := Logged H) members run l results)
    (fun r new => r = Settled (settle (l ≫= members) Acked results) /\ forall e, e ∈ l ≫= members -> delivered e new).
Proof.
  revert results. induction l as [|x l IH]; intros results Hrun.
  { apply calm_ret. split; [done|]. by intros e ?%elem_of_nil. }
  cbn [stage]. eapply calm_bind; [apply Hrun; left|]. intros r new [-> Hn].
  eapply calm_mono; [apply IH; intros y Hy; apply Hrun; by right|]. intros r new' [-> Hn']. cbn. split.
  - unfold settle. by rewrite foldl_app.
  - intros e [He|He]%elem_of_app; eapply delivered_more; [|by apply Hn| |by apply Hn']; set_solver.
Qed.

Lemma calm_rest l results :
  (forall e, e ∈ l -> deliverable e) ->
  calm_run (route_rest (Bytes := Bytes) call ports calm retryable l results)
    (fun r new => r = Settled (settle l Acked results) /\ forall e, e ∈ l -> delivered e new).
Proof.
  revert results. induction l as [|x l IH]; intros results Hrun.
  { apply calm_ret. split; [done|]. by intros e ?%elem_of_nil. }
  cbn [route_rest]. eapply calm_bind; [apply calm_route_entry, Hrun; left|]. intros r new [-> Hn].
  eapply calm_mono; [apply IH; intros y Hy; apply Hrun; by right|]. intros r new' [-> Hn']. split; [done|].
  intros e [Heq|He]%elem_of_cons; eapply delivered_more; [|rewrite Heq; exact Hn| |by apply Hn']; set_solver.
Qed.

End Calm.

Lemma pool_first (w : World) : pool_ok (connection_pool w) w.
Proof. intros gid e He. left. by rewrite He. Qed.

End Calls.


(** ** Whole batches *)

Section Batches.
Context {H Bytes : Type} `{PushCodecLaws Bytes}.
Context (node : string -> option SignedContextClaims -> GatewayRequest -> H -> Rpc * H).
Context (ports : WorkerPorts) (retryable : FlareError -> bool).

Abbreviation World := (WorkerWorld (Logged H) Bytes).

(** The entries of a batch. *)
Definition entries_of (records : list (BrokerRecord Bytes)) : list (BatchEntry Bytes) :=
  default [] (decode_entries 0 records).

Lemma decode_entries_elem i records l e :
  decode_entries i records = Some l -> e ∈ l ->
  be_record e ∈ records /\ decode_task (rec_payload (be_record e)) = Some (be_task e).
Proof.
  revert i l. induction records as [|rec records IH]; intros i l; cbn; [intros [= <-]; by intros ?%elem_of_nil|].
  destruct (decode_task (rec_payload rec)) as [t|] eqn:Et; [|done]. cbn. destruct (decode_entries _ records) as [rest|] eqn:Er; [|done].
  intros [= <-] [->|He]%elem_of_cons; [split; [left|done]|]. destruct (IH _ _ Er He). split; [by right|done].
Qed.

Lemma decode_entries_index i records l k e :
  decode_entries i records = Some l -> l !! k = Some e -> be_index e = (i + k)%nat.
Proof.
  revert i l k. induction records as [|rec records IH]; intros i l k; cbn; [intros [= <-]; done|].
  destruct (decode_task _) as [t|]; [|done]. cbn. destruct (decode_entries _ records) as [rest|] eqn:Er; [|done].
  intros [= <-]. destruct k as [|k]; cbn; [intros [= <-]; cbn; lia|]. intros Hk. rewrite (IH _ _ _ Er Hk). lia.
Qed.

(** Settling in turn acknowledges every entry that is settled. *)
Lemma settle_length (l : list (BatchEntry Bytes)) r results : length (settle l r results) = length results.
Proof. unfold settle. revert results. induction l; intros results; [done|]. cbn. by rewrite IHl, length_insert. Qed.

Lemma settle_keeps (l : list (BatchEntry Bytes)) results i :
  results !! i = Some Acked -> settle l Acked results !! i = Some Acked.
Proof.
  unfold settle. revert results. induction l as [|e l IH]; intros results Hi; [done|]. cbn. apply IH.
  destruct (decide (be_index e = i)) as [->|Hne]; [|by rewrite list_lookup_insert_ne].
  apply list_lookup_insert_eq. by eapply lookup_lt_Some.
Qed.

Lemma settle_acks (l : list (BatchEntry Bytes)) results e :
  e ∈ l -> (be_index e < length results)%nat -> settle l Acked results !! be_index e = Some Acked.
Proof.
  revert results. induction l as [|x l IH]; intros results; [by intros ?%elem_of_nil|].
  intros [->|He]%elem_of_cons Hlt; [|unfold settle; cbn; apply IH; [done|by rewrite length_insert]].
  change (settle l Acked (<[be_index x := Acked]> results) !! be_index x = Some Acked). apply settle_keeps.
  by apply list_lookup_insert_eq.
Qed.

Lemma all_acked records entries results :
  decode_entries 0 records = Some entries -> length results = length entries ->
  (forall e, e ∈ entries -> results !! be_index e = Some Acked) -> results = replicate (length entries) Acked.
Proof.
  intros He Hlen Hall. rewrite <- Hlen. symmetry. apply replicate_as_elem_of. split; [done|]. intros r Hr.
  apply list_elem_of_lookup in Hr as [i Hi].
  destruct (lookup_lt_is_Some_2 entries i) as [e Hei]; [rewrite <- Hlen; by eapply lookup_lt_Some|].
  pose proof (Hall e (list_elem_of_lookup_2 _ _ _ Hei)) as Ha. rewrite (decode_entries_index _ _ _ _ _ He Hei) in Ha.
  cbn in Ha. congruence.
Qed.

(** The three stages of a batch. *)
Definition members (x : MessageBatchKey * MessageBatchGroup Bytes) : list (BatchEntry Bytes) := group_entries x.2.
Definition ack_entries (entries : list (BatchEntry Bytes)) := filter (fun e => negb (is_grouped e) && is_ack e = true) entries.
Definition other_entries (entries : list (BatchEntry Bytes)) := filter (fun e => negb (is_grouped e) && negb (is_ack e) = true) entries.

Lemma batch_parts entries e :
  e ∈ entries -> e ∈ build_message_groups entries ≫= members \/ e ∈ (ack_entries entries ≫= fun e => [e]) \/ e ∈ other_entries entries.
Proof.
  intros Hin. destruct (is_grouped e) eqn:Eg.
  - left. apply list_elem_of_bind. destruct (build_groups_spec entries) as [_ Hcov].
    destruct (Hcov e Hin Eg) as (x & Hx & Hex). exists x. done.
  - right. destruct (is_ack e) eqn:Ea; [left; apply list_elem_of_bind; exists e; split; [left|]|right];
      apply list_elem_of_filter; by rewrite Eg, Ea.
Qed.

Lemma ack_entries_sub entries e : e ∈ ack_entries entries -> e ∈ entries.
Proof. by intros [_ He]%list_elem_of_filter. Qed.

Lemma other_entries_sub entries e : e ∈ other_entries entries -> e ∈ entries.
Proof. by intros [_ He]%list_elem_of_filter. Qed.

Lemma group_of_batch entries x : x ∈ build_message_groups entries -> group_ok entries x.1 x.2.
Proof. intros Hx. destruct (build_groups_spec entries) as [Hok _]. rewrite Forall_forall in Hok. by apply Hok. Qed.

Lemma handle_batch_from_batch fault records entries :
  decode_entries 0 records = Some entries ->
  (forall e, e ∈ entries -> ctx_tenant_id (rec_ctx (be_record e)) = Some (task_tenant_id (be_task e))) ->
  keeps (adds_ok (Bytes := Bytes) node (from_batch entries)) (handle_batch (logging node) ports fault retryable records).
Proof.
  intros He Hsame. unfold handle_batch. rewrite He.
  apply keeps_bind; [exact _|apply keeps_stage; intros x Hx; by apply (route_group_from_batch node ports retryable fault entries Hsame x.1), group_of_batch|].
  intros [results|err]; [|apply keeps_ret; exact _].
  apply keeps_bind; [exact _|apply keeps_stage; intros e Hin; apply route_entry_from_batch; [done|by apply ack_entries_sub]|].
  intros [results'|err]; [|apply keeps_ret; exact _].
  apply keeps_rest. intros e Hin. apply route_entry_from_batch; [done|by apply other_entries_sub].
Qed.

Lemma calm_handle_batch pool0 records entries :
  gateway_ids ports <> [] -> decode_entries 0 records = Some entries -> (forall e, e ∈ entries -> deliverable e) ->
  calm_run (H := H) ports pool0 (handle_batch (logging node) ports calm retryable records)
    (fun r new => r = Settled (replicate (length entries) Acked) /\ forall e, e ∈ entries -> delivered ports pool0 e new).
Proof.
  intros Hids He Hdel. unfold handle_batch. rewrite He.
  eapply calm_bind; [apply (calm_stage ports pool0 Hids members); intros x Hx; apply (calm_route_group node ports retryable pool0 Hids entries x.1 x.2 Hdel); by apply group_of_batch|].
  intros r new1 [-> H1']. fold (ack_entries entries).
  eapply calm_bind; [apply (calm_stage ports pool0 Hids (fun e => [e])); intros e Ha|].
  { eapply calm_mono; [apply calm_route_entry; [done|by apply Hdel, ack_entries_sub]|]. intros r new [-> Hd]. split; [done|].
    by intros e' ->%list_elem_of_singleton. }
  intros r new2 [-> H2']. fold (other_entries entries).
  eapply calm_mono; [apply calm_rest; [done|]; intros e Hr; by apply Hdel, other_entries_sub|].
  intros r new3 [-> H3']. split.
  - f_equal. apply (all_acked records entries); [done|by rewrite !settle_length, length_replicate|].
    intros e Hin. assert (Hlt : (be_index e < length entries)%nat).
    { apply list_elem_of_lookup in Hin as [i Hi]. rewrite (decode_entries_index _ _ _ _ _ He Hi). cbn. by eapply lookup_lt_Some. }
    destruct (batch_parts entries e Hin) as [Hg|[Ha|Hr]].
    + apply settle_keeps, settle_keeps, settle_acks; [done|by rewrite length_replicate].
    + apply settle_keeps, settle_acks; [done|by rewrite settle_length, length_replicate].
    + apply settle_acks; [done|by rewrite !settle_length, length_replicate].
  - intros e Hin. destruct (batch_parts entries e Hin) as [Hg|[Ha|Hr]]; eapply delivered_more;
      [|by apply H1'| |by apply H2'| |by apply H3']; set_solver.
Qed.

End Batches.

(** C16. Tenants stay apart in the push worker, whatever the network does. When each record of a
    batch was accepted for the tenant its task names, every call of [handle_batch] to a gateway
    is a device push of a notification, an acknowledgement or custom data, or is signed with the
    identity of a record of the batch, for the tenant of a task of it that carries what the call
    delivers: each message and
    each event goes to the conversation it names, a ping and a capability packet as they came. *)
Theorem batches_keep_tenants_apart {H Bytes} `{PushCodecLaws Bytes}
    (node : string -> option SignedContextClaims -> GatewayRequest -> H -> Rpc * H)
    ports retryable fault (records : list (BrokerRecord Bytes)) n w :
  (forall rec t, rec ∈ records -> decode_task (rec_payload rec) = Some t -> ctx_tenant_id (rec_ctx rec) = Some (task_tenant_id t)) ->
  exists new,
    calls (gateways (handle_batch (logging node) ports fault retryable records (n, w)).2.2) = calls (gateways w) ++ new /\
    Forall (from_batch (entries_of records)) new.
Proof.
  intros Hsame. unfold entries_of. destruct (decode_entries 0 records) as [entries|] eqn:He.
  - destruct (handle_batch_from_batch node ports retryable fault records entries He) with (n := n) (s := w) as (new & E & F & _); [|by exists new].
    intros e Hin. destruct (decode_entries_elem _ _ _ _ He Hin). eauto.
  - unfold handle_batch. rewrite He. exists []. by rewrite app_nil_r.
Qed.

(** C26. With a network that works, a batch reaches every gateway. When some gateway is registered and
    every record decodes to a task of messages, of events or of a complete ping, sent by the push
    worker for the tenant of the task, [handle_batch] acknowledges every record, and every message,
    event and ping of the batch that names a conversation is delivered, signed for its tenant, to
    every registered gateway with a live lease: at the address service discovery gives if the pool
    holds no client for the gateway, else at that address or the one its pooled client was connected
    to, which is not resolved again. *)
Theorem batches_reach_every_gateway {H Bytes} `{PushCodecLaws Bytes}
    (node : string -> option SignedContextClaims -> GatewayRequest -> H -> Rpc * H)
    ports retryable (records : list (BrokerRecord Bytes)) entries n w :
  gateway_ids ports <> [] ->
  decode_entries 0 records = Some entries -> (forall e, e ∈ entries -> deliverable e) ->
  exists n' w' new,
    handle_batch (logging node) ports calm retryable records (n, w) = (Ok (Settled (replicate (length entries) Acked)), (n', w')) /\
    calls (gateways w') = calls (gateways w) ++ new /\
    forall e, e ∈ entries -> delivered ports (connection_pool w) e new.
Proof.
  intros Hids He Hdel.
  destruct (calm_handle_batch node ports retryable (connection_pool w) records entries Hids He Hdel n w (pool_first ports w))
    as (r & n' & w' & new & E & _ & Hc & -> & Hd). eauto 10.
Qed.

(** The device pushes of the worker go to the devices of the user a task names: a task that names
    none, as the push server's tasks for several recipients do, reaches no gateway. When the
    online service refuses the empty user id and none was cached, a notification, an
    acknowledgement or custom data of such a task leaves the gateways as they are, and is given
    back to the broker. *)
Theorem unnamed_users_get_no_notification {H Bytes} `{PushCodecLaws Bytes}
    (node : string -> option SignedContextClaims -> GatewayRequest -> H -> Rpc * H)
    ports retryable fault (rec : BrokerRecord Bytes) t tenant r n w :
  decode_task (rec_payload rec) = Some t -> task_user_id t = "" ->
  payload_kind_of (task_payload_kind t) ∈ [TaskNotification; TaskAck; TaskCustom] ->
  decode_request (payload_kind_of (task_payload_kind t)) (task_payload t) = Some r ->
  ctx_tenant_id (rec_ctx rec) = Some tenant -> canonical_tenant tenant = true ->
  (exists e, list_devices ports (rec_ctx rec) "" = Err e) -> device_cache w !! (tenant +:+ ":") = None ->
  retryable (flare_err ServiceUnavailable "Failed to list user devices") = true ->
  handle (logging node) ports fault retryable rec (n, w) = (Ok (Settled Nacked), (n, w)).
Proof.
  intros Ht Hu Hkind Hr Htenant Hcanon [e He] Hcache Hretry.
  assert (Hdev : list_user_devices_cached (G := Logged H) (Bytes := Bytes) ports (rec_ctx rec) "" (n, w)
                 = (Err (flare_err ServiceUnavailable "Failed to list user devices"), (n, w))).
  { unfold list_user_devices_cached. rewrite Htenant, Hcanon. cbn [negb]. unfold list_user_devices. rewrite He.
    destruct (_ =? 0); [done|]. cbn zeta. change (tenant +:+ ":" +:+ "") with (tenant +:+ ":").
    unfold mbind, stE_bind, read_world. by rewrite Hcache. }
  assert (Hroute : route_by_payload_kind (logging node) ports fault (rec_ctx rec) t "" AllDevices (n, w)
                   = (Err (flare_err ServiceUnavailable "Failed to list user devices"), (n, w))).
  { unfold route_by_payload_kind. cbn zeta. pose proof (decode_kind _ _ _ Hr) as Hk.
    destruct (payload_kind_of (task_payload_kind t)); try set_solver; rewrite Hr; destruct r; try done;
      unfold push_notification, push_ack, push_custom, push_to_devices, mbind, stE_bind; by rewrite Hdev. }
  unfold handle. rewrite Ht. unfold route_entry. cbn [be_record be_task]. rewrite Hu.
  unfold mbind, stE_bind, attempt. rewrite Hroute. cbn. by rewrite Hretry.
Qed.

(** ** Samples *)

Definition worker_claims (tenant : string) : SignedContextClaims :=
  mkClaims "k1" ActService "flare-push-worker" tenant [] None "r1".

Definition worker_ctx (tenant : string) : Ctx :=
  mkCtx (Some (worker_claims tenant)) None (Some (CtxService, "flare-push-worker")) (Some tenant) None.

Definition greeting (id conversation : string) : Message :=
  mkMessage id conversation "" "alice" (Some SrcUser) 7 0 0 TypeText None "" "" "" None
    (Some (Some (Text "hello" []))) (Some Persisted) None None None ∅ ∅.

Definition task_record (tenant user : string) (r : PushRequest) : BrokerRecord Wire :=
  mkRecord _ (worker_ctx tenant)
    (encode_task (mkTask _ user "m1" "c1" tenant 5 None (encode_request r) ∅ (Some (kind_of r)))).

(** Two messages of one tenant, one of another for a conversation of the same name, and a ping. *)
Definition sample_records : list (BrokerRecord Wire) :=
  [task_record "acme" "" (RMessage (mkPushMessage ["bob"] [greeting "m1" "c1"] None));
   task_record "globex" "" (RMessage (mkPushMessage ["bob"] [greeting "m2" "c1"] None));
   task_record "acme" "" (RMessage (mkPushMessage ["bob"] [greeting "m3" "c1"] None));
   task_record "acme" "" (REvent (mkPushEventRequest [] [] None "c1" 9 (Some DeliveryPing) false))].

(** Two gateways, the lease of the second has run out. *)
Definition worker_ports : WorkerPorts :=
  mkWorkerPorts (mkRouterConfig 8 60000 None) (Some [mkInstance "gw-1" "http://gw-1"; mkInstance "gw-2" "http://gw-2"])
    None (Some (fun gid => bool_decide (gid = "gw-1"))) (fun _ _ => Err (flare_err InvalidParameter "user_id required")) 5000 0.

Definition quiet_node (uri : string) (identity : option SignedContextClaims) (r : GatewayRequest) (u : unit) : Rpc * unit :=
  (RpcOk, u).

Definition first_world : WorkerWorld (Logged unit) Wire := mkWorkerWorld _ (mkLogged _ [] ()) ∅ ∅ [].

Definition always : FlareError -> bool := fun _ => true.

Lemma batches_keep_tenants_apart_witness :
  exists new,
    calls (gateways (handle_batch (logging quiet_node) worker_ports calm always sample_records (O, first_world)).2.2) = new /\
    Forall (from_batch (entries_of sample_records)) new /\ length new = 3%nat.
Proof.
  destruct (batches_keep_tenants_apart quiet_node worker_ports always calm sample_records O first_world) as (new & E & Hnew).
  - intros rec t Hrec Ht. unfold sample_records in Hrec. set_unfold. destruct_or! Hrec; subst; cbn in Ht; simplify_eq; done.
  - exists new. split; [exact E|]. split; [exact Hnew|].
    assert (Hlen : length (calls (gateways (handle_batch (logging quiet_node) worker_ports calm always sample_records (O, first_world)).2.2)) = 3%nat)
      by (vm_compute; reflexivity). rewrite E in Hlen. exact Hlen.
Defined.

Lemma batches_reach_every_gateway_witness :
  exists entries n' w' new,
    decode_entries 0 sample_records = Some entries /\
    handle_batch (logging quiet_node) worker_ports calm always sample_records (O, first_world)
      = (Ok (Settled [Acked; Acked; Acked; Acked]), (n', w')) /\
    calls (gateways w') = new /\ forall e, e ∈ entries -> delivered worker_ports ∅ e new.
Proof.
  destruct (batches_reach_every_gateway quiet_node worker_ports always sample_records (entries_of sample_records) O first_world)
    as (n' & w' & new & E & Hc & Hd).
  - discriminate.
  - reflexivity.
  - intros e He. cbn in He. set_unfold. destruct_or! He; subst; (split; [eexists; split; reflexivity|]); cbn; first [discriminate|right; done].
  - exists (entries_of sample_records), n', w', new. split_and!; [reflexivity|exact E|exact Hc|exact Hd].
Defined.

Lemma unnamed_users_get_no_notification_witness :
  handle (logging quiet_node) worker_ports calm always
    (task_record "acme" "" (RNotification (mkPushNotification ["bob"; "carol"] None None))) (O, first_world)
    = (Ok (Settled Nacked), (O, first_world)).
Proof.
  eapply (unnamed_users_get_no_notification quiet_node worker_ports always calm _ _ "acme"); try reflexivity.
  - left.
  - eexists. reflexivity.
Defined.
