(* ===== verification/PushDelivery.v ===== *)
(** * From an event to the gateways

    The consumers of the push services run on attested records
    (crates/flare-im-service-kit/src/push_delivery.rs): the context of a record is replaced by
    one that was signed for the consuming service and verified. The keys are those of
    flare_server_core, which is not part of the repository: signing and verifying are one
    parameter. With it, the push server ([PushRouter]) and the push worker ([PushWorker]) are
    composed. *)

From S2P Require Import Prelude.
From S2P Require Import Proto.
From S2P Require Import Tenant.
From S2P Require Import Database.
From S2P Require Import PushTypes.
From S2P Require Import PushRouter.
From S2P Require Import PushWorker.
From S2P Require Import PushRouterFacts.
From S2P Require Import PushWorkerFacts.
From stdpp Require Import base gmap sets strings list.
From Stdlib Require Import ZArith Lia.

Open Scope Z_scope.

(** [SignedContextIdentity::new] *)
Record SignedContextIdentity := mkIdentity {
  sci_actor_type : SignedActorType;
  sci_actor_id : string;
  sci_tenant_id : string;
  sci_request_id : string;
}.

(** The signer and the verifier as one: the verified context of what was signed, if both work. *)
Record BrokerRecordIdentity := mkRecordIdentity {
  bri_actor_id : string;
  sign_and_verify : SignedContextIdentity -> option Ctx;
}.

(** The two keys are a pair: what was signed comes back as the claims of the context. *)
Definition one_key_pair (identity : BrokerRecordIdentity) : Prop :=
  forall who, exists ctx claims,
    sign_and_verify identity who = Some ctx /\ ctx_claims ctx = Some claims /\
    actor_type claims = sci_actor_type who /\ actor_id claims = sci_actor_id who /\
    claims_tenant_id claims = sci_tenant_id who /\ ctx_tenant_id ctx = Some (sci_tenant_id who).

Section Attest.
Context (identity : BrokerRecordIdentity).
(** The request id of a context, and a new one. *)
Context (request_id_of : Ctx -> string) (new_id : string).

Definition attest (tenant request : string) : result Ctx :=
  if negb (canonical_tenant tenant)
  then Err (flare_err PermissionDenied "broker record tenant missing or not canonical")
  else
    let request := if Str.is_blank request then new_id else request in
    match sign_and_verify identity (mkIdentity ActService (bri_actor_id identity) tenant request) with
    | Some ctx => Ok ctx
    | None => Err (flare_err ServiceUnavailable "broker record attestation did not verify")
    end.

Definition attest_record (record : Ctx) : result Ctx :=
  attest (default "" (ctx_tenant_id record)) (request_id_of record).

Definition attest_message {Bytes} (rec : BrokerRecord Bytes) : option (BrokerRecord Bytes) :=
  match attest_record (rec_ctx rec) with
  | Ok ctx => Some (mkRecord _ ctx (rec_payload rec))
  | Err _ => None
  end.

Section Handler.
Context {W Bytes : Type}.

(** [AttestedRecordHandler::handle] *)
Definition attested_handle (inner : BrokerRecord Bytes -> db W (Consumed MessageResult)) (rec : BrokerRecord Bytes)
    : db W (Consumed MessageResult) :=
  match attest_message rec with
  | Some rec => inner rec
  | None => mret (Settled DeadLettered)
  end.

(** The records that are attested, with their positions. *)
Fixpoint attest_all (position : nat) (records : list (BrokerRecord Bytes)) : list (nat * BrokerRecord Bytes) :=
  match records with
  | [] => []
  | rec :: records =>
      match attest_message rec with
      | Some rec => (position, rec) :: attest_all (S position) records
      | None => attest_all (S position) records
      end
  end.

(** [results[position] = result] *)
Definition put_results (positions : list nat) (inner : list MessageResult) (results : list MessageResult) : list MessageResult :=
  foldl (fun results x => <[x.1 := x.2]> results) results (zip positions inner).

Definition attested_handle_batch (inner : list (BrokerRecord Bytes) -> db W (Consumed (list MessageResult)))
    (records : list (BrokerRecord Bytes)) : db W (Consumed (list MessageResult)) :=
  let results := replicate (length records) DeadLettered in
  match attest_all 0 records with
  | [] => mret (Settled results)
  | attested =>
      r ← inner attested.*2;
      match r with
      | Failed_ e => mret (Failed_ e)
      | Settled l =>
          if bool_decide (length l <> length attested) then mret (Failed_ HandlerFailed)
          else mret (Settled (put_results attested.*1 l results))
      end
  end.

End Handler.
End Attest.

(** ** Records of a tenant *)

Section Records.
Context (identity : BrokerRecordIdentity) (request_id_of : Ctx -> string) (new_id : string).
Context (Hkeys : one_key_pair identity) (Hactor : bri_actor_id identity = "flare-push-worker").
Context {W Bytes : Type}.

Lemma attest_message_ok (rec : BrokerRecord Bytes) tenant :
  ctx_tenant_id (rec_ctx rec) = Some tenant -> canonical_tenant tenant = true ->
  exists rec' claims, attest_message identity request_id_of new_id rec = Some rec' /\ rec_payload rec' = rec_payload rec /\
    push_producer_request (rec_ctx rec') = Ok claims /\ claims_tenant_id claims = tenant.
Proof.
  intros Ht Hc. unfold attest_message, attest_record, attest. rewrite Ht. cbn [default from_option id]. rewrite Hc. cbn [negb].
  match goal with |- context [sign_and_verify identity ?who] =>
    destruct (Hkeys who) as (ctx & claims & -> & Hcl & Hty & Hid & Htn & Hct) end.
  cbn in *. eexists _, claims. split; [done|]. split; [done|]. split; [|done]. cbn.
  unfold push_producer_request. rewrite Hcl, Hty, Hid, Htn, Hct, Hactor, Hc.
  rewrite !bool_decide_eq_true_2 by done. done.
Qed.

(** When every record is attested, none is moved or dropped. *)
Lemma attest_all_ok (records : list (BrokerRecord Bytes)) position tenant :
  Forall (fun rec => ctx_tenant_id (rec_ctx rec) = Some tenant) records -> canonical_tenant tenant = true ->
  exists attested, attest_all identity request_id_of new_id position records = zip (seq position (length records)) attested /\
    Forall2 (fun rec rec' => rec_payload rec' = rec_payload rec /\
               exists claims, push_producer_request (rec_ctx rec') = Ok claims /\ claims_tenant_id claims = tenant) records attested.
Proof.
  intros Hall Hc. revert position. induction Hall as [|rec records Ht Hall IH]; intros position; [by exists []|].
  destruct (attest_message_ok rec tenant Ht Hc) as (rec' & claims & E & Hp & Hcl & Htn). destruct (IH (S position)) as (attested & E' & H2).
  exists (rec' :: attested). cbn. rewrite E, E'. split; [done|]. constructor; eauto.
Qed.

Lemma put_results_from (l pre rest : list MessageResult) :
  length rest = length l -> put_results (seq (length pre) (length l)) l (pre ++ rest) = pre ++ l.
Proof.
  unfold put_results. revert pre rest. induction l as [|r l IH]; intros pre rest Hlen; [by destruct rest|].
  destruct rest as [|r0 rest]; [done|]. cbn. rewrite insert_app_r_alt, Nat.sub_diag by lia. cbn.
  rewrite (cons_middle r pre rest), (cons_middle r pre l), (app_assoc pre [r] rest), (app_assoc pre [r] l).
  rewrite <- (IH (pre ++ [r]) rest) by (cbn in Hlen; lia). by rewrite length_app, Nat.add_comm.
Qed.

Lemma attested_batch (inner : list (BrokerRecord Bytes) -> db W (Consumed (list MessageResult))) records attested positions l s s' :
  records <> [] -> attest_all identity request_id_of new_id 0 records = zip positions attested ->
  positions = seq 0 (length records) -> length attested = length records ->
  inner attested s = (Ok (Settled l), s') -> length l = length records ->
  attested_handle_batch identity request_id_of new_id inner records s = (Ok (Settled l), s').
Proof.
  intros Hne Ha -> Hlen Hin Hl. unfold attested_handle_batch. rewrite Ha.
  assert (Hz : length (zip (seq 0 (length records)) attested) = length records) by (rewrite length_zip_with, length_seq; lia).
  assert (H1 : (zip (seq 0 (length records)) attested).*1 = seq 0 (length l)) by (rewrite Hl; apply fst_zip; rewrite length_seq; lia).
  assert (H2 : (zip (seq 0 (length records)) attested).*2 = attested) by (apply snd_zip; rewrite length_seq; lia).
  destruct (zip (seq 0 (length records)) attested) as [|x rest] eqn:Ez; [by destruct records|]. rewrite <- Ez in *.
  unfold mbind, stE_bind. rewrite H2, Hin, H1. rewrite bool_decide_eq_false_2 by (rewrite Hz; auto).
  pose proof (put_results_from l [] (replicate (length records) DeadLettered)) as Hput. cbn in Hput.
  rewrite Hput by (by rewrite length_replicate). done.
Qed.

End Records.

(** ** An event, from the push server to the gateways *)

Section EndToEnd.
Context {H Bytes : Type} `{PushCodecLaws Bytes}.

Lemma decode_entries_total i (records : list (BrokerRecord Bytes)) :
  Forall (fun rec => is_Some (decode_task (rec_payload rec))) records ->
  exists entries, decode_entries i records = Some entries /\ length entries = length records /\
    (forall rec, rec ∈ records -> exists e, e ∈ entries /\ be_record e = rec).
Proof.
  intros Hall. revert i. induction Hall as [|rec records [t Ht] Hall IH]; intros i.
  { exists []. split; [done|]. split; [done|]. by intros rec ?%elem_of_nil. }
  destruct (IH (S i)) as (entries & E & Hlen & Hcov). cbn. rewrite Ht. cbn. rewrite E. cbn. eexists. split; [done|].
  split; [by rewrite <- Hlen|]. intros rec' [->|Hin]%elem_of_cons; [eexists; split; [left|done]|].
  destruct (Hcov rec' Hin) as (e & He & Hr). exists e. split; [by right|done].
Qed.

(** The record of a task that the broker hands to the worker: the bytes that were published, and
    the tenant of the context they were published with. *)
Definition record_of (ctx : Ctx) (p : PendingPushTask Bytes) (rec : BrokerRecord Bytes) : Prop :=
  rec_payload rec = pt_payload p /\ ctx_tenant_id (rec_ctx rec) = ctx_tenant_id ctx.

(** A request with something to deliver. *)
Definition event_complete (req : PushEventRequest) : Prop :=
  pr_events req <> [] \/ (Str.is_empty (Str.trim (pr_conversation_id req)) = false /\ pr_max_conversation_seq req <> 0).

(** What every gateway gets of an event request. *)
Definition event_everywhere ports pool0 tenant (req : PushEventRequest) (new : list GatewayCall) : Prop :=
  match pr_events req with
  | [] => PushWorkerFacts.reached ports pool0 tenant (carries_ping req) new
  | es => forall ev, ev ∈ es -> Str.is_blank (pe_conversation_id ev) = false ->
                     PushWorkerFacts.reached ports pool0 tenant (carries_event ev) new
  end.

Lemma event_entry (e : BatchEntry Bytes) tenant (p : PendingPushTask Bytes) t users req claims :
  task_request p = Some (t, with_recipients users (REvent req)) -> task_tenant_id t = tenant ->
  decode_task (rec_payload (be_record e)) = Some (be_task e) -> rec_payload (be_record e) = pt_payload p ->
  push_producer_request (rec_ctx (be_record e)) = Ok claims -> claims_tenant_id claims = tenant -> event_complete req ->
  deliverable e /\ forall ports pool0 new, delivered ports pool0 e new -> event_everywhere ports pool0 tenant req new.
Proof.
  intros Hreq Ht Hd Hp Hc Htn Hok. unfold task_request in Hreq. rewrite <- Hp, Hd in Hreq. cbn in Hreq.
  destruct (decode_request _ _) as [r|] eqn:Er; [|done]. cbn in Hreq. injection Hreq as Het ->.
  assert (Hentry : entry_request e = Some (with_recipients users (REvent req))) by (unfold entry_request; by rewrite Er).
  split.
  - split; [exists claims; split; [done|]; congruence|]. by rewrite Hentry.
  - intros ports pool0 new. unfold delivered, event_everywhere. rewrite Hentry, Het, Ht. cbn. done.
Qed.

Lemma request_tenant_some ctx tenant :
  request_tenant_id ctx = Ok tenant -> ctx_tenant_id ctx = Some tenant /\ canonical_tenant tenant = true.
Proof.
  unfold request_tenant_id. destruct (ctx_tenant_id ctx) as [t|]; [|done].
  destruct (canonical_tenant t) eqn:Ec; [|done]. by intros [= ->].
Qed.

(** The attested record of a task. *)
Definition attested_of (tenant : string) (p : PendingPushTask Bytes) (rec : BrokerRecord Bytes) : Prop :=
  rec_payload rec = pt_payload p /\ exists claims, push_producer_request (rec_ctx rec) = Ok claims /\ claims_tenant_id claims = tenant.

Definition event_task (tenant : string) (req : PushEventRequest) (p : PendingPushTask Bytes) : Prop :=
  exists t users, task_request p = Some (t, with_recipients users (REvent req)) /\ task_tenant_id t = tenant.

(** Attested records of event tasks are deliverable, and delivering one delivers the event. *)
Lemma event_entries tenant req tasks (attested : list (BrokerRecord Bytes)) entries :
  Forall (event_task tenant req) tasks -> Forall2 (attested_of tenant) tasks attested ->
  decode_entries 0 attested = Some entries -> event_complete req ->
  forall e, e ∈ entries -> deliverable e /\ forall ports pool0 new, delivered ports pool0 e new -> event_everywhere ports pool0 tenant req new.
Proof.
  intros Htasks Hall He Hok e Hin. destruct (decode_entries_elem _ _ _ _ He Hin) as [Hrec Hd].
  apply list_elem_of_lookup in Hrec as [i Hi]. destruct (Forall2_lookup_r _ _ _ _ _ Hall Hi) as (p & Hp & Hpay & claims & Hc & Ht).
  destruct (Forall_lookup_1 _ _ _ _ Htasks Hp) as (t & users & Hreq & Htt). by eapply event_entry.
Qed.

Lemma event_tasks_decode tenant req tasks (attested : list (BrokerRecord Bytes)) :
  Forall (event_task tenant req) tasks -> Forall2 (attested_of tenant) tasks attested ->
  Forall (fun rec => is_Some (decode_task (rec_payload rec))) attested.
Proof.
  intros Htasks Hall. apply Forall_lookup. intros i rec Hi.
  destruct (Forall2_lookup_r _ _ _ _ _ Hall Hi) as (p & Hp & -> & _).
  destruct (Forall_lookup_1 _ _ _ _ Htasks Hp) as (t & users & Hreq & _). unfold task_request in Hreq.
  destruct (decode_task (pt_payload p)); [eauto|done].
Qed.

(** A call of the push worker for a tenant, whose events all name the conversation it is for. *)
Definition worker_call (tenant : string) (c : GatewayCall) : Prop :=
  match call_identity c with
  | Some claims => actor_type claims = ActService /\ actor_id claims = "flare-push-worker" /\ claims_tenant_id claims = tenant
  | None => True
  end /\
  match call_request c with
  | GwDeliver d => match dl_payload d with
                   | Some (DeliverEvents es _ _) => forall ev, ev ∈ es -> pe_conversation_id ev = dl_conversation_id d
                   | _ => True
                   end
  | _ => True
  end.

Lemma producer_is_worker ctx claims :
  push_producer_request ctx = Ok claims -> actor_type claims = ActService /\ actor_id claims = "flare-push-worker".
Proof.
  unfold push_producer_request. destruct (ctx_claims ctx) as [c|]; [|done]. destruct (_ || _) eqn:E; [done|]. intros [= <-].
  do 2 apply orb_false_iff in E as [E _]. apply orb_false_iff in E as [E1 E2].
  split; [apply negb_false_iff, bool_decide_eq_true in E1|apply negb_false_iff, bool_decide_eq_true in E2]; done.
Qed.

Lemma batch_worker_calls tenant req tasks (attested : list (BrokerRecord Bytes)) entries new :
  Forall (event_task tenant req) tasks -> Forall2 (attested_of tenant) tasks attested -> decode_entries 0 attested = Some entries ->
  (forall e, e ∈ entries -> ctx_tenant_id (rec_ctx (be_record e)) = Some (task_tenant_id (be_task e)) /\
             exists claims, push_producer_request (rec_ctx (be_record e)) = Ok claims /\ claims_tenant_id claims = tenant) /\
  (Forall (from_batch entries) new -> Forall (worker_call tenant) new).
Proof.
  intros Htasks Hall He.
  assert (Hent : forall e, e ∈ entries -> ctx_tenant_id (rec_ctx (be_record e)) = Some (task_tenant_id (be_task e)) /\
     exists claims, push_producer_request (rec_ctx (be_record e)) = Ok claims /\ claims_tenant_id claims = tenant).
  { intros e Hin. destruct (decode_entries_elem _ _ _ _ He Hin) as [Hrec Hd].
    apply list_elem_of_lookup in Hrec as [i Hi]. destruct (Forall2_lookup_r _ _ _ _ _ Hall Hi) as (p & Hp & Hpay & claims & Hc & Ht).
    destruct (Forall_lookup_1 _ _ _ _ Htasks Hp) as (t & users & Hreq & Htt). unfold task_request in Hreq. rewrite <- Hpay, Hd in Hreq.
    cbn in Hreq. destruct (decode_request _ _); [|done]. cbn in Hreq. injection Hreq as -> _.
    split; [|by exists claims]. apply producer_tenant in Hc. congruence. }
  split; [exact Hent|]. intros Hf. eapply Forall_impl; [exact Hf|]. intros [uri [claims|] r] Hc; unfold from_batch, worker_call in *; cbn in *.
  - destruct Hc as [(e & Hin & Hp) Hcont]. destruct (Hent e Hin) as (_ & claims' & Hp' & Ht). rewrite Hp in Hp'. injection Hp' as <-.
    destruct (producer_is_worker _ _ Hp). split; [done|]. destruct r as [d| | | |]; try done.
    unfold content_from_batch in Hcont. destruct (dl_payload d) as [[| |]|]; try done. intros ev Hev. by apply Hcont.
  - by destruct r.
Qed.

(** The worker on the records of event tasks. *)
Lemma worker_takes_event_tasks ctx tenant req tasks records identity request_id_of new_id
    (node : string -> option SignedContextClaims -> GatewayRequest -> H -> Rpc * H) ports retryable m w :
  ctx_tenant_id ctx = Some tenant -> canonical_tenant tenant = true ->
  tasks <> [] -> Forall (event_task tenant req) tasks -> Forall2 (record_of ctx) tasks records -> event_complete req ->
  one_key_pair identity -> bri_actor_id identity = "flare-push-worker" -> gateway_ids ports <> [] ->
  exists m' w' new,
    attested_handle_batch identity request_id_of new_id (handle_batch (logging node) ports calm retryable) records (m, w)
      = (Ok (Settled (replicate (length records) Acked)), (m', w')) /\
    calls (gateways w') = calls (gateways w) ++ new /\ event_everywhere ports (connection_pool w) tenant req new /\
    Forall (worker_call tenant) new /\ nodes (gateways w') = replay node new (nodes (gateways w)).
Proof.
  intros Hct Hcanon Hne Htasks Hrec Hok Hkeys Hactor Hids.
  assert (Hten : Forall (fun rec => ctx_tenant_id (rec_ctx rec) = Some tenant) records).
  { apply Forall_lookup. intros i rec Hi. destruct (Forall2_lookup_r _ _ _ _ _ Hrec Hi) as (p & _ & _ & Ht). congruence. }
  destruct (attest_all_ok identity request_id_of new_id Hkeys Hactor records 0 tenant Hten Hcanon) as (attested & Ha & Hatt).
  assert (Hall : Forall2 (attested_of tenant) tasks attested).
  { eapply Forall2_trans; [|exact Hrec|exact Hatt]. intros p rec rec' [Hp1 _] [Hp2 Hcl]. split; [congruence|done]. }
  pose proof (Forall2_length _ _ _ Hrec) as Hlen1. pose proof (Forall2_length _ _ _ Hatt) as Hlen2.
  destruct (decode_entries_total 0 attested) as (entries & He & Hlen & Hcov); [by eapply event_tasks_decode|].
  pose proof (event_entries tenant req tasks attested entries Htasks Hall He Hok) as Hent.
  destruct (calm_handle_batch node ports retryable (connection_pool w) attested entries Hids He (fun e Hin => proj1 (Hent e Hin)) m w (pool_first ports w))
    as (r & m' & w' & new & E & _ & Hc & -> & Hd).
  destruct (batch_worker_calls tenant req tasks attested entries new Htasks Hall He) as [Hsame Hcalls].
  destruct (handle_batch_from_batch node ports retryable calm attested entries He (fun e Hin => proj1 (Hsame e Hin)) m w)
    as (new' & Hc' & Hfrom & Hnodes).
  rewrite E in Hc', Hnodes. cbn in Hc', Hnodes. rewrite Hc in Hc'. apply app_inv_head in Hc'. subst new'.
  exists m', w', new. split; [|split; [exact Hc|split; [|by split; [apply Hcalls|]]]].
  - replace (length records) with (length entries) by lia. eapply attested_batch; [|exact Ha|done|done|exact E|rewrite length_replicate; lia].
    intros ->. by destruct tasks.
  - destruct attested as [|rec attested]; [destruct tasks; [done|by inversion Hall]|].
    destruct (Hcov rec ltac:(left)) as (e & Hin & _). by apply (Hent e Hin), Hd.
Qed.

End EndToEnd.

(** A request the push server hands on: it names recipients whose presence the online service
    tells, or it names nobody and its events name a conversation, to whose members it then goes. *)
Definition addressed (rports : RouterPorts) (ctx : Ctx) (req : PushEventRequest) : Prop :=
  (pr_user_ids req <> [] /\ exists statuses, online_statuses rports ctx (pr_user_ids req) = Ok statuses) \/
  (pr_user_ids req = [] /\ pr_events req <> [] /\ Str.is_blank (event_conversation_id req) = false).

(** With a broker that works, it publishes online tasks with the event, and offline ones. *)
Lemma event_tasks_published `{PushCodecLaws Bytes} (rports : RouterPorts) fresh now ctx tenant (req : PushEventRequest) n (rw : World Bytes) :
  request_tenant_id ctx = Ok tenant -> addressed rports ctx req ->
  exists n' online offline,
    handle_event rports calm fresh now ctx req (n, rw)
      = (Ok (), (n', mkWorld (published rw ++ (mkPublished ctx <$> online ++ offline)) (coalescer rw) (timers rw))) /\
    online <> [] /\ Forall (fun p => pt_online p = true) online /\ Forall (fun p => pt_online p = false) offline /\
    Forall (event_task tenant req) online.
Proof.
  intros Htenant [[Husers [statuses Hst]]|(Hnobody & Hevents & Hnamed)].
  - destruct (handle_event_publishes rports fresh now ctx tenant req statuses n rw Htenant Husers Hst)
      as (n' & online & offline & E & Hon & Hsizes & _ & Hoff & Htasks).
    exists n', online, offline. apply Forall_app in Htasks as [Htasks _]. split_and!; [exact E| | |exact Hoff|].
    + intros Hnil. rewrite Hnil in Hon. by apply Husers.
    + eapply Forall_impl; [exact Hsizes|]. by intros p [? _].
    + eapply Forall_impl; [exact Htasks|]. intros p (t & Hreq & Ht & _). by exists t, (PushRouterFacts.reached p).
  - destruct (handle_event_broadcasts rports fresh now ctx tenant req n rw Htenant Hnobody Hevents Hnamed)
      as (n' & p & t & offline & E & Hon & Hoff & Hreq & Ht).
    exists n', [p], offline. split_and!; [exact E|done|by constructor|exact Hoff|]. constructor; [|done].
    exists t, []. split; [|done]. rewrite Hreq. destruct req; cbn in *. by rewrite Hnobody.
Qed.

(** An event reaches every gateway. With a broker and a network that work, [handle_event] of the
    push server, for recipients or for the members of a conversation, publishes online tasks such that, when the broker hands these to the push worker
    in one batch, whose records carry the tenant they were published with, the worker attests
    and acknowledges all of them, and every event of the request that names a conversation (or
    its ping, if it has no events) is delivered, signed by the worker for the tenant of the
    caller, to every registered gateway with a live lease. *)
Theorem events_travel_to_every_gateway {H Bytes} `{PushCodecLaws Bytes}
    (rports : RouterPorts) fresh now ctx tenant (req : PushEventRequest) n (rw : World Bytes)
    (identity : BrokerRecordIdentity) request_id_of new_id
    (node : string -> option SignedContextClaims -> GatewayRequest -> H -> Rpc * H) ports retryable m (w : WorkerWorld (Logged H) Bytes) :
  request_tenant_id ctx = Ok tenant -> addressed rports ctx req -> event_complete req ->
  one_key_pair identity -> bri_actor_id identity = "flare-push-worker" ->
  gateway_ids ports <> [] ->
  exists n' online offline,
    handle_event rports calm fresh now ctx req (n, rw)
      = (Ok (), (n', mkWorld (published rw ++ (mkPublished ctx <$> online ++ offline)) (coalescer rw) (timers rw))) /\
    Forall (fun p => pt_online p = true) online /\ Forall (fun p => pt_online p = false) offline /\
    forall records, Forall2 (record_of ctx) online records ->
    exists m' w' new,
      attested_handle_batch identity request_id_of new_id (handle_batch (logging node) ports calm retryable) records (m, w)
        = (Ok (Settled (replicate (length records) Acked)), (m', w')) /\
      calls (gateways w') = calls (gateways w) ++ new /\ event_everywhere ports (connection_pool w) tenant req new.
Proof.
  intros Htenant Hto Hok Hkeys Hactor Hids.
  destruct (event_tasks_published rports fresh now ctx tenant req n rw Htenant Hto) as (n' & online & offline & E & Hne & Hon & Hoff & Htasks).
  exists n', online, offline. split; [exact E|]. split; [exact Hon|]. split; [exact Hoff|]. intros records Hrec.
  destruct (request_tenant_some ctx tenant Htenant) as [Hct Hcanon].
  destruct (worker_takes_event_tasks ctx tenant req online records identity request_id_of new_id node ports retryable m w)
    as (m' & w' & new & Em & Hc & Hev & _); [done..|]. by exists m', w', new.
Qed.

Definition sample_identity : BrokerRecordIdentity :=
  mkRecordIdentity "flare-push-worker"
    (fun who => Some (mkCtx (Some (mkClaims "k1" (sci_actor_type who) (sci_actor_id who) (sci_tenant_id who) [] None (sci_request_id who)))
                        None None (Some (sci_tenant_id who)) None)).

Lemma events_travel_to_every_gateway_witness :
  exists n' online offline,
    handle_event sample_ports calm "f" 0 sample_ctx hello_event (O, empty_world)
      = (Ok (), (n', mkWorld (mkPublished sample_ctx <$> online ++ offline) (coalescer empty_world) (timers empty_world))) /\
    forall records, Forall2 (record_of sample_ctx) online records ->
    exists m' w' new,
      attested_handle_batch sample_identity (fun _ => "") "id" (handle_batch (logging quiet_node) worker_ports calm always) records (O, first_world)
        = (Ok (Settled (replicate (length records) Acked)), (m', w')) /\
      calls (gateways w') = new /\ event_everywhere worker_ports ∅ "acme" hello_event new.
Proof.
  destruct (events_travel_to_every_gateway sample_ports "f" 0 sample_ctx "acme" hello_event O empty_world
    sample_identity (fun _ => "") "id" quiet_node worker_ports always O first_world) as (n' & online & offline & E & _ & _ & Hrec).
  - reflexivity.
  - left. split; [discriminate|]. eexists. reflexivity.
  - left. discriminate.
  - intros who. eexists _, _. split_and!; reflexivity.
  - reflexivity.
  - discriminate.
  - exists n', online, offline. split; [exact E|exact Hrec].
Defined.
