(* ===== verification/GatewaySubscriptions.v ===== *)
(** * Subscriptions of a gateway

    flare-signaling/gateway/src/domain/service/conversation_subscription.rs: which connections
    of this node listen to which conversation, kept as two indices under one lock. Every
    operation runs as one step. The two indices are shown to implement one set of pairs. *)

From S2P Require Import Prelude.
From S2P Require Import Proto.
From S2P Require Import PushTypes.
From stdpp Require Import base gmap sets strings list.

(** Tenant and conversation. *)
Abbreviation ConversationKey := (string * string)%type.

Record SubscriptionState := mkSubscriptions {
  by_conversation : gmap ConversationKey (gset string);
  by_connection : gmap string (gset ConversationKey);
}.

Definition new_registry : SubscriptionState := mkSubscriptions ∅ ∅.

(** [entry(k).or_default().insert(v)] *)
Definition set_add {K V} `{Countable K, Countable V} (k : K) (v : V) (m : gmap K (gset V)) : gmap K (gset V) :=
  <[k := {[v]} ∪ default ∅ (m !! k)]> m.

(** [if let Some(set) = m.get_mut(k) { set.remove(v); if set.is_empty() { m.remove(k) } }] *)
Definition set_drop {K V} `{Countable K, Countable V} (k : K) (v : V) (m : gmap K (gset V)) : gmap K (gset V) :=
  match m !! k with
  | Some s => let s := s ∖ {[v]} in if decide (s = ∅) then delete k m else <[k := s]> m
  | None => m
  end.

Definition join (tenant conversation connection : string) (r : SubscriptionState) : SubscriptionState :=
  if negb (canonical_tenant tenant) || Str.is_empty conversation || Str.is_empty connection then r
  else
    let key := (tenant, conversation) in
    mkSubscriptions (set_add key connection (by_conversation r)) (set_add connection key (by_connection r)).

Definition leave (tenant conversation connection : string) (r : SubscriptionState) : SubscriptionState :=
  if negb (canonical_tenant tenant) then r
  else
    let key := (tenant, conversation) in
    mkSubscriptions (set_drop key connection (by_conversation r)) (set_drop connection key (by_connection r)).

Definition remove_connection (connection : string) (r : SubscriptionState) : SubscriptionState :=
  let conversations := default ∅ (by_connection r !! connection) in
  let by_connection := delete connection (by_connection r) in
  if decide (conversations = ∅) then mkSubscriptions (by_conversation r) by_connection
  else mkSubscriptions (foldr (fun key => set_drop key connection) (by_conversation r) (elements conversations)) by_connection.

Definition local_subscribers (tenant conversation : string) (r : SubscriptionState) : list string :=
  if negb (canonical_tenant tenant) then []
  else elements (default ∅ (by_conversation r !! (tenant, conversation))).

Definition local_subscriber_count (tenant conversation : string) (r : SubscriptionState) : nat :=
  if negb (canonical_tenant tenant) then 0
  else match by_conversation r !! (tenant, conversation) with Some s => size s | None => 0 end.

(** ** Sets kept in a map *)

Section SetMaps.
Context `{Countable K, Countable V}.
Implicit Types (m : gmap K (gset V)) (k : K) (v : V).

Definition holds m k v : Prop := exists s, m !! k = Some s /\ v ∈ s.

(** Empty sets are reclaimed. *)
Definition reclaimed m : Prop := forall k, m !! k <> Some ∅.

Lemma holds_default m k v : holds m k v <-> v ∈ default ∅ (m !! k).
Proof. unfold holds. destruct (m !! k) as [s|]; cbn; [naive_solver|]. split; [naive_solver|set_solver]. Qed.

Lemma holds_add m k v k' v' : holds (set_add k v m) k' v' <-> (k', v') = (k, v) \/ holds m k' v'.
Proof.
  rewrite !holds_default. unfold set_add. destruct (decide (k' = k)) as [->|Hne].
  - rewrite lookup_insert_eq. cbn. set_solver.
  - rewrite lookup_insert_ne by done. naive_solver.
Qed.

Lemma holds_drop m k v k' v' : holds (set_drop k v m) k' v' <-> (k', v') <> (k, v) /\ holds m k' v'.
Proof.
  rewrite !holds_default. unfold set_drop. destruct (m !! k) as [s|] eqn:Es.
  - cbn zeta. destruct (decide (k' = k)) as [->|Hne].
    + rewrite Es. case_decide as Hemp; [rewrite lookup_delete_eq|rewrite lookup_insert_eq]; cbn; [|set_solver].
      split; [set_solver|]. intros [Hv Hin]. exfalso. assert (v' <> v) by congruence. set_solver.
    + case_decide; [rewrite lookup_delete_ne by done|rewrite lookup_insert_ne by done]; naive_solver.
  - destruct (decide (k' = k)) as [->|Hne]; [rewrite Es; cbn; set_solver|naive_solver].
Qed.

Lemma reclaimed_add m k v : reclaimed m -> reclaimed (set_add k v m).
Proof.
  intros Hm k'. unfold set_add. destruct (decide (k' = k)) as [->|Hne]; [rewrite lookup_insert_eq; intros [= E]; set_solver|].
  by rewrite lookup_insert_ne.
Qed.

Lemma reclaimed_drop m k v : reclaimed m -> reclaimed (set_drop k v m).
Proof.
  intros Hm k'. unfold set_drop. destruct (m !! k) as [s|]; [|apply Hm]. cbn zeta. case_decide as E.
  - destruct (decide (k' = k)) as [->|Hne]; [by rewrite lookup_delete_eq|by rewrite lookup_delete_ne].
  - destruct (decide (k' = k)) as [->|Hne]; [rewrite lookup_insert_eq; congruence|by rewrite lookup_insert_ne].
Qed.

Lemma holds_drop_all (ks : list K) v m k' v' :
  holds (foldr (fun k => set_drop k v) m ks) k' v' <-> (v' = v -> k' ∉ ks) /\ holds m k' v'.
Proof.
  induction ks as [|k ks IH]; cbn; [set_solver|]. rewrite holds_drop, IH. set_solver.
Qed.

Lemma reclaimed_drop_all (ks : list K) v m : reclaimed m -> reclaimed (foldr (fun k => set_drop k v) m ks).
Proof. intros Hm. induction ks; cbn; [done|by apply reclaimed_drop]. Qed.

End SetMaps.

(** ** The abstract registry: a set of pairs *)

Inductive RegistryOp :=
  | Join (tenant conversation connection : string)
  | Leave (tenant conversation connection : string)
  | RemoveConnection (connection : string).

Definition run_op (op : RegistryOp) (r : SubscriptionState) : SubscriptionState :=
  match op with
  | Join t c x => join t c x r
  | Leave t c x => leave t c x r
  | RemoveConnection x => remove_connection x r
  end.

Definition run_ops (ops : list RegistryOp) (r : SubscriptionState) : SubscriptionState :=
  foldl (fun r op => run_op op r) r ops.

(** Who listens to what. *)
Definition Subscriptions := gset (string * string * string).

Definition spec_op (op : RegistryOp) (s : Subscriptions) : Subscriptions :=
  match op with
  | Join t c x => if negb (canonical_tenant t) || Str.is_empty c || Str.is_empty x then s else {[ (t, c, x) ]} ∪ s
  | Leave t c x => if negb (canonical_tenant t) then s else s ∖ {[ (t, c, x) ]}
  | RemoveConnection x => filter (fun p => p.2 <> x) s
  end.

Definition spec_ops (ops : list RegistryOp) (s : Subscriptions) : Subscriptions := foldl (fun s op => spec_op op s) s ops.

(** Both indices hold the pairs of the set and nothing else, without empty entries. *)
Record implements (r : SubscriptionState) (s : Subscriptions) : Prop := {
  imp_conversation t c x : holds (by_conversation r) (t, c) x <-> (t, c, x) ∈ s;
  imp_connection t c x : holds (by_connection r) x (t, c) <-> (t, c, x) ∈ s;
  imp_no_empty_conversation : reclaimed (by_conversation r);
  imp_no_empty_connection : reclaimed (by_connection r);
}.

Lemma implements_new : implements new_registry ∅.
Proof. split; cbn; try (intros; rewrite holds_default, lookup_empty; set_solver); intros k; by rewrite lookup_empty. Qed.

Lemma implements_join t c x r s : implements r s -> implements (join t c x r) (spec_op (Join t c x) s).
Proof.
  intros [H1 H2 H3 H4]. unfold join, spec_op. destruct (_ || _); [by split|]. split; cbn; [| |by apply reclaimed_add..].
  - intros t' c' x'. rewrite holds_add, H1. set_solver.
  - intros t' c' x'. rewrite holds_add, H2. set_solver.
Qed.

Lemma implements_leave t c x r s : implements r s -> implements (leave t c x r) (spec_op (Leave t c x) s).
Proof.
  intros [H1 H2 H3 H4]. unfold leave, spec_op. destruct (negb _); [by split|]. split; cbn; [| |by apply reclaimed_drop..].
  - intros t' c' x'. rewrite holds_drop, H1. set_solver.
  - intros t' c' x'. rewrite holds_drop, H2. set_solver.
Qed.

Lemma implements_remove x r s : implements r s -> implements (remove_connection x r) (spec_op (RemoveConnection x) s).
Proof.
  intros [H1 H2 H3 H4]. unfold remove_connection, spec_op. cbn zeta.
  assert (Hconn : forall t c x', holds (delete x (by_connection r)) x' (t, c) <-> (t, c, x') ∈ filter (fun p => p.2 <> x) s).
  { intros t c x'. rewrite elem_of_filter, <- H2, !holds_default. cbn. destruct (decide (x' = x)) as [->|Hne].
    - rewrite lookup_delete_eq. set_solver.
    - rewrite lookup_delete_ne by done. naive_solver. }
  assert (Hrec : reclaimed (delete x (by_connection r))).
  { intros k. destruct (decide (k = x)) as [->|Hne]; [by rewrite lookup_delete_eq|by rewrite lookup_delete_ne]. }
  assert (Hall : forall t c, (t, c, x) ∈ s <-> (t, c) ∈ default ∅ (by_connection r !! x)) by (intros t c; by rewrite <- H2, holds_default).
  case_decide as Hemp; (split; cbn; [| |try done|done]); try done.
  - intros t c x'. rewrite H1, elem_of_filter. cbn. split; [|naive_solver]. intros Hin. split; [|done]. intros ->.
    apply Hall in Hin. rewrite Hemp in Hin. set_solver.
  - intros t c x'. rewrite holds_drop_all, H1, elem_of_filter, elem_of_elements. cbn. split.
    + intros [Hno Hin]. split; [|done]. intros ->. apply (Hno eq_refl). by apply Hall.
    + intros [Hne Hin]. split; [|done]. by intros ->.
  - by apply reclaimed_drop_all.
Qed.

Create HintDb subscriptions.
#[export] Hint Resolve implements_new implements_join implements_leave implements_remove : subscriptions.

Lemma implements_op op r s : implements r s -> implements (run_op op r) (spec_op op s).
Proof. destruct op; cbn [run_op]; auto with subscriptions. Qed.

Lemma implements_ops ops r s : implements r s -> implements (run_ops ops r) (spec_ops ops s).
Proof.
  revert r s. induction ops as [|op ops IH]; intros r s Hr; [done|]. cbn. apply IH. by apply implements_op.
Qed.

Lemma subscribers_of r s t c x :
  implements r s -> canonical_tenant t = true -> x ∈ local_subscribers t c r <-> (t, c, x) ∈ s.
Proof.
  intros Hr Ht. unfold local_subscribers. rewrite Ht. cbn [negb].
  by rewrite elem_of_elements, <- holds_default, (imp_conversation _ _ Hr).
Qed.

(** C29. The registry of subscriptions implements a set of triples of tenant, conversation and
    connection. Whatever joins, leaves and disconnections came before, the subscribers of a
    conversation are those of the set, the count is their number, a connection that is gone
    listens to nothing, and neither index keeps an empty entry. *)
Theorem registry_is_a_set (ops : list RegistryOp) :
  let r := run_ops ops new_registry in let s := spec_ops ops ∅ in
  implements r s /\
  (forall t c x, canonical_tenant t = true -> x ∈ local_subscribers t c r <-> (t, c, x) ∈ s) /\
  (forall t c, local_subscriber_count t c r = length (local_subscribers t c r) /\ NoDup (local_subscribers t c r)) /\
  (forall t c x, x ∉ local_subscribers t c (remove_connection x r)).
Proof.
  cbn zeta. pose proof (implements_ops ops _ _ implements_new) as Hr. split_and!; [done| | |].
  - intros t c x Ht. by apply subscribers_of.
  - intros t c. unfold local_subscriber_count, local_subscribers. destruct (negb _); [split; [done|constructor]|].
    split; [|apply NoDup_elements]. by destruct (_ !! _).
  - intros t c x Hin. destruct (canonical_tenant t) eqn:Ht; [|unfold local_subscribers in Hin; rewrite Ht in Hin; by apply elem_of_nil in Hin].
    apply (subscribers_of _ _ _ _ _ (implements_remove x _ _ Hr) Ht) in Hin. cbn in Hin. set_solver.
Qed.
