(* ===== verification/GatewayPush.v ===== *)
(** * Pushing at a gateway

    flare-signaling/gateway: the push domain service (push_domain_service.rs), its handlers
    (application/handlers/push_handler.rs), the RPCs and their checks
    (interface/grpc/handler.rs), the push port (infrastructure/ports/push_port.rs) and the
    relay of realtime signals (realtime_relay.rs). The member list of a conversation, the
    connection table and the server handle are ports. While a call awaits an answer, other
    tasks of the node may change the subscriptions and the member cache: [others] says how. *)

From S2P Require Import Prelude.
From S2P Require Import Proto.
From S2P Require Import Tenant.
From S2P Require Import Database.
From S2P Require Import Submission.
From S2P Require Import PushTypes.
From S2P Require Import PushRouter.
From S2P Require Import PushWorker.
From S2P Require Import GatewaySubscriptions.
From stdpp Require Import base gmap sets strings list.
From Stdlib Require Import ZArith Lia.

Open Scope Z_scope.

(** ** The member cache *)

Definition LARGE_GROUP_THRESHOLD : nat := 2000.

(** Member lists with the time they were read, oldest first in [order]. *)
Record ResolvedConversations := mkResolved {
  resolved_order : list ConversationKey;
  participants : gmap ConversationKey (list string * Z);
  capacity : nat;
}.

Definition new_resolved (capacity : nat) : ResolvedConversations := mkResolved [] ∅ (Nat.max capacity 1).

Definition get_fresh (tenant conversation : string) (now ttl large_group_ttl : Z) (c : ResolvedConversations) : option (list string) :=
  match participants c !! (tenant, conversation) with
  | Some (l, resolved_at) =>
      let ttl := if decide (LARGE_GROUP_THRESHOLD <= length l)%nat then large_group_ttl else ttl in
      if Z.max 0 (now - resolved_at) <? ttl then Some l else None
  | None => None
  end.

(** [while self.order.len() > self.capacity] *)
Fixpoint evict (capacity : nat) (order : list ConversationKey) (m : gmap ConversationKey (list string * Z))
    : list ConversationKey * gmap ConversationKey (list string * Z) :=
  match order with
  | [] => ([], m)
  | k :: rest => if decide (capacity < length order)%nat then evict capacity rest (delete k m) else (order, m)
  end.

Definition insert_resolved (tenant conversation : string) (l : list string) (now : Z) (c : ResolvedConversations) : ResolvedConversations :=
  let key := (tenant, conversation) in
  match participants c !! key with
  | Some _ => mkResolved (resolved_order c) (<[key := (l, now)]> (participants c)) (capacity c)
  | None =>
      let '(order, m) := evict (capacity c) (resolved_order c ++ [key]) (participants c) in
      mkResolved order (<[key := (l, now)]> m) (capacity c)
  end.

(** ** What goes down a connection *)

(** [EventEnvelope] *)
Record EventEnvelope := mkEnvelope {
  env_events : list PushEvent;
  env_max_conversation_seq : Z;
  env_next_cursor : string;
  env_window_id : string;
  env_delivery_mode : EventEnvelopeDeliveryMode;
  env_conversation_id : string;
  env_min_conversation_seq : Z;
  env_inline_events_truncated : bool;
}.

(** The payload of a frame, before it is encoded. *)
Inductive ClientPayload :=
  | MessagePush (messages : list Message)
  | EnvelopePush (e : EventEnvelope)
  | AckPush (ack : PushAck)
  | CapabilityPush (packet : CapabilityPacket)
  | RelayedPacket (packet : string).

(** A frame that was handed to the server for connections. *)
Record Fanout := mkFanout { fan_connections : list string; fan_payload : ClientPayload }.

Record ConnectionInfo := mkConnection { conn_id : string; conn_device_id : string; conn_platform : option string }.

Record GatewayWorld := mkGateway {
  subscriptions : SubscriptionState;
  resolved_conversations : ResolvedConversations;
  sent : list Fanout;
}.

Record GatewayPorts := mkGatewayPorts {
  list_participants : Ctx -> string -> result (list string);
  query_user_connections : Ctx -> string -> result (list ConnectionInfo);
  list_user_connection_ids : Ctx -> string -> result (list string);
  connection_exists : string -> bool;
  (** [send_to_connections] of the server handle, if it is there: how many writes succeeded and failed *)
  server_handle : option (list string -> Z * Z);
  (** [verify_signed_context_metadata] with the verifier of the gateway, if there is one *)
  identity_verifier : option (option SignedContextClaims -> Ctx + StatusCode);
  participants_ttl : Z;
  large_group_participants_ttl : Z;
  clock : Z;
  new_window_id : string;
}.

Definition i32_add (a b : Z) : Z := Z.max (- 2 ^ 31) (Z.min (2 ^ 31 - 1) (a + b)).

(** [build_event_envelope] *)

Definition resolve_event_envelope_delivery_mode (mode : wire EventEnvelopeDeliveryMode) (events_empty : bool)
    : result EventEnvelopeDeliveryMode :=
  let resolved := match default DeliveryUnspecified mode with
                  | DeliveryUnspecified => if events_empty then DeliveryPing else DeliveryPingWithInline
                  | other => other
                  end in
  if events_empty && negb (bool_decide (resolved = DeliveryPing))
  then Err (flare_err InvalidParameter "EventEnvelope: pure ping must use PING delivery mode")
  else Ok resolved.

(** The conversation of an envelope: that of the first event, or the hint. *)
Definition envelope_conversation (events : list PushEvent) (hint : string) : option string :=
  let of_events := match events with
                   | e :: _ => let id := Str.trim (pe_conversation_id e) in if Str.is_empty id then None else Some id
                   | [] => None
                   end in
  match of_events with
  | Some id => Some id
  | None => let trimmed := Str.trim hint in if Str.is_empty trimmed then None else Some trimmed
  end.

Definition min_seq (events : list PushEvent) : Z :=
  match pe_conversation_seq <$> events with [] => 0 | s :: l => foldr Z.min s l end.

Definition max_seq (events : list PushEvent) : Z :=
  match pe_conversation_seq <$> events with [] => 0 | s :: l => foldr Z.max s l end.

Definition build_event_envelope (events : list PushEvent) (window hint : string) (max_hint : Z)
    (mode : wire EventEnvelopeDeliveryMode) (truncated : bool) : result EventEnvelope :=
  match envelope_conversation events hint with
  | None => Err (flare_err InvalidParameter "EventEnvelope: conversation_id is empty")
  | Some conversation =>
      if existsb (fun e => negb (bool_decide (Str.trim (pe_conversation_id e) = conversation))) events
      then Err (flare_err InvalidParameter "EventEnvelope: mixed conversation_id values are not supported")
      else
        let top := Z.max (max_seq events) max_hint in
        let empty := bool_decide (events = []) in
        if empty && (top =? 0)
        then Err (flare_err InvalidParameter "EventEnvelope: pure ping requires max_conversation_seq")
        else
          match resolve_event_envelope_delivery_mode mode empty with
          | Err e => Err e
          | Ok mode => Ok (mkEnvelope events top (if 0 <? top then "evt:" +:+ Str.of_Z top else "") window mode
                             conversation (min_seq events) truncated)
          end
  end.

(** [RelayRealtimeControlRequest], and its packet as far as it is looked at. *)
Record RelayRealtimeControlRequest := mkRelayRequest { rl_conversation_id : string; rl_packet : string }.
Record RealtimeControl := mkRealtimeControl { rc_conversation_id : option string; rc_typing_aggregate : option string }.

(** SHA-256 of a tag, a conversation and a packet with their lengths; the decoding of a
    [DataPacket], whose payload is a realtime control or another one. *)
Record RelayCodec := mkRelayCodec {
  relay_digest : string -> string -> string;
  decode_packet : string -> option (option RealtimeControl);
}.

(** [filter_connections] *)
Definition filter_connections (o : PushOptions) (l : list ConnectionInfo) : list ConnectionInfo :=
  filter (fun c => (opt_device_ids o = [] \/ conn_device_id c ∈ opt_device_ids o) /\
                   (opt_platforms o = [] \/ default "" (conn_platform c) ∈ opt_platforms o)) l.

Section Gateway.
Context (ports : GatewayPorts).
(** What other tasks did to the subscriptions and the cache by the time an answer came. *)
Context (others : nat -> SubscriptionState * ResolvedConversations -> SubscriptionState * ResolvedConversations).

Abbreviation M := (db GatewayWorld).

(** Waiting for an answer. *)
Definition await : M unit := fun '(n, w) =>
  let '(subs, cache) := others n (subscriptions w, resolved_conversations w) in (Ok (), (S n, mkGateway subs cache (sent w))).

(** [x.await] of a call that only reads *)
Definition ask {A} (r : result A) : M A := _ ← await; lift_r r.

Definition read_gateway : M GatewayWorld := fun '(n, w) => (Ok w, (n, w)).

Definition on_subscriptions (f : SubscriptionState -> SubscriptionState) : M unit := fun '(n, w) =>
  (Ok (), (n, mkGateway (f (subscriptions w)) (resolved_conversations w) (sent w))).

Definition on_cache (f : ResolvedConversations -> ResolvedConversations) : M unit := fun '(n, w) =>
  (Ok (), (n, mkGateway (subscriptions w) (f (resolved_conversations w)) (sent w))).

(** ** The push port *)

(** [filter(|id| seen.insert(id))] *)
Fixpoint unseen (seen : gset string) (l : list string) : list string :=
  match l with
  | [] => []
  | c :: l => if decide (c ∈ seen) then unseen seen l else c :: unseen ({[c]} ∪ seen) l
  end.

(** [handle.send_to_connections(&connection_ids, &frame)] *)
Definition send_frame (send : list string -> Z * Z) (connections : list string) (payload : ClientPayload) : M (Z * Z) := fun '(n, w) =>
  (Ok (send connections),
   (n, mkGateway (subscriptions w) (resolved_conversations w) (sent w ++ [mkFanout connections payload]))).

Definition push_payload_to_connections (connections : list string) (payload : ClientPayload) : M (Z * Z) :=
  match unseen ∅ connections with
  | [] => mret (0, 0)
  | connections =>
      _ ← await;
      match server_handle ports with
      | None => lift_r (Err (flare_err InternalError "ServerHandle not initialized"))
      | Some send => send_frame send connections payload
      end
  end.

(** ** Delivery to a conversation *)

Definition SUBSCRIBE_LOOKUP_CONCURRENCY : nat := 64.

(** One chunk of look-ups, which end together. *)
Fixpoint lookup_chunks (tx : Ctx) (chunks : list (list string)) (found : gset string) : M (gset string) :=
  match chunks with
  | [] => mret found
  | chunk :: chunks =>
      ids ← ask (mapM (list_user_connection_ids ports tx) chunk);
      lookup_chunks tx chunks (found ∪ list_to_set (mjoin ids))
  end.

Definition ensure_conversation_members_subscribed (tx : Ctx) (tenant conversation : string) : M (option (gset string)) :=
  if is_sync_inbox_conversation_id conversation then mret None
  else
    current ← ask (list_participants ports tx conversation);
    w ← read_gateway;
    let cached := get_fresh tenant conversation (clock ports) (participants_ttl ports) (large_group_participants_ttl ports)
                    (resolved_conversations w) in
    participants ← (match cached with
                    | Some l => if bool_decide (l = current) then mret l
                                else _ ← on_cache (insert_resolved tenant conversation current (clock ports)); mret current
                    | None => _ ← on_cache (insert_resolved tenant conversation current (clock ports)); mret current
                    end);
    w ← read_gateway;
    let subscribed_before : gset string := list_to_set (local_subscribers tenant conversation (subscriptions w)) in
    member_connections ← lookup_chunks tx (chunks SUBSCRIBE_LOOKUP_CONCURRENCY participants) ∅;
    _ ← on_subscriptions (fun s => foldl (fun s c => GatewaySubscriptions.join tenant conversation c s) s (elements member_connections));
    _ ← on_subscriptions (fun s => foldl (fun s c => leave tenant conversation c s) s (elements (subscribed_before ∖ member_connections)));
    mret (Some member_connections).

(** The loop of [live_subscribers]. *)
Fixpoint live_loop (tenant conversation : string) (subscribed : list string) : M (list string) :=
  match subscribed with
  | [] => mret []
  | c :: rest =>
      _ ← await;
      if connection_exists ports c then
        live ← live_loop tenant conversation rest; mret (c :: live)
      else
        _ ← on_subscriptions (leave tenant conversation c);
        live_loop tenant conversation rest
  end.

Definition live_subscribers (tenant conversation : string) : M (list string) :=
  w ← read_gateway;
  live_loop tenant conversation (local_subscribers tenant conversation (subscriptions w)).

Definition deliver_to_conversation (tx : Ctx) (conversation : string) (payload : ClientPayload) : M (Z * Z) :=
  match ctx_tenant_id tx with
  | None => lift_r (Err (flare_err PermissionDenied "canonical tenant required for conversation delivery"))
  | Some tenant =>
      if negb (canonical_tenant tenant)
      then lift_r (Err (flare_err PermissionDenied "canonical tenant required for conversation delivery"))
      else
        authorized ← ensure_conversation_members_subscribed tx tenant conversation;
        live ← live_subscribers tenant conversation;
        let connections := match authorized with
                           | Some a => filter (fun c => c ∈ a) live
                           | None => live
                           end in
        if bool_decide (connections = []) then mret (0, 0)
        else push_payload_to_connections connections payload
  end.

Definition push_message_to_conversation (tx : Ctx) (conversation : string) (messages : list Message) : M (Z * Z) :=
  deliver_to_conversation tx conversation (MessagePush messages).

Definition deliver_event_envelope_to_conversation (tx : Ctx) (conversation : string) (events : list PushEvent) (window : string)
    (max_hint : Z) (mode : wire EventEnvelopeDeliveryMode) (truncated : bool) : M (Z * Z) :=
  envelope ← lift_r (build_event_envelope events window conversation max_hint mode truncated);
  deliver_to_conversation tx conversation (EnvelopePush envelope).

(** ** Delivery to users *)

Definition get_filtered_connections (tx : Ctx) (user : string) (o : PushOptions) : M (list ConnectionInfo) :=
  l ← ask (query_user_connections ports tx user);
  mret (filter_connections o l).

(** A row of the result: the user, the writes that succeeded and failed, and whether offline. *)
Record UserRow := mkUserRow { row_user_id : string; row_pushed : Z; row_failed : Z; row_offline : Z }.

Definition tenant_to_push (tx : Ctx) : result string :=
  match ctx_tenant_id tx with
  | Some t => if Str.is_blank t then Err (flare_err PermissionDenied "tenant required to push to a user") else Ok t
  | None => Err (flare_err PermissionDenied "tenant required to push to a user")
  end.

Definition push_encoded_payload_to_user (tx : Ctx) (user : string) (o : PushOptions) (payload : ClientPayload) : M UserRow :=
  _ ← lift_r (tenant_to_push tx);
  l ← get_filtered_connections tx user o;
  if bool_decide (l = []) then mret (mkUserRow user 0 0 1)
  else
    outcome ← push_payload_to_connections (conn_id <$> l) payload;
    mret (mkUserRow user outcome.1 outcome.2 0).

(** All users are tried; the first error is returned after them. *)
Fixpoint each_user (row : string -> M UserRow) (users : list string) : M (list UserRow) :=
  match users with
  | [] => mret []
  | u :: users =>
      on_result (row u) (fun r => rest ← each_user row users; mret (r :: rest))
        (fun e => _ ← log_error (each_user row users); lift_r (Err e))
  end.

Definition push_encoded_payload_to_users (tx : Ctx) (users : list string) (o : PushOptions) (payload : ClientPayload) : M (list UserRow) :=
  each_user (fun u => push_encoded_payload_to_user tx u o payload) users.

Definition push_capability_to_users (tx : Ctx) (users : list string) (packet : CapabilityPacket) (o : PushOptions) : M (list UserRow) :=
  _ ← lift_r (tenant_to_push tx);
  each_user (fun u => l ← get_filtered_connections tx u o;
                      if bool_decide (l = []) then mret (mkUserRow u 0 0 0)
                      else outcome ← push_payload_to_connections (conn_id <$> l) (CapabilityPush packet);
                           mret (mkUserRow u outcome.1 outcome.2 0)) users.

(** ** Handlers *)

Definition total (f : UserRow -> Z) (rows : list UserRow) : Z := foldl (fun acc r => i32_add acc (f r)) 0 rows.

(** What a caller gets back: the number of devices, and the rows. *)
Record PushResponse := mkPushResponse { pushed_device_count : Z; offline_pending_count : Z; user_results : list UserRow }.

Definition response_of (rows : list UserRow) : PushResponse :=
  mkPushResponse (total row_pushed rows) (total row_offline rows) rows.

Definition handle_push_message (ctx : Ctx) (req : PushMessageRequest) : M PushResponse :=
  if bool_decide (pm_user_ids req = []) then lift_r (Err (flare_err InvalidParameter "PushMessage: user_ids is empty"))
  else if bool_decide (pm_messages req = []) then lift_r (Err (flare_err InvalidParameter "PushMessage: messages is empty"))
  else
    rows ← push_encoded_payload_to_users ctx (pm_user_ids req) (default default_options (pm_options req)) (MessagePush (pm_messages req));
    if 0 <? total row_failed rows
    then lift_r (Err (flare_err ServiceUnavailable "PushMessage: failed to write to one or more online connections"))
    else mret (response_of rows).

Definition handle_deliver_to_conversation (ctx : Ctx) (req : DeliverToConversationRequest) : M PushResponse :=
  let conversation := dl_conversation_id req in
  if Str.is_blank conversation then lift_r (Err (flare_err InvalidParameter "DeliverToConversation: conversation_id is empty"))
  else
    outcome ← match dl_payload req with
              | Some (DeliverMessages []) => lift_r (Err (flare_err InvalidParameter "DeliverToConversation: messages payload is empty"))
              | Some (DeliverMessages messages) => push_message_to_conversation ctx conversation messages
              | Some (DeliverEvents [] _ _) => lift_r (Err (flare_err InvalidParameter "DeliverToConversation: events payload is empty"))
              | Some (DeliverEvents events mode truncated) =>
                  deliver_event_envelope_to_conversation ctx conversation events (new_window_id ports) 0 mode truncated
              | Some (DeliverPing seq mode truncated) =>
                  if 0 <? seq then deliver_event_envelope_to_conversation ctx conversation [] (new_window_id ports) seq mode truncated
                  else lift_r (Err (flare_err InvalidParameter "DeliverToConversation: ping requires max_conversation_seq > 0"))
              | None => lift_r (Err (flare_err InvalidParameter "DeliverToConversation: missing payload"))
              end;
    if 0 <? outcome.2
    then lift_r (Err (flare_err ServiceUnavailable "DeliverToConversation: failed to write to one or more connections"))
    else mret (mkPushResponse outcome.1 0 []).

Definition handle_push_event (ctx : Ctx) (req : PushEventRequest) : M PushResponse :=
  if bool_decide (pr_user_ids req = []) then lift_r (Err (flare_err InvalidParameter "PushEvent: user_ids is empty"))
  else if bool_decide (pr_events req = []) && (Str.is_blank (pr_conversation_id req) || (pr_max_conversation_seq req =? 0))
  then lift_r (Err (flare_err InvalidParameter "PushEvent: events is empty and ping fields are incomplete"))
  else
    envelope ← lift_r (build_event_envelope (pr_events req) (new_window_id ports) (pr_conversation_id req)
                         (pr_max_conversation_seq req) (pr_delivery_mode req) (pr_inline_events_truncated req));
    rows ← push_encoded_payload_to_users ctx (pr_user_ids req) (default default_options (pr_options req)) (EnvelopePush envelope);
    if 0 <? total row_failed rows
    then lift_r (Err (flare_err ServiceUnavailable "PushEvent: failed to write to one or more online connections"))
    else mret (response_of rows).

(** Nothing is pushed. *)
Definition handle_push_notification (ctx : Ctx) (req : PushNotificationRequest) : M PushResponse := mret (mkPushResponse 0 0 []).
Definition handle_push_custom (ctx : Ctx) (req : PushCustomRequest) : M PushResponse := mret (mkPushResponse 0 0 []).

Definition handle_push_ack (ctx : Ctx) (users : list string) (ack : PushAck) (options : option PushOptions) : M PushResponse :=
  if bool_decide (users = []) then lift_r (Err (flare_err InvalidParameter "PushAck: user_ids is empty"))
  else
    rows ← push_encoded_payload_to_users ctx users (default default_options options) (AckPush ack);
    mret (response_of rows).

Definition handle_push_capability (ctx : Ctx) (users : list string) (packet : CapabilityPacket) (options : option PushOptions) : M PushResponse :=
  rows ← push_capability_to_users ctx users packet (default default_options options);
  mret (mkPushResponse (total row_pushed rows) 0 rows).

(** ** RPCs *)

(** [Result<_, Status>] of a check. *)
Definition Checked (A : Type) : Type := A + StatusCode.

Definition validate_push_producer_claims (claims : SignedContextClaims) : bool :=
  bool_decide (actor_type claims = ActService) && bool_decide (actor_id claims = "flare-push-worker")
  && canonical_tenant (claims_tenant_id claims).

Definition require_push_producer (identity : option SignedContextClaims) : Checked Ctx :=
  match identity_verifier ports with
  | None => inr StatusUnavailable
  | Some verify =>
      match verify identity with
      | inr c => inr c
      | inl ctx =>
          match ctx_claims ctx with
          | None => inr Unauthenticated
          | Some claims => if validate_push_producer_claims claims then inl ctx else inr StatusPermissionDenied
          end
      end
  end.

Definition MAX_CAPABILITY_PUSH_USERS : nat := 32.

Definition validate_capability_push (body : PushCapabilityRequest) : Checked CapabilityPacket :=
  match pk_packet body with
  | Some packet =>
      if Str.is_blank (capability_id packet) then inr InvalidArgument
      else if bool_decide (pk_user_ids body = []) || bool_decide (MAX_CAPABILITY_PUSH_USERS < length (pk_user_ids body))%nat
              || existsb Str.is_blank (pk_user_ids body)
      then inr InvalidArgument else inl packet
  | None => inr InvalidArgument
  end.

Definition validate_delivery_body (body : DeliverToConversationRequest) : option StatusCode :=
  let conversation := dl_conversation_id body in
  if Str.is_empty conversation || negb (bool_decide (Str.trim conversation = conversation)) then Some InvalidArgument
  else
    match dl_payload body with
    | Some (DeliverMessages ((_ :: _) as messages)) =>
        if existsb (fun m => negb (bool_decide (conversation_id m = conversation))) messages then Some StatusPermissionDenied else None
    | Some (DeliverEvents ((_ :: _) as events) _ _) =>
        if existsb (fun e => negb (bool_decide (pe_conversation_id e = conversation))) events then Some StatusPermissionDenied else None
    | Some (DeliverPing seq _ _) => if 0 <? seq then None else Some InvalidArgument
    | _ => Some InvalidArgument
    end.

(** [.map_err(|e| Status::internal(..))] *)
Definition answer {A} (m : M A) : M Rpc := on_result m (fun _ => mret RpcOk) (fun _ => mret (RpcStatus StatusInternal)).

Definition refuse (c : StatusCode) : M Rpc := mret (RpcStatus c).

(** Every push RPC starts with the identity of its caller. *)
Definition as_producer (identity : option SignedContextClaims) (body : Ctx -> M Rpc) : M Rpc :=
  match require_push_producer identity with
  | inr c => refuse c
  | inl ctx => body ctx
  end.

Definition push_message_rpc (identity : option SignedContextClaims) (req : PushMessageRequest) : M Rpc :=
  as_producer identity (fun ctx =>
    if existsb (fun m => Str.is_blank (conversation_id m)) (pm_messages req) then refuse InvalidArgument
    else answer (handle_push_message ctx req)).

Definition deliver_to_conversation_rpc (identity : option SignedContextClaims) (body : DeliverToConversationRequest) : M Rpc :=
  as_producer identity (fun ctx =>
    match validate_delivery_body body with
    | Some c => refuse c
    | None => answer (handle_deliver_to_conversation ctx body)
    end).

Definition push_event_rpc (identity : option SignedContextClaims) (req : PushEventRequest) : M Rpc :=
  as_producer identity (fun ctx =>
    if existsb (fun e => Str.is_blank (pe_conversation_id e)) (pr_events req) then refuse InvalidArgument
    else if negb (Str.is_empty (pr_conversation_id req))
            && existsb (fun e => negb (bool_decide (pe_conversation_id e = pr_conversation_id req))) (pr_events req)
    then refuse StatusPermissionDenied
    else answer (handle_push_event ctx req)).

Definition push_notification_rpc (identity : option SignedContextClaims) (req : PushNotificationRequest) : M Rpc :=
  as_producer identity (fun ctx =>
    match pn_notification req with
    | None => refuse InvalidArgument
    | Some _ => answer (handle_push_notification ctx req)
    end).

Definition push_ack_rpc (identity : option SignedContextClaims) (req : PushAckRequest) : M Rpc :=
  as_producer identity (fun ctx =>
    match pa_ack req with
    | None => refuse InvalidArgument
    | Some ack => answer (handle_push_ack ctx (pa_user_ids req) ack (pa_options req))
    end).

Definition push_custom_rpc (identity : option SignedContextClaims) (req : PushCustomRequest) : M Rpc :=
  as_producer identity (fun ctx =>
    match pc_custom_data req with
    | None => refuse InvalidArgument
    | Some _ => answer (handle_push_custom ctx req)
    end).

Definition push_capability_rpc (identity : option SignedContextClaims) (body : PushCapabilityRequest) : M Rpc :=
  as_producer identity (fun ctx =>
    match validate_capability_push body with
    | inr c => refuse c
    | inl packet => answer (handle_push_capability ctx (pk_user_ids body) packet (pk_options body))
    end).

(** The RPCs the worker calls. *)
Definition rpc (identity : option SignedContextClaims) (r : GatewayRequest) : M Rpc :=
  match r with
  | GwDeliver body => deliver_to_conversation_rpc identity body
  | GwNotification req => push_notification_rpc identity req
  | GwAck req => push_ack_rpc identity req
  | GwCustom req => push_custom_rpc identity req
  | GwCapability body => push_capability_rpc identity body
  end.

(** ** The relay of realtime signals *)

Definition relay_locally (tx : Ctx) (conversation packet : string) (exclude : option string) : M nat :=
  if Str.is_empty conversation then mret O
  else
    match ctx_tenant_id tx with
    | None => mret O
    | Some tenant =>
        if negb (canonical_tenant tenant) then mret O
        else
          w ← read_gateway;
          let targets := filter (fun c => Some c <> exclude) (local_subscribers tenant conversation (subscriptions w)) in
          if bool_decide (targets = []) then mret O
          else on_result (push_payload_to_connections targets (RelayedPacket packet))
                 (fun _ => mret (length targets)) (fun _ => mret O)
    end.

Context (codec : RelayCodec).

Definition relay_body_request_id (conversation packet : string) : string := "relay:" +:+ relay_digest codec conversation packet.

Definition validate_realtime_relay_body (claims : SignedContextClaims) (body : RelayRealtimeControlRequest) : option StatusCode :=
  let conversation := rl_conversation_id body in
  if negb (bool_decide (actor_type claims = ActUser)) || negb (bool_decide (credential_id claims = Some "signaling-gateway"))
     || Str.is_empty (actor_id claims) || negb (canonical_tenant (claims_tenant_id claims))
  then Some StatusPermissionDenied
  else if Str.is_empty conversation || negb (bool_decide (Str.trim conversation = conversation)) then Some InvalidArgument
  else if negb (bool_decide (request_id claims = relay_body_request_id conversation (rl_packet body))) then Some StatusPermissionDenied
  else
    match decode_packet codec (rl_packet body) with
    | None | Some None => Some InvalidArgument
    | Some (Some rc) =>
        if negb (bool_decide (rc_conversation_id rc = Some conversation)) then Some StatusPermissionDenied
        else match rc_typing_aggregate rc with
             | Some c => if bool_decide (c = conversation) then None else Some StatusPermissionDenied
             | None => None
             end
    end.

(** The identity another gateway relays with. *)
Definition require_relay (identity : option SignedContextClaims) (body : RelayRealtimeControlRequest) : Checked Ctx :=
  match identity_verifier ports with
  | None => inr StatusUnavailable
  | Some verify =>
      match verify identity with
      | inr c => inr c
      | inl ctx =>
          match ctx_claims ctx with
          | None => inr Unauthenticated
          | Some claims => match validate_realtime_relay_body claims body with Some c => inr c | None => inl ctx end
          end
      end
  end.

Definition relay_realtime_control_rpc (identity : option SignedContextClaims) (body : RelayRealtimeControlRequest) : M Rpc :=
  match require_relay identity body with
  | inr c => refuse c
  | inl ctx => _ ← relay_locally ctx (rl_conversation_id body) (rl_packet body) None; mret RpcOk
  end.

(** ** Every RPC that sends *)

Inductive AccessGatewayRequest :=
  | AgWorker (r : GatewayRequest)
  | AgMessage (req : PushMessageRequest)
  | AgEvent (req : PushEventRequest)
  | AgRelay (body : RelayRealtimeControlRequest).

Definition access_gateway (identity : option SignedContextClaims) (r : AccessGatewayRequest) : M Rpc :=
  match r with
  | AgWorker r => rpc identity r
  | AgMessage req => push_message_rpc identity req
  | AgEvent req => push_event_rpc identity req
  | AgRelay body => relay_realtime_control_rpc identity body
  end.

End Gateway.
