(* ===== verification/GatewayPushFacts.v ===== *)
(** * What a gateway sends, and to whom

    Theorems about [GatewayPush]: the member cache is bounded, a delivery goes to current
    members only whatever other tasks do meanwhile, and to all of them when they leave the
    subscriptions alone. *)

From S2P Require Import Prelude.
From S2P Require Import Proto.
From S2P Require Import Tenant.
From S2P Require Import Database.
From S2P Require Import Submission.
From S2P Require Import PushTypes.
From S2P Require Import PushRouter.
From S2P Require Import PushRouterFacts.
From S2P Require Import PushWorker.
From S2P Require Import GatewaySubscriptions.
From S2P Require Import GatewayPush.
From stdpp Require Import base gmap sets strings list.
From Stdlib Require Import ZArith Lia.

Open Scope Z_scope.

(** ** The member cache *)

Definition cache_ok (c : ResolvedConversations) : Prop :=
  NoDup (resolved_order c) /\ (length (resolved_order c) <= capacity c)%nat /\ (1 <= capacity c)%nat /\
  forall k, k ∈ resolved_order c <-> is_Some (participants c !! k).

Lemma evict_spec (cap : nat) (l l' : list ConversationKey) (m m' : gmap ConversationKey (list string * Z)) :
  evict cap l m = (l', m') ->
  exists out, l = out ++ l' /\ (length l' <= cap)%nat /\ (out = [] \/ length l' = cap) /\
    forall k, m' !! k = if decide (k ∈ out) then None else m !! k.
Proof.
  revert m. induction l as [|k l IH]; intros m; cbn [evict]; [intros [= <- <-]; exists []; split_and!; [done|cbn; lia|by left|]|].
  { intros k. by rewrite decide_False by apply not_elem_of_nil. }
  destruct (decide (cap < length (k :: l))%nat) as [Hlt|Hge].
  - intros E. destruct (IH _ E) as (out & -> & Hlen & Hout & Hm). exists (k :: out). split_and!; [done|done| |].
    + right. destruct Hout as [->|]; [cbn in *; lia|done].
    + intros k'. rewrite Hm. destruct (decide (k' = k)) as [->|Hne].
      * rewrite (decide_True _ _ (list_elem_of_here _ _)), lookup_delete_eq. by case_decide.
      * rewrite lookup_delete_ne by done. repeat case_decide; set_solver.
  - intros [= <- <-]. exists []. split_and!; [done|lia|by left|]. intros k'. by rewrite decide_False by apply not_elem_of_nil.
Qed.

Lemma insert_resolved_ok t c l now cache :
  cache_ok cache ->
  cache_ok (insert_resolved t c l now cache) /\ capacity (insert_resolved t c l now cache) = capacity cache /\
  participants (insert_resolved t c l now cache) !! (t, c) = Some (l, now).
Proof.
  intros (Hnd & Hlen & Hcap & Hdom). unfold insert_resolved. cbn zeta.
  destruct (participants cache !! (t, c)) as [old|] eqn:E.
  - cbn. split_and!; [|done|by rewrite lookup_insert_eq]. split_and!; cbn; [done..|].
    intros k. rewrite Hdom. rewrite lookup_insert. case_decide; [|done]. subst. rewrite E. by split; eauto.
  - destruct (evict _ _ _) as [o m] eqn:Ee. cbn. split_and!; [|done|by rewrite lookup_insert_eq].
    destruct (evict_spec _ _ _ _ _ Ee) as (out & Happ & Hlen' & Hout & Hm).
    assert (Hfresh : (t, c) ∉ resolved_order cache) by (rewrite Hdom, E; by intros [? ?]).
    assert (Hnd' : NoDup (resolved_order cache ++ [(t, c)])).
    { apply NoDup_app. split_and!; [done| |apply NoDup_singleton]. intros k Hk ->%list_elem_of_singleton. done. }
    assert (Hkey : (t, c) ∈ o).
    { assert (Hin : (t, c) ∈ out ++ o) by (rewrite <- Happ; set_solver). apply elem_of_app in Hin as [Hin|]; [|done].
      exfalso. destruct Hout as [->|Hfull]; [by apply elem_of_nil in Hin|].
      destruct (last o) as [k|] eqn:El; [|apply last_None in El; subst; cbn in *; lia].
      assert (Hl : last (resolved_order cache ++ [(t, c)]) = Some k) by (rewrite Happ, last_app; by rewrite El).
      rewrite last_snoc in Hl. injection Hl as <-. rewrite Happ in Hnd'. apply NoDup_app in Hnd' as (_ & Hdis & _).
      apply (Hdis (t, c)); [done|]. apply last_Some in El as [o' ->]. set_solver. }
    rewrite Happ in Hnd'. apply NoDup_app in Hnd' as (_ & Hdis & Hndo). split_and!; cbn; [done|done|done|].
    intros k. rewrite lookup_insert. case_decide as Ek; [subst; by split; eauto|]. rewrite Hm. split.
    + intros Hk. rewrite decide_False by (intros Hko; by apply (Hdis k)). apply Hdom.
      assert (Hin : k ∈ resolved_order cache ++ [(t, c)]) by (rewrite Happ; set_solver). set_solver.
    + case_decide as Hko; [by intros [? ?]|]. intros Hk%Hdom.
      assert (Hin : k ∈ out ++ o) by (rewrite <- Happ; set_solver). set_solver.
Qed.

(** The member cache stays within its capacity: after any sequence of insertions into a new cache
    of a given capacity it holds at most that many conversations (at least one), each once, the
    queue and the map hold the same conversations, and the one inserted last is there. *)
Theorem member_cache_is_bounded (cap : nat) (inserts : list (string * string * list string * Z)) t c l now :
  let cache := foldl (fun cache x => let '(t, c, l, now) := x in insert_resolved t c l now cache) (new_resolved cap)
                 (inserts ++ [(t, c, l, now)]) in
  (length (resolved_order cache) <= Nat.max cap 1)%nat /\ NoDup (resolved_order cache) /\
  (forall k, k ∈ resolved_order cache <-> is_Some (participants cache !! k)) /\ (size (participants cache) <= Nat.max cap 1)%nat /\
  participants cache !! (t, c) = Some (l, now).
Proof.
  cbn zeta. rewrite foldl_snoc.
  assert (Hall : forall is_, let cache := foldl (fun cache x => let '(t, c, l, now) := x in insert_resolved t c l now cache) (new_resolved cap) is_ in
    cache_ok cache /\ capacity cache = Nat.max cap 1).
  { cbn zeta. induction is_ as [|[[[t' c'] l'] now'] is_ IH] using rev_ind.
    - split; [|done]. split_and!; cbn; [constructor|lia|lia|]. intros k. rewrite lookup_empty. split; [set_solver|by intros [? ?]].
    - rewrite foldl_snoc. destruct IH as [IH Hc]. destruct (insert_resolved_ok t' c' l' now' _ IH) as (H1 & H2 & _). split; [done|congruence]. }
  destruct (Hall inserts) as [Hok Hcap]. destruct (insert_resolved_ok t c l now _ Hok) as ((Hnd & Hlen & _ & Hdom) & Hc & Hin).
  split_and!; [lia|done|done| |done]. rewrite <- Hcap, <- Hc. etrans; [|exact Hlen].
  match goal with |- (size (participants ?x) <= _)%nat =>
    assert (Hsub : dom (participants x) ⊆ (list_to_set (resolved_order x) : gset ConversationKey)) end.
  { intros k Hk%elem_of_dom%Hdom. by apply elem_of_list_to_set. }
  apply subseteq_size in Hsub. by rewrite size_dom, size_list_to_set in Hsub.
Qed.

(** ** Running and sending *)

Section Sends.
Context (ports : GatewayPorts).
Context (others : nat -> SubscriptionState * ResolvedConversations -> SubscriptionState * ResolvedConversations).

(** A method that sends only what [ok] allows, and whose result satisfies [Q]. *)
Definition sends {A} (m : db GatewayWorld A) (ok : Fanout -> Prop) (Q : A -> Prop) : Prop :=
  forall n w, exists new, sent (m (n, w)).2.2 = sent w ++ new /\ Forall ok new /\ (forall a, (m (n, w)).1 = Ok a -> Q a).

(** The same of one run. *)
Definition sends_at {A} (s : nat * GatewayWorld) (m : db GatewayWorld A) (ok : Fanout -> Prop) (Q : A -> Prop) : Prop :=
  exists new, sent (m s).2.2 = sent s.2 ++ new /\ Forall ok new /\ (forall a, (m s).1 = Ok a -> Q a).

Lemma sends_run {A} s (m : db GatewayWorld A) ok Q : sends m ok Q -> sends_at s m ok Q.
Proof. destruct s as [n w]. apply (fun H => H n w). Qed.

Lemma sends_quiet {A} (m : db GatewayWorld A) ok (Q : A -> Prop) :
  (forall n w, sent (m (n, w)).2.2 = sent w) -> (forall n w a, (m (n, w)).1 = Ok a -> Q a) -> sends m ok Q.
Proof. intros Hs HQ n w. exists []. split_and!; [by rewrite app_nil_r, Hs|done|by apply HQ]. Qed.

Lemma sends_ret {A} (a : A) ok (Q : A -> Prop) : Q a -> sends (mret a) ok Q.
Proof. intros Ha. apply sends_quiet; [done|]. by intros n w b [= <-]. Qed.

Lemma sends_lift {A} (r : result A) ok (Q : A -> Prop) : (forall a, r = Ok a -> Q a) -> sends (lift_r r) ok Q.
Proof. intros Hr. apply sends_quiet; [done|]. intros n w b E. by apply Hr. Qed.

Lemma sends_bind {A B} (m : db GatewayWorld A) (f : A -> db GatewayWorld B) ok Q1 Q :
  sends m ok Q1 -> (forall a, Q1 a -> sends (f a) ok Q) -> sends (x ← m; f x) ok Q.
Proof.
  intros Hm Hf n w. unfold mbind, stE_bind. destruct (Hm n w) as (k1 & E1 & F1 & HQ1).
  destruct (m (n, w)) as [[a|e] [n1 w1]] eqn:Em; cbn in *.
  - destruct (Hf a (HQ1 a eq_refl) n1 w1) as (k2 & E2 & F2 & HQ2). exists (k1 ++ k2).
    split_and!; [by rewrite E2, E1, app_assoc|by apply Forall_app|done].
  - exists k1. split_and!; [done|done|by intros a].
Qed.

Lemma sends_at_bind {A B} s (m : db GatewayWorld A) (f : A -> db GatewayWorld B) ok Q1 Q :
  sends_at s m ok Q1 -> (forall a, Q1 a -> sends (f a) ok Q) -> sends_at s (x ← m; f x) ok Q.
Proof.
  intros (k1 & E1 & F1 & HQ1) Hf. unfold sends_at, mbind, stE_bind.
  destruct (m s) as [[a|e] [n1 w1]] eqn:Em; cbn in *.
  - destruct (Hf a (HQ1 a eq_refl) n1 w1) as (k2 & E2 & F2 & HQ2). exists (k1 ++ k2).
    split_and!; [by rewrite E2, E1, app_assoc|by apply Forall_app|done].
  - exists k1. split_and!; [done|done|by intros a].
Qed.

Lemma sends_at_read {A} n w (f : GatewayWorld -> db GatewayWorld A) ok Q :
  sends_at (n, w) (f w) ok Q -> sends_at (n, w) (x ← read_gateway; f x) ok Q.
Proof. done. Qed.

(** A check first. *)
Lemma sends_at_checked {A B} s (r : result A) (f : A -> db GatewayWorld B) ok Q :
  (forall a, r = Ok a -> sends_at s (f a) ok Q) -> sends_at s (x ← lift_r r; f x) ok Q.
Proof.
  intros Hf. unfold sends_at, mbind, stE_bind, lift_r. destruct r as [a|e]; [by apply Hf|]. exists []. cbn. by rewrite app_nil_r.
Qed.

Lemma sends_on_result {A B} (m : db GatewayWorld A) (f : A -> db GatewayWorld B) (g : FlareError -> db GatewayWorld B) ok Q1 Q :
  sends m ok Q1 -> (forall a, Q1 a -> sends (f a) ok Q) -> (forall e, sends (g e) ok Q) -> sends (on_result m f g) ok Q.
Proof.
  intros Hm Hf Hg n w. unfold on_result. destruct (Hm n w) as (k1 & E1 & F1 & HQ1).
  destruct (m (n, w)) as [[a|e] [n1 w1]] eqn:Em; cbn in *; [destruct (Hf a (HQ1 a eq_refl) n1 w1) as (k2 & E2 & F2 & HQ2)|
    destruct (Hg e n1 w1) as (k2 & E2 & F2 & HQ2)]; exists (k1 ++ k2);
    (split_and!; [by rewrite E2, E1, app_assoc|by apply Forall_app|done]).
Qed.

Lemma sends_await ok : sends (await others) ok (fun _ => True).
Proof. apply sends_quiet; [|done]. intros n w. unfold await. by destruct (others n _). Qed.

Lemma sends_ask {A} (r : result A) ok (Q : A -> Prop) : (forall a, r = Ok a -> Q a) -> sends (ask others r) ok Q.
Proof. intros Hr. eapply sends_bind; [apply sends_await|]. intros _ _. by apply sends_lift. Qed.

Lemma sends_read ok : sends read_gateway ok (fun _ => True).
Proof. by apply sends_quiet. Qed.

Lemma sends_subscriptions f ok : sends (on_subscriptions f) ok (fun _ => True).
Proof. by apply sends_quiet. Qed.

Lemma sends_cache f ok : sends (on_cache f) ok (fun _ => True).
Proof. by apply sends_quiet. Qed.

Lemma unseen_elem seen l c : c ∈ unseen seen l <-> c ∈ l /\ c ∉ seen.
Proof.
  revert seen. induction l as [|x l IH]; intros seen; cbn; [set_solver|]. case_decide; [rewrite IH; set_solver|].
  rewrite elem_of_cons, IH. destruct (decide (c = x)); set_solver.
Qed.

Lemma unseen_NoDup seen l : NoDup (unseen seen l).
Proof.
  revert seen. induction l as [|x l IH]; intros seen; cbn; [constructor|]. case_decide; [apply IH|].
  constructor; [|apply IH]. rewrite unseen_elem. set_solver.
Qed.

Lemma sends_push connections payload (ok : Fanout -> Prop) :
  (forall l, NoDup l -> (forall c, c ∈ l <-> c ∈ connections) -> ok (mkFanout l payload)) ->
  sends (push_payload_to_connections ports others connections payload) ok (fun _ => True).
Proof.
  intros Hok. unfold push_payload_to_connections.
  pose proof (unseen_NoDup ∅ connections) as Hnd. pose proof (fun c => unseen_elem ∅ connections c) as Hel.
  destruct (unseen ∅ connections) as [|x l]; [by apply sends_ret|].
  eapply sends_bind; [apply sends_await|]. intros _ _. destruct (server_handle ports) as [send|]; [|by apply sends_lift].
  intros n w. exists [mkFanout (x :: l) payload]. split_and!; [done| |done]. apply Forall_singleton. apply Hok; [done|].
  intros c. rewrite Hel. set_solver.
Qed.

(** ** Who is a member *)

(** Connections of current members, as the two ports answer. *)
Definition member_connection (tx : Ctx) (members : list string) (c : string) : Prop :=
  exists u ids, u ∈ members /\ list_user_connection_ids ports tx u = Ok ids /\ c ∈ ids.

Lemma mapM_ok {A B} (f : A -> result B) l k : mapM f l = Ok k -> Forall2 (fun a b => f a = Ok b) l k.
Proof.
  revert k. induction l as [|a l IH]; intros k; cbn; [intros [= <-]; constructor|].
  destruct (f a) as [b|] eqn:Ef; [|done]. cbn. destruct (mapM f l) as [bs|]; [|done]. cbn. intros [= <-]. constructor; [done|by apply IH].
Qed.

Lemma lookup_chunks_members tx cs found members ok :
  (forall u, u ∈ mjoin cs -> u ∈ members) -> (forall c, c ∈ found -> member_connection tx members c) ->
  sends (lookup_chunks ports others tx cs found) ok (fun a => forall c, c ∈ a -> member_connection tx members c).
Proof.
  revert found. induction cs as [|chunk cs IH]; intros found Hcs Hf; [by apply sends_ret|]. cbn [lookup_chunks].
  eapply sends_bind; [apply (sends_ask _ _ (fun ids => mapM (list_user_connection_ids ports tx) chunk = Ok ids)); done|].
  intros ids Hids. apply IH; [intros u Hu; apply Hcs; set_solver|]. intros c [Hc|Hc]%elem_of_union; [by apply Hf|].
  apply elem_of_list_to_set, list_elem_of_join in Hc as (l & Hcl & Hl). apply list_elem_of_lookup in Hl as [i Hi].
  destruct (Forall2_lookup_r _ _ _ _ _ (mapM_ok _ _ _ Hids) Hi) as (u & Hu & Hul).
  exists u, l. split_and!; [|done|done]. apply Hcs. cbn. apply list_elem_of_lookup_2 in Hu. set_solver.
Qed.

Lemma chunks_elem (members : list string) u : u ∈ mjoin (chunks SUBSCRIBE_LOOKUP_CONCURRENCY members) <-> u ∈ members.
Proof. rewrite chunks_join; [done|]. unfold SUBSCRIBE_LOOKUP_CONCURRENCY. lia. Qed.

(** What the delivery is allowed to reach. *)
Definition authorized (tx : Ctx) (conversation : string) (a : option (gset string)) : Prop :=
  match a with
  | None => is_sync_inbox_conversation_id conversation = true
  | Some a => exists members, list_participants ports tx conversation = Ok members /\ forall c, c ∈ a -> member_connection tx members c
  end.

Lemma ensure_authorized tx tenant conversation ok :
  sends (ensure_conversation_members_subscribed ports others tx tenant conversation) ok (authorized tx conversation).
Proof.
  unfold ensure_conversation_members_subscribed. destruct (is_sync_inbox_conversation_id conversation) eqn:Es; [by apply sends_ret|].
  eapply sends_bind; [apply (sends_ask _ _ (fun l => list_participants ports tx conversation = Ok l)); done|]. intros current Hcur.
  eapply sends_bind; [apply sends_read|]. intros w _. cbn zeta.
  eapply (sends_bind _ _ _ (fun l => l = current)).
  { assert (Hins : sends (_ ← on_cache (insert_resolved tenant conversation current (clock ports)); mret current) ok (fun l => l = current)).
    { eapply sends_bind; [apply sends_cache|]. intros _ _. by apply sends_ret. }
    destruct (get_fresh _ _ _ _ _ _) as [l|]; [|done]. case_bool_decide; [by apply sends_ret|done]. }
  intros l ->. eapply sends_bind; [apply sends_read|]. intros w' _. cbn zeta.
  eapply sends_bind; [apply (lookup_chunks_members tx _ _ current); [intros u Hu; apply chunks_elem; exact Hu|set_solver]|]. intros a Ha.
  do 2 (eapply sends_bind; [apply sends_subscriptions|]; intros _ _). apply sends_ret. exists current. done.
Qed.

Lemma live_loop_exists tenant conversation l ok :
  sends (live_loop ports others tenant conversation l) ok (fun live => forall c, c ∈ live -> connection_exists ports c = true /\ c ∈ l).
Proof.
  induction l as [|x l IH]; [apply sends_ret; set_solver|]. cbn [live_loop].
  eapply sends_bind; [apply sends_await|]. intros _ _. destruct (connection_exists ports x) eqn:Ex.
  - eapply sends_bind; [exact IH|]. intros live Hl. apply sends_ret.
    intros c [->|Hc]%elem_of_cons; [split; [done|left]|]. destruct (Hl c Hc). split; [done|by right].
  - eapply sends_bind; [apply sends_subscriptions|]. intros _ _ n w. destruct (IH n w) as (new & E & F & HQ).
    exists new. split_and!; [done|done|]. intros live Hl c Hc. destruct (HQ live Hl c Hc). split; [done|by right].
Qed.

(** A frame of a delivery: to connections that exist, once each, of current members; an inbox has
    no member list, its frames go to the connections that subscribed to it. *)
Definition delivery_ok (tx : Ctx) (subs : SubscriptionState) (conversation : string) (payload : ClientPayload) (f : Fanout) : Prop :=
  fan_payload f = payload /\ NoDup (fan_connections f) /\
  (forall c, c ∈ fan_connections f -> connection_exists ports c = true) /\
  exists tenant, ctx_tenant_id tx = Some tenant /\ canonical_tenant tenant = true /\
    if is_sync_inbox_conversation_id conversation
    then forall c, c ∈ fan_connections f -> c ∈ local_subscribers tenant conversation subs
    else exists members, list_participants ports tx conversation = Ok members /\
      forall c, c ∈ fan_connections f -> member_connection tx members c.

Lemma deliver_ok tx conversation payload s :
  sends_at s (deliver_to_conversation ports others tx conversation payload)
    (delivery_ok tx (subscriptions s.2) conversation payload) (fun _ => True).
Proof.
  unfold deliver_to_conversation. destruct (ctx_tenant_id tx) as [tenant|] eqn:Et; [|by apply sends_run, sends_lift].
  destruct (canonical_tenant tenant) eqn:Ec; [|by apply sends_run, sends_lift]. cbn [negb].
  assert (Hpush : forall cs (ok : Fanout -> Prop), (forall l, NoDup l -> (forall c, c ∈ l <-> c ∈ cs) -> ok (mkFanout l payload)) ->
    sends (if bool_decide (cs = []) then mret (0, 0) else push_payload_to_connections ports others cs payload) ok (fun _ => True)).
  { intros cs ok Hok. case_bool_decide; [by apply sends_ret|by apply sends_push]. }
  destruct s as [n w]. cbn [snd]. destruct (is_sync_inbox_conversation_id conversation) eqn:Ei.
  - unfold ensure_conversation_members_subscribed. rewrite Ei.
    change (sends_at (n, w) (live ← live_loop ports others tenant conversation (local_subscribers tenant conversation (subscriptions w));
      if bool_decide (live = []) then mret (0, 0) else push_payload_to_connections ports others live payload)
      (delivery_ok tx (subscriptions w) conversation payload) (fun _ => True)).
    eapply sends_at_bind; [apply sends_run, live_loop_exists|]. intros live Hlive. apply Hpush. intros l Hnd Hl.
    split_and!; cbn; [done|done|by intros c Hc%Hl; apply Hlive|]. exists tenant. rewrite Ei. split_and!; [done|done|].
    intros c Hc%Hl. by apply Hlive.
  - apply sends_run. eapply sends_bind; [apply ensure_authorized|]. intros a Ha.
    eapply (sends_bind _ _ _ (fun live => forall c, c ∈ live -> connection_exists ports c = true)).
    { eapply sends_bind; [apply sends_read|]. intros w' _ n0 w0.
      destruct (live_loop_exists tenant conversation (local_subscribers tenant conversation (subscriptions w'))
        (delivery_ok tx (subscriptions w) conversation payload) n0 w0) as (new & E & F & HQ).
      exists new. split_and!; [done|done|]. intros live Hl c Hc. by apply (HQ live Hl). }
    intros live Hlive. cbn zeta. destruct a as [a|]; [|cbn in Ha; congruence]. apply Hpush. intros l Hnd Hl.
    split_and!; cbn; [done|done| |].
    + intros c [_ Hc]%Hl%list_elem_of_filter. by apply (Hlive c Hc).
    + exists tenant. rewrite Ei. split_and!; [done|done|]. destruct Ha as (members & Hm & Ha). exists members. split; [done|].
      intros c [Hc _]%Hl%list_elem_of_filter. by apply Ha.
Qed.

End Sends.

(** ** Who gets what, RPC by RPC *)

Ltac unfold_rpc :=
  unfold rpc, deliver_to_conversation_rpc, push_notification_rpc, push_ack_rpc, push_custom_rpc, push_capability_rpc, as_producer.

Section Rpc.
Context (ports : GatewayPorts).
Context (others : nat -> SubscriptionState * ResolvedConversations -> SubscriptionState * ResolvedConversations).

(** What a delivery sends down. *)
Definition delivered_payload (body : DeliverToConversationRequest) : result ClientPayload :=
  match dl_payload body with
  | Some (DeliverMessages messages) => Ok (MessagePush messages)
  | Some (DeliverEvents events mode truncated) =>
      envelope ← build_event_envelope events (new_window_id ports) (dl_conversation_id body) 0 mode truncated; Ok (EnvelopePush envelope)
  | Some (DeliverPing seq mode truncated) =>
      envelope ← build_event_envelope [] (new_window_id ports) (dl_conversation_id body) seq mode truncated; Ok (EnvelopePush envelope)
  | None => Err (flare_err InvalidParameter "")
  end.

(** Everything in a payload is of one conversation. *)
Definition payload_of (conversation : string) (payload : ClientPayload) : Prop :=
  match payload with
  | MessagePush messages => forall m, m ∈ messages -> conversation_id m = conversation
  | EnvelopePush e => env_conversation_id e = conversation /\ forall ev, ev ∈ env_events e -> pe_conversation_id ev = conversation
  | _ => False
  end.

Lemma envelope_of events window conversation hint mode truncated e :
  build_event_envelope events window conversation hint mode truncated = Ok e ->
  env_events e = events /\ envelope_conversation events conversation = Some (env_conversation_id e).
Proof.
  unfold build_event_envelope. destruct (envelope_conversation _ _) as [c|]; [|done]. destruct (existsb _ _); [done|]. cbn zeta.
  destruct (_ && _); [done|]. destruct (resolve_event_envelope_delivery_mode _ _); [|done]. by intros [= <-].
Qed.

Lemma existsb_no {A} (f : A -> bool) l a : existsb f l = false -> a ∈ l -> f a = false.
Proof.
  intros Hf Ha. destruct (f a) eqn:E; [|done]. assert (Ht : existsb f l = true) by (apply existsb_exists; exists a; by rewrite <- list_elem_of_In).
  congruence.
Qed.

Lemma valid_payload body payload :
  validate_delivery_body body = None -> delivered_payload body = Ok payload -> payload_of (dl_conversation_id body) payload.
Proof.
  unfold validate_delivery_body, delivered_payload. cbn zeta. destruct (Str.is_empty (dl_conversation_id body)) eqn:Ee; [done|]. cbn [orb].
  case_bool_decide as Et; [|done]. cbn [negb].
  assert (Henv : forall events window hint mode truncated e, (forall ev, ev ∈ events -> pe_conversation_id ev = dl_conversation_id body) ->
    build_event_envelope events window (dl_conversation_id body) hint mode truncated = Ok e -> payload_of (dl_conversation_id body) (EnvelopePush e)).
  { intros events window hint mode truncated e Hall Hb. destruct (envelope_of _ _ _ _ _ _ _ Hb) as [He Hc]. cbn. rewrite He. split; [|done].
    unfold envelope_conversation in Hc. destruct events as [|e0 es]; [|rewrite (Hall e0) in Hc by left]; rewrite ?Et, ?Ee in Hc; cbn in Hc;
      rewrite ?Et, ?Ee in Hc; by injection Hc as <-. }
  destruct (dl_payload body) as [[[|m ms]|[|e es] mode tr|seq mode tr]|]; try done.
  - destruct (existsb _ (m :: ms)) eqn:Ex; [done|]. intros _ [= <-]. intros m' Hm'.
    pose proof (existsb_no _ _ _ Ex Hm') as Hn. cbn in Hn. by apply negb_false_iff, bool_decide_eq_true in Hn.
  - destruct (existsb _ (e :: es)) eqn:Ex; [done|]. intros _ Hp. destruct (build_event_envelope _ _ _ _ _ _) as [env|] eqn:Eb; [|done].
    cbn in Hp. injection Hp as <-. eapply Henv; [|exact Eb]. intros ev Hev.
    pose proof (existsb_no _ _ _ Ex Hev) as Hn. cbn in Hn. by apply negb_false_iff, bool_decide_eq_true in Hn.
  - intros _ Hp. destruct (build_event_envelope _ _ _ _ _ _) as [env|] eqn:Eb; [|done].
    cbn in Hp. injection Hp as <-. eapply Henv; [|exact Eb]. by intros ev ?%elem_of_nil.
Qed.

(** Connections of the users a request names, on the devices and platforms it names. *)
Definition user_connection (ctx : Ctx) (users : list string) (o : PushOptions) (c : string) : Prop :=
  exists u l info, u ∈ users /\ query_user_connections ports ctx u = Ok l /\ info ∈ filter_connections o l /\ conn_id info = c.

(** What a request of the push worker may send, while the registry is [subs]. *)
Definition allowed_frame (subs : SubscriptionState) (ctx : Ctx) (r : GatewayRequest) (f : Fanout) : Prop :=
  match r with
  | GwDeliver body =>
      exists payload, delivered_payload body = Ok payload /\ payload_of (dl_conversation_id body) payload /\
        delivery_ok ports ctx subs (dl_conversation_id body) payload f
  | GwAck req =>
      exists ack, pa_ack req = Some ack /\ fan_payload f = AckPush ack /\
        forall c, c ∈ fan_connections f -> user_connection ctx (pa_user_ids req) (default default_options (pa_options req)) c
  | GwCapability req =>
      exists packet, pk_packet req = Some packet /\ fan_payload f = CapabilityPush packet /\
        forall c, c ∈ fan_connections f -> user_connection ctx (pk_user_ids req) (default default_options (pk_options req)) c
  | GwNotification _ | GwCustom _ => False
  end.

Lemma sends_mono {A} (m : db GatewayWorld A) (ok ok' : Fanout -> Prop) Q :
  (forall f, ok f -> ok' f) -> sends m ok Q -> sends m ok' Q.
Proof. intros Hok Hm n w. destruct (Hm n w) as (new & E & F & HQ). exists new. split_and!; [done|by eapply Forall_impl|done]. Qed.

Lemma sends_answer {A} (m : db GatewayWorld A) ok Q : sends m ok Q -> sends (answer m) ok (fun _ => True).
Proof. intros Hm. eapply sends_on_result; [exact Hm|intros; by apply sends_ret|intros; by apply sends_ret]. Qed.

Lemma sends_each_user (row : string -> db GatewayWorld UserRow) users ok :
  (forall u, u ∈ users -> sends (row u) ok (fun _ => True)) -> sends (each_user row users) ok (fun _ => True).
Proof.
  induction users as [|u users IH]; intros Hrow; [by apply sends_ret|]. cbn [each_user].
  assert (Hrest : sends (each_user row users) ok (fun _ => True)) by (apply IH; intros v Hv; apply Hrow; by right).
  eapply sends_on_result; [apply Hrow; left| |].
  - intros r _. eapply sends_bind; [exact Hrest|]. intros rs _. by apply sends_ret.
  - intros e. eapply (sends_bind _ _ _ (fun _ => True)); [|intros _ _; by apply sends_lift].
    intros n w. destruct (Hrest n w) as (new & E & F & _). exists new. unfold log_error. cbn. split_and!; [|done|done].
    by destruct (each_user row users (n, w)) as [? [? ?]].
Qed.

(** The frames to one user. *)
Definition user_frame (ctx : Ctx) (u : string) (o : PushOptions) (payload : ClientPayload) (f : Fanout) : Prop :=
  fan_payload f = payload /\ forall c, c ∈ fan_connections f -> user_connection ctx [u] o c.

Lemma sends_to_user ctx u o payload (finish : list ConnectionInfo -> db GatewayWorld UserRow) ok :
  (forall f, user_frame ctx u o payload f -> ok f) ->
  (forall l, (exists all, query_user_connections ports ctx u = Ok all /\ l = filter_connections o all) ->
     (finish l = (outcome ← push_payload_to_connections ports others (conn_id <$> l) payload; mret (mkUserRow u outcome.1 outcome.2 0))) \/
     exists r, finish l = mret r) ->
  sends (l ← get_filtered_connections ports others ctx u o; finish l) ok (fun _ => True).
Proof.
  intros Hok Hfin. eapply (sends_bind _ _ _ (fun l => exists all, query_user_connections ports ctx u = Ok all /\ l = filter_connections o all)).
  { unfold get_filtered_connections. eapply sends_bind; [apply (sends_ask _ _ _ (fun l => query_user_connections ports ctx u = Ok l)); done|].
    intros all Hall. apply sends_ret. by exists all. }
  intros l Hl. destruct (Hfin l Hl) as [-> |[r ->]]; [|by apply sends_ret]. destruct Hl as (all & Hall & ->).
  eapply sends_bind; [apply sends_push|intros; by apply sends_ret]. intros l' _ Hl'. apply Hok. split; [done|]. cbn.
  intros c Hc%Hl'. apply list_elem_of_fmap in Hc as (info & -> & Hinfo). exists u, all, info. split_and!; [left|done..].
Qed.

Lemma sends_to_users ctx users o payload ok :
  (forall f u, u ∈ users -> user_frame ctx u o payload f -> ok f) ->
  sends (push_encoded_payload_to_users ports others ctx users o payload) ok (fun _ => True).
Proof.
  intros Hok. apply sends_each_user. intros u Hu. unfold push_encoded_payload_to_user.
  eapply (sends_bind _ _ _ (fun _ => True)); [by apply sends_lift|]. intros _ _.
  eapply sends_to_user; [by intros f; apply Hok|]. intros l _. case_bool_decide; [right; eauto|by left].
Qed.

Lemma user_frame_named ctx users o payload f u :
  u ∈ users -> user_frame ctx u o payload f -> fan_payload f = payload /\ forall c, c ∈ fan_connections f -> user_connection ctx users o c.
Proof.
  intros Hu [Hp Hc]. split; [done|]. intros c Hin. destruct (Hc c Hin) as (v & l & info & ->%list_elem_of_singleton & ?).
  exists u, l, info. done.
Qed.

Lemma deliver_body_ok ctx body s :
  validate_delivery_body body = None ->
  sends_at s (handle_deliver_to_conversation ports others ctx body) (allowed_frame (subscriptions s.2) ctx (GwDeliver body)) (fun _ => True).
Proof.
  intros Hv. unfold handle_deliver_to_conversation. cbn zeta. destruct (Str.is_blank _); [by apply sends_run, sends_lift|].
  eapply (sends_at_bind _ _ _ _ (fun _ => True)); [|intros [p q] _; cbn; destruct (0 <? q); [by apply sends_lift|by apply sends_ret]].
  set (ok := allowed_frame (subscriptions s.2) ctx (GwDeliver body)).
  assert (Hd : forall payload, delivered_payload body = Ok payload ->
    sends_at s (deliver_to_conversation ports others ctx (dl_conversation_id body) payload) ok (fun _ => True)).
  { intros payload Hp. destruct (deliver_ok ports others ctx (dl_conversation_id body) payload s) as (new & E & F & HQ).
    exists new. split_and!; [done| |done]. eapply Forall_impl; [exact F|]. intros f Hf. exists payload. split_and!; [done|by apply valid_payload|done]. }
  assert (He : forall events window hint mode truncated,
    (forall e, build_event_envelope events window (dl_conversation_id body) hint mode truncated = Ok e -> delivered_payload body = Ok (EnvelopePush e)) ->
    sends_at s (deliver_event_envelope_to_conversation ports others ctx (dl_conversation_id body) events window hint mode truncated)
      ok (fun _ => True)).
  { intros events window hint mode truncated Hb. apply sends_at_checked. intros e Hb'. by apply Hd, Hb. }
  clearbody ok. unfold delivered_payload in *.
  destruct (dl_payload body) as [[ms|es mode tr|seq mode tr]|]; [| | |by apply sends_run, sends_lift].
  - destruct ms; [by apply sends_run, sends_lift|]. by apply Hd.
  - destruct es; [by apply sends_run, sends_lift|]. apply He. intros e E. by rewrite E.
  - destruct (0 <? seq); [|by apply sends_run, sends_lift]. apply He. intros e E. by rewrite E.
Qed.

(** A caller who is no producer is refused. *)
Lemma rpc_refused identity r code : require_push_producer ports identity = inr code -> rpc ports others identity r = refuse code.
Proof. intros Hp. destruct r; cbn; unfold_rpc; by rewrite Hp. Qed.

Lemma refuse_sends c ok : sends (refuse c) ok (fun _ => True).
Proof. by apply sends_ret. Qed.

Lemma answer_at {A} s (m : db GatewayWorld A) ok Q : sends_at s m ok Q -> sends_at s (answer m) ok (fun _ => True).
Proof.
  intros (new & E & F & _). exists new. unfold answer, on_result. destruct (m s) as [[a|e] [n' w']]; by split_and!.
Qed.

Lemma rpc_allowed identity r ctx s :
  require_push_producer ports identity = inl ctx ->
  sends_at s (rpc ports others identity r) (allowed_frame (subscriptions s.2) ctx r) (fun _ => True).
Proof.
  intros Hp. unfold_rpc. rewrite Hp. destruct r as [body|req|req|req|req].
  - destruct (validate_delivery_body body) eqn:Ev; [apply sends_run, refuse_sends|]. eapply answer_at, deliver_body_ok, Ev.
  - apply sends_run. destruct (pn_notification req); [|apply refuse_sends]. eapply sends_answer. by apply (sends_ret _ _ (fun _ => True)).
  - apply sends_run. destruct (pa_ack req) as [ack|] eqn:Ea; [|apply refuse_sends]. eapply sends_answer. unfold handle_push_ack. case_bool_decide; [by apply (sends_lift _ _ (fun _ => True))|].
    eapply sends_bind; [apply sends_to_users|intros rows _; by apply (sends_ret _ _ (fun _ => True))].
    intros f u Hu Hf. cbn. exists ack. split; [done|]. by eapply user_frame_named.
  - apply sends_run. destruct (pc_custom_data req); [|apply refuse_sends]. eapply sends_answer. by apply (sends_ret _ _ (fun _ => True)).
  - apply sends_run. unfold validate_capability_push. destruct (pk_packet req) as [packet|] eqn:Ek; [|apply refuse_sends].
    destruct (Str.is_blank _); [apply refuse_sends|]. destruct (_ || _); [apply refuse_sends|]. eapply sends_answer. unfold handle_push_capability, push_capability_to_users.
    eapply sends_bind; [|intros rows _; by apply (sends_ret _ _ (fun _ => True))].
    eapply (sends_bind _ _ _ (fun _ => True)); [by apply sends_lift|]. intros _ _. apply sends_each_user. intros u Hu.
    eapply sends_to_user; [|intros l _; case_bool_decide; [right; eauto|by left]].
    intros f Hf. exists packet. split; [done|]. by eapply user_frame_named.
Qed.

(** Messages and events for users: what the request holds, down the connections of the users it names. *)
Definition message_frame (ctx : Ctx) (req : PushMessageRequest) (f : Fanout) : Prop :=
  fan_payload f = MessagePush (pm_messages req) /\
  (forall c, c ∈ fan_connections f -> user_connection ctx (pm_user_ids req) (default default_options (pm_options req)) c) /\
  forall m, m ∈ pm_messages req -> Str.is_blank (conversation_id m) = false.

Definition event_frame (ctx : Ctx) (req : PushEventRequest) (f : Fanout) : Prop :=
  exists e, fan_payload f = EnvelopePush e /\ env_events e = pr_events req /\
    (forall ev, ev ∈ pr_events req -> Str.trim (pe_conversation_id ev) = env_conversation_id e) /\
    (Str.is_empty (pr_conversation_id req) = false -> forall ev, ev ∈ pr_events req -> pe_conversation_id ev = pr_conversation_id req) /\
    forall c, c ∈ fan_connections f -> user_connection ctx (pr_user_ids req) (default default_options (pr_options req)) c.

Lemma push_message_allowed identity req ctx :
  require_push_producer ports identity = inl ctx -> sends (push_message_rpc ports others identity req) (message_frame ctx req) (fun _ => True).
Proof.
  intros Hp. unfold push_message_rpc, as_producer. rewrite Hp. destruct (existsb _ _) eqn:Ex; [apply refuse_sends|]. eapply sends_answer.
  unfold handle_push_message. case_bool_decide; [by apply (sends_lift _ _ (fun _ => True))|]. case_bool_decide; [by apply (sends_lift _ _ (fun _ => True))|].
  eapply sends_bind; [apply sends_to_users|intros rows _; destruct (0 <? _); [by apply (sends_lift _ _ (fun _ => True))|by apply sends_ret]].
  intros f u Hu Hf. destruct (user_frame_named _ _ _ _ _ _ Hu Hf) as [Hpay Hc]. split_and!; [done|done|].
  intros m Hm. by apply (existsb_no _ _ _ Ex Hm).
Qed.

Lemma envelope_uniform events window conversation hint mode truncated e :
  build_event_envelope events window conversation hint mode truncated = Ok e ->
  forall ev, ev ∈ events -> Str.trim (pe_conversation_id ev) = env_conversation_id e.
Proof.
  unfold build_event_envelope. destruct (envelope_conversation _ _) as [c|]; [|done]. destruct (existsb _ events) eqn:Ex; [done|]. cbn zeta.
  destruct (_ && _); [done|]. destruct (resolve_event_envelope_delivery_mode _ _); [|done]. intros [= <-] ev Hev. cbn.
  pose proof (existsb_no _ _ _ Ex Hev) as Hn. cbn in Hn. by apply negb_false_iff, bool_decide_eq_true in Hn.
Qed.

Lemma push_event_allowed identity req ctx :
  require_push_producer ports identity = inl ctx -> sends (push_event_rpc ports others identity req) (event_frame ctx req) (fun _ => True).
Proof.
  intros Hp. unfold push_event_rpc, as_producer. rewrite Hp. destruct (existsb _ _); [apply refuse_sends|].
  destruct (negb _ && _) eqn:Ex; [apply refuse_sends|]. eapply sends_answer.
  unfold handle_push_event. case_bool_decide; [by apply (sends_lift _ _ (fun _ => True))|].
  match goal with |- sends (if ?b then _ else _) _ _ => destruct b; [by apply (sends_lift _ _ (fun _ => True))|] end.
  eapply sends_bind; [by apply (sends_lift _ _ (fun e => build_event_envelope (pr_events req) (new_window_id ports) (pr_conversation_id req)
    (pr_max_conversation_seq req) (pr_delivery_mode req) (pr_inline_events_truncated req) = Ok e))|]. intros e He.
  eapply sends_bind; [apply sends_to_users|intros rows _; destruct (0 <? _); [by apply (sends_lift _ _ (fun _ => True))|by apply sends_ret]].
  intros f u Hu Hf. destruct (user_frame_named _ _ _ _ _ _ Hu Hf) as [Hpay Hc]. exists e.
  destruct (envelope_of _ _ _ _ _ _ _ He) as [Hev _]. split_and!; [done|done|exact (envelope_uniform _ _ _ _ _ _ _ He)| |exact Hc].
  intros Hne ev Hin. rewrite Hne in Ex. cbn [negb andb] in Ex. pose proof (existsb_no _ _ _ Ex Hin) as Hn. cbn in Hn. by apply negb_false_iff, bool_decide_eq_true in Hn.
Qed.

(** A relayed signal goes to the subscribers of its conversation. *)
Definition relay_frame (subs : SubscriptionState) (ctx : Ctx) (body : RelayRealtimeControlRequest) (f : Fanout) : Prop :=
  fan_payload f = RelayedPacket (rl_packet body) /\
  exists tenant, ctx_tenant_id ctx = Some tenant /\ canonical_tenant tenant = true /\
    forall c, c ∈ fan_connections f -> c ∈ local_subscribers tenant (rl_conversation_id body) subs.

Lemma relay_allowed codec identity body ctx s :
  require_relay ports codec identity body = inl ctx ->
  sends_at s (relay_realtime_control_rpc ports others codec identity body) (relay_frame (subscriptions s.2) ctx body) (fun _ => True).
Proof.
  intros Hp. unfold relay_realtime_control_rpc. rewrite Hp.
  eapply (sends_at_bind _ _ _ _ (fun _ => True)); [|intros _ _; by apply sends_ret]. unfold relay_locally.
  destruct (Str.is_empty _); [by apply sends_run, sends_ret|]. destruct (ctx_tenant_id ctx) as [tenant|] eqn:Et; [|by apply sends_run, sends_ret].
  destruct (canonical_tenant tenant) eqn:Ec; [|by apply sends_run, sends_ret]. cbn [negb]. destruct s as [n w]. cbn [snd].
  apply sends_at_read. apply sends_run. case_bool_decide; [by apply sends_ret|].
  eapply sends_on_result; [apply sends_push|intros; by apply sends_ret|intros; by apply sends_ret].
  intros l _ Hl. split; [done|]. exists tenant. split_and!; [done|done|]. cbn. intros c Hc%Hl. by apply list_elem_of_filter in Hc as [_ Hc].
Qed.

End Rpc.

(** A caller the gateway takes pushes from: the push worker, for a tenant in canonical form. *)
Definition push_worker (ctx : Ctx) : Prop :=
  exists claims, ctx_claims ctx = Some claims /\ actor_type claims = ActService /\ actor_id claims = "flare-push-worker" /\
    canonical_tenant (claims_tenant_id claims) = true.

Lemma required_producer ports identity ctx : require_push_producer ports identity = inl ctx -> push_worker ctx.
Proof.
  unfold require_push_producer. destruct (identity_verifier ports) as [verify|]; [|done]. destruct (verify identity) as [c|]; [|done].
  destruct (ctx_claims c) as [claims|] eqn:Ec; [|done]. destruct (validate_push_producer_claims claims) eqn:Ev; [|done]. intros [= <-].
  unfold validate_push_producer_claims in Ev. apply andb_true_iff in Ev as [[E1%bool_decide_eq_true E2%bool_decide_eq_true]%andb_true_iff E3].
  by exists claims.
Qed.

(** A caller the gateway takes relayed signals from: another gateway, for a user of a tenant in
    canonical form, with a token for exactly this conversation and packet. *)
Definition peer_gateway (codec : RelayCodec) (body : RelayRealtimeControlRequest) (ctx : Ctx) : Prop :=
  exists claims, ctx_claims ctx = Some claims /\ actor_type claims = ActUser /\ credential_id claims = Some "signaling-gateway" /\
    canonical_tenant (claims_tenant_id claims) = true /\
    request_id claims = relay_body_request_id codec (rl_conversation_id body) (rl_packet body).

Lemma required_peer ports codec identity body ctx : require_relay ports codec identity body = inl ctx -> peer_gateway codec body ctx.
Proof.
  unfold require_relay. destruct (identity_verifier ports) as [verify|]; [|done]. destruct (verify identity) as [c|]; [|done].
  destruct (ctx_claims c) as [claims|] eqn:Ec; [|done]. destruct (validate_realtime_relay_body codec claims body) eqn:Ev; [done|]. intros [= <-].
  unfold validate_realtime_relay_body in Ev. cbn zeta in Ev. destruct (_ || _) eqn:E1 in Ev; [done|]. destruct (_ || _) eqn:E2 in Ev; [done|].
  destruct (negb _) eqn:E3 in Ev; [done|]. exists claims. apply orb_false_iff in E1 as [[[E1 E4]%orb_false_iff _]%orb_false_iff E5].
  apply negb_false_iff in E1, E3, E4, E5. apply bool_decide_eq_true in E1, E3, E4. done.
Qed.

(** Who asked, and what may be sent for it. *)
Definition granted (ports : GatewayPorts) (codec : RelayCodec) (identity : option SignedContextClaims) (subs : SubscriptionState)
    (r : AccessGatewayRequest) (f : Fanout) : Prop :=
  match r with
  | AgWorker r => exists ctx, require_push_producer ports identity = inl ctx /\ push_worker ctx /\ allowed_frame ports subs ctx r f
  | AgMessage req => exists ctx, require_push_producer ports identity = inl ctx /\ push_worker ctx /\ message_frame ports ctx req f
  | AgEvent req => exists ctx, require_push_producer ports identity = inl ctx /\ push_worker ctx /\ event_frame ports ctx req f
  | AgRelay body => exists ctx, require_relay ports codec identity body = inl ctx /\ peer_gateway codec body ctx /\ relay_frame subs ctx body f
  end.

