(* ===== verification/GatewayReach.v ===== *)
(** * Deliveries reach the members

    What a gateway sends when the services it asks answer, and the way of an event from the push
    server through the push worker to the connections of the members of its conversation. *)

From S2P Require Import Prelude.
From S2P Require Import Proto.
From S2P Require Import Tenant.
From S2P Require Import Database.
From S2P Require Import Submission.
From S2P Require Import PushTypes.
From S2P Require Import PushRouter.
From S2P Require Import PushRouterFacts.
From S2P Require Import PushWorker.
From S2P Require Import PushWorkerFacts.
From S2P Require Import PushDelivery.
From S2P Require Import GatewaySubscriptions.
From S2P Require Import GatewayPush.
From S2P Require Import GatewayPushFacts.
From stdpp Require Import base gmap sets strings list.
From Stdlib Require Import ZArith Lia.

Open Scope Z_scope.

Section Reach.
Context (ports : GatewayPorts).
Context (others : nat -> SubscriptionState * ResolvedConversations -> SubscriptionState * ResolvedConversations).
Context (tx : Ctx) (tenant conversation x : string).

(** The connection listens to the conversation. *)
Definition listens (w : GatewayWorld) : Prop := holds (by_conversation (subscriptions w)) (tenant, conversation) x.

(** Other tasks do not unsubscribe it. *)
Context (Hothers : forall n s, holds (by_conversation s.1) (tenant, conversation) x -> holds (by_conversation (others n s).1) (tenant, conversation) x).

(** A method that sends nothing, succeeds, and leads from states of [P] to results of [Q]. *)
Definition quiet {A} (m : db GatewayWorld A) (P : GatewayWorld -> Prop) (Q : A -> GatewayWorld -> Prop) : Prop :=
  forall n w, P w -> exists a n' w', m (n, w) = (Ok a, (n', w')) /\ sent w' = sent w /\ Q a w'.

Lemma quiet_bind {A B} (m : db GatewayWorld A) (f : A -> db GatewayWorld B) P Q1 Q :
  quiet m P Q1 -> (forall a, quiet (f a) (Q1 a) Q) -> quiet (y ← m; f y) P Q.
Proof.
  intros Hm Hf n w Hw. destruct (Hm n w Hw) as (a & n1 & w1 & E1 & S1 & HQ1).
  destruct (Hf a n1 w1 HQ1) as (b & n2 & w2 & E2 & S2 & HQ2). exists b, n2, w2. unfold mbind, stE_bind. rewrite E1, E2.
  split_and!; [done|congruence|done].
Qed.

(** The same for a result that is known. *)
Lemma quiet_bind_eq {A B} (m : db GatewayWorld A) (f : A -> db GatewayWorld B) a P P1 Q :
  quiet m P (fun b w => b = a /\ P1 w) -> quiet (f a) P1 Q -> quiet (y ← m; f y) P Q.
Proof. intros Hm Hf. eapply quiet_bind; [exact Hm|]. intros b n w [-> Hw]. by apply Hf. Qed.

Lemma quiet_ret {A} (a : A) P (Q : A -> GatewayWorld -> Prop) : (forall w, P w -> Q a w) -> quiet (mret a) P Q.
Proof. intros H n w Hw. exists a, n, w. eauto. Qed.

Lemma quiet_lift {A} (a : A) P (Q : A -> GatewayWorld -> Prop) : (forall w, P w -> Q a w) -> quiet (lift_r (Ok a)) P Q.
Proof. intros H n w Hw. exists a, n, w. eauto. Qed.

Lemma quiet_await (P : GatewayWorld -> Prop) :
  (forall n w, P w -> P (mkGateway (others n (subscriptions w, resolved_conversations w)).1 (others n (subscriptions w, resolved_conversations w)).2 (sent w))) ->
  quiet (await others) P (fun _ => P).
Proof. intros HP n w Hw. unfold await. specialize (HP n w Hw). destruct (others n _) as [s c]. exists (), (S n), (mkGateway s c (sent w)). done. Qed.

Lemma listens_await : quiet (await others) listens (fun _ => listens).
Proof. apply quiet_await. intros n w Hw. by apply Hothers. Qed.

Lemma quiet_ask {A} (r : result A) a (P : GatewayWorld -> Prop) :
  r = Ok a -> quiet (await others) P (fun _ => P) -> quiet (ask others r) P (fun b w => b = a /\ P w).
Proof. intros -> Ha. eapply quiet_bind; [exact Ha|]. intros ?. by apply quiet_lift. Qed.

Lemma any_await : quiet (await others) (fun _ => True) (fun _ _ => True).
Proof. by apply quiet_await. Qed.

Lemma quiet_read P : quiet read_gateway P (fun _ => P).
Proof. intros n w Hw. by exists w, n, w. Qed.

Lemma quiet_subscriptions f P (Q : GatewayWorld -> Prop) :
  (forall w, P w -> Q (mkGateway (f (subscriptions w)) (resolved_conversations w) (sent w))) -> quiet (on_subscriptions f) P (fun _ => Q).
Proof. intros H n w Hw. eexists _, _, _. split; [done|]. eauto. Qed.

Lemma quiet_cache f : quiet (on_cache f) (fun _ => True) (fun _ _ => True).
Proof. intros n w Hw. eexists _, _, _. done. Qed.

(** ** Subscribing the members *)

Lemma join_holds t c y s t' c' y' :
  holds (by_conversation s) (t', c') y' -> holds (by_conversation (GatewaySubscriptions.join t c y s)) (t', c') y'.
Proof. intros H. unfold GatewaySubscriptions.join. destruct (_ || _); [done|]. cbn. apply holds_add. by right. Qed.

Lemma join_each l s :
  canonical_tenant tenant = true -> Str.is_empty conversation = false -> Str.is_empty x = false -> x ∈ l ->
  holds (by_conversation (foldl (fun s c => GatewaySubscriptions.join tenant conversation c s) s l)) (tenant, conversation) x.
Proof.
  intros Ht Hc Hx. revert s. induction l as [|y l IH] using rev_ind; intros s; [by intros ?%elem_of_nil|].
  rewrite foldl_snoc. intros [Hin| ->%list_elem_of_singleton]%elem_of_app; [by apply join_holds, IH|].
  unfold GatewaySubscriptions.join. rewrite Ht, Hc, Hx. cbn. apply holds_add. by left.
Qed.

Lemma leave_each l s :
  x ∉ l -> holds (by_conversation s) (tenant, conversation) x ->
  holds (by_conversation (foldl (fun s c => leave tenant conversation c s) s l)) (tenant, conversation) x.
Proof.
  revert s. induction l as [|y l IH]; intros s Hx Hs; [done|]. cbn. apply IH; [set_solver|].
  unfold leave. destruct (negb _); [done|]. cbn. apply holds_drop. split; [|done]. intros [= ->]. set_solver.
Qed.

Context (members : list string) (Hmembers : list_participants ports tx conversation = Ok members).
Context (Hlookups : forall u, u ∈ members -> exists ids, list_user_connection_ids ports tx u = Ok ids).
Context (Hmember : member_connection ports tx members x) (Hexists : connection_exists ports x = true).
Context (Ht : canonical_tenant tenant = true) (Hc : Str.is_empty conversation = false) (Hx : Str.is_empty x = false).

Lemma mapM_total chunk :
  (forall u, u ∈ chunk -> u ∈ members) -> exists idss, mapM (list_user_connection_ids ports tx) chunk = Ok idss /\
    forall u ids, u ∈ chunk -> list_user_connection_ids ports tx u = Ok ids -> ids ∈ idss.
Proof.
  induction chunk as [|u chunk IH]; intros Hsub; [exists []; set_solver|].
  destruct (Hlookups u) as [ids Hids]; [set_solver|]. destruct IH as (idss & E & Hin); [set_solver|].
  exists (ids :: idss). cbn. rewrite Hids. cbn. rewrite E. split; [done|].
  intros v ids' [->|Hv]%elem_of_cons Hv'; [rewrite Hids in Hv'; simplify_eq; left|right; eauto].
Qed.

Lemma quiet_lookup cs found :
  (forall u, u ∈ mjoin cs -> u ∈ members) -> (x ∈ found \/ member_connection ports tx (mjoin cs) x) ->
  quiet (lookup_chunks ports others tx cs found) (fun _ => True) (fun a _ => x ∈ a).
Proof.
  revert found. induction cs as [|chunk cs IH]; intros found Hsub Hor; cbn [lookup_chunks].
  { apply quiet_ret. intros _ _. destruct Hor as [|(u & ids & Hu & _)]; [done|by apply elem_of_nil in Hu]. }
  destruct (mapM_total chunk) as (idss & E & Hin); [intros u Hu; apply Hsub; cbn; set_solver|].
  eapply quiet_bind_eq; [by apply quiet_ask, any_await|].
  apply IH; [intros u Hu; apply Hsub; cbn; set_solver|].
  destruct Hor as [Hf|(u & ids & Hu & Hids & Hxi)]; [left; set_solver|]. cbn in Hu. apply elem_of_app in Hu as [Hu|Hu].
  - left. apply elem_of_union_r, elem_of_list_to_set, list_elem_of_join. exists ids. eauto.
  - right. exists u, ids. done.
Qed.

Lemma quiet_ensure :
  is_sync_inbox_conversation_id conversation = false ->
  quiet (ensure_conversation_members_subscribed ports others tx tenant conversation) (fun _ => True)
    (fun a w => (exists s, a = Some s /\ x ∈ s) /\ listens w).
Proof.
  intros Hs. unfold ensure_conversation_members_subscribed. rewrite Hs.
  eapply quiet_bind_eq; [by apply quiet_ask, any_await|].
  eapply quiet_bind; [apply quiet_read|]. intros w0. cbn zeta.
  eapply (quiet_bind_eq _ _ members _ (fun _ => True)).
  { assert (Hins : quiet (_ ← on_cache (insert_resolved tenant conversation members (clock ports)); mret members) (fun _ => True)
                     (fun b _ => b = members /\ True)) by (eapply quiet_bind; [apply quiet_cache|]; intros ?; by apply quiet_ret).
    destruct (get_fresh _ _ _ _ _ _) as [l|]; [|done]. case_bool_decide; [|done]. subst. by apply quiet_ret. }
  eapply quiet_bind; [apply quiet_read|]. intros w1. cbn zeta.
  eapply quiet_bind; [apply quiet_lookup; [intros u Hu; apply chunks_elem; exact Hu|right]|].
  { destruct Hmember as (u & ids & Hu & Hids & Hxi). exists u, ids. split; [by apply chunks_elem|done]. }
  intros a. cbn beta.
  eapply quiet_bind; [apply (quiet_subscriptions _ _ (fun w => x ∈ a /\ listens w))|].
  { intros w Hxa. split; [done|]. apply join_each; [done..|]. by apply elem_of_elements. }
  intros ?. eapply quiet_bind; [apply (quiet_subscriptions _ _ (fun w => x ∈ a /\ listens w))|].
  { intros w [Hxa Hl]. split; [done|]. apply leave_each; [|done]. rewrite elem_of_elements. set_solver. }
  intros ?. apply quiet_ret. intros w [Hxa Hl]. eauto.
Qed.

(** ** Sending *)

Lemma quiet_live_loop l :
  x ∈ l -> quiet (live_loop ports others tenant conversation l) (fun _ => True) (fun live _ => x ∈ live).
Proof.
  assert (Hany : forall l, quiet (live_loop ports others tenant conversation l) (fun _ => True) (fun _ _ => True)).
  { clear l. induction l as [|y l IH]; [by apply quiet_ret|]. cbn [live_loop]. eapply quiet_bind; [apply any_await|]. intros ?.
    destruct (connection_exists ports y).
    - eapply quiet_bind; [exact IH|]. intros ?. by apply quiet_ret.
    - eapply quiet_bind; [by apply (quiet_subscriptions _ _ (fun _ => True))|]. intros ?. exact IH. }
  induction l as [|y l IH]; [by intros ?%elem_of_nil|]. intros Hin. cbn [live_loop]. eapply quiet_bind; [apply any_await|]. intros ?.
  destruct (connection_exists ports y) eqn:Ey.
  - destruct (decide (x = y)) as [->|Hne].
    + eapply quiet_bind; [apply Hany|]. intros live. apply quiet_ret. intros; left.
    + eapply quiet_bind; [apply IH; set_solver|]. intros live. apply quiet_ret. intros w Hl. by right.
  - eapply quiet_bind; [by apply (quiet_subscriptions _ _ (fun _ => True))|]. intros ?. apply IH.
    apply elem_of_cons in Hin as [->|]; [congruence|done].
Qed.

Lemma quiet_live :
  quiet (live_subscribers ports others tenant conversation) listens (fun live _ => x ∈ live).
Proof.
  intros n w Hw. unfold live_subscribers, mbind, stE_bind, read_gateway. apply quiet_live_loop; [|done].
  unfold local_subscribers. rewrite Ht. cbn [negb]. apply elem_of_elements. by apply holds_default.
Qed.

(** The connection gets the payload. *)
Lemma deliver_reaches payload send n w :
  is_sync_inbox_conversation_id conversation = false -> ctx_tenant_id tx = Some tenant -> server_handle ports = Some send ->
  exists out n' w' f, deliver_to_conversation ports others tx conversation payload (n, w) = (Ok out, (n', w')) /\
    sent w' = sent w ++ [f] /\ fan_payload f = payload /\ x ∈ fan_connections f.
Proof.
  intros Hs Htx Hsend. unfold deliver_to_conversation. rewrite Htx, Ht. cbn [negb].
  destruct (quiet_ensure Hs n w I) as (a & n1 & w1 & E1 & S1 & (s & -> & Hxs) & Hl).
  destruct (quiet_live n1 w1 Hl) as (live & n2 & w2 & E2 & S2 & Hlive).
  unfold mbind, stE_bind. rewrite E1, E2. cbn zeta.
  assert (Hin : x ∈ filter (fun c => c ∈ s) live) by (by apply list_elem_of_filter).
  rewrite bool_decide_eq_false_2 by (intros E; rewrite E in Hin; by apply elem_of_nil in Hin).
  unfold push_payload_to_connections. pose proof (proj2 (unseen_elem ∅ _ _) (conj Hin (not_elem_of_empty x))) as Hu.
  destruct (unseen ∅ (filter (fun c => c ∈ s) live)) as [|y l]; [by apply elem_of_nil in Hu|].
  unfold mbind, stE_bind, await. destruct (others n2 _) as [s2 c2]. rewrite Hsend. unfold send_frame. cbn.
  eexists _, _, _, (mkFanout (y :: l) payload). split; [done|]. cbn. split_and!; [by rewrite S2, S1|done|done].
Qed.

End Reach.

(** ** One RPC *)

(** A node that can serve a member: the services answer for the tenant, and [x] is a connection of
    one of the members that exists and that other tasks of the node do not unsubscribe. *)
Record serves (ports : GatewayPorts) (others : nat -> SubscriptionState * ResolvedConversations -> SubscriptionState * ResolvedConversations)
    (tenant conversation x : string) : Prop := {
  srv_members : exists members, forall tx, ctx_tenant_id tx = Some tenant ->
    list_participants ports tx conversation = Ok members /\ member_connection ports tx members x /\
    forall u, u ∈ members -> exists ids, list_user_connection_ids ports tx u = Ok ids;
  srv_exists : connection_exists ports x = true /\ Str.is_empty x = false;
  srv_others n s : holds (by_conversation s.1) (tenant, conversation) x -> holds (by_conversation (others n s).1) (tenant, conversation) x;
  srv_handle : exists send, server_handle ports = Some send;
  srv_verifier : exists verify, identity_verifier ports = Some verify /\
    forall claims, exists tx, verify (Some claims) = inl tx /\ ctx_claims tx = Some claims /\ ctx_tenant_id tx = Some (claims_tenant_id claims);
}.

(** The claims of the push worker for a tenant. *)
Definition worker_identity (tenant : string) (claims : SignedContextClaims) : Prop :=
  actor_type claims = ActService /\ actor_id claims = "flare-push-worker" /\ claims_tenant_id claims = tenant.

Lemma serves_producer ports others tenant conversation x claims :
  serves ports others tenant conversation x -> canonical_tenant tenant = true -> worker_identity tenant claims ->
  exists tx, require_push_producer ports (Some claims) = inl tx /\ ctx_tenant_id tx = Some tenant.
Proof.
  intros Hs Hc (Ha & Hi & Ht). destruct (srv_verifier _ _ _ _ _ Hs) as (verify & Hv & Hver).
  destruct (Hver claims) as (tx & Htx & Hcl & Hten). exists tx. split; [|congruence].
  unfold require_push_producer. rewrite Hv, Htx, Hcl. unfold validate_push_producer_claims.
  by rewrite !bool_decide_eq_true_2, Ht, Hc by done.
Qed.

Lemma valid_body body :
  validate_delivery_body body = None -> Str.is_empty (dl_conversation_id body) = false /\ Str.is_blank (dl_conversation_id body) = false.
Proof.
  unfold validate_delivery_body. cbn zeta. destruct (Str.is_empty _) eqn:Ee; [done|]. cbn [orb].
  case_bool_decide as Et; [|done]. intros _. split; [done|]. unfold Str.is_blank. by rewrite Et.
Qed.

Lemma answer_runs {A} (m : db GatewayWorld A) s : (answer m s).2 = (m s).2.
Proof. unfold answer, on_result. by destruct (m s) as [[a|e] s']. Qed.

Lemma rpc_reaches ports others tenant x claims body payload n w :
  serves ports others tenant (dl_conversation_id body) x -> canonical_tenant tenant = true -> worker_identity tenant claims ->
  validate_delivery_body body = None -> is_sync_inbox_conversation_id (dl_conversation_id body) = false ->
  delivered_payload ports body = Ok payload ->
  exists f, sent (rpc ports others (Some claims) (GwDeliver body) (n, w)).2.2 = sent w ++ [f] /\
    fan_payload f = payload /\ x ∈ fan_connections f.
Proof.
  intros Hs Hcanon Hid Hv Hsync Hp. destruct (serves_producer _ _ _ _ _ _ Hs Hcanon Hid) as (tx & Hprod & Htx).
  destruct (srv_members _ _ _ _ _ Hs) as (members & Hm). destruct (Hm tx Htx) as (Hmem & Hx & Hlook).
  destruct (srv_exists _ _ _ _ _ Hs) as [Hex Hxe]. destruct (srv_handle _ _ _ _ _ Hs) as [send Hsend].
  destruct (valid_body body Hv) as [Hne Hnb].
  destruct (deliver_reaches ports others tx tenant (dl_conversation_id body) x (srv_others _ _ _ _ _ Hs) members Hmem Hlook Hx Hex Hcanon Hne Hxe
    payload send n w Hsync Htx Hsend) as (out & n' & w' & f & E & Hsent & Hf & Hin).
  exists f. split; [|done]. unfold_rpc. rewrite Hprod, Hv, answer_runs.
  unfold handle_deliver_to_conversation. cbn zeta. rewrite Hnb. unfold validate_delivery_body in Hv. cbn zeta in Hv. rewrite Hne in Hv. cbn [orb] in Hv.
  destruct (negb _); [done|]. unfold delivered_payload in Hp. unfold push_message_to_conversation, deliver_event_envelope_to_conversation, mbind, stE_bind, lift_r.
  destruct (dl_payload body) as [[[|m0 ms]|[|e0 es] mode tr|seq mode tr]|]; try done.
  - injection Hp as <-. rewrite E. by destruct (0 <? out.2).
  - destruct (build_event_envelope _ _ _ _ _ _) as [env|]; [|done]. cbn in Hp. injection Hp as <-. rewrite E. by destruct (0 <? out.2).
  - destruct (0 <? seq); [|done]. destruct (build_event_envelope _ _ _ _ _ _) as [env|]; [|done]. cbn in Hp. injection Hp as <-.
    rewrite E. by destruct (0 <? out.2).
Qed.

(** A delivery reaches the members of its conversation. When the services of a gateway answer, a
    delivery of the push worker for a canonical tenant, to a conversation that is not an inbox,
    sends one frame, whose payload is that of the request, and among whose connections is every
    existing connection of every current member of the conversation, as long as other tasks of
    the node do not unsubscribe it, whatever else they do meanwhile. *)
Theorem members_get_the_delivery ports others tenant x claims body payload n w :
  serves ports others tenant (dl_conversation_id body) x -> canonical_tenant tenant = true -> worker_identity tenant claims ->
  validate_delivery_body body = None -> is_sync_inbox_conversation_id (dl_conversation_id body) = false ->
  delivered_payload ports body = Ok payload ->
  exists f, sent (rpc ports others (Some claims) (GwDeliver body) (n, w)).2.2 = sent w ++ [f] /\
    fan_payload f = payload /\ x ∈ fan_connections f.
Proof. apply rpc_reaches. Qed.

(** ** All gateways *)

Section Cluster.
Context (ports_of : string -> GatewayPorts).
Context (others_of : string -> nat -> SubscriptionState * ResolvedConversations -> SubscriptionState * ResolvedConversations).

(** The gateways by their addresses; nobody answers elsewhere. *)
Abbreviation Cluster := (gmap string (nat * GatewayWorld)).

Definition cluster_node (uri : string) (identity : option SignedContextClaims) (r : GatewayRequest) (h : Cluster) : Rpc * Cluster :=
  match h !! uri with
  | None => (RpcStatus StatusUnavailable, h)
  | Some (n, w) =>
      let '(a, s') := rpc (ports_of uri) (others_of uri) identity r (n, w) in
      (match a with Ok a => a | Err _ => RpcStatus StatusInternal end, <[uri := s']> h)
  end.

Lemma rpc_appends ports others identity r n w :
  exists new, sent (rpc ports others identity r (n, w)).2.2 = sent w ++ new.
Proof.
  destruct (require_push_producer ports identity) as [ctx|c] eqn:Ep.
  - destruct (rpc_allowed ports others identity r ctx (n, w) Ep) as (new & E & _). by exists new.
  - exists []. rewrite (rpc_refused _ _ _ _ _ Ep). by rewrite app_nil_r.
Qed.

(** A gateway that has sent a frame has sent it ever after. *)
Lemma node_keeps_frames uri identity r (h : Cluster) addr n w f :
  h !! addr = Some (n, w) -> f ∈ sent w ->
  exists n' w', (cluster_node uri identity r h).2 !! addr = Some (n', w') /\ f ∈ sent w'.
Proof.
  intros Ha Hf. unfold cluster_node. destruct (decide (uri = addr)) as [->|Hne].
  - rewrite Ha. destruct (rpc_appends (ports_of addr) (others_of addr) identity r n w) as (new & E).
    destruct (rpc _ _ _ _ (n, w)) as [a [n' w']]. cbn in *. exists n', w'. rewrite lookup_insert_eq, E. set_solver.
  - destruct (h !! uri) as [[n0 w0]|]; [|by exists n, w]. destruct (rpc _ _ _ _ _) as [a s']. cbn.
    rewrite lookup_insert_ne by done. by exists n, w.
Qed.

Lemma node_keeps_gateways uri identity r (h : Cluster) addr :
  is_Some (h !! addr) -> is_Some ((cluster_node uri identity r h).2 !! addr).
Proof.
  intros [s Hs]. unfold cluster_node. destruct (h !! uri) as [[n0 w0]|] eqn:E; [|eauto]. destruct (rpc _ _ _ _ _) as [a s']. cbn.
  rewrite lookup_insert. case_decide; eauto.
Qed.

Lemma replay_keeps_frames cs (h : Cluster) addr n w f :
  h !! addr = Some (n, w) -> f ∈ sent w -> exists n' w', replay cluster_node cs h !! addr = Some (n', w') /\ f ∈ sent w'.
Proof.
  revert h n w. induction cs as [|c cs IH]; intros h n w Ha Hf; [by exists n, w|]. cbn.
  destruct (node_keeps_frames (call_uri c) (call_identity c) (call_request c) h addr n w f Ha Hf) as (n1 & w1 & Ha1 & Hf1). by eapply IH.
Qed.

(** A call among many has its effect. *)
Lemma replay_reaches cs (h : Cluster) c (P : Fanout -> Prop) :
  c ∈ cs -> is_Some (h !! call_uri c) ->
  (forall n w, exists f, sent (rpc (ports_of (call_uri c)) (others_of (call_uri c)) (call_identity c) (call_request c) (n, w)).2.2 = sent w ++ [f] /\ P f) ->
  exists n w f, replay cluster_node cs h !! call_uri c = Some (n, w) /\ f ∈ sent w /\ P f.
Proof.
  intros Hin Ha Heff. revert h Ha. induction cs as [|c0 cs IH]; [by apply elem_of_nil in Hin|]. intros h Ha.
  apply elem_of_cons in Hin as [<-|Hcs]; [|apply (IH Hcs); by apply node_keeps_gateways]. destruct Ha as [[n w] Ha]. destruct (Heff n w) as (f & Hs & HP).
  cbn. unfold cluster_node at 2. rewrite Ha. destruct (rpc _ _ _ _ (n, w)) as [a [n1 w1]]. cbn in Hs.
  destruct (replay_keeps_frames cs (<[call_uri c := (n1, w1)]> h) (call_uri c) n1 w1 f) as (n' & w' & E & Hf);
    [by rewrite lookup_insert_eq|rewrite Hs; set_solver|].
  exists n', w', f. done.
Qed.

End Cluster.

(** ** From an event to the connections of the members *)

Lemma event_body_valid ports d ev es mode tr :
  dl_conversation_id d = pe_conversation_id ev -> dl_payload d = Some (DeliverEvents es mode tr) -> ev ∈ es ->
  (forall e, e ∈ es -> pe_conversation_id e = dl_conversation_id d) ->
  Str.is_empty (pe_conversation_id ev) = false -> Str.trim (pe_conversation_id ev) = pe_conversation_id ev ->
  validate_delivery_body d = None /\ exists e, delivered_payload ports d = Ok (EnvelopePush e) /\ env_events e = es.
Proof.
  intros Hd Hp Hin Hsame Hne Htrim. rewrite <- Hd in Hne, Htrim. destruct es as [|e0 es]; [by apply elem_of_nil in Hin|].
  assert (Hall : forall f, (forall e, e ∈ e0 :: es -> f e = false) -> existsb f (e0 :: es) = false).
  { intros f Hf. destruct (existsb f (e0 :: es)) eqn:E; [|done]. apply existsb_exists in E as (e & He & Hfe).
    apply list_elem_of_In in He. rewrite (Hf e He) in Hfe. done. }
  split.
  - unfold validate_delivery_body. cbn zeta. rewrite Hne, bool_decide_eq_true_2 by done. cbn [orb negb]. rewrite Hp. cbn -[existsb].
    rewrite Hall; [done|]. intros e He. by rewrite bool_decide_eq_true_2 by (by apply Hsame).
  - unfold delivered_payload. rewrite Hp. unfold build_event_envelope, envelope_conversation.
    rewrite (Hsame e0) by left. rewrite Htrim, Hne. rewrite Hall by (intros e He; rewrite (Hsame e He), Htrim; by rewrite bool_decide_eq_true_2).
    rewrite bool_decide_eq_false_2 by done. cbn [andb]. unfold resolve_event_envelope_delivery_mode. cbn [andb].
    eexists. split; [done|]. done.
Qed.

(** C14. An event reaches the connections of the members. With a broker and a network that work and
    at least one registered gateway, [handle_event] of the push server, whether the request names
    recipients (whose presence the online service tells) or nobody (a broadcast of events to the
    members of a named conversation), publishes online tasks such that, once the broker has handed
    them to the push worker, every registered gateway with a live lease has been called at an
    address, the one its pooled client has or discovery gives, and if the gateway is there and can
    serve [x], a connection of a current member of the conversation of the event (its services
    answer, no other task unsubscribes [x]), the event went down [x] in an envelope that holds it.
    The conversation id of the event is trimmed and not that of a sync inbox. *)
Theorem events_reach_the_members `{PushCodecLaws Bytes}
    (rports : RouterPorts) fresh now ctx tenant (req : PushEventRequest) n (rw : World Bytes)
    (identity : BrokerRecordIdentity) request_id_of new_id ports_of others_of
    ports retryable m (w : WorkerWorld (Logged (gmap string (nat * GatewayWorld))) Bytes) :
  request_tenant_id ctx = Ok tenant -> addressed rports ctx req ->
  event_complete req -> one_key_pair identity -> bri_actor_id identity = "flare-push-worker" ->
  gateway_ids ports <> [] ->
  exists n' online offline,
    handle_event rports calm fresh now ctx req (n, rw)
      = (Ok (), (n', mkWorld (published rw ++ (mkPublished ctx <$> online ++ offline)) (coalescer rw) (timers rw))) /\
    online <> [] /\ Forall (fun p => pt_online p = true) online /\
    forall records, Forall2 (record_of ctx) online records ->
    exists m' w',
      attested_handle_batch identity request_id_of new_id (handle_batch (logging (cluster_node ports_of others_of)) ports calm retryable) records (m, w)
        = (Ok (Settled (replicate (length records) Acked)), (m', w')) /\
      forall ev gid,
        ev ∈ pr_events req -> Str.is_empty (pe_conversation_id ev) = false -> Str.trim (pe_conversation_id ev) = pe_conversation_id ev ->
        is_sync_inbox_conversation_id (pe_conversation_id ev) = false -> gid ∈ live_gateways ports ->
        exists uri, reaches ports (connection_pool w) gid uri /\
          forall x, is_Some (nodes (gateways w) !! uri) -> serves (ports_of uri) (others_of uri) tenant (pe_conversation_id ev) x ->
          exists k g f e, nodes (gateways w') !! uri = Some (k, g) /\ f ∈ sent g /\
            fan_payload f = EnvelopePush e /\ ev ∈ env_events e /\ x ∈ fan_connections f.
Proof.
  intros Htenant Hto Hok Hkeys Hactor Hids.
  destruct (event_tasks_published rports fresh now ctx tenant req n rw Htenant Hto) as (n' & online & offline & E & Hnil & Hon & _ & Htasks).
  exists n', online, offline. split_and!; [exact E|exact Hnil|exact Hon|].
  intros records Hrec. destruct (request_tenant_some ctx tenant Htenant) as [Hct Hcanon].
  destruct (worker_takes_event_tasks ctx tenant req online records identity request_id_of new_id (cluster_node ports_of others_of) ports retryable m w)
    as (m' & w' & new & Em & Hc & Hev & Hcalls & Hnodes); [done..|].
  exists m', w'. split; [exact Em|]. intros ev gid Hin Hne Htrim Hsync Hgid. rewrite Hnodes.
  unfold event_everywhere in Hev. destruct (pr_events req) as [|e0 es0] eqn:Ees; [by apply elem_of_nil in Hin|]. rewrite <- Ees in *.
  destruct (Hev ev Hin ltac:(unfold Str.is_blank; by rewrite Htrim) gid Hgid)
    as (claims & d & (uri & Huri & Hcall) & Hten & Hconv & es & mode & tr & Hpay & Hines).
  exists uri. split; [exact Huri|]. intros x Hgw Hserves.
  rewrite Forall_forall in Hcalls. destruct (Hcalls _ Hcall) as [(Ha1 & Ha2 & Ha3) Hes]. cbn in Hes. rewrite Hpay in Hes.
  destruct (event_body_valid (ports_of uri) d ev es mode tr Hconv Hpay Hines Hes Hne Htrim) as (Hvalid & e & Hde & Hee).
  destruct (replay_reaches ports_of others_of new (nodes (gateways w)) _ (fun f => fan_payload f = EnvelopePush e /\ x ∈ fan_connections f) Hcall Hgw)
    as (k & g & f & Hk & Hf & Hpf & Hxf).
  - intros k g. cbn. rewrite <- Hconv in Hserves, Hsync. by eapply rpc_reaches.
  - exists k, g, f, e. split_and!; [exact Hk|done|done|by rewrite Hee|done].
Qed.

(** The worker calls the gateways without an identity for notifications, acknowledgements and
    custom data ([route_push]): a gateway whose verifier wants one refuses them all. *)
Lemma unsigned_pushes_are_refused ports others verify code r n w :
  identity_verifier ports = Some verify -> verify None = inr code ->
  rpc ports others None r (n, w) = (Ok (RpcStatus code), (n, w)).
Proof. intros Hv Hc. erewrite rpc_refused; [done|]. unfold require_push_producer. by rewrite Hv, Hc. Qed.

(** ** Samples *)

(** Alice and bob are members; bob has a phone here. *)
Definition node_ports : GatewayPorts :=
  mkGatewayPorts (fun _ _ => Ok ["alice"; "bob"]) (fun _ _ => Ok [])
    (fun _ u => Ok (if decide (u = "bob") then ["bob-phone"] else [])) (fun _ => true)
    (Some (fun l => (Z.of_nat (length l), 0)))
    (Some (fun identity => match identity with
                           | Some claims => inl (mkCtx (Some claims) None None (Some (claims_tenant_id claims)) None)
                           | None => inr Unauthenticated
                           end)) 10000 60000 0 "w1".

(** Meanwhile carol, who left, subscribes again. *)
Definition late_joins (n : nat) (s : SubscriptionState * ResolvedConversations) : SubscriptionState * ResolvedConversations :=
  (GatewaySubscriptions.join "acme" "c1" "carol-phone" s.1, s.2).

Definition idle_gateway : GatewayWorld := mkGateway new_registry (new_resolved 8) [].

Lemma bob_is_served : serves node_ports late_joins "acme" "c1" "bob-phone".
Proof.
  split.
  - exists ["alice"; "bob"]. intros tx _. split; [done|]. split; [exists "bob", ["bob-phone"]; cbn; split_and!; [set_solver|done|set_solver]|].
    intros u _. by eexists.
  - done.
  - intros n s Hs. cbn. by apply join_holds.
  - by eexists.
  - eexists. split; [done|]. intros claims. by eexists.
Qed.

Definition greeting_body : DeliverToConversationRequest :=
  mkDeliver "c1" None (Some (DeliverMessages [greeting "m1" "c1"])).

Lemma members_get_the_delivery_witness :
  exists f, sent (rpc node_ports late_joins (Some (worker_claims "acme")) (GwDeliver greeting_body) (O, idle_gateway)).2.2 = [f] /\
    fan_payload f = MessagePush [greeting "m1" "c1"] /\ "bob-phone" ∈ fan_connections f.
Proof.
  destruct (members_get_the_delivery node_ports late_joins "acme" "bob-phone" (worker_claims "acme") greeting_body
    (MessagePush [greeting "m1" "c1"]) O idle_gateway) as (f & E & Hp & Hx).
  - exact bob_is_served.
  - reflexivity.
  - split_and!; reflexivity.
  - reflexivity.
  - reflexivity.
  - reflexivity.
  - exists f. split; [exact E|]. split; [exact Hp|exact Hx].
Defined.

(** The gateway at the address of the one with a live lease. *)
Definition sample_cluster : gmap string (nat * GatewayWorld) := {[ "http://gw-1" := (O, idle_gateway) ]}.

Definition cluster_world : WorkerWorld (Logged (gmap string (nat * GatewayWorld))) Wire := mkWorkerWorld _ (mkLogged _ [] sample_cluster) ∅ ∅ [].

(** The same event, for whoever is in the conversation. *)
Definition broadcast_event : PushEventRequest :=
  mkPushEventRequest [] (pr_events hello_event) None "c1" 7 (Some DeliveryPingWithInline) false.

Lemma events_reach_the_members_witness :
  exists n' online offline,
    handle_event sample_ports calm "f" 0 sample_ctx broadcast_event (O, empty_world)
      = (Ok (), (n', mkWorld (mkPublished sample_ctx <$> online ++ offline) (coalescer empty_world) (timers empty_world))) /\
    forall records, Forall2 (record_of sample_ctx) online records ->
    exists m' w',
      attested_handle_batch sample_identity (fun _ => "") "id"
        (handle_batch (logging (cluster_node (fun _ => node_ports) (fun _ => late_joins))) worker_ports calm always) records (O, cluster_world)
        = (Ok (Settled (replicate (length records) Acked)), (m', w')) /\
      exists k g f e, nodes (gateways w') !! "http://gw-1" = Some (k, g) /\ f ∈ sent g /\
        fan_payload f = EnvelopePush e /\ "bob-phone" ∈ fan_connections f.
Proof.
  destruct (events_reach_the_members sample_ports "f" 0 sample_ctx "acme" broadcast_event O empty_world
    sample_identity (fun _ => "") "id" (fun _ => node_ports) (fun _ => late_joins) worker_ports always O cluster_world)
    as (n' & online & offline & E & _ & _ & Hrec).
  - reflexivity.
  - right. split_and!; [reflexivity|discriminate|reflexivity].
  - left. discriminate.
  - intros who. eexists _, _. split_and!; reflexivity.
  - reflexivity.
  - discriminate.
  - exists n', online, offline. split; [exact E|]. intros records Hr. destruct (Hrec records Hr) as (m' & w' & Em & Hx).
    exists m', w'. split; [exact Em|].
    destruct (Hx (mkPushEvent "e1" "c1" 7 (Some EventMessage) (Some (EvMessage hello))) "gw-1") as (uri & Huri & Hall);
      [left|reflexivity|reflexivity|reflexivity|vm_compute; left|].
    assert (Hat : uri = "http://gw-1").
    { destruct Huri as [Hp|Hp]; [discriminate Hp|]. vm_compute in Hp. by injection Hp. }
    rewrite Hat in Hall. destruct (Hall "bob-phone") as (k & g & f & e & Hk & Hf & Hp & _ & Hb);
      [exists (O, idle_gateway); reflexivity|exact bob_is_served|].
    exists k, g, f, e. split_and!; [exact Hk|exact Hf|exact Hp|exact Hb].
Defined.
