(* ===== verification/OfflinePush.v ===== *)
(** * Offline tasks

    flare-push/worker: the consumer of offline tasks (offline_consumer.rs), the choice of the
    provider credentials of an application (application_delivery.rs), the fan-out to several
    vendors (mobile_fanout.rs), the FCM channel (fcm_push.rs) and the registry of device tokens
    with its acceptance receipts in Redis (device_tokens.rs). JSON, SHA-256, the OAuth server
    and the vendor are parameters; every round trip may fail, before or after it took effect. *)

From S2P Require Import Prelude.
From S2P Require Import Proto.
From S2P Require Import Database.
From S2P Require Import PushTypes.
From S2P Require Import PushRouter.
From S2P Require Import PushWorker.
From stdpp Require Import base gmap sets strings list.
From Stdlib Require Import ZArith Lia.

Open Scope Z_scope.

(** ** Device tokens *)

Record DevicePushToken := mkToken {
  tk_tenant_id : string;
  tk_user_id : string;
  tk_device_id : string;
  tk_platform : string;
  tk_provider : string;
  tk_token : string;
  tk_registration_id : string;
  tk_registered_at_ms : Z;
}.

#[export] Instance DevicePushToken_eq_dec : EqDecision DevicePushToken.
Proof. solve_decision. Defined.

Definition usable_for_provider (t : DevicePushToken) (provider : string) : bool :=
  negb (Str.is_blank (tk_token t))
  && Str.eq_ignore_ascii_case (Str.trim (tk_provider t)) provider
  && negb (Str.is_blank (tk_device_id t)) && negb (Str.is_blank (tk_user_id t)) && negb (Str.is_blank (tk_tenant_id t))
  && negb (Str.is_empty (tk_registration_id t)) && (0 <? tk_registered_at_ms t).

Definition device_push_token_registry_field (provider device : string) : string :=
  Str.to_ascii_lowercase (Str.trim provider) +:+ ":" +:+ Str.trim device.

Definition FCM_PROVIDER : string := "fcm".

(** What a binding slot says: the registration it stands for, its user, and whether it is registered. *)
Record BindingSlot := mkSlot { slot_registry : bool; slot_binding_id : string; slot_user_id : string }.

(** ** The vendor *)

(** The JSON of a reply, as far as it is looked at. FCM: an acceptance names the message, an error
    may say that the target is unregistered. APNs: the reason and the timestamp, if they are a
    string and an integer. Getui: the code and the message of its envelope, if the body is one. *)
Record VendorBody := mkBody {
  names_message : bool;
  fcm_unregistered : bool;
  body_reason : option string;
  body_timestamp : option Z;
  getui_response : option (Z * string);
}.

(** No reply, or a status with a body that could be read or not. *)
Inductive VendorReply := NoReply | Reply (status : Z) (body : option VendorBody).

Definition is_unrecoverable_target (status : Z) (b : VendorBody) : bool := (status =? 404) && fcm_unregistered b.

(** What Getui answers when it is asked for a token: nothing, or a status with a body that could be
    read or not: a code, and perhaps the token and when it runs out. *)
Inductive GetuiAuthReply := AuthLost | AuthReply (status : Z) (payload : option (Z * option (string * Z))).

(** [vendor_http::failure] *)
Definition vendor_failure (reason : string) : FlareError := flare_err ServiceUnavailable reason.

Definition TOKEN_REFRESH_SKEW : Z := 300.
Definition MAX_DEVICES : nat := 128.

(** A parked task, less its length and the time it was parked. *)
Record ParkedOfflinePush := mkParked { pk_tenant_id : string; pk_user_id : string; pk_message_id : string; pk_conversation_id : string }.

Section Offline.
Context {Bytes : Type} `{PushCodec Bytes}.

Record OfflinePorts := mkOfflinePorts {
  (** [serde_json::from_str] of a row *)
  parse_row : string -> option DevicePushToken;
  (** the digest of a registration and a task *)
  receipt_key : DevicePushToken -> PushTaskEnvelope Bytes -> string;
  (** the OAuth server, by the number of the round trip: the token and its lifetime, or a reply
      that is an error or cannot be read *)
  oauth : nat -> option (string * Z);
  (** the vendor of the token, by the number of the round trip *)
  vendor : nat -> DevicePushToken -> VendorReply;
  (** the signature of an application's claims for APNs, issued at a second *)
  apns_jwt : string -> Z -> option string;
  (** the token server of Getui, by the number of the round trip *)
  getui_auth : nat -> GetuiAuthReply;
  (** the deadline of a delivery, by the number of the round trip that came last *)
  deadline_passed : nat -> bool;
  retryable_error : FlareError -> bool;
  now_secs : Z;
  now_ms : Z;
}.

(** Redis: rows by tenant and user, slots by application, provider and device, revoked bindings,
    receipts (which Redis forgets after seven days, and the model never). The access tokens that
    the executors of the applications cached, by application and provider; what the vendors were
    sent; the dead letters and what is parked. *)
Record OfflineWorld := mkOffline {
  rows : gmap (string * string) (gmap string string);
  slots : gmap (string * string * string) BindingSlot;
  revoked : gset string;
  receipts : gset string;
  cached_tokens : gmap (string * string) (string * Z);
  posts : list (DevicePushToken * VendorReply);
  dlq : list (Ctx * string * Bytes);
  parked : list ParkedOfflinePush;
}.

Context (ports : OfflinePorts) (fault : schedule).

Abbreviation M := (db OfflineWorld).
Abbreviation Task := (PushTaskEnvelope Bytes).

Definition unavailable : FlareError := flare_err ServiceUnavailable "device registry unavailable".

(** ** The registry *)

Definition slot_of (w : OfflineWorld) (t : DevicePushToken) : option BindingSlot :=
  slots w !! (tk_tenant_id t, tk_provider t, tk_device_id t).

Definition current (w : OfflineWorld) (t : DevicePushToken) : bool :=
  match slot_of w t with
  | Some s => slot_registry s && bool_decide (slot_binding_id s = tk_registration_id t) && bool_decide (slot_user_id s = tk_user_id t)
  | None => false
  end.

Definition is_current (t : DevicePushToken) : M bool := query fault unavailable (fun w => current w t).

Definition decode_device_token_record (row : string) : result DevicePushToken :=
  if (16 * 1024 <? String.length row)%nat then Err unavailable
  else match parse_row ports row with
       | None => Err unavailable
       | Some t => if negb (bool_decide (tk_provider t ∈ ["fcm"; "apns"; "getui"])) || negb (usable_for_provider t (tk_provider t))
                   then Err unavailable else Ok t
       end.

(** The rows of a user, as the loop reads them. *)
Definition decode_rows (tenant user : string) (l : list string) : result (list DevicePushToken) :=
  mapM (fun row => t ← decode_device_token_record row;
                   if bool_decide (tk_tenant_id t = tenant) && bool_decide (tk_user_id t = user) then Ok t else Err unavailable) l.

Definition user_rows (w : OfflineWorld) (tenant user : string) : list string :=
  (map_to_list (default ∅ (rows w !! (tenant, user)))).*2.

Definition read_tokens (w : OfflineWorld) (tenant user : string) : result (list DevicePushToken) :=
  let l := user_rows w tenant user in
  if bool_decide (MAX_DEVICES < length l)%nat || existsb (fun v => (16384 <? String.length v)%nat) l then Err unavailable
  else decode_rows tenant user l.

Definition list_user_tokens (tenant user : string) : M (list DevicePushToken) :=
  l ← query fault unavailable (fun w => read_tokens w tenant user);
  lift_r l.

(** [REMOVE_OBSERVED]: the row goes if it is the one that was seen; the slot of its binding
    loses the registration and the binding is revoked. *)
Definition remove_observed (t : DevicePushToken) (w : OfflineWorld) : OfflineWorld :=
  let key := (tk_tenant_id t, tk_user_id t) in
  let field := device_push_token_registry_field (tk_provider t) (tk_device_id t) in
  let slot := (tk_tenant_id t, tk_provider t, tk_device_id t) in
  match default ∅ (rows w !! key) !! field with
  | None => w
  | Some raw =>
      match parse_row ports raw with
      | Some row =>
          if bool_decide (tk_registration_id row = tk_registration_id t) && bool_decide (tk_token row = tk_token t) then
            mkOffline (<[key := delete field (default ∅ (rows w !! key))]> (rows w))
              (match slots w !! slot with
               | Some s => if bool_decide (slot_binding_id s = tk_registration_id t)
                           then <[slot := mkSlot false (slot_binding_id s) (slot_user_id s)]> (slots w) else slots w
               | None => slots w
               end)
              ({[tk_registration_id t]} ∪ revoked w) (receipts w) (cached_tokens w) (posts w) (dlq w) (parked w)
          else w
      | None => w
      end
  end.

Definition remove_device_token (t : DevicePushToken) : M unit := write fault unavailable (remove_observed t).

Definition was_accepted (t : DevicePushToken) (task : Task) : M bool :=
  query fault unavailable (fun w => bool_decide (receipt_key ports t task ∈ receipts w)).

Definition record_accepted (t : DevicePushToken) (task : Task) : M unit :=
  write fault unavailable (fun w => mkOffline (rows w) (slots w) (revoked w) ({[receipt_key ports t task]} ∪ receipts w)
                                      (cached_tokens w) (posts w) (dlq w) (parked w)).

(** ** FCM *)

Definition read_offline : M OfflineWorld := fun '(n, w) => (Ok w, (n, w)).

(** The executor of a provider for an application, by what it caches: its access token. *)
Abbreviation CacheKey := (string * string)%type.

Definition set_cached (key : CacheKey) (c : option (string * Z)) : M unit := fun '(n, w) =>
  (Ok (), (n, mkOffline (rows w) (slots w) (revoked w) (receipts w) (partial_alter (fun _ => c) key (cached_tokens w))
                (posts w) (dlq w) (parked w))).

(** [if cached.as_ref().is_some_and(|v| v.value == token) { *cached = None }] *)
Definition drop_cached (key : CacheKey) (token : string) : M unit :=
  w ← read_offline;
  match cached_tokens w !! key with
  | Some (v, _) => if bool_decide (v = token) then set_cached key None else mret ()
  | None => mret ()
  end.

(** The round trip to the OAuth server. *)
Definition ask_oauth : M (option (string * Z)) := fun '(n, w) =>
  match fault n with
  | Works => (Ok (oauth ports n), (S n, w))
  | _ => (Err (vendor_failure "FCM OAuth transport failed"), (S n, w))
  end.

Definition bad_token_char (c : Ascii.ascii) : bool :=
  let n := Ascii.nat_of_ascii c in (n <? 33)%nat || (n =? 127)%nat.

(** A new token, kept until shortly before it runs out; signing the request succeeds. *)
Definition refresh_token (app : string) : M string :=
  reply ← ask_oauth;
  match reply with
  | None => lift_r (Err (vendor_failure "FCM OAuth rejected"))
  | Some (v, expires_in) =>
      if Str.is_empty v || (8192 <? String.length v)%nat || existsb bad_token_char (String.list_ascii_of_string v)
         || (expires_in <=? TOKEN_REFRESH_SKEW) || (86400 <? expires_in)
      then lift_r (Err (vendor_failure "FCM OAuth token lifetime or shape invalid"))
      else
        _ ← set_cached (app, FCM_PROVIDER) (Some (v, sat_sub (sat_add u64_max (now_secs ports) expires_in) TOKEN_REFRESH_SKEW));
        mret v
  end.

Definition access_token (app : string) : M string :=
  w ← read_offline;
  match cached_tokens w !! (app, FCM_PROVIDER) with
  | Some (v, refresh_after) => if now_secs ports <? refresh_after then mret v else refresh_token app
  | None => refresh_token app
  end.

(** What the vendor gets; when the reply is lost it may have taken the message all the same. *)
Definition post (t : DevicePushToken) : M VendorReply := fun '(n, w) =>
  let r := vendor ports n t in
  let sent := mkOffline (rows w) (slots w) (revoked w) (receipts w) (cached_tokens w) (posts w ++ [(t, r)]) (dlq w) (parked w) in
  match fault n with
  | Works => (Ok r, (S n, sent))
  | FailsBefore => (Ok NoReply, (S n, w))
  | FailsAfter => (Ok NoReply, (S n, sent))
  end.

(** The reply for one device. *)
Definition settle_reply (app : string) (t : DevicePushToken) (task : Task) (access : string) (r : VendorReply) : M unit :=
  match r with
  | NoReply => lift_r (Err (vendor_failure "FCM transport failed; acceptance unknown"))
  | Reply _ None => lift_r (Err (vendor_failure "push response unavailable"))
  | Reply status (Some b) =>
      if status =? 200 then
        if names_message b then record_accepted t task else lift_r (Err (vendor_failure "FCM acceptance response invalid"))
      else if is_unrecoverable_target status b then remove_device_token t
      else
        _ ← (if status =? 401 then drop_cached (app, FCM_PROVIDER) access else mret ());
        lift_r (Err (flare_err (if (500 <=? status) && (status <? 600) || (status =? 429) || (status =? 401)
                                then ServiceUnavailable else MessageDeliveryFailed) "FCM delivery rejected"))
  end.

(** A failure that may be retried outlives one that may not. *)
Definition keep_failure (failure : option FlareError) (e : FlareError) : option FlareError :=
  match failure with
  | Some previous => if retryable_error ports previous then failure else Some e
  | None => Some e
  end.

Fixpoint fcm_devices (app : string) (task : Task) (tokens : list DevicePushToken) (failure : option FlareError) : M (option FlareError) :=
  match tokens with
  | [] => mret failure
  | t :: tokens =>
      accepted ← was_accepted t task;
      if (accepted : bool) then fcm_devices app task tokens failure
      else
        access ← access_token app;
        cur ← is_current t;
        if negb cur then fcm_devices app task tokens failure
        else
          reply ← post t;
          on_result (settle_reply app t task access reply) (fun _ => fcm_devices app task tokens failure)
            (fun e => fcm_devices app task tokens (keep_failure failure e))
  end.

(** [failure.map_or(Ok(()), Err)] *)
Definition or_fail (failure : option FlareError) : M unit :=
  match failure with None => mret () | Some e => lift_r (Err e) end.

Definition mobile_alert_eligible (task : Task) : bool :=
  match task_payload_kind task with
  | Some TaskMessage => match decode_message (task_payload task) with
                        | Some req => existsb message_has_mobile_alert (pm_messages req)
                        | None => false
                        end
  | Some TaskEvent => match decode_event (task_payload task) with
                      | Some req => existsb event_has_mobile_alert (pr_events req)
                      | None => false
                      end
  | Some TaskNotification | Some TaskCustom => true
  | _ => false
  end.

(** [OfflinePushExecutor] *)
Abbreviation Executor := (Ctx -> Task -> M unit).

Definition fcm_deliver (app : string) : Executor := fun ctx task =>
  if negb (mobile_alert_eligible task) then mret ()
  else
    tokens ← list_user_tokens (task_tenant_id task) (task_user_id task);
    failure ← fcm_devices app task (filter (fun t => usable_for_provider t FCM_PROVIDER = true) tokens) None;
    or_fail failure.

(** ** Several vendors, and applications *)

(** Every backend is tried; here one after the other. *)
Fixpoint fan_out (backends : list Executor) (ctx : Ctx) (task : Task) (failure : option FlareError) : M (option FlareError) :=
  match backends with
  | [] => mret failure
  | b :: backends =>
      on_result (b ctx task) (fun _ => fan_out backends ctx task failure)
        (fun e => fan_out backends ctx task (keep_failure failure e))
  end.

Definition mobile_fanout (backends : list Executor) : Executor := fun ctx task =>
  failure ← fan_out backends ctx task None; or_fail failure.

Record ApplicationChannels := mkChannels { providers : list string; disabled : list string; executor : Executor }.

Definition application_delivery (applications : gmap string ApplicationChannels) : Executor := fun ctx task =>
  if negb (bool_decide (ctx_tenant_id ctx = Some (task_tenant_id task)))
  then lift_r (Err (flare_err PermissionDenied "push application context mismatch"))
  else
    registered ← list_user_tokens (task_tenant_id task) (task_user_id task);
    match applications !! task_tenant_id task with
    | None => if bool_decide (registered = []) then mret ()
              else lift_r (Err (flare_err InvalidParameter "push application credentials not configured"))
    | Some channels =>
        let missing := existsb (fun t => negb (bool_decide (tk_provider t ∈ providers channels))
                                         && negb (bool_decide (tk_provider t ∈ disabled channels))) registered in
        _ ← executor channels ctx task;
        if missing then lift_r (Err (flare_err InvalidParameter "push application provider credentials not configured"))
        else mret ()
    end.

(** ** The consumer *)

Definition is_expired (task : Task) : bool :=
  match task_expire_at task with
  | None => false
  | Some expire_at => if expire_at <=? 0 then false else expire_at <=? now_ms ports
  end.

Record OfflinePushHandler := mkOfflineHandler { has_dlq : bool; delivery : option Executor; parking_capacity : nat }.

Definition publish_dlq (ctx : Ctx) (conversation : string) (payload : Bytes) : M unit :=
  write fault (flare_err InternalError "dead letter publish failed")
    (fun w => mkOffline (rows w) (slots w) (revoked w) (receipts w) (cached_tokens w) (posts w)
                (dlq w ++ [(ctx, conversation, payload)]) (parked w)).

(** [OfflineParkingLot::park] of a lot of at least one *)
Definition park (capacity : nat) (task : Task) : M unit := fun '(n, w) =>
  (Ok (), (n, if decide (Nat.max capacity 1 <= length (parked w))%nat then w
              else mkOffline (rows w) (slots w) (revoked w) (receipts w) (cached_tokens w) (posts w) (dlq w)
                     (parked w ++ [mkParked (task_tenant_id task) (task_user_id task) (task_message_id task) (task_conversation_id task)]))).

(** [tokio::time::timeout] of a delivery: past the deadline its result is lost. A delivery that is
    cut short is one whose later round trips fail in the schedule. *)
Definition with_deadline (m : M unit) : M unit := fun s =>
  let '(r, s') := m s in
  if deadline_passed ports s'.1 then (Err (vendor_failure "offline delivery deadline; acceptance unknown"), s') else (r, s').

Definition dead_letter_then_ack (rec : BrokerRecord Bytes) (task : Task) : M (Consumed MessageResult) :=
  on_result (publish_dlq (rec_ctx rec) (task_conversation_id task) (rec_payload rec))
    (fun _ => mret (Settled Acked)) (fun _ => mret (Failed_ DeadLetterFailed)).

Definition handle_offline (h : OfflinePushHandler) (rec : BrokerRecord Bytes) : M (Consumed MessageResult) :=
  match decode_task (rec_payload rec) with
  | None => mret (Failed_ Deserialization)
  | Some task =>
      if is_expired task then mret (Settled Acked)
      else
        match delivery h with
        | None =>
            if has_dlq h then dead_letter_then_ack rec task
            else _ ← park (parking_capacity h) task; mret (Settled Acked)
        | Some deliver =>
            on_result (with_deadline (deliver (rec_ctx rec) task))
              (fun _ => mret (Settled Acked))
              (fun e => if retryable_error ports e then mret (Settled Nacked)
                        else if has_dlq h then dead_letter_then_ack rec task
                        else mret (Failed_ DeadLetterFailed))
        end
  end.

End Offline.
