(* ===== verification/MobilePush.v ===== *)
(** * APNs, Getui and the credentials of the applications

    flare-push/worker: the APNs channel (apns_push.rs), the Getui channel with its client
    (getui_push.rs), and the executors that the private credential file of the applications gives
    (mobile_credentials.rs). Keys that parse, signatures and JSON are parameters, as in
    [OfflinePush]; what a notification shows is left out. *)

From S2P Require Import Prelude.
From S2P Require Import Proto.
From S2P Require Import Database.
From S2P Require Import PushTypes.
From S2P Require Import PushRouter.
From S2P Require Import PushWorker.
From S2P Require Import OfflinePush.
From stdpp Require Import base gmap sets strings list.
From Stdlib Require Import Ascii ZArith Lia.

Open Scope Z_scope.

(** Classes of bytes. *)
Definition is_ascii_digit : Ascii.ascii -> bool := Str.in_range 48 57.
Definition is_ascii_uppercase : Ascii.ascii -> bool := Str.in_range 65 90.
Definition is_ascii_lowercase : Ascii.ascii -> bool := Str.in_range 97 122.
Definition is_ascii_alphabetic (c : Ascii.ascii) : bool := is_ascii_uppercase c || is_ascii_lowercase c.
Definition is_ascii_alphanumeric (c : Ascii.ascii) : bool := is_ascii_alphabetic c || is_ascii_digit c.
Definition is_ascii_hexdigit (c : Ascii.ascii) : bool := is_ascii_digit c || Str.in_range 65 70 c || Str.in_range 97 102 c.
Definition one_of (cs : list Ascii.ascii) (c : Ascii.ascii) : bool := bool_decide (c ∈ cs).

(** [StatusCode::is_server_error], [is_success] *)
Definition is_server_error (status : Z) : bool := (500 <=? status) && (status <? 600).
Definition is_success (status : Z) : bool := (200 <=? status) && (status <? 300).

(** ** APNs: the reply *)

Definition APNS_PROVIDER : string := "apns".
Definition TOKEN_TTL : Z := 50 * 60.

Definition is_dead_device_token (status : Z) (reason : string) : bool := (status =? 410) && bool_decide (reason = "Unregistered").

Definition parse_apns_reason (b : VendorBody) : string :=
  match body_reason b with
  | Some s => if (String.length s <=? 64)%nat && Str.all_chars is_ascii_alphabetic s then s else "Unknown"
  | None => "Unknown"
  end.

Definition invalidation_applies (status : Z) (b : VendorBody) (registered_at_ms : Z) : bool :=
  if negb (is_dead_device_token status (parse_apns_reason b)) then false
  else match body_timestamp b with
       | Some timestamp => (0 <? timestamp) && (registered_at_ms <=? timestamp)
       | None => false
       end.

(** ** Getui: the reply *)

Definition GETUI_PROVIDER : string := "getui".
Definition TOKEN_REFRESH_SKEW_MS : Z := 60000.
Definition GETUI_TOKEN_EXPIRED_CODE : Z := 10001.

Inductive GetuiPushOutcome := Delivered | InvalidTarget.

Definition http_status_error (status : Z) (operation : string) : FlareError :=
  flare_err (if (status =? 401) || (status =? 403) then AuthenticationRequired
             else if is_server_error status || (status =? 429) then ServiceUnavailable
             else MessageDeliveryFailed) (operation +:+ " http status").

Definition getui_business_error (code : Z) (operation : string) : FlareError :=
  flare_err (if code =? GETUI_TOKEN_EXPIRED_CODE then AuthenticationRequired
             else if bool_decide (code ∈ [2; 5000; 10003; 10005; 30012; 30013; 30014; 30015; 30018; 30019; 30021; 30022])
             then ServiceUnavailable else MessageDeliveryFailed) (operation +:+ " rejected").

Definition is_invalid_target_business_error (code : Z) (msg : string) : bool :=
  (code =? 20001) && bool_decide (Str.trim (Str.to_ascii_lowercase msg) ∈ ["target user is invalid"; "cid无效"]).

Definition retryable_getui_error : FlareError := vendor_failure "getui transport failed; acceptance unknown".

(** What [push_single_cid_with_token] makes of a reply. *)
Definition getui_outcome (r : VendorReply) : result GetuiPushOutcome :=
  match r with
  | NoReply => Err retryable_getui_error
  | Reply _ None => Err (vendor_failure "push response unavailable")
  | Reply status (Some b) =>
      let rest :=
        if negb (is_success status) then Err (http_status_error status "getui push single cid")
        else Err (flare_err ServiceUnavailable "getui push single cid response invalid") in
      match getui_response b with
      | Some (code, msg) =>
          if (code =? 0) && (status =? 200) then Ok Delivered
          else if (status =? 400) && is_invalid_target_business_error code msg then Ok InvalidTarget
          else if negb (code =? 0) && negb (is_server_error status) then Err (getui_business_error code "getui push single cid")
          else rest
      | None => rest
      end
  end.

(** ** The credentials *)

(** Whether the private key parses is a field: PEM is not part of the repository. *)
Record FcmServiceAccount := mkFcmAccount {
  fa_project_id : string;
  fa_client_email : string;
  fa_key_ok : bool;
  fa_token_uri : string;
}.

Record ApnsCredentials := mkApnsCredentials {
  ac_team_id : string;
  ac_key_id : string;
  ac_key_ok : bool;
  ac_topic : string;
}.

Record GetuiCredentials := mkGetuiCredentials { gc_app_id : string; gc_app_key : string; gc_master_secret : string }.

Record Application := mkApplication {
  ap_app_id : string;
  ap_disabled_providers : list string;
  ap_fcm : option FcmServiceAccount;
  ap_apns : option ApnsCredentials;
  ap_getui : option GetuiCredentials;
}.

Inductive OfflineDeliveryBackend := BackendOutbox | BackendGetui | BackendFcm | BackendApns | BackendMobile | BackendDisabled.

#[export] Instance OfflineDeliveryBackend_eq_dec : EqDecision OfflineDeliveryBackend.
Proof. solve_decision. Defined.

Definition rejected : FlareError := flare_err InvalidParameter "private per-application push credentials rejected".

Definition OAUTH_TOKEN_URI : string := "https://oauth2.googleapis.com/token".

(** The checks of [FcmOfflinePushExecutor::new] *)
Definition fcm_new (a : FcmServiceAccount) : result unit :=
  if negb (bool_decide (fa_token_uri a = OAUTH_TOKEN_URI)) || Str.is_empty (fa_project_id a) || (128 <? String.length (fa_project_id a))%nat
     || negb (Str.all_chars (fun c => is_ascii_alphanumeric c || one_of ["-"%char] c) (fa_project_id a))
     || (320 <? String.length (fa_client_email a))%nat || negb (Str.contains_char "@" (fa_client_email a))
  then Err (flare_err InvalidParameter "FCM service account configuration rejected")
  else if fa_key_ok a then Ok () else Err (flare_err InvalidParameter "FCM RSA private key rejected").

(** The checks of [ApnsOfflinePushExecutor::new] *)
Definition apns_new (c : ApnsCredentials) : result unit :=
  let bad s := negb (bool_decide (String.length s = 10%nat)) || negb (Str.all_chars (fun b => is_ascii_uppercase b || is_ascii_digit b) s) in
  if bad (ac_team_id c) || bad (ac_key_id c) || Str.is_empty (ac_topic c) || (255 <? String.length (ac_topic c))%nat
     || negb (Str.all_chars (fun b => is_ascii_alphanumeric b || one_of ["."%char; "-"%char] b) (ac_topic c))
  then Err (flare_err InvalidParameter "APNs configuration rejected")
  else if ac_key_ok c then Ok () else Err (flare_err InvalidParameter "APNs EC private key rejected").

(** [GetuiConfig::new] without a base URL of its own, which is then the vendor's for the app id *)
Definition getui_config_new (c : GetuiCredentials) : result unit :=
  let app_id := Str.trim (gc_app_id c) in
  if Str.is_empty app_id || Str.is_blank (gc_app_key c) || Str.is_blank (gc_master_secret c)
  then Err (flare_err InvalidParameter "getui app_id/app_key/master_secret are required")
  else if negb (Str.all_chars (fun b => is_ascii_alphanumeric b || one_of ["-"%char; "_"%char] b) app_id) || (128 <? String.length app_id)%nat
  then Err (flare_err InvalidParameter "getui credential destination rejected")
  else Ok ().

(** The names of [disabled_providers]: known, and each once. *)
Fixpoint disabled_names (ps disabled : list string) : result (list string) :=
  match ps with
  | [] => Ok disabled
  | p :: ps =>
      if negb (bool_decide (p ∈ ["apns"; "fcm"; "getui"])) || bool_decide (p ∈ disabled) then Err rejected
      else disabled_names ps (disabled ++ [p])
  end.

Section Mobile.
Context {Bytes : Type} `{PushCodec Bytes}.
Context (ports : @OfflinePorts Bytes) (fault : schedule).

Abbreviation M := (db (@OfflineWorld Bytes)).
Abbreviation Task := (PushTaskEnvelope Bytes).
Abbreviation Executor := (Ctx -> Task -> M unit).

(** ** APNs *)

Definition provider_token (app : string) : M string :=
  w ← read_offline;
  let sign :=
    match apns_jwt ports app (now_secs ports) with
    | None => lift_r (Err (flare_err InternalError "APNs JWT signing failed"))
    | Some jwt => _ ← set_cached (app, APNS_PROVIDER) (Some (jwt, now_secs ports + TOKEN_TTL)); mret jwt
    end in
  match cached_tokens w !! (app, APNS_PROVIDER) with
  | Some (v, refresh_after) => if now_secs ports <? refresh_after then mret v else sign
  | None => sign
  end.

(** The body is not read when the status is 200. *)
Definition apns_reply (t : DevicePushToken) (task : Task) (r : VendorReply) : M unit :=
  match r with
  | NoReply => lift_r (Err (vendor_failure "APNs transport failed; acceptance unknown"))
  | Reply status body =>
      if status =? 200 then record_accepted ports fault t task
      else
        match body with
        | None => lift_r (Err (vendor_failure "push response unavailable"))
        | Some b =>
            if invalidation_applies status b (tk_registered_at_ms t) then remove_device_token ports fault t
            else lift_r (Err (flare_err (if is_server_error status || (status =? 429) || (status =? 410)
                                         then ServiceUnavailable else MessageDeliveryFailed) "APNs delivery rejected"))
        end
  end.

Fixpoint apns_devices (app : string) (task : Task) (tokens : list DevicePushToken) (failure : option FlareError) : M (option FlareError) :=
  match tokens with
  | [] => mret failure
  | t :: tokens =>
      accepted ← was_accepted ports fault t task;
      if (accepted : bool) then apns_devices app task tokens failure
      else if (512 <? String.length (tk_token t))%nat || negb (Str.all_chars is_ascii_hexdigit (tk_token t))
      then lift_r (Err (flare_err MessageDeliveryFailed "APNs device token shape rejected"))
      else
        _ ← provider_token app;
        cur ← is_current fault t;
        if negb cur then apns_devices app task tokens failure
        else
          reply ← post ports fault t;
          on_result (apns_reply t task reply) (fun _ => apns_devices app task tokens failure)
            (fun e => apns_devices app task tokens (keep_failure ports failure e))
  end.

Definition apns_deliver (app : string) : Executor := fun ctx task =>
  if negb (mobile_alert_eligible task) then mret ()
  else
    tokens ← list_user_tokens ports fault (task_tenant_id task) (task_user_id task);
    failure ← apns_devices app task (filter (fun t => usable_for_provider t APNS_PROVIDER = true) tokens) None;
    or_fail failure.

(** ** Getui *)

Definition ask_getui_auth : M GetuiAuthReply := fun '(n, w) =>
  match fault n with
  | Works => (Ok (getui_auth ports n), (S n, w))
  | _ => (Ok AuthLost, (S n, w))
  end.

Definition authenticate (timestamp_ms : Z) : M (string * Z) :=
  reply ← ask_getui_auth;
  lift_r
    match reply with
    | AuthLost => Err retryable_getui_error
    | AuthReply _ None => Err (vendor_failure "getui auth response invalid")
    | AuthReply status (Some (code, data)) =>
        if negb (code =? 0) then Err (getui_business_error code "getui auth")
        else if negb (is_success status) then Err (http_status_error status "getui auth")
        else
          match data with
          | None => Err (flare_err ServiceUnavailable "getui auth response missing token data")
          | Some (token, expire_time) =>
              if Str.is_blank token || (8192 <? String.length token)%nat || existsb bad_token_char (String.list_ascii_of_string token)
                 || (expire_time <=? timestamp_ms + TOKEN_REFRESH_SKEW_MS)
              then Err (flare_err ServiceUnavailable "getui auth response token is empty")
              else Ok (token, expire_time)
          end
    end.

Definition bearer_token (app : string) : M string :=
  w ← read_offline;
  let renew :=
    x ← authenticate (now_ms ports);
    _ ← set_cached (app, GETUI_PROVIDER) (Some x);
    mret x.1 in
  match cached_tokens w !! (app, GETUI_PROVIDER) with
  | Some (token, expire_time) => if now_ms ports + TOKEN_REFRESH_SKEW_MS <? expire_time then mret token else renew
  | None => renew
  end.

Definition push_single_cid_with_token (t : DevicePushToken) : M GetuiPushOutcome :=
  reply ← post ports fault t; lift_r (getui_outcome reply).

Definition push_single_cid (app : string) (t : DevicePushToken) : M GetuiPushOutcome :=
  token ← bearer_token app;
  on_result (push_single_cid_with_token t) mret
    (fun e => if bool_decide (err_code e = AuthenticationRequired) then
                _ ← drop_cached (app, GETUI_PROVIDER) token;
                _ ← bearer_token app;
                push_single_cid_with_token t
              else lift_r (Err e)).

Fixpoint getui_devices (app : string) (task : Task) (tokens : list DevicePushToken) (terminal : option FlareError) : M (option FlareError) :=
  match tokens with
  | [] => mret terminal
  | t :: tokens =>
      accepted ← was_accepted ports fault t task;
      if (accepted : bool) then getui_devices app task tokens terminal
      else
        cur ← is_current fault t;
        if negb cur then getui_devices app task tokens terminal
        else
          on_result (push_single_cid app t)
            (fun outcome =>
               _ ← match outcome with
                   | Delivered => record_accepted ports fault t task
                   | InvalidTarget => remove_device_token ports fault t
                   end;
               getui_devices app task tokens terminal)
            (fun e => if retryable_error ports e then lift_r (Err e)
                      else getui_devices app task tokens (match terminal with Some _ => terminal | None => Some e end))
  end.

Definition getui_deliver (app : string) : Executor := fun ctx task =>
  if negb (mobile_alert_eligible task) then mret ()
  else
    tokens ← list_user_tokens ports fault (task_tenant_id task) (task_user_id task);
    match filter (fun t => usable_for_provider t GETUI_PROVIDER = true) tokens with
    | [] => mret ()
    | usable => terminal ← getui_devices app task usable None; or_fail terminal
    end.

(** ** The executors of the applications *)

(** [UsageCountedExecutor], less the counting: its deadline. *)
Definition usage_counted (ex : Executor) : Executor := fun ctx task => with_deadline ports (ex ctx task).

(** A provider with credentials: its backend is allowed, and its executor could be built. *)
Definition configure {A} (allowed : list OfflineDeliveryBackend) (backend : OfflineDeliveryBackend) (credentials : option A)
    (new : A -> result unit) (name : string) (ex : Executor) : result (list (string * Executor)) :=
  match credentials with
  | None => Ok []
  | Some c =>
      if negb (bool_decide (backend ∈ allowed)) then Err rejected
      else _ ← new c; Ok [(name, usage_counted ex)]
  end.

Definition application_channels (allowed : list OfflineDeliveryBackend) (app : Application) : result (@ApplicationChannels Bytes) :=
  let id := ap_app_id app in
  disabled ← disabled_names (ap_disabled_providers app) [];
  fcm ← configure allowed BackendFcm (ap_fcm app) fcm_new FCM_PROVIDER (fcm_deliver ports fault id);
  apns ← configure allowed BackendApns (ap_apns app) apns_new APNS_PROVIDER (apns_deliver id);
  getui ← configure allowed BackendGetui (ap_getui app) getui_config_new GETUI_PROVIDER (getui_deliver id);
  let channels := fcm ++ apns ++ getui in
  if (bool_decide (channels = []) && bool_decide (disabled = [])) || existsb (fun p => bool_decide (p ∈ disabled)) channels.*1
  then Err rejected
  else Ok (mkChannels channels.*1 disabled (mobile_fanout ports channels.*2)).

Definition app_id_rejected (id : string) : bool :=
  Str.is_empty id || (128 <? String.length id)%nat || negb (Str.all_chars (fun c => is_ascii_alphanumeric c || one_of ["_"%char; "-"%char] c) id).

Fixpoint assemble_from (allowed : list OfflineDeliveryBackend) (applications : list Application) (apps : gmap string (@ApplicationChannels Bytes))
    : result (gmap string (@ApplicationChannels Bytes)) :=
  match applications with
  | [] => Ok apps
  | app :: applications =>
      if app_id_rejected (ap_app_id app) || bool_decide (is_Some (apps !! ap_app_id app)) then Err rejected
      else channels ← application_channels allowed app; assemble_from allowed applications (<[ap_app_id app := channels]> apps)
  end.

Definition assemble (allowed : list OfflineDeliveryBackend) (applications : list Application) : result (gmap string (@ApplicationChannels Bytes)) :=
  assemble_from allowed applications ∅.

End Mobile.
