(* ===== verification/OfflinePushFacts.v ===== *)
(** * What becomes of offline tasks

    Theorems about [OfflinePush] and [MobilePush]: a task is acknowledged only when it is settled
    for every registered device, and a device whose acceptance is on record is not pushed to
    again. *)

From S2P Require Import Prelude.
From S2P Require Import Proto.
From S2P Require Import Database.
From S2P Require Import PushTypes.
From S2P Require Import PushRouter.
From S2P Require Import PushWorker.
From S2P Require Import OfflinePush.
From S2P Require Import MobilePush.
From stdpp Require Import base gmap sets strings list.
From Stdlib Require Import ZArith Lia.

Open Scope Z_scope.

Section Facts.
Context {Bytes : Type} `{PushCodec Bytes}.
Context (ports : @OfflinePorts Bytes) (fault : schedule).

Abbreviation World := (@OfflineWorld Bytes).
Abbreviation Task := (PushTaskEnvelope Bytes).

(** ** Progress *)

(** Receipts stay, registrations only lapse, what the vendor got stays. *)
Record progress (w w' : World) : Prop := {
  pr_receipts : receipts w ⊆ receipts w';
  pr_current t : current w' t = true -> current w t = true;
  pr_posts p : p ∈ posts w -> p ∈ posts w';
}.

#[export] Instance progress_preorder : PreOrder progress.
Proof.
  split.
  - by intros w.
  - intros w1 w2 w3 [A1 B1 C1] [A2 B2 C2]. split; [set_solver|auto|auto].
Qed.

(** A reply that says the token is gone for good, as the vendor of the token puts it. *)
Definition says_gone (t : DevicePushToken) (r : VendorReply) : bool :=
  match r with
  | Reply status (Some b) =>
      if bool_decide (tk_provider t = FCM_PROVIDER) then negb (status =? 200) && is_unrecoverable_target status b
      else if bool_decide (tk_provider t = APNS_PROVIDER) then negb (status =? 200) && invalidation_applies status b (tk_registered_at_ms t)
      else match getui_outcome r with Ok InvalidTarget => true | _ => false end
  | _ => false
  end.

(** The device is done with: it accepted the task, its registration lapsed, or the vendor said it is gone. *)
Definition settled (task : Task) (t : DevicePushToken) (w : World) : Prop :=
  receipt_key ports t task ∈ receipts w \/ current w t = false \/ exists r, (t, r) ∈ posts w /\ says_gone t r = true.

Lemma settled_progress task t w w' : progress w w' -> settled task t w -> settled task t w'.
Proof.
  intros [A B C] [Hr|[Hc|(r & Hin & Hu)]]; [left; set_solver|right; left|right; right; eauto].
  destruct (current w' t) eqn:E; [|done]. apply B in E. congruence.
Qed.

(** A step that leaves the registry, the receipts and the vendors alone. *)
Definition same_devices (w w' : World) : Prop :=
  rows w' = rows w /\ receipts w' = receipts w /\ slots w' = slots w /\ posts w' = posts w.

#[export] Instance same_devices_preorder : PreOrder same_devices.
Proof. split; [done|]. intros w1 w2 w3 (?&?&?&?) (?&?&?&?). unfold same_devices. split_and!; congruence. Qed.

Lemma same_progress w w' : same_devices w w' -> progress w w'.
Proof. intros (_ & Er & Es & Ep). split; [by rewrite Er| |by rewrite Ep]. intros t. unfold current, slot_of. by rewrite Es. Qed.

(** A step on behalf of one device: the vendor gets nothing for another. *)
Record attempt (t : DevicePushToken) (w w' : World) : Prop := {
  at_progress : progress w w';
  at_posts : exists new, posts w' = posts w ++ new /\ Forall (fun p => p.1 = t) new;
}.

#[export] Instance attempt_preorder t : PreOrder (attempt t).
Proof.
  split.
  - intros w. split; [done|]. exists []. by rewrite app_nil_r.
  - intros w1 w2 w3 [P1 (k1 & E1 & F1)] [P2 (k2 & E2 & F2)]. split; [by etrans|].
    exists (k1 ++ k2). split; [by rewrite E2, E1, app_assoc|]. by apply Forall_app.
Qed.

Lemma same_attempt t w w' : same_devices w w' -> attempt t w w'.
Proof. intros Hs. split; [by apply same_progress|]. exists []. rewrite app_nil_r. split; [apply Hs|done]. Qed.

Lemma keeps_weaken {A} (R R' : relation World) (m : db World A) : (forall w w', R w w' -> R' w w') -> keeps R m -> keeps R' m.
Proof. intros Hsub Hm n w. by apply Hsub. Qed.

(** ** The steps *)

Lemma keeps_read_offline : keeps same_devices (read_offline (Bytes := Bytes)).
Proof. by intros n w. Qed.

Lemma keeps_set_cached key c : keeps same_devices (set_cached (Bytes := Bytes) key c).
Proof. by intros n w. Qed.

Lemma keeps_drop_cached key token : keeps same_devices (drop_cached (Bytes := Bytes) key token).
Proof.
  unfold drop_cached. apply keeps_bind; [exact _|apply keeps_read_offline|]. intros w. destruct (cached_tokens w !! key) as [[v e]|]; [|apply keeps_ret, _].
  case_bool_decide; [apply keeps_set_cached|apply keeps_ret, _].
Qed.

Lemma keeps_access_token app : keeps same_devices (access_token ports fault app).
Proof.
  assert (Href : keeps same_devices (refresh_token ports fault app)).
  { unfold refresh_token. apply keeps_bind; [exact _|intros n w; unfold ask_oauth; by destruct (fault n)|]. intros [[v e]|]; [|apply keeps_lift, _].
    destruct (_ || _); [apply keeps_lift, _|]. apply keeps_bind; [exact _|apply keeps_set_cached|intros; apply keeps_ret, _]. }
  unfold access_token. apply keeps_bind; [exact _|apply keeps_read_offline|]. intros w. destruct (cached_tokens w !! _) as [[v refresh]|]; [|exact Href].
  destruct (_ <? _); [apply keeps_ret, _|exact Href].
Qed.

Lemma keeps_provider_token app : keeps same_devices (provider_token ports app).
Proof.
  unfold provider_token. apply keeps_bind; [exact _|apply keeps_read_offline|]. intros w. cbn zeta.
  assert (Hs : keeps same_devices (match apns_jwt ports app (now_secs ports) with
    | None => lift_r (Err (flare_err InternalError "APNs JWT signing failed"))
    | Some jwt => _ ← set_cached (Bytes := Bytes) (app, APNS_PROVIDER) (Some (jwt, now_secs ports + TOKEN_TTL)); mret jwt end)).
  { destruct (apns_jwt _ _ _); [|apply keeps_lift, _]. apply keeps_bind; [exact _|apply keeps_set_cached|intros; apply keeps_ret, _]. }
  destruct (cached_tokens w !! _) as [[v e]|]; [|exact Hs]. destruct (_ <? _); [apply keeps_ret, _|exact Hs].
Qed.

Lemma keeps_bearer_token app : keeps same_devices (bearer_token ports fault app).
Proof.
  unfold bearer_token. apply keeps_bind; [exact _|apply keeps_read_offline|]. intros w. cbn zeta.
  assert (Hr : keeps same_devices (x ← authenticate ports fault (now_ms ports); _ ← set_cached (app, GETUI_PROVIDER) (Some x); mret x.1)).
  { apply keeps_bind; [exact _| |intros x; apply keeps_bind; [exact _|apply keeps_set_cached|intros; apply keeps_ret, _]].
    unfold authenticate. apply keeps_bind; [exact _|intros n w0; unfold ask_getui_auth; by destruct (fault n)|]. intros r. apply keeps_lift, _. }
  destruct (cached_tokens w !! _) as [[v e]|]; [|exact Hr]. destruct (_ <? _); [apply keeps_ret, _|exact Hr].
Qed.

Lemma keeps_post t : keeps (attempt t) (post ports fault t).
Proof.
  intros n w. unfold post. cbn zeta.
  assert (Hsent : forall v, attempt t w (mkOffline (rows w) (slots w) (revoked w) (receipts w) (cached_tokens w) (posts w ++ [(t, v)]) (dlq w) (parked w))).
  { intros v. split; [split; cbn; [done|done|set_solver]|]. exists [(t, v)]. split; [done|by apply Forall_singleton]. }
  destruct (fault n); cbn; [apply Hsent|reflexivity|apply Hsent].
Qed.

(** A reply that came is of a post that was made. *)
Lemma post_posted t n w r n' w' : post ports fault t (n, w) = (Ok r, (n', w')) -> r <> NoReply -> (t, r) ∈ posts w'.
Proof. unfold post. cbn zeta. destruct (fault n); intros [= <- <- <-]; try done. intros _. cbn. set_solver. Qed.

Lemma keeps_record_accepted t task : keeps (attempt t) (record_accepted ports fault t task).
Proof.
  apply keeps_write; [exact _|]. intros w. split; [split; cbn; [set_solver|done|done]|]. exists []. by rewrite app_nil_r.
Qed.

Lemma record_accepted_ok t task n w n' w' :
  record_accepted ports fault t task (n, w) = (Ok (), (n', w')) -> receipt_key ports t task ∈ receipts w'.
Proof. unfold record_accepted, write, exec. destruct (fault n); cbn; intros [= <- <-]. cbn. set_solver. Qed.

Lemma keeps_remove t : keeps (attempt t) (remove_device_token ports fault t).
Proof.
  apply keeps_write; [exact _|]. intros w. unfold remove_observed. cbn zeta.
  destruct (default ∅ _ !! _) as [raw|]; [|reflexivity]. destruct (parse_row ports raw) as [row|]; [|reflexivity].
  destruct (_ && _); [|reflexivity]. split; [|exists []; by rewrite app_nil_r]. split; cbn; [done| |done].
  intros t'. unfold current, slot_of. cbn. destruct (slots w !! (tk_tenant_id t, tk_provider t, tk_device_id t)) as [s|] eqn:Es; [|done].
  case_bool_decide; [|done]. rewrite lookup_insert. case_decide as Ek; [|done]. cbn. done.
Qed.

Lemma keeps_fcm_reply app t task access r : keeps (attempt t) (settle_reply ports fault app t task access r).
Proof.
  destruct r as [|status [b|]]; cbn; [apply keeps_lift, _| |apply keeps_lift, _].
  destruct (status =? 200); [destruct (names_message b); [apply keeps_record_accepted|apply keeps_lift, _]|].
  destruct (is_unrecoverable_target _ _); [apply keeps_remove|]. apply keeps_bind; [exact _| |intros; apply keeps_lift, _].
  destruct (status =? 401); [|apply keeps_ret, _]. eapply keeps_weaken; [apply same_attempt|apply keeps_drop_cached].
Qed.

Lemma keeps_apns_reply t task r : keeps (attempt t) (apns_reply ports fault t task r).
Proof.
  destruct r as [|status b]; cbn; [apply keeps_lift, _|]. destruct (status =? 200); [apply keeps_record_accepted|].
  destruct b as [b|]; [|apply keeps_lift, _]. destruct (invalidation_applies _ _ _); [apply keeps_remove|apply keeps_lift, _].
Qed.

Lemma keeps_push_with_token t : keeps (attempt t) (push_single_cid_with_token ports fault t).
Proof. apply keeps_bind; [exact _|apply keeps_post|intros; apply keeps_lift, _]. Qed.

Lemma keeps_push_single_cid app t : keeps (attempt t) (push_single_cid ports fault app t).
Proof.
  assert (Hb : keeps (attempt t) (bearer_token ports fault app)) by (eapply keeps_weaken; [apply same_attempt|apply keeps_bearer_token]).
  apply keeps_bind; [exact _|exact Hb|]. intros token.
  apply keeps_on_result; [exact _|apply keeps_push_with_token|intros; apply keeps_ret, _|]. intros e. case_bool_decide; [|apply keeps_lift, _].
  apply keeps_bind; [exact _|eapply keeps_weaken; [apply same_attempt|apply keeps_drop_cached]|intros _].
  apply keeps_bind; [exact _|exact Hb|intros _]. apply keeps_push_with_token.
Qed.

(** A reply that settles the device. *)
Lemma settle_reply_ok app t task access r n w n' w' :
  settle_reply ports fault app t task access r (n, w) = (Ok (), (n', w')) -> tk_provider t = FCM_PROVIDER ->
  receipt_key ports t task ∈ receipts w' \/ says_gone t r = true.
Proof.
  intros E Hp. unfold says_gone. rewrite bool_decide_eq_true_2 by done. destruct r as [|status [b|]]; cbn in E |- *; [done| |done].
  destruct (status =? 200); [destruct (names_message b); [left; by eapply record_accepted_ok|done]|].
  destruct (is_unrecoverable_target status b); [by right|]. unfold mbind, stE_bind in E.
  destruct (status =? 401); [destruct (drop_cached _ _ (n, w)) as [[[]|] [n1 w1]]|]; done.
Qed.

Lemma apns_reply_ok t task r n w n' w' :
  apns_reply ports fault t task r (n, w) = (Ok (), (n', w')) -> tk_provider t = APNS_PROVIDER ->
  receipt_key ports t task ∈ receipts w' \/ says_gone t r = true.
Proof.
  intros E Hp. unfold says_gone. rewrite Hp. cbn [bool_decide]. destruct r as [|status b]; cbn in E |- *; [done|].
  destruct (status =? 200); [left; by eapply record_accepted_ok|]. destruct b as [b|]; [|done].
  destruct (invalidation_applies _ _ _); [by right|done].
Qed.

Lemma push_with_token_gone t n w n' w' :
  push_single_cid_with_token ports fault t (n, w) = (Ok InvalidTarget, (n', w')) -> tk_provider t = GETUI_PROVIDER ->
  exists r, (t, r) ∈ posts w' /\ says_gone t r = true.
Proof.
  unfold push_single_cid_with_token, mbind, stE_bind. destruct (post ports fault t (n, w)) as [[r|] [n1 w1]] eqn:E; [|done].
  unfold lift_r. intros [= Ho <- <-] Hp. exists r. split; [eapply post_posted; [exact E|]; by intros ->|].
  unfold says_gone. rewrite Hp. cbn [bool_decide]. destruct r as [|status [b|]]; [done| |done]. by rewrite Ho.
Qed.

Lemma push_single_cid_gone app t n w n' w' :
  push_single_cid ports fault app t (n, w) = (Ok InvalidTarget, (n', w')) -> tk_provider t = GETUI_PROVIDER ->
  exists r, (t, r) ∈ posts w' /\ says_gone t r = true.
Proof.
  unfold push_single_cid, mbind, stE_bind, on_result. destruct (bearer_token ports fault app (n, w)) as [[token|] [n1 w1]]; [|done].
  destruct (push_single_cid_with_token ports fault t (n1, w1)) as [[o|e] [n2 w2]] eqn:E1.
  - intros [= -> -> ->] Hp. by eapply push_with_token_gone.
  - case_bool_decide; [|done]. destruct (drop_cached _ _ (n2, w2)) as [[[]|] [n3 w3]]; [|done].
    destruct (bearer_token ports fault app (n3, w3)) as [[token'|] [n4 w4]]; [|done]. intros E2 Hp. by eapply push_with_token_gone.
Qed.

(** ** The devices of a task *)

(** Posts to devices of the list that had no receipt and were current. *)
Definition fresh_posts (task : Task) (l : list DevicePushToken) (w w' : World) : Prop :=
  exists new, posts w' = posts w ++ new /\
    Forall (fun p => p.1 ∈ l /\ receipt_key ports p.1 task ∉ receipts w /\ current w p.1 = true) new.

Lemma fresh_none task l w w' : posts w' = posts w -> fresh_posts task l w w'.
Proof. intros E. exists []. by rewrite E, app_nil_r. Qed.

Lemma fresh_trans task l1 l2 l w1 w2 w3 :
  progress w1 w2 -> (forall t, t ∈ l1 \/ t ∈ l2 -> t ∈ l) -> fresh_posts task l1 w1 w2 -> fresh_posts task l2 w2 w3 -> fresh_posts task l w1 w3.
Proof.
  intros Hp Hl (k1 & E1 & F1) (k2 & E2 & F2). exists (k1 ++ k2). split; [by rewrite E2, E1, app_assoc|]. apply Forall_app; split.
  - eapply Forall_impl; [exact F1|]. intros p (? & ? & ?). auto.
  - eapply Forall_impl; [exact F2|]. intros p (? & Hr & Hc). split_and!; [auto| |by eapply pr_current]. pose proof (pr_receipts _ _ Hp). set_solver.
Qed.

(** What is done for a device without a receipt that is current. *)
Lemma attempt_fresh task t w w' :
  attempt t w w' -> receipt_key ports t task ∉ receipts w -> current w t = true -> fresh_posts task [t] w w'.
Proof.
  intros [_ (new & E & F)] Hr Hc. exists new. split; [done|]. eapply Forall_impl; [exact F|]. intros p ->. split_and!; [left|done|done].
Qed.

Lemma keep_failure_some failure e : keep_failure ports failure e <> None.
Proof. unfold keep_failure. destruct failure; [destruct (retryable_error _ _)|]; done. Qed.

(** What handling a list of devices guarantees, from a failure so far. *)
Definition devices_ok (task : Task) (l : list DevicePushToken) (failure : option FlareError) (w : World)
    (out : result (option FlareError) * (nat * World)) : Prop :=
  progress w out.2.2 /\ fresh_posts task l w out.2.2 /\
  (out.1 = Ok None -> failure = None /\ forall t, t ∈ l -> settled task t out.2.2).

Lemma devices_none task failure n w : devices_ok task [] failure w (Ok failure, (n, w)).
Proof.
  split; [reflexivity|]. split; [by apply fresh_none|]. cbn. intros [= ->]. split; [done|]. by intros t ?%elem_of_nil.
Qed.

(** One device, then the rest. *)
Lemma devices_next task t l failure failure' w w1 out :
  progress w w1 -> fresh_posts task [t] w w1 -> devices_ok task l failure' w1 out ->
  (failure' = None -> failure = None /\ settled task t w1) -> devices_ok task (t :: l) failure w out.
Proof.
  intros Hp Hfr (Hp1 & Hf & Hset) Ht. split; [by etrans|]. split; [eapply fresh_trans; [exact Hp| |exact Hfr|exact Hf]; set_solver|].
  intros Hout. destruct (Hset Hout) as [Hf' Hall]. destruct (Ht Hf') as [-> Hst]. split; [done|].
  intros t' [->|Hin]%elem_of_cons; [by eapply settled_progress|by apply Hall].
Qed.

(** One device that is skipped. *)
Lemma devices_skip task t l failure w w1 out :
  same_devices w w1 -> devices_ok task l failure w1 out -> settled task t w1 -> devices_ok task (t :: l) failure w out.
Proof.
  intros Hs Ho Ht. eapply devices_next; [by apply same_progress|apply fresh_none, Hs|exact Ho|done].
Qed.

(** A device on which everything ends. *)
Lemma devices_stop task t l failure w e n1 w1 :
  progress w w1 -> fresh_posts task [t] w w1 -> devices_ok task (t :: l) failure w (Err e, (n1, w1)).
Proof.
  intros Hp (new & E & F). split; [done|]. split; [|done]. exists new. split; [done|].
  eapply Forall_impl; [exact F|]. intros p (Hin%list_elem_of_singleton & ? & ?). split_and!; [rewrite Hin; left|done|done].
Qed.

Lemma devices_broken task t l failure w e n1 w1 : same_devices w w1 -> devices_ok task (t :: l) failure w (Err e, (n1, w1)).
Proof. intros Hs. apply devices_stop; [by apply same_progress|apply fresh_none, Hs]. Qed.

Lemma query_run {A} err (f : World -> A) n w r n' w' :
  query fault err f (n, w) = (r, (n', w')) -> w' = w /\ forall a, r = Ok a -> a = f w.
Proof. unfold query, exec. destruct (fault n); cbn; intros [= <- <- <-]; split; try done; by intros a [= <-]. Qed.

(** The two queries about a device: a receipt settles it, and so does a registration that lapsed. *)
Lemma was_accepted_run task t n w r n' w' :
  was_accepted ports fault t task (n, w) = (r, (n', w')) ->
  w' = w /\ match r with Ok true => settled task t w | Ok false => receipt_key ports t task ∉ receipts w | Err _ => True end.
Proof.
  intros E. destruct (query_run _ _ _ _ _ _ _ E) as [-> Hr]. split; [done|]. destruct r as [b|]; [|done]. specialize (Hr b eq_refl).
  symmetry in Hr. destruct b; [left; by apply bool_decide_eq_true in Hr|by apply bool_decide_eq_false in Hr].
Qed.

Lemma is_current_run task t n w r n' w' :
  is_current fault t (n, w) = (r, (n', w')) ->
  w' = w /\ match r with Ok true => current w t = true | Ok false => settled task t w | Err _ => True end.
Proof.
  intros E. destruct (query_run _ _ _ _ _ _ _ E) as [-> Hr]. split; [done|]. destruct r as [b|]; [|done]. specialize (Hr b eq_refl).
  destruct b; [done|]. right. by left.
Qed.

Lemma same_current w w' t : same_devices w w' -> current w' t = current w t.
Proof. intros (_ & _ & E & _). unfold current, slot_of. by rewrite E. Qed.

Lemma fcm_devices_ok app task l failure n w :
  Forall (fun t => tk_provider t = FCM_PROVIDER) l -> devices_ok task l failure w (fcm_devices ports fault app task l failure (n, w)).
Proof.
  intros Hl. revert failure n w. induction Hl as [|t l Hprov Hl IH]; intros failure n w; [apply devices_none|]. cbn [fcm_devices].
  unfold mbind, stE_bind. destruct (was_accepted ports fault t task (n, w)) as [ra [n1 w1]] eqn:Ea.
  destruct (was_accepted_run _ _ _ _ _ _ _ Ea) as [-> Ha]. destruct ra as [[]|e]; [by eapply devices_skip| |by apply devices_broken].
  pose proof (keeps_access_token app n1 w) as Hs. destruct (access_token ports fault app (n1, w)) as [[access|e] [n2 w2]]; cbn in Hs; [|by apply devices_broken].
  destruct (is_current fault t (n2, w2)) as [rc [n3 w3]] eqn:Ec. destruct (is_current_run task _ _ _ _ _ _ Ec) as [-> Hc].
  destruct rc as [[]|e]; cbn [negb]; [|by eapply devices_skip|by apply devices_broken].
  pose proof (keeps_post t n3 w2) as Hpost. destruct (post ports fault t (n3, w2)) as [[reply|e] [n4 w4]] eqn:Ep; cbn in Hpost.
  2:{ unfold post in Ep. destruct (fault n3); done. }
  unfold on_result. pose proof (keeps_fcm_reply app t task access reply n4 w4) as Hrep.
  destruct (settle_reply ports fault app t task access reply (n4, w4)) as [rs [n5 w5]] eqn:Esr. cbn in Hrep.
  assert (Hat : attempt t w w5) by (etrans; [by apply same_attempt|by etrans]).
  pose proof (attempt_fresh task t w w5 Hat Ha ltac:(by rewrite <- (same_current w w2))) as Hfr.
  destruct rs as [[]|e]; (eapply devices_next; [apply Hat|exact Hfr|apply IH|]); [|by intros ?%keep_failure_some].
  intros ->. split; [done|]. destruct (settle_reply_ok _ _ _ _ _ _ _ _ _ Esr Hprov) as [Hr|Hu]; [by left|]. right; right. exists reply.
  split; [|done]. apply (pr_posts _ _ (at_progress _ _ _ Hrep)). eapply post_posted; [exact Ep|]. by intros ->.
Qed.

Lemma apns_devices_ok app task l failure n w :
  Forall (fun t => tk_provider t = APNS_PROVIDER) l -> devices_ok task l failure w (apns_devices ports fault app task l failure (n, w)).
Proof.
  intros Hl. revert failure n w. induction Hl as [|t l Hprov Hl IH]; intros failure n w; [apply devices_none|]. cbn [apns_devices].
  unfold mbind, stE_bind. destruct (was_accepted ports fault t task (n, w)) as [ra [n1 w1]] eqn:Ea.
  destruct (was_accepted_run _ _ _ _ _ _ _ Ea) as [-> Ha]. destruct ra as [[]|e]; [by eapply devices_skip| |by apply devices_broken].
  destruct (_ || _); [by apply devices_broken|].
  pose proof (keeps_provider_token app n1 w) as Hs. destruct (provider_token ports app (n1, w)) as [[access|e] [n2 w2]]; cbn in Hs; [|by apply devices_broken].
  destruct (is_current fault t (n2, w2)) as [rc [n3 w3]] eqn:Ec. destruct (is_current_run task _ _ _ _ _ _ Ec) as [-> Hc].
  destruct rc as [[]|e]; cbn [negb]; [|by eapply devices_skip|by apply devices_broken].
  pose proof (keeps_post t n3 w2) as Hpost. destruct (post ports fault t (n3, w2)) as [[reply|e] [n4 w4]] eqn:Ep; cbn in Hpost.
  2:{ unfold post in Ep. destruct (fault n3); done. }
  unfold on_result. pose proof (keeps_apns_reply t task reply n4 w4) as Hrep.
  destruct (apns_reply ports fault t task reply (n4, w4)) as [rs [n5 w5]] eqn:Esr. cbn in Hrep.
  assert (Hat : attempt t w w5) by (etrans; [by apply same_attempt|by etrans]).
  pose proof (attempt_fresh task t w w5 Hat Ha ltac:(by rewrite <- (same_current w w2))) as Hfr.
  destruct rs as [[]|e]; (eapply devices_next; [apply Hat|exact Hfr|apply IH|]); [|by intros ?%keep_failure_some].
  intros ->. split; [done|]. destruct (apns_reply_ok _ _ _ _ _ _ _ Esr Hprov) as [Hr|Hu]; [by left|]. right; right. exists reply.
  split; [|done]. apply (pr_posts _ _ (at_progress _ _ _ Hrep)). eapply post_posted; [exact Ep|]. by intros ->.
Qed.

Lemma getui_devices_ok app task l failure n w :
  Forall (fun t => tk_provider t = GETUI_PROVIDER) l -> devices_ok task l failure w (getui_devices ports fault app task l failure (n, w)).
Proof.
  intros Hl. revert failure n w. induction Hl as [|t l Hprov Hl IH]; intros failure n w; [apply devices_none|]. cbn [getui_devices].
  unfold mbind, stE_bind. destruct (was_accepted ports fault t task (n, w)) as [ra [n1 w1]] eqn:Ea.
  destruct (was_accepted_run _ _ _ _ _ _ _ Ea) as [-> Ha]. destruct ra as [[]|e]; [by eapply devices_skip| |by apply devices_broken].
  destruct (is_current fault t (n1, w)) as [rc [n2 w2]] eqn:Ec. destruct (is_current_run task _ _ _ _ _ _ Ec) as [-> Hc].
  destruct rc as [[]|e]; cbn [negb]; [|by eapply devices_skip|by apply devices_broken].
  unfold on_result. pose proof (keeps_push_single_cid app t n2 w) as Hat.
  destruct (push_single_cid ports fault app t (n2, w)) as [[outcome|e] [n3 w3]] eqn:Ep; cbn in Hat.
  - assert (Hstep : forall r n4 w4, attempt t w3 w4 -> (r = Ok () -> settled task t w4) ->
      devices_ok task (t :: l) failure w (match r with Ok _ => getui_devices ports fault app task l failure (n4, w4) | Err e => (Err e, (n4, w4)) end)).
    { intros r n4 w4 Hat4 Hset. assert (Hall : attempt t w w4) by by etrans. pose proof (attempt_fresh task t w w4 Hall Ha Hc) as Hfr.
      destruct r as [[]|e]; [|apply devices_stop; [apply Hall|exact Hfr]].
      eapply devices_next; [apply Hall|exact Hfr|apply IH|]. intros ->. split; [done|by apply Hset]. }
    destruct outcome.
    + pose proof (keeps_record_accepted t task n3 w3) as Hrec. destruct (record_accepted ports fault t task (n3, w3)) as [r [n4 w4]] eqn:Er.
      cbn in Hrec. apply (Hstep r n4 w4 Hrec). intros ->. left. by eapply record_accepted_ok.
    + pose proof (keeps_remove t n3 w3) as Hrem. destruct (remove_device_token ports fault t (n3, w3)) as [r [n4 w4]] eqn:Er. cbn in Hrem.
      apply (Hstep r n4 w4 Hrem). intros _. destruct (push_single_cid_gone _ _ _ _ _ _ Ep Hprov) as (v & Hv & Hg). right; right. exists v.
      split; [|done]. by apply (pr_posts _ _ (at_progress _ _ _ Hrem)).
  - pose proof (attempt_fresh task t w w3 Hat Ha Hc) as Hfr. destruct (retryable_error ports e); [apply devices_stop; [apply Hat|exact Hfr]|].
    eapply devices_next; [apply Hat|exact Hfr|apply IH|]. by destruct failure.
Qed.

(** ** The registry *)

(** The row of a device in the index of a user. *)
Definition row_at (w : World) (key : string * string) (field : string) : option string := default ∅ (rows w !! key) !! field.

(** The rows are where the registrar of the push proxy puts them: under the provider and the device. *)
Definition filed (w : World) : Prop :=
  forall key field raw t, row_at w key field = Some raw -> parse_row ports raw = Some t ->
    field = device_push_token_registry_field (tk_provider t) (tk_device_id t).

Definition known_providers : list string := ["fcm"; "apns"; "getui"].

(** A step for a provider: the rows of the others stay. *)
Definition spares (p : string) (w w' : World) : Prop :=
  filed w -> filed w' /\
    forall key field raw t, row_at w key field = Some raw -> parse_row ports raw = Some t ->
      tk_provider t ∈ known_providers -> tk_provider t <> p -> row_at w' key field = Some raw.

#[export] Instance spares_preorder p : PreOrder (spares p).
Proof.
  split; [by intros w Hw|]. intros w1 w2 w3 H12 H23 Hf. destruct (H12 Hf) as [Hf2 A]. destruct (H23 Hf2) as [Hf3 B]. split; [done|]. eauto.
Qed.

Lemma same_rows_spares p w w' : rows w' = rows w -> spares p w w'.
Proof. intros E. unfold spares, filed, row_at. rewrite E. auto. Qed.

Lemma same_spares p w w' : same_devices w w' -> spares p w w'.
Proof. intros Hs. apply same_rows_spares, Hs. Qed.

(** The fields of two providers differ. *)
Lemma fields_differ p q d d' :
  p ∈ known_providers -> q ∈ known_providers -> p <> q -> device_push_token_registry_field p d <> device_push_token_registry_field q d'.
Proof.
  assert (Hlow : forall x, x ∈ known_providers -> Str.to_ascii_lowercase (Str.trim x) = x).
  { intros x. unfold known_providers. rewrite !elem_of_cons, elem_of_nil. intros [->|[->|[->|[]]]]; vm_compute; reflexivity. }
  unfold device_push_token_registry_field. intros Hp Hq. rewrite (Hlow p Hp), (Hlow q Hq). revert Hp Hq.
  unfold known_providers. rewrite !elem_of_cons, !elem_of_nil.
  intros [->|[->|[->|[]]]] [->|[->|[->|[]]]] Hne; try (by destruct Hne); intros E; discriminate E.
Qed.

Lemma remove_spares t w : tk_provider t ∈ known_providers -> spares (tk_provider t) w (remove_observed ports t w).
Proof.
  intros Hk. unfold remove_observed. cbn zeta. destruct (default ∅ _ !! _) as [raw0|]; [|by apply same_rows_spares].
  destruct (parse_row ports raw0) as [row|]; [|by apply same_rows_spares]. destruct (_ && _); [|by apply same_rows_spares].
  set (field0 := device_push_token_registry_field (tk_provider t) (tk_device_id t)).
  set (w' := mkOffline _ _ _ _ _ _ _ _).
  assert (Hrow : forall key field, row_at w' key field = if decide (key = (tk_tenant_id t, tk_user_id t) /\ field = field0) then None else row_at w key field).
  { intros key field. unfold row_at, w'. cbn [rows]. destruct (decide (key = (tk_tenant_id t, tk_user_id t))) as [->|Hne].
    - rewrite lookup_insert_eq. cbn. destruct (decide (field = field0)) as [->|Hne].
      + rewrite decide_True by done. by rewrite lookup_delete_eq.
      + rewrite decide_False by (by intros [_ ?]). by rewrite lookup_delete_ne.
    - rewrite decide_False by (by intros [? _]). by rewrite lookup_insert_ne. }
  intros Hf. split.
  - intros key field raw t'. rewrite Hrow. case_decide; [done|]. apply Hf.
  - intros key field raw t' Hr Hp Hk' Hne. rewrite Hrow. case_decide as E; [|done]. destruct E as [_ ->]. exfalso.
    pose proof (Hf _ _ _ _ Hr Hp) as E. by apply (fields_differ (tk_provider t) (tk_provider t')  (tk_device_id t) (tk_device_id t')) in E.
Qed.

Lemma keeps_spares_post p t : keeps (spares p) (post ports fault t).
Proof. intros n w. unfold post. cbn zeta. destruct (fault n); by apply same_rows_spares. Qed.

Lemma keeps_spares_record p t task : keeps (spares p) (record_accepted ports fault t task).
Proof. apply keeps_write; [exact _|]. intros w. by apply same_rows_spares. Qed.

Lemma keeps_spares_remove t : tk_provider t ∈ known_providers -> keeps (spares (tk_provider t)) (remove_device_token ports fault t).
Proof. intros Hk. apply keeps_write; [exact _|]. intros w. by apply remove_spares. Qed.

Lemma keeps_spares_query {A} p err (f : World -> A) : keeps (spares p) (query fault err f).
Proof. apply keeps_query, _. Qed.

Lemma keeps_spares_same {A} p (m : db World A) : keeps same_devices m -> keeps (spares p) m.
Proof. apply keeps_weaken, same_spares. Qed.

Lemma fcm_devices_spares app task l failure :
  Forall (fun t => tk_provider t = FCM_PROVIDER) l -> keeps (spares FCM_PROVIDER) (fcm_devices ports fault app task l failure).
Proof.
  intros Hl. revert failure. induction Hl as [|t l Hprov Hl IH]; intros failure; [apply keeps_ret, _|]. cbn [fcm_devices].
  apply keeps_bind; [exact _|apply keeps_spares_query|]. intros []; [apply IH|].
  apply keeps_bind; [exact _|apply keeps_spares_same, keeps_access_token|]. intros access.
  apply keeps_bind; [exact _|apply keeps_spares_query|]. intros []; cbn [negb]; [|apply IH].
  apply keeps_bind; [exact _|apply keeps_spares_post|]. intros reply.
  apply keeps_on_result; [exact _| |intros; apply IH|intros; apply IH].
  destruct reply as [|status [b|]]; cbn; [apply keeps_lift, _| |apply keeps_lift, _].
  destruct (status =? 200); [destruct (names_message b); [apply keeps_spares_record|apply keeps_lift, _]|].
  destruct (is_unrecoverable_target _ _); [rewrite <- Hprov; apply keeps_spares_remove; rewrite Hprov; unfold known_providers; set_solver|].
  apply keeps_bind; [exact _| |intros; apply keeps_lift, _].
  destruct (status =? 401); [apply keeps_spares_same, keeps_drop_cached|apply keeps_ret, _].
Qed.

Lemma apns_devices_spares app task l failure :
  Forall (fun t => tk_provider t = APNS_PROVIDER) l -> keeps (spares APNS_PROVIDER) (apns_devices ports fault app task l failure).
Proof.
  intros Hl. revert failure. induction Hl as [|t l Hprov Hl IH]; intros failure; [apply keeps_ret, _|]. cbn [apns_devices].
  apply keeps_bind; [exact _|apply keeps_spares_query|]. intros []; [apply IH|]. destruct (_ || _); [apply keeps_lift, _|].
  apply keeps_bind; [exact _|apply keeps_spares_same, keeps_provider_token|]. intros access.
  apply keeps_bind; [exact _|apply keeps_spares_query|]. intros []; cbn [negb]; [|apply IH].
  apply keeps_bind; [exact _|apply keeps_spares_post|]. intros reply.
  apply keeps_on_result; [exact _| |intros; apply IH|intros; apply IH].
  destruct reply as [|status b]; cbn; [apply keeps_lift, _|]. destruct (status =? 200); [apply keeps_spares_record|].
  destruct b as [b|]; [|apply keeps_lift, _]. destruct (invalidation_applies _ _ _); [|apply keeps_lift, _].
  rewrite <- Hprov. apply keeps_spares_remove. rewrite Hprov. unfold known_providers. set_solver.
Qed.

Lemma getui_devices_spares app task l failure :
  Forall (fun t => tk_provider t = GETUI_PROVIDER) l -> keeps (spares GETUI_PROVIDER) (getui_devices ports fault app task l failure).
Proof.
  intros Hl. revert failure. induction Hl as [|t l Hprov Hl IH]; intros failure; [apply keeps_ret, _|]. cbn [getui_devices].
  apply keeps_bind; [exact _|apply keeps_spares_query|]. intros []; [apply IH|].
  apply keeps_bind; [exact _|apply keeps_spares_query|]. intros []; cbn [negb]; [|apply IH].
  assert (Hpost : keeps (spares GETUI_PROVIDER) (push_single_cid_with_token ports fault t))
    by (apply keeps_bind; [exact _|apply keeps_spares_post|intros; apply keeps_lift, _]).
  apply keeps_on_result; [exact _| | |].
  - apply keeps_bind; [exact _|apply keeps_spares_same, keeps_bearer_token|]. intros token.
    apply keeps_on_result; [exact _|exact Hpost|intros; apply keeps_ret, _|]. intros e. case_bool_decide; [|apply keeps_lift, _].
    apply keeps_bind; [exact _|apply keeps_spares_same, keeps_drop_cached|intros _].
    apply keeps_bind; [exact _|apply keeps_spares_same, keeps_bearer_token|intros _]. exact Hpost.
  - intros o. apply keeps_bind; [exact _| |intros; apply IH]. destruct o; [apply keeps_spares_record|].
    rewrite <- Hprov. apply keeps_spares_remove. rewrite Hprov. unfold known_providers. set_solver.
  - intros e. destruct (retryable_error ports e); [apply keeps_lift, _|apply IH].
Qed.

(** ** Reading the registry *)

Lemma mapM_elem {A B} (f : A -> result B) l k b : mapM f l = Ok k -> b ∈ k -> exists a, a ∈ l /\ f a = Ok b.
Proof.
  revert k. induction l as [|a l IH]; intros k; cbn; [intros [= <-]; by intros ?%elem_of_nil|].
  destruct (f a) as [b0|] eqn:Ef; [|done]. cbn. destruct (mapM f l) as [bs|]; [|done]. cbn. intros [= <-] [->|Hb]%elem_of_cons; [set_solver|].
  destruct (IH bs eq_refl Hb) as (a' & ? & ?). set_solver.
Qed.

Lemma mapM_image {A B} (f : A -> result B) l k a : mapM f l = Ok k -> a ∈ l -> exists b, b ∈ k /\ f a = Ok b.
Proof.
  revert k. induction l as [|a0 l IH]; intros k; cbn; [intros _; by intros ?%elem_of_nil|].
  destruct (f a0) as [b0|] eqn:Ef; [|done]. cbn. destruct (mapM f l) as [bs|]; [|done]. cbn. intros [= <-] [->|Ha]%elem_of_cons; [set_solver|].
  destruct (IH bs eq_refl Ha) as (b & ? & ?). set_solver.
Qed.

Lemma decode_record_run row t :
  decode_device_token_record ports row = Ok t ->
  parse_row ports row = Some t /\ tk_provider t ∈ known_providers /\ usable_for_provider t (tk_provider t) = true.
Proof.
  unfold decode_device_token_record. destruct (_ <? _)%nat; [done|]. destruct (parse_row ports row) as [t''|]; [|done].
  destruct (negb (bool_decide _) || negb (usable_for_provider t'' _)) eqn:Eo; [done|]. intros [= ->].
  apply orb_false_iff in Eo as [Ek Eo]. apply negb_false_iff in Ek, Eo. by apply bool_decide_eq_true in Ek.
Qed.

(** A token that was read: of the user it was asked for, usable for its provider, in a row. *)
Lemma read_tokens_elem w tenant user tokens t :
  read_tokens ports w tenant user = Ok tokens -> t ∈ tokens ->
  tk_tenant_id t = tenant /\ tk_user_id t = user /\ tk_provider t ∈ known_providers /\ usable_for_provider t (tk_provider t) = true /\
  exists field raw, row_at w (tenant, user) field = Some raw /\ parse_row ports raw = Some t.
Proof.
  unfold read_tokens. cbn zeta. destruct (_ || _); [done|]. intros Hm Ht. destruct (mapM_elem _ _ _ _ Hm Ht) as (row & Hrow & E).
  destruct (decode_device_token_record ports row) as [t'|] eqn:Ed; [|done]. cbn in E. repeat case_bool_decide; cbn in E; try done.
  injection E as ->. destruct (decode_record_run _ _ Ed) as (Hp & Hk & Hu). split_and!; [done..|].
  apply list_elem_of_fmap in Hrow as ([field raw] & -> & Hin%elem_of_map_to_list). by exists field, raw.
Qed.

(** A row that parses is read. *)
Lemma read_tokens_row w tenant user tokens field raw t :
  read_tokens ports w tenant user = Ok tokens -> row_at w (tenant, user) field = Some raw -> parse_row ports raw = Some t -> t ∈ tokens.
Proof.
  unfold read_tokens. cbn zeta. destruct (_ || _); [done|]. intros Hm Hrow Hp. destruct (mapM_image _ _ _ raw Hm) as (t' & Hin & E).
  { apply list_elem_of_fmap. exists (field, raw). split; [done|]. by apply elem_of_map_to_list. }
  destruct (decode_device_token_record ports raw) as [t''|] eqn:Ed; [|done]. cbn in E. destruct (_ && _); [|done]. injection E as ->.
  destruct (decode_record_run _ _ Ed) as (Hp' & _). congruence.
Qed.

Lemma list_tokens_run tenant user n w r n' w' :
  list_user_tokens ports fault tenant user (n, w) = (r, (n', w')) ->
  w' = w /\ forall l, r = Ok l -> read_tokens ports w tenant user = Ok l.
Proof.
  unfold list_user_tokens, mbind, stE_bind, lift_r. destruct (query fault _ _ (n, w)) as [rq [n1 w1]] eqn:Eq.
  destruct (query_run _ _ _ _ _ _ _ Eq) as [-> Hq]. destruct rq as [x|e]; intros [= <- <- <-]; (split; [done|]); [|done].
  intros l ->. by rewrite (Hq _ eq_refl).
Qed.

(** The tokens an executor of a provider picks are those of the provider. *)
Lemma usable_known t p :
  p ∈ known_providers -> tk_provider t ∈ known_providers -> usable_for_provider t p = true -> tk_provider t = p.
Proof.
  intros Hp Hk Hu. unfold usable_for_provider in Hu. repeat (apply andb_true_iff in Hu as [Hu ?]).
  match goal with H : Str.eq_ignore_ascii_case _ _ = true |- _ => apply bool_decide_eq_true in H; revert H end.
  unfold known_providers in *. rewrite !elem_of_cons, !elem_of_nil in Hp, Hk.
  destruct Hp as [->|[->|[->|[]]]], Hk as [->|[->|[->|[]]]]; vm_compute; done.
Qed.

(** ** Executors *)

Abbreviation Executor := (Ctx -> Task -> db World unit).

(** What the executor of a provider promises: an eligible task it takes is settled for every
    registered device of the provider. *)
Definition settles (p : string) (ex : Executor) : Prop :=
  forall ctx task n w n' w',
    ex ctx task (n, w) = (Ok (), (n', w')) -> mobile_alert_eligible task = true ->
    exists tokens, read_tokens ports w (task_tenant_id task) (task_user_id task) = Ok tokens /\
      forall t, t ∈ tokens -> tk_provider t = p -> settled task t w'.

(** What the vendor gets from it: for devices of the user of the task that are current and without a receipt. *)
Definition pushes_fresh (ex : Executor) : Prop :=
  forall ctx task n w, exists new, posts (ex ctx task (n, w)).2.2 = posts w ++ new /\
    Forall (fun p => tk_tenant_id p.1 = task_tenant_id task /\ tk_user_id p.1 = task_user_id task /\
                     receipt_key ports p.1 task ∉ receipts w /\ current w p.1 = true) new.

Record channel (p : string) (ex : Executor) : Prop := {
  ch_progress ctx task : keeps progress (ex ctx task);
  ch_spares ctx task : keeps (spares p) (ex ctx task);
  ch_settles : settles p ex;
  ch_fresh : pushes_fresh ex;
}.

(** The shape the three executors share: read the tokens, handle those of the provider, and fail
    if a device did. *)
Definition vendor_deliver (p : string) (devices : Task -> list DevicePushToken -> db World (option FlareError)) : Executor := fun ctx task =>
  if negb (mobile_alert_eligible task) then mret ()
  else
    tokens ← list_user_tokens ports fault (task_tenant_id task) (task_user_id task);
    failure ← devices task (filter (fun t => usable_for_provider t p = true) tokens);
    or_fail failure.

Lemma vendor_channel p devices :
  p ∈ known_providers ->
  (forall task l n w, Forall (fun t => tk_provider t = p) l -> devices_ok task l None w (devices task l (n, w))) ->
  (forall task l, Forall (fun t => tk_provider t = p) l -> keeps (spares p) (devices task l)) -> channel p (vendor_deliver p devices).
Proof.
  intros Hp Hok Hsp.
  assert (Hrun : forall ctx task n w, let out := vendor_deliver p devices ctx task (n, w) in
    progress w out.2.2 /\ spares p w out.2.2 /\
    (exists new, posts out.2.2 = posts w ++ new /\
       Forall (fun q => tk_tenant_id q.1 = task_tenant_id task /\ tk_user_id q.1 = task_user_id task /\
                        receipt_key ports q.1 task ∉ receipts w /\ current w q.1 = true) new) /\
    (out.1 = Ok () -> mobile_alert_eligible task = true -> exists tokens, read_tokens ports w (task_tenant_id task) (task_user_id task) = Ok tokens /\
       forall t, t ∈ tokens -> tk_provider t = p -> settled task t out.2.2)).
  { intros ctx task n w. cbn zeta.
    assert (Hnone : exists new, posts w = posts w ++ new /\
      Forall (fun q : DevicePushToken * VendorReply => tk_tenant_id q.1 = task_tenant_id task /\ tk_user_id q.1 = task_user_id task /\
                      receipt_key ports q.1 task ∉ receipts w /\ current w q.1 = true) new) by (exists []; by rewrite app_nil_r).
    unfold vendor_deliver. destruct (mobile_alert_eligible task); cbn [negb]; [|split_and!; [reflexivity|cbn; reflexivity|exact Hnone|done]].
    unfold mbind, stE_bind. destruct (list_user_tokens ports fault _ _ (n, w)) as [rl [n1 w1]] eqn:El.
    destruct (list_tokens_run _ _ _ _ _ _ _ El) as [-> Hl]. destruct rl as [tokens|e]; [|split_and!; [reflexivity|cbn; reflexivity|exact Hnone|done]].
    specialize (Hl _ eq_refl). set (usable := filter (fun t => usable_for_provider t p = true) tokens).
    assert (Hus : Forall (fun t => tk_provider t = p) usable).
    { apply Forall_forall. intros t [Hu Hin]%list_elem_of_filter. destruct (read_tokens_elem _ _ _ _ _ Hl Hin) as (_ & _ & Hk & _). by apply usable_known. }
    destruct (Hok task usable n1 w Hus) as (Hprog & (new & En & Hnew) & Hset). pose proof (Hsp task usable Hus n1 w) as Hspare.
    destruct (devices task usable (n1, w)) as [rf [n2 w2]]. cbn in *.
    assert (Hposts : exists new, posts w2 = posts w ++ new /\
      Forall (fun q : DevicePushToken * VendorReply => tk_tenant_id q.1 = task_tenant_id task /\ tk_user_id q.1 = task_user_id task /\
                        receipt_key ports q.1 task ∉ receipts w /\ current w q.1 = true) new).
    { exists new. split; [done|]. eapply Forall_impl; [exact Hnew|]. intros q (Hin & Hr & Hc). apply list_elem_of_filter in Hin as [_ Hin].
      destruct (read_tokens_elem _ _ _ _ _ Hl Hin) as (? & ? & _). done. }
    destruct rf as [[f|]|e]; cbn; split_and!; try done. intros _ _. exists tokens. split; [done|]. intros t Ht Htp. apply (Hset eq_refl).
    apply list_elem_of_filter. split; [|done]. destruct (read_tokens_elem _ _ _ _ _ Hl Ht) as (_ & _ & _ & Hu & _). by rewrite Htp in Hu. }
  split.
  - intros ctx task n w. apply Hrun.
  - intros ctx task n w. apply Hrun.
  - intros ctx task n w n' w' E Hel. pose proof (Hrun ctx task n w) as (_ & _ & _ & Hset). rewrite E in Hset. by apply Hset.
  - intros ctx task n w. apply (Hrun ctx task n w).
Qed.

Lemma fcm_channel app : channel FCM_PROVIDER (fcm_deliver ports fault app).
Proof.
  apply (vendor_channel FCM_PROVIDER (fun task l => fcm_devices ports fault app task l None)); [unfold known_providers; set_solver| |].
  - intros task l n w Hl. by apply fcm_devices_ok.
  - intros task l Hl. by apply fcm_devices_spares.
Qed.

Lemma apns_channel app : channel APNS_PROVIDER (apns_deliver ports fault app).
Proof.
  apply (vendor_channel APNS_PROVIDER (fun task l => apns_devices ports fault app task l None)); [unfold known_providers; set_solver| |].
  - intros task l n w Hl. by apply apns_devices_ok.
  - intros task l Hl. by apply apns_devices_spares.
Qed.

(** An executor that runs the same is as good. *)
Lemma channel_ext p ex ex' : (forall ctx task s, ex' ctx task s = ex ctx task s) -> channel p ex -> channel p ex'.
Proof.
  intros He [Hp Hs Hset Hf]. split.
  - intros ctx task n w. rewrite He. apply Hp.
  - intros ctx task n w. rewrite He. apply Hs.
  - intros ctx task n w n' w'. rewrite He. apply Hset.
  - intros ctx task n w. rewrite He. apply Hf.
Qed.

Lemma getui_channel app : channel GETUI_PROVIDER (getui_deliver ports fault app).
Proof.
  eapply channel_ext; [|apply (vendor_channel GETUI_PROVIDER (fun task l => getui_devices ports fault app task l None)); [unfold known_providers; set_solver| |]].
  - intros ctx task s. unfold getui_deliver, vendor_deliver. destruct (negb _); [done|]. unfold mbind, stE_bind.
    destruct (list_user_tokens ports fault _ _ s) as [[tokens|] s']; [|done]. by destruct (filter _ tokens).
  - intros task l n w Hl. by apply getui_devices_ok.
  - intros task l Hl. by apply getui_devices_spares.
Qed.

Lemma counted_channel p ex : channel p ex -> channel p (usage_counted ports ex).
Proof.
  intros [Hp Hs Hset Hf].
  assert (Hworld : forall ctx task s, (usage_counted ports ex ctx task s).2 = (ex ctx task s).2).
  { intros ctx task s. unfold usage_counted, with_deadline. destruct (ex ctx task s) as [r s']. by destruct (deadline_passed ports s'.1). }
  split.
  - intros ctx task n w. rewrite Hworld. apply Hp.
  - intros ctx task n w. rewrite Hworld. apply Hs.
  - intros ctx task n w n' w' E. unfold usage_counted, with_deadline in E. destruct (ex ctx task (n, w)) as [r s'] eqn:Ex.
    destruct (deadline_passed ports s'.1); [done|]. injection E as -> ->. by eapply Hset.
  - intros ctx task n w. rewrite Hworld. apply Hf.
Qed.

(** ** Several vendors *)

Lemma fan_out_progress channels ctx task failure :
  Forall (fun c => channel c.1 c.2) channels -> keeps progress (fan_out ports channels.*2 ctx task failure).
Proof.
  intros Hall. revert failure. induction Hall as [|[p ex] channels Hch Hall IH]; intros failure; [apply keeps_ret, _|]. cbn.
  apply keeps_on_result; [exact _|apply Hch|intros; apply IH|intros; apply IH].
Qed.

(** What settles a task for one provider leaves the devices of the others to theirs. *)
Lemma fan_out_settles channels ctx task :
  Forall (fun c => channel c.1 c.2) channels -> NoDup channels.*1 -> mobile_alert_eligible task = true ->
  forall failure n w n' w', filed w -> fan_out ports channels.*2 ctx task failure (n, w) = (Ok None, (n', w')) ->
  failure = None /\ forall field raw t,
    row_at w (task_tenant_id task, task_user_id task) field = Some raw -> parse_row ports raw = Some t ->
    tk_provider t ∈ known_providers -> tk_provider t ∈ channels.*1 -> settled task t w'.
Proof.
  intros Hall Hnd Hel. induction Hall as [|[p ex] channels Hch Hall IH]; intros failure n w n' w' Hfiled E; cbn in *.
  { injection E as -> _ _. split; [done|]. by intros field raw t _ _ _ ?%elem_of_nil. }
  apply NoDup_cons in Hnd as [Hp Hnd]. unfold on_result in E.
  assert (Hkeep : forall n1 w1 f, spares p w w1 -> fan_out ports channels.*2 ctx task f (n1, w1) = (Ok None, (n', w')) ->
    progress w1 w' /\ f = None /\ forall field raw t,
      row_at w (task_tenant_id task, task_user_id task) field = Some raw -> parse_row ports raw = Some t ->
      tk_provider t ∈ known_providers -> tk_provider t ∈ channels.*1 -> settled task t w').
  { intros n1 w1 f Hsp E1. destruct (Hsp Hfiled) as [Hf1 Hrows]. destruct (IH Hnd _ _ _ _ _ Hf1 E1) as [-> Hset]. split_and!; [|done|].
    - pose proof (fan_out_progress channels ctx task None Hall n1 w1) as Hpr. by rewrite E1 in Hpr.
    - intros field raw t Hr Hpa Hk Hin. eapply Hset; [|done|done|done]. eapply Hrows; [done|done|done|]. intros Heq. by rewrite Heq in Hin. }
  pose proof (ch_spares _ _ Hch ctx task n w) as Hsp.
  destruct (ex ctx task (n, w)) as [[[]|e] [n1 w1]] eqn:Ex; cbn in Hsp.
  - destruct (Hkeep _ _ _ Hsp E) as (Hpr & -> & Hset). split; [done|]. intros field raw t Hr Hpa Hk [Hin|Hin]%elem_of_cons; [|by eapply Hset].
    destruct (ch_settles _ _ Hch _ _ _ _ _ _ Ex Hel) as (tokens & Ht & Hst). eapply settled_progress; [exact Hpr|]. apply Hst; [|done].
    by eapply read_tokens_row.
  - destruct (Hkeep _ _ _ Hsp E) as (_ & Hf & _). by apply keep_failure_some in Hf.
Qed.

(** ** The applications *)

Lemma configure_ok {A} allowed backend (credentials : option A) new p ex channels :
  configure ports allowed backend credentials new p ex = Ok channels -> channel p ex ->
  channels = [] \/ exists ex', channels = [(p, ex')] /\ channel p ex'.
Proof.
  unfold configure. intros E Hc. destruct credentials as [c|]; [|injection E as <-; by left]. destruct (negb _); [done|].
  destruct (new c); [|done]. cbn in E. injection E as <-. right. eexists. split; [done|]. by apply counted_channel.
Qed.

Lemma disabled_names_ok ps acc d : disabled_names ps acc = Ok d -> d = acc ++ ps.
Proof.
  revert acc. induction ps as [|p ps IH]; intros acc; cbn; [intros [= ->]; by rewrite app_nil_r|].
  destruct (_ || _); [done|]. intros ->%IH. by rewrite <- app_assoc.
Qed.

Lemma application_channels_ok allowed app ch :
  application_channels ports fault allowed app = Ok ch ->
  disabled ch = ap_disabled_providers app /\
  exists channels, providers ch = channels.*1 /\ executor ch = mobile_fanout ports channels.*2 /\
    Forall (fun c => channel c.1 c.2) channels /\ NoDup channels.*1.
Proof.
  unfold application_channels. cbn zeta. destruct (disabled_names _ _) as [d|] eqn:Ed; [|done]. cbn.
  destruct (configure ports allowed BackendFcm _ _ _ _) as [l1|] eqn:E1; [|done]. cbn.
  destruct (configure ports allowed BackendApns _ _ _ _) as [l2|] eqn:E2; [|done]. cbn.
  destruct (configure ports allowed BackendGetui _ _ _ _) as [l3|] eqn:E3; [|done]. cbn.
  destruct (_ || _); [done|]. intros [= <-]. cbn. split; [by apply disabled_names_ok in Ed|]. exists (l1 ++ l2 ++ l3). split; [done|]. split; [done|].
  apply configure_ok in E1; [|apply fcm_channel]. apply configure_ok in E2; [|apply apns_channel]. apply configure_ok in E3; [|apply getui_channel].
  split.
  - apply Forall_app; split; [|apply Forall_app; split]; [destruct E1 as [->|(ex & -> & Hc)]|destruct E2 as [->|(ex & -> & Hc)]|destruct E3 as [->|(ex & -> & Hc)]];
      first [done|by apply Forall_singleton].
  - rewrite !fmap_app. destruct E1 as [->|(ex1 & -> & _)], E2 as [->|(ex2 & -> & _)], E3 as [->|(ex3 & -> & _)]; cbn;
      repeat (constructor; [rewrite ?elem_of_cons, elem_of_nil; naive_solver|]); constructor.
Qed.

Lemma assemble_from_ok allowed applications apps0 apps tenant ch :
  assemble_from ports fault allowed applications apps0 = Ok apps -> apps !! tenant = Some ch ->
  apps0 !! tenant = Some ch \/ exists app, app ∈ applications /\ ap_app_id app = tenant /\ application_channels ports fault allowed app = Ok ch.
Proof.
  revert apps0. induction applications as [|app applications IH]; intros apps0; cbn; [intros [= ->]; by left|].
  destruct (_ || _); [done|]. destruct (application_channels ports fault allowed app) as [c|] eqn:Ec; [|done]. cbn. intros E Hl.
  destruct (IH _ E Hl) as [Hi|(a & Ha & ? & ?)]; [|right; exists a; split; [by right|done]].
  rewrite lookup_insert in Hi. case_decide; [|by left]. injection Hi as ->. right. exists app. split; [left|done].
Qed.

(** An application's delivery that succeeds has settled every registered device, or its provider is disabled. *)
Lemma application_settles allowed applications apps ctx task n w n' w' tokens :
  assemble ports fault allowed applications = Ok apps -> filed w ->
  application_delivery ports fault apps ctx task (n, w) = (Ok (), (n', w')) -> mobile_alert_eligible task = true ->
  read_tokens ports w (task_tenant_id task) (task_user_id task) = Ok tokens ->
  forall t, t ∈ tokens -> settled task t w' \/
    exists app, app ∈ applications /\ ap_app_id app = task_tenant_id task /\ tk_provider t ∈ ap_disabled_providers app.
Proof.
  intros Has Hfiled E Hel Hr t Ht. unfold application_delivery in E. destruct (negb _); [done|].
  unfold mbind, stE_bind in E. destruct (list_user_tokens ports fault _ _ (n, w)) as [rl [n1 w1]] eqn:El.
  destruct (list_tokens_run _ _ _ _ _ _ _ El) as [-> Hl]. destruct rl as [l|e]; [|done]. rewrite (Hl _ eq_refl) in Hr. injection Hr as ->.
  specialize (Hl _ eq_refl). destruct (apps !! task_tenant_id task) as [ch|] eqn:Eapp.
  2:{ case_bool_decide as Enil; [|done]. subst. by apply elem_of_nil in Ht. }
  destruct (assemble_from_ok _ _ _ _ _ _ Has Eapp) as [Habs|(app & Hin & Hid & Hch)]; [by rewrite lookup_empty in Habs|].
  destruct (application_channels_ok _ _ _ Hch) as (Hdis & channels & Hprov & Hex & Hall & Hnd).
  cbn zeta in E. rewrite Hex in E. unfold mobile_fanout, mbind, stE_bind in E.
  destruct (fan_out ports channels.*2 ctx task None (n1, w)) as [[[f|]|e] [n2 w2]] eqn:Ef; [done| |done].
  cbn in E. destruct (existsb _ tokens) eqn:Em; [done|]. injection E as <- <-.
  destruct (decide (tk_provider t ∈ disabled ch)) as [Hd|Hd]; [right; exists app; rewrite <- Hdis; done|]. left.
  destruct (read_tokens_elem _ _ _ _ _ Hl Ht) as (_ & _ & Hk & _ & field & raw & Hrow & Hp).
  destruct (fan_out_settles channels ctx task Hall Hnd Hel None n1 w n2 w2 Hfiled Ef) as [_ Hset]. eapply Hset; [exact Hrow|done|done|].
  rewrite <- Hprov. destruct (decide (tk_provider t ∈ providers ch)) as [|Hnp]; [done|]. exfalso.
  assert (Hsome : existsb (fun t => negb (bool_decide (tk_provider t ∈ providers ch)) && negb (bool_decide (tk_provider t ∈ disabled ch))) tokens = true).
  { apply existsb_exists. exists t. split; [by apply list_elem_of_In|]. by rewrite !bool_decide_eq_false_2. }
  congruence.
Qed.

(** ** The consumer *)

Lemma write_run err (f : World -> World) n w r n' w' :
  write fault err f (n, w) = (r, (n', w')) -> (w' = w \/ w' = f w) /\ (r = Ok () -> w' = f w).
Proof. unfold write, exec. destruct (fault n); cbn; intros [= <- <- <-]; split; auto; done. Qed.

(** The record was the last to join the dead letters. *)
Definition dead_lettered (rec : BrokerRecord Bytes) (task : Task) (w : World) : Prop :=
  last (dlq w) = Some (rec_ctx rec, task_conversation_id task, rec_payload rec).

Lemma dead_letter_run rec task n w n' w' :
  dead_letter_then_ack fault rec task (n, w) = (Ok (Settled Acked), (n', w')) -> dead_lettered rec task w'.
Proof.
  unfold dead_letter_then_ack, on_result. destruct (publish_dlq fault _ _ _ (n, w)) as [r [n1 w1]] eqn:E.
  destruct (write_run _ _ _ _ _ _ _ E) as [_ Hok]. destruct r as [[]|e]; [|done]. cbn. intros [= <- <-]. rewrite (Hok eq_refl). apply last_snoc.
Qed.

Lemma dead_letter_same rec task n w r n' w' : dead_letter_then_ack fault rec task (n, w) = (r, (n', w')) -> same_devices w w'.
Proof.
  unfold dead_letter_then_ack, on_result. destruct (publish_dlq fault _ _ _ (n, w)) as [rp [n1 w1]] eqn:E.
  destruct (write_run _ _ _ _ _ _ _ E) as [Hor _]. destruct rp; cbn; intros [= <- <- <-]; by destruct Hor as [->| ->].
Qed.

End Facts.

(** ** An example: a phone and a tablet of one user *)

Module Phone.
Definition token : DevicePushToken := mkToken "acme" "ann" "phone" "android" "fcm" "tok" "reg-1" 5.
Definition tablet : DevicePushToken := mkToken "acme" "ann" "tablet" "ios" "apns" "ab12" "reg-2" 5.
Definition ok_body : VendorBody := mkBody true false None None None.
Definition gone_body : VendorBody := mkBody false false (Some "Unregistered") (Some 9) None.
Definition ports : @OfflinePorts Wire :=
  mkOfflinePorts (fun row => if bool_decide (row = "row") then Some token else if bool_decide (row = "row-2") then Some tablet else None)
    (fun t task => tk_registration_id t +:+ "/" +:+ task_message_id task)
    (fun _ => Some ("bearer", 3600))
    (fun _ t => if bool_decide (tk_provider t = "fcm") then Reply 200 (Some ok_body) else Reply 410 (Some gone_body))
    (fun _ _ => Some "jwt") (fun _ => AuthLost)
    (fun _ => false) (fun e => bool_decide (err_code e = ServiceUnavailable)) 1000 1000000.
Definition task : PushTaskEnvelope Wire :=
  mkTask _ "ann" "m1" "c1" "acme" 0 None (WRequest (RNotification (mkPushNotification ["ann"] None None))) ∅ (Some TaskNotification).
Definition record : BrokerRecord Wire := mkRecord _ (mkCtx None None None (Some "acme") None) (encode_task task).
Definition world : @OfflineWorld Wire :=
  mkOffline {[("acme", "ann") := <["fcm:phone" := "row"]> {["apns:tablet" := "row-2"]}]}
    (<[("acme", "apns", "tablet") := mkSlot true "reg-2" "ann"]> {[("acme", "fcm", "phone") := mkSlot true "reg-1" "ann"]}) ∅ ∅ ∅ [] [] [].
Definition applications : list Application :=
  [mkApplication "acme" ["getui"] (Some (mkFcmAccount "proj" "push@acme" true OAUTH_TOKEN_URI))
     (Some (mkApnsCredentials "ABCDE12345" "KEY1234567" true "com.acme.app")) None].
Definition apps : gmap string (@ApplicationChannels Wire) :=
  match assemble ports calm [BackendFcm; BackendApns] applications with Ok apps => apps | Err _ => ∅ end.
Definition handler : @OfflinePushHandler Wire := mkOfflineHandler true (Some (application_delivery ports calm apps)) 8.
End Phone.

(** C27. An offline task is acknowledged only when it is settled. When the consumer with a dead letter
    queue and the executors that the credential file of the applications gives (FCM, APNs and
    Getui, each configured or not) acknowledges a task that shows something, whatever failed on
    the way: the task had expired, or its record is in the dead letter queue, or every device
    registered for the user when it came accepted it, is no longer registered, was reported gone
    by its vendor, or is of a provider that the application disabled. The registry is as the push
    proxy writes it: the row of a device is under its provider and device. The vendors of an
    application, which the code awaits together, run one after the other, and other clients of
    the registry do not run; receipts do not expire. *)
Theorem acknowledged_offline_tasks_are_settled {Bytes} `{PushCodec Bytes} (ports : @OfflinePorts Bytes) fault
    allowed applications (apps : gmap string (@ApplicationChannels Bytes)) capacity rec task n w n' w' tokens :
  assemble ports fault allowed applications = Ok apps -> filed ports w ->
  handle_offline ports fault (mkOfflineHandler true (Some (application_delivery ports fault apps)) capacity) rec (n, w)
    = (Ok (Settled Acked), (n', w')) ->
  decode_task (rec_payload rec) = Some task -> mobile_alert_eligible task = true ->
  read_tokens ports w (task_tenant_id task) (task_user_id task) = Ok tokens ->
  is_expired ports task = true \/ dead_lettered rec task w' \/
  forall t, t ∈ tokens -> settled ports task t w' \/
    exists app, app ∈ applications /\ ap_app_id app = task_tenant_id task /\ tk_provider t ∈ ap_disabled_providers app.
Proof.
  intros Has Hfiled E Ht Hel Hr. unfold handle_offline in E. rewrite Ht in E. destruct (is_expired ports task); [by left|]. right.
  cbn [delivery has_dlq] in E. unfold on_result, with_deadline in E.
  destruct (application_delivery ports fault apps (rec_ctx rec) task (n, w)) as [r [n1 w1]] eqn:Ea. cbn in E.
  destruct (deadline_passed ports n1).
  - destruct (retryable_error _ _); [done|]. left. by eapply dead_letter_run.
  - destruct r as [[]|e].
    + right. injection E as <- <-. by eapply application_settles.
    + destruct (retryable_error _ _); [done|]. left. by eapply dead_letter_run.
Qed.

Lemma phone_filed : filed Phone.ports Phone.world.
Proof.
  intros key field raw t. unfold row_at, Phone.world. cbn [rows]. destruct (decide (key = ("acme", "ann"))) as [->|Hne].
  - rewrite lookup_singleton_eq. cbn [default from_option id]. rewrite lookup_insert. case_decide as E1.
    + subst field. intros [= <-] [= <-]. reflexivity.
    + intros [<- <-]%lookup_singleton_Some [= <-]. reflexivity.
  - rewrite lookup_singleton_ne by done. cbn. by rewrite lookup_empty.
Qed.

Lemma acknowledged_offline_tasks_are_settled_witness :
  let run := handle_offline Phone.ports calm Phone.handler Phone.record (0%nat, Phone.world) in
  run.1 = Ok (Settled Acked) /\ length (posts run.2.2) = 2%nat /\
  (is_expired Phone.ports Phone.task = true \/ dead_lettered Phone.record Phone.task run.2.2 \/
   forall t, t ∈ [Phone.tablet; Phone.token] \/ t ∈ [Phone.token; Phone.tablet] -> settled Phone.ports Phone.task t run.2.2 \/
     exists app, app ∈ Phone.applications /\ ap_app_id app = "acme" /\ tk_provider t ∈ ap_disabled_providers app).
Proof.
  cbn zeta. split; [vm_compute; reflexivity|]. split; [vm_compute; reflexivity|].
  destruct (acknowledged_offline_tasks_are_settled Phone.ports calm [BackendFcm; BackendApns] Phone.applications Phone.apps 8 Phone.record Phone.task 0 Phone.world
    (handle_offline Phone.ports calm Phone.handler Phone.record (0%nat, Phone.world)).2.1
    (handle_offline Phone.ports calm Phone.handler Phone.record (0%nat, Phone.world)).2.2
    (match read_tokens Phone.ports Phone.world "acme" "ann" with Ok l => l | Err _ => [] end)) as [He|[Hd|Hall]].
  - reflexivity.
  - apply phone_filed.
  - vm_compute; reflexivity.
  - vm_compute; reflexivity.
  - vm_compute; reflexivity.
  - vm_compute; reflexivity.
  - by left.
  - by right; left.
  - right; right. intros t Ht. apply Hall. vm_compute. set_solver.
Defined.

(** C28. A device whose acceptance is on record is not pushed to again. Whatever fails, and however
    often a task is redelivered, a run of the consumer with the FCM executor of an application
    sends the task only to devices registered for its tenant and user that are still current
    and have no receipt of it, and receipts stay (Redis keeps them for seven days, which is not
    modelled). *)
Theorem accepted_devices_are_not_pushed_again {Bytes} `{PushCodec Bytes} (ports : @OfflinePorts Bytes) fault app has_dlq capacity rec task n w :
  decode_task (rec_payload rec) = Some task ->
  let w' := (handle_offline ports fault (mkOfflineHandler has_dlq (Some (fcm_deliver ports fault app)) capacity) rec (n, w)).2.2 in
  receipts w ⊆ receipts w' /\
  exists new, posts w' = posts w ++ new /\
    Forall (fun p => tk_tenant_id p.1 = task_tenant_id task /\ tk_user_id p.1 = task_user_id task /\
                     receipt_key ports p.1 task ∉ receipts w /\ current w p.1 = true) new.
Proof.
  intros Ht. cbn zeta. unfold handle_offline. rewrite Ht.
  destruct (is_expired ports task); [split; [done|]; exists []; by rewrite app_nil_r|].
  cbn [delivery OfflinePush.has_dlq]. unfold on_result, with_deadline.
  pose proof (ch_progress _ _ _ (fcm_channel ports fault app) (rec_ctx rec) task n w) as Hp.
  pose proof (ch_fresh _ _ _ (fcm_channel ports fault app) (rec_ctx rec) task n w) as Hposts.
  destruct (fcm_deliver ports fault app (rec_ctx rec) task (n, w)) as [r [n1 w1]] eqn:Ef. cbn in *.
  destruct (deadline_passed ports n1); [|destruct r as [[]|e]; [cbn; split; [apply Hp|exact Hposts]|]];
    (destruct (retryable_error ports _); [split; [apply Hp|exact Hposts]|]);
    (destruct has_dlq; [|split; [apply Hp|exact Hposts]]);
    (destruct (dead_letter_then_ack fault rec task (n1, w1)) as [rd [n2 w2]] eqn:Ed;
     destruct (dead_letter_same _ _ _ _ _ _ _ _ Ed) as (_ & Er & _ & Ep); cbn; rewrite Er, Ep; split; [apply Hp|exact Hposts]).
Qed.

Lemma accepted_devices_are_not_pushed_again_witness :
  let h := mkOfflineHandler true (Some (fcm_deliver Phone.ports calm "acme")) 8 in
  let w1 := (handle_offline Phone.ports calm h Phone.record (0%nat, Phone.world)).2.2 in
  let w2 := (handle_offline Phone.ports calm h Phone.record (9%nat, w1)).2.2 in
  posts w1 = [(Phone.token, Reply 200 (Some Phone.ok_body))] /\ posts w2 = posts w1 /\ receipts w1 ⊆ receipts w2.
Proof.
  cbn zeta. split; [vm_compute; reflexivity|]. split; [vm_compute; reflexivity|].
  eapply (accepted_devices_are_not_pushed_again Phone.ports calm "acme" true 8 Phone.record Phone.task 9
    (handle_offline Phone.ports calm (mkOfflineHandler true (Some (fcm_deliver Phone.ports calm "acme")) 8) Phone.record (0%nat, Phone.world)).2.2).
  vm_compute; reflexivity.
Defined.
