(* ===== verification/NotifyPolicy.v ===== *)
(** * Notification preferences

    flare-push/server/src/infrastructure/conversation/notify_policy.rs: the push server reads who
    muted a conversation from the member pages of the conversation service, for some users or
    for a whole conversation; and the RPC it calls, [list_conversation_participants] of
    flare-conversation/src/interface/grpc/read_service.rs. The client is proved against what the
    pages promise ([ServesRoster]), and the conversation service keeps the promise. *)

From S2P Require Import Prelude.
From S2P Require Import Database.
From S2P Require Import Slices.
From S2P Require Import ConversationStore.
From S2P Require Import MemberPages.
From S2P Require Import Conversation.
From S2P Require Import Proto.
From S2P Require Import PushTypes.
From S2P Require Import PushRouter.
From S2P Require Import PushRouterFacts.
From stdpp Require Import base gmap sets strings list.
From Stdlib Require Import ZArith Lia.

Open Scope Z_scope.

(** ** The client *)

Record ListConversationParticipantsResponse := mkListResponse {
  resp_participants : list ConversationParticipant;
  resp_next_cursor : string;
  resp_has_more : bool;
}.

(** The RPC by the number of the call: caller, conversation, cursor and limit, for the members
    in their seats, without totals. A failure to connect is a failure of the call. *)
Definition ParticipantsClient : Type := nat -> Ctx -> string -> string -> Z -> result ListConversationParticipantsResponse.

Definition PAGE_LIMIT : Z := 200.
Definition MAX_PAGES : nat := 16.
Definition MAX_SINGLE_FETCH_CAP : nat := 5000.

Definition preference_of (p : ConversationParticipant) : NotifyPreference := mkPreference (p_muted p) (p_mention_only p).

(** [out.insert(user_id, preference_of(p))] *)
Definition add_preference (out : gmap string NotifyPreference) (p : ConversationParticipant) : gmap string NotifyPreference :=
  <[p_user_id p := preference_of p]> out.

Definition list_failed {A} (r : result A) : result A :=
  match r with Ok x => Ok x | Err _ => Err (flare_err ServiceUnavailable "list conversation participants") end.

Definition has_more (r : ListConversationParticipantsResponse) : bool :=
  resp_has_more r && negb (Str.is_blank (resp_next_cursor r)).

Section Client.
Context (client : ParticipantsClient).

(** The participants of a page go to the sink until it wants no more. *)
Fixpoint feed {A} (sink : A -> ConversationParticipant -> A * bool) (a : A) (l : list ConversationParticipant) : A * bool :=
  match l with
  | [] => (a, true)
  | p :: l => let '(a, go) := sink a p in if go then feed sink a l else (a, false)
  end.

Fixpoint walk_pages {A} (sink : A -> ConversationParticipant -> A * bool) (pages n : nat) (ctx : Ctx)
    (conversation cursor : string) (a : A) : result (A * bool) :=
  match pages with
  | O => Ok (a, false)
  | S pages =>
      resp ← list_failed (client n ctx conversation cursor PAGE_LIMIT);
      match feed sink a (resp_participants resp) with
      | (a, false) => Ok (a, true)
      | (a, true) => if has_more resp then walk_pages sink pages (S n) ctx conversation (resp_next_cursor resp) a
                     else Ok (a, true)
      end
  end.

Definition walk_participants {A} (sink : A -> ConversationParticipant -> A * bool) (ctx : Ctx) (conversation : string) (a : A) :
    result (A * bool) := walk_pages sink MAX_PAGES 0 ctx conversation "" a.

(** Who is still wanted, and the preferences so far. *)
Definition wanted_sink (s : gset string * gmap string NotifyPreference) (p : ConversationParticipant) :
    (gset string * gmap string NotifyPreference) * bool :=
  let '(wanted, out) := s in
  let s := if bool_decide (p_user_id p ∈ wanted) then (wanted ∖ {[p_user_id p]}, add_preference out p) else s in
  (s, negb (bool_decide (s.1 = ∅))).

Definition policy_preferences_for (ctx : Ctx) (conversation : string) (users : list string) :
    result (gmap string NotifyPreference) :=
  if bool_decide (users = []) || Str.is_blank conversation then Ok ∅
  else
    r ← walk_participants wanted_sink ctx conversation (list_to_set users, ∅);
    Ok r.1.2.

(** Over the cap or not, and the members so far. *)
Definition cap_sink (cap : nat) (s : bool * gmap string NotifyPreference) (p : ConversationParticipant) :
    (bool * gmap string NotifyPreference) * bool :=
  let '(over_cap, out) := s in
  if decide (cap <= size out)%nat then ((true, out), false)
  else ((over_cap, add_preference out p), true).

Definition policy_all_participants (ctx : Ctx) (conversation : string) (cap : nat) :
    result (option (gmap string NotifyPreference)) :=
  if Str.is_blank conversation || bool_decide (cap = 0%nat) then Ok (Some ∅)
  else if decide (cap < MAX_SINGLE_FETCH_CAP)%nat then
    resp ← list_failed (client 0%nat ctx conversation "" (Z.of_nat (cap + 1)));
    if bool_decide (cap < length (resp_participants resp))%nat || has_more resp then Ok None
    else Ok (Some (foldl add_preference ∅ (resp_participants resp)))
  else
    r ← walk_participants (cap_sink cap) ctx conversation (false, ∅);
    let '((over_cap, out), complete) := r in
    if (over_cap : bool) || negb complete then Ok None else Ok (Some out).

Definition ConversationNotifyPolicy : NotifyPolicyRepository := mkPolicy policy_preferences_for policy_all_participants.

End Client.

(** ** The conversation service *)

Section Service.
Context (require_user_id : ConversationStore.Ctx -> result string) (valid_micros : Z -> bool).
Context (version_of : Store -> string -> string -> Z).
(** What the policy of the roster says of callers who are not services. *)
Context (others_may_see : ConversationStore.Ctx -> string -> bool).

Definition can_disclose_roster (ctx : ConversationStore.Ctx) (conversation : string) : bool :=
  ctx_internal ctx || others_may_see ctx conversation.

(** [list_conversation_participants] of the read service for this client. *)
Definition serve_participants (fault : schedule) (ctx : ConversationStore.Ctx) (conversation cursor : string) (limit : Z) :
    db Store ListConversationParticipantsResponse :=
  if Str.is_blank conversation then lift_r (Err (flare_err InvalidParameter "conversation_id is required"))
  else
    page ← Conversation.list_conversation_participants require_user_id fault valid_micros version_of ctx (Str.trim conversation)
             (if Str.is_empty cursor then None else Some cursor) (if 0 <? limit then limit else 200) false true InSeat;
    mret (if can_disclose_roster ctx (Str.trim conversation)
          then mkListResponse (page_participants page) (default "" (page_next_cursor page)) (page_has_more page)
          else mkListResponse [] "" false).

End Service.

(** ** What the pages promise *)

(** A client that serves a roster: a cursor stands for a position of it, a page holds the members
    from there on, and says whether there are more and where they start. *)
Class ServesRoster (client : ParticipantsClient) (ctx : Ctx) (c : string) (roster : list ConversationParticipant) := {
  roster_nodup : NoDup (p_user_id <$> roster);
  cursor_stands : string -> nat -> Prop;
  first_cursor : cursor_stands "" 0;
  roster_page n cursor k limit :
    cursor_stands cursor k -> 0 < limit <= MAX_PARTICIPANT_PAGE_LIMIT ->
    exists next,
      client n ctx c cursor limit
      = Ok (mkListResponse (take (Z.to_nat limit) (drop k roster)) next (bool_decide (k + Z.to_nat limit < length roster)%nat)) /\
      ((k + Z.to_nat limit < length roster)%nat -> Str.is_blank next = false /\ cursor_stands next (k + Z.to_nat limit));
}.

(** The preferences of some members. *)
Definition prefs_of (l : list ConversationParticipant) : gmap string NotifyPreference :=
  foldl add_preference ∅ l.

(** As many members as a walk sees. *)
Definition WALK_LIMIT : nat := 3200.

Lemma prefs_lookup_from m l p : NoDup (p_user_id <$> l) -> p ∈ l ->
  foldl add_preference m l !! p_user_id p = Some (preference_of p).
Proof.
  assert (Hnot : forall l m u, u ∉ p_user_id <$> l -> foldl add_preference m l !! u = m !! u).
  { clear. induction l as [|q l IH]; intros m u Hu; cbn; [done|]. rewrite IH by set_solver. unfold add_preference. rewrite lookup_insert_ne; [done|]. set_solver. }
  revert m. induction l as [|q l IH]; intros m Hnd Hp; [by apply elem_of_nil in Hp|]. cbn. rewrite fmap_cons in Hnd.
  apply NoDup_cons in Hnd as [Hq Hnd]. apply elem_of_cons in Hp as [->|Hp]; [|by apply IH]. rewrite Hnot by done. apply lookup_insert_eq.
Qed.

Lemma prefs_lookup l p : NoDup (p_user_id <$> l) -> p ∈ l -> prefs_of l !! p_user_id p = Some (preference_of p).
Proof. apply prefs_lookup_from. Qed.

Lemma feed_app {A} (sink : A -> ConversationParticipant -> A * bool) a l1 l2 :
  feed sink a (l1 ++ l2) = match feed sink a l1 with (a', true) => feed sink a' l2 | (a', false) => (a', false) end.
Proof. revert a. induction l1 as [|p l1 IH]; intros a; cbn; [done|]. destruct (sink a p) as [a' []]; [apply IH|done]. Qed.

(** ** The client against the promise *)

Section Walk.
Context (client : ParticipantsClient) (ctx : Ctx) (c : string) (roster : list ConversationParticipant).
Context `{!ServesRoster client ctx c roster}.

(** A walk feeds the members its pages reach, in order. *)
Lemma walk_pages_run {A} (sink : A -> ConversationParticipant -> A * bool) pages n cursor k a :
  cursor_stands cursor k -> (0 < pages \/ k < length roster)%nat ->
  walk_pages client sink pages n ctx c cursor a
  = Ok (match feed sink a (take (pages * 200) (drop k roster)) with
        | (a', true) => (a', bool_decide (length roster <= k + pages * 200)%nat)
        | (a', false) => (a', true)
        end).
Proof.
  revert n cursor k a. induction pages as [|pages IH]; intros n cursor k a Hk Hlen; cbn [walk_pages].
  { cbn. rewrite bool_decide_eq_false_2 by lia. done. }
  destruct (roster_page n cursor k PAGE_LIMIT Hk) as (next & -> & Hnext); [unfold PAGE_LIMIT, MAX_PARTICIPANT_PAGE_LIMIT; lia|].
  change (Z.to_nat PAGE_LIMIT) with 200%nat in *. unfold list_failed, has_more. cbn [mbind result_bind resp_participants resp_has_more resp_next_cursor].
  replace (S pages * 200)%nat with (200 + pages * 200)%nat by lia.
  rewrite <- (take_take_drop (drop k roster) 200), feed_app, drop_drop.
  destruct (feed sink a (take 200 (drop k roster))) as [a' []]; [|done].
  case_bool_decide as Hmore; cbn [andb].
  - destruct (Hnext Hmore) as [-> Hst]. cbn [negb]. rewrite (IH _ _ _ _ Hst) by lia.
    destruct (feed sink a' _) as [a'' []]; [|done]. do 2 f_equal. apply bool_decide_ext. lia.
  - rewrite (drop_ge roster (k + 200)) by lia. rewrite take_nil. cbn. rewrite bool_decide_eq_true_2 by lia. done.
Qed.

Lemma nodup_first n : NoDup (p_user_id <$> take n roster).
Proof. pose proof roster_nodup as Hnd. rewrite <- (take_drop n roster), fmap_app in Hnd. by apply NoDup_app in Hnd as [? _]. Qed.

Lemma filter_members_ext (P Q : ConversationParticipant -> Prop) `{forall p, Decision (P p)} `{forall p, Decision (Q p)} (l : list ConversationParticipant) :
  (forall p, p ∈ l -> P p <-> Q p) -> filter P l = filter Q l.
Proof.
  induction l as [|p l IH]; intros Hpq; [done|]. rewrite !filter_cons. rewrite IH by (intros q Hq; apply Hpq; by right).
  destruct (Hpq p); [by left|]. do 2 case_decide; tauto.
Qed.

Lemma feed_wanted W out l : NoDup (p_user_id <$> l) ->
  (feed wanted_sink (W, out) l).1.2 = foldl add_preference out (filter (fun p => p_user_id p ∈ W) l).
Proof.
  revert W out. induction l as [|p l IH]; intros W out Hnd; [done|]. rewrite fmap_cons in Hnd. apply NoDup_cons in Hnd as [Hp Hnd].
  rewrite filter_cons. cbn [feed]. unfold wanted_sink at 1. cbn zeta. destruct (bool_decide_reflect (p_user_id p ∈ W)) as [Hin|Hin]; [rewrite decide_True by exact Hin|rewrite decide_False by exact Hin]; cbn [fst snd foldl].
  - assert (E : filter (fun q => p_user_id q ∈ W) l = filter (fun q => p_user_id q ∈ W ∖ {[p_user_id p]}) l).
    { apply filter_members_ext. intros q Hq. apply (list_elem_of_fmap_2 p_user_id) in Hq.
      assert (p_user_id q <> p_user_id p) by congruence. rewrite elem_of_difference, elem_of_singleton. tauto. }
    rewrite E. case_bool_decide as Hempty; cbn; [|by apply IH]. rewrite Hempty, filter_none; [done|]. intros q _. set_solver.
  - case_bool_decide as Hempty; cbn; [|by apply IH]. rewrite filter_none; [done|]. intros q _. set_solver.
Qed.

(** The preferences of the users that are among the members a walk sees. *)
Lemma preferences_run users : users <> [] -> Str.is_blank c = false ->
  policy_preferences_for client ctx c users = Ok (prefs_of (filter (fun p => p_user_id p ∈ users) (take WALK_LIMIT roster))).
Proof.
  intros Hu Hc. unfold policy_preferences_for. rewrite bool_decide_eq_false_2, Hc by done. cbn [orb].
  unfold walk_participants. rewrite (walk_pages_run _ _ _ _ 0) by (apply first_cursor || (left; unfold MAX_PAGES; lia)).
  change (MAX_PAGES * 200)%nat with WALK_LIMIT. rewrite drop_0.
  pose proof (feed_wanted (list_to_set users) ∅ (take WALK_LIMIT roster)) as Hf.
  specialize (Hf (nodup_first _)).
  assert (E : filter (fun p => p_user_id p ∈ (list_to_set users : gset string)) (take WALK_LIMIT roster)
            = filter (fun p => p_user_id p ∈ users) (take WALK_LIMIT roster)).
  { apply filter_members_ext. intros p _. by rewrite elem_of_list_to_set. }
  rewrite E in Hf. destruct (feed wanted_sink _ _) as [[W out] []]; cbn in *; by rewrite Hf.
Qed.

Lemma feed_cap cap out l : NoDup (p_user_id <$> l) -> (forall p, p ∈ l -> out !! p_user_id p = None) -> (size out + length l <= cap)%nat ->
  feed (cap_sink cap) (false, out) l = ((false, foldl add_preference out l), true).
Proof.
  revert out. induction l as [|p l IH]; intros out Hnd Hout Hcap; cbn; [done|]. rewrite fmap_cons in Hnd. apply NoDup_cons in Hnd as [Hp Hnd].
  rewrite decide_False by (cbn in Hcap; lia). apply IH; [done| |].
  - intros q Hq. unfold add_preference. rewrite lookup_insert_ne; [apply Hout; by right|].
    intros E. apply Hp. rewrite E. by apply list_elem_of_fmap_2.
  - unfold add_preference. rewrite map_size_insert_None; [cbn in Hcap; lia|]. apply Hout. by left.
Qed.

(** The cap that holds: the one asked for when a page can tell, as many as a walk sees otherwise. *)
Definition cap_that_holds (cap : nat) : nat := if decide (cap < MAX_SINGLE_FETCH_CAP)%nat then cap else WALK_LIMIT.

Lemma all_participants_run cap : (0 < cap)%nat -> Str.is_blank c = false ->
  policy_all_participants client ctx c cap
  = Ok (if decide (length roster <= cap_that_holds cap)%nat then Some (prefs_of roster) else None).
Proof.
  intros Hcap Hc. unfold policy_all_participants, cap_that_holds. rewrite Hc, bool_decide_eq_false_2 by lia. cbn [orb].
  destruct (decide (cap < MAX_SINGLE_FETCH_CAP)%nat) as [Hs|Hs].
  - destruct (roster_page 0 "" 0 (Z.of_nat (cap + 1)) first_cursor) as (next & -> & Hnext).
    { unfold MAX_SINGLE_FETCH_CAP, MAX_PARTICIPANT_PAGE_LIMIT in *. lia. }
    rewrite Nat2Z.id, drop_0 in *. unfold list_failed, has_more. cbn. rewrite length_take.
    destruct (decide (length roster <= cap)%nat) as [Hle|Hgt].
    + rewrite !bool_decide_eq_false_2 by lia. cbn. rewrite take_ge by lia. done.
    + rewrite bool_decide_eq_true_2 by lia. done.
  - unfold walk_participants. rewrite (walk_pages_run _ _ _ _ 0) by (apply first_cursor || (left; unfold MAX_PAGES; lia)).
    change (MAX_PAGES * 200)%nat with WALK_LIMIT. rewrite drop_0.
    rewrite feed_cap; [| |done|rewrite map_size_empty, length_take; unfold WALK_LIMIT, MAX_SINGLE_FETCH_CAP in *; lia].
    2:{ apply nodup_first. }
    cbn. destruct (decide (length roster <= WALK_LIMIT)%nat) as [Hle|Hgt].
    + rewrite bool_decide_eq_true_2 by done. cbn. rewrite take_ge by done. done.
    + rewrite bool_decide_eq_false_2 by done. done.
Qed.

End Walk.

(** [all_participants] says [None] of conversations within the cap it was given: with a cap of
    five thousand or more it walks, and a walk sees 3200 members, so a conversation that is
    covered with a cap of 4999 is not covered with a larger one. *)
Theorem larger_cap_covers_fewer client ctx c roster `{!ServesRoster client ctx c roster} (cap : nat) :
  Str.is_blank c = false -> (WALK_LIMIT < length roster < MAX_SINGLE_FETCH_CAP)%nat -> (MAX_SINGLE_FETCH_CAP <= cap)%nat ->
  policy_all_participants client ctx c 4999 = Ok (Some (prefs_of roster)) /\ policy_all_participants client ctx c cap = Ok None.
Proof.
  intros Hc [Hw Hl] Hcap. rewrite !(all_participants_run client ctx c roster) by (done || (unfold MAX_SINGLE_FETCH_CAP in *; lia)).
  unfold cap_that_holds. change (decide (4999 < MAX_SINGLE_FETCH_CAP)%nat) with (decide (4999 < 5000)%nat).
  rewrite (decide_True (P := (4999 < 5000)%nat)) by lia. rewrite (decide_False (P := (cap < MAX_SINGLE_FETCH_CAP)%nat)) by lia.
  unfold MAX_SINGLE_FETCH_CAP in Hl. rewrite decide_True, decide_False by lia. done.
Qed.

(** ** The conversation service keeps the promise *)

Section Serves.
Context (require_user_id : ConversationStore.Ctx -> result string) (valid_micros : Z -> bool).
Context (version_of : Store -> string -> string -> Z) (others_may_see : ConversationStore.Ctx -> string -> bool).
(** How the service sees a caller of the push server. *)
Context (ctx_of : Ctx -> ConversationStore.Ctx).

(** The service over a store, with a network that works. *)
Definition service_client (st : Store) : ParticipantsClient := fun _ ctx c cursor limit =>
  (serve_participants require_user_id valid_micros version_of others_may_see calm (ctx_of ctx) c cursor limit (O, st)).1.

(** The members in their seats. *)
Definition roster_of (st : Store) (t c : string) : list (string * ParticipantRow) := seats t c st false InSeat.

(** A service calls for a tenant; ids and times of the conversation are as cursors can carry them. *)
Record readable (st : Store) (ctx : Ctx) (t c : string) : Prop := {
  rd_tenant : required_tenant (ctx_of ctx) = Ok t;
  rd_internal : ctx_internal (ctx_of ctx) = true;
  rd_trimmed : Str.trim c = c;
  rd_named : Str.is_empty c = false;
  rd_rows u r : participants st !! (t, c, u) = Some r ->
    u <> "" /\ trim_end u = u /\ i64_min <= joined_at r <= i64_max /\ valid_micros (joined_at r) = true;
  rd_total : Z.of_nat (length (members_of st t c (active false InSeat))) <= i64_max;
  rd_version : i64_min <= version_of st t c <= i64_max;
}.

Context (st : Store) (ctx : Ctx) (t c : string) (Hread : readable st ctx t c).

Definition stands (cursor : string) (k : nat) : Prop :=
  (cursor = "" /\ k = 0%nat) \/
  exists x totals, roster_of st t c !! pred k = Some x /\ k <> 0%nat /\ in_i64 totals /\ cursor <> "" /\
    parse_participant_cursor valid_micros (Some cursor) = cursor_at (Some x) totals.

(** The cursor of a fetch, and what lies beyond it. *)
Lemma stands_at cursor k : stands cursor k ->
  exists at_ totals, in_i64 totals /\
    parse_participant_cursor valid_micros (if Str.is_empty cursor then None else Some cursor) = cursor_at at_ totals /\
    beyond keyed at_ (roster_of st t c) = drop k (roster_of st t c).
Proof.
  intros [[-> ->]|(x & totals & Hx & Hk & Ht & Hne & Hp)].
  - exists None, (0, 0). split; [unfold in_i64, i64_min, i64_max; cbn; lia|]. split; [done|]. by rewrite drop_0.
  - exists (Some x), totals. split; [done|]. destruct cursor as [|a cursor]; [done|]. split; [exact Hp|].
    pose proof (seats_sorted t c st false InSeat) as Hs. fold (roster_of st t c) in Hs.
    rewrite <- (take_drop_middle _ _ _ Hx) in Hs. pose proof (beyond_split keyed _ _ _ (keyed_asym t c st false InSeat) Hs) as E.
    rewrite (take_drop_middle _ _ _ Hx) in E. rewrite E. f_equal. lia.
Qed.

(** What the service answers is a page of the listing. *)
Lemma serve_fetch n cursor limit page : 0 < limit ->
  fetch require_user_id valid_micros version_of (ctx_of ctx) c st limit false true InSeat
    (if Str.is_empty cursor then None else Some cursor) = Ok page ->
  service_client st n ctx c cursor limit
  = Ok (mkListResponse (page_participants page) (default "" (page_next_cursor page)) (page_has_more page)).
Proof.
  intros Hl Hf. unfold service_client, serve_participants, Str.is_blank.
  rewrite (rd_trimmed _ _ _ _ Hread), (rd_named _ _ _ _ Hread), (proj2 (Z.ltb_lt 0 limit) Hl).
  unfold Conversation.list_conversation_participants. unfold fetch in Hf. unfold mbind, stE_bind.
  destruct (MemberPages.list_conversation_participants _ _ _ _ _ _ _ _ _ _ _ _) as [r s]. cbn in Hf. subst r.
  unfold can_disclose_roster. by rewrite (rd_internal _ _ _ _ Hread).
Qed.

Lemma serve_run n cursor k limit : stands cursor k -> 0 < limit <= MAX_PARTICIPANT_PAGE_LIMIT ->
  exists next,
    service_client st n ctx c cursor limit
    = Ok (mkListResponse (take (Z.to_nat limit) (drop k (participant_from_row <$> roster_of st t c))) next
            (bool_decide (k + Z.to_nat limit < length (roster_of st t c))%nat)) /\
    ((k + Z.to_nat limit < length (roster_of st t c))%nat -> Str.is_blank next = false /\ stands next (k + Z.to_nat limit)).
Proof.
  intros Hst Hl. destruct (stands_at _ _ Hst) as (at_ & totals & Htot & Hcur & Hrest).
  destruct (fetch_run require_user_id valid_micros version_of (ctx_of ctx) t c st limit false true InSeat (rd_tenant _ _ _ _ Hread)
    (rd_trimmed _ _ _ _ Hread) (rd_named _ _ _ _ Hread) (or_introl (rd_internal _ _ _ _ Hread)) (rd_total _ _ _ _ Hread)
    (rd_version _ _ _ _ Hread) _ at_ totals Hcur Htot) as (totals' & Htot' & Hf).
  rewrite (serve_fetch _ _ _ _ (proj1 Hl) Hf). unfold answer, keyset_page. fold (roster_of st t c). rewrite Hrest.
  replace (Z.to_nat (clamp_participant_page_limit limit)) with (Z.to_nat limit) by (unfold clamp_participant_page_limit; lia).
  set (L := Z.to_nat limit). assert (HL : (0 < L)%nat) by lia. rewrite length_drop. cbn [page_participants page_next_cursor page_has_more].
  rewrite fmap_take, fmap_drop. destruct (Nat.ltb_spec L (length (roster_of st t c) - k)%nat) as [Hlt|Hge].
  - destruct (roster_of st t c !! pred (k + L)) as [x|] eqn:Hx; [|apply lookup_ge_None in Hx; lia].
    assert (Hlast : last (take L (drop k (roster_of st t c))) = Some x).
    { rewrite last_lookup, length_take, length_drop, lookup_take, decide_True, lookup_drop by lia. rewrite <- Hx. f_equal. lia. }
    rewrite Hlast. cbn. eexists. split; [by rewrite !bool_decide_eq_true_2 by (lia || by eexists)|]. intros _.
    destruct (rd_rows _ _ _ _ Hread x.1 x.2) as (Hu & He & Hj & Hm); [apply (seats_row t c st false InSeat); by eapply list_elem_of_lookup_2|].
    assert (Htrim := trim_encode (joined_at x.2) x.1 totals'.1 totals'.2 Hu He).
    split; [unfold Str.is_blank; by rewrite Htrim|]. right. exists x, totals'. split_and!; [done|lia|done|done|].
    rewrite parse_encode by (done || apply Htot'). unfold cursor_at. cbn. by destruct totals'.
  - eexists. split; [by rewrite !bool_decide_eq_false_2 by (lia || by intros [])|lia].
Qed.

Lemma roster_ids : NoDup (p_user_id <$> (participant_from_row <$> roster_of st t c)).
Proof.
  assert (E : p_user_id <$> (participant_from_row <$> roster_of st t c) = fst <$> roster_of st t c).
  { rewrite <- list_fmap_compose. apply list_fmap_ext. by intros i [u r] _. }
  rewrite E. unfold roster_of, seats. rewrite sort_by_perm. apply NoDup_members.
Qed.

#[export] Instance service_serves_roster : ServesRoster (service_client st) ctx c (participant_from_row <$> roster_of st t c).
Proof.
  refine {| cursor_stands := stands |}; [apply roster_ids|by left|].
  intros n cursor k limit Hst Hl. rewrite length_fmap. by apply serve_run.
Defined.

End Serves.

(** ** Phones of members *)

Section Rings.
Context (client : ParticipantsClient) (ctx : Ctx) (c : string) (roster : list ConversationParticipant).
Context `{!ServesRoster client ctx c roster}.

(** The preferences the router asks for hold those of every member that a walk sees. *)
Lemma asked_preferences ports p prefs :
  notify_policy ports = Some (ConversationNotifyPolicy client) -> Str.is_blank c = false ->
  (length roster <= WALK_LIMIT)%nat -> p ∈ roster -> preferences_asked ports ctx c (p_user_id p) prefs ->
  prefs !! p_user_id p = Some (preference_of p).
Proof.
  intros Hp Hc Hl Hin [(us & Hu & ->)|(policy & cap & Hp' & Ha & Hs)].
  - assert (us <> []) as Hne by (intros ->; by apply elem_of_nil in Hu). unfold notify_preferences.
    rewrite Hp, bool_decide_eq_false_2, Hc by done. cbn [orb preferences_for ConversationNotifyPolicy].
    rewrite (preferences_run client ctx c roster) by done. rewrite take_ge by done. apply prefs_lookup; [|by apply list_elem_of_filter].
    eapply sublist_NoDup; [apply roster_nodup|]. apply fmap_sublist, sublist_filter.
  - rewrite Hp in Hp'. injection Hp' as <-. cbn in Ha. destruct (decide (cap = 0%nat)) as [->|Hcap].
    { unfold policy_all_participants in Ha. rewrite Hc in Ha. injection Ha as <-. rewrite lookup_empty in Hs. by destruct Hs. }
    rewrite (all_participants_run client ctx c roster) in Ha by (done || lia). destruct (decide _); [|done]. injection Ha as <-.
    apply prefs_lookup; [apply roster_nodup|done].
Qed.

End Rings.

(** C24. A phone does not ring for a conversation its owner muted. When the push server reads
    preferences from the conversation service, and a conversation has at most 3200 members in
    their seats, then whatever is pushed, and whatever fails to be published, a task that rings the
    phone of a member for that conversation is published only if their row is not muted and, when it
    asks for mentions only, the push mentions them. *)
Theorem muted_members_are_not_rung {Bytes} `{PushCodecLaws Bytes} require_user_id valid_micros version_of others_may_see
    ctx_of st t c u r (ports : RouterPorts) fault call n (w : World Bytes) :
  notify_policy ports
    = Some (ConversationNotifyPolicy (service_client require_user_id valid_micros version_of others_may_see ctx_of st)) ->
  readable valid_micros version_of ctx_of st (call_ctx call) t c ->
  (length (roster_of st t c) <= WALK_LIMIT)%nat ->
  participants st !! (t, c, u) = Some r -> is_deleted r = false -> quit r = false ->
  exists k, published (run_call ports fault call (n, w)).2.2 = published w ++ (mkPublished (call_ctx call) <$> k) /\
    forall p task req, p ∈ k -> pt_online p = false -> task_request p = Some (task, req) ->
      task_conversation_id task = c -> task_user_id task = u ->
      muted r = false /\
      (mention_only r = true -> mentions (mention_targets (task_payload_kind task) (task_payload task)) u = true).
Proof.
  intros Hp Hread Hl Hr Hd Hq. destruct (run_call_allowed ports fault call n w) as (k & E & Hk). exists k. split; [done|].
  intros p task req Hpk Hoff Htask Hc Hu. rewrite Forall_forall in Hk. destruct (Hk p Hpk) as (task' & req' & Et & _ & Hring).
  rewrite Htask in Et. injection Et as <- <-. destruct (Hring Hoff) as (_ & _ & _ & prefs & Hasked & Hs).
  assert (Hin : participant_from_row (u, r) ∈ participant_from_row <$> roster_of st t c).
  { apply list_elem_of_fmap_2. unfold roster_of, seats. rewrite elem_of_sort_by. apply elem_of_members. cbn. by rewrite Hd, Hq. }
  pose proof (service_serves_roster require_user_id valid_micros version_of others_may_see ctx_of st (call_ctx call) t c Hread) as Hserve.
  rewrite Hc, Hu in *.
  pose proof (asked_preferences _ (call_ctx call) c _ ports (participant_from_row (u, r)) prefs Hp) as Hpref.
  rewrite length_fmap in Hpref. specialize (Hpref ltac:(unfold Str.is_blank; rewrite (rd_trimmed _ _ _ _ _ _ _ Hread); apply (rd_named _ _ _ _ _ _ _ Hread)) Hl Hin Hasked).
  cbn in Hpref. unfold silenced in Hs. rewrite Hpref in Hs. cbn in Hs. apply orb_false_iff in Hs as [Hm Hmo]. split; [done|].
  intros Hmention. rewrite Hmention in Hmo. cbn in Hmo. by apply negb_false_iff in Hmo.
Qed.

(** ** An example: four members *)

Module Four.
(** Bob muted the conversation; carol and dave listen to mentions only. *)
Definition row (m only : bool) : ParticipantRow :=
  mkParticipantRow ["member"] m false ∅ 1 "" 0 0 0 false false 1 None false 0 only 0.
Definition store : Store :=
  mkStore ∅ {[("acme", "c1", "alice") := row false false; ("acme", "c1", "bob") := row true false;
              ("acme", "c1", "carol") := row false true; ("acme", "c1", "dave") := row false true]} ∅ ∅ ∅ ∅ ∅.
(** The push server signs as a service. *)
Definition ctx_of (ctx : Ctx) : ConversationStore.Ctx := ConversationStore.mkCtx (ctx_tenant_id ctx) None true.
Definition no_user (ctx : ConversationStore.Ctx) : result string := Err (flare_err InvalidParameter "user_id is required").
Definition client : ParticipantsClient := service_client no_user (fun _ => true) (fun _ _ _ => 0) (fun _ _ => false) ctx_of store.
Definition ports : RouterPorts := mkPorts (fun _ _ => Ok {[ "alice" := true ]}) (fun _ _ => Ok []) (Some (ConversationNotifyPolicy client)) None 1000.

Lemma is_readable : readable (fun _ => true) (fun _ _ _ => 0) ctx_of store sample_ctx "acme" "c1".
Proof.
  split; [done..| |unfold i64_max; vm_compute; done|unfold i64_min, i64_max; lia].
  intros u r Hr. cbn [participants store] in Hr.
  repeat (apply lookup_insert_Some in Hr as [[[= <-] <-]|[_ Hr]]; [split_and!; done|]).
  apply lookup_singleton_Some in Hr as [[= <-] <-]. split_and!; done.
Qed.
End Four.

(** Only carol's phone rings: she is mentioned. *)
Lemma muted_members_are_not_rung_witness :
  exists k,
    published (run_call Four.ports calm (CallEvent "f" 0 sample_ctx hello_event) (O, empty_world)).2.2 = mkPublished sample_ctx <$> k /\
    (reached <$> filter (fun p => pt_online p = false) k) = [["carol"]] /\
    forall p task req, p ∈ k -> pt_online p = false -> task_request p = Some (task, req) ->
      task_conversation_id task = "c1" -> task_user_id task = "dave" ->
      false = false /\ (true = true -> mentions (mention_targets (task_payload_kind task) (task_payload task)) "dave" = true).
Proof.
  destruct (muted_members_are_not_rung Four.no_user (fun _ => true) (fun _ _ _ => 0) (fun _ _ => false) Four.ctx_of Four.store "acme" "c1"
    "dave" (Four.row false true) Four.ports calm (CallEvent "f" 0 sample_ctx hello_event) O empty_world eq_refl Four.is_readable)
    as (k & E & Hk); [vm_compute; lia|reflexivity..|].
  exists k. split; [exact E|]. split; [|exact Hk].
  assert (Ek : pub_task <$> published (run_call Four.ports calm (CallEvent "f" 0 sample_ctx hello_event) (O, empty_world)).2.2 = k).
  { rewrite E. cbn [published empty_world app]. rewrite <- list_fmap_compose. apply list_fmap_id. }
  rewrite <- Ek. vm_compute. reflexivity.
Defined.
